(* ===== verification/_CoqProject ===== *)
-Q . S2P
Prelude.v
CString.v
CFormat.v
DaemonArgs.v
Crc32.v
UtHash.v
Lru.v
ZdtunTypes.v
ZdtunPkt.v
ParseMore.v
IpLru.v
UidLru.v
UidProc.v
ZdtunConn.v
PortMap.v
PcapDump.v
PcapSpec.v
PcapRead.v
PcapSafe.v
Patricia.v
Ptree.v
Blacklist.v
PdDns.v
NdpiConf.v
ZdtunWire.v
InetSum.v
ZdtunReply.v
PdTypes.v
PdCheck.v
PdNotify.v
PdConn.v
PdProcess.v
PdHouse.v
PdVpn.v
PdJni.v
PdFrame.v
PdOwn.v
PdLife.v
PdSend.v
PdSafe.v
PdVpnSafe.v
PdRuns.v
PdCapture.v
PdSpoof.v
PdTyped.v
PdQuiet.v
PdReload.v
PdBlock.v
PdRetire.v
ZdtunState.v
ZdtunTcp.v
ZdtunFwd.v
ZdtunInv.v
ZdtunClose.v
ZdtunSafe.v
ZdtunApi.v
ZdtunEvents.v
ZdtunOrder.v
VpnLoop.v
VpnRefine.v
VpnRun.v
Libpcap.v
LibpcapConn.v
LibpcapSafe.v
LibpcapRuns.v
LibpcapUid.v
NlUtils.v
NlSpec.v
Pcapd.v
PcapdSpec.v
PcapdRun.v
LibpcapStart.v
LibpcapSys.v
