(* ===== verification/Prelude.v ===== *)
(** * Verification of the packet-capture core of ptnet-library

    The native code under src/shared/src/androidMain/jni captures the traffic of an
    Android device, attributes it to applications, blocks part of it, and hands
    connections, payloads and PCAP dumps to the Java side.  Paths below are relative
    to that directory.

    ** The program

    Two capture loops share one core.  With a VPN (core/capture_vpn.c) the packets of
    the device arrive on a TUN descriptor and submodules/zdtun forwards them over
    ordinary sockets: it is a small TCP, UDP and ICMP proxy with SOCKS5.  With root
    (core/capture_libpcap.c) a daemon, pcapd/pcapd.c, captures with libpcap, finds
    the UID of each packet (common/uid_resolver.c, pcapd/nl_utils.c, the cache of
    common/uid_lru.c) and sends header and bytes over a socket; the same loop imports
    PCAP files.  The core (core/pcapdroid.c) keeps a connection object per flow: it
    asks nDPI for the protocol, tests it against the lists (core/blacklist.c over the
    address sets of nDPI, core/ip_lru.c for the host names DNS replies taught),
    accounts packets, queues new and changed connections for the Java side
    (core/jni_impl.c), writes the PCAP dump (core/pcap_dump.c, core/crc32.c), applies
    port mappings (core/port_map.c), and reloads lists from a second thread.

    ** The files

    Shared vocabulary
    - Prelude: machine integers, byte strings and bounds-checked memory, byte order,
      the state monad of the C functions with [wp] (it runs, and then) and [wlp] (if
      it runs, then), record updates, hint databases.
    - CString, CFormat: <string.h>, <stdlib.h>, <stdio.h>: [atoi], [fgets], [%d] and
      [%0wX], [strtok_r], [sscanf], with the fact that what is printed is read back.
    - UtHash, Lru: the tables of uthash as their application list; what an LRU cache
      promises, and its simulation by such a list.

    Components with a state of their own
    - Crc32 (core/crc32.c); IpLru (core/ip_lru.c); UidLru (common/uid_lru.c);
      PortMap (core/port_map.c).
    - Patricia, Ptree (ndpi_patricia.c and [ndpi_ptree_t] of nDPI); Blacklist
      (core/blacklist.c); NdpiConf (core/ndpi_config.c); PdDns
      ([process_dns_reply] of core/pcapdroid.c).
    - PcapDump (core/pcap_dump.c); PcapSpec (what a dump contains), PcapRead (readers
      written from the formats, and the round trips), PcapSafe (the dumper at any
      time).

    zdtun (submodules/zdtun/zdtun.c, utils.c, socks5.c)
    - ZdtunTypes, ZdtunConn: its data; ZdtunPkt: [zdtun_parse_pkt]; ParseMore: bytes
      behind a packet do not matter; ZdtunWire: checksums and headers; InetSum: the
      receiver of RFC 1071, written from the formats; ZdtunReply: what is built is
      what is parsed, and verifies there.
    - ZdtunState: sockets, tables, [zdtun_conn_close]; ZdtunTcp, ZdtunFwd: the
      handlers and entry points; ZdtunInv: the invariant; ZdtunClose: closing, lookup
      and purge; ZdtunSafe, ZdtunApi: every handler, then every sequence of calls.
    - ZdtunEvents, ZdtunOrder: what zdtun calls back, as an automaton of the program
      that listens, and that every handler keeps to it.

    The capture core
    - PdTypes ([pcapdroid_t], [pd_conn_t], the environment), PdCheck and PdConn
      (creation and lists), PdNotify (the two arrays and the dump to Java), PdProcess
      (packets), PdHouse (housekeeping and the worker), PdVpn (core/capture_vpn.c),
      PdJni (the entry points of core/jni_impl.c).  One Definition per C function,
      named as in the source; a long function is cut where the comments of the
      definitions say.
    - PdFrame (what an operation leaves alone), PdOwn (the ownership invariant),
      PdLife, PdSend, PdSafe, PdVpnSafe (each operation keeps it), PdRuns (steps and
      runs), PdCapture, PdTyped, PdReload, PdBlock, PdSpoof (the properties), PdQuiet
      (what the other steps leave to the housekeeping).
    - VpnLoop ([run_vpn] over zdtun, whose callbacks are those of the capture),
      VpnRefine and VpnRun (a run of it is a run of PdRuns).

    The capture with root
    - Libpcap (core/capture_libpcap.c), PdRetire and LibpcapSafe (its invariant),
      LibpcapRuns (runs), LibpcapConn (the end of TCP connections), LibpcapUid (UIDs
      in imported files).
    - UidProc (common/uid_resolver.c), DaemonArgs (the command line of the daemon and
      the UID filter on both sides), NlUtils (pcapd/nl_utils.c) and NlSpec (what the
      kernel answers), Pcapd (pcapd/pcapd.c, [xread] and [xwrite] of common/utils.c),
      PcapdSpec (daemon and capture together), PcapdRun (a run of the daemon from its
      command line to its cleanup).
    - LibpcapStart ([connectPcapd] and what surrounds the loop of [run_libpcap],
      [start_subprocess] and [run_shell_cmd] of common/utils.c) and LibpcapSys (what
      it leaves behind).

    ** How the code is represented

    A C function is a function on an explicit state.  [None] is undefined behaviour
    (an access outside a buffer, a use after free, a NULL dereference, a failed
    assertion) and, for functions with fuel, an exhausted fuel, so "the result is
    [Some]" is memory safety and termination together.  A buffer is the list of its
    bytes; integers are [Z] with their wrap-around written out ([u8] to [u64], [i32],
    [i64]); the machine is little-endian.  Objects several places point to
    (connections of zdtun and of the core) live in a heap indexed by addresses never
    used again, so that a dangling pointer is a failed lookup.  [HASH_DELETE] goes by
    key; keys of a table are unique, which is proved where it matters.  What the code
    calls and does not contain (allocation, system calls, JNI, nDPI, the clock, files)
    answers through arguments: the class [PdEnv], the sequence [sys] of zdtun,
    [InetPton], [malloc] and [appname] of the dumper.  Threads other than the loop
    (calls of the Java side, the worker that loads lists) are steps between the steps
    of the loop; finer interleavings are not represented.  In VpnLoop the result of a
    callback is needed before zdtun goes on, so it is one of zdtun's answers, and the run
    is [Unreal], not one of the program, when the capture would have answered otherwise.

    ** What the theorems show

    - The VPN capture as one program.  [VpnRun.vpn_loop_refines]: the loop over zdtun,
      with what each calls of the other, is not undefined in the sessions its hypotheses
      describe, and what happens to the capture is one of the sequences of steps PdRuns
      allows; so the properties of all of them below hold of it.  [ZdtunOrder.callbacks_in_order] is the contract the two
      meet at: a connection is named only between its opening and its end.
    - Safety of whole runs.  [PdCapture.capture_safe] (VPN) and
      [LibpcapRuns.libpcap_safe] (root): any sequence of packets, callbacks, turns,
      housekeeping, Java calls and worker steps is defined, under the hypotheses below.
      [ZdtunApi.zdtun_safe]: the same for every sequence of calls of zdtun, for every
      behaviour of peers and system calls, but for the options of a SYN.  [ZdtunPkt.zdtun_parse_pkt_safe] and [PdDns.process_dns_reply_safe]
      for arbitrary bytes.  [DaemonArgs.daemon_command_words]: what the user typed
      for an interface never becomes a shell command.
    - Ownership.  [capture_no_leak], [libpcap_no_leak]: an allocated connection is in
      use or waits in one array, and none is left at the end, but for the connections
      zdtun gives up without a socket and never tells closed
      ([lost_connection_stays]).
    - Types and progress.  [PdTyped.capture_typed]: the fields keep the values of
      their C types in every reachable state.  [PdReload.reload_completes]: a reload
      is started by five turns within 300 ms, whatever happens between them, and in use
      after five such turns once the worker ended.
      [Blacklist.load_file_total]: loading a list ends.
      [PcapdRun.daemon_run_closes]: the handles of libpcap, whatever happens to the
      interfaces.  [LibpcapSys.root_capture_restores]: the processes, descriptors and
      rules of iptables of a capture with root, however it ends.
    - Decisions.  [PdBlock.new_connection_judged], [recheck_decides]: which
      connections are blocked, as one formula of the lists, at creation and when the
      lists change.  [LibpcapConn.tcp_end_decided]: when a TCP connection counts as
      reset or closed.  [UidProc.uid_slow_owner], [NlSpec.sock_diag_answers]: whom a
      connection belongs to.  [NlSpec.route_all_but_last]: what a route message says.
      [Blacklist.blacklist_history], [load_domains_spec], [Ptree.ptree_refines],
      [PortMap.port_map_first_match].
    - Data that travels.  [PcapRead]: the three dump formats are read back by
      independent readers.  [LibpcapUid.uid_recovered]: the UID in a trailer is found
      when the file is imported.  [PcapdSpec.stream_roundtrip] and
      [daemon_attribution]: from the daemon to the connection table of the capture.
      [ZdtunReply.tcp_reply_parses], [tcp_reply_checksum], [PdSpoof]: packets that are
      built are the packets their receivers parse.  [PdDns.dns_reply_roundtrip].
    - Caches and checksums.  [IpLru.ip_lru_refines], [UidLru.uid_lru_refines]: a
      time-stamped LRU cache.  [Crc32.crc32_correct]: the bitwise CRC-32.
    - Where the code fails.  [DaemonArgs.uid_filter_stuck] (the loop over the UID
      filter does not advance), [ZdtunApi.syn_ok_needed] (SYN options),
      [ZdtunReply.ipv6_reply_through_ipv4_proxy] (the version of the headers),
      [PdCapture.capture_assumptions_needed] (failed JNI calls and allocations), and
      Examples next to the definitions they concern.

    ** Hypotheses

    [env_ok]: the allocations the code does not check succeed, nDPI answers with its
    protocol numbers, memory has the size asked for, numbers in list files fit an
    [int] ([atoi] is undefined otherwise).  [start_mem]: the first allocations of a
    capture.  [jni_ok]: no JNI call fails; only the ownership properties need it, and
    [capture_assumptions_needed] shows why.  [syn_ok]: the options of a SYN are ones
    the parser survives, with a scale of at most 15, above which a window of 16 bits can
    overflow an [int], and an MSS the reply buffer has room for; [syn_ok_needed] shows
    that each part is needed.  A SYN with a NOP, as Linux sends it, is parsed past its
    end: it satisfies [syn_ok] when the bytes behind it in the buffer end the options, as
    in the session of [VpnRun], and does not when nothing is behind it.  [java_ok]:
    strings of the Java side are byte strings of bounded length.  [input_ok]: a frame
    of the daemon leaves the 16 bytes the DNS parser reads past the end.  [tables_ok]: the
    lines of /proc/net have the format and widths the kernel documents.  [fd_ok]: the
    descriptors of the daemon fit an [fd_set], libpcap always has one for [select].
    [kernel_ok]: the datagrams a kernel sends for a sock_diag request, for the owners of
    connections.  [sys_wf]: descriptors and processes are numbered by a counter;
    of the calls of that part, pipes are assumed to be created and children to be waited
    for.
    [turn_ok]: packets are no longer than the snap length.  [session_ok]: what is read
    from the TUN descriptor leaves 16 bytes of the buffer, its SYNs are [syn_ok], and the
    calls of the Java side are [java_ok].  [READ_MAX]: a read of a socket leaves room for
    the headers and 16 bytes in the buffer of the replies; [vpn_loop_refines] needs it,
    because the capture reads DNS replies up to 16 bytes past their end, and
    [callbacks_in_order] only for the room behind a packet.

    ** Bounds and fuel

    The loops over a buffer have the length of the buffer as fuel, those over a file
    one more than its bytes, those over a list its length, those over the bits of an
    address the number of bits; each safety theorem shows that this is enough.
    [fold_carry] has three turns ([fold_carry_spec]); [conn_close] and
    [handle_socks5_reply] call themselves at most once, so they have fuel 2
    ([ZdtunClose] and [ZdtunSafe] show that it is not exhausted).  [matches_uid_filter] is
    the one loop no fuel is enough for: [uid_filter_stuck] proves it.  [xread] and
    [xwrite] recurse on the list of system calls that return.

    ** What is not modelled

    nDPI's dissectors, libpcap, the MaxMind reader, uthash itself, generated code and
    the examples of zdtun are third-party: their answers are arguments, and theorems
    hold for every answer.  Of the program: the descriptors [select] is given (what it
    answers is a list of inputs); in the daemon the PID file, signals, and the addresses of an
    interface (an argument); the Java glue that only converts values (common/jni_utils.c, the getters of
    core/jni_impl.c), logging (core/log_writer.c, common/memtrack.h).  In the root
    mode the union member [vpn] is not read: [vpn_unused] stands for its bytes, and
    [last_ack] shares the byte of [pending_dns_queries] as in the source.  Freeing the
    lists and tables at the end of a capture is not followed; connections are.  Signed
    counters ([pd_account_stats], the connections checked, the discarded fragments) wrap
    around, where C leaves their overflow undefined: the safety theorems do not speak of
    it.  The sizes of the two arrays ([notif_connection]) are numbers without a width,
    and [fw_pctx] is held by value, so that it cannot dangle as it does in the code. *)

(** ** This file

    Machine integers, byte strings, byte order, the state monad of the C functions
    and the generic lemmas. *)

From stdpp Require Export base tactics numbers list gmap sets strings.
From Stdlib Require Export ZArith Lia Bool.
From Stdlib Require Export Sorting.Sorted.
From Stdlib Require Import Btauto.
#[export] Set Default Goal Selector "!".
#[global] Open Scope Z_scope.

(** ** Notations for C bit operators, in a scope of their own *)

Declare Scope c_scope.
Delimit Scope c_scope with C.
Infix ".&" := Z.land (at level 40, left associativity) : c_scope.
Infix ".|" := Z.lor (at level 45, left associativity) : c_scope.
Infix ".^" := Z.lxor (at level 43, left associativity) : c_scope.
Infix "<<<" := Z.shiftl (at level 38, left associativity) : c_scope.
Infix ">>>" := Z.shiftr (at level 38, left associativity) : c_scope.
#[global] Open Scope c_scope.

(** ** Machine integers: unsigned [uN] and two's complement [iN] conversions *)

Definition uwrap (w z : Z) : Z := z mod 2 ^ w.
Definition iwrap (w z : Z) : Z := (z + 2 ^ (w - 1)) mod 2 ^ w - 2 ^ (w - 1).
Abbreviation u8 := (uwrap 8).
Abbreviation u16 := (uwrap 16).
Abbreviation u32 := (uwrap 32).
Abbreviation u64 := (uwrap 64).
Abbreviation i32 := (iwrap 32).
Abbreviation i64 := (iwrap 64).

Definition u_ok (w z : Z) : Prop := 0 <= z < 2 ^ w.
#[export] Instance u_ok_dec w z : Decision (u_ok w z).
Proof. unfold u_ok. apply _. Defined.

Definition bytes_ok (l : list Z) : Prop := Forall (u_ok 8) l.
#[export] Instance bytes_ok_dec l : Decision (bytes_ok l).
Proof. unfold bytes_ok. apply _. Defined.

Create HintDb cint.

Lemma uwrap_ok w z : 0 <= w -> u_ok w (uwrap w z).
Proof. intros Hw. apply Z.mod_pos_bound. lia. Qed.
#[export] Hint Resolve uwrap_ok : cint.

Lemma uwrap_id w z : u_ok w z -> uwrap w z = z.
Proof. apply Z.mod_small. Qed.

Lemma uwrap_land w z : 0 <= w -> uwrap w z = Z.land z (Z.ones w).
Proof. intros. unfold uwrap. by rewrite Z.land_ones. Qed.

Lemma uwrap_add_l w a b : uwrap w (uwrap w a + b) = uwrap w (a + b).
Proof. apply Zplus_mod_idemp_l. Qed.

Lemma iwrap_id w z :
  0 < w -> - 2 ^ (w - 1) <= z < 2 ^ (w - 1) -> iwrap w z = z.
Proof.
  intros Hw Hz. unfold iwrap. rewrite Z.mod_small; [lia|].
  replace w with ((w - 1) + 1) at 3 by lia. rewrite Z.pow_add_r by lia. lia.
Qed.

Lemma u_ok_testbit w z i : 0 <= w -> u_ok w z -> w <= i -> Z.testbit z i = false.
Proof.
  intros Hw Hz Hi. rewrite <-(Z.mod_small z (2 ^ w)) by apply Hz.
  by apply Z.mod_pow2_bits_high.
Qed.

(** A number whose bits from [w] on are clear is a [w]-bit number. *)
Lemma testbit_u_ok w z :
  0 <= w -> (forall i, w <= i -> Z.testbit z i = false) -> u_ok w z.
Proof.
  intros Hw H.
  assert (z = z mod 2 ^ w) as ->; [|by apply Z.mod_pos_bound; lia].
  apply Z.bits_inj'. intros i Hi. destruct (decide (i < w)).
  - by rewrite Z.mod_pow2_bits_low.
  - rewrite Z.mod_pow2_bits_high by lia. apply H. lia.
Qed.

Lemma lxor_ok w a b : 0 <= w -> u_ok w a -> u_ok w b -> u_ok w (Z.lxor a b).
Proof.
  intros Hw Ha Hb. apply testbit_u_ok; [done|]. intros i Hi.
  rewrite Z.lxor_spec, (u_ok_testbit w a), (u_ok_testbit w b); done.
Qed.
Lemma lor_ok w a b : 0 <= w -> u_ok w a -> u_ok w b -> u_ok w (Z.lor a b).
Proof.
  intros Hw Ha Hb. apply testbit_u_ok; [done|]. intros i Hi.
  rewrite Z.lor_spec, (u_ok_testbit w a), (u_ok_testbit w b); done.
Qed.
Lemma land_ok_l w a b : 0 <= w -> u_ok w a -> u_ok w (Z.land a b).
Proof.
  intros Hw Ha. apply testbit_u_ok; [done|]. intros i Hi.
  rewrite Z.land_spec, (u_ok_testbit w a); done.
Qed.
Lemma land_ok_r w a b : 0 <= w -> u_ok w b -> u_ok w (Z.land a b).
Proof. intros. rewrite Z.land_comm. by apply land_ok_l. Qed.
Lemma shiftr_ok w a n : 0 <= w -> 0 <= n -> u_ok w a -> u_ok w (Z.shiftr a n).
Proof.
  intros Hw Hn Ha. apply testbit_u_ok; [done|]. intros i Hi.
  rewrite Z.shiftr_spec by lia. apply (u_ok_testbit w); [done..|lia].
Qed.
#[export] Hint Resolve lxor_ok lor_ok land_ok_l land_ok_r shiftr_ok : cint.

(** [~x] on an unsigned [w]-bit integer. *)
Definition ulnot (w z : Z) : Z := uwrap w (Z.lnot z).

Lemma ulnot_ok w z : 0 <= w -> u_ok w (ulnot w z).
Proof. apply uwrap_ok. Qed.
#[export] Hint Resolve ulnot_ok : cint.

Lemma ulnot_lxor w z : 0 <= w -> u_ok w z -> ulnot w z = Z.lxor z (Z.ones w).
Proof.
  intros Hw Hz. unfold ulnot, uwrap. apply Z.bits_inj'. intros i Hi.
  rewrite Z.lxor_spec, Z.testbit_ones by lia.
  destruct (decide (i < w)).
  - rewrite Z.mod_pow2_bits_low, Z.lnot_spec by lia.
    replace (0 <=? i) with true by lia. replace (i <? w) with true by lia.
    simpl. by destruct (Z.testbit z i).
  - rewrite Z.mod_pow2_bits_high by lia.
    rewrite (u_ok_testbit w z) by (try done; lia).
    replace (i <? w) with false by lia. by rewrite andb_false_r.
Qed.

Lemma ulnot_involutive w z : 0 <= w -> u_ok w z -> ulnot w (ulnot w z) = z.
Proof.
  intros Hw Hz. rewrite !ulnot_lxor; auto with cint.
  by rewrite Z.lxor_assoc, Z.lxor_nilpotent, Z.lxor_0_r.
Qed.

(** ** Byte order: the targets are little endian *)

Fixpoint le_bytes (n : nat) (z : Z) : list Z :=
  match n with
  | O => []
  | S n' => (z mod 256) :: le_bytes n' (z / 256)
  end.

Fixpoint le_val (l : list Z) : Z :=
  match l with
  | [] => 0
  | b :: l' => b + 256 * le_val l'
  end.

Lemma length_le_bytes n z : length (le_bytes n z) = n.
Proof. revert z; induction n; intros; simpl; auto. Qed.

Lemma le_bytes_ok n z : bytes_ok (le_bytes n z).
Proof.
  revert z; induction n as [|n IH]; intros; simpl; constructor; auto.
  - apply Z.mod_pos_bound. lia.
  - apply IH.
Qed.
#[export] Hint Resolve le_bytes_ok : cint.

Lemma le_val_le_bytes n z : le_val (le_bytes n z) = z mod 2 ^ (8 * Z.of_nat n).
Proof.
  revert z; induction n as [|n IH]; intros z.
  - simpl. by rewrite Z.mod_1_r.
  - cbn [le_bytes le_val]. rewrite IH.
    replace (8 * Z.of_nat (S n)) with (8 + 8 * Z.of_nat n) by lia.
    rewrite Z.pow_add_r by lia. change (2 ^ 8) with 256.
    rewrite Z.rem_mul_r by lia. lia.
Qed.

Lemma le_val_bound l :
  bytes_ok l -> 0 <= le_val l < 2 ^ (8 * Z.of_nat (length l)).
Proof.
  induction 1 as [|b l Hb Hl IH]; [simpl; lia|].
  cbn [le_val length].
  replace (8 * Z.of_nat (S (length l))) with (8 + 8 * Z.of_nat (length l)) by lia.
  rewrite Z.pow_add_r by lia. unfold u_ok in Hb. lia.
Qed.

Lemma le_bytes_le_val l : bytes_ok l -> le_bytes (length l) (le_val l) = l.
Proof.
  induction 1 as [|b l Hb Hl IH]; [done|]. unfold u_ok in Hb. cbn.
  f_equal.
  - rewrite Z.mul_comm, Z_mod_plus_full. apply Z.mod_small. lia.
  - rewrite Z.mul_comm, Z.div_add by lia. rewrite Z.div_small by lia.
    apply IH.
Qed.

Lemma le_bytes_inj n a b :
  u_ok (8 * Z.of_nat n) a -> u_ok (8 * Z.of_nat n) b ->
  le_bytes n a = le_bytes n b -> a = b.
Proof.
  intros Ha Hb H. apply (f_equal le_val) in H.
  rewrite !le_val_le_bytes, !Z.mod_small in H; done.
Qed.

(** [htons]/[ntohs], [htonl]/[ntohl] on a little-endian machine. *)
Definition bswap16 (z : Z) : Z := le_val (rev (le_bytes 2 z)).
Definition bswap32 (z : Z) : Z := le_val (rev (le_bytes 4 z)).
#[global] Arguments bswap16 : simpl never.
#[global] Arguments bswap32 : simpl never.
#[global] Arguments uwrap : simpl never.
#[global] Arguments iwrap : simpl never.
#[global] Arguments ulnot : simpl never.
Abbreviation htons := bswap16.
Abbreviation ntohs := bswap16.
Abbreviation htonl := bswap32.
Abbreviation ntohl := bswap32.

Lemma bytes_ok_rev l : bytes_ok l -> bytes_ok (rev l).
Proof. unfold bytes_ok. rewrite rev_alt. apply Forall_reverse. Qed.

Lemma le_val_rev_involutive n z :
  u_ok (8 * Z.of_nat n) z ->
  le_val (rev (le_bytes n (le_val (rev (le_bytes n z))))) = z.
Proof.
  intros Hz.
  rewrite <-(length_le_bytes n z) at 1. rewrite <-length_rev.
  rewrite le_bytes_le_val by (apply bytes_ok_rev; auto with cint).
  rewrite rev_involutive, le_val_le_bytes. by apply Z.mod_small.
Qed.

Lemma bswap16_involutive z : u_ok 16 z -> bswap16 (bswap16 z) = z.
Proof. apply (le_val_rev_involutive 2). Qed.
Lemma bswap32_involutive z : u_ok 32 z -> bswap32 (bswap32 z) = z.
Proof. apply (le_val_rev_involutive 4). Qed.

Lemma bswap16_ok z : u_ok 16 (bswap16 z).
Proof.
  pose proof (le_val_bound (rev (le_bytes 2 z))) as H.
  rewrite length_rev, length_le_bytes in H. apply H.
  apply bytes_ok_rev. auto with cint.
Qed.
Lemma bswap32_ok z : u_ok 32 (bswap32 z).
Proof.
  pose proof (le_val_bound (rev (le_bytes 4 z))) as H.
  rewrite length_rev, length_le_bytes in H. apply H.
  apply bytes_ok_rev. auto with cint.
Qed.
#[export] Hint Resolve bswap16_ok bswap32_ok : cint.

Lemma le_val_cons_lxor b l :
  u_ok 8 b -> bytes_ok l -> le_val (b :: l) = b .^ (le_val l <<< 8).
Proof.
  intros Hb Hl. cbn [le_val].
  rewrite Z.shiftl_mul_pow2 by lia. rewrite <-Z.add_nocarry_lxor; [lia|].
  apply Z.bits_inj'. intros i Hi.
  rewrite Z.land_spec, Z.bits_0, <-Z.shiftl_mul_pow2 by lia.
  destruct (decide (i < 8)).
  - by rewrite Z.shiftl_spec_low, andb_false_r by lia.
  - by rewrite (u_ok_testbit 8) by (done || lia).
Qed.

(** A number split at bit [n]. *)
Lemma split_low n z :
  0 <= n -> 0 <= z -> z = ((z >>> n) <<< n) .^ (z .& Z.ones n).
Proof.
  intros Hn Hz. apply Z.bits_inj'. intros i Hi.
  rewrite Z.lxor_spec, Z.land_spec, Z.testbit_ones by lia.
  destruct (decide (i < n)).
  - rewrite Z.shiftl_spec_low by lia. rewrite xorb_false_l.
    replace (0 <=? i) with true by lia. replace (i <? n) with true by lia.
    by rewrite andb_true_r.
  - rewrite Z.shiftl_spec_high, Z.shiftr_spec by lia.
    replace (i - n + n) with i by lia. replace (i <? n) with false by lia.
    by rewrite andb_false_r, andb_false_r, xorb_false_r.
Qed.

(** A decidable check over [0 .. n-1], for tables evaluated by the kernel. *)
Lemma forallb_below (P : Z -> bool) (n : nat) i :
  forallb P (Z.of_nat <$> seq 0 n) = true -> 0 <= i < Z.of_nat n -> P i = true.
Proof.
  intros H Hi. rewrite forallb_forall in H. apply H.
  apply list_elem_of_In, list_elem_of_fmap. exists (Z.to_nat i).
  split; [lia|]. apply elem_of_seq. lia.
Qed.

Lemma fold_left_cons {A B} (f : A -> B -> A) b l a :
  fold_left f (b :: l) a = fold_left f l (f a b).
Proof. done. Qed.

(** ** The C functions as a state monad

    [None] is undefined behaviour of the C program: a read or write outside an
    object, a NULL or dangling pointer dereferenced.  A theorem that a run
    [is_Some] is therefore a memory-safety statement. *)

Definition M (S A : Type) : Type := S -> option (A * S).

#[export] Instance M_ret S : MRet (M S) := fun A a s => Some (a, s).
#[export] Instance M_bind S : MBind (M S) :=
  fun A B f m s => match m s with Some (a, s') => f a s' | None => None end.

Definition getS {S} : M S S := fun s => Some (s, s).
Definition putS {S} (s : S) : M S unit := fun _ => Some (tt, s).
Definition modifyS {S} (f : S -> S) : M S unit := fun s => Some (tt, f s).
Definition ub {S A} : M S A := fun _ => None.
Definition liftO {S A} (o : option A) : M S A :=
  fun s => match o with Some a => Some (a, s) | None => None end.
Definition whenM {S} (b : bool) (m : M S unit) : M S unit :=
  if b then m else mret tt.

Section run.
Context {S A B : Type}.
Implicit Types (f : A -> M S B) (s : S).

Lemma bind_ret a f s : ((mret a : M S A) ≫= f) s = f a s.
Proof. done. Qed.
Lemma bind_lift a f s : (liftO (Some a) ≫= f) s = f a s.
Proof. done. Qed.
Lemma bind_lift_None f s : (liftO None ≫= f) s = None.
Proof. done. Qed.
Lemma bind_run (m : M S A) f s a s' : m s = Some (a, s') -> (m ≫= f) s = f a s'.
Proof. intros H. unfold mbind, M_bind. by rewrite H. Qed.
Lemma bind_assoc {C} (m : M S A) f (g : B -> M S C) s :
  ((m ≫= f) ≫= g) s = (m ≫= (fun a => f a ≫= g)) s.
Proof. unfold mbind, M_bind. by destruct (m s) as [[a s']|]. Qed.
End run.
Lemma bind_get {S B} (f : S -> M S B) s : (getS ≫= f) s = f s s.
Proof. done. Qed.
Lemma bind_put {S B} s0 (f : unit -> M S B) s : (putS s0 ≫= f) s = f tt s0.
Proof. done. Qed.
Lemma bind_modify {S B} g (f : unit -> M S B) s : (modifyS g ≫= f) s = f tt (g s).
Proof. done. Qed.
Create HintDb mstep.
#[export] Hint Rewrite @bind_ret @bind_lift @bind_lift_None @bind_get @bind_put
  @bind_modify : mstep.
(** Run the next primitive steps of a program. *)
Ltac mstep := repeat (autorewrite with mstep; cbn [whenM]).

(** A [for] loop over a list of values. *)
Fixpoint forM {S A} (l : list A) (f : A -> M S unit) : M S unit :=
  match l with
  | [] => mret tt
  | a :: l' => f a ;; forM l' f
  end.

(** Weakest preconditions: the run is defined and its result satisfies [Q]. *)
Definition wp {S A} (m : M S A) (Q : A -> S -> Prop) (s : S) : Prop :=
  exists a s', m s = Some (a, s') /\ Q a s'.

Section wp.
Context {S A B : Type}.
Implicit Types (m : M S A) (s : S).

Lemma wp_ret (a : A) (Q : A -> S -> Prop) s : Q a s -> wp (mret a) Q s.
Proof. intros H. by exists a, s. Qed.

Lemma wp_bind m (f : A -> M S B) Q s :
  wp m (fun a s' => wp (f a) Q s') s -> wp (m ≫= f) Q s.
Proof.
  intros (a & s' & Hm & b & s'' & Hf & HQ). exists b, s''.
  by rewrite (bind_run _ _ _ _ _ Hm).
Qed.

Lemma wp_mono m (Q Q' : A -> S -> Prop) s :
  wp m Q s -> (forall a s', Q a s' -> Q' a s') -> wp m Q' s.
Proof. intros (a & s' & Hm & HQ) H. exists a, s'. auto. Qed.

Lemma wp_eq m (Q : A -> S -> Prop) s a s' : m s = Some (a, s') -> Q a s' -> wp m Q s.
Proof. intros H HQ. by exists a, s'. Qed.

Lemma wp_lift (o : option A) (Q : A -> S -> Prop) s a :
  o = Some a -> Q a s -> wp (liftO o) Q s.
Proof. intros -> H. by exists a, s. Qed.
End wp.
Lemma wp_get {S} (Q : S -> S -> Prop) s : Q s s -> wp getS Q s.
Proof. intros H. by exists s, s. Qed.
Lemma wp_put {S} s0 (Q : unit -> S -> Prop) s : Q tt s0 -> wp (putS s0) Q s.
Proof. intros H. by exists tt, s0. Qed.
Lemma wp_modify {S} g (Q : unit -> S -> Prop) s : Q tt (g s) -> wp (modifyS g) Q s.
Proof. intros H. by exists tt, (g s). Qed.
Lemma wp_when {S} b (m : M S unit) (Q : unit -> S -> Prop) s :
  (b = true -> wp m Q s) -> (b = false -> Q tt s) -> wp (whenM b m) Q s.
Proof. destruct b; intros H1 H2; [by apply H1|]. apply wp_ret. auto. Qed.
Lemma wp_for {S A} (I : list A -> S -> Prop) (l : list A) (f : A -> M S unit) s :
  I l s ->
  (forall a l' s, I (a :: l') s -> wp (f a) (fun _ s' => I l' s') s) ->
  wp (forM l f) (fun _ s' => I [] s') s.
Proof.
  intros HI Hf. revert s HI. induction l as [|a l IH]; intros s HI; simpl; [by apply wp_ret|].
  apply wp_bind. eapply wp_mono; [by apply Hf|]. intros [] s' H'. by apply IH.
Qed.

(** Group the first statements of a sequence, to apply a lemma about them. *)
Lemma wp_seq2 {S B} (m1 m2 : M S unit) (k : M S B) Q s :
  wp (m1 ;; m2) (fun _ s' => wp k Q s') s -> wp (m1 ;; m2 ;; k) Q s.
Proof. intros H. apply wp_bind in H. unfold wp in *. by rewrite bind_assoc in H. Qed.
Lemma wp_seq3 {S B} (m1 m2 m3 : M S unit) (k : M S B) Q s :
  wp (m1 ;; m2 ;; m3) (fun _ s' => wp k Q s') s -> wp (m1 ;; m2 ;; m3 ;; k) Q s.
Proof.
  intros (a & s' & E & H). unfold wp, mbind, M_bind in *.
  destruct (m1 s) as [[[] s1]|]; [|done]. destruct (m2 s1) as [[[] s2]|]; [|done].
  by rewrite E.
Qed.

(** Step through the primitives at the head of a program. *)
Ltac wp_step :=
  lazymatch goal with
  | |- wp (let _ := _ in _) _ _ => cbv zeta
  | |- wp (mbind _ _) _ _ => apply wp_bind
  | |- wp (mret _) _ _ => apply wp_ret
  | |- wp getS _ _ => apply wp_get
  | |- wp (putS _) _ _ => apply wp_put
  | |- wp (modifyS _) _ _ => apply wp_modify
  end.
Ltac wp_run := repeat wp_step.

(** ** What holds if a program returns *)

Section wlp.
Context {S : Type}.
Definition wlp {A} (m : M S A) (Q : A -> S -> Prop) (s : S) : Prop :=
  forall a s', m s = Some (a, s') -> Q a s'.

Lemma wlp_ret {A} (a : A) (Q : A -> S -> Prop) s : Q a s -> wlp (mret a) Q s.
Proof. by intros HQ b s' [= <- <-]. Qed.
Lemma wlp_get (Q : S -> S -> Prop) s : Q s s -> wlp getS Q s.
Proof. by intros HQ b s' [= <- <-]. Qed.
Lemma wlp_modify g (Q : unit -> S -> Prop) s : Q tt (g s) -> wlp (modifyS g) Q s.
Proof. by intros HQ b s' [= <- <-]. Qed.
Lemma wlp_lift {A} (o : option A) (Q : A -> S -> Prop) s : (forall a, o = Some a -> Q a s) -> wlp (liftO o) Q s.
Proof. intros HQ b s' E. unfold liftO in E. destruct o; [injection E as <- <-; by apply HQ|done]. Qed.
Lemma wlp_bind {A B} (m : M S A) (f : A -> M S B) Q s :
  wlp m (fun a s' => wlp (f a) Q s') s -> wlp (m ≫= f) Q s.
Proof.
  intros Hm b s' E. unfold mbind, M_bind in E. destruct (m s) as [[a s1]|] eqn:E1; [|done].
  exact (Hm a s1 E1 b s' E).
Qed.
Lemma wlp_when b (m : M S unit) (Q : unit -> S -> Prop) s :
  (b = true -> wlp m Q s) -> (b = false -> Q tt s) -> wlp (whenM b m) Q s.
Proof. intros H1 H2. destruct b; [by apply H1|]. by apply wlp_ret, H2. Qed.
Lemma wlp_mono {A} (m : M S A) (P Q : A -> S -> Prop) s :
  wlp m P s -> (forall a s', P a s' -> Q a s') -> wlp m Q s.
Proof. intros Hm HPQ a s' E. by apply HPQ, Hm. Qed.
Lemma wlp_any {A} (m : M S A) (Q : A -> S -> Prop) s : (forall a s', Q a s') -> wlp m Q s.
Proof. by intros HQ a s' _. Qed.
Lemma wlp_put s' (Q : unit -> S -> Prop) s : Q tt s' -> wlp (putS s') Q s.
Proof. by intros HQ a s1 [= <- <-]. Qed.
Lemma wlp_and {A} (m : M S A) (P Q : A -> S -> Prop) s :
  wlp m P s -> wlp m Q s -> wlp m (fun a s' => P a s' /\ Q a s') s.
Proof. intros HP HQ a s' E. split; [by apply HP|by apply HQ]. Qed.
End wlp.
Ltac wl :=
  repeat lazymatch goal with
  | |- wlp (let _ := _ in _) _ _ => cbv zeta
  | |- wlp (mret _) _ _ => apply wlp_ret
  | |- wlp getS _ _ => apply wlp_get
  | |- wlp (modifyS _) _ _ => apply wlp_modify
  | |- wlp (putS _) _ _ => apply wlp_put
  | |- wlp (mbind _ _) _ _ => apply wlp_bind
  | |- wlp (liftO _) _ _ => apply wlp_lift; intros ? ?
  | |- wlp (whenM _ _) _ _ => apply wlp_when; intros ?
  end.

(** ** Reading memory: byte strings with bounds checked accesses *)

Definition rd8 (buf : list Z) (off : Z) : option Z :=
  if 0 <=? off then buf !! Z.to_nat off else None.
Definition rdn (n : nat) (buf : list Z) (off : Z) : option (list Z) :=
  if (0 <=? off) && (off + Z.of_nat n <=? Z.of_nat (length buf))
  then Some (take n (drop (Z.to_nat off) buf)) else None.
(** Unaligned little-endian loads. *)
Definition rd16 (buf : list Z) (off : Z) : option Z := le_val <$> rdn 2 buf off.
Definition rd32 (buf : list Z) (off : Z) : option Z := le_val <$> rdn 4 buf off.

#[global] Arguments rd8 : simpl never.
#[global] Arguments rdn : simpl never.
#[global] Arguments rd16 : simpl never.
#[global] Arguments rd32 : simpl never.

Lemma rd8_is_Some buf off :
  0 <= off < Z.of_nat (length buf) -> bytes_ok buf ->
  exists b, rd8 buf off = Some b /\ u_ok 8 b.
Proof.
  intros Ho Hok. unfold rd8. replace (0 <=? off) with true by lia.
  destruct (lookup_lt_is_Some_2 buf (Z.to_nat off)) as [b Hb]; [lia|].
  exists b. split; [done|]. by eapply Forall_lookup_1 in Hok.
Qed.

Lemma rdn_is_Some n buf off :
  0 <= off -> off + Z.of_nat n <= Z.of_nat (length buf) -> bytes_ok buf ->
  exists l, rdn n buf off = Some l /\ length l = n /\ bytes_ok l.
Proof.
  intros Ho Hn Hok. unfold rdn.
  replace ((0 <=? off) && (off + Z.of_nat n <=? Z.of_nat (length buf))) with true by lia.
  eexists. split; [done|]. split.
  - rewrite length_take, length_drop. lia.
  - by apply Forall_take, Forall_drop.
Qed.

Lemma rd16_is_Some buf off :
  0 <= off -> off + 2 <= Z.of_nat (length buf) -> bytes_ok buf ->
  exists v, rd16 buf off = Some v /\ u_ok 16 v.
Proof.
  intros Ho Hn Hok. unfold rd16.
  destruct (rdn_is_Some 2 buf off) as (l & -> & Hl & Hb); [lia..|done|].
  exists (le_val l). split; [done|]. pose proof (le_val_bound l Hb) as H.
  by rewrite Hl in H.
Qed.

Lemma rd32_is_Some buf off :
  0 <= off -> off + 4 <= Z.of_nat (length buf) -> bytes_ok buf ->
  exists v, rd32 buf off = Some v /\ u_ok 32 v.
Proof.
  intros Ho Hn Hok. unfold rd32.
  destruct (rdn_is_Some 4 buf off) as (l & -> & Hl & Hb); [lia..|done|].
  exists (le_val l). split; [done|]. pose proof (le_val_bound l Hb) as H.
  by rewrite Hl in H.
Qed.

(** Decide [bytes_ok] of a list written as literals, slices and appends. *)
Ltac solve_bytes :=
  unfold bytes_ok;
  repeat first
    [ assumption | apply le_bytes_ok | apply Forall_nil_2 | apply Forall_app_2
    | apply Forall_cons_2 | apply Forall_take | apply Forall_drop ];
  auto with cint; try (unfold u_ok in *; lia).

(** ** Writing memory: bounds-checked stores *)

Definition wrn (off : Z) (bs buf : list Z) : option (list Z) :=
  if (0 <=? off) && (off + Z.of_nat (length bs) <=? Z.of_nat (length buf))
  then Some (take (Z.to_nat off) buf ++ bs ++ drop (Z.to_nat off + length bs) buf)
  else None.
#[global] Arguments wrn : simpl never.

Lemma wrn_is_Some off bs buf :
  0 <= off -> off + Z.of_nat (length bs) <= Z.of_nat (length buf) ->
  wrn off bs buf = Some (take (Z.to_nat off) buf ++ bs ++ drop (Z.to_nat off + length bs) buf).
Proof.
  intros H1 H2. unfold wrn.
  by replace ((0 <=? off) && (off + Z.of_nat (length bs) <=? Z.of_nat (length buf)))
    with true by lia.
Qed.

Lemma wrn_inv off bs buf buf' :
  wrn off bs buf = Some buf' ->
  0 <= off /\ off + Z.of_nat (length bs) <= Z.of_nat (length buf) /\
  buf' = take (Z.to_nat off) buf ++ bs ++ drop (Z.to_nat off + length bs) buf.
Proof. unfold wrn. case_match eqn:E; [|done]. intros [= <-]. split_and!; [lia|lia|done]. Qed.

Lemma wrn_length off bs buf buf' : wrn off bs buf = Some buf' -> length buf' = length buf.
Proof.
  intros (H1 & H2 & ->)%wrn_inv. rewrite !length_app, length_take, length_drop. lia.
Qed.

Lemma wrn_bytes_ok off bs buf buf' :
  wrn off bs buf = Some buf' -> bytes_ok bs -> bytes_ok buf -> bytes_ok buf'.
Proof.
  intros (_ & _ & ->)%wrn_inv Hbs Hbuf. unfold bytes_ok in *.
  repeat apply Forall_app_2; auto using Forall_take, Forall_drop.
Qed.

Lemma wrn_safe off bs buf :
  0 <= off -> off + Z.of_nat (length bs) <= Z.of_nat (length buf) ->
  bytes_ok bs -> bytes_ok buf ->
  exists buf', wrn off bs buf = Some buf' /\ length buf' = length buf /\ bytes_ok buf'.
Proof.
  intros H1 H2 Hbs Hbuf. pose proof (wrn_is_Some off bs buf H1 H2) as E.
  eexists. split; [exact E|]. split; [by eapply wrn_length|by eapply wrn_bytes_ok].
Qed.

(** A store changes the bytes it covers and no others. *)
Lemma wrn_lookup off bs buf buf' i :
  wrn off bs buf = Some buf' ->
  buf' !! i = if decide (Z.to_nat off <= i < Z.to_nat off + length bs)%nat
              then bs !! (i - Z.to_nat off)%nat else buf !! i.
Proof.
  intros (H1 & H2 & ->)%wrn_inv. case_decide.
  - rewrite lookup_app_r by (rewrite length_take; lia). rewrite length_take.
    replace (Z.to_nat off `min` length buf)%nat with (Z.to_nat off) by lia.
    by rewrite lookup_app_l by lia.
  - destruct (decide (i < Z.to_nat off)%nat).
    + rewrite lookup_app_l by (rewrite length_take; lia). by rewrite lookup_take_lt by lia.
    + rewrite lookup_app_r by (rewrite length_take; lia). rewrite length_take.
      rewrite lookup_app_r by lia. rewrite lookup_drop. f_equal. lia.
Qed.

(** One store is two adjacent ones. *)
Lemma wrn_split off a b buf :
  wrn off (a ++ b) buf = (m ← wrn off a buf; wrn (off + Z.of_nat (length a)) b m).
Proof.
  unfold wrn. rewrite length_app.
  destruct (decide (0 <= off /\ off + Z.of_nat (length a) <= Z.of_nat (length buf))) as [[H1 H2]|Hn].
  2:{ destruct (_ && _) eqn:E1; [apply andb_true_iff in E1 as [?%Z.leb_le ?%Z.leb_le]; lia|].
      destruct (_ && (off + Z.of_nat (length a) <=? _)) eqn:E2; [|done].
      apply andb_true_iff in E2 as [?%Z.leb_le ?%Z.leb_le]. lia. }
  replace ((0 <=? off) && (off + Z.of_nat (length a) <=? Z.of_nat (length buf))) with true by lia.
  cbn [mbind option_bind]. rewrite !length_app, length_take, length_drop.
  replace ((0 <=? off + Z.of_nat (length a)) && _)
    with ((0 <=? off) && (off + Z.of_nat (length a + length b) <=? Z.of_nat (length buf)))
    by (apply eq_true_iff_eq; rewrite !andb_true_iff, !Z.leb_le; lia).
  case_match; [|done]. f_equal.
  set (h := take (Z.to_nat off) buf).
  assert (Hh : length h = Z.to_nat off) by (unfold h; rewrite length_take; lia).
  rewrite !app_assoc.
  replace (Z.to_nat (off + Z.of_nat (length a))) with (length (h ++ a))
    by (rewrite length_app; lia).
  rewrite take_app_length, <-app_assoc, drop_app_add, drop_drop, <-!app_assoc.
  do 4 f_equal. lia.
Qed.

Lemma wrn_seq off a b buf r :
  wrn off (a ++ b) buf = Some r ->
  exists m, wrn off a buf = Some m /\ wrn (off + Z.of_nat (length a)) b m = Some r.
Proof. rewrite wrn_split. destruct (wrn off a buf) as [m|]; [by exists m|done]. Qed.

(** Accesses to a buffer seen as consecutive pieces. *)

Lemma rd8_app_r a b k : 0 <= k -> rd8 (a ++ b) (Z.of_nat (length a) + k) = rd8 b k.
Proof.
  intros Hk. unfold rd8. rewrite !(proj2 (Z.leb_le _ _)) by lia.
  rewrite lookup_app_r by lia. f_equal. lia.
Qed.

Lemma rdn_app_r n a b k : 0 <= k -> rdn n (a ++ b) (Z.of_nat (length a) + k) = rdn n b k.
Proof.
  intros Hk. unfold rdn. rewrite length_app.
  replace (Z.of_nat (length a) + k + Z.of_nat n <=? Z.of_nat (length a + length b))
    with (k + Z.of_nat n <=? Z.of_nat (length b))
    by (apply eq_true_iff_eq; rewrite !Z.leb_le; lia).
  replace (0 <=? Z.of_nat (length a) + k) with (0 <=? k)
    by (apply eq_true_iff_eq; rewrite !Z.leb_le; lia).
  case_match; [|done]. rewrite drop_app_ge by lia. do 3 f_equal. lia.
Qed.

Lemma rdn_skip n off a b :
  Z.of_nat (length a) <= off -> rdn n (a ++ b) off = rdn n b (off - Z.of_nat (length a)).
Proof.
  intros H. rewrite <-(rdn_app_r n a b) by lia. f_equal. lia.
Qed.

Lemma rdn_at n off (a b c : list Z) :
  off = Z.of_nat (length a) -> n = length b -> rdn n (a ++ b ++ c) off = Some b.
Proof.
  intros -> ->. unfold rdn. rewrite !length_app.
  destruct (_ && _) eqn:E; [|apply andb_false_iff in E as [E|E]; apply Z.leb_gt in E; lia].
  by rewrite Nat2Z.id, drop_app_length, take_app_length.
Qed.

Lemma rdn_here n off (b c : list Z) :
  off = 0 -> n = length b -> rdn n (b ++ c) off = Some b.
Proof. intros -> ->. by apply (rdn_at (length b) 0 []). Qed.

Lemma wrn_at off (a b b' c : list Z) :
  off = Z.of_nat (length a) -> length b = length b' ->
  wrn off b' (a ++ b ++ c) = Some (a ++ b' ++ c).
Proof.
  intros -> Hl. rewrite wrn_is_Some by (rewrite ?length_app; lia).
  rewrite Nat2Z.id, take_app_length, <-Hl. do 3 f_equal.
  by rewrite app_assoc, <-length_app, drop_app_length.
Qed.

Lemma wrn_here (b b' c : list Z) :
  length b = length b' -> wrn 0 b' (b ++ c) = Some (b' ++ c).
Proof. by apply (wrn_at 0 []). Qed.

(** ** Assignment to a field of a record

    A record with an [Eta] instance, its own fields put back together, gets
    the notation [r <| f := v |>] for [r.f = v] and [r <| f ::= g |>] for an
    in-place operation such as [r.f++]. *)

Class Eta (R : Type) := eta : R -> R.
Class Setter {R T : Type} (f : R -> T) := MkSetter { set_field : (T -> T) -> R -> R }.
#[global] Arguments MkSetter {R T f} _.
#[global] Arguments set_field {R T} f {_} _ _.
Ltac derive_setter f :=
  lazymatch type of f with
  | ?R -> ?T =>
      exact (MkSetter (fun (g : T -> T) (r : R) =>
        ltac:(let e := eval hnf in (eta r) in
              let t := eval pattern (f r) in e in
              lazymatch t with ?F _ => let u := eval cbv beta in (F (g (f r))) in exact u end)))
  end.
#[export] Hint Extern 0 (Setter ?f) => derive_setter f : typeclass_instances.
Notation "r <| f := v |>" := (set_field f (fun _ => v) r)
  (at level 1, f at level 0, v at level 200, left associativity) : c_scope.
Notation "r <| f ::= g |>" := (set_field f g r)
  (at level 1, f at level 0, g at level 200, left associativity) : c_scope.

(** [min] and [max] of the source. *)
Abbreviation cmin := Z.min.
Abbreviation cmax := Z.max.

Lemma filter_all {A} (P : A -> Prop) `{!forall x, Decision (P x)} (l : list A) :
  Forall P l -> filter P l = l.
Proof.
  induction 1 as [|x l Hx Hl IH]; [done|]. by rewrite filter_cons_True, IH.
Qed.

Lemma foldr_min_eq (l : list Z) z0 m :
  m ∈ l -> m <= z0 -> Forall (fun x => m <= x) l -> foldr Z.min z0 l = m.
Proof.
  intros Hin Hz Hl.
  assert (Hlow : forall l', Forall (fun x => m <= x) l' -> m <= foldr Z.min z0 l').
  { induction 1; simpl; lia. }
  induction l as [|x l IH]; [by apply not_elem_of_nil in Hin|].
  apply Forall_cons in Hl as [Hx Hl]. apply elem_of_cons in Hin as [<-|Hin]; simpl.
  - apply Z.min_l. auto.
  - rewrite IH by done. lia.
Qed.
