(* ===== verification/CString.v ===== *)
(** * C strings (the functions of <string.h>, <stdlib.h> and <stdio.h> the program calls)

    A string is the list of its bytes before the terminating NUL; a suffix
    pointer into a string is its offset. *)

From S2P Require Import Prelude.
From Stdlib Require Import Ascii.

Definition cstr := list Z.

(** String literals. *)
Definition str (s : string) : cstr :=
  (fun a => Z.of_N (N_of_ascii a)) <$> String.list_ascii_of_string s.

(** The string a buffer holds: up to the first NUL. *)
Fixpoint c_str (buf : list Z) : cstr :=
  match buf with
  | [] => []
  | c :: buf => if c =? 0 then [] else c :: c_str buf
  end.

Definition DOT : Z := 46.
Definition SLASH : Z := 47.
Definition HASH : Z := 35.
Definition LF : Z := 10.
Definition CR : Z := 13.

(** [strncmp(s, p, strlen(p)) == 0] *)
Fixpoint has_prefix (p s : cstr) : bool :=
  match p, s with
  | [], _ => true
  | c :: p, d :: s => (c =? d) && has_prefix p s
  | _ :: _, [] => false
  end.

Fixpoint strchr (s : cstr) (c : Z) : option nat :=
  match s with
  | [] => None
  | d :: s => if d =? c then Some O else S <$> strchr s c
  end.

(** [memrchr(s, c, n)]: the last [c] among the first [n] characters. *)
Fixpoint memrchr (s : cstr) (c : Z) (n : nat) : option nat :=
  match n with
  | O => None
  | S n => if decide (s !! n = Some c) then Some n else memrchr s c n
  end.

(** [s] cut at [strcspn(s, reject)]. *)
Fixpoint cut_at (reject : list Z) (s : cstr) : cstr :=
  match s with
  | [] => []
  | c :: s => if existsb (Z.eqb c) reject then [] else c :: cut_at reject s
  end.

(** [strstr(s, p) != NULL] *)
Fixpoint strstr (s p : cstr) : bool :=
  has_prefix p s || match s with [] => false | _ :: s => strstr s p end.

Definition isspace (c : Z) : bool := (c =? 32) || ((9 <=? c) && (c <=? 13)).
Definition isdigit (c : Z) : bool := (48 <=? c) && (c <=? 57).

(** [atoi]; a value outside [int] is undefined behaviour. *)
Fixpoint skip_spaces (s : cstr) : cstr :=
  match s with c :: s' => if isspace c then skip_spaces s' else s | [] => [] end.
Fixpoint digits (s : cstr) (acc : Z) : Z :=
  match s with
  | c :: s => if isdigit c then digits s (acc * 10 + (c - 48)) else acc
  | [] => acc
  end.
Definition atoi (s : cstr) : option Z :=
  let s := skip_spaces s in
  let v := match s with
           | 45 :: s => - digits s 0
           | 43 :: s => digits s 0
           | _ => digits s 0
           end in
  if (- 2 ^ 31 <=? v) && (v <? 2 ^ 31) then Some v else None.

(** [fgets] with a buffer of [size] bytes: the characters read, without the
    terminating NUL, and the rest of the file. *)
Fixpoint fgets_chars (n : nat) (f : list Z) : list Z * list Z :=
  match n, f with
  | S n, c :: f =>
      if c =? LF then ([c], f) else let (l, r) := fgets_chars n f in (c :: l, r)
  | _, _ => ([], f)
  end.
Definition fgets (size : nat) (f : list Z) : option (list Z * list Z) :=
  match f with
  | [] => None
  | _ => Some (fgets_chars (size - 1) f)
  end.

Lemma has_prefix_spec p s : has_prefix p s = true <-> exists t, s = p ++ t.
Proof.
  revert s. induction p as [|c p IH]; intros s; simpl; [by split; [exists s|]|].
  destruct s as [|d s]; [split; [done|by intros [t [=]]]|].
  rewrite andb_true_iff, Z.eqb_eq, IH. split.
  - intros [-> [t ->]]. by exists t.
  - intros [t [= -> ->]]. eauto.
Qed.

Lemma strchr_Some s c i : strchr s c = Some i -> s !! i = Some c /\ c ∉ take i s.
Proof.
  revert i. induction s as [|d s IH]; intros i; simpl; [done|].
  destruct (Z.eqb_spec d c) as [->|Hne].
  - intros [= <-]. split; [done|]. apply not_elem_of_nil.
  - destruct (strchr s c) as [j|]; simpl; [|done]. intros [= <-].
    destruct (IH j eq_refl) as [H1 H2]. split; [done|]. simpl. by apply not_elem_of_cons.
Qed.

Lemma strchr_None s c : strchr s c = None <-> c ∉ s.
Proof.
  induction s as [|d s IH]; simpl; [split; [intros _; apply not_elem_of_nil|done]|].
  rewrite not_elem_of_cons, <-IH. destruct (Z.eqb_spec d c) as [->|Hne].
  - by split; [|intros [? _]].
  - destruct (strchr s c); simpl; split; try done; by intros [_ ?].
Qed.

Lemma memrchr_Some s c n i :
  memrchr s c n = Some i ->
  (i < n)%nat /\ s !! i = Some c /\ forall j, (i < j < n)%nat -> s !! j <> Some c.
Proof.
  induction n as [|n IH]; simpl; [done|]. case_decide as H.
  - intros [= <-]. split_and!; [lia|done|]. lia.
  - intros (H1 & H2 & H3)%IH. split_and!; [lia|done|]. intros j Hj.
    destruct (decide (j = n)) as [->|]; [done|]. apply H3. lia.
Qed.

Lemma memrchr_None s c n : memrchr s c n = None -> forall j, (j < n)%nat -> s !! j <> Some c.
Proof.
  induction n as [|n IH]; simpl; [lia|]. case_decide as H; [done|]. intros H' j Hj.
  destruct (decide (j = n)) as [->|]; [done|]. apply IH; [done|lia].
Qed.

Lemma fgets_chars_split n f l r : fgets_chars n f = (l, r) -> f = l ++ r /\ (length l <= n)%nat.
Proof.
  revert f l r. induction n as [|n IH]; intros f l r; simpl.
  { intros H. destruct f; injection H as <- <-; split; simpl; (done || lia). }
  destruct f as [|c f]; [intros [= <- <-]; split; [done|simpl; lia]|].
  destruct (c =? LF); [intros [= <- <-]; split; [done|simpl; lia]|].
  destruct (fgets_chars n f) as [l' r'] eqn:E. intros [= <- <-].
  destruct (IH _ _ _ E) as [-> Hl]. split; [done|simpl; lia].
Qed.

(** A line that fits in the buffer is read whole. *)
Lemma fgets_line size l f :
  LF ∉ l -> (length l + 1 < size)%nat -> fgets size (l ++ LF :: f) = Some (l ++ [LF], f).
Proof.
  intros Hl Hs. unfold fgets.
  assert (H : forall n, (length l < n)%nat -> fgets_chars n (l ++ LF :: f) = (l ++ [LF], f)).
  { clear Hs. induction l as [|c l IH]; intros n Hn; (destruct n as [|n]; [simpl in Hn; lia|]);
      cbn [app fgets_chars].
    - by rewrite Z.eqb_refl.
    - apply not_elem_of_cons in Hl as [Hc Hl]. rewrite (proj2 (Z.eqb_neq c LF)) by congruence.
      rewrite IH; [done|done|simpl in Hn; lia]. }
  rewrite H by lia. by destruct l.
Qed.

Lemma memrchr_split s c n i :
  memrchr s c n = Some i -> (n <= length s)%nat ->
  exists b, take n s = take i s ++ c :: b /\ c ∉ b.
Proof.
  intros (Hi & Hc & Hno)%memrchr_Some Hn. exists (drop (S i) (take n s)). split.
  - rewrite <-(take_drop i (take n s)) at 1. rewrite take_take, Nat.min_l by lia. f_equal.
    apply drop_S. by rewrite lookup_take_lt by lia.
  - intros Hin. apply list_elem_of_lookup in Hin as [k Hk]. rewrite lookup_drop in Hk.
    assert (S i + k < n)%nat.
    { apply lookup_lt_Some in Hk. rewrite length_take in Hk. lia. }
    rewrite lookup_take_lt in Hk by lia. by apply (Hno (S i + k)%nat); [lia|].
Qed.

Lemma memrchr_notin s c n : memrchr s c n = None -> c ∉ take n s.
Proof.
  intros H Hin. apply list_elem_of_lookup in Hin as [k Hk].
  assert (k < n)%nat by (apply lookup_lt_Some in Hk; rewrite length_take in Hk; lia).
  rewrite lookup_take_lt in Hk by lia. by apply (memrchr_None s c n H k).
Qed.

Lemma length_cut_at r s : (length (cut_at r s) <= length s)%nat.
Proof. induction s as [|c s IH]; simpl; [lia|]. destruct (existsb _ _); simpl; lia. Qed.
Lemma length_c_str s : (length (c_str s) <= length s)%nat.
Proof. induction s as [|c s IH]; simpl; [lia|]. destruct (c =? 0); simpl; lia. Qed.

Lemma fgets_shorter size f chars f' :
  (2 <= size)%nat -> fgets size f = Some (chars, f') -> (length f' < length f)%nat.
Proof.
  intros Hs. destruct size as [|[|n]]; [lia|lia|]. unfold fgets. destruct f as [|b f]; [done|].
  cbn [Nat.sub fgets_chars]. destruct (b =? LF); [intros [= <- <-]; simpl; lia|].
  destruct (fgets_chars n f) as [l r] eqn:E. intros [= <- <-].
  apply fgets_chars_split in E as [-> _]. simpl. rewrite length_app. lia.
Qed.
