(* ===== verification/CFormat.v ===== *)
(** * Formatted strings (the conversions of printf and sscanf the program uses)

    Digits in a base, [%d], [%u] and [%0wX] as they are printed, [strtok_r], and
    the directives of [sscanf].  What is printed is read back. *)

From S2P Require Import Prelude CString.

Module CFormat.

(** ** Digits *)

Fixpoint to_base (b : Z) (fuel : nat) (n : Z) : list Z :=
  match fuel with
  | O => []
  | S fuel => if n <? b then [n] else to_base b fuel (n / b) ++ [n mod b]
  end.
Definition of_base (b : Z) (ds : list Z) (acc : Z) : Z := fold_left (fun a d => a * b + d) ds acc.

Lemma to_base_nil b fuel n : fuel <> O -> to_base b fuel n <> [].
Proof. destruct fuel as [|fuel]; [done|]. cbn. case_match; [done|]. intros _ E. by apply app_eq_nil in E as [_ ?]. Qed.
Lemma length_to_base b fuel n : (length (to_base b fuel n) <= fuel)%nat.
Proof.
  revert n. induction fuel as [|fuel IH]; intros n; [done|]. cbn. case_match; cbn; [lia|].
  rewrite length_app. cbn. specialize (IH (n / b)). lia.
Qed.
Lemma to_base_digits b fuel n : 1 < b -> 0 <= n -> Forall (fun d => 0 <= d < b) (to_base b fuel n).
Proof.
  intros Hb. revert n. induction fuel as [|fuel IH]; intros n Hn; [constructor|]. cbn.
  destruct (Z.ltb_spec n b); [by constructor; [lia|constructor]|].
  apply Forall_app. split; [apply IH, Z.div_pos; lia|]. constructor; [|constructor]. apply Z.mod_pos_bound. lia.
Qed.
Lemma of_to_base b fuel n :
  1 < b -> 0 <= n < b ^ Z.of_nat fuel -> of_base b (to_base b fuel n) 0 = n.
Proof.
  intros Hb. revert n. induction fuel as [|fuel IH]; intros n Hn; [cbn in *; lia|]. cbn [to_base].
  destruct (Z.ltb_spec n b); [cbn; lia|]. unfold of_base. rewrite fold_left_app. fold (of_base b (to_base b fuel (n / b)) 0).
  rewrite IH; [|rewrite Nat2Z.inj_succ, Z.pow_succ_r in Hn by lia; split; [apply Z.div_pos; lia|apply Z.div_lt_upper_bound; lia]].
  cbn. pose proof (Z.div_mod n b). lia.
Qed.

(** ** printf *)

Definition dec_char (d : Z) : Z := 48 + d.
Definition hex_char (d : Z) : Z := if d <? 10 then 48 + d else 55 + d.
(** [%u] and, for an [int], [%d]. *)
Definition printf_u (n : Z) : cstr := dec_char <$> to_base 10 10 n.
Definition printf_d (n : Z) : cstr := if n <? 0 then 45 :: printf_u (- n) else printf_u n.
(** [%0wX] of 32 bits. *)
Definition printf_X (w : nat) (n : Z) : cstr :=
  let s := hex_char <$> to_base 16 8 n in replicate (w - length s) 48 ++ s.
Definition printf_bytes (n : nat) (s : cstr) : cstr := take (n - 1) s.

(** ** strtok_r *)

(** The tokens between the characters [c]. *)
Fixpoint tokens (c : Z) (s : cstr) : list cstr :=
  match s with
  | [] => []
  | d :: s => if d =? c then tokens c s else
      match s with
      | [] => [[d]]
      | e :: _ => if e =? c then [d] :: tokens c s else
          match tokens c s with t :: ts => (d :: t) :: ts | [] => [[d]] end
      end
  end.

(** ** sscanf *)

Inductive directive :=
  | DSpace
  | DChar (c : Z)
  | DInt (assign : bool)
  | DHex (assign : bool)
  | DStr (width : nat).
Inductive scanned := VInt (z : Z) | VStr (s : cstr).

Definition hex_val (c : Z) : option Z :=
  if isdigit c then Some (c - 48)
  else if (65 <=? c) && (c <=? 70) then Some (c - 55)
  else if (97 <=? c) && (c <=? 102) then Some (c - 87)
  else None.

(** The number the digits make, and what follows them; [None] without a digit. *)
Fixpoint scan_digits (val : Z -> option Z) (b : Z) (s : cstr) (acc : Z) : Z * cstr :=
  match s with
  | c :: s' => match val c with Some d => scan_digits val b s' (acc * b + d) | None => (acc, s) end
  | [] => (acc, [])
  end.
Definition dec_val (c : Z) : option Z := if isdigit c then Some (c - 48) else None.
Definition scan_nat (val : Z -> option Z) (b : Z) (s : cstr) : option (Z * cstr) :=
  match s with
  | c :: _ => _ ← val c; Some (scan_digits val b s 0)
  | [] => None
  end.
Definition scan_sign (s : cstr) : bool * cstr :=
  match s with 45 :: s => (true, s) | 43 :: s => (false, s) | _ => (false, s) end.
(** The prefix [0x] of a hexadecimal number. *)
Definition scan_0x (s : cstr) : cstr :=
  match s with
  | 48 :: x :: c :: s' => if ((x =? 120) || (x =? 88)) && (if hex_val c then true else false) then c :: s' else s
  | _ => s
  end.
Definition scan_int (hex : bool) (s : cstr) : option (Z * cstr) :=
  let '(neg, s) := scan_sign (skip_spaces s) in
  r ← (if hex then scan_nat hex_val 16 (scan_0x s) else scan_nat dec_val 10 s);
  Some (if neg then - fst r else fst r, snd r).

Fixpoint scan_str (w : nat) (s : cstr) : cstr * cstr :=
  match w, s with
  | S w, c :: s' => if isspace c then ([], s) else let (t, r) := scan_str w s' in (c :: t, r)
  | _, _ => ([], s)
  end.

(** Whether the value of an assigned conversion fits its variable. *)
Definition scan_fits (hex : bool) (z : Z) : bool :=
  if hex then (0 <=? z) && (z <? 2 ^ 32) else (- 2 ^ 31 <=? z) && (z <? 2 ^ 31).

(** The values assigned before the first mismatch; [None] when one of them does not
    fit, which is undefined behaviour. *)
Fixpoint sscanf (fmt : list directive) (s : cstr) : option (list scanned) :=
  let number hex assign fmt' :=
    match scan_int hex s with
    | None => Some []
    | Some (z, s) =>
        if negb assign then sscanf fmt' s
        else if scan_fits hex z then cons (VInt z) <$> sscanf fmt' s else None
    end in
  match fmt with
  | [] => Some []
  | DSpace :: fmt => sscanf fmt (skip_spaces s)
  | DChar c :: fmt => match s with d :: s => if d =? c then sscanf fmt s else Some [] | [] => Some [] end
  | DInt assign :: fmt => number false assign fmt
  | DHex assign :: fmt => number true assign fmt
  | DStr w :: fmt =>
      let '(t, s) := scan_str w (skip_spaces s) in
      match t with [] => Some [] | _ => cons (VStr t) <$> sscanf fmt s end
  end.

(** ** What is printed is read back *)

Definition no_digit (val : Z -> option Z) (s : cstr) : Prop :=
  match s with c :: _ => val c = None | [] => True end.

Lemma scan_digits_spec val b char ds rest acc :
  Forall (fun d => val (char d) = Some d) ds -> no_digit val rest ->
  scan_digits val b ((char <$> ds) ++ rest) acc = (of_base b ds acc, rest).
Proof.
  intros Hd Hr. revert acc. induction Hd as [|d ds Hd Hds IH]; intros acc; cbn.
  - destruct rest as [|c rest]; [done|]. cbn in *. by rewrite Hr.
  - by rewrite Hd, IH.
Qed.
Lemma dec_val_char d : 0 <= d < 10 -> dec_val (dec_char d) = Some d.
Proof.
  intros Hd. unfold dec_val, dec_char, isdigit. destruct (Z.leb_spec 48 (48 + d)); [|lia].
  destruct (Z.leb_spec (48 + d) 57); [|lia]. cbn. f_equal. lia.
Qed.
Lemma hex_val_char d : 0 <= d < 16 -> hex_val (hex_char d) = Some d.
Proof.
  intros Hd. unfold hex_val, hex_char, isdigit. destruct (Z.ltb_spec d 10).
  - destruct (Z.leb_spec 48 (48 + d)); [|lia]. destruct (Z.leb_spec (48 + d) 57); [|lia]. cbn. f_equal. lia.
  - destruct (Z.leb_spec 48 (55 + d)); [|lia]. destruct (Z.leb_spec (55 + d) 57); [lia|].
    destruct (Z.leb_spec 65 (55 + d)); [|lia]. destruct (Z.leb_spec (55 + d) 70); [|lia]. cbn. f_equal. lia.
Qed.

Lemma scan_nat_spec val b char ds rest :
  ds <> [] -> Forall (fun d => val (char d) = Some d) ds -> no_digit val rest ->
  scan_nat val b ((char <$> ds) ++ rest) = Some (of_base b ds 0, rest).
Proof.
  intros Hne Hd Hr. rewrite <-(scan_digits_spec val b char ds rest 0 Hd Hr). destruct Hd as [|d ds Hd _]; [done|].
  cbn [fmap list_fmap app scan_nat]. by rewrite Hd.
Qed.

Definition no_head (P : Z -> bool) (s : cstr) : Prop := match s with c :: _ => P c = false | [] => True end.
Lemma skip_spaces_id s : no_head isspace s -> skip_spaces s = s.
Proof. destruct s as [|c s]; [done|]. cbn. by intros ->. Qed.
Lemma skip_spaces_replicate n s : skip_spaces (replicate n 32 ++ s) = skip_spaces s.
Proof. by induction n. Qed.
Lemma scan_sign_id s : no_head (fun c => (c =? 45) || (c =? 43)) s -> scan_sign s = (false, s).
Proof. destruct s as [|c s]; [done|]. cbn. intros Hc. repeat (case_match; try done). Qed.

Lemma hex_head ds rest : ds <> [] -> Forall (fun d => 0 <= d < 16) ds ->
  no_head isspace ((hex_char <$> ds) ++ rest) /\
  no_head (fun c => (c =? 45) || (c =? 43)) ((hex_char <$> ds) ++ rest).
Proof.
  intros Hne Hd. destruct Hd as [|d ds Hd _]; [done|]. cbn. unfold isspace, hex_char.
  destruct (Z.ltb_spec d 10); split;
    repeat match goal with |- context [?a =? ?b] => destruct (Z.eqb_spec a b); [lia|]
    | |- context [?a <=? ?b] => destruct (Z.leb_spec a b) end; try done; lia.
Qed.
Lemma scan_0x_id ds rest : Forall (fun d => 0 <= d < 16) ds -> no_head (fun c => (c =? 120) || (c =? 88)) rest ->
  (1 <= length ds)%nat -> scan_0x ((hex_char <$> ds) ++ rest) = (hex_char <$> ds) ++ rest.
Proof.
  intros Hd Hr Hl. destruct Hd as [|d ds Hd Hds]; [cbn in Hl; lia|]. cbn [fmap list_fmap app].
  assert (Hx : forall s, no_head (fun c => (c =? 120) || (c =? 88)) s -> scan_0x (hex_char d :: s) = hex_char d :: s).
  { clear. intros s Hs. unfold scan_0x. destruct (hex_char d); try done.
    repeat (case_match; try done). all: subst; cbn in Hs; destruct ((_ =? 120) || _); done. }
  apply Hx. destruct Hds as [|e ds He _]; [done|]. cbn. unfold hex_char.
  destruct (Z.ltb_spec e 10); repeat match goal with |- context [?a =? ?b] => destruct (Z.eqb_spec a b); [lia|] end; done.
Qed.

(** Numbers, after blanks. *)
Lemma scan_hex k ds rest :
  ds <> [] -> Forall (fun d => 0 <= d < 16) ds -> no_digit hex_val rest ->
  no_head (fun c => (c =? 120) || (c =? 88)) rest ->
  scan_int true (replicate k 32 ++ (hex_char <$> ds) ++ rest) = Some (of_base 16 ds 0, rest).
Proof.
  intros Hne Hd Hr Hx. unfold scan_int. rewrite skip_spaces_replicate.
  destruct (hex_head ds rest Hne Hd) as [H1 H2]. rewrite skip_spaces_id, scan_sign_id by done.
  rewrite scan_0x_id; [|done|done|destruct ds; [done|cbn; lia]].
  rewrite (scan_nat_spec hex_val 16 hex_char); [done|done| |done].
  eapply Forall_impl; [exact Hd|]. apply hex_val_char.
Qed.
Lemma dec_head ds rest : ds <> [] -> Forall (fun d => 0 <= d < 10) ds ->
  no_head isspace ((dec_char <$> ds) ++ rest) /\
  no_head (fun c => (c =? 45) || (c =? 43)) ((dec_char <$> ds) ++ rest).
Proof.
  intros Hne Hd. destruct Hd as [|d ds Hd _]; [done|]. cbn. unfold isspace, dec_char.
  split; repeat match goal with |- context [?a =? ?b] => destruct (Z.eqb_spec a b); [lia|]
    | |- context [?a <=? ?b] => destruct (Z.leb_spec a b) end; try done; lia.
Qed.
Lemma scan_dec k ds rest :
  ds <> [] -> Forall (fun d => 0 <= d < 10) ds -> no_digit dec_val rest ->
  scan_int false (replicate k 32 ++ (dec_char <$> ds) ++ rest) = Some (of_base 10 ds 0, rest).
Proof.
  intros Hne Hd Hr. unfold scan_int. rewrite skip_spaces_replicate.
  destruct (dec_head ds rest Hne Hd) as [H1 H2]. rewrite skip_spaces_id, scan_sign_id by done.
  rewrite (scan_nat_spec dec_val 10 dec_char); [done|done| |done].
  eapply Forall_impl; [exact Hd|]. apply dec_val_char.
Qed.

Lemma scan_u k n rest :
  0 <= n < 10 ^ 10 -> no_digit dec_val rest ->
  scan_int false (replicate k 32 ++ printf_u n ++ rest) = Some (n, rest).
Proof.
  intros Hn Hr. unfold printf_u. rewrite scan_dec; [|by apply to_base_nil|apply to_base_digits; lia|done].
  by rewrite of_to_base by (change (Z.of_nat 10) with 10; lia).
Qed.
Lemma of_base_pad b n ds : of_base b (replicate n 0 ++ ds) 0 = of_base b ds 0.
Proof. induction n as [|n IH]; [done|]. cbn. by fold (of_base b (replicate n 0 ++ ds) 0). Qed.
Definition hex_digits (w : nat) (n : Z) : list Z :=
  replicate (w - length (to_base 16 8 n)) 0 ++ to_base 16 8 n.
Lemma printf_X_digits w n : printf_X w n = hex_char <$> hex_digits w n.
Proof.
  unfold printf_X, hex_digits. rewrite length_fmap, fmap_app, fmap_replicate. done.
Qed.
Lemma hex_digits_ok w n : u_ok 32 n -> Forall (fun d => 0 <= d < 16) (hex_digits w n) /\ hex_digits w n <> [].
Proof.
  intros Hn. unfold u_ok in Hn. split.
  - apply Forall_app. split; [apply Forall_replicate; lia|apply to_base_digits; lia].
  - unfold hex_digits. intros E. apply app_eq_nil in E as [_ E]. revert E. by apply to_base_nil.
Qed.
Lemma of_hex_digits w n : u_ok 32 n -> of_base 16 (hex_digits w n) 0 = n.
Proof. intros Hn. unfold hex_digits. rewrite of_base_pad. apply of_to_base; [lia|]. unfold u_ok in Hn. cbn. lia. Qed.
Lemma length_hex_digits w n : (w <= length (hex_digits w n))%nat.
Proof. unfold hex_digits. rewrite length_app, length_replicate. lia. Qed.
Lemma length_hex8 n : u_ok 32 n -> length (hex_digits 8 n) = 8%nat.
Proof. intros _. unfold hex_digits. rewrite length_app, length_replicate. pose proof (length_to_base 16 8 n). lia. Qed.

Lemma scan_X k w n rest :
  u_ok 32 n -> no_digit hex_val rest -> no_head (fun c => (c =? 120) || (c =? 88)) rest ->
  scan_int true (replicate k 32 ++ printf_X w n ++ rest) = Some (n, rest).
Proof.
  intros Hn Hr Hx. rewrite printf_X_digits. destruct (hex_digits_ok w n Hn) as [Hd Hne].
  by rewrite scan_hex, of_hex_digits.
Qed.

Lemma scan_str_spec w s rest :
  length s = w -> Forall (fun c => isspace c = false) s -> scan_str w (s ++ rest) = (s, rest).
Proof. intros <- Hs. induction Hs as [|c s Hc Hs IH]; [by destruct rest|]. cbn. by rewrite Hc, IH. Qed.
Lemma hex_no_space ds : Forall (fun d => 0 <= d < 16) ds -> Forall (fun c => isspace c = false) (hex_char <$> ds).
Proof.
  intros Hd. apply Forall_fmap. eapply Forall_impl; [exact Hd|]. intros d Hd1.
  by destruct (hex_head [d] [] ltac:(done) ltac:(by constructor)) as [H _].
Qed.

Lemma printf_X_inj w a b : u_ok 32 a -> u_ok 32 b -> printf_X w a = printf_X w b -> a = b.
Proof.
  intros Ha Hb E. pose proof (scan_X 0 w a [] Ha I I) as E1. pose proof (scan_X 0 w b [] Hb I I) as E2.
  rewrite E in E1. rewrite E1 in E2. by injection E2.
Qed.

(** [atoi] of a printed number. *)
Lemma digits_scan s acc : digits s acc = fst (scan_digits dec_val 10 s acc).
Proof.
  revert acc. induction s as [|c s IH]; intros acc; [done|]. cbn. unfold dec_val. destruct (isdigit c); [by rewrite IH|done].
Qed.
Lemma atoi_u n : 0 <= n < 2 ^ 31 -> atoi (printf_u n) = Some n.
Proof.
  intros Hn. assert (Hd : Forall (fun d => 0 <= d < 10) (to_base 10 10 n)) by (apply to_base_digits; lia).
  assert (Hne : to_base 10 10 n <> []) by (by apply to_base_nil).
  destruct (dec_head _ [] Hne Hd) as [H1 H2]. rewrite app_nil_r in H1, H2. fold (printf_u n) in H1, H2.
  unfold atoi. rewrite skip_spaces_id by done.
  assert (Hv : digits (printf_u n) 0 = n).
  { rewrite digits_scan. unfold printf_u. rewrite <-(app_nil_r (dec_char <$> _)), (scan_digits_spec dec_val 10 dec_char _ [] 0); [|by eapply Forall_impl; [exact Hd|apply dec_val_char]|done].
    cbn [fst]. apply of_to_base; [lia|]. change (Z.of_nat 10) with 10. lia. }
  destruct (printf_u n) as [|c s]; [cbn in Hv; subst n; done|].
  cbn in H2. apply orb_false_iff in H2 as [?%Z.eqb_neq ?%Z.eqb_neq].
  assert (E : (match c :: s with 45 :: s0 => - digits s0 0 | 43 :: s0 => digits s0 0 | _ => digits (c :: s) 0 end) = n).
  { rewrite <-Hv. destruct c; try done. repeat (case_match; try done). }
  rewrite E. by destruct (Z.leb_spec (- 2 ^ 31) n), (Z.ltb_spec n (2 ^ 31)); try lia.
Qed.

(** Tokens joined by the separator are found again. *)
Lemma tokens_app c t s :
  t <> [] -> c ∉ t -> match s with e :: _ => e = c | [] => True end -> tokens c (t ++ s) = t :: tokens c s.
Proof.
  intros Ht Hc Hs. induction t as [|d t IH]; [done|]. apply not_elem_of_cons in Hc as [Hd Hc].
  cbn [app tokens]. destruct (Z.eqb_spec d c); [congruence|]. destruct t as [|e t].
  - cbn. destruct s as [|e s]; [done|]. subst e. by rewrite Z.eqb_refl.
  - cbn [app] in IH |- *. apply not_elem_of_cons in Hc as [He Hc']. destruct (Z.eqb_spec e c); [congruence|].
    rewrite IH; [done|done|by apply not_elem_of_cons].
Qed.
Definition join (c : Z) (l : list cstr) : cstr :=
  match l with [] => [] | t :: l => t ++ concat ((fun t => c :: t) <$> l) end.
Lemma tokens_join c (l : list cstr) : Forall (fun t => t <> [] /\ c ∉ t) l -> tokens c (join c l) = l.
Proof.
  assert (Hg : forall l, Forall (fun t => t <> [] /\ c ∉ t) l -> tokens c (concat ((fun t => c :: t) <$> l)) = l).
  { intros l'. induction 1 as [|t ts [Ht Hc] Hts IH]; [done|]. cbn. rewrite Z.eqb_refl, tokens_app, IH; [done..|].
    by destruct ts. }
  destruct 1 as [|t ts [Ht Hc] Hts]; [done|]. cbn. rewrite tokens_app, Hg; [done..|]. by destruct ts.
Qed.
End CFormat.
