(* ===== verification/DaemonArgs.v ===== *)
(** * The arguments of the daemon (core/capture_libpcap.c, pcapd/pcapd.c)

    The capture with root starts pcapd through a shell.  Here are the checks on what
    goes into the command, the command itself, and the way the list of UIDs goes: it
    is printed on one side, parsed and consulted on the other. *)

From S2P Require Import Prelude CString CFormat.

Module DaemonArgs.
Export CFormat.

Definition COMMA : Z := 44.
Definition QUOTE : Z := 39.
Definition isalnum (c : Z) : bool :=
  isdigit c || ((65 <=? c) && (c <=? 90)) || ((97 <=? c) && (c <=? 122)).

(** ** The checks *)

Definition valid_ifname (name : cstr) : bool :=
  match name with
  | [] => false
  | _ => (Z.of_nat (length name) <? 16) &&
      forallb (fun c => (c =? 46) || (c =? 95) || (c =? 64) || isalnum c) name
  end.
(** [$], the three quotes and the ends of a line. *)
Definition disallowed_chars : cstr := [36; 39; 34; 96; 10; 13].
Definition valid_bpf (bpf : cstr) : bool := forallb (fun c => negb (existsb (Z.eqb c) disallowed_chars)) bpf.

(** ** The UIDs *)

(** [snprintf] of each UID behind the others, in a buffer of [size] bytes: its
    string, and the length it would need. *)
Fixpoint uids_loop (first : bool) (uids : list Z) (off size : Z) (buf : cstr) : cstr * Z :=
  match uids with
  | [] => (buf, off)
  | u :: uids =>
      if off <? size then
        let s := if first then printf_d u else COMMA :: printf_d u in
        uids_loop false uids (off + Z.of_nat (length s)) size (buf ++ printf_bytes (Z.to_nat (size - off)) s)
      else (buf, off)
  end.
Definition get_uids_filter (tls : bool) (uids : list Z) (buf_size : Z) : cstr :=
  if tls || bool_decide (uids = []) then str "-1" else fst (uids_loop true uids 0 buf_size []).

(** [parse_uid_filter] has room for a number more than there are commas, and for the
    terminator: [rv] is the part of it written.  The inner [None] is [exit]. *)
Definition count_commas (s : list Z) : Z := Z.of_nat (length (filter (fun c => c = COMMA) s)).
Fixpoint filter_loop (num_uids : Z) (toks : list cstr) (rv : list Z) : option (option (list Z)) :=
  match toks with
  | [] => Some (Some (rv ++ [-1]))
  | t :: toks =>
      if Z.of_nat (length rv) <? num_uids then
        uid ← atoi t;
        if uid <? -1 then Some None
        else filter_loop num_uids toks (if uid =? -1 then rv else rv ++ [uid])
      else Some (Some (rv ++ [-1]))
  end.
Definition parse_uid_filter (s : cstr) : option (option (list Z)) :=
  filter_loop (1 + count_commas s) (tokens COMMA s) [].

(** The loop never advances [filter]; [None] when the fuel is used up, or the
    pointer leaves the list. *)
Fixpoint matches_loop (fuel : nat) (filter : list Z) (p : nat) (uid : Z) : option bool :=
  match fuel with
  | O => None
  | S fuel =>
      v ← filter !! p;
      if v =? -1 then Some false
      else if v =? uid then Some true
      else matches_loop fuel filter p uid
  end.
Definition matches_uid_filter (fuel : nat) (filter : option (list Z)) (uid : Z) : option bool :=
  match filter with
  | None => Some true
  | Some filter =>
      v ← filter !! O;
      if v =? -1 then Some true else matches_loop fuel filter 0 uid
  end.

(** ** The command *)

(** The arguments of [connectPcapd]: 256 bytes for all of them. *)
Definition args_of (log_uid : Z) (interface filter bpf : cstr) (daemonize : bool) : cstr :=
  str "-l pcapd.log -L " ++ printf_u log_uid ++ str " -i '" ++ interface ++ str "' -u " ++ filter ++
  str " -t -b '" ++ bpf ++ str "'" ++ (if daemonize then str " -d" else []).
Definition connectPcapd_args (exists_ : bool) (log_uid : Z) (file_capture : bool) (interface bpf : cstr)
    (tls : bool) (uids : list Z) : option cstr :=
  if negb (bool_decide (bpf = [])) && negb (valid_bpf bpf) then None else
  if (if file_capture then negb exists_ else negb (valid_ifname interface)) then None else
  Some (printf_bytes 256 (args_of log_uid interface (get_uids_filter tls uids 128) bpf (negb file_capture))).

(** [sprintf] into 128 bytes: [None] is a string that does not fit. *)
Definition get_mitm_redirection_args (addon_uid uid : Z) (add : bool) : option cstr :=
  let s := str "-t nat -" ++ str (if add then "I" else "D") ++ str " OUTPUT -p tcp -m owner " ++
    (if 0 <=? uid then str "--uid-owner " ++ printf_d uid else str "! --uid-owner " ++ printf_d addon_uid) ++
    str " -j REDIRECT --to 7780" in
  if Z.of_nat (length s) <? 128 then Some s else None.

(** ** The words of a shell *)

(** Field splitting of a command with single quotes (POSIX shell, 2.2 and 2.3):
    [None] for an open quote, or another character with a meaning outside quotes. *)
Definition sh_plain (c : Z) : bool := isalnum c || existsb (Z.eqb c) (str "-._,/@").
Fixpoint sh_words (quoted : bool) (cur : option cstr) (s : cstr) : option (list cstr) :=
  let add c := Some (default [] cur ++ [c]) in
  match s with
  | [] => if quoted then None else Some (match cur with Some w => [w] | None => [] end)
  | c :: s =>
      if quoted then (if c =? QUOTE then sh_words false cur s else sh_words true (add c) s)
      else if c =? QUOTE then sh_words true (Some (default [] cur)) s
      else if c =? 32 then
        match cur with Some w => cons w <$> sh_words false None s | None => sh_words false None s end
      else if sh_plain c then sh_words false (add c) s
      else None
  end.

(** ** The command is split as it was built *)

Lemma sh_quoted w s rest :
  QUOTE ∉ s -> sh_words true (Some w) (s ++ QUOTE :: rest) = sh_words false (Some (w ++ s)) rest.
Proof.
  revert w. induction s as [|c s IH]; intros w Hq; [by rewrite app_nil_r|].
  apply not_elem_of_cons in Hq as [Hc Hq]. cbn [app sh_words]. destruct (Z.eqb_spec c QUOTE); [congruence|].
  cbn [default]. by rewrite IH, <-app_assoc.
Qed.
Lemma sh_unquoted w s rest :
  Forall (fun c => sh_plain c = true) s ->
  sh_words false (Some w) (s ++ rest) = sh_words false (Some (w ++ s)) rest.
Proof.
  intros Hs. revert w. induction Hs as [|c s Hc Hs IH]; intros w; [by rewrite app_nil_r|]. cbn [app sh_words].
  destruct (Z.eqb_spec c QUOTE) as [->|]; [done|]. destruct (Z.eqb_spec c 32) as [->|]; [done|]. rewrite Hc.
  cbn [default]. by rewrite IH, <-app_assoc.
Qed.
(** A word at the start of what is left, a quoted one, and the blank behind it. *)
Lemma sh_start s rest :
  s <> [] -> Forall (fun c => sh_plain c = true) s ->
  sh_words false None (s ++ rest) = sh_words false (Some s) rest.
Proof.
  intros Hne Hs. destruct Hs as [|c s Hc Hs]; [done|]. cbn [app sh_words].
  destruct (Z.eqb_spec c QUOTE) as [->|]; [done|]. destruct (Z.eqb_spec c 32) as [->|]; [done|]. rewrite Hc.
  by rewrite sh_unquoted.
Qed.
Lemma sh_quote_word s rest :
  QUOTE ∉ s -> sh_words false None (QUOTE :: s ++ QUOTE :: rest) = sh_words false (Some s) rest.
Proof. intros Hq. cbn [sh_words]. change (QUOTE =? QUOTE) with true. cbv iota. by rewrite sh_quoted. Qed.
Lemma sh_blank w rest : sh_words false (Some w) (32 :: rest) = cons w <$> sh_words false None rest.
Proof. done. Qed.

Lemma isdigit_dec d : 0 <= d < 10 -> isdigit (dec_char d) = true.
Proof.
  intros Hd. unfold isdigit, dec_char. destruct (Z.leb_spec 48 (48 + d)); [|lia]. by destruct (Z.leb_spec (48 + d) 57); [|lia].
Qed.
Lemma sh_plain_u n : 0 <= n -> Forall (fun c => sh_plain c = true) (printf_u n) /\ printf_u n <> [].
Proof.
  intros Hn. split.
  - apply Forall_fmap. eapply Forall_impl; [apply to_base_digits; [lia|done]|]. intros d Hd. cbn.
    unfold sh_plain, isalnum. by rewrite isdigit_dec.
  - unfold printf_u. intros E. by apply fmap_nil_inv, to_base_nil in E.
Qed.

(** ** The list of UIDs *)

Definition pieces (uids : list Z) : cstr := concat ((fun t => COMMA :: t) <$> (printf_d <$> uids)).

Lemma uids_loop_stop size l o b : size <= o -> uids_loop false l o size b = (b, o).
Proof. intros Ho. destruct l as [|v l]; [done|]. cbn [uids_loop]. by destruct (Z.ltb_spec o size); [lia|]. Qed.

(** What the loop leaves is the list as far as it fits. *)
Lemma uids_loop_take uids size buf :
  Z.of_nat (length buf) < size ->
  fst (uids_loop false uids (Z.of_nat (length buf)) size buf) = take (Z.to_nat size - 1) (buf ++ pieces uids).
Proof.
  revert buf. induction uids as [|u uids IH]; intros buf Hl; cbn [uids_loop].
  { cbn. rewrite app_nil_r, take_ge by lia. done. }
  destruct (Z.ltb_spec (Z.of_nat (length buf)) size); [|lia]. unfold pieces. cbn [fmap list_fmap concat].
  fold (pieces uids). set (s := COMMA :: printf_d u). unfold printf_bytes.
  destruct (Z.ltb_spec (Z.of_nat (length buf) + Z.of_nat (length s)) size) as [Hs|Hs].
  - rewrite (take_ge s) by lia. replace (Z.of_nat (length buf) + Z.of_nat (length s)) with (Z.of_nat (length (buf ++ s)))
      by (rewrite length_app; lia).
    rewrite IH by (rewrite length_app; lia). by rewrite <-app_assoc.
  - rewrite uids_loop_stop by done. cbn [fst]. rewrite take_app, (take_ge buf) by lia. f_equal.
    rewrite take_app. replace (Z.to_nat size - 1 - length buf - length s)%nat with 0%nat by lia. rewrite app_nil_r.
    f_equal. lia.
Qed.
Lemma uids_filter_take tls uids size :
  tls = false -> uids <> [] -> 0 < size ->
  get_uids_filter tls uids size = take (Z.to_nat size - 1) (join COMMA (printf_d <$> uids)).
Proof.
  intros -> Hne Hs. unfold get_uids_filter. rewrite bool_decide_eq_false_2 by done. cbn [orb].
  destruct uids as [|u uids]; [done|]. cbn [uids_loop]. destruct (Z.ltb_spec 0 size); [|lia].
  cbn [app fmap list_fmap join]. unfold printf_bytes. rewrite Z.sub_0_r.
  change (concat _) with (pieces uids).
  destruct (Z.ltb_spec (Z.of_nat (length (printf_d u))) size) as [Hl|Hl].
  - rewrite (take_ge (printf_d u)) by lia. apply (uids_loop_take uids size (printf_d u)). lia.
  - rewrite uids_loop_stop by lia. cbn [fst]. rewrite take_app. replace (Z.to_nat size - 1 - length (printf_d u))%nat with 0%nat by lia.
    by rewrite app_nil_r.
Qed.

Lemma printf_d_nat u : 0 <= u -> printf_d u = printf_u u.
Proof. intros Hu. unfold printf_d. by destruct (Z.ltb_spec u 0); [lia|]. Qed.
Lemma comma_free u : 0 <= u -> COMMA ∉ printf_d u.
Proof.
  intros Hu Hin. rewrite printf_d_nat in Hin by done. destruct (sh_plain_u u Hu) as [Hp _]. rewrite Forall_forall in Hp.
  specialize (Hp _ Hin). unfold printf_u in Hin. apply list_elem_of_fmap in Hin as (d & E & Hd).
  pose proof (to_base_digits 10 10 u ltac:(lia) Hu) as Hr. rewrite Forall_forall in Hr. specialize (Hr _ Hd).
  unfold COMMA, dec_char in E. lia.
Qed.

(** Not more tokens than commas and one. *)
Lemma count_commas_cons c s : count_commas (c :: s) = (if c =? COMMA then 1 else 0) + count_commas s.
Proof.
  unfold count_commas. rewrite filter_cons. destruct (Z.eqb_spec c COMMA) as [->|Hc].
  - rewrite decide_True by done. cbn [length]. lia.
  - by rewrite decide_False.
Qed.
Lemma length_tokens s : Z.of_nat (length (tokens COMMA s)) <= 1 + count_commas s.
Proof.
  enough (H : Z.of_nat (length (tokens COMMA s)) <= 1 + count_commas s /\
    (match s with c :: _ => c = COMMA | [] => True end -> Z.of_nat (length (tokens COMMA s)) <= count_commas s)) by apply H.
  induction s as [|c s [IH1 IH2]]; [by split|]. rewrite count_commas_cons.
  destruct s as [|e s].
  { cbn. unfold count_commas. destruct (Z.eqb_spec c COMMA); cbn; split; intros; lia || congruence. }
  change (tokens COMMA (c :: e :: s)) with (if c =? COMMA then tokens COMMA (e :: s) else
    if e =? COMMA then [c] :: tokens COMMA (e :: s) else
    match tokens COMMA (e :: s) with t :: ts => (c :: t) :: ts | [] => [[c]] end).
  destruct (Z.eqb_spec c COMMA) as [->|Hc]; [split; [lia|intros _; lia]|split; [|done]].
  destruct (Z.eqb_spec e COMMA) as [->|He]; [specialize (IH2 eq_refl); cbn [length]; lia|].
  assert (0 <= count_commas (e :: s)) by (unfold count_commas; lia).
  destruct (tokens COMMA (e :: s)); cbn [length] in *; lia.
Qed.

(** The writes of the parser stay within what it allocates. *)
Lemma filter_loop_room n toks rv f :
  Z.of_nat (length rv) <= n -> filter_loop n toks rv = Some (Some f) -> Z.of_nat (length f) <= n + 1.
Proof.
  revert rv. induction toks as [|t toks IH]; intros rv Hl; cbn [filter_loop].
  { intros [= <-]. rewrite length_app. cbn. lia. }
  destruct (Z.ltb_spec (Z.of_nat (length rv)) n); [|intros [= <-]; rewrite length_app; cbn; lia].
  destruct (atoi t) as [u|]; cbn [mbind option_bind]; [|done]. destruct (u <? -1); [done|].
  apply IH. destruct (u =? -1); [done|]. rewrite length_app. cbn. lia.
Qed.
Lemma filter_loop_all n uids rv :
  Forall (fun u => 0 <= u < 2 ^ 31) uids -> Z.of_nat (length rv + length uids) <= n ->
  filter_loop n (printf_d <$> uids) rv = Some (Some (rv ++ uids ++ [-1])).
Proof.
  intros Hu. revert rv. induction Hu as [|u uids Hu Hus IH]; intros rv Hl; [done|]. cbn [fmap list_fmap filter_loop].
  cbn [length] in Hl. destruct (Z.ltb_spec (Z.of_nat (length rv)) n); [|lia].
  rewrite printf_d_nat, atoi_u by lia. cbn [mbind option_bind].
  destruct (Z.ltb_spec u (-1)); [lia|]. destruct (Z.eqb_spec u (-1)); [lia|].
  rewrite IH by (rewrite length_app; cbn [length]; lia). by rewrite <-app_assoc.
Qed.

Definition uid_ok (u : Z) : Prop := 0 <= u < 2 ^ 31.
Lemma parse_filter_all uids :
  uids <> [] -> Forall uid_ok uids -> parse_uid_filter (join COMMA (printf_d <$> uids)) = Some (Some (uids ++ [-1])).
Proof.
  intros Hne Hu. unfold parse_uid_filter.
  assert (Ht : tokens COMMA (join COMMA (printf_d <$> uids)) = printf_d <$> uids).
  { apply tokens_join, Forall_fmap. eapply Forall_impl; [exact Hu|]. intros u [Hu0 _]. split; [|by apply comma_free].
    rewrite printf_d_nat by done. by apply sh_plain_u. }
  pose proof (length_tokens (join COMMA (printf_d <$> uids))) as Hl. rewrite Ht in *. rewrite length_fmap in Hl.
  rewrite (filter_loop_all _ uids []); [done|done|]. cbn [length]. lia.
Qed.

Lemma plain_d u : Forall (fun c => sh_plain c = true) (printf_d u) /\ printf_d u <> [].
Proof.
  unfold printf_d. destruct (Z.ltb_spec u 0); [|by apply sh_plain_u]. split; [|done].
  constructor; [done|]. apply sh_plain_u. lia.
Qed.
Lemma plain_join (l : list cstr) :
  Forall (fun t => Forall (fun c => sh_plain c = true) t) l -> Forall (fun c => sh_plain c = true) (join COMMA l).
Proof.
  destruct 1 as [|t l Ht Hl]; [constructor|]. apply Forall_app. split; [done|].
  induction Hl as [|x l Hx Hl IH]; [constructor|]. cbn. constructor; [done|]. by apply Forall_app.
Qed.
Lemma plain_filter tls uids :
  Forall (fun c => sh_plain c = true) (get_uids_filter tls uids 128) /\ get_uids_filter tls uids 128 <> [].
Proof.
  destruct (decide (tls || bool_decide (uids = []) = true)) as [E|E].
  { unfold get_uids_filter. rewrite E. split; [by repeat constructor|done]. }
  destruct tls; [done|]. destruct (bool_decide (uids = [])) eqn:Eu; [done|]. apply bool_decide_eq_false in Eu.
  rewrite uids_filter_take by done. split.
  - apply Forall_take, plain_join, Forall_fmap, Forall_forall. intros u _. apply plain_d.
  - destruct uids as [|u uids]; [done|]. cbn [fmap list_fmap join]. pose proof (proj2 (plain_d u)) as Hne.
    destruct (printf_d u) as [|c t]; [done|]. done.
Qed.
Lemma no_quote_ifname s : valid_ifname s = true -> QUOTE ∉ s.
Proof.
  unfold valid_ifname. destruct s as [|c s]; [done|]. intros [_ Hv]%andb_true_iff Hin. rewrite forallb_forall in Hv.
  apply list_elem_of_In, Hv in Hin. done.
Qed.
Lemma no_quote_bpf s : valid_bpf s = true -> QUOTE ∉ s.
Proof.
  unfold valid_bpf. rewrite forallb_forall. intros Hv Hin. apply list_elem_of_In, Hv in Hin. done.
Qed.

Lemma sh_word s rest :
  s <> [] -> Forall (fun c => sh_plain c = true) s ->
  sh_words false None (s ++ 32 :: rest) = cons s <$> sh_words false None rest.
Proof. intros Hne Hs. by rewrite sh_start, sh_blank. Qed.
Lemma sh_quoted_word s rest :
  QUOTE ∉ s ->
  sh_words false None (QUOTE :: s ++ QUOTE :: 32 :: rest) = cons s <$> sh_words false None rest.
Proof. intros Hs. by rewrite sh_quote_word, sh_blank. Qed.

Lemma args_words log_uid interface filter bpf daemonize :
  0 <= log_uid -> QUOTE ∉ interface -> QUOTE ∉ bpf ->
  filter <> [] -> Forall (fun c => sh_plain c = true) filter ->
  sh_words false None (args_of log_uid interface filter bpf daemonize) =
  Some ([str "-l"; str "pcapd.log"; str "-L"; printf_u log_uid; str "-i"; interface; str "-u"; filter; str "-t"; str "-b"; bpf]
    ++ if daemonize then [str "-d"] else []).
Proof.
  intros Hu Hi Hb Hf1 Hf2. unfold args_of.
  change (str "-l pcapd.log -L ") with (str "-l" ++ 32 :: str "pcapd.log" ++ 32 :: str "-L" ++ [32]).
  change (str " -i '") with (32 :: str "-i" ++ [32; QUOTE]).
  change (str "' -u ") with (QUOTE :: 32 :: str "-u" ++ [32]).
  change (str " -t -b '") with (32 :: str "-t" ++ 32 :: str "-b" ++ [32; QUOTE]).
  repeat first [rewrite <-app_assoc | progress cbn [app]].
  repeat first [rewrite sh_word; [|done|by repeat constructor] | rewrite sh_word; [|by apply sh_plain_u|by apply sh_plain_u]
    | rewrite sh_quoted_word by done | rewrite sh_word by done].
  change (str "'") with [QUOTE]. cbn [app]. rewrite sh_quote_word by done. by destruct daemonize.
Qed.

(** ** The properties *)

(** the selection of applications reaches the daemon: the list that
    [get_uids_filter] prints is parsed back to the same UIDs in the same order, with
    the terminator behind them, as long as it fits its buffer; and whatever the
    daemon is given, it writes no more than it allocated. *)
Theorem uids_filter_roundtrip uids size :
  uids <> [] -> Forall uid_ok uids ->
  Z.of_nat (length (join COMMA (printf_d <$> uids))) < size ->
  parse_uid_filter (get_uids_filter false uids size) = Some (Some (uids ++ [-1])) /\
  forall s f, parse_uid_filter s = Some (Some f) -> Z.of_nat (length f) <= 1 + count_commas s + 1.
Proof.
  intros Hne Hu Hl. split.
  - rewrite uids_filter_take by (done || lia). rewrite take_ge by lia. by apply parse_filter_all.
  - intros s f. apply filter_loop_room. cbn. unfold count_commas. lia.
Qed.

(** C10: with a selection of applications the daemon passes the packets of the first
    one only, and never returns from the first packet of any other application: the
    loop over the list does not advance. *)
Theorem uid_filter_stuck u uids uid :
  uid_ok u ->
  (uid = u -> forall fuel, matches_uid_filter (S fuel) (Some (u :: uids ++ [-1])) uid = Some true) /\
  (uid <> u -> forall fuel, matches_uid_filter fuel (Some (u :: uids ++ [-1])) uid = None).
Proof.
  intros [Hu _]. cbn [matches_uid_filter lookup list_lookup mbind option_bind].
  destruct (Z.eqb_spec u (-1)); [lia|]. split.
  - intros -> fuel. cbn. rewrite Z.eqb_refl. by destruct (Z.eqb_spec u (-1)); [lia|].
  - intros Hne. induction fuel as [|fuel IH]; [done|]. cbn [matches_loop lookup list_lookup mbind option_bind].
    destruct (Z.eqb_spec u (-1)); [lia|]. by destruct (Z.eqb_spec u uid); [congruence|].
Qed.

(** C20: what the user typed for a capture of an interface never reaches the shell as a
    command: when the checks accept the interface and the filter, and the arguments fit
    their 256 bytes, the shell splits them into the words they were made of, whatever
    characters the filter holds.  The same is true of a PCAP file if there is no quote
    in its path, which the code does not check ([quoted_path]). *)
Theorem daemon_command_words found log_uid file interface bpf tls uids args :
  0 <= log_uid -> (file = true -> QUOTE ∉ interface) ->
  connectPcapd_args found log_uid file interface bpf tls uids = Some args ->
  (length (args_of log_uid interface (get_uids_filter tls uids 128) bpf (negb file)) < 256)%nat ->
  sh_words false None args =
  Some ([str "-l"; str "pcapd.log"; str "-L"; printf_u log_uid; str "-i"; interface; str "-u";
         get_uids_filter tls uids 128; str "-t"; str "-b"; bpf] ++ if file then [] else [str "-d"]).
Proof.
  intros Hu Hfile. unfold connectPcapd_args.
  destruct (negb (bool_decide (bpf = [])) && negb (valid_bpf bpf)) eqn:Eb; [done|].
  destruct (if file then _ else _) eqn:Ei; [done|]. intros [= <-] Hl. unfold printf_bytes. rewrite take_ge by lia.
  destruct (plain_filter tls uids) as [Hf1 Hf2].
  rewrite args_words; [by destruct file|done| | |done|done].
  - destruct file; [by apply Hfile|]. apply no_quote_ifname. by destruct (valid_ifname interface).
  - apply andb_false_iff in Eb as [Eb|Eb]; apply negb_false_iff in Eb; [|by apply no_quote_bpf].
    apply bool_decide_eq_true in Eb as ->. set_solver.
Qed.

Definition bpf_ex : cstr := str "host 1.2.3.4 && port 80 ; reboot | x".
Lemma daemon_command_words_witness :
  exists args, connectPcapd_args true 10100 false (str "wlan0") bpf_ex false [10123; 10124] = Some args /\
  sh_words false None args =
  Some ([str "-l"; str "pcapd.log"; str "-L"; printf_u 10100; str "-i"; str "wlan0"; str "-u";
         get_uids_filter false [10123; 10124] 128; str "-t"; str "-b"; bpf_ex] ++ [str "-d"]).
Proof.
  eexists. split; [by vm_compute|].
  apply (daemon_command_words true 10100 false (str "wlan0") bpf_ex false [10123; 10124]);
    [lia|done|by vm_compute|apply (bool_decide_unpack _); by vm_compute].
Defined.
Lemma uids_filter_roundtrip_witness :
  parse_uid_filter (get_uids_filter false [10123; 10124] 128) = Some (Some [10123; 10124; -1]) /\
  forall s f, parse_uid_filter s = Some (Some f) -> Z.of_nat (length f) <= 1 + count_commas s + 1.
Proof.
  apply (uids_filter_roundtrip [10123; 10124] 128); [done|repeat constructor; done|by vm_compute].
Defined.
Lemma uid_filter_stuck_witness :
  (10123 = 10123 -> forall fuel, matches_uid_filter (S fuel) (Some [10123; 10124; -1]) 10123 = Some true) /\
  (10124 <> 10123 -> forall fuel, matches_uid_filter fuel (Some [10123; 10124; -1]) 10124 = None).
Proof.
  assert (H : uid_ok 10123) by done.
  split; [apply (proj1 (uid_filter_stuck 10123 [10124] 10123 H))|apply (proj2 (uid_filter_stuck 10123 [10124] 10124 H))].
Defined.

(** The two conditions are needed: a filter that does not fit leaves its quote open,
    and the name of a file can close it. *)
Example cut_command :
  valid_bpf (replicate 220 97) = true /\
  (connectPcapd_args true 10100 false (str "wlan0") (replicate 220 97) false [] ≫= sh_words false None) = None.
Proof. split; by vm_compute. Qed.
Example quoted_path :
  (connectPcapd_args true 10100 true (str "a' -n 'b") [] false [] ≫= sh_words false None) =
  Some [str "-l"; str "pcapd.log"; str "-L"; str "10100"; str "-i"; str "a"; str "-n"; str "b"; str "-u"; str "-1";
        str "-t"; str "-b"; []].
Proof. by vm_compute. Qed.

(** The arguments of iptables fit their buffer. *)
Lemma mitm_args_fit addon uid add : is_Some (get_mitm_redirection_args addon uid add).
Proof.
  assert (Hd : forall z, (length (printf_d z) <= 11)%nat).
  { intros z. unfold printf_d, printf_u. case_match; cbn [length]; rewrite length_fmap; pose proof (length_to_base 10 10 z);
      pose proof (length_to_base 10 10 (- z)); lia. }
  unfold get_mitm_redirection_args. cbv zeta. match goal with |- context [length ?s] => assert (Hl : (length s < 128)%nat) end.
  { pose proof (Hd uid). pose proof (Hd addon). destruct add, (0 <=? uid); rewrite !length_app; cbn [length str fmap list_fmap String.list_ascii_of_string] in *; cbn; lia. }
  destruct (Z.ltb_spec (Z.of_nat (length (str "-t nat -" ++ str (if add then "I" else "D") ++ str " OUTPUT -p tcp -m owner " ++
    (if 0 <=? uid then str "--uid-owner " ++ printf_d uid else str "! --uid-owner " ++ printf_d addon) ++
    str " -j REDIRECT --to 7780"))) 128); [by eexists|lia].
Qed.

(** A selection that does not fit is cut inside a UID: here the last of 22 becomes
    UID 1. *)
Example cut_filter :
  parse_uid_filter (get_uids_filter false (10123 :: replicate 20 10124 ++ [10200]) 128) =
  Some (Some (10123 :: replicate 20 10124 ++ [1; -1])).
Proof. by vm_compute. Qed.
End DaemonArgs.
