(* ===== verification/UtHash.v ===== *)
(** * The uthash tables the program uses (submodules/zdtun/third_party/uthash.h)

    A uthash table threads its elements on an application-order list, which
    [HASH_ADD] extends at the end and [HASH_ITER] follows; it is modelled by
    that list.  [HASH_ADD] does not look for an existing element with the same
    key: keys are unique only when the caller checks first, and that is an
    invariant ([hash_wf]) the clients establish.  [HASH_ADD] also puts the
    element at the head of its bucket, so [HASH_FIND] meets the most recently
    added element of a key first. *)

From S2P Require Import Prelude.

Section uthash.
Context {K V : Type} `{EqDecision K}.
Implicit Types (h : list (K * V)) (k : K) (v : V).

Definition HASH_ADD k v h : list (K * V) := h ++ [(k, v)].

Fixpoint HASH_FIND k h : option V :=
  match h with
  | [] => None
  | (k', v) :: h' =>
      match HASH_FIND k h' with
      | Some v' => Some v'
      | None => if decide (k = k') then Some v else None
      end
  end.

(** [HASH_DELETE] of the element [HASH_FIND k] returned. *)
Fixpoint HASH_DELETE k h : list (K * V) :=
  match h with
  | [] => []
  | (k', v) :: h' =>
      match HASH_FIND k h' with
      | Some _ => (k', v) :: HASH_DELETE k h'
      | None => if decide (k = k') then h' else (k', v) :: h'
      end
  end.

(** Writing the value of the element [HASH_FIND k] returned. *)
Fixpoint HASH_SET k v h : list (K * V) :=
  match h with
  | [] => []
  | (k', v') :: h' =>
      match HASH_FIND k h' with
      | Some _ => (k', v') :: HASH_SET k v h'
      | None => if decide (k = k') then (k', v) :: h' else (k', v') :: h'
      end
  end.

Definition HASH_COUNT h : Z := Z.of_nat (length h).

(** [HASH_ITER(..) { HASH_DELETE(..); break; }]: drop the oldest element. *)
Definition HASH_DELETE_FIRST h : list (K * V) := tail h.

(** [HASH_ITER(..) { HASH_DELETE(..); }]: every element, oldest first. *)
Definition HASH_CLEAR h : list (K * V) :=
  fold_left (fun h' _ => HASH_DELETE_FIRST h') h h.

Definition hash_keys h : list K := h.*1.
Definition hash_wf h : Prop := NoDup (hash_keys h).

Lemma HASH_FIND_None k h : HASH_FIND k h = None <-> k ∉ hash_keys h.
Proof.
  induction h as [|[k' v] h IH]; simpl; [split; [intros _; apply not_elem_of_nil|done]|].
  rewrite not_elem_of_cons, <-IH.
  clear IH. destruct (HASH_FIND k h); [by split; [|intros [_ ?]]|].
  case_decide; split; [done|by intros [? _]|done|done].
Qed.

Lemma HASH_FIND_elem k v h : HASH_FIND k h = Some v -> (k, v) ∈ h.
Proof.
  induction h as [|[k' v'] h IH]; simpl; [done|].
  destruct (HASH_FIND k h) as [w|]; [intros [= ->]; right; auto|].
  case_decide; [|done]. intros [= ->]. subst. by left.
Qed.

Lemma HASH_FIND_Some k v h : hash_wf h -> HASH_FIND k h = Some v <-> (k, v) ∈ h.
Proof.
  intros Hwf. split; [apply HASH_FIND_elem|].
  induction h as [|[k' v'] h IH]; simpl; [by intros ?%not_elem_of_nil|].
  apply NoDup_cons in Hwf as [Hn Hwf].
  intros [[= -> ->]|Hin]%elem_of_cons.
  - apply HASH_FIND_None in Hn. simpl in Hn. rewrite Hn. by rewrite decide_True.
  - by rewrite (IH Hwf Hin).
Qed.

Lemma HASH_FIND_app k h1 h2 :
  HASH_FIND k (h1 ++ h2) =
  match HASH_FIND k h2 with Some v => Some v | None => HASH_FIND k h1 end.
Proof.
  induction h1 as [|[k' v] h1 IH]; simpl; [by destruct (HASH_FIND k h2)|].
  rewrite IH. by destruct (HASH_FIND k h2).
Qed.

Lemma HASH_FIND_ADD_eq k v h : HASH_FIND k (HASH_ADD k v h) = Some v.
Proof. unfold HASH_ADD. rewrite HASH_FIND_app. simpl. by rewrite decide_True. Qed.
Lemma HASH_FIND_ADD_ne k k' v h :
  k <> k' -> HASH_FIND k (HASH_ADD k' v h) = HASH_FIND k h.
Proof. intros. unfold HASH_ADD. rewrite HASH_FIND_app. simpl. by rewrite decide_False. Qed.

Lemma hash_wf_ADD k v h :
  hash_wf h -> HASH_FIND k h = None -> hash_wf (HASH_ADD k v h).
Proof.
  unfold hash_wf, hash_keys, HASH_ADD. intros Hwf Hn%HASH_FIND_None.
  rewrite fmap_app. apply NoDup_app. split_and!; [done| |apply NoDup_singleton].
  intros x Hx ->%list_elem_of_singleton. done.
Qed.

(** With unique keys, deletion filters the key out. *)
Lemma HASH_DELETE_filter k h :
  hash_wf h -> HASH_DELETE k h = filter (fun e => e.1 <> k) h.
Proof.
  induction h as [|[k' v] h IH]; simpl; [done|]. intros [Hn Hwf]%NoDup_cons.
  rewrite filter_cons. simpl. destruct (HASH_FIND k h) as [w|] eqn:E.
  - rewrite IH by done. rewrite decide_True; [done|].
    intros ->. apply Hn. apply HASH_FIND_elem in E.
    apply list_elem_of_fmap. by exists (k, w).
  - assert (filter (fun e => e.1 <> k) h = h) as Hf.
    { apply filter_all. apply Forall_forall. intros [k2 v2] Hin Heq. simpl in Heq. subst k2.
      apply HASH_FIND_None in E. apply E, list_elem_of_fmap. by exists (k, v2). }
    case_decide as Hk.
    + subst. rewrite decide_False by (intros ?; done). by rewrite Hf.
    + rewrite decide_True by (by intros ->). by rewrite Hf.
Qed.

Lemma HASH_DELETE_None k h : HASH_FIND k h = None -> HASH_DELETE k h = h.
Proof.
  induction h as [|[k' v] h IH]; simpl; [done|].
  destruct (HASH_FIND k h); [done|]. by case_decide.
Qed.

Lemma hash_wf_DELETE k h : hash_wf h -> hash_wf (HASH_DELETE k h).
Proof.
  intros Hwf. rewrite HASH_DELETE_filter by done. unfold hash_wf, hash_keys in *.
  clear -Hwf. induction h as [|[k' v] h IH]; [done|].
  rewrite filter_cons. apply NoDup_cons in Hwf as [Hn Hwf].
  case_decide; [|by apply IH]. apply NoDup_cons. split; [|by apply IH].
  contradict Hn. apply list_elem_of_fmap in Hn as (e & -> & [_ He]%list_elem_of_filter).
  apply list_elem_of_fmap. eauto.
Qed.

Lemma HASH_FIND_DELETE_eq k h : hash_wf h -> HASH_FIND k (HASH_DELETE k h) = None.
Proof.
  intros Hwf. apply HASH_FIND_None. rewrite HASH_DELETE_filter by done.
  intros (e & -> & [He _]%list_elem_of_filter)%list_elem_of_fmap. done.
Qed.

Lemma HASH_FIND_DELETE_ne k k' h :
  hash_wf h -> k <> k' -> HASH_FIND k (HASH_DELETE k' h) = HASH_FIND k h.
Proof.
  intros Hwf Hne. apply option_eq. intros v.
  rewrite !HASH_FIND_Some by auto using hash_wf_DELETE.
  rewrite HASH_DELETE_filter by done. rewrite list_elem_of_filter. naive_solver.
Qed.

Lemma length_HASH_DELETE k h v :
  HASH_FIND k h = Some v -> S (length (HASH_DELETE k h)) = length h.
Proof.
  induction h as [|[k' v'] h IH]; simpl; [done|].
  destruct (HASH_FIND k h) as [w|] eqn:E; simpl.
  - intros [= ->]. by rewrite IH.
  - by case_decide.
Qed.

Lemma HASH_CLEAR_nil h : HASH_CLEAR h = [].
Proof.
  unfold HASH_CLEAR.
  enough (forall (l h' : list (K * V)), length h' = length l ->
    fold_left (fun h' _ => HASH_DELETE_FIRST h') l h' = []) as He by by apply He.
  induction l as [|e l IH]; intros [|e' h'] Hl; simpl in *; try done.
  apply IH. lia.
Qed.

(** Overwriting the entry added last. *)
Lemma HASH_SET_ADD k v v' h : HASH_SET k v (HASH_ADD k v' h) = HASH_ADD k v h.
Proof.
  unfold HASH_ADD. induction h as [|[k2 v2] h IH]; simpl; [by rewrite decide_True|].
  pose proof (HASH_FIND_ADD_eq k v' h) as Hf. unfold HASH_ADD in Hf. rewrite Hf.
  by rewrite IH.
Qed.

Lemma hash_wf_tail h : hash_wf h -> hash_wf (HASH_DELETE_FIRST h).
Proof. destruct h; [done|]. by intros [_ ?]%NoDup_cons. Qed.
End uthash.
