(* ===== verification/Lru.v ===== *)
(** * What a least-recently-used cache promises

    The reference cache stores, with each value, the time of its last use and
    evicts the entry with the oldest one.  The two caches of the program
    ([IpLru], [UidLru]) keep no time: they reorder the application list of a
    uthash table.  [lru_sim] relates the two, and the lemmas of this file are
    the simulation steps both implementations use. *)

From S2P Require Import Prelude UtHash.

Section lru.
Context {K V : Type} `{Countable K}.
Implicit Types (h : list (K * V)) (k : K) (v : V).

(** ** The reference *)

Record lru_ref := LruRef { ref_clock : Z; ref_map : gmap K (V * Z) }.

Definition ref_init : lru_ref := LruRef 0 ∅.

(** Using an entry stamps it with the current time. *)
Definition ref_use k v (r : lru_ref) : lru_ref :=
  LruRef (ref_clock r + 1) (<[k := (v, ref_clock r)]> (ref_map r)).

Definition ref_touch k (r : lru_ref) : lru_ref :=
  match ref_map r !! k with
  | Some (v, _) => ref_use k v r
  | None => r
  end.

Definition ref_find k (r : lru_ref) : option V := fst <$> ref_map r !! k.

Definition oldest (r : lru_ref) : Z :=
  foldr Z.min (ref_clock r) ((fun e => e.2.2) <$> map_to_list (ref_map r)).

Definition ref_evict (r : lru_ref) : lru_ref :=
  LruRef (ref_clock r) (filter (fun e => e.2.2 <> oldest r) (ref_map r)).

Definition ref_insert (max : Z) k v (r : lru_ref) : lru_ref :=
  let r' := ref_use k v r in
  if max <? Z.of_nat (size (ref_map r')) then ref_evict r' else r'.

(** ** The list operations of the implementations *)

Definition lru_touch k h : list (K * V) :=
  match HASH_FIND k h with
  | Some v => HASH_ADD k v (HASH_DELETE k h)
  | None => h
  end.

Definition lru_insert (max : Z) k v h : list (K * V) :=
  let h' := HASH_ADD k v h in
  if max <? HASH_COUNT h' then HASH_DELETE_FIRST h' else h'.

(** ** The simulation relation: same entries, list order is time order *)

Definition stamp (r : lru_ref) k : Z := from_option snd 0 (ref_map r !! k).

Record lru_sim h (r : lru_ref) : Prop := {
  sim_wf : hash_wf h;
  sim_find : forall k, HASH_FIND k h = ref_find k r;
  sim_sorted : StronglySorted (fun a b => stamp r a < stamp r b) (hash_keys h);
  sim_clock : forall k v t, ref_map r !! k = Some (v, t) -> t < ref_clock r;
  }.

Lemma lru_sim_init : lru_sim [] ref_init.
Proof. split; [constructor|done|constructor|done]. Qed.

Lemma sim_in_dom h r k : lru_sim h r -> k ∈ hash_keys h -> is_Some (ref_map r !! k).
Proof.
  intros Hs Hk. destruct (HASH_FIND k h) as [v|] eqn:E.
  - rewrite (sim_find _ _ Hs) in E. unfold ref_find in E.
    by destruct (ref_map r !! k).
  - by apply HASH_FIND_None in E.
Qed.

Lemma sim_stamp_clock h r k :
  lru_sim h r -> k ∈ hash_keys h -> stamp r k < ref_clock r.
Proof.
  intros Hs Hk. destruct (sim_in_dom h r k) as [[v t] E]; [done..|].
  unfold stamp. rewrite E. simpl. by eapply sim_clock.
Qed.

Lemma sim_dom h r : lru_sim h r -> dom (ref_map r) = list_to_set (hash_keys h).
Proof.
  intros Hs. apply set_eq. intros k. rewrite elem_of_list_to_set, elem_of_dom.
  split; [|by apply sim_in_dom]. intros [[v t] E].
  destruct (decide (k ∈ hash_keys h)) as [|Hn%HASH_FIND_None]; [done|].
  rewrite (sim_find _ _ Hs) in Hn. unfold ref_find in Hn. by rewrite E in Hn.
Qed.

Lemma sim_size h r : lru_sim h r -> Z.of_nat (size (ref_map r)) = HASH_COUNT h.
Proof.
  intros Hs. unfold HASH_COUNT. f_equal.
  rewrite <-size_dom, (sim_dom h r) by done.
  rewrite size_list_to_set by apply (sim_wf _ _ Hs).
  apply length_fmap.
Qed.

Lemma stamp_use_eq k v r : stamp (ref_use k v r) k = ref_clock r.
Proof. unfold stamp. simpl. by rewrite lookup_insert_eq. Qed.
Lemma stamp_use_ne k k' v r : k <> k' -> stamp (ref_use k v r) k' = stamp r k'.
Proof. intros. unfold stamp. simpl. by rewrite lookup_insert_ne. Qed.

Lemma keys_filter (P : K -> Prop) `{!forall x, Decision (P x)} h :
  (filter (fun e => P e.1) h).*1 = filter P (h.*1).
Proof.
  induction h as [|[k v] h IH]; [done|]. rewrite fmap_cons, !filter_cons. simpl.
  case_decide; [rewrite fmap_cons; by f_equal|done].
Qed.

Lemma sorted_filter (R : K -> K -> Prop) (P : K -> Prop) `{!forall x, Decision (P x)} l :
  StronglySorted R l -> StronglySorted R (filter P l).
Proof.
  induction 1 as [|x l Hl IH Hx]; [constructor|]. rewrite filter_cons.
  case_decide; [|done]. constructor; [done|].
  rewrite Forall_forall in *. intros y [_ Hy]%list_elem_of_filter. auto.
Qed.

Lemma sorted_snoc (R : K -> K -> Prop) l x :
  StronglySorted R l -> Forall (fun y => R y x) l -> StronglySorted R (l ++ [x]).
Proof.
  induction 1 as [|y l Hl IH Hy]; intros Hx; simpl; [by repeat constructor|].
  inversion Hx; subst. constructor; [by apply IH|].
  apply Forall_app. split; [done|]. by constructor.
Qed.

Lemma sorted_impl (R R' : K -> K -> Prop) l :
  (forall x y, x ∈ l -> y ∈ l -> R x y -> R' x y) ->
  StronglySorted R l -> StronglySorted R' l.
Proof.
  intros HR. induction 1 as [|x l Hl IH Hx]; [constructor|]. constructor.
  - apply IH. intros a b Ha Hb. apply HR; by right.
  - rewrite Forall_forall in *. intros y Hy. apply HR; [by left|by right|auto].
Qed.

(** Removing a key and adding it last is using it now. *)
Lemma sim_use h r k v :
  lru_sim h r -> lru_sim (HASH_ADD k v (HASH_DELETE k h)) (ref_use k v r).
Proof.
  intros Hs. pose proof (sim_wf _ _ Hs) as Hwf.
  assert (Hk : hash_keys (HASH_DELETE k h) = filter (fun x => x <> k) (hash_keys h)).
  { rewrite HASH_DELETE_filter by done. exact (keys_filter (fun x => x <> k) h). }
  split.
  - apply hash_wf_ADD; [by apply hash_wf_DELETE|]. by apply HASH_FIND_DELETE_eq.
  - intros k'. unfold ref_find. simpl. destruct (decide (k' = k)) as [->|Hne].
    + by rewrite HASH_FIND_ADD_eq, lookup_insert_eq.
    + rewrite HASH_FIND_ADD_ne, HASH_FIND_DELETE_ne, lookup_insert_ne by done.
      apply (sim_find _ _ Hs).
  - unfold hash_keys at 1, HASH_ADD. rewrite fmap_app. fold (hash_keys (HASH_DELETE k h)).
    rewrite Hk. apply sorted_snoc.
    + eapply sorted_impl; [|apply sorted_filter, (sim_sorted _ _ Hs)].
      intros x y [Hx _]%list_elem_of_filter [Hy _]%list_elem_of_filter.
      by rewrite !stamp_use_ne by done.
    + apply Forall_forall. intros x [Hx Hin]%list_elem_of_filter. simpl.
      rewrite stamp_use_eq, stamp_use_ne by done. by eapply sim_stamp_clock.
  - intros k' v' t. simpl. intros [[? [= <- <-]]|[? Hl]]%lookup_insert_Some; [lia|].
    apply (sim_clock _ _ Hs) in Hl. lia.
Qed.

Lemma sim_touch h r k : lru_sim h r -> lru_sim (lru_touch k h) (ref_touch k r).
Proof.
  intros Hs. unfold lru_touch, ref_touch. rewrite (sim_find _ _ Hs). unfold ref_find.
  destruct (ref_map r !! k) as [[v t]|] eqn:E; simpl; [|done]. by apply sim_use.
Qed.

Lemma sim_add h r k v :
  lru_sim h r -> HASH_FIND k h = None -> lru_sim (HASH_ADD k v h) (ref_use k v r).
Proof. intros Hs Hn. rewrite <-(HASH_DELETE_None k h) by done. by apply sim_use. Qed.

(** The entry at the head of the list carries the oldest stamp. *)
Lemma sim_oldest k v h r : lru_sim ((k, v) :: h) r -> oldest r = stamp r k.
Proof.
  intros Hs. pose proof (sim_sorted _ _ Hs) as Hsort. simpl in Hsort.
  apply StronglySorted_inv in Hsort as [_ Hmin].
  assert (Hle : forall k' v' t, ref_map r !! k' = Some (v', t) -> stamp r k <= t).
  { intros k' v' t E.
    assert (k' ∈ hash_keys ((k, v) :: h)) as Hin.
    { rewrite <-(elem_of_list_to_set (C := gset K)), <-(sim_dom _ _ Hs). by eapply elem_of_dom_2. }
    assert (t = stamp r k') as -> by (unfold stamp; by rewrite E).
    apply elem_of_cons in Hin as [->|Hin]; [done|].
    rewrite Forall_forall in Hmin. apply Hmin in Hin. lia. }
  assert (Hk : k ∈ hash_keys ((k, v) :: h)) by (by left).
  destruct (sim_in_dom _ _ _ Hs Hk) as [[v0 t0] E0].
  assert (stamp r k = t0) as -> by (unfold stamp; by rewrite E0).
  apply foldr_min_eq.
  - apply list_elem_of_fmap. exists (k, (v0, t0)). by rewrite elem_of_map_to_list.
  - pose proof (sim_clock _ _ Hs _ _ _ E0). lia.
  - apply Forall_fmap, Forall_forall. intros [k' [v' t']] He. simpl.
    apply elem_of_map_to_list in He. apply Hle in He.
    unfold stamp in He. by rewrite E0 in He.
Qed.

Lemma sim_evict k v h r : lru_sim ((k, v) :: h) r -> lru_sim h (ref_evict r).
Proof.
  intros Hs. pose proof (sim_oldest _ _ _ _ Hs) as Hold.
  pose proof (sim_wf _ _ Hs) as Hwf. apply NoDup_cons in Hwf as [Hn Hwf].
  pose proof (sim_sorted _ _ Hs) as Hsort. simpl in Hsort.
  apply StronglySorted_inv in Hsort as [Hsort Hmin]. rewrite Forall_forall in Hmin.
  assert (Hl : forall k', ref_map (ref_evict r) !! k' =
               if decide (k' = k) then None else ref_map r !! k').
  { intros k'. apply option_eq. intros [w t]. simpl.
    rewrite map_lookup_filter_Some. simpl. rewrite Hold.
    case_decide as Hd.
    - subst. split; [|done]. intros [E Hne]. unfold stamp in Hne. by rewrite E in Hne.
    - split; [by intros [? _]|]. intros E. split; [done|]. intros Heq.
      assert (k' ∈ hash_keys h) as Hin.
      { assert (k' ∈ hash_keys ((k, v) :: h)) as Hin; [|by apply elem_of_cons in Hin as [->|]].
        rewrite <-(elem_of_list_to_set (C := gset K)), <-(sim_dom _ _ Hs).
        by eapply elem_of_dom_2. }
      apply Hmin in Hin. unfold stamp in Hin, Heq. rewrite E in Hin. simpl in Hin. lia. }
  split; [done| |eapply sorted_impl; [|exact Hsort]|].
  - intros k'. unfold ref_find. rewrite Hl. case_decide as Hd; simpl.
    + subst. by apply HASH_FIND_None.
    + pose proof (sim_find _ _ Hs k') as Hf. unfold ref_find in Hf. rewrite <-Hf. simpl.
      destruct (HASH_FIND k' h); [done|]. by rewrite decide_False.
  - intros x y Hx Hy. unfold stamp. rewrite !Hl.
    by rewrite !decide_False by (by intros ->).
  - intros k' w t. rewrite Hl. case_decide; [done|]. apply (sim_clock _ _ Hs).
Qed.

Lemma sim_insert max h r k v :
  lru_sim h r -> HASH_FIND k h = None ->
  lru_sim (lru_insert max k v h) (ref_insert max k v r).
Proof.
  intros Hs Hn. pose proof (sim_add _ _ k v Hs Hn) as Ha.
  unfold lru_insert, ref_insert. rewrite (sim_size _ _ Ha).
  case_match; [|done].
  destruct (HASH_ADD k v h) as [|[k0 v0] h0] eqn:E; [by destruct h|].
  by eapply sim_evict.
Qed.

(** The bound the implementations maintain. *)
Lemma lru_insert_bound max h k v :
  0 <= max -> HASH_COUNT h <= max -> HASH_COUNT (lru_insert max k v h) <= max.
Proof.
  intros Hm Hc. unfold lru_insert, HASH_COUNT, HASH_DELETE_FIRST, HASH_ADD in *.
  case_match; [|lia]. rewrite length_tl, length_app. simpl. lia.
Qed.

Lemma lru_touch_count k h : HASH_COUNT (lru_touch k h) = HASH_COUNT h.
Proof.
  unfold lru_touch, HASH_COUNT. destruct (HASH_FIND k h) as [v|] eqn:E; [|done].
  unfold HASH_ADD. rewrite length_app. simpl.
  apply length_HASH_DELETE in E. lia.
Qed.

Lemma lru_touch_find k k' h :
  hash_wf h -> HASH_FIND k (lru_touch k' h) = HASH_FIND k h.
Proof.
  intros Hwf. unfold lru_touch. destruct (HASH_FIND k' h) as [v|] eqn:E; [|done].
  destruct (decide (k = k')) as [->|Hne].
  - by rewrite HASH_FIND_ADD_eq.
  - by rewrite HASH_FIND_ADD_ne, HASH_FIND_DELETE_ne by done.
Qed.

Lemma lru_touch_wf k h : hash_wf h -> hash_wf (lru_touch k h).
Proof.
  intros Hwf. unfold lru_touch. destruct (HASH_FIND k h) as [v|] eqn:E; [|done].
  apply hash_wf_ADD; [by apply hash_wf_DELETE|by apply HASH_FIND_DELETE_eq].
Qed.

Lemma lru_insert_wf max h k v :
  hash_wf h -> HASH_FIND k h = None -> hash_wf (lru_insert max k v h).
Proof.
  intros Hwf Hn. unfold lru_insert. case_match; [apply hash_wf_tail|];
    by apply hash_wf_ADD.
Qed.

Lemma lru_insert_find max h k v :
  0 < max -> HASH_COUNT h <= max -> HASH_FIND k (lru_insert max k v h) = Some v.
Proof.
  intros Hm Hc. unfold lru_insert.
  destruct (max <? _) eqn:E; [|apply HASH_FIND_ADD_eq].
  destruct h as [|[k0 v0] h]; [|apply HASH_FIND_ADD_eq].
  unfold HASH_COUNT, HASH_ADD in E. simpl in E. apply Z.ltb_lt in E. lia.
Qed.
End lru.
Arguments lru_ref K V {_ _}.
