(* ===== verification/ZdtunTypes.v ===== *)
(** * Data of the zdtun library (submodules/zdtun/zdtun.h)

    Addresses, 5-tuples, parsed packets and connection statuses, shared by
    every other component.  An address is the 16 bytes of the C union; ports
    are 16-bit values as read from memory (network byte order). *)

From S2P Require Import Prelude.

(** The union [zdtun_ip_t]: its sixteen bytes. *)
Record zdtun_ip := ZIp { ip_bytes : list Z }.
#[export] Instance zdtun_ip_eq_dec : EqDecision zdtun_ip.
Proof. solve_decision. Defined.

#[export] Instance zdtun_ip_countable : Countable zdtun_ip.
Proof. apply (inj_countable' ip_bytes ZIp). by intros []. Defined.

(** Member [ip4] of the union. *)
Definition ip4 (ip : zdtun_ip) : Z := le_val (take 4 (ip_bytes ip)).
(** Writing [ip4] into a zeroed union. *)
Definition ip_of_ip4 (v : Z) : zdtun_ip := ZIp (le_bytes 4 v ++ replicate 12 0).
#[global] Arguments ip_of_ip4 : simpl never.
#[global] Arguments ip4 : simpl never.
Definition ip_zero : zdtun_ip := ZIp (replicate 16 0).
Definition ip_ok (ip : zdtun_ip) : Prop :=
  length (ip_bytes ip) = 16%nat /\ bytes_ok (ip_bytes ip).

Record zdtun_5tuple := Tuple {
    src_ip : zdtun_ip;
    dst_ip : zdtun_ip;
    src_port : Z;      (* also echo_id *)
    dst_port : Z;
    ipver : Z;
    ipproto : Z;
  }.
#[export] Instance zdtun_5tuple_eq_dec : EqDecision zdtun_5tuple.
Proof. solve_decision. Defined.

#[export] Instance zdtun_5tuple_countable : Countable zdtun_5tuple.
Proof.
  apply (inj_countable'
    (fun t => (src_ip t, dst_ip t, src_port t, dst_port t, ipver t, ipproto t))
    (fun '(s, d, sp, dp, v, p) => Tuple s d sp dp v p)). by intros [].
Defined.

Definition IPPROTO_ICMP : Z := 1.
Definition IPPROTO_TCP : Z := 6.
Definition IPPROTO_UDP : Z := 17.
Definition IPPROTO_ICMPV6 : Z := 58.

Definition ZDTUN_PKT_IS_FRAGMENT : Z := 1.
Definition ZDTUN_PKT_IS_FIRST_FRAGMENT : Z := 2.

Definition TH_FIN : Z := 0x01.
Definition TH_SYN : Z := 0x02.
Definition TH_RST : Z := 0x04.
Definition TH_ACK : Z := 0x10.

(** [zdtun_pkt_t].  [pkt_mem] is the memory the pointer [buf] designates; [l3]
    is its start, [l4] the offset [ip_hdr_len], [l7] the offset [pkt_l7]. *)
Record zdtun_pkt := Pkt {
    pkt_tuple : zdtun_5tuple;
    pkt_flags : Z;
    pkt_len : Z;
    pkt_ip_hdr_len : Z;
    pkt_l4_hdr_len : Z;
    pkt_l7_len : Z;
    pkt_mem : list Z;
    pkt_l7 : Z;
  }.

Definition pkt_is_fragment (p : zdtun_pkt) : bool :=
  negb ((pkt_flags p .& ZDTUN_PKT_IS_FRAGMENT) =? 0).
Definition pkt_is_first_fragment (p : zdtun_pkt) : bool :=
  negb ((pkt_flags p .& ZDTUN_PKT_IS_FIRST_FRAGMENT) =? 0).

(** [pkt->tcp->th_flags]: byte 13 of the TCP header. *)
Definition tcp_th_flags (p : zdtun_pkt) : option Z :=
  rd8 (pkt_mem p) (pkt_ip_hdr_len p + 13).

Inductive zdtun_conn_status :=
  | CONN_STATUS_NEW
  | CONN_STATUS_CONNECTING
  | CONN_STATUS_CONNECTED
  | CONN_STATUS_CLOSED
  | CONN_STATUS_ERROR
  | CONN_STATUS_SOCKET_ERROR
  | CONN_STATUS_CLIENT_ERROR
  | CONN_STATUS_RESET
  | CONN_STATUS_UNREACHABLE
  | CONN_STATUS_SOCKS5_ERROR.
#[export] Instance zdtun_conn_status_eq_dec : EqDecision zdtun_conn_status.
Proof. solve_decision. Defined.

(** The values of the C enumeration. *)
Definition status_val (s : zdtun_conn_status) : Z :=
  match s with
  | CONN_STATUS_NEW => 0
  | CONN_STATUS_CONNECTING => 1
  | CONN_STATUS_CONNECTED => 2
  | CONN_STATUS_CLOSED => 3
  | CONN_STATUS_ERROR => 4
  | CONN_STATUS_SOCKET_ERROR => 5
  | CONN_STATUS_CLIENT_ERROR => 6
  | CONN_STATUS_RESET => 7
  | CONN_STATUS_UNREACHABLE => 8
  | CONN_STATUS_SOCKS5_ERROR => 9
  end.

(** [status >= CONN_STATUS_CLOSED], the test the whole program uses. *)
Definition is_closed (s : zdtun_conn_status) : bool :=
  status_val CONN_STATUS_CLOSED <=? status_val s.

(** [zdtun_statistics_t]. *)
Record zdtun_statistics := ZStats {
    num_icmp_conn : Z;
    num_tcp_conn : Z;
    num_udp_conn : Z;
    num_icmp_opened : Z;
    num_tcp_opened : Z;
    num_udp_opened : Z;
    num_open_sockets : Z;
    all_max_fd : Z;
  }.
Definition zstats_zero : zdtun_statistics := ZStats 0 0 0 0 0 0 0 0.

(** [zdtun_cmp_ip]: 0 when the addresses agree on the bytes of their family,
    otherwise the sign of the first difference. *)
Fixpoint memcmp (a b : list Z) : Z :=
  match a, b with
  | x :: a', y :: b' => if x =? y then memcmp a' b' else if x <? y then -1 else 1
  | _, _ => 0
  end.
Definition zdtun_cmp_ip (ver : Z) (a b : zdtun_ip) : Z :=
  if ver =? 4 then memcmp (take 4 (ip_bytes a)) (take 4 (ip_bytes b))
  else memcmp (take 16 (ip_bytes a)) (take 16 (ip_bytes b)).

(** [zdtun_proto2str] and [zdtun_conn_status2str]. *)
Definition zdtun_proto2str (proto : Z) : string :=
  if proto =? IPPROTO_TCP then "TCP"
  else if proto =? IPPROTO_UDP then "UDP"
  else if proto =? IPPROTO_ICMP then "ICMP"
  else "Unknown".
Definition zdtun_conn_status2str (s : zdtun_conn_status) : string :=
  match s with
  | CONN_STATUS_NEW => "NEW"
  | CONN_STATUS_CONNECTING => "CONNECTING"
  | CONN_STATUS_CONNECTED => "CONNECTED"
  | CONN_STATUS_CLOSED => "CLOSED"
  | CONN_STATUS_ERROR => "ERROR"
  | CONN_STATUS_SOCKET_ERROR => "SOCKET_ERROR"
  | CONN_STATUS_CLIENT_ERROR => "CLIENT_ERROR"
  | CONN_STATUS_RESET => "RESET"
  | CONN_STATUS_UNREACHABLE => "UNREACHABLE"
  | CONN_STATUS_SOCKS5_ERROR => "SOCKS5_ERROR"
  end.

Lemma memcmp_eq a b : length a = length b -> memcmp a b = 0 <-> a = b.
Proof.
  revert b; induction a as [|x a IH]; intros [|y b] Hl; simpl in *; try done.
  destruct (Z.eqb_spec x y) as [->|Hne].
  - rewrite IH by lia. split; [by intros ->|by intros [= ->]].
  - split; [|by intros [= -> ->]]. by destruct (x <? y).
Qed.

Lemma length_ip_of_ip4 v : length (ip_bytes (ip_of_ip4 v)) = 16%nat.
Proof.
  unfold ip_of_ip4. cbn [ip_bytes].
  by rewrite length_app, length_le_bytes, length_replicate.
Qed.

Lemma ip4_of_ip4 v : u_ok 32 v -> ip4 (ip_of_ip4 v) = v.
Proof.
  intros Hv. unfold ip4, ip_of_ip4. cbn [ip_bytes].
  rewrite take_app_length', le_val_le_bytes by (by rewrite length_le_bytes).
  by apply Z.mod_small.
Qed.

Lemma ip_of_ip4_ok v : ip_ok (ip_of_ip4 v).
Proof.
  split; [apply length_ip_of_ip4|]. apply Forall_app. split; [apply le_bytes_ok|].
  by apply Forall_replicate.
Qed.
#[export] Hint Resolve ip_of_ip4_ok : cint.
