(* ===== verification/ZdtunPkt.v ===== *)
(** * Packet parsing in zdtun (submodules/zdtun/zdtun.c, [zdtun_parse_pkt])

    The parser reads a raw IP packet, fills a [zdtun_pkt] and remembers the
    ports of first fragments in the table [id2ports].  Every load is bounds
    checked: [None] is an out-of-bounds access of the C code. *)

From S2P Require Import Prelude ZdtunTypes.

Module ZdtunPkt.

Definition IPV4_HEADER_LEN : Z := 20.
Definition IPV6_HEADER_LEN : Z := 40.
Definition TCP_HEADER_LEN : Z := 20.
Definition UDP_HEADER_LEN : Z := 8.
Definition ICMP_HEADER_LEN : Z := 8.

Definition ICMP_ECHOREPLY : Z := 0.
Definition ICMP_ECHO : Z := 8.
Definition ICMPv6_ECHO : Z := 128.
Definition ICMPv6_ECHOREPLY : Z := 129.

(** [tun->id2ports]: the ports saved for each IP identifier, 0 initially. *)
Abbreviation frag_table := (gmap Z (Z * Z)).
Definition frag_ports (t : frag_table) (id : Z) : Z * Z := default (0, 0) (t !! id).

(** What the network layer determines. *)
Record l3_info := L3 {
    l3_hdr_len : Z;
    l3_len : Z;          (* pkt_len once non-IP data is excluded *)
    l3_flags : Z;
    l3_src : zdtun_ip;
    l3_dst : zdtun_ip;
    l3_proto : Z;
  }.

(** The branch [ipver == 4]. *)
Definition parse_ipv4 (buf : list Z) (len : Z) : option (Z + l3_info) :=
  b0 ← rd8 buf 0;
  let iphdr_len := (b0 .& 0xf) * 4 in
  if len <? iphdr_len then Some (inl (-1)) else
  tot ← rd16 buf 2;
  let tot_len := ntohs tot in
  if tot_len <? iphdr_len then Some (inl (-1)) else
  let len := cmin len tot_len in
  saddr ← rd32 buf 12;
  daddr ← rd32 buf 16;
  proto ← rd8 buf 9;
  frag_off ← rd16 buf 6;
  let flags :=
    if negb ((frag_off .& htons 0x1fff) =? 0) then ZDTUN_PKT_IS_FRAGMENT
    else if negb ((frag_off .& htons 0x2000) =? 0)
    then ZDTUN_PKT_IS_FRAGMENT .| ZDTUN_PKT_IS_FIRST_FRAGMENT
    else 0 in
  Some (inr (L3 iphdr_len len flags (ip_of_ip4 saddr) (ip_of_ip4 daddr) proto)).

Definition is_upper_layer (proto : Z) : bool :=
  (proto =? IPPROTO_TCP) || (proto =? IPPROTO_UDP) || (proto =? IPPROTO_ICMP)
  || (proto =? IPPROTO_ICMPV6).

(** The branch [ipver == 6]. *)
Definition parse_ipv6 (buf : list Z) (len : Z) : option (Z + l3_info) :=
  if len <? IPV6_HEADER_LEN then Some (inl (-1)) else
  nexthdr ← rd8 buf 6;
  if negb (is_upper_layer nexthdr) then Some (inl (-1)) else
  plen ← rd16 buf 4;
  let len := cmin len (ntohs plen + IPV6_HEADER_LEN) in
  saddr ← rdn 16 buf 8;
  daddr ← rdn 16 buf 24;
  let proto := if nexthdr =? IPPROTO_ICMPV6 then IPPROTO_ICMP else nexthdr in
  Some (inr (L3 IPV6_HEADER_LEN len 0 (ZIp saddr) (ZIp daddr) proto)).

(** What the transport layer determines: ports and header length. *)
Record l4_info := L4 { l4_sport : Z; l4_dport : Z; l4_len : Z }.

(** The chain of [else if(ipproto == ...)] for packets that start a datagram. *)
Definition parse_l4 (buf : list Z) (l3 : l3_info) : option (Z + l4_info) :=
  let off := l3_hdr_len l3 in
  let len := l3_len l3 in
  let proto := l3_proto l3 in
  if proto =? IPPROTO_TCP then
    if len <? off + TCP_HEADER_LEN then Some (inl (-1)) else
    b ← rd8 buf (off + 12);
    let tcp_header_len := (b >>> 4) * 4 in
    if len <? off + tcp_header_len then Some (inl (-1)) else
    sport ← rd16 buf off;
    dport ← rd16 buf (off + 2);
    Some (inr (L4 sport dport tcp_header_len))
  else if proto =? IPPROTO_UDP then
    if len <? off + UDP_HEADER_LEN then Some (inl (-1)) else
    sport ← rd16 buf off;
    dport ← rd16 buf (off + 2);
    Some (inr (L4 sport dport 8))
  else if proto =? IPPROTO_ICMP then
    if len <? off + ICMP_HEADER_LEN then Some (inl (-1)) else
    ty ← rd8 buf off;
    if negb (ty =? ICMP_ECHO) && negb (ty =? ICMP_ECHOREPLY)
       && negb (ty =? ICMPv6_ECHO) && negb (ty =? ICMPv6_ECHOREPLY)
    then Some (inl (-2)) else
    id ← rd16 buf (off + 4);
    if (ty =? ICMP_ECHO) || (ty =? ICMPv6_ECHO)
    then Some (inr (L4 id 0 ICMP_HEADER_LEN))
    else Some (inr (L4 0 id ICMP_HEADER_LEN))
  else Some (inl (-3)).

Definition has_flag (flags f : Z) : bool := negb ((flags .& f) =? 0).

(** The first part of the function: length and version checks, then the
    network header. *)
Definition parse_l3 (buf : list Z) (len : Z) : option (Z + (Z * l3_info)) :=
  if len <? IPV4_HEADER_LEN then Some (inl (-1)) else
  b0 ← rd8 buf 0;
  let ver := b0 >>> 4 in
  if negb (ver =? 4) && negb (ver =? 6) then Some (inl (-1)) else
  r ← (if ver =? 4 then parse_ipv4 buf len else parse_ipv6 buf len);
  match r with
  | inl e => Some (inl e)
  | inr l3 => Some (inr (ver, l3))
  end.

(** A non-first fragment takes the saved ports; the last one resets them. *)
Definition parse_fragment (buf : list Z) : M frag_table l4_info :=
  id ← liftO (rd16 buf 4);
  t ← getS;
  let ports := frag_ports t id in
  frag_off ← liftO (rd16 buf 6);
  whenM ((frag_off .& htons 0x2000) =? 0) (putS (<[id := (0, 0)]> t)) ;;
  mret (L4 (fst ports) (snd ports) 0).

(** [zdtun_parse_pkt(tun, buf, pkt_len, pkt)]: [inl e] is a negative return. *)
Definition zdtun_parse_pkt (buf : list Z) (len : Z) : M frag_table (Z + zdtun_pkt) :=
  r ← liftO (parse_l3 buf len);
  match r with
  | inl e => mret (inl e)
  | inr (ver, l3) =>
    let flags := l3_flags l3 in
    let fragment := has_flag flags ZDTUN_PKT_IS_FRAGMENT in
    let first := has_flag flags ZDTUN_PKT_IS_FIRST_FRAGMENT in
    r4 ← (if fragment && negb first
          then (l4 ← parse_fragment buf; mret (inr l4))
          else liftO (parse_l4 buf l3));
    match r4 with
    | inl e => mret (inl e)
    | inr l4 =>
      (if first then
         id ← liftO (rd16 buf 4);
         modifyS (fun t => <[id := (l4_sport l4, l4_dport l4)]> t)
       else mret tt) ;;
      mret (inr {|
        pkt_tuple := Tuple (l3_src l3) (l3_dst l3) (l4_sport l4) (l4_dport l4) ver (l3_proto l3);
        pkt_flags := flags;
        pkt_len := l3_len l3;
        pkt_ip_hdr_len := l3_hdr_len l3;
        pkt_l4_hdr_len := l4_len l4;
        pkt_l7_len := u16 (l3_len l3 - l3_hdr_len l3 - l4_len l4);
        pkt_mem := buf;
        pkt_l7 := l3_hdr_len l3 + l4_len l4 |})
    end
  end.

(** ** Well-formed parsed packets *)

Record pkt_wf (p : zdtun_pkt) (len : Z) : Prop := {
    wf_len : 0 <= pkt_len p <= len;
    wf_layers : pkt_ip_hdr_len p + pkt_l4_hdr_len p + pkt_l7_len p = pkt_len p;
    wf_ip_hdr : 0 <= pkt_ip_hdr_len p;
    wf_l4_hdr : 0 <= pkt_l4_hdr_len p;
    wf_l7 : pkt_l7 p = pkt_ip_hdr_len p + pkt_l4_hdr_len p;
    wf_l7_len : 0 <= pkt_l7_len p;
    wf_ver : ipver (pkt_tuple p) = 4 \/ ipver (pkt_tuple p) = 6;
    wf_src : ip_ok (src_ip (pkt_tuple p));
    wf_dst : ip_ok (dst_ip (pkt_tuple p));
    wf_ports : u_ok 16 (src_port (pkt_tuple p)) /\ u_ok 16 (dst_port (pkt_tuple p));
    wf_tcp : ipproto (pkt_tuple p) = IPPROTO_TCP -> pkt_is_fragment p = false ->
      pkt_ip_hdr_len p + TCP_HEADER_LEN <= pkt_len p;
    wf_icmp : ipproto (pkt_tuple p) = IPPROTO_ICMP -> pkt_is_fragment p = false ->
      pkt_l4_hdr_len p = ICMP_HEADER_LEN;
    wf_proto : u_ok 8 (ipproto (pkt_tuple p));
  }.

Definition frag_table_ok (t : frag_table) : Prop :=
  map_Forall (fun _ ports => u_ok 16 (fst ports) /\ u_ok 16 (snd ports)) t.

Lemma frag_table_ok_ports t id :
  frag_table_ok t -> u_ok 16 (fst (frag_ports t id)) /\ u_ok 16 (snd (frag_ports t id)).
Proof.
  intros Ht. unfold frag_ports. destruct (t !! id) as [p|] eqn:E; simpl; [|done].
  by apply (Ht id p).
Qed.

(** Resolve the bounds-checked load the goal's run is blocked on. *)
Ltac rd_step :=
  match goal with
  | |- context [mbind _ ?rd = Some _] => rd_at rd
  | |- context [mbind _ (liftO ?rd) _ = Some _] => rd_at rd
  end
with rd_at rd :=
  match rd with
  | rd8 ?buf ?off =>
      let b := fresh "b" in let Hb := fresh "Hb" in let E := fresh "E" in
      destruct (rd8_is_Some buf off) as (b & E & Hb); [lia|done|rewrite E]
  | rd16 ?buf ?off =>
      let v := fresh "v" in let Hv := fresh "Hv" in let E := fresh "E" in
      destruct (rd16_is_Some buf off) as (v & E & Hv); [lia|lia|done|rewrite E]
  | rd32 ?buf ?off =>
      let v := fresh "v" in let Hv := fresh "Hv" in let E := fresh "E" in
      destruct (rd32_is_Some buf off) as (v & E & Hv); [lia|lia|done|rewrite E]
  | rdn ?n ?buf ?off =>
      let l := fresh "l" in let Hl := fresh "Hl" in let E := fresh "E" in
      destruct (rdn_is_Some n buf off) as (l & E & ? & Hl); [lia|lia|done|rewrite E]
  end; mstep; cbn [mbind option_bind].

Section safety.
Context (buf : list Z) (len : Z).
Hypothesis Hbuf : bytes_ok buf.
Hypothesis Hlen : 0 <= len <= Z.of_nat (length buf).

(** The outcome of the network layer. *)
Definition l3_wf (ver : Z) (l3 : l3_info) : Prop :=
  20 <= len /\ 0 <= l3_hdr_len l3 <= l3_len l3 /\ l3_len l3 <= len /\
  ip_ok (l3_src l3) /\ ip_ok (l3_dst l3) /\ (ver = 4 \/ ver = 6) /\ u_ok 8 (l3_proto l3).

Lemma parse_ipv4_safe :
  20 <= len ->
  exists r, parse_ipv4 buf len = Some r /\
    match r with inl e => e < 0 | inr l3 => l3_wf 4 l3 end.
Proof.
  intros H20. unfold parse_ipv4. rd_step.
  assert (0 <= b .& 15 < 16) as Hihl
    by (change 15 with (Z.ones 4); rewrite Z.land_ones by lia; apply Z.mod_pos_bound; lia).
  case_match; [by eexists|]. rd_step.
  pose proof (bswap16_ok v) as Htot. unfold u_ok in Htot.
  case_match; [by eexists|]. rd_step. rd_step. rd_step. rd_step.
  eexists. split; [done|]. unfold l3_wf. cbn. split_and!; auto with cint; lia.
Qed.

Lemma parse_ipv6_safe :
  exists r, parse_ipv6 buf len = Some r /\
    match r with inl e => e < 0 | inr l3 => l3_wf 6 l3 end.
Proof.
  unfold parse_ipv6, IPV6_HEADER_LEN. case_match; [by eexists|]. rd_step.
  case_match; [by eexists|]. rd_step. rd_step. rd_step.
  pose proof (bswap16_ok v) as Hp. unfold u_ok in Hp.
  eexists. split; [done|]. unfold l3_wf. cbn.
  split_and!; try (by split); auto with cint; try lia. by case_match.
Qed.

Lemma parse_l3_safe :
  exists r, parse_l3 buf len = Some r /\
    match r with inl e => e < 0 | inr (ver, l3) => l3_wf ver l3 end.
Proof.
  unfold parse_l3, IPV4_HEADER_LEN. case_match eqn:E20; [by eexists|].
  rd_step. case_match; [by eexists|].
  destruct (Z.eqb_spec (b >>> 4) 4) as [->|].
  - destruct parse_ipv4_safe as ([e|l3] & -> & Hr); [lia|by eexists|].
    by eexists.
  - destruct parse_ipv6_safe as ([e|l3] & -> & Hr); [by eexists|].
    eexists. split; [done|]. cbn. destruct Hr as (?&?&?&?&?&?&?).
    assert (b >>> 4 = 6) as -> by lia. unfold l3_wf. split_and!; auto; lia.
Qed.

(** The outcome of the transport layer. *)
Definition l4_wf (l3 : l3_info) (l4 : l4_info) : Prop :=
  u_ok 16 (l4_sport l4) /\ u_ok 16 (l4_dport l4) /\ 0 <= l4_len l4 /\
  l3_hdr_len l3 + l4_len l4 <= l3_len l3.

Lemma parse_l4_safe ver l3 :
  l3_wf ver l3 ->
  exists r, parse_l4 buf l3 = Some r /\
    match r with
    | inl e => e < 0
    | inr l4 => l4_wf l3 l4 /\
        (l3_proto l3 = IPPROTO_TCP -> l3_hdr_len l3 + TCP_HEADER_LEN <= l3_len l3) /\
        (l3_proto l3 = IPPROTO_ICMP -> l4_len l4 = ICMP_HEADER_LEN)
    end.
Proof.
  intros (? & ? & ? & _). unfold parse_l4, TCP_HEADER_LEN, UDP_HEADER_LEN, ICMP_HEADER_LEN.
  case_match eqn:Etcp.
  { case_match; [by eexists|]. rd_step.
    assert (0 <= b >>> 4) by (apply Z.shiftr_nonneg; apply Hb).
    case_match; [by eexists|]. rd_step. rd_step.
    eexists. split; [done|]. split; [|cbn; unfold IPPROTO_TCP, IPPROTO_UDP, IPPROTO_ICMP in *; lia]. unfold l4_wf. cbn. split_and!; auto; lia. }
  case_match eqn:Eudp.
  { case_match; [by eexists|]. rd_step. rd_step.
    eexists. split; [done|]. split; [|cbn; unfold IPPROTO_TCP, IPPROTO_UDP, IPPROTO_ICMP in *; lia]. unfold l4_wf. cbn. split_and!; auto; lia. }
  case_match eqn:Eicmp; [|by eexists].
  case_match; [by eexists|]. rd_step. case_match; [by eexists|]. rd_step.
  case_match; (eexists; split; [done|]; split; [|cbn; unfold IPPROTO_TCP, IPPROTO_UDP, IPPROTO_ICMP in *; lia]; unfold l4_wf; cbn;
    split_and!; auto; (lia || done)).
Qed.

Lemma parse_fragment_safe t ver l3 :
  l3_wf ver l3 -> frag_table_ok t ->
  exists l4 t', parse_fragment buf t = Some (l4, t') /\ frag_table_ok t' /\
    l4_wf l3 l4.
Proof.
  intros (? & ? & ? & _) Ht. unfold parse_fragment.
  rd_step. rd_step.
  pose proof (frag_table_ok_ports t v Ht) as [Hs Hd].
  assert (l4_wf l3 (L4 (frag_ports t v).1 (frag_ports t v).2 0)).
  { unfold l4_wf. cbn. split_and!; auto; lia. }
  destruct (_ =? 0); (eexists _, _; split; [done|]; split; [|done]); [|done].
  by apply map_Forall_insert_2.
Qed.

Lemma zdtun_parse_pkt_run t :
  u_ok 16 len -> frag_table_ok t ->
  exists r t', zdtun_parse_pkt buf len t = Some (r, t') /\ frag_table_ok t' /\
    match r with inl e => e < 0 | inr p => pkt_wf p len /\ pkt_mem p = buf end.
Proof.
  intros H16 Ht. unfold zdtun_parse_pkt.
  destruct parse_l3_safe as ([e|[ver l3]] & -> & Hr); mstep; [by eexists _, _|].
  set (fragment := has_flag (l3_flags l3) ZDTUN_PKT_IS_FRAGMENT).
  set (first := has_flag (l3_flags l3) ZDTUN_PKT_IS_FIRST_FRAGMENT).
  assert (exists r t', (if fragment && negb first
        then (l4 ← parse_fragment buf; mret (inr l4))
        else liftO (parse_l4 buf l3)) t = Some (r, t') /\ frag_table_ok t' /\
      match r with
      | inl e => e < 0
      | inr l4 => l4_wf l3 l4 /\ (fragment && negb first = false ->
          (l3_proto l3 = IPPROTO_TCP -> l3_hdr_len l3 + TCP_HEADER_LEN <= l3_len l3) /\
          (l3_proto l3 = IPPROTO_ICMP -> l4_len l4 = ICMP_HEADER_LEN))
      end) as (r4 & t' & E4 & Ht' & H4).
  { destruct (fragment && negb first).
    - destruct (parse_fragment_safe t ver l3) as (l4 & t' & E & ? & ?); [done..|].
      eexists (inr l4), t'. by rewrite (bind_run _ _ _ _ _ E).
    - destruct (parse_l4_safe ver l3 Hr) as (r & -> & Hr4). exists r, t.
      split; [done|]. split; [done|]. destruct r; [done|]. naive_solver. }
  rewrite (bind_run _ _ _ _ _ E4).
  destruct r4 as [e|l4]; [by eexists _, _|].
  destruct H4 as [(Hs & Hd & Hl & Hle) Htcp]. destruct Hr as (H20 & Hh & Hl3 & Hsrc & Hdst & Hv & Hpr).
  assert (Hw : forall t'', frag_table_ok t'' -> exists r t0,
    Some (@inr Z _ {| pkt_tuple := Tuple (l3_src l3) (l3_dst l3) (l4_sport l4) (l4_dport l4) ver (l3_proto l3);
      pkt_flags := l3_flags l3; pkt_len := l3_len l3; pkt_ip_hdr_len := l3_hdr_len l3;
      pkt_l4_hdr_len := l4_len l4; pkt_l7_len := u16 (l3_len l3 - l3_hdr_len l3 - l4_len l4);
      pkt_mem := buf; pkt_l7 := l3_hdr_len l3 + l4_len l4 |}, t'') = Some (r, t0) /\
    frag_table_ok t0 /\ match r with inl e => e < 0 | inr p => pkt_wf p len /\ pkt_mem p = buf end).
  { intros t'' Ht''. eexists _, _. split; [done|]. split; [done|].
    rewrite uwrap_id by (unfold u_ok in *; lia).
    assert (forall fl, negb (l3_flags l3 .& ZDTUN_PKT_IS_FRAGMENT =? 0) = false ->
      fragment && fl = false) as Hnf by (intros fl Hf; unfold fragment, has_flag; by rewrite Hf).
    split; [|done]. split; cbn; auto with lia; intros Hp Hf; by apply (Htcp (Hnf _ Hf)). }
  destruct first.
  - rewrite bind_assoc. rd_step. apply Hw. by apply map_Forall_insert_2.
  - by apply Hw.
Qed.
End safety.

(** C27: The parser never reads outside the packet it is given, keeps the table of
    fragment ports well-formed and returns either an error code or a packet
    whose three layers are consecutive and fill exactly [pkt_len] bytes of
    the input. *)
Theorem zdtun_parse_pkt_safe buf len t :
  bytes_ok buf -> len <= Z.of_nat (length buf) -> u_ok 16 len -> frag_table_ok t ->
  exists r t', zdtun_parse_pkt buf len t = Some (r, t') /\ frag_table_ok t' /\
    match r with inl e => e < 0 | inr p => pkt_wf p len /\ pkt_mem p = buf end.
Proof.
  intros Hb Hl H16 Ht. apply zdtun_parse_pkt_run; try done. unfold u_ok in H16. lia.
Qed.

(** A UDP packet of 30 bytes, its length field says 40: the two bytes of data
    that are really there. *)
Definition pkt_ex : list Z :=
  [0x45; 0; 0; 40; 0; 1; 0; 0; 64; 17; 0; 0; 10; 0; 0; 1; 8; 8; 8; 8;
   0x9c; 0x40; 0; 53; 0; 20; 0; 0; 1; 2].

Lemma zdtun_parse_pkt_safe_witness :
  (exists r t', zdtun_parse_pkt pkt_ex 30 ∅ = Some (r, t') /\ frag_table_ok t' /\
    match r with inl e => e < 0 | inr p => pkt_wf p 30 /\ pkt_mem p = pkt_ex end) /\
  (pkt_l7_len <$> (match zdtun_parse_pkt pkt_ex 30 ∅ with Some (inr p, _) => Some p | _ => None end))
  = Some 2.
Proof.
  split; [|reflexivity].
  apply (zdtun_parse_pkt_safe pkt_ex 30 ∅);
    [apply (bool_decide_eq_true_1 _); reflexivity|by vm_compute|by vm_compute|apply map_Forall_empty].
Defined.

End ZdtunPkt.
