(* ===== verification/ParseMore.v ===== *)
(** * Bytes behind a packet do not matter

    What is read inside a buffer is read the same when more memory follows it, and
    so a packet is parsed the same: in the buffer of the daemon it ends where it
    ends, in that of the capture older bytes follow. *)

From S2P Require Import Prelude ZdtunTypes ZdtunPkt.

Module ParseMore.
Import ZdtunPkt.

(** ** Results that are kept *)

Definition le_opt {A} (o o' : option A) : Prop := forall a, o = Some a -> o' = Some a.

Lemma le_refl {A} (o : option A) : le_opt o o.
Proof. by intros a. Qed.
Lemma le_None {A} (o : option A) : le_opt None o.
Proof. by intros a. Qed.
Lemma le_bind {A B} (o o' : option A) (f g : A -> option B) :
  le_opt o o' -> (forall a, le_opt (f a) (g a)) -> le_opt (o ≫= f) (o' ≫= g).
Proof. intros Ho Hf b. destruct o as [a|]; [|done]. rewrite (Ho a eq_refl). cbn. apply Hf. Qed.
Lemma le_fmap {A B} (f : A -> B) o o' : le_opt o o' -> le_opt (f <$> o) (f <$> o').
Proof. intros Ho b. destruct o as [a|]; [|done]. by rewrite (Ho a eq_refl). Qed.

(** Runs that give the same result up to [h], in the same state. *)
Lemma sim_bind {S A B C} (h : B -> C) (m m' : M S A) (k : A -> M S B) (k' : A -> M S C) s :
  le_opt (m s) (m' s) ->
  (forall a s1 b s2, k a s1 = Some (b, s2) -> k' a s1 = Some (h b, s2)) ->
  forall b s2, (m ≫= k) s = Some (b, s2) -> (m' ≫= k') s = Some (h b, s2).
Proof.
  intros Hm Hk b s2. unfold mbind, M_bind. destruct (m s) as [[a s1]|] eqn:E; [|done].
  rewrite (Hm _ eq_refl). apply Hk.
Qed.
Lemma sim_ret {S B C} (h : B -> C) (b0 : B) (c0 : C) (s : S) :
  c0 = h b0 -> forall b s2, (mret b0 : M S B) s = Some (b, s2) -> (mret c0 : M S C) s = Some (h b, s2).
Proof. intros -> b s2. by intros [= <- <-]. Qed.
Lemma le_lift {S A} (o o' : option A) (s : S) : le_opt o o' -> le_opt (liftO o s) (liftO o' s).
Proof. intros Ho [a s']. unfold liftO. destruct o as [a0|]; [|done]. by rewrite (Ho a0 eq_refl). Qed.

Section extend.
Context (buf rest : list Z).

Lemma rd8_more off : le_opt (rd8 buf off) (rd8 (buf ++ rest) off).
Proof. intros v. unfold rd8. destruct (0 <=? off); [|done]. apply lookup_app_l_Some. Qed.
Lemma rdn_more n off : le_opt (rdn n buf off) (rdn n (buf ++ rest) off).
Proof.
  intros v. unfold rdn. rewrite length_app, Nat2Z.inj_add.
  destruct (Z.leb_spec 0 off); [|done]. destruct (Z.leb_spec (off + Z.of_nat n) (Z.of_nat (length buf))); [|done].
  destruct (Z.leb_spec (off + Z.of_nat n) (Z.of_nat (length buf) + Z.of_nat (length rest))); [|lia].
  cbn [andb]. intros [= <-]. f_equal. rewrite drop_app_le by lia. by rewrite take_app_le by (rewrite length_drop; lia).
Qed.
Lemma rd16_more off : le_opt (rd16 buf off) (rd16 (buf ++ rest) off).
Proof. apply le_fmap, rdn_more. Qed.
Lemma rd32_more off : le_opt (rd32 buf off) (rd32 (buf ++ rest) off).
Proof. apply le_fmap, rdn_more. Qed.

(** ** The parser *)

Ltac more := repeat first
  [ apply rd8_more | apply rd16_more | apply rd32_more | apply rdn_more | apply le_refl | apply le_None
  | apply le_bind; [|intros ?] | progress cbv zeta
  | match goal with |- le_opt (if ?b then _ else _) _ => destruct b end
  | match goal with |- le_opt (match ?x with _ => _ end) _ => destruct x end ].

Lemma parse_ipv4_more len : le_opt (parse_ipv4 buf len) (parse_ipv4 (buf ++ rest) len).
Proof. unfold parse_ipv4. more. Qed.
Lemma parse_ipv6_more len : le_opt (parse_ipv6 buf len) (parse_ipv6 (buf ++ rest) len).
Proof. unfold parse_ipv6. more. Qed.
Lemma parse_l3_more len : le_opt (parse_l3 buf len) (parse_l3 (buf ++ rest) len).
Proof. unfold parse_l3. more; first [apply parse_ipv4_more|apply parse_ipv6_more]. Qed.
Lemma parse_l4_more l3 : le_opt (parse_l4 buf l3) (parse_l4 (buf ++ rest) l3).
Proof. unfold parse_l4. more. Qed.

(** The packet in the longer memory. *)
Definition in_mem (p : zdtun_pkt) : zdtun_pkt :=
  Pkt (pkt_tuple p) (pkt_flags p) (pkt_len p) (pkt_ip_hdr_len p) (pkt_l4_hdr_len p) (pkt_l7_len p) (buf ++ rest) (pkt_l7 p).
Definition more_result (r : Z + zdtun_pkt) : Z + zdtun_pkt :=
  match r with inl e => inl e | inr p => inr (in_mem p) end.

Lemma parse_fragment_more t : le_opt (parse_fragment buf t) (parse_fragment (buf ++ rest) t).
Proof.
  intros a. unfold parse_fragment, mbind, M_bind, liftO, getS, whenM, putS, mret, M_ret.
  destruct (rd16 buf 4) as [id|] eqn:E1; [|done]. rewrite (rd16_more 4 id E1).
  destruct (rd16 buf 6) as [fo|] eqn:E2; [|done]. by rewrite (rd16_more 6 fo E2).
Qed.

Lemma parse_more len t r t' :
  zdtun_parse_pkt buf len t = Some (r, t') ->
  zdtun_parse_pkt (buf ++ rest) len t = Some (more_result r, t').
Proof.
  revert r t'. unfold zdtun_parse_pkt. apply sim_bind; [by apply le_lift, parse_l3_more|].
  intros [e|[ver l3]] t1; [apply sim_ret; done|]. cbv zeta. apply sim_bind.
  { destruct (_ && _); [|by apply le_lift, parse_l4_more]. intros [r4 t2].
    unfold mbind, M_bind. destruct (parse_fragment buf t1) as [[l4 t3]|] eqn:E4; [|done].
    by rewrite (parse_fragment_more t1 _ E4). }
  intros [e|l4] t2; [apply sim_ret; done|]. apply sim_bind; [|intros [] t3; by apply sim_ret].
  destruct (has_flag _ _); [|apply le_refl]. intros [[] t3]. unfold mbind, M_bind, liftO.
  destruct (rd16 buf 4) as [id|] eqn:E1; [|done]. by rewrite (rd16_more 4 id E1).
Qed.
End extend.

(** ** The first byte gives the length of the header *)

Ltac rd_next e := destruct e; cbn [mbind option_bind]; [|done].
Lemma parse_ipv4_hdr buf len l3 b :
  rd8 buf 0 = Some b -> parse_ipv4 buf len = Some (inr l3) -> l3_hdr_len l3 = (b .& 0xf) * 4 /\ l3_len l3 <= len.
Proof.
  intros Eb. unfold parse_ipv4. rewrite Eb. cbn [mbind option_bind]. destruct (_ <? _); [done|].
  rd_next (rd16 buf 2). destruct (_ <? _); [done|]. rd_next (rd32 buf 12). rd_next (rd32 buf 16).
  rd_next (rd8 buf 9). rd_next (rd16 buf 6). intros [= <-]. split; [done|]. cbn [l3_len]. lia.
Qed.
Lemma parse_ipv6_hdr buf len l3 : parse_ipv6 buf len = Some (inr l3) -> l3_hdr_len l3 = IPV6_HEADER_LEN /\ l3_len l3 <= len.
Proof.
  unfold parse_ipv6. destruct (_ <? _); [done|]. rd_next (rd8 buf 6). destruct (negb _); [done|].
  rd_next (rd16 buf 4). rd_next (rdn 16 buf 8). rd_next (rdn 16 buf 24). intros [= <-]. split; [done|]. cbn [l3_len]. lia.
Qed.

Lemma parsed_hdr buf len t pkt t' :
  zdtun_parse_pkt buf len t = Some (inr pkt, t') ->
  exists b, rd8 buf 0 = Some b /\ pkt_ip_hdr_len pkt = (if (b >>> 4) =? 4 then (b .& 0xf) * 4 else IPV6_HEADER_LEN) /\
    pkt_len pkt <= len.
Proof.
  intros E. cut (wlp (zdtun_parse_pkt buf len) (fun r _ => r = inr pkt -> exists b, rd8 buf 0 = Some b /\
    pkt_ip_hdr_len pkt = (if (b >>> 4) =? 4 then (b .& 0xf) * 4 else IPV6_HEADER_LEN) /\ pkt_len pkt <= len) t).
  { intros Hw. by apply (Hw _ _ E). }
  clear E. unfold zdtun_parse_pkt. apply wlp_bind, wlp_lift. intros [e|[ver l3]] E3; wl; [done|].
  assert (Hl3 : exists b, rd8 buf 0 = Some b /\
    l3_hdr_len l3 = (if (b >>> 4) =? 4 then (b .& 0xf) * 4 else IPV6_HEADER_LEN) /\ l3_len l3 <= len).
  { revert E3. unfold parse_l3. destruct (len <? _); [done|]. destruct (rd8 buf 0) as [b|] eqn:Eb; [|done].
    cbn [mbind option_bind]. destruct (negb _ && _); [done|]. intros E. exists b. split; [done|]. revert E.
    destruct ((b >>> 4) =? 4).
    - destruct (parse_ipv4 buf len) as [[e|l]|] eqn:E4; cbn [mbind option_bind]; [done| |done].
      intros [= _ <-]. by apply (parse_ipv4_hdr buf len).
    - destruct (parse_ipv6 buf len) as [[e|l]|] eqn:E6; cbn [mbind option_bind]; [done| |done].
      intros [= _ <-]. by apply (parse_ipv6_hdr buf len). }
  eapply wlp_mono; [apply (wlp_any _ (fun _ _ => True)); done|]. intros [e|l4] s _; wl; [done|].
  apply (wlp_mono _ (fun _ _ => True)); [by apply wlp_any|]. intros [] s' _. wl. by intros [= <-].
Qed.

(** A packet that is not a fragment has a transport header, of at least 8 bytes. *)
Lemma parse_l4_long buf l3 l4 : parse_l4 buf l3 = Some (inr l4) -> l3_hdr_len l3 + 8 <= l3_len l3.
Proof.
  unfold parse_l4, TCP_HEADER_LEN, UDP_HEADER_LEN, ICMP_HEADER_LEN.
  repeat match goal with |- context [if ?b then _ else _] => let E := fresh "E" in destruct b eqn:E; try done end;
    intros _; lia.
Qed.
Lemma parsed_long buf len t pkt t' :
  zdtun_parse_pkt buf len t = Some (inr pkt, t') -> pkt_is_fragment pkt = false -> pkt_ip_hdr_len pkt + 8 <= pkt_len pkt.
Proof.
  intros E. cut (wlp (zdtun_parse_pkt buf len) (fun r _ => r = inr pkt -> pkt_is_fragment pkt = false ->
    pkt_ip_hdr_len pkt + 8 <= pkt_len pkt) t).
  { intros Hw. by apply (Hw _ _ E). }
  clear E. unfold zdtun_parse_pkt. apply wlp_bind, wlp_lift. intros [e|[ver l3]] E3; wl; [done|].
  apply (wlp_mono _ (fun r4 _ => has_flag (l3_flags l3) ZDTUN_PKT_IS_FRAGMENT = false -> forall l4, r4 = inr l4 ->
    l3_hdr_len l3 + 8 <= l3_len l3)).
  { destruct (has_flag _ ZDTUN_PKT_IS_FRAGMENT); [by apply wlp_any|]. cbn [andb]. apply wlp_lift.
    intros r Er _ l4 ->. by apply (parse_l4_long buf l3 l4). }
  intros [e|l4] s Hl; wl; [done|].
  apply (wlp_mono _ (fun _ _ => True)); [by apply wlp_any|]. intros [] s' _. wl. intros [= <-] Hf. by eapply Hl.
Qed.
End ParseMore.
