(* ===== verification/IpLru.v ===== *)
(** * The host name cache (core/ip_lru.c)

    [ip_lru] maps addresses to the host names seen in DNS replies.  The list
    [cache] is the application list of the uthash table.  Booleans stand for
    the success of each allocation. *)

From S2P Require Import Prelude CString UtHash Lru ZdtunTypes.

Module IpLru.

Record ip_lru := IpLruT { max_size : Z; cache : list (zdtun_ip * cstr) }.

Definition ip_lru_init (mem : bool) (max : Z) : option ip_lru :=
  if mem then Some (IpLruT max []) else None.

Definition ip_lru_destroy (lru : ip_lru) : list (zdtun_ip * cstr) :=
  HASH_CLEAR (cache lru).

(** Looking an entry up brings it to the end of the application list. *)
Definition ip_lru_find_entry (lru : ip_lru) (ip : zdtun_ip) : option cstr * ip_lru :=
  match HASH_FIND ip (cache lru) with
  | Some host =>
      (Some host,
       IpLruT (max_size lru) (HASH_ADD ip host (HASH_DELETE ip (cache lru))))
  | None => (None, lru)
  end.

Definition ip_lru_add (lru : ip_lru) (ip : zdtun_ip) (hostname : cstr)
    (strdup_ok malloc_ok : bool) : ip_lru :=
  if negb strdup_ok then lru else
  match ip_lru_find_entry lru ip with
  | (Some _, lru) => IpLruT (max_size lru) (HASH_SET ip hostname (cache lru))
  | (None, lru) =>
      if negb malloc_ok then lru else
      let cache' := HASH_ADD ip hostname (cache lru) in
      if max_size lru <? HASH_COUNT cache'
      then IpLruT (max_size lru) (HASH_DELETE_FIRST cache')
      else IpLruT (max_size lru) cache'
  end.

Definition ip_lru_find (lru : ip_lru) (ip : zdtun_ip) (strdup_ok : bool) :
    option cstr * ip_lru :=
  match ip_lru_find_entry lru ip with
  | (Some host, lru) => (if strdup_ok then Some host else None, lru)
  | (None, lru) => (None, lru)
  end.

Definition ip_lru_size (lru : ip_lru) : Z := HASH_COUNT (cache lru).

(** ** Operations as the generic list steps *)

Lemma find_entry_touch lru ip :
  ip_lru_find_entry lru ip =
  (HASH_FIND ip (cache lru), IpLruT (max_size lru) (lru_touch ip (cache lru))).
Proof.
  unfold ip_lru_find_entry, lru_touch. destruct lru as [m c]. simpl.
  by destruct (HASH_FIND ip c).
Qed.

Lemma ip_lru_add_cache lru ip host :
  cache (ip_lru_add lru ip host true true) =
  match HASH_FIND ip (cache lru) with
  | Some _ => HASH_ADD ip host (HASH_DELETE ip (cache lru))
  | None => lru_insert (max_size lru) ip host (cache lru)
  end.
Proof.
  unfold ip_lru_add. rewrite find_entry_touch. simpl. unfold lru_touch, lru_insert.
  destruct (HASH_FIND ip (cache lru)); simpl; [by rewrite HASH_SET_ADD|].
  by case_match.
Qed.

(** ** Histories of calls *)

Inductive op :=
  | OpAdd (ip : zdtun_ip) (host : cstr) (strdup_ok malloc_ok : bool)
  | OpFind (ip : zdtun_ip) (strdup_ok : bool).

Definition step (lru : ip_lru) (o : op) : ip_lru * option (option cstr) :=
  match o with
  | OpAdd ip host s m => (ip_lru_add lru ip host s m, None)
  | OpFind ip s => let (r, lru') := ip_lru_find lru ip s in (lru', Some r)
  end.

Fixpoint run (lru : ip_lru) (ops : list op) : ip_lru * list (option (option cstr)) :=
  match ops with
  | [] => (lru, [])
  | o :: ops' =>
      let (lru1, r) := step lru o in
      let (lru2, rs) := run lru1 ops' in (lru2, r :: rs)
  end.

(** The reference: a cache with time stamps that evicts the oldest use. *)
Definition ref_step (max : Z) (r : lru_ref zdtun_ip cstr) (o : op) :
    lru_ref zdtun_ip cstr * option (option cstr) :=
  match o with
  | OpAdd ip host s m =>
      (if negb s then r
       else match ref_find ip r with
            | Some _ => ref_use ip host r
            | None => if m then ref_insert max ip host r else r
            end, None)
  | OpFind ip s => (ref_touch ip r, Some (if s then ref_find ip r else None))
  end.

Fixpoint ref_run (max : Z) (r : lru_ref zdtun_ip cstr) (ops : list op) :
    lru_ref zdtun_ip cstr * list (option (option cstr)) :=
  match ops with
  | [] => (r, [])
  | o :: ops' =>
      let (r1, x) := ref_step max r o in
      let (r2, xs) := ref_run max r1 ops' in (r2, x :: xs)
  end.

Lemma step_sim lru r o :
  lru_sim (cache lru) r ->
  max_size (fst (step lru o)) = max_size lru /\
  lru_sim (cache (fst (step lru o))) (fst (ref_step (max_size lru) r o)) /\
  snd (step lru o) = snd (ref_step (max_size lru) r o).
Proof.
  intros Hs. pose proof (sim_find _ _ Hs) as Hf.
  destruct o as [ip host [] m|ip s]; simpl; [| |].
  - rewrite <-Hf. destruct m.
    + split; [|split; [|done]].
      { unfold ip_lru_add. rewrite find_entry_touch. simpl.
        destruct (HASH_FIND ip (cache lru)); [done|]. simpl. by case_match. }
      rewrite ip_lru_add_cache. destruct (HASH_FIND ip (cache lru)) eqn:E;
        [by apply sim_use|by apply sim_insert].
    + unfold ip_lru_add. rewrite find_entry_touch. simpl.
      destruct (HASH_FIND ip (cache lru)) as [w|] eqn:E; simpl.
      * unfold lru_touch. rewrite E, HASH_SET_ADD.
        split; [done|]. split; [by apply sim_use|done].
      * unfold lru_touch. by rewrite E.
  - done.
  - unfold ip_lru_find. rewrite find_entry_touch, Hf.
    pose proof (sim_touch _ _ ip Hs). destruct (ref_find ip r); [by split_and!|].
    split_and!; [done..|]. by destruct s.
Qed.

(** C37: The cache is an LRU cache: on every history of calls, allocation failures
    included, the lookups return what the reference with time stamps returns. *)
Theorem ip_lru_refines max ops :
  snd (run (IpLruT max []) ops) = snd (ref_run max ref_init ops).
Proof.
  enough (forall lru r, lru_sim (cache lru) r -> max_size lru = max ->
    snd (run lru ops) = snd (ref_run max r ops)) as H
    by (apply H; [apply lru_sim_init|done]).
  induction ops as [|o ops IH]; intros lru r Hs Hm; [done|].
  destruct (step_sim lru r o Hs) as (Hm' & Hs' & Ho). rewrite Hm in *. simpl.
  destruct (step lru o) as [lru1 x], (ref_step max r o) as [r1 x']. simpl in *.
  specialize (IH lru1 r1 Hs' Hm').
  destruct (run lru1 ops), (ref_run max r1 ops). simpl in *. by subst.
Qed.

Definition lru_ok (lru : ip_lru) : Prop :=
  hash_wf (cache lru) /\ ip_lru_size lru <= max_size lru.

Lemma ip_lru_add_ok lru ip host s m :
  0 <= max_size lru -> lru_ok lru ->
  lru_ok (ip_lru_add lru ip host s m) /\
  max_size (ip_lru_add lru ip host s m) = max_size lru.
Proof.
  intros Hm [Hwf Hc]. unfold ip_lru_add. destruct s; simpl; [|done].
  rewrite find_entry_touch. unfold lru_touch.
  destruct (HASH_FIND ip (cache lru)) as [w|] eqn:E.
  - split; [|done]. unfold lru_ok, ip_lru_size. simpl. rewrite HASH_SET_ADD. split.
    + apply hash_wf_ADD; [by apply hash_wf_DELETE|by apply HASH_FIND_DELETE_eq].
    + unfold ip_lru_size, HASH_COUNT, HASH_ADD in *. rewrite length_app. simpl.
      apply length_HASH_DELETE in E. lia.
  - destruct m; simpl; [|done].
    pose proof (lru_insert_wf (max_size lru) _ _ host Hwf E) as Hwf'.
    pose proof (lru_insert_bound (max_size lru) (cache lru) ip host Hm Hc) as Hc'.
    unfold lru_insert in *. by case_match.
Qed.

Lemma ip_lru_find_ok lru ip s :
  lru_ok lru -> lru_ok (snd (ip_lru_find lru ip s)) /\
  max_size (snd (ip_lru_find lru ip s)) = max_size lru.
Proof.
  intros [Hwf Hc]. unfold ip_lru_find. rewrite find_entry_touch.
  assert (lru_ok (IpLruT (max_size lru) (lru_touch ip (cache lru)))).
  { split; [by apply lru_touch_wf|]. unfold ip_lru_size. simpl. by rewrite lru_touch_count. }
  by destruct (HASH_FIND ip (cache lru)).
Qed.

(** What a client may rely on: a host just recorded for an address is found,
    whatever lookups happen in between. *)
Lemma ip_lru_add_find lru ip host s :
  0 < max_size lru -> lru_ok lru ->
  fst (ip_lru_find (ip_lru_add lru ip host true true) ip s) =
  if s then Some host else None.
Proof.
  intros Hm [Hwf Hc]. unfold ip_lru_find. rewrite find_entry_touch.
  assert (HASH_FIND ip (cache (ip_lru_add lru ip host true true)) = Some host) as ->;
    [|done].
  rewrite ip_lru_add_cache. destruct (HASH_FIND ip (cache lru)).
  - apply HASH_FIND_ADD_eq.
  - by apply lru_insert_find.
Qed.

(** The number of entries never exceeds the capacity and keys stay unique. *)
Theorem ip_lru_bounded max ops :
  0 <= max -> lru_ok (fst (run (IpLruT max []) ops)).
Proof.
  intros Hm.
  enough (forall lru, lru_ok lru -> max_size lru = max -> lru_ok (fst (run lru ops))) as H
    by (apply H; [|done]; split; [constructor|done]).
  induction ops as [|o ops IH]; intros lru Hok Heq; [done|]. simpl.
  assert (lru_ok (fst (step lru o)) /\ max_size (fst (step lru o)) = max) as [Hok' Heq'].
  { destruct o as [ip host s m|ip s]; simpl.
    - destruct (ip_lru_add_ok lru ip host s m); [lia|done|]. by rewrite <-Heq.
    - pose proof (ip_lru_find_ok lru ip s Hok). destruct (ip_lru_find lru ip s).
      simpl in *. by rewrite <-Heq. }
  destruct (step lru o) as [lru1 x]. simpl in *. specialize (IH lru1 Hok' Heq').
  by destruct (run lru1 ops).
Qed.

Definition ip_a := ip_of_ip4 0x0100007f.
Definition ip_b := ip_of_ip4 0x08080808.
Definition ip_c := ip_of_ip4 0x01010101.

Lemma ip_lru_bounded_witness :
  lru_ok (fst (run (IpLruT 2 []) [OpAdd ip_a (str "a") true true; OpAdd ip_b (str "b") true true;
    OpAdd ip_c (str "c") true true])).
Proof. apply (ip_lru_bounded 2). lia. Defined.

(** The eviction order on a concrete history: the lookup of [a] saves it. *)
Example ip_lru_example :
  snd (run (IpLruT 2 []) [OpAdd ip_a (str "a") true true; OpAdd ip_b (str "b") true true;
    OpFind ip_a true; OpAdd ip_c (str "c") true true; OpFind ip_b true; OpFind ip_a true])
  = [None; None; Some (Some (str "a")); None; Some None; Some (Some (str "a"))].
Proof. vm_compute. reflexivity. Qed.

End IpLru.
