(* ===== verification/UidLru.v ===== *)
(** * The UID cache of the capture daemon (common/uid_lru.c)

    [uid_lru] remembers which application owns a 5-tuple.  Unlike the host name
    cache, [uid_lru_add] does not look for an existing entry: the uniqueness of
    keys is a promise its caller has to keep.  The caller's protocol (look up,
    resolve on -2, add) is the operation [resolve_uid] below, taken from
    [read_pkt] of pcapd/pcapd.c. *)

From S2P Require Import Prelude UtHash Lru ZdtunTypes.

Module UidLru.

Record uid_lru := UidLruT { max_size : Z; cache : list (zdtun_5tuple * Z) }.

Definition uid_lru_init (mem : bool) (max : Z) : option uid_lru :=
  if mem then Some (UidLruT max []) else None.

Definition uid_lru_destroy (lru : uid_lru) : list (zdtun_5tuple * Z) :=
  HASH_CLEAR (cache lru).

Definition uid_lru_find_entry (lru : uid_lru) (t : zdtun_5tuple) : option Z * uid_lru :=
  match HASH_FIND t (cache lru) with
  | Some uid =>
      (Some uid,
       UidLruT (max_size lru) (HASH_ADD t uid (HASH_DELETE t (cache lru))))
  | None => (None, lru)
  end.

Definition uid_lru_add (lru : uid_lru) (t : zdtun_5tuple) (uid : Z) (malloc_ok : bool) :
    uid_lru :=
  if negb malloc_ok then lru else
  let cache' := HASH_ADD t uid (cache lru) in
  if max_size lru <? HASH_COUNT cache'
  then UidLruT (max_size lru) (HASH_DELETE_FIRST cache')
  else UidLruT (max_size lru) cache'.

Definition uid_lru_find (lru : uid_lru) (t : zdtun_5tuple) : Z * uid_lru :=
  match uid_lru_find_entry lru t with
  | (Some uid, lru) => (uid, lru)
  | (None, lru) => (-2, lru)
  end.

Definition uid_lru_size (lru : uid_lru) : Z := HASH_COUNT (cache lru).

(** One use by [read_pkt]: [resolved] is what the resolvers would answer. *)
Definition resolve_uid (lru : uid_lru) (t : zdtun_5tuple) (resolved : Z)
    (malloc_ok : bool) : Z * uid_lru :=
  let (uid, lru) := uid_lru_find lru t in
  if uid =? -2 then (resolved, uid_lru_add lru t resolved malloc_ok)
  else (uid, lru).

Lemma find_touch lru t :
  uid_lru_find lru t =
  (default (-2) (HASH_FIND t (cache lru)),
   UidLruT (max_size lru) (lru_touch t (cache lru))).
Proof.
  unfold uid_lru_find, uid_lru_find_entry, lru_touch. destruct lru as [m c]. simpl.
  by destruct (HASH_FIND t c).
Qed.

Lemma add_insert lru t uid :
  uid_lru_add lru t uid true = UidLruT (max_size lru) (lru_insert (max_size lru) t uid (cache lru)).
Proof. unfold uid_lru_add, lru_insert. simpl. by case_match. Qed.

(** ** The reference for a history of packets *)

Definition use := (zdtun_5tuple * Z * bool)%type.

Fixpoint run (lru : uid_lru) (uses : list use) : uid_lru * list Z :=
  match uses with
  | [] => (lru, [])
  | (t, r, m) :: uses' =>
      let (uid, lru1) := resolve_uid lru t r m in
      let (lru2, uids) := run lru1 uses' in (lru2, uid :: uids)
  end.

Definition ref_step (max : Z) (r : lru_ref zdtun_5tuple Z) (u : use) :
    Z * lru_ref zdtun_5tuple Z :=
  let '(t, resolved, m) := u in
  match ref_find t r with
  | Some uid => (uid, ref_touch t r)
  | None => (resolved, if m : bool then ref_insert max t resolved r else r)
  end.

Fixpoint ref_run (max : Z) (r : lru_ref zdtun_5tuple Z) (uses : list use) :
    lru_ref zdtun_5tuple Z * list Z :=
  match uses with
  | [] => (r, [])
  | u :: uses' =>
      let (uid, r1) := ref_step max r u in
      let (r2, uids) := ref_run max r1 uses' in (r2, uid :: uids)
  end.

(** -2 is reserved: no stored uid equals it. *)
Definition no_sentinel (h : list (zdtun_5tuple * Z)) : Prop := Forall (fun e => e.2 <> -2) h.

Lemma no_sentinel_find h t uid : no_sentinel h -> HASH_FIND t h = Some uid -> uid <> -2.
Proof.
  unfold no_sentinel. induction 1 as [|[k v] h Hv Hh IH]; simpl; [done|].
  destruct (HASH_FIND t h); [by intros [= ->]; apply IH|].
  case_decide; [|done]. by intros [= <-].
Qed.

Lemma no_sentinel_add h t uid :
  no_sentinel h -> uid <> -2 -> no_sentinel (HASH_ADD t uid h).
Proof. intros. apply Forall_app. split; [done|]. by constructor. Qed.

Lemma no_sentinel_delete h t : no_sentinel h -> no_sentinel (HASH_DELETE t h).
Proof.
  unfold no_sentinel. induction 1 as [|[k v] h Hv Hh IH]; simpl; [done|].
  destruct (HASH_FIND t h); [by constructor|]. case_decide; [done|by constructor].
Qed.

Lemma no_sentinel_touch h t : no_sentinel h -> no_sentinel (lru_touch t h).
Proof.
  intros Hn. unfold lru_touch. destruct (HASH_FIND t h) as [v|] eqn:E; [|done].
  apply no_sentinel_add; [by apply no_sentinel_delete|by eapply no_sentinel_find].
Qed.

Lemma no_sentinel_insert max h t uid :
  no_sentinel h -> uid <> -2 -> no_sentinel (lru_insert max t uid h).
Proof.
  intros Hn Hu. unfold lru_insert. pose proof (no_sentinel_add h t uid Hn Hu) as H.
  case_match; [|done]. destruct (HASH_ADD t uid h); [done|]. by inversion H.
Qed.

Lemma resolve_sim lru r t resolved m :
  lru_sim (cache lru) r -> no_sentinel (cache lru) -> resolved <> -2 ->
  let (uid, lru') := resolve_uid lru t resolved m in
  let (uid', r') := ref_step (max_size lru) r (t, resolved, m) in
  uid = uid' /\ max_size lru' = max_size lru /\ lru_sim (cache lru') r' /\
  no_sentinel (cache lru').
Proof.
  intros Hs Hn Hr. unfold resolve_uid, ref_step. rewrite find_touch.
  rewrite <-(sim_find _ _ Hs). destruct (HASH_FIND t (cache lru)) as [uid|] eqn:E; simpl.
  - rewrite (proj2 (Z.eqb_neq uid (-2))) by (by eapply no_sentinel_find). simpl.
    split_and!; [done|done|by apply sim_touch|by apply no_sentinel_touch].
  - replace (lru_touch t (cache lru)) with (cache lru) by (unfold lru_touch; by rewrite E).
    destruct m; [|by split_and!]. rewrite add_insert. simpl.
    split_and!; [done|done|by apply sim_insert|by apply no_sentinel_insert].
Qed.

(** The daemon attributes every packet to the uid that a time-stamped cache of
    the same size would give: a tuple is resolved only when it is not among the
    [max] most recently used ones, whatever allocations fail.  The hypothesis is
    that no resolver answers -2, the value the cache uses for "absent". *)
Theorem uid_lru_refines max uses :
  Forall (fun u => u.1.2 <> -2) uses ->
  snd (run (UidLruT max []) uses) = snd (ref_run max ref_init uses).
Proof.
  enough (forall lru r, lru_sim (cache lru) r -> no_sentinel (cache lru) -> max_size lru = max ->
    Forall (fun u => u.1.2 <> -2) uses ->
    snd (run lru uses) = snd (ref_run max r uses)) as H.
  { intros. apply H; [apply lru_sim_init|constructor|done..]. }
  induction uses as [|[[t res] m] uses IH]; intros lru r Hs Hn Hm Hu; [done|].
  inversion Hu as [|? ? Hres Hu']; subst. cbn [run ref_run].
  pose proof (resolve_sim lru r t res m Hs Hn Hres) as Hstep.
  destruct (resolve_uid lru t res m) as [uid lru1].
  destruct (ref_step (max_size lru) r (t, res, m)) as [uid' r1].
  destruct Hstep as (<- & Hm & Hs' & Hn'). specialize (IH lru1 r1 Hs' Hn' Hm Hu').
  destruct (run lru1 uses), (ref_run (max_size lru) r1 uses). simpl in *. by subst.
Qed.

Definition tuple_n (n : Z) : zdtun_5tuple :=
  Tuple (ip_of_ip4 1) (ip_of_ip4 2) n 80 4 IPPROTO_TCP.

Lemma uid_lru_refines_witness :
  snd (run (UidLruT 2 []) [(tuple_n 1, 10, true); (tuple_n 2, 20, true); (tuple_n 1, 11, true);
    (tuple_n 3, 30, true); (tuple_n 2, 21, true); (tuple_n 1, 12, true)]) =
  [10; 20; 10; 30; 21; 12] /\
  snd (run (UidLruT 2 []) [(tuple_n 1, 10, true); (tuple_n 1, 11, true)]) =
  snd (ref_run 2 ref_init [(tuple_n 1, 10, true); (tuple_n 1, 11, true)]).
Proof.
  split; [vm_compute; reflexivity|]. apply (uid_lru_refines 2).
  repeat constructor; done.
Defined.

(** The entry count stays within the capacity for every history, also when
    callers add the same tuple again. *)
Lemma uid_lru_add_bounded lru t uid m :
  0 <= max_size lru -> uid_lru_size lru <= max_size lru ->
  uid_lru_size (uid_lru_add lru t uid m) <= max_size lru.
Proof.
  intros Hm Hs. destruct m; [|done]. rewrite add_insert. unfold uid_lru_size. simpl.
  by apply lru_insert_bound.
Qed.

(** Adding a tuple twice leaves two entries: the list no longer has unique keys. *)
Example uid_lru_add_duplicates :
  hash_keys (cache (uid_lru_add (uid_lru_add (UidLruT 4 []) (tuple_n 1) 5 true) (tuple_n 1) 6 true))
  = [tuple_n 1; tuple_n 1].
Proof. reflexivity. Qed.

End UidLru.
