(* ===== verification/UidProc.v ===== *)
(** * The owner of a connection, from /proc/net (common/uid_resolver.c)

    The resolver that works without the Java side reads the tables of the kernel
    line by line.  A file is its bytes; the lines the theorem is about have the
    format the kernel documents (Documentation/networking/proc_net_tcp.rst). *)

From S2P Require Import Prelude CString CFormat ZdtunTypes.

Module UidProc.
Export CFormat.

Definition UID_UNKNOWN : Z := -1.

(** The conversions of the two formats, with addresses of [w] characters. *)
Definition proc_fmt (w : nat) : list directive :=
  [DInt false; DChar 58; DSpace; DStr w; DChar 58; DHex true; DSpace; DStr w; DChar 58; DHex true; DSpace;
   DHex false; DSpace; DHex false; DChar 58; DHex false; DSpace; DHex false; DChar 58; DHex false; DSpace;
   DHex false; DSpace; DInt true].

Definition proc_name (ipver ipproto : Z) : option string :=
  let name (v4 v6 : string) := Some (if ipver =? 4 then v4 else v6) in
  if ipproto =? IPPROTO_TCP then name "/proc/net/tcp" "/proc/net/tcp6"
  else if ipproto =? IPPROTO_UDP then name "/proc/net/udp" "/proc/net/udp6"
  else if (ipproto =? IPPROTO_ICMP) || (ipproto =? IPPROTO_ICMPV6) then name "/proc/net/icmp" "/proc/net/icmp6"
  else None.

Section proc.
(** [fopen]: the content of a file, if it can be read. *)
Context (fopen : string -> option (list Z)).

(** Whether the entry a line holds is the connection, or listens for it. *)
Definition entry_matches (zero conn_shex conn_dhex : cstr) (src_port dst_port : Z)
    (shex : cstr) (sport : Z) (dhex : cstr) (dport : Z) : bool :=
  (sport =? src_port) && ((dport =? dst_port) || (dport =? 0)) &&
  (bool_decide (conn_dhex = dhex) || bool_decide (dhex = zero)) &&
  (bool_decide (conn_shex = shex) || bool_decide (shex = zero)).

(** The loop over the lines; the fuel is more than the lines of the file. *)
Fixpoint proc_loop (fuel : nat) (fmt : list directive) (zero conn_shex conn_dhex : cstr)
    (src_port dst_port lines : Z) (fd : list Z) : option Z :=
  match fuel with
  | O => None
  | S fuel =>
      match fgets 256 fd with
      | None => Some UID_UNKNOWN
      | Some (line, fd) =>
          let next := proc_loop fuel fmt zero conn_shex conn_dhex src_port dst_port (lines + 1) fd in
          if lines =? 0 then next else
          vals ← sscanf fmt (c_str line);
          match vals with
          | [VStr shex; VInt sport; VStr dhex; VInt dport; VInt uid] =>
              if entry_matches zero conn_shex conn_dhex src_port dst_port shex (i32 sport) dhex (i32 dport)
              then Some uid else next
          | _ => next
          end
      end
  end.

Definition get_uid_proc (ipver ipproto : Z) (conn_shex conn_dhex : cstr) (src_port dst_port : Z) : option Z :=
  match proc_name ipver ipproto with
  | None => Some UID_UNKNOWN
  | Some proc =>
      match fopen proc with
      | None => Some UID_UNKNOWN
      | Some fd =>
          let w := if ipver =? 4 then 8%nat else 32%nat in
          proc_loop (S (length fd)) (proc_fmt w) (replicate w 48) conn_shex conn_dhex src_port dst_port 0 fd
      end
  end.

(** [s6_addr32[i]] *)
Definition addr32 (ip : zdtun_ip) (i : nat) : Z := le_val (take 4 (drop (4 * i) (ip_bytes ip))).
Definition ip6_hex (ip : zdtun_ip) : cstr :=
  printf_X 8 (addr32 ip 0) ++ printf_X 8 (addr32 ip 1) ++ printf_X 8 (addr32 ip 2) ++ printf_X 8 (addr32 ip 3).
Definition mapped_hex (ip : zdtun_ip) : cstr := str "0000000000000000FFFF0000" ++ printf_X 8 (ip4 ip).

Definition get_uid_slow (conn_info : zdtun_5tuple) : option Z :=
  let sport := ntohs (src_port conn_info) in
  let dport := ntohs (dst_port conn_info) in
  if ipver conn_info =? 4 then
    rv ← get_uid_proc 4 (ipproto conn_info) (printf_X 8 (ip4 (src_ip conn_info)))
           (printf_X 8 (ip4 (dst_ip conn_info))) sport dport;
    if rv =? UID_UNKNOWN then
      get_uid_proc 6 (ipproto conn_info) (mapped_hex (src_ip conn_info)) (mapped_hex (dst_ip conn_info)) sport dport
    else Some rv
  else
    get_uid_proc 6 (ipproto conn_info) (ip6_hex (src_ip conn_info)) (ip6_hex (dst_ip conn_info)) sport dport.
End proc.

(** ** The tables of the kernel *)

(** An entry: its addresses as 32-bit words, one or four, its ports and its owner;
    the other fields are only read over. *)
Record proc_entry := Entry {
    e_sl : Z;
    e_src : list Z;
    e_sport : Z;
    e_dst : list Z;
    e_dport : Z;
    e_fields : Z * (Z * Z) * (Z * Z) * Z;   (* st, queues, timer, retransmissions *)
    e_uid : Z;
    e_rest : cstr;
    e_blanks : nat * nat;                   (* the widths of %4d and %5u *)
  }.
Definition hex_words (ws : list Z) : cstr := concat (printf_X 8 <$> ws).
Definition proc_line (e : proc_entry) : cstr :=
  let '(st, (tx, rx), (tr, tm), retr) := e_fields e in
  replicate (fst (e_blanks e)) 32 ++ printf_u (e_sl e) ++ 58 :: 32 ::
  hex_words (e_src e) ++ 58 :: printf_X 4 (e_sport e) ++ 32 ::
  hex_words (e_dst e) ++ 58 :: printf_X 4 (e_dport e) ++ 32 ::
  printf_X 2 st ++ 32 :: printf_X 8 tx ++ 58 :: printf_X 8 rx ++ 32 :: printf_X 2 tr ++ 58 :: printf_X 8 tm ++ 32 ::
  printf_X 8 retr ++ replicate (S (snd (e_blanks e))) 32 ++ printf_u (e_uid e) ++ 32 :: e_rest e.
Definition proc_file (header : cstr) (es : list proc_entry) : list Z :=
  header ++ LF :: concat ((fun e => proc_line e ++ [LF]) <$> es).

(** The fields have the widths of the kernel, and the line fits the buffer. *)
Record entry_ok (n : nat) (e : proc_entry) : Prop := {
    eo_sl : 0 <= e_sl e < 10 ^ 10;
    eo_src : length (e_src e) = n /\ Forall (u_ok 32) (e_src e);
    eo_dst : length (e_dst e) = n /\ Forall (u_ok 32) (e_dst e);
    eo_ports : u_ok 16 (e_sport e) /\ u_ok 16 (e_dport e);
    eo_fields : let '(st, (tx, rx), (tr, tm), retr) := e_fields e in
      u_ok 32 st /\ u_ok 32 tx /\ u_ok 32 rx /\ u_ok 32 tr /\ u_ok 32 tm /\ u_ok 32 retr;
    eo_uid : 0 <= e_uid e < 2 ^ 31;
    eo_rest : LF ∉ e_rest e /\ 0 ∉ e_rest e;
    eo_len : (length (proc_line e) + 1 < 256)%nat;
  }.

(** The first entry that is the connection, or listens on its port. *)
Definition is_any (ws : list Z) : bool := forallb (Z.eqb 0) ws.
Definition owns (src dst : list Z) (sport dport : Z) (e : proc_entry) : bool :=
  (e_sport e =? sport) && ((e_dport e =? dport) || (e_dport e =? 0)) &&
  (bool_decide (e_dst e = dst) || is_any (e_dst e)) && (bool_decide (e_src e = src) || is_any (e_src e)).
Definition owner (src dst : list Z) (sport dport : Z) (es : list proc_entry) : Z :=
  match filter (owns src dst sport dport) es with e :: _ => e_uid e | [] => UID_UNKNOWN end.

(** ** Reading a line *)

(** Characters other than the end of a string or of a line. *)
Definition plain (s : cstr) : Prop := Forall (fun c => c <> 0 /\ c <> LF) s.
Lemma plain_app a b : plain a -> plain b -> plain (a ++ b).
Proof. intros. by apply Forall_app. Qed.
Lemma plain_cons c s : c <> 0 -> c <> LF -> plain s -> plain (c :: s).
Proof. intros. by constructor. Qed.
Lemma plain_blanks n : plain (replicate n 32).
Proof. by apply Forall_replicate. Qed.
Lemma plain_u n : 0 <= n -> plain (printf_u n).
Proof.
  intros Hn. apply Forall_fmap. eapply Forall_impl; [apply to_base_digits; [lia|done]|].
  unfold dec_char, LF. intros d Hd. cbn. lia.
Qed.
Lemma plain_hex ds : Forall (fun d => 0 <= d < 16) ds -> plain (hex_char <$> ds).
Proof.
  intros Hd. apply Forall_fmap. eapply Forall_impl; [exact Hd|]. unfold hex_char, LF.
  intros d Hd1. cbn. destruct (Z.ltb_spec d 10); lia.
Qed.
Lemma plain_X w n : u_ok 32 n -> plain (printf_X w n).
Proof. intros Hn. rewrite printf_X_digits. by apply plain_hex, hex_digits_ok. Qed.
Lemma plain_words ws : Forall (u_ok 32) ws -> plain (hex_words ws).
Proof. induction 1 as [|w ws Hw Hws IH]; [constructor|]. apply plain_app; [by apply plain_X|done]. Qed.

Lemma c_str_plain s rest : plain s -> c_str (s ++ rest) = s ++ c_str rest.
Proof.
  induction 1 as [|c s [Hc _] Hs IH]; [done|]. cbn. rewrite IH. by destruct (Z.eqb_spec c 0).
Qed.

(** One directive at a time. *)
Lemma sscanf_skip (hex : bool) fmt s z r :
  scan_int hex s = Some (z, r) ->
  sscanf ((if hex then DHex false else DInt false) :: fmt) s = sscanf fmt r.
Proof. intros E. by destruct hex; cbn [sscanf negb]; rewrite E. Qed.
Lemma sscanf_int (hex : bool) fmt s z r :
  scan_int hex s = Some (z, r) -> scan_fits hex z = true ->
  sscanf ((if hex then DHex true else DInt true) :: fmt) s = cons (VInt z) <$> sscanf fmt r.
Proof. intros E F. by destruct hex; cbn [sscanf negb]; rewrite E, F. Qed.
Lemma sscanf_char c fmt s : sscanf (DChar c :: fmt) (c :: s) = sscanf fmt s.
Proof. cbn [sscanf]. by rewrite Z.eqb_refl. Qed.
Lemma sscanf_space n fmt s :
  no_head isspace s -> sscanf (DSpace :: fmt) (replicate n 32 ++ s) = sscanf fmt s.
Proof. intros Hs. cbn [sscanf]. by rewrite skip_spaces_replicate, skip_spaces_id. Qed.
Lemma sscanf_space1 fmt s : no_head isspace s -> sscanf (DSpace :: fmt) (32 :: s) = sscanf fmt s.
Proof. apply (sscanf_space 1). Qed.
Lemma sscanf_str fmt w s rest :
  length s = w -> w <> O -> Forall (fun c => isspace c = false) s ->
  sscanf (DStr w :: fmt) (s ++ rest) = cons (VStr s) <$> sscanf fmt rest.
Proof.
  intros Hl Hw Hs. cbn [sscanf]. rewrite skip_spaces_id; [|destruct Hs; [by subst|done]].
  rewrite scan_str_spec by done. by destruct s; subst.
Qed.

Lemma scan_X0 w n rest :
  u_ok 32 n -> no_digit hex_val rest -> no_head (fun c => (c =? 120) || (c =? 88)) rest ->
  scan_int true (printf_X w n ++ rest) = Some (n, rest).
Proof. apply (scan_X 0). Qed.
Lemma X_no_space w n rest : u_ok 32 n -> no_head isspace (printf_X w n ++ rest).
Proof. intros Hn. rewrite printf_X_digits. destruct (hex_digits_ok w n Hn) as [H1 H2]. by apply hex_head. Qed.
Lemma u_no_space n rest : 0 <= n -> no_head isspace (printf_u n ++ rest).
Proof. intros Hn. apply dec_head; [by apply to_base_nil|by apply to_base_digits]. Qed.

Lemma words_no_space ws : Forall (u_ok 32) ws -> Forall (fun c => isspace c = false) (hex_words ws).
Proof.
  induction 1 as [|w ws Hw Hws IH]; [constructor|]. apply Forall_app. split; [|done].
  rewrite printf_X_digits. by apply hex_no_space, hex_digits_ok.
Qed.
Lemma length_words ws : Forall (u_ok 32) ws -> length (hex_words ws) = (8 * length ws)%nat.
Proof.
  induction 1 as [|w ws Hw Hws IH]; [done|]. unfold hex_words in *. cbn [fmap list_fmap concat length].
  rewrite length_app, IH, printf_X_digits, length_fmap, length_hex8 by done. lia.
Qed.
Lemma words_head n ws rest : length ws = n -> n <> O -> Forall (u_ok 32) ws -> no_head isspace (hex_words ws ++ rest).
Proof.
  intros Hl Hn Hw. destruct Hw as [|w ws Hw Hws]; [by subst|]. unfold hex_words. cbn. rewrite <-app_assoc.
  by apply X_no_space.
Qed.

Lemma u16_32 z : u_ok 16 z -> u_ok 32 z.
Proof. unfold u_ok. lia. Qed.
Lemma fits_port z : u_ok 16 z -> scan_fits true z = true.
Proof. unfold scan_fits, u_ok. intros Hz. destruct (Z.leb_spec 0 z), (Z.ltb_spec z (2 ^ 32)); lia. Qed.

Lemma sscanf_line n e :
  n <> O -> entry_ok n e ->
  sscanf (proc_fmt (8 * n)) (proc_line e ++ [LF]) =
  Some [VStr (hex_words (e_src e)); VInt (e_sport e); VStr (hex_words (e_dst e)); VInt (e_dport e); VInt (e_uid e)].
Proof.
  intros Hn [Hsl [Hls Hs] [Hld Hd] [Hsp Hdp] Hf Hu _ _]. unfold proc_line, proc_fmt.
  destruct (e_fields e) as [[[st [tx rx]] [tr tm]] retr]. destruct Hf as (Hst & Htx & Hrx & Htr & Htm & Hre).
  repeat first [rewrite <-app_assoc | progress cbn [app]].
  erewrite (sscanf_skip false) by by apply scan_u. rewrite sscanf_char, sscanf_space1 by by eapply words_head.
  rewrite sscanf_str; [|by rewrite length_words, Hls|lia|by apply words_no_space]. rewrite sscanf_char.
  erewrite (sscanf_int true); [|apply scan_X0; [by apply u16_32|done|done]|by apply fits_port].
  rewrite sscanf_space1 by by eapply words_head.
  rewrite sscanf_str; [|by rewrite length_words, Hld|lia|by apply words_no_space]. rewrite sscanf_char.
  erewrite (sscanf_int true); [|apply scan_X0; [by apply u16_32|done|done]|by apply fits_port].
  do 3 (rewrite sscanf_space1 by (by apply X_no_space); erewrite (sscanf_skip true) by (by apply scan_X0);
    try (rewrite sscanf_char; erewrite (sscanf_skip true) by (by apply scan_X0))).
  rewrite sscanf_space1 by (by apply X_no_space). erewrite (sscanf_skip true) by (by apply scan_X0).
  rewrite sscanf_space by (apply u_no_space; lia).
  erewrite (sscanf_int false); [|apply (scan_u 0); [lia|done]|].
  2:{ unfold scan_fits. destruct (Z.leb_spec (- 2 ^ 31) (e_uid e)), (Z.ltb_spec (e_uid e) (2 ^ 31)); lia. }
  done.
Qed.

(** ** Finding the entry *)

Lemma plain_line n e : entry_ok n e -> plain (proc_line e).
Proof.
  intros [Hsl [Hls Hs] [Hld Hd] [Hsp Hdp] Hf Hu [Hr1 Hr2] _]. unfold proc_line.
  destruct (e_fields e) as [[[st [tx rx]] [tr tm]] retr]. destruct Hf as (Hst & Htx & Hrx & Htr & Htm & Hre).
  assert (Hr : plain (e_rest e)).
  { apply Forall_forall. intros c Hc. split; intros ->; done. }
  repeat first [exact Hr|apply plain_X; first [assumption|by apply u16_32]|apply plain_u; lia|apply plain_blanks
    |apply plain_words; assumption|apply plain_cons; [done|done|]|apply plain_app].
Qed.

Lemma hex_words_inj a b :
  length a = length b -> Forall (u_ok 32) a -> Forall (u_ok 32) b -> hex_words a = hex_words b -> a = b.
Proof.
  intros Hl Ha. revert b Hl. induction Ha as [|x a Hx Ha IH]; intros [|y b] Hl Hb E; try done.
  apply Forall_cons in Hb as [Hy Hb]. 
  change (printf_X 8 x ++ hex_words a = printf_X 8 y ++ hex_words b) in E.
  apply app_inj_1 in E as [E1 E2]; [|by rewrite !printf_X_digits, !length_fmap, !length_hex8].
  f_equal; [by apply (printf_X_inj 8)|]. apply IH; [by injection Hl|done|done].
Qed.
Lemma hex_words_eq a b :
  length a = length b -> Forall (u_ok 32) a -> Forall (u_ok 32) b ->
  bool_decide (hex_words a = hex_words b) = bool_decide (a = b).
Proof. intros Hl Ha Hb. apply bool_decide_ext. split; [by apply hex_words_inj|by intros ->]. Qed.
Lemma hex_zero n : replicate (8 * n) 48 = hex_words (replicate n 0).
Proof.
  induction n as [|n IH]; [done|]. replace (8 * S n)%nat with (8 + 8 * n)%nat by lia.
  rewrite replicate_add, IH. done.
Qed.
Lemma is_any_spec ws : is_any ws = bool_decide (ws = replicate (length ws) 0).
Proof.
  induction ws as [|w ws IH]; [done|]. unfold is_any in *. cbn [forallb length replicate].
  destruct (Z.eqb_spec 0 w) as [<-|Hw].
  - cbn. rewrite IH. apply bool_decide_ext. split; [by intros <-|by intros [=]].
  - cbn. symmetry. apply bool_decide_eq_false. intros [=]. congruence.
Qed.

Lemma matches_owns n e src dst sport dport :
  entry_ok n e -> length src = n -> length dst = n -> Forall (u_ok 32) src -> Forall (u_ok 32) dst ->
  entry_matches (replicate (8 * n) 48) (hex_words src) (hex_words dst) sport dport
    (hex_words (e_src e)) (i32 (e_sport e)) (hex_words (e_dst e)) (i32 (e_dport e)) =
  owns src dst sport dport e.
Proof.
  intros [Hsl [Hls Hs] [Hld Hd] [Hsp Hdp] _ _ _ _] Hl1 Hl2 H1 H2. unfold entry_matches, owns.
  rewrite !iwrap_id by (unfold u_ok in *; lia). rewrite hex_zero, !is_any_spec, Hls, Hld.
  assert (Hz : Forall (u_ok 32) (replicate n 0)) by (by apply Forall_replicate).
  rewrite !hex_words_eq by (rewrite ?length_replicate; done || congruence).
  f_equal; f_equal; f_equal; apply bool_decide_ext; by split; intros ->.
Qed.

Lemma proc_loop_spec n src dst sport dport es fuel k :
  n <> O -> Forall (entry_ok n) es -> length src = n -> length dst = n ->
  Forall (u_ok 32) src -> Forall (u_ok 32) dst -> (length es < fuel)%nat -> 0 < k ->
  proc_loop fuel (proc_fmt (8 * n)) (replicate (8 * n) 48) (hex_words src) (hex_words dst) sport dport k
    (concat ((fun e => proc_line e ++ [LF]) <$> es)) = Some (owner src dst sport dport es).
Proof.
  intros Hn Hes Hl1 Hl2 H1 H2. revert fuel k. induction Hes as [|e es He Hes IH]; intros fuel k Hf Hk.
  { destruct fuel; [lia|done]. }
  destruct fuel as [|fuel]; [cbn in Hf; lia|]. cbn [fmap list_fmap concat proc_loop]. rewrite <-app_assoc. cbn [app].
  pose proof (plain_line n e He) as Hp.
  rewrite fgets_line; [|intros Hin; unfold plain in Hp; rewrite Forall_forall in Hp; by apply (proj2 (Hp _ Hin))|apply He].
  destruct (Z.eqb_spec k 0); [lia|]. rewrite c_str_plain by done. change (c_str [LF]) with [LF].
  rewrite (sscanf_line n) by done. cbn [mbind option_bind].
  rewrite (matches_owns n) by done. unfold owner. rewrite filter_cons.
  destruct (owns src dst sport dport e) eqn:Eo.
  - rewrite decide_True by done. done.
  - rewrite decide_False by (by rewrite ?Is_true_false). apply IH; [cbn in Hf; lia|lia].
Qed.
(** ** The resolver *)

Section resolver.
Context (header : cstr) (table : string -> option (list proc_entry)).
Context (Hheader : LF ∉ header /\ (length header + 1 < 256)%nat).

(** The tables the kernel shows, and who owns a connection in one of them. *)
Definition kernel_files (name : string) : option (list Z) := proc_file header <$> table name.
Definition width (ipver : Z) : nat := if ipver =? 4 then 1%nat else 4%nat.
Definition tables_ok (ipproto : Z) : Prop :=
  forall ipver name es, proc_name ipver ipproto = Some name -> table name = Some es ->
    Forall (entry_ok (width ipver)) es.
Definition owner_in (ipver ipproto : Z) (src dst : list Z) (sport dport : Z) : Z :=
  match proc_name ipver ipproto ≫= table with
  | Some es => owner src dst sport dport es
  | None => UID_UNKNOWN
  end.

Lemma get_uid_proc_owner ipver ipproto src dst sport dport :
  tables_ok ipproto -> length src = width ipver -> length dst = width ipver ->
  Forall (u_ok 32) src -> Forall (u_ok 32) dst ->
  get_uid_proc kernel_files ipver ipproto (hex_words src) (hex_words dst) sport dport =
  Some (owner_in ipver ipproto src dst sport dport).
Proof.
  intros Ht Hl1 Hl2 H1 H2. unfold get_uid_proc, owner_in.
  destruct (proc_name ipver ipproto) as [name|] eqn:En; cbn [mbind option_bind]; [|done].
  unfold kernel_files. destruct (table name) as [es|] eqn:Et; cbn [fmap option_fmap option_map]; [|done].
  specialize (Ht ipver name es En Et). cbv zeta.
  replace (if ipver =? 4 then 8%nat else 32%nat) with (8 * width ipver)%nat by (unfold width; by case_match).
  assert (Hf : (length es < length (proc_file header es))%nat).
  { unfold proc_file. rewrite length_app. cbn [length]. clear. induction es as [|e es IH]; [cbn; lia|].
    cbn [fmap list_fmap concat length]. rewrite !length_app. cbn. lia. }
  revert Hf. generalize (length (proc_file header es)). intros fuel Hf.
  cbn [proc_loop]. unfold proc_file. rewrite fgets_line by apply Hheader.
  change (0 =? 0) with true. cbv iota. apply proc_loop_spec; try done. unfold width; by case_match.
Qed.

Definition words4 (ip : zdtun_ip) : list Z := [ip4 ip].
Definition words6 (ip : zdtun_ip) : list Z := addr32 ip <$> seq 0 4.
(** RFC 3493, section 3.7 *)
Definition words_mapped (ip : zdtun_ip) : list Z := [0; 0; 0xFFFF0000; ip4 ip].

Lemma le_val_32 l : bytes_ok l -> (length l <= 4)%nat -> u_ok 32 (le_val l).
Proof.
  intros Hb Hl. pose proof (le_val_bound l Hb) as H. unfold u_ok.
  assert (2 ^ (8 * Z.of_nat (length l)) <= 2 ^ 32) by (apply Z.pow_le_mono_r; lia). lia.
Qed.
Lemma words4_ok ip : ip_ok ip -> Forall (u_ok 32) (words4 ip).
Proof.
  intros [Hl Hb]. constructor; [|constructor]. unfold ip4. apply le_val_32; [by apply Forall_take|].
  rewrite length_take. lia.
Qed.
Lemma words6_ok ip : ip_ok ip -> Forall (u_ok 32) (words6 ip).
Proof.
  intros [Hl Hb]. unfold words6. apply Forall_fmap, Forall_forall. intros i _. cbn. unfold addr32.
  apply le_val_32; [by apply Forall_take, Forall_drop|]. rewrite length_take. lia.
Qed.
Lemma mapped_ok ip : ip_ok ip -> Forall (u_ok 32) (words_mapped ip).
Proof. intros Hip. pose proof (words4_ok ip Hip) as H. do 3 (constructor; [by vm_compute|]). exact H. Qed.
Lemma mapped_prefix : str "0000000000000000FFFF0000" = printf_X 8 0 ++ printf_X 8 0 ++ printf_X 8 0xFFFF0000.
Proof. by vm_compute. Qed.
Lemma mapped_words ip : mapped_hex ip = hex_words (words_mapped ip).
Proof.
  unfold mapped_hex, words_mapped, hex_words. rewrite mapped_prefix, <-!app_assoc.
  cbn [fmap list_fmap concat]. by rewrite app_nil_r.
Qed.
Lemma hex_words4 ip : printf_X 8 (ip4 ip) = hex_words (words4 ip).
Proof. unfold words4, hex_words. cbn [fmap list_fmap concat]. by rewrite app_nil_r. Qed.
Lemma hex_words6 ip : ip6_hex ip = hex_words (words6 ip).
Proof. unfold ip6_hex, words6, hex_words. cbn [fmap list_fmap concat seq]. by rewrite app_nil_r. Qed.

(** C21: the resolver finds, in the tables of the kernel, the owner of the first entry
    with the port of the connection whose remote end and local address are those of
    the connection or unset: for an IPv4 connection in the IPv4 table, then under its
    mapped address in the IPv6 table.  It always answers, and -1 when there is none. *)
Theorem uid_slow_owner c :
  ip_ok (src_ip c) -> ip_ok (dst_ip c) -> tables_ok (ipproto c) ->
  get_uid_slow kernel_files c = Some (
    let find v words := owner_in v (ipproto c) (words (src_ip c)) (words (dst_ip c))
      (ntohs (src_port c)) (ntohs (dst_port c)) in
    if ipver c =? 4
    then if find 4 words4 =? UID_UNKNOWN then find 6 words_mapped else find 4 words4
    else find 6 words6).
Proof.
  intros Hs Hd Ht. unfold get_uid_slow. destruct (ipver c =? 4).
  - rewrite !hex_words4, get_uid_proc_owner by (done || by apply words4_ok). cbn [mbind option_bind].
    destruct (_ =? _); [|done]. rewrite !mapped_words. by apply get_uid_proc_owner; [..|apply mapped_ok|apply mapped_ok].
  - rewrite !hex_words6. by apply get_uid_proc_owner; [..|apply words6_ok|apply words6_ok].
Qed.
End resolver.

(** ** A concrete table *)

Definition entry_ex (dst dport sport uid : Z) : proc_entry :=
  Entry 46 [0x0100000a] sport [dst] dport (1, (0, 0), (1, 25), 0) uid (str " 0 54165785 4 cd1e6040 25 4 27 3 -1") (2, 3)%nat.
Definition table_ex (name : string) : option (list proc_entry) :=
  if bool_decide (name = "/proc/net/tcp"%string)
  then Some [entry_ex 0x04040404 443 40000 10123; entry_ex 0 0 40001 10077] else None.
Definition header_ex : cstr := str "  sl  local_address rem_address   st tx_queue rx_queue tr tm->when retrnsmt   uid".
Definition conn_ex (sport : Z) : zdtun_5tuple :=
  Tuple (ip_of_ip4 0x0100000a) (ip_of_ip4 0x08080808) (htons sport) (htons 53) 4 IPPROTO_TCP.

Lemma table_ex_ok : tables_ok table_ex IPPROTO_TCP.
Proof.
  intros v name es En Et. unfold table_ex in Et. case_bool_decide as E; [|done]. injection Et as <-.
  assert (width v = 1%nat) as -> by (unfold width; revert En; unfold proc_name; cbn; by destruct (v =? 4); intros [= <-]).
  repeat constructor; cbn; try (by vm_compute); try lia; try (apply (bool_decide_unpack _); by vm_compute).
Defined.
(** The second entry listens for every remote end. *)
Lemma uid_slow_owner_witness :
  get_uid_slow (kernel_files header_ex table_ex) (conn_ex 40001) = Some 10077 /\
  get_uid_slow (kernel_files header_ex table_ex) (conn_ex 40000) = Some UID_UNKNOWN.
Proof.
  assert (Hh : LF ∉ header_ex /\ (length header_ex + 1 < 256)%nat)
    by (split; apply (bool_decide_unpack _); by vm_compute).
  assert (Hip : forall v, ip_ok (ip_of_ip4 v)).
  { intros v. split; [unfold ip_of_ip4; cbn [ip_bytes]; by rewrite length_app, length_le_bytes|].
    apply Forall_app. split; [apply le_bytes_ok|by apply Forall_replicate]. }
  split; (rewrite (uid_slow_owner header_ex table_ex Hh); [by vm_compute|apply Hip|apply Hip|apply table_ex_ok]).
Defined.
End UidProc.
