(* ===== verification/ZdtunConn.v ===== *)
(** * Connections of the zdtun library (submodules/zdtun/zdtun.c)

    The connection object [zdtun_conn], its proxy settings and the functions
    that only read or write one connection.  [socket_t] is an integer and
    [INVALID_SOCKET] is -1; a NULL pointer is [None]. *)

From S2P Require Import Prelude ZdtunTypes.

Definition INVALID_SOCKET : Z := -1.

Inductive proxy_mode_t := PROXY_NONE | PROXY_DNAT | PROXY_SOCKS5.
#[export] Instance proxy_mode_eq_dec : EqDecision proxy_mode_t.
Proof. solve_decision. Defined.

Inductive socks5_status_t :=
  SOCKS5_HELLO | SOCKS5_AUTH | SOCKS5_CONNECTING | SOCKS5_SKIP_BND | SOCKS5_ESTABLISHED.
#[export] Instance socks5_status_eq_dec : EqDecision socks5_status_t.
Proof. solve_decision. Defined.

Record proxy_t := Proxy { px_ip : zdtun_ip; px_port : Z; px_ipver : Z }.
#[export] Instance proxy_eq_dec : EqDecision proxy_t.
Proof. solve_decision. Defined.

(** A queued TCP segment; [td_len] is the length of [td_data]. *)
Record tcp_data := TcpData { td_len : Z; td_sofar : Z; td_flags : Z; td_data : list Z }.
#[export] Instance tcp_data_eta : Eta tcp_data := fun d =>
  TcpData (td_len d) (td_sofar d) (td_flags d) (td_data d).

Record zdtun_conn := ZConn {
    c_tuple : zdtun_5tuple;
    tstamp : Z;
    sock : Z;
    status : zdtun_conn_status;
    dnat : option proxy_t;
    proxy_mode : proxy_mode_t;
    socks5_status : socks5_status_t;
    socks5_skip : Z;
    tx_queue : list tcp_data;
    tx_queue_size : Z;
    client_seq : Z;
    zdtun_seq : Z;
    window_size : Z;
    mss : Z;
    window_scale : Z;
    fin_ack_sent : bool;
    client_closed : bool;
    pending_queries : Z;
    user_data : option Z;
  }.
#[export] Instance zdtun_conn_eta : Eta zdtun_conn := fun c =>
  ZConn (c_tuple c) (tstamp c) (sock c) (status c) (dnat c) (proxy_mode c)
    (socks5_status c) (socks5_skip c) (tx_queue c) (tx_queue_size c) (client_seq c)
    (zdtun_seq c) (window_size c) (mss c) (window_scale c) (fin_ack_sent c)
    (client_closed c) (pending_queries c) (user_data c).

(** What [safe_alloc] and the three assignments after it in [zdtun_lookup] make. *)
Definition zdtun_conn_new (t : zdtun_5tuple) (now : Z) : zdtun_conn :=
  ZConn t now INVALID_SOCKET CONN_STATUS_NEW None PROXY_NONE SOCKS5_HELLO 0
    [] 0 0 0 0 0 0 false false 0 None.

Definition zdtun_conn_proxy (c : zdtun_conn) : zdtun_conn :=
  if ipproto (c_tuple c) =? IPPROTO_TCP then c <| proxy_mode := PROXY_SOCKS5 |> else c.

Definition zdtun_conn_dnat (c : zdtun_conn) (ip : zdtun_ip) (port ver : Z) : zdtun_conn :=
  c <| dnat := Some (Proxy ip port ver) |> <| proxy_mode := PROXY_DNAT |>.

(** [sock_ipver]: the family of the socket, which is the one of the proxy if
    there is one.  [None] is the dereference of a NULL [dnat]. *)
Definition sock_ipver (socks5 : proxy_t) (c : zdtun_conn) : option Z :=
  match proxy_mode c with
  | PROXY_DNAT => px_ipver <$> dnat c
  | PROXY_SOCKS5 => Some (px_ipver socks5)
  | PROXY_NONE => Some (ipver (c_tuple c))
  end.

Definition zdtun_iphdr_len (ver : Z) : Z := if ver =? 4 then 20 else 40.

Definition socks5_in_progress (c : zdtun_conn) : bool :=
  bool_decide (proxy_mode c = PROXY_SOCKS5) &&
  negb (bool_decide (socks5_status c = SOCKS5_ESTABLISHED)).

(** [fill_conn_sockaddr]: family, address and port to connect to. *)
Definition fill_conn_sockaddr (socks5 : proxy_t) (c : zdtun_conn) : option (Z * list Z * Z) :=
  ver ← sock_ipver socks5 c;
  let proxy :=
    match proxy_mode c with
    | PROXY_DNAT => dnat c
    | PROXY_SOCKS5 => Some socks5
    | PROXY_NONE => None
    end in
  let ip := match proxy with Some p => px_ip p | None => dst_ip (c_tuple c) end in
  let port := match proxy with Some p => px_port p | None => dst_port (c_tuple c) end in
  Some (ver, if ver =? 4 then take 4 (ip_bytes ip) else ip_bytes ip, port).

(** [udp_mapping_key]: IP version and source port. *)
Definition udp_mapping_key (t : zdtun_5tuple) : Z := (ipver t <<< 16) .| src_port t.

(** The mode and the pointer agree: this is what keeps [sock_ipver] defined. *)
Definition conn_proxy_ok (c : zdtun_conn) : Prop :=
  proxy_mode c = PROXY_DNAT -> is_Some (dnat c).

Lemma zdtun_conn_dnat_ok c ip port ver : conn_proxy_ok (zdtun_conn_dnat c ip port ver).
Proof. by eexists. Qed.
Lemma zdtun_conn_proxy_ok c : conn_proxy_ok c -> conn_proxy_ok (zdtun_conn_proxy c).
Proof. intros H. unfold zdtun_conn_proxy. by case_match. Qed.
Lemma sock_ipver_is_Some s c : conn_proxy_ok c -> is_Some (sock_ipver s c).
Proof.
  unfold conn_proxy_ok, sock_ipver. destruct (proxy_mode c); intros H; [by eexists| |by eexists].
  destruct H as [p ->]; [done|by eexists].
Qed.

Lemma udp_mapping_key_inj a b :
  u_ok 16 (src_port a) -> u_ok 16 (src_port b) ->
  udp_mapping_key a = udp_mapping_key b -> ipver a = ipver b /\ src_port a = src_port b.
Proof.
  intros Ha Hb H. unfold udp_mapping_key in H.
  assert (Hlow : forall t, u_ok 16 (src_port t) ->
    src_port t = ((ipver t <<< 16) .| src_port t) mod 2 ^ 16 /\
    ipver t = ((ipver t <<< 16) .| src_port t) >>> 16).
  { intros t Ht. split; apply Z.bits_inj'; intros i Hi.
    - destruct (decide (i < 16)).
      + rewrite Z.mod_pow2_bits_low, Z.lor_spec, Z.shiftl_spec_low by lia. done.
      + rewrite Z.mod_pow2_bits_high by lia. apply (u_ok_testbit 16); (done || lia).
    - rewrite Z.shiftr_spec, Z.lor_spec, Z.shiftl_spec by lia.
      rewrite (u_ok_testbit 16 (src_port t)), orb_false_r by (done || lia). f_equal. lia. }
  destruct (Hlow a Ha) as [Hpa Hva], (Hlow b Hb) as [Hpb Hvb].
  split; [by rewrite Hva, Hvb, H|by rewrite Hpa, Hpb, H].
Qed.
