(* ===== verification/PortMap.v ===== *)
(** * Port mappings (core/port_map.c)

    Two lists of redirections, one per transport protocol.  [pd_check_port_map]
    applies the first one registered for the destination port of a connection.
    A list is its array [items] ([None] is NULL) and its length [num_items]. *)

From S2P Require Import Prelude ZdtunTypes ZdtunConn.

Module PortMap.

Record port_map_t := PMap {
    redirect_ip : zdtun_ip;
    pm_ipver : Z;
    orig_port : Z;
    redirect_port : Z;
  }.

Record port_map_list_t := PMList { items : option (list port_map_t); num_items : Z }.
Record mappings_t := Mappings { m_tcp : port_map_list_t; m_udp : port_map_list_t }.

Definition empty_list : port_map_list_t := PMList None 0.
Definition init_mappings : mappings_t := Mappings empty_list empty_list.

(** [get_map_list], as the selected list and the way to store it back. *)
Definition get_map_list (m : mappings_t) (proto : Z) :
    option (port_map_list_t * (port_map_list_t -> mappings_t)) :=
  if proto =? IPPROTO_TCP then Some (m_tcp m, fun l => Mappings l (m_udp m))
  else if proto =? IPPROTO_UDP then Some (m_udp m, fun l => Mappings (m_tcp m) l)
  else None.

(** [realloc_ok] is the outcome of [pd_realloc].  [None] is a store outside the
    array. *)
Definition pd_add_port_map (ver proto orig redirect : Z) (ip : zdtun_ip)
    (realloc_ok : bool) : M mappings_t bool :=
  m ← getS;
  match get_map_list m proto with
  | None => mret false
  | Some (mlist, store) =>
      let n := num_items mlist + 1 in
      if negb realloc_ok then putS (store (PMList None 0)) ;; mret false
      else
        let mem := default [] (items mlist) in
        (** the grown array keeps its cells; the cell written is the last one *)
        if bool_decide (n - 1 = Z.of_nat (length mem)) then
          putS (store (PMList (Some (mem ++ [PMap ip ver (htons (u16 orig)) (htons (u16 redirect))])) n)) ;;
          mret true
        else ub
  end.

(** The loop over [i < num_items]; reading past the array is undefined. *)
Fixpoint check_loop (fuel : nat) (l : port_map_list_t) (i : Z) (c : zdtun_conn) :
    option (bool * zdtun_conn) :=
  match fuel with
  | O => Some (false, c)
  | S fuel =>
      if i <? num_items l then
        m ← (mem ← items l; mem !! Z.to_nat i);
        if orig_port m =? dst_port (c_tuple c)
        then Some (true, zdtun_conn_dnat c (redirect_ip m) (redirect_port m) (pm_ipver m))
        else check_loop fuel l (i + 1) c
      else Some (false, c)
  end.

Definition pd_check_port_map (m : mappings_t) (c : zdtun_conn) : option (bool * zdtun_conn) :=
  match get_map_list m (ipproto (c_tuple c)) with
  | None => Some (false, c)
  | Some (l, _) => check_loop (Z.to_nat (num_items l) + 1) l 0 c
  end.

Definition clear_map_list (l : port_map_list_t) : port_map_list_t := PMList None 0.
Definition pd_reset_port_map (m : mappings_t) : mappings_t :=
  Mappings (clear_map_list (m_tcp m)) (clear_map_list (m_udp m)).

(** ** Specification: an association list per protocol, first match wins *)

Definition rules (l : port_map_list_t) : list port_map_t := default [] (items l).
Definition list_ok (l : port_map_list_t) : Prop := num_items l = Z.of_nat (length (rules l)).
Definition mappings_ok (m : mappings_t) : Prop := list_ok (m_tcp m) /\ list_ok (m_udp m).

Definition first_rule (port : Z) (rs : list port_map_t) : option port_map_t :=
  head (filter (fun r => orig_port r = port) rs).

Definition rules_of (m : mappings_t) (proto : Z) : list port_map_t :=
  if proto =? IPPROTO_TCP then rules (m_tcp m)
  else if proto =? IPPROTO_UDP then rules (m_udp m) else [].

Definition apply_rule (r : option port_map_t) (c : zdtun_conn) : bool * zdtun_conn :=
  match r with
  | Some r => (true, zdtun_conn_dnat c (redirect_ip r) (redirect_port r) (pm_ipver r))
  | None => (false, c)
  end.

Lemma check_loop_spec fuel l i c :
  list_ok l -> 0 <= i -> (length (rules l) < Z.to_nat i + fuel)%nat ->
  check_loop fuel l i c =
  Some (apply_rule (first_rule (dst_port (c_tuple c)) (drop (Z.to_nat i) (rules l))) c).
Proof.
  intros Hok. revert i; induction fuel as [|fuel IH]; intros i Hi Hf; [|cbn [check_loop]].
  - rewrite drop_ge by lia. done.
  - unfold list_ok in Hok. destruct (Z.ltb_spec i (num_items l)) as [Hlt|Hge].
    + destruct (lookup_lt_is_Some_2 (rules l) (Z.to_nat i)) as [m Hm]; [lia|].
      rewrite (drop_S _ m) by done. unfold first_rule. rewrite filter_cons.
      unfold rules in *. destruct (items l) as [mem|]; [|done]. simpl in *. rewrite Hm. simpl.
      destruct (Z.eqb_spec (orig_port m) (dst_port (c_tuple c))).
      * by rewrite decide_True.
      * rewrite decide_False by done. rewrite IH by lia.
        by replace (Z.to_nat (i + 1)) with (S (Z.to_nat i)) by lia.
    + by rewrite drop_ge by lia.
Qed.

Lemma pd_check_port_map_rules m c :
  mappings_ok m ->
  pd_check_port_map m c =
  Some (apply_rule (first_rule (dst_port (c_tuple c)) (rules_of m (ipproto (c_tuple c)))) c).
Proof.
  intros [Ht Hu]. unfold pd_check_port_map, get_map_list, rules_of.
  destruct (_ =? IPPROTO_TCP); [|destruct (_ =? IPPROTO_UDP); [|done]].
  - rewrite check_loop_spec by (done || unfold list_ok in Ht; lia). done.
  - rewrite check_loop_spec by (done || unfold list_ok in Hu; lia). done.
Qed.

(** ** Histories *)

Record add_call := AddCall {
  a_ver : Z; a_proto : Z; a_orig : Z; a_redirect : Z; a_ip : zdtun_ip; a_realloc : bool }.

Definition run_add (a : add_call) : M mappings_t bool :=
  pd_add_port_map (a_ver a) (a_proto a) (a_orig a) (a_redirect a) (a_ip a) (a_realloc a).

Fixpoint run_adds (l : list add_call) : M mappings_t (list bool) :=
  match l with
  | [] => mret []
  | a :: l' => r ← run_add a; rs ← run_adds l'; mret (r :: rs)
  end.

(** What the calls should leave behind: a failed allocation forgets all the
    rules of its protocol. *)
Fixpoint spec_rules (proto : Z) (l : list add_call) (acc : list port_map_t) : list port_map_t :=
  match l with
  | [] => acc
  | a :: l' =>
      spec_rules proto l'
        (if a_proto a =? proto then
           if a_realloc a
           then acc ++ [PMap (a_ip a) (a_ver a) (htons (u16 (a_orig a))) (htons (u16 (a_redirect a)))]
           else []
         else acc)
  end.

Definition spec_result (a : add_call) : bool :=
  ((a_proto a =? IPPROTO_TCP) || (a_proto a =? IPPROTO_UDP)) && a_realloc a.

Lemma run_add_spec a m :
  mappings_ok m ->
  exists m', run_add a m = Some (spec_result a, m') /\ mappings_ok m' /\
    forall proto, proto = IPPROTO_TCP \/ proto = IPPROTO_UDP ->
      rules_of m' proto = spec_rules proto [a] (rules_of m proto).
Proof.
  intros [Ht Hu]. unfold run_add, pd_add_port_map, spec_result. mstep. cbn [spec_rules].
  unfold get_map_list, rules_of, IPPROTO_TCP, IPPROTO_UDP.
  destruct (Z.eqb_spec (a_proto a) 6) as [Htcp|]; [|destruct (Z.eqb_spec (a_proto a) 17)].
  - destruct (a_realloc a); cbn [negb]; [rewrite bool_decide_true by (unfold list_ok, rules in Ht; lia)|].
    + eexists. mstep. split; [done|]. split.
      { split; [|done]. unfold list_ok, rules in *. simpl. rewrite length_app. simpl. lia. }
      intros proto [->| ->]; simpl; by rewrite Htcp.
    + eexists. mstep. split; [done|]. split; [by split|]. intros proto [->| ->]; simpl; by rewrite Htcp.
  - destruct (a_realloc a); cbn [negb]; [rewrite bool_decide_true by (unfold list_ok, rules in Hu; lia)|].
    + eexists. mstep. split; [done|]. split.
      { split; [done|]. unfold list_ok, rules in *. simpl. rewrite length_app. simpl. lia. }
      intros proto [->| ->]; simpl; by rewrite e.
    + eexists. mstep. split; [done|]. split; [by split|]. intros proto [->| ->]; simpl; by rewrite e.
  - exists m. split; [done|]. split; [by split|].
    intros proto [->| ->]; simpl; [by replace (a_proto a =? 6) with false by lia|].
    by replace (a_proto a =? 17) with false by lia.
Qed.

(** C38: After any sequence of registrations, failed ones included, a TCP or UDP
    connection is redirected by the first rule registered for its destination
    port since the last failed allocation of its protocol, and other
    connections are left alone; no access leaves the arrays. *)
Theorem port_map_first_match l c :
  exists rs m, run_adds l init_mappings = Some (rs, m) /\ rs = spec_result <$> l /\
    pd_check_port_map m c =
    Some (apply_rule (first_rule (dst_port (c_tuple c))
      (if (ipproto (c_tuple c) =? IPPROTO_TCP) || (ipproto (c_tuple c) =? IPPROTO_UDP)
       then spec_rules (ipproto (c_tuple c)) l [] else [])) c).
Proof.
  enough (forall m, mappings_ok m -> exists rs m', run_adds l m = Some (rs, m') /\
    rs = spec_result <$> l /\ mappings_ok m' /\
    forall proto, proto = IPPROTO_TCP \/ proto = IPPROTO_UDP ->
      rules_of m' proto = spec_rules proto l (rules_of m proto)) as H.
  { destruct (H init_mappings) as (rs & m & Hr & Hrs & Hm & Hp); [by split|].
    exists rs, m. split; [done|]. split; [done|]. rewrite pd_check_port_map_rules by done.
    destruct (Z.eqb_spec (ipproto (c_tuple c)) IPPROTO_TCP) as [E|E]; [rewrite E, Hp by auto; done|].
    destruct (Z.eqb_spec (ipproto (c_tuple c)) IPPROTO_UDP) as [E'|E']; [rewrite E', Hp by auto; done|].
    do 3 f_equal. unfold rules_of. rewrite !(proj2 (Z.eqb_neq _ _)) by done. done. }
  induction l as [|a l IH]; intros m Hm; [by exists [], m|].
  destruct (run_add_spec a m Hm) as (m1 & E1 & Hm1 & H1).
  destruct (IH m1 Hm1) as (rs & m2 & E2 & -> & Hm2 & H2).
  exists (spec_result a :: (spec_result <$> l)), m2. cbn [run_adds].
  rewrite (bind_run _ _ _ _ _ E1), (bind_run _ _ _ _ _ E2).
  split; [done|]. split; [done|]. split; [done|].
  intros proto Hproto. rewrite H2, H1 by done. done.
Qed.

(** Forgetting the mappings leaves every connection untouched. *)
Theorem pd_reset_port_map_spec m c :
  pd_check_port_map (pd_reset_port_map m) c = Some (false, c).
Proof.
  rewrite pd_check_port_map_rules by done. unfold rules_of, pd_reset_port_map.
  by repeat case_match.
Qed.

Definition dns_conn : zdtun_conn :=
  zdtun_conn_new (Tuple (ip_of_ip4 1) (ip_of_ip4 2) (htons 4000) (htons 53) 4 IPPROTO_UDP) 0.

Example port_map_example :
  (p ← run_adds [AddCall 4 IPPROTO_UDP 53 5053 (ip_of_ip4 3) true;
                 AddCall 4 IPPROTO_UDP 53 5054 (ip_of_ip4 4) true] init_mappings;
   pd_check_port_map (snd p) dns_conn) =
  Some (true, zdtun_conn_dnat dns_conn (ip_of_ip4 3) (htons 5053) 4).
Proof. vm_compute. reflexivity. Qed.

End PortMap.
