(* ===== verification/PcapDump.v ===== *)
(** * The PCAP and PCAPNG dumper (core/pcap_dump.c, core/pcap_dump.h)

    The buffered writer as the code has it: 512K of uninitialised memory, an
    index, the keylog buffer filled by another thread, the callback that takes
    what is exported.  Every store and every copy is bounds checked. *)

From stdpp Require Import gmap.
From S2P Require Import Prelude Crc32.
Import Crc32.

Module PcapDump.

Definition LINKTYPE_ETHERNET : Z := 1.
Definition LINKTYPE_RAW : Z := 101.
Definition MAX_PCAP_DUMP_DELAY_MS : Z := 1000.
Definition PCAP_BUFFER_SIZE : Z := 524288.             (* 512*1024 *)
Definition PCAP_BUFFER_ALMOST_FULL_SIZE : Z := 460800. (* 450*1024 *)
Definition KEYLOG_BUFFER_HEADROOM : Z := 16.  (* sizeof(pcapng_decr_secrets_block_t) *)
Definition KEYLOG_BUFFER_TAILROOM : Z := 8.
Definition PCAPDROID_TRAILER_MAGIC : Z := 0x01072021.
Definition ETH_P_IP : Z := 0x0800.
Definition ETH_P_IPV6 : Z := 0x86DD.

(** Sizes of the packed structures. *)
Definition PCAP_HDR_SIZE : Z := 24.
Definition PCAP_REC_SIZE : Z := 16.
Definition EPB_SIZE : Z := 28.
Definition ETHHDR_SIZE : Z := 14.
Definition TRAILER_SIZE : Z := 32.

Inductive pcap_dump_mode_t := PCAP_DUMP | PCAP_DUMP_WITH_TRAILER | PCAPNG_DUMP.
#[export] Instance pcap_dump_mode_eq_dec : EqDecision pcap_dump_mode_t.
Proof. solve_decision. Defined.

(** [struct pcap_dumper].  [now_ms] is [pd->now_ms]; [dumped] records the
    buffers handed to [dump_cb], the last one first. *)
Record pcap_dumper := Dumper {
    mode : pcap_dump_mode_t;
    dump_cb : bool;
    snaplen : Z;
    max_dump_size : Z;
    dump_size : Z;
    last_dump_ms : Z;
    buffer : list Z;
    buffer_idx : Z;
    keylog_buf : option (list Z);
    keylog_idx : Z;
    now_ms : Z;
    dumped : list (list Z);
  }.
#[export] Instance pcap_dumper_eta : Eta pcap_dumper := fun d =>
  Dumper (mode d) (dump_cb d) (snaplen d) (max_dump_size d) (dump_size d) (last_dump_ms d)
    (buffer d) (buffer_idx d) (keylog_buf d) (keylog_idx d) (now_ms d) (dumped d).

(** [(~x + 1) & 0x3]: the bytes missing to a multiple of four. *)
Definition pad4 (x : Z) : Z := (Z.lnot x + 1) .& 3.
Definition zeros (n : Z) : list Z := replicate (Z.to_nat n) 0.

Section dump.
(** [pd_malloc]: the memory, with the content it happens to have, or NULL. *)
Context (malloc : Z -> option (list Z)).
(** The name the Java side has for a UID; [None] when its entry cannot be allocated. *)
Context (appname : Z -> option (list Z)).

(** [mutex] is the outcome of [pthread_mutex_init]; [None] is a NULL result. *)
Definition pcap_new_dumper (m : pcap_dump_mode_t) (snap max : Z) (cb : bool) (now : Z)
    (alloc mutex : bool) : option pcap_dumper :=
  if negb alloc then None else
  match malloc PCAP_BUFFER_SIZE with
  | None => None
  | Some mem =>
      if negb mutex then None
      else Some (Dumper m cb snap max 0 0 mem 0 None 0 now [])
  end.

(** [dump_cb(pd, buf, n)]. *)
Definition run_dump_cb (buf : list Z) (n : Z) : M pcap_dumper unit :=
  d ← getS;
  whenM (dump_cb d)
    (data ← liftO (rdn (Z.to_nat n) buf 0);
     modifyS (fun d => d <| dumped ::= cons data |>)).

(** The size test of both the packets and the secrets. *)
Definition exceeds (d : pcap_dumper) (n : Z) : bool :=
  (0 <? max_dump_size d) && (max_dump_size d <=? u64 (dump_size d + n)).

Definition export_keylog_buffer : M pcap_dumper unit :=
  d ← getS;
  if keylog_idx d =? 0 then mret tt else
  let sec_len := keylog_idx d in
  let padding := pad4 sec_len in
  let block_size := KEYLOG_BUFFER_HEADROOM + sec_len + padding + 4 in
  if exceeds d block_size then modifyS (fun d => d <| keylog_idx := 0 |>) else
  kb ← liftO (keylog_buf d);
  kb ← liftO (wrn 0 (le_bytes 4 0x0000000A ++ le_bytes 4 block_size ++
                     le_bytes 4 0x544c534b ++ le_bytes 4 sec_len) kb);
  kb ← liftO (wrn (KEYLOG_BUFFER_HEADROOM + sec_len) (zeros padding) kb);
  kb ← liftO (wrn (KEYLOG_BUFFER_HEADROOM + sec_len + padding) (le_bytes 4 block_size) kb);
  modifyS (fun d => d <| keylog_buf := Some kb |>) ;;
  run_dump_cb kb block_size ;;
  modifyS (fun d => d <| dump_size ::= fun n => u64 (n + block_size) |> <| keylog_idx := 0 |>).

Definition export_buffer : M pcap_dumper unit :=
  export_keylog_buffer ;;
  d ← getS;
  if buffer_idx d =? 0 then mret tt else
  run_dump_cb (buffer d) (buffer_idx d) ;;
  modifyS (fun d => d <| buffer_idx := 0 |> <| last_dump_ms := now_ms d |>).

(** What the callback has received once the dumper is destroyed. *)
Definition pcap_destroy_dumper (d : pcap_dumper) : option (list (list Z)) :=
  r ← export_buffer d; Some (dumped (snd r)).

(** ** The preamble *)

Record pcapng_opt_t := PcapngOpt {
  opt_type : Z; opt_length : Z; opt_padding : Z; opt_tot_length : Z; opt_data : list Z }.

Definition pcapng_option (ty : Z) (data : list Z) : pcapng_opt_t :=
  let len := u16 (Z.of_nat (length data)) in
  let padding := pad4 len in
  PcapngOpt ty len padding (u16 (4 + len + padding)) data.

(** [write_pcapng_opt]: the memory after it. *)
Definition write_pcapng_opt (off : Z) (opt : pcapng_opt_t) (mem : list Z) : option (list Z) :=
  mem ← wrn off (le_bytes 2 (opt_type opt) ++ le_bytes 2 (opt_length opt)) mem;
  data ← rdn (Z.to_nat (opt_length opt)) (opt_data opt) 0;
  mem ← wrn (off + 4) data mem;
  wrn (off + 4 + opt_length opt) (zeros (opt_padding opt)) mem.

(** The outer [option] is undefined behaviour, the inner one the result -1. *)
Definition get_pcap_file_header (d : pcap_dumper) : option (option (list Z)) :=
  match malloc PCAP_HDR_SIZE with
  | None => Some None
  | Some mem =>
      Some <$> wrn 0 (le_bytes 4 0xa1b2c3d4 ++ le_bytes 2 2 ++ le_bytes 2 4 ++ le_bytes 4 0 ++
        le_bytes 4 0 ++ le_bytes 4 (snaplen d) ++
        le_bytes 4 (if decide (mode d = PCAP_DUMP_WITH_TRAILER) then LINKTYPE_ETHERNET
                    else LINKTYPE_RAW)) mem
  end.

Definition shb_bytes (shb_length : Z) : list Z :=
  le_bytes 4 0x0A0D0D0A ++ le_bytes 4 shb_length ++ le_bytes 4 0x1a2b3c4d ++ le_bytes 2 1 ++
  le_bytes 2 0 ++ le_bytes 8 (-1).
Definition idb_bytes (snap : Z) : list Z :=
  le_bytes 4 1 ++ le_bytes 4 20 ++ le_bytes 2 LINKTYPE_RAW ++ le_bytes 2 0 ++ le_bytes 4 snap.

Definition get_pcapng_preamble (device os appver : list Z) (d : pcap_dumper)
    : option (option (list Z)) :=
  let hw := pcapng_option 2 device in
  let os := pcapng_option 3 os in
  let app := pcapng_option 4 appver in
  let shb_length := 24 + opt_tot_length hw + opt_tot_length os + opt_tot_length app + 4 in
  let idb_length := 16 + 4 in
  match malloc (shb_length + idb_length) with
  | None => Some None
  | Some mem =>
      mem ← wrn 0 (shb_bytes shb_length) mem;
      mem ← write_pcapng_opt 24 hw mem;
      let p := 24 + opt_tot_length hw in
      mem ← write_pcapng_opt p os mem;
      let p := p + opt_tot_length os in
      mem ← write_pcapng_opt p app mem;
      let p := p + opt_tot_length app in
      mem ← wrn p (le_bytes 4 shb_length) mem;
      mem ← wrn (p + 4) (idb_bytes (snaplen d)) mem;
      Some <$> wrn (p + 20) (le_bytes 4 20) mem
  end.

Definition pcap_get_preamble (device os appver : list Z) (d : pcap_dumper) :=
  if decide (mode d = PCAPNG_DUMP) then get_pcapng_preamble device os appver d
  else get_pcap_file_header d.

(** ** Packets *)

Definition pcap_rec_size (d : pcap_dumper) (pkt_len : Z) : Z :=
  let pkt_len := cmin pkt_len (snaplen d) in
  match mode d with
  | PCAPNG_DUMP => EPB_SIZE + 4 + pkt_len + pad4 pkt_len
  | PCAP_DUMP => pkt_len + PCAP_REC_SIZE
  | PCAP_DUMP_WITH_TRAILER =>
      let pkt_len := pkt_len + (TRAILER_SIZE + ETHHDR_SIZE) in
      pkt_len + pad4 pkt_len + PCAP_REC_SIZE
  end.

Definition pcap_check_export : M pcap_dumper bool :=
  d ← getS;
  if ((0 <? buffer_idx d) && (MAX_PCAP_DUMP_DELAY_MS <=? u64 (now_ms d - last_dump_ms d)))
     || (PCAP_BUFFER_ALMOST_FULL_SIZE <? keylog_idx d)
  then export_buffer ;; mret true else mret false.

(** [trailer->appname], 20 bytes zeroed before: [strncpy] and the terminator. *)
Definition appname_field (uid : Z) : list Z :=
  match appname uid with
  | Some name => let s := take 19 name in s ++ replicate (20 - length s) 0
  | None => replicate 20 0
  end.

Definition trailer_bytes (uid : Z) : list Z :=
  le_bytes 4 (htonl PCAPDROID_TRAILER_MAGIC) ++ le_bytes 4 (htonl (u32 uid)) ++ appname_field uid.

Definition eth_bytes (pkt0 : Z) : list Z :=
  zeros 12 ++ le_bytes 2 (htons (if (pkt0 >>> 4) =? 4 then ETH_P_IP else ETH_P_IPV6)).

(** The record header is written last here: its [orig_len] is updated in
  place by the source. *)
Definition dump_packet_pcap (pkt : list Z) (pktlen : Z) (tv : Z * Z) (uid tot : Z) : M pcap_dumper unit :=
  d ← getS;
  let trailer := bool_decide (mode d = PCAP_DUMP_WITH_TRAILER) in
  let base := buffer_idx d + PCAP_REC_SIZE in
  let incl_len := u32 (tot - PCAP_REC_SIZE) in
  buf ← liftO (if trailer then b ← rd8 pkt 0; wrn base (eth_bytes b) (buffer d)
               else Some (buffer d));
  let offset := if trailer then ETHHDR_SIZE else 0 in
  let orig_len := if trailer then u32 (pktlen + ETHHDR_SIZE) else pktlen in
  let to_copy := cmin pktlen (u32 (incl_len - offset)) in
  data ← liftO (rdn (Z.to_nat to_copy) pkt 0);
  buf ← liftO (wrn (base + offset) data buf);
  let offset := offset + to_copy in
  r ← liftO (
    if trailer && (TRAILER_SIZE <=? u32 (incl_len - offset)) then
      let padding := pad4 offset in
      buf ← wrn (base + offset) (zeros padding) buf;
      buf ← wrn (base + offset + padding) (trailer_bytes uid ++ zeros 4) buf;
      frame ← rdn (Z.to_nat (incl_len - 4)) buf base;
      buf ← wrn (base + offset + padding + 28) (le_bytes 4 (crc32 frame 0)) buf;
      Some (buf, u32 (orig_len + (padding + TRAILER_SIZE)))
    else Some (buf, orig_len));
  buf ← liftO (wrn (buffer_idx d) (le_bytes 4 (fst tv) ++ le_bytes 4 (snd tv) ++
                 le_bytes 4 incl_len ++ le_bytes 4 (snd r)) (fst r));
  modifyS (fun d => d <| buffer := buf |>).

Definition dump_packet_pcapng (pkt : list Z) (pktlen : Z) (tv : Z * Z) (tot : Z) : M pcap_dumper unit :=
  d ← getS;
  let base := buffer_idx d in
  let now_usec := u64 (u64 (fst tv * 1000000) + snd tv) in
  let captured_len := cmin pktlen (snaplen d) in
  buf ← liftO (wrn base (le_bytes 4 0x00000006 ++ le_bytes 4 tot ++ le_bytes 4 0 ++
                 le_bytes 4 (now_usec >>> 32) ++ le_bytes 4 now_usec ++
                 le_bytes 4 captured_len ++ le_bytes 4 pktlen) (buffer d));
  data ← liftO (rdn (Z.to_nat captured_len) pkt 0);
  buf ← liftO (wrn (base + EPB_SIZE) data buf);
  let p := base + EPB_SIZE + captured_len in
  buf ← liftO (wrn p (zeros (pad4 captured_len)) buf);
  buf ← liftO (wrn (p + pad4 captured_len) (le_bytes 4 tot) buf);
  modifyS (fun d => d <| buffer := buf |>).

(** [pkt] is the memory the packet is at the start of: the header of a frame with a
    trailer looks at the first byte of an empty packet too. *)
Definition pcap_dump_packet (pkt : list Z) (pktlen : Z) (tv : Z * Z) (uid : Z) : M pcap_dumper bool :=
  d ← getS;
  let tot := pcap_rec_size d pktlen in
  whenM (PCAP_BUFFER_SIZE - buffer_idx d <=? tot) export_buffer ;;
  d ← getS;
  if PCAP_BUFFER_SIZE - buffer_idx d <=? tot then mret false
  else if exceeds d tot then mret false
  else
    (match mode d with
     | PCAPNG_DUMP => dump_packet_pcapng pkt pktlen tv tot
     | _ => dump_packet_pcap pkt pktlen tv uid tot
     end) ;;
    modifyS (fun d => d <| buffer_idx ::= Z.add tot |> <| dump_size ::= fun n => u64 (n + tot) |>) ;;
    pcap_check_export ;;
    mret true.

(** ** Secrets *)

Definition pcap_dump_secret (sec : list Z) : M pcap_dumper bool :=
  d ← getS;
  let kb := match keylog_buf d with
            | Some kb => Some kb
            | None => malloc (KEYLOG_BUFFER_HEADROOM + PCAP_BUFFER_SIZE + KEYLOG_BUFFER_TAILROOM)
            end in
  match kb with
  | None => mret false
  | Some kb =>
      modifyS (fun d => d <| keylog_buf := Some kb |>) ;;
      let sec_len := Z.of_nat (length sec) in
      if PCAP_BUFFER_SIZE <=? keylog_idx d + (sec_len + 1) then mret false else
      kb ← liftO (wrn (KEYLOG_BUFFER_HEADROOM + keylog_idx d) sec kb);
      kb ← liftO (wrn (KEYLOG_BUFFER_HEADROOM + (keylog_idx d + sec_len)) [10] kb);
      modifyS (fun d => d <| keylog_buf := Some kb |> <| keylog_idx ::= Z.add (sec_len + 1) |>) ;;
      mret true
  end.
End dump.

End PcapDump.
