(* ===== verification/PcapSpec.v ===== *)
(** * What a dump contains

    A reader of the PCAPNG and PCAP formats, written from the formats and not
    from the code, and the proofs that it finds in what the dumper exports
    exactly the packets and the secrets the dumper accepted. *)

From stdpp Require Import gmap.
From S2P Require Import Prelude Crc32 PcapDump.
Import Crc32 PcapDump.

Module PcapSpec.

(** ** Padding *)

Lemma pad4_spec x : pad4 x = (- x) mod 4.
Proof.
  unfold pad4. change 3 with (Z.ones 2). rewrite Z.land_ones by lia.
  unfold Z.lnot. f_equal. lia.
Qed.
Lemma pad4_bound x : 0 <= pad4 x <= 3.
Proof. rewrite pad4_spec. pose proof (Z.mod_pos_bound (- x) 4). lia. Qed.
Lemma pad4_aligns x : (x + pad4 x) mod 4 = 0.
Proof. by rewrite pad4_spec, Zplus_mod_idemp_r, Z.add_opp_diag_r. Qed.

Lemma length_zeros n : Z.of_nat (length (zeros n)) = Z.max 0 n.
Proof. unfold zeros. rewrite length_replicate. lia. Qed.
Lemma zeros_ok n : bytes_ok (zeros n).
Proof. by apply Forall_replicate. Qed.
#[local] Hint Resolve zeros_ok : cint.

(** ** The invariant of a dumper *)

Record dumper_ok (d : pcap_dumper) : Prop := {
    ok_buf : Z.of_nat (length (buffer d)) = PCAP_BUFFER_SIZE /\ bytes_ok (buffer d);
    ok_idx : 0 <= buffer_idx d < PCAP_BUFFER_SIZE;
    ok_snap : 0 <= snaplen d <= 65535;
    ok_size : u_ok 64 (dump_size d);
    ok_max : u_ok 64 (max_dump_size d) /\ (0 < max_dump_size d -> dump_size d < max_dump_size d);
    ok_kidx : 0 <= keylog_idx d < PCAP_BUFFER_SIZE /\ (keylog_buf d = None -> keylog_idx d = 0);
    ok_key : forall kb, keylog_buf d = Some kb -> bytes_ok kb /\
      Z.of_nat (length kb) = KEYLOG_BUFFER_HEADROOM + PCAP_BUFFER_SIZE + KEYLOG_BUFFER_TAILROOM;
  }.

(** ** What was dumped *)

Record packet := Packet { p_sec : Z; p_usec : Z; p_uid : Z; p_data : list Z }.
Inductive item := IPacket (p : packet) | ISecrets (s : list Z).

Section spec.
Context (appname : Z -> option (list Z)) (m : pcap_dump_mode_t) (snap : Z).

Definition usecs (p : packet) : Z := u64 (u64 (p_sec p * 1000000) + p_usec p).
Definition caplen (p : packet) : Z := cmin (Z.of_nat (length (p_data p))) snap.
Definition captured (p : packet) : list Z := take (Z.to_nat (caplen p)) (p_data p).

(** The bytes of an enhanced packet block, of a record and of a secrets block. *)
Definition epb_size (p : packet) : Z := EPB_SIZE + 4 + caplen p + pad4 (caplen p).
Definition enc_epb (p : packet) : list Z :=
  (le_bytes 4 6 ++ le_bytes 4 (epb_size p) ++ le_bytes 4 0 ++ le_bytes 4 (usecs p >>> 32) ++
   le_bytes 4 (usecs p) ++ le_bytes 4 (caplen p) ++ le_bytes 4 (Z.of_nat (length (p_data p)))) ++
  captured p ++ zeros (pad4 (caplen p)) ++ le_bytes 4 (epb_size p).

Definition enc_rec (incl orig : Z) (p : packet) (frame : list Z) : list Z :=
  (le_bytes 4 (p_sec p) ++ le_bytes 4 (p_usec p) ++ le_bytes 4 incl ++ le_bytes 4 orig) ++ frame.

(** The frame of a packet with a trailer: a bogus Ethernet header, the packet
  padded to a multiple of four with the header, the trailer and its CRC. *)
Definition frame_pad (p : packet) : Z := pad4 (ETHHDR_SIZE + Z.of_nat (length (p_data p))).
Definition frame_head (p : packet) : list Z :=
  eth_bytes (nth 0 (p_data p) 0) ++ p_data p ++ zeros (frame_pad p) ++ trailer_bytes appname (p_uid p).
Definition frame (p : packet) : list Z := frame_head p ++ le_bytes 4 (crc32 (frame_head p) 0).

Definition enc_packet (p : packet) : list Z :=
  match m with
  | PCAPNG_DUMP => enc_epb p
  | PCAP_DUMP => enc_rec (caplen p) (Z.of_nat (length (p_data p))) p (captured p)
  | PCAP_DUMP_WITH_TRAILER =>
      enc_rec (Z.of_nat (length (frame p))) (Z.of_nat (length (frame p))) p (frame p)
  end.

Definition dsb_size (s : list Z) : Z :=
  KEYLOG_BUFFER_HEADROOM + Z.of_nat (length s) + pad4 (Z.of_nat (length s)) + 4.
Definition enc_dsb (s : list Z) : list Z :=
  (le_bytes 4 10 ++ le_bytes 4 (dsb_size s) ++ le_bytes 4 0x544c534b ++
   le_bytes 4 (Z.of_nat (length s))) ++
  s ++ zeros (pad4 (Z.of_nat (length s))) ++ le_bytes 4 (dsb_size s).

Definition enc_item (i : item) : list Z :=
  match i with IPacket p => enc_packet p | ISecrets s => enc_dsb s end.

(** The packets the theorems are about: bytes, and with a trailer not empty and
  not longer than the snap length. *)
Definition packet_ok (p : packet) : Prop :=
  bytes_ok (p_data p) /\ Z.of_nat (length (p_data p)) <= 65535 /\
  (m = PCAP_DUMP_WITH_TRAILER -> 1 <= Z.of_nat (length (p_data p)) <= snap).
End spec.

Definition packets_of (l : list item) : list packet :=
  omap (fun i => match i with IPacket p => Some p | ISecrets _ => None end) l.
Definition secrets_of (l : list item) : list Z :=
  concat (omap (fun i => match i with IPacket _ => None | ISecrets s => Some s end) l).

(** ** The writers store exactly the specified bytes *)

(** Run the next store of the goal, the first part of the store [H]. *)
Ltac store1 H :=
  match type of H with
  | wrn _ ?a _ = Some ?m =>
      match goal with
      | |- context [wrn ?o a ?b] =>
          replace (wrn o a b) with (Some m)
            by (rewrite <-H; f_equal;
                unfold EPB_SIZE, KEYLOG_BUFFER_HEADROOM, ETHHDR_SIZE, PCAP_REC_SIZE;
                rewrite ?length_app, ?length_le_bytes, ?length_zeros; lia)
      end
  end; mstep.
Ltac store H :=
  let m := fresh "m" in let E := fresh "E" in
  apply wrn_seq in H as (m & E & H); store1 E; clear E.

Section writers.
Context (malloc : Z -> option (list Z)) (appname : Z -> option (list Z)).
Hypothesis appname_ok : forall uid name, appname uid = Some name -> bytes_ok name.

Lemma length_captured snap p : 0 <= snap -> Z.of_nat (length (captured snap p)) = caplen snap p.
Proof. intros Hs. unfold captured, caplen. rewrite length_take. lia. Qed.

Lemma length_epb snap p : 0 <= snap -> Z.of_nat (length (enc_epb snap p)) = epb_size snap p.
Proof.
  intros Hs. pose proof (length_captured snap p Hs). pose proof (pad4_bound (caplen snap p)).
  unfold enc_epb, epb_size, EPB_SIZE.
  rewrite !length_app, !length_le_bytes, !Nat2Z.inj_add, length_zeros. lia.
Qed.

Lemma rdn_take pkt n :
  0 <= n <= Z.of_nat (length pkt) -> rdn (Z.to_nat n) pkt 0 = Some (take (Z.to_nat n) pkt).
Proof.
  intros Hn. unfold rdn.
  by rewrite (proj2 (Z.leb_le (0 + Z.of_nat (Z.to_nat n)) _)) by lia.
Qed.

Lemma dump_pcapng_run d p :
  dumper_ok d -> buffer_idx d + epb_size (snaplen d) p <= PCAP_BUFFER_SIZE ->
  dump_packet_pcapng (p_data p) (Z.of_nat (length (p_data p))) (p_sec p, p_usec p) (epb_size (snaplen d) p) d =
  Some (tt, d <| buffer := take (Z.to_nat (buffer_idx d)) (buffer d) ++ enc_epb (snaplen d) p ++
    drop (Z.to_nat (buffer_idx d) + length (enc_epb (snaplen d) p)) (buffer d) |>).
Proof.
  intros [[Hl _] Hi Hs _ _ _ _] Hfit. pose proof (length_epb (snaplen d) p) as He.
  rewrite <-He in Hfit by lia.
  pose proof (wrn_is_Some (buffer_idx d) (enc_epb (snaplen d) p) (buffer d)) as Hw.
  specialize (Hw ltac:(lia) ltac:(lia)).
  set (buf' := take _ _ ++ _) in *. unfold enc_epb in Hw. clear He Hfit.
  pose proof (length_captured (snaplen d) p) as Hc. pose proof (pad4_bound (caplen (snaplen d) p)).
  unfold dump_packet_pcapng. mstep. cbn [fst snd]. fold (usecs p) (caplen (snaplen d) p).
  store Hw. rewrite rdn_take by (unfold caplen; lia). fold (captured (snaplen d) p). mstep.
  store Hw. store Hw. store1 Hw. done.
Qed.

Lemma length_appname uid : length (appname_field appname uid) = 20%nat.
Proof.
  unfold appname_field. destruct (appname uid) as [name|]; [|done].
  rewrite length_app, length_replicate, length_take. lia.
Qed.

Lemma length_frame_head p :
  Z.of_nat (length (frame_head appname p)) =
  ETHHDR_SIZE + Z.of_nat (length (p_data p)) + frame_pad p + 28.
Proof.
  pose proof (pad4_bound (ETHHDR_SIZE + Z.of_nat (length (p_data p)))).
  unfold frame_head, eth_bytes, trailer_bytes, frame_pad in *.
  rewrite !length_app, !length_le_bytes, length_appname, !Nat2Z.inj_add, !length_zeros.
  unfold ETHHDR_SIZE in *. lia.
Qed.

(** The bytes before the trailer's CRC, and room for it. *)
Lemma frame_stores d p m :
  dumper_ok d -> packet_ok PCAP_DUMP_WITH_TRAILER (snaplen d) p ->
  let n := Z.of_nat (length (p_data p)) in
  let base := buffer_idx d + PCAP_REC_SIZE in
  wrn base (frame_head appname p ++ zeros 4) (buffer d) = Some m ->
  exists m1 m2 m3, rd8 (p_data p) 0 = Some (nth 0 (p_data p) 0) /\
    wrn base (eth_bytes (nth 0 (p_data p) 0)) (buffer d) = Some m1 /\
    wrn (base + ETHHDR_SIZE) (p_data p) m1 = Some m2 /\
    wrn (base + (ETHHDR_SIZE + n)) (zeros (frame_pad p)) m2 = Some m3 /\
    wrn (base + (ETHHDR_SIZE + n) + frame_pad p) (trailer_bytes appname (p_uid p) ++ zeros 4) m3 = Some m.
Proof.
  intros Hok (Hb & _ & Hn) n base Hw. destruct (Hn eq_refl) as [Hn1 _].
  assert (Hp : 0 <= frame_pad p <= 3) by apply pad4_bound.
  unfold frame_head in Hw. rewrite <-!app_assoc in Hw.
  apply wrn_seq in Hw as (m1 & E1 & Hw). apply wrn_seq in Hw as (m2 & E2 & Hw).
  apply wrn_seq in Hw as (m3 & E3 & Hw). exists m1, m2, m3.
  assert (He : length (eth_bytes (nth 0 (p_data p) 0)) = 14%nat) by done.
  rewrite He in E2, E3, Hw. rewrite length_zeros in Hw. split_and!; [|done|..].
  - destruct (p_data p); [simpl in *; lia|done].
  - by rewrite <-E2.
  - rewrite <-E3. f_equal. unfold n, ETHHDR_SIZE. lia.
  - rewrite <-Hw. f_equal. unfold n, ETHHDR_SIZE. lia.
Qed.

Lemma pad4_add4 x k : pad4 (x + 4 * k) = pad4 x.
Proof. rewrite !pad4_spec. replace (- (x + 4 * k)) with (- x + (- k) * 4) by lia. apply Z_mod_plus_full. Qed.

Lemma length_enc_packet d p :
  0 <= snaplen d -> packet_ok (mode d) (snaplen d) p ->
  Z.of_nat (length (enc_packet appname (mode d) (snaplen d) p)) =
  pcap_rec_size d (Z.of_nat (length (p_data p))).
Proof.
  intros Hs (_ & _ & Hn). unfold enc_packet, pcap_rec_size, enc_rec. fold (caplen (snaplen d) p).
  destruct (mode d) eqn:Em.
  - rewrite !length_app, !length_le_bytes. pose proof (length_captured (snaplen d) p Hs).
    unfold PCAP_REC_SIZE. lia.
  - unfold frame. rewrite !length_app, !length_le_bytes, !Nat2Z.inj_add, length_frame_head.
    replace (caplen (snaplen d) p) with (Z.of_nat (length (p_data p)))
      by (specialize (Hn eq_refl); unfold caplen; lia).
    unfold frame_pad, ETHHDR_SIZE, PCAP_REC_SIZE, TRAILER_SIZE.
    replace (Z.of_nat (length (p_data p)) + (32 + 14))
      with (14 + Z.of_nat (length (p_data p)) + 4 * 8) by lia.
    rewrite pad4_add4. lia.
  - by apply length_epb.
Qed.

(** The memory a record of [n] bytes goes to. *)
Lemma room (buf : list Z) idx n :
  0 <= idx -> 0 <= n -> idx + n <= Z.of_nat (length buf) ->
  exists b, Z.of_nat (length b) = n /\
    buf = take (Z.to_nat idx) buf ++ b ++ drop (Z.to_nat idx + Z.to_nat n) buf.
Proof.
  intros Hi Hn Hl. exists (take (Z.to_nat n) (drop (Z.to_nat idx) buf)). split.
  - rewrite length_take, length_drop. lia.
  - by rewrite <-drop_drop, !take_drop.
Qed.

Lemma dump_pcap_plain_run d p :
  dumper_ok d -> packet_ok PCAP_DUMP (snaplen d) p -> mode d = PCAP_DUMP ->
  let e := enc_packet appname PCAP_DUMP (snaplen d) p in
  buffer_idx d + Z.of_nat (length e) <= PCAP_BUFFER_SIZE ->
  dump_packet_pcap appname (p_data p) (Z.of_nat (length (p_data p))) (p_sec p, p_usec p) (p_uid p) (Z.of_nat (length e)) d =
  Some (tt, d <| buffer := take (Z.to_nat (buffer_idx d)) (buffer d) ++ e ++
    drop (Z.to_nat (buffer_idx d) + length e) (buffer d) |>).
Proof.
  intros [[Hl _] Hi Hs _ _ _ _] (_ & Hlen & _) Em e Hfit.
  pose proof (length_captured (snaplen d) p) as Hc. specialize (Hc ltac:(lia)).
  assert (He : Z.of_nat (length e) = PCAP_REC_SIZE + caplen (snaplen d) p).
  { unfold e, enc_packet, enc_rec. rewrite !length_app, !length_le_bytes. unfold PCAP_REC_SIZE. lia. }
  assert (Hcap : 0 <= caplen (snaplen d) p <= 65535 /\ caplen (snaplen d) p <= Z.of_nat (length (p_data p)))
    by (unfold caplen; lia).
  destruct (room (buffer d) (buffer_idx d) (Z.of_nat (length e))) as (b & Hb & Hbuf); [lia..|].
  rewrite Nat2Z.id in Hbuf.
  set (l := take (Z.to_nat (buffer_idx d)) (buffer d)) in *. set (r := drop _ (buffer d)) in *.
  assert (Hll : Z.of_nat (length l) = buffer_idx d) by (unfold l; rewrite length_take; lia).
  unfold dump_packet_pcap. mstep. rewrite Em, bool_decide_false by done. cbn [andb fst snd].
  rewrite He. replace (PCAP_REC_SIZE + caplen (snaplen d) p - PCAP_REC_SIZE) with (caplen (snaplen d) p) by lia.
  rewrite (uwrap_id 32 (caplen (snaplen d) p)) by (unfold u_ok; lia). rewrite Z.sub_0_r.
  rewrite (uwrap_id 32 (caplen (snaplen d) p)) by (unfold u_ok; lia). mstep.
  replace (cmin (Z.of_nat (length (p_data p))) (caplen (snaplen d) p)) with (caplen (snaplen d) p) by lia.
  rewrite rdn_take by lia. fold (captured (snaplen d) p). mstep.
  rewrite Hbuf. rewrite <-(take_drop 16 b), <-!app_assoc.
  rewrite (app_assoc l), (wrn_at _ (l ++ take 16 b) (drop 16 b) (captured (snaplen d) p) r).
  - mstep. cbn [fst snd]. rewrite <-app_assoc, (wrn_at _ l (take 16 b)).
    + by mstep.
    + lia.
    + rewrite length_take, !length_app, !length_le_bytes. unfold PCAP_REC_SIZE in *. lia.
  - rewrite length_app, length_take. unfold PCAP_REC_SIZE in *. lia.
  - rewrite length_drop. unfold PCAP_REC_SIZE in *. lia.
Qed.

Lemma dump_pcap_trailer_run d p :
  dumper_ok d -> packet_ok PCAP_DUMP_WITH_TRAILER (snaplen d) p ->
  mode d = PCAP_DUMP_WITH_TRAILER ->
  let e := enc_packet appname PCAP_DUMP_WITH_TRAILER (snaplen d) p in
  buffer_idx d + Z.of_nat (length e) <= PCAP_BUFFER_SIZE ->
  dump_packet_pcap appname (p_data p) (Z.of_nat (length (p_data p))) (p_sec p, p_usec p) (p_uid p) (Z.of_nat (length e)) d =
  Some (tt, d <| buffer := take (Z.to_nat (buffer_idx d)) (buffer d) ++ e ++
    drop (Z.to_nat (buffer_idx d) + length e) (buffer d) |>).
Proof.
  intros Hok Hp Em e Hfit. pose proof Hok as [[Hl _] Hi Hs _ _ _ _].
  pose proof Hp as (_ & Hlen & Hn). specialize (Hn eq_refl).
  set (n := Z.of_nat (length (p_data p))) in *.
  assert (Hpad : 0 <= frame_pad p <= 3) by apply pad4_bound.
  pose proof (length_frame_head p) as Hh. fold n in Hh.
  assert (Hf : Z.of_nat (length (frame appname p)) = 46 + n + frame_pad p).
  { unfold frame. rewrite length_app, length_le_bytes. unfold ETHHDR_SIZE in *. lia. }
  assert (He : Z.of_nat (length e) = PCAP_REC_SIZE + Z.of_nat (length (frame appname p))).
  { unfold e, enc_packet, enc_rec. rewrite !length_app, !length_le_bytes. unfold PCAP_REC_SIZE. lia. }
  destruct (room (buffer d) (buffer_idx d) (Z.of_nat (length e))) as (b & Hb & Hbuf); [lia..|].
  rewrite Nat2Z.id in Hbuf.
  set (l := take (Z.to_nat (buffer_idx d)) (buffer d)) in *. set (r := drop _ (buffer d)) in *.
  assert (Hll : Z.of_nat (length l) = buffer_idx d) by (unfold l; rewrite length_take; lia).
  set (base := buffer_idx d + PCAP_REC_SIZE).
  assert (Hb16 : (16 <= length b)%nat) by (unfold PCAP_REC_SIZE in *; lia).
  rewrite <-(take_drop 16 b), <-app_assoc, app_assoc in Hbuf. set (h := take 16 b) in *.
  assert (Hlh : length h = 16%nat) by (unfold h; rewrite length_take; lia).
  assert (Hbase : base = Z.of_nat (length (l ++ h)))
    by (rewrite length_app; unfold base, PCAP_REC_SIZE; lia).
  set (fr := frame_head appname p) in *.
  assert (Hw : wrn base (fr ++ zeros 4) (buffer d) = Some ((l ++ h) ++ (fr ++ zeros 4) ++ r)).
  { rewrite Hbuf. apply wrn_at; [done|]. rewrite length_drop, length_app.
    change (length (zeros 4)) with 4%nat. unfold PCAP_REC_SIZE, ETHHDR_SIZE in *. lia. }
  destruct (frame_stores d p _ Hok Hp Hw) as (m1 & m2 & m3 & H8 & H1 & H2 & H3 & H4).
  unfold dump_packet_pcap. mstep. rewrite Em, bool_decide_true by done. cbn [andb fst snd].
  fold base n. rewrite He. replace (PCAP_REC_SIZE + Z.of_nat (length (frame appname p)) - PCAP_REC_SIZE)
    with (46 + n + frame_pad p) by lia.
  rewrite (uwrap_id 32 (46 + n + frame_pad p)) by (unfold u_ok; lia).
  rewrite H8. cbn [mbind option_bind]. fold base in H1, H2, H3, H4. rewrite H1. mstep.
  replace (u32 (46 + n + frame_pad p - ETHHDR_SIZE)) with (32 + n + frame_pad p)
    by (unfold ETHHDR_SIZE; rewrite uwrap_id; unfold u_ok; lia).
  replace (cmin n (32 + n + frame_pad p)) with n by lia.
  rewrite rdn_take by lia. rewrite take_ge by lia. mstep. rewrite H2. mstep.
  replace (u32 (46 + n + frame_pad p - (ETHHDR_SIZE + n))) with (32 + frame_pad p)
    by (unfold ETHHDR_SIZE; rewrite uwrap_id; unfold u_ok; lia).
  replace (TRAILER_SIZE <=? 32 + frame_pad p) with true by (unfold TRAILER_SIZE; lia).
  fold n in H3, H4. change (pad4 (ETHHDR_SIZE + n)) with (frame_pad p). rewrite H3. cbn [mbind option_bind]. rewrite H4. cbn [mbind option_bind].
  replace (Z.to_nat (46 + n + frame_pad p - 4)) with (length fr) by (unfold ETHHDR_SIZE in *; lia).
  rewrite <-(app_assoc fr), (rdn_at (length fr) base (l ++ h) fr) by done. cbn [mbind option_bind].
  rewrite (app_assoc (l ++ h) fr).
  rewrite (wrn_at _ _ (zeros 4) (le_bytes 4 (crc32 fr 0)) r)
    by (rewrite ?(length_app (l ++ h)); unfold ETHHDR_SIZE in *; lia || done).
  cbn [mbind option_bind]. mstep. cbn [fst snd].
  rewrite <-!app_assoc, (wrn_at _ l h); [|done|by rewrite !length_app, !length_le_bytes].
  mstep. unfold e, enc_packet, enc_rec. rewrite Hf.
  replace (u32 (u32 (n + ETHHDR_SIZE) + (frame_pad p + TRAILER_SIZE))) with (46 + n + frame_pad p)
    by (unfold ETHHDR_SIZE, TRAILER_SIZE; rewrite !uwrap_id; unfold u_ok; rewrite ?uwrap_id; unfold u_ok; lia).
  unfold frame. fold fr. by rewrite <-!app_assoc.
Qed.

(** All three formats. *)
Lemma dump_packet_run d p :
  dumper_ok d -> packet_ok (mode d) (snaplen d) p ->
  let e := enc_packet appname (mode d) (snaplen d) p in
  buffer_idx d + Z.of_nat (length e) <= PCAP_BUFFER_SIZE ->
  (match mode d with
   | PCAPNG_DUMP => dump_packet_pcapng (p_data p) (Z.of_nat (length (p_data p))) (p_sec p, p_usec p) (Z.of_nat (length e))
   | _ => dump_packet_pcap appname (p_data p) (Z.of_nat (length (p_data p))) (p_sec p, p_usec p) (p_uid p) (Z.of_nat (length e))
   end) d =
  Some (tt, d <| buffer := take (Z.to_nat (buffer_idx d)) (buffer d) ++ e ++
    drop (Z.to_nat (buffer_idx d) + length e) (buffer d) |>).
Proof.
  intros Hok Hp e Hfit. unfold e in *. destruct (mode d) eqn:Em.
  - by apply dump_pcap_plain_run.
  - by apply dump_pcap_trailer_run.
  - pose proof (length_epb (snaplen d) p (proj1 (ok_snap _ Hok))) as He.
    cbn [enc_packet] in *. rewrite He in *. by apply dump_pcapng_run.
Qed.

Lemma appname_field_ok uid : bytes_ok (appname_field appname uid).
Proof.
  unfold appname_field. destruct (appname uid) as [name|] eqn:E.
  - apply Forall_app. split; [by apply Forall_take, (appname_ok _ _ E)|by apply Forall_replicate].
  - by apply Forall_replicate.
Qed.
Lemma enc_packet_ok m snap p : bytes_ok (p_data p) -> bytes_ok (enc_packet appname m snap p).
Proof.
  intros Hb. pose proof (appname_field_ok (p_uid p)) as Hap.
  unfold enc_packet, enc_epb, enc_rec, frame, frame_head, captured, eth_bytes, trailer_bytes.
  destruct m; solve_bytes; apply zeros_ok.
Qed.

(** ** The dumper at work *)

Definition keylog (d : pcap_dumper) : list Z :=
  match keylog_buf d with
  | Some kb => take (Z.to_nat (keylog_idx d)) (drop (Z.to_nat KEYLOG_BUFFER_HEADROOM) kb)
  | None => []
  end.
Definition output (d : pcap_dumper) : list Z := concat (rev (dumped d)).
Definition item_ok (m : pcap_dump_mode_t) (snap : Z) (i : item) : Prop :=
  match i with
  | IPacket p => packet_ok m snap p
  | ISecrets s => bytes_ok s /\ Z.of_nat (length s) < PCAP_BUFFER_SIZE
  end.

(** [ps] are the packets and [secs] the bytes of the secrets accepted so far. *)
Record dumping (d : pcap_dumper) (ps : list packet) (secs : list Z) : Prop := {
  dp_ok : dumper_ok d;
  dp_cb : dump_cb d = true;
  dp_packets : Forall (packet_ok (mode d) (snaplen d)) ps;
  dp_size : dump_size d = u64 (Z.of_nat (length (output d)) + buffer_idx d);
  dp_stream : exists exp pend,
    Forall (item_ok (mode d) (snaplen d)) exp /\
    output d = concat (enc_item appname (mode d) (snaplen d) <$> exp) /\
    take (Z.to_nat (buffer_idx d)) (buffer d) =
      concat (enc_packet appname (mode d) (snaplen d) <$> pend) /\
    packets_of exp ++ pend = ps /\
    (max_dump_size d = 0 -> secrets_of exp ++ keylog d = secs) /\
    (keylog_buf d = None -> exp = IPacket <$> packets_of exp);
  }.

(** What the operations leave alone. *)
Definition same_mode (d d' : pcap_dumper) : Prop :=
  mode d' = mode d /\ snaplen d' = snaplen d /\ max_dump_size d' = max_dump_size d.
Definition same_conf (d d' : pcap_dumper) : Prop :=
  same_mode d d' /\ (keylog_buf d = None -> keylog_buf d' = None).

Lemma output_cons bs d : output (d <| dumped ::= cons bs |>) = output d ++ bs.
Proof. unfold output. cbn. rewrite concat_app. cbn. by rewrite app_nil_r. Qed.

Lemma exceeds_false d n :
  u_ok 64 (max_dump_size d) -> exceeds d n = false ->
  0 < max_dump_size d -> u64 (dump_size d + n) < max_dump_size d.
Proof.
  intros _ He Hm. unfold exceeds in He. apply andb_false_iff in He as [H%Z.ltb_ge|H%Z.leb_gt]; lia.
Qed.

Lemma u64_ok n : u_ok 64 (u64 n).
Proof. apply uwrap_ok. lia. Qed.

Lemma split_len {A} n (l : list A) :
  0 <= n <= Z.of_nat (length l) -> exists a b, l = a ++ b /\ Z.of_nat (length a) = n.
Proof.
  intros Hn. exists (take (Z.to_nat n) l), (drop (Z.to_nat n) l).
  rewrite take_drop, length_take. split; [done|lia].
Qed.

(** The secrets block is laid out around the secrets. *)
Lemma length_dsb sec :
  Z.of_nat (length (enc_dsb sec)) = dsb_size sec.
Proof.
  unfold enc_dsb, dsb_size, KEYLOG_BUFFER_HEADROOM. pose proof (pad4_bound (Z.of_nat (length sec))).
  rewrite !length_app, !length_le_bytes, !Nat2Z.inj_add, length_zeros. lia.
Qed.

Lemma dsb_stores d kb :
  dumper_ok d -> keylog_buf d = Some kb ->
  let n := keylog_idx d in
  length (keylog d) = Z.to_nat n /\ bytes_ok (keylog d) /\
  exists k1 k2 r,
    wrn 0 (le_bytes 4 10 ++ le_bytes 4 (dsb_size (keylog d)) ++ le_bytes 4 0x544c534b ++ le_bytes 4 n)
      kb = Some k1 /\
    wrn (KEYLOG_BUFFER_HEADROOM + n) (zeros (pad4 n)) k1 = Some k2 /\
    wrn (KEYLOG_BUFFER_HEADROOM + n + pad4 n) (le_bytes 4 (dsb_size (keylog d))) k2 =
      Some (enc_dsb (keylog d) ++ r) /\ bytes_ok r /\
    length (enc_dsb (keylog d) ++ r) = length kb.
Proof.
  intros Hok Hkb n. pose proof (ok_key _ Hok kb Hkb) as [Hb Hl].
  pose proof (ok_kidx _ Hok) as [Hk _]. pose proof (pad4_bound n) as Hp.
  unfold KEYLOG_BUFFER_HEADROOM, KEYLOG_BUFFER_TAILROOM in *.
  assert (Hlog : keylog d = take (Z.to_nat n) (drop 16 kb)) by (unfold keylog; by rewrite Hkb).
  destruct (split_len 16 kb) as (h & k' & -> & Hh); [lia|]. rewrite length_app in Hl.
  destruct (split_len n k') as (sec & k2 & -> & Hs); [lia|]. rewrite length_app in Hl.
  destruct (split_len (pad4 n) k2) as (z & k3 & -> & Hz); [lia|]. rewrite length_app in Hl.
  destruct (split_len 4 k3) as (t4 & r & -> & Ht); [lia|].
  assert (Hsec : keylog d = sec).
  { rewrite Hlog. replace 16%nat with (length h) by lia. rewrite drop_app_length.
    by replace (Z.to_nat n) with (length sec) by lia; rewrite take_app_length. }
  rewrite Hsec. unfold bytes_ok in Hb. rewrite !Forall_app in Hb. destruct Hb as (_ & Hbs & _ & _ & Hbr).
  split; [lia|]. split; [done|].
  eexists _, _, r. split; [apply wrn_here; rewrite !length_app, !length_le_bytes; lia|].
  split; [rewrite app_assoc; apply wrn_at|].
  - rewrite !length_app, !length_le_bytes. lia.
  - unfold zeros. rewrite length_replicate. lia.
  - split; [|split; [done|]].
    + rewrite <-(app_assoc _ sec), (app_assoc _ sec), (app_assoc _ (zeros (pad4 n))).
      erewrite wrn_at; [|rewrite !length_app, !length_le_bytes; unfold zeros; rewrite length_replicate; lia
        |rewrite length_le_bytes; lia].
      unfold enc_dsb. rewrite Hs. by rewrite <-!app_assoc.
    + rewrite length_app. pose proof (length_dsb sec) as Hd. unfold dsb_size, KEYLOG_BUFFER_HEADROOM in Hd.
      rewrite Hs in Hd. rewrite !length_app. lia.
Qed.

Lemma concat_snoc {A B} (f : A -> list B) l x : concat (f <$> l ++ [x]) = concat (f <$> l) ++ f x.
Proof. by rewrite fmap_app, concat_app, <-(app_nil_r (f x)). Qed.
Lemma packets_of_app l1 l2 : packets_of (l1 ++ l2) = packets_of l1 ++ packets_of l2.
Proof. apply omap_app. Qed.
Lemma secrets_of_app l1 l2 : secrets_of (l1 ++ l2) = secrets_of l1 ++ secrets_of l2.
Proof. unfold secrets_of. by rewrite omap_app, concat_app. Qed.

Lemma secrets_of_snoc l sec : secrets_of (l ++ [ISecrets sec]) = secrets_of l ++ sec.
Proof. rewrite secrets_of_app. f_equal. apply app_nil_r. Qed.

Lemma wp_run_dump_cb buf n bytes (Q : unit -> pcap_dumper -> Prop) d :
  dump_cb d = true -> rdn (Z.to_nat n) buf 0 = Some bytes -> Q tt (d <| dumped ::= cons bytes |>) ->
  wp (run_dump_cb buf n) Q d.
Proof.
  intros Hcb Hr HQ. unfold run_dump_cb, whenM. wp_step. wp_step. rewrite Hcb. wp_step.
  eapply wp_lift; [exact Hr|]. by wp_step.
Qed.

Lemma wp_export_keylog d ps secs (Q : unit -> pcap_dumper -> Prop) :
  dumping d ps secs ->
  (forall d', dumping d' ps secs -> same_conf d d' -> keylog_idx d' = 0 ->
     buffer_idx d' = buffer_idx d -> Q tt d') ->
  wp export_keylog_buffer Q d.
Proof.
  intros Hd HQ. unfold export_keylog_buffer. wp_step. wp_step.
  destruct (Z.eqb_spec (keylog_idx d) 0) as [Hz|Hz]; [wp_step; by apply HQ|].
  destruct Hd as [Hok Hcb Hps Hsz (exp & pend & Hexp & Hout & Hbuf & Hpk & Hsec & Hno)].
  set (n := keylog_idx d) in *. cbv zeta.
  change (KEYLOG_BUFFER_HEADROOM + n + pad4 n + 4) with (KEYLOG_BUFFER_HEADROOM + keylog_idx d + pad4 (keylog_idx d) + 4).
  fold n. destruct (exceeds d _) eqn:Eex.
  { wp_step. apply HQ; [|done|done|done]. destruct Hok. split; try done.
    exists exp, pend. split_and!; try done. simpl. intros Hm.
    unfold exceeds in Eex. by rewrite Hm in Eex. }
  assert (exists kb, keylog_buf d = Some kb) as [kb Hkb].
  { destruct (keylog_buf d) eqn:E; [by eexists|]. by destruct Hz; apply (ok_kidx _ Hok). }
  destruct (dsb_stores d kb Hok Hkb) as (Hlen & Hkok & k1 & k2 & r & E1 & E2 & E3 & Hr & Hlr).
  pose proof (ok_kidx _ Hok) as [Hk _]. fold n in Hk, Hlen, E1, E2, E3.
  assert (Hsize : dsb_size (keylog d) = KEYLOG_BUFFER_HEADROOM + n + pad4 n + 4)
    by (unfold dsb_size; rewrite Hlen, Z2Nat.id by lia; done).
  rewrite Hsize in E1, E3. set (size := KEYLOG_BUFFER_HEADROOM + n + pad4 n + 4) in *.
  wp_step. eapply wp_lift; [exact Hkb|]. wp_step. eapply wp_lift; [exact E1|].
  wp_step. eapply wp_lift; [exact E2|]. wp_step. eapply wp_lift; [exact E3|].
  wp_step. wp_step. wp_step. eapply wp_run_dump_cb; [done| |].
  { apply rdn_here; [done|]. pose proof (length_dsb (keylog d)). lia. }
  wp_run. apply HQ; [|split; [done|by rewrite Hkb]|done|done]. pose proof (pad4_bound n) as Hp.
  assert (Hlim : 0 < max_dump_size d -> u64 (dump_size d + size) < max_dump_size d)
    by (apply exceeds_false; [apply (ok_max _ Hok)|done]).
  split; [|done|done| |].
  - destruct Hok. split; try done; [apply u64_ok| |].
    + split; [apply ok_max0|exact Hlim].
    + intros kb' Hkb'. change (Some (enc_dsb (keylog d) ++ r) = Some kb') in Hkb'.
      apply (inj Some) in Hkb'. subst kb'. split; [|rewrite Hlr; by apply ok_key0].
      unfold bytes_ok, enc_dsb. solve_bytes; apply zeros_ok.
  - change (u64 (dump_size d + size) = u64 (Z.of_nat (length (output
      (d <| dumped ::= cons (enc_dsb (keylog d)) |>))) + buffer_idx d)).
    rewrite output_cons, length_app, Hsz, uwrap_add_l. pose proof (length_dsb (keylog d)).
    f_equal. lia.
  - exists (exp ++ [ISecrets (keylog d)]), pend. split_and!.
    + apply Forall_app. split; [done|]. constructor; [|constructor]. split; [done|]. lia.
    + change (output (d <| dumped ::= cons (enc_dsb (keylog d)) |>) =
        concat (enc_item appname (mode d) (snaplen d) <$> exp ++ [ISecrets (keylog d)])).
      by rewrite output_cons, Hout, concat_snoc.
    + done.
    + by rewrite packets_of_app, app_nil_r.
    + intros Hm. rewrite secrets_of_snoc, <-(Hsec Hm). apply app_nil_r.
    + done.
Qed.

Lemma same_mode_trans d1 d2 d3 : same_mode d1 d2 -> same_mode d2 d3 -> same_mode d1 d3.
Proof. intros (? & ? & ?) (? & ? & ?). unfold same_mode. split_and!; congruence. Qed.
Lemma same_conf_trans d1 d2 d3 : same_conf d1 d2 -> same_conf d2 d3 -> same_conf d1 d3.
Proof. intros [? ?] [? ?]. split; [by eapply same_mode_trans|auto]. Qed.

Lemma packets_of_packets pend : packets_of (IPacket <$> pend) = pend.
Proof.
  induction pend as [|p l IH]; [done|].
  change (p :: packets_of (IPacket <$> l) = p :: l). by rewrite IH.
Qed.
Lemma secrets_of_packets pend : secrets_of (IPacket <$> pend) = [].
Proof. by induction pend. Qed.
Lemma items_ok_packets m snap ps :
  Forall (packet_ok m snap) ps -> Forall (item_ok m snap) (IPacket <$> ps).
Proof. intros H. by apply Forall_fmap. Qed.
Lemma enc_packets m snap ps :
  concat (enc_item appname m snap <$> (IPacket <$> ps)) = concat (enc_packet appname m snap <$> ps).
Proof. by rewrite <-list_fmap_compose. Qed.

Lemma wp_export_buffer d ps secs (Q : unit -> pcap_dumper -> Prop) :
  dumping d ps secs ->
  (forall d', dumping d' ps secs -> same_conf d d' -> keylog_idx d' = 0 -> buffer_idx d' = 0 ->
     Q tt d') ->
  wp export_buffer Q d.
Proof.
  intros Hd HQ. unfold export_buffer. wp_step. eapply wp_export_keylog; [done|].
  intros d1 Hd1 Hc Hk _. wp_step. wp_step.
  destruct (Z.eqb_spec (buffer_idx d1) 0) as [Hz|Hz]; [wp_step; by apply HQ|].
  destruct Hd1 as [Hok Hcb Hps Hsz (exp & pend & Hexp & Hout & Hbuf & Hpk & Hsec & Hno)].
  pose proof (ok_idx _ Hok) as Hi. pose proof (ok_buf _ Hok) as [Hl _].
  wp_step. eapply wp_run_dump_cb; [done|apply rdn_take; lia|].
  wp_run. apply HQ; [|done|done|done].
  set (bs := take (Z.to_nat (buffer_idx d1)) (buffer d1)) in *.
  assert (Hbs : Z.of_nat (length bs) = buffer_idx d1) by (unfold bs; rewrite length_take; lia).
  split; try done.
  - destruct Hok. by split.
  - change (dump_size d1 = u64 (Z.of_nat (length (output (d1 <| dumped ::= cons bs |>))) + 0)).
    rewrite output_cons, length_app, Hsz. f_equal. lia.
  - exists (exp ++ (IPacket <$> pend)), []. split_and!; try done.
    + apply Forall_app. split; [done|]. apply items_ok_packets.
      rewrite <-Hpk in Hps. by apply Forall_app in Hps as [_ ?].
    + change (output (d1 <| dumped ::= cons bs |>) =
        concat (enc_item appname (mode d1) (snaplen d1) <$> exp ++ (IPacket <$> pend))).
      by rewrite output_cons, Hout, fmap_app, concat_app, enc_packets, <-Hbuf.
    + by rewrite packets_of_app, packets_of_packets, app_nil_r.
    + intros Hm. by rewrite secrets_of_app, secrets_of_packets, app_nil_r, <-(Hsec Hm).
    + intros Hn. by rewrite (Hno Hn), <-fmap_app, packets_of_packets.
Qed.

Lemma wp_check_export d ps secs (Q : bool -> pcap_dumper -> Prop) :
  dumping d ps secs ->
  (forall b d', dumping d' ps secs -> same_conf d d' -> Q b d') -> wp pcap_check_export Q d.
Proof.
  intros Hd HQ. unfold pcap_check_export. wp_step. wp_step. case_match.
  - wp_step. eapply wp_export_buffer; [done|]. intros. wp_step. by apply HQ.
  - wp_step. by apply HQ.
Qed.

Lemma rec_size_bound d n :
  0 <= snaplen d <= 65535 -> 0 <= n -> 0 < pcap_rec_size d n < PCAP_BUFFER_SIZE.
Proof.
  intros Hs Hn. unfold pcap_rec_size, PCAP_BUFFER_SIZE, EPB_SIZE, PCAP_REC_SIZE, TRAILER_SIZE, ETHHDR_SIZE.
  destruct (mode d); [|set (x := cmin n (snaplen d) + (32 + 14)); pose proof (pad4_bound x)
    |pose proof (pad4_bound (cmin n (snaplen d)))]; lia.
Qed.

Lemma rec_size_conf d d' n : same_conf d d' -> pcap_rec_size d' n = pcap_rec_size d n.
Proof. intros [(Hm & Hs & _) _]. unfold pcap_rec_size. by rewrite Hm, Hs. Qed.

(** The record goes to the end of what is buffered. *)
Lemma dumping_packet d ps secs p :
  dumping d ps secs -> packet_ok (mode d) (snaplen d) p ->
  let e := enc_packet appname (mode d) (snaplen d) p in
  let n := Z.of_nat (length e) in
  buffer_idx d + n < PCAP_BUFFER_SIZE -> exceeds d n = false ->
  dumping (d <| buffer := take (Z.to_nat (buffer_idx d)) (buffer d) ++ e ++
                 drop (Z.to_nat (buffer_idx d) + length e) (buffer d) |>
             <| buffer_idx ::= Z.add n |> <| dump_size ::= fun m => u64 (m + n) |>) (ps ++ [p]) secs.
Proof.
  intros [Hok Hcb Hps Hsz (exp & pend & Hexp & Hout & Hbuf & Hpk & Hsec & Hno)] Hp e n Hfit Hex.
  pose proof (ok_idx _ Hok) as Hi. pose proof (ok_buf _ Hok) as [Hl Hb].
  assert (Hlim : 0 < max_dump_size d -> u64 (dump_size d + n) < max_dump_size d)
    by (apply exceeds_false; [apply (ok_max _ Hok)|done]).
  set (l := take (Z.to_nat (buffer_idx d)) (buffer d)) in *.
  assert (Hll : Z.of_nat (length l) = buffer_idx d) by (unfold l; rewrite length_take; lia).
  split; [|done| | |].
  - destruct Hok. split; try done.
    + split.
      * simpl. unfold e. rewrite !length_app, length_drop. fold e. lia.
      * simpl. unfold bytes_ok. rewrite !Forall_app. split_and!.
        -- by apply Forall_take.
        -- apply enc_packet_ok, Hp.
        -- by apply Forall_drop.
    + change (0 <= n + buffer_idx d < PCAP_BUFFER_SIZE). lia.
    + apply u64_ok.
    + split; [apply ok_max0|exact Hlim].
  - apply Forall_app. by split; [|constructor].
  - change (u64 (dump_size d + n) = u64 (Z.of_nat (length (output d)) + (n + buffer_idx d))).
    rewrite Hsz, uwrap_add_l. f_equal. lia.
  - exists exp, (pend ++ [p]). split_and!; try done.
    + change (take (Z.to_nat (n + buffer_idx d)) (l ++ e ++ drop (Z.to_nat (buffer_idx d) + length e) (buffer d))
        = concat (enc_packet appname (mode d) (snaplen d) <$> pend ++ [p])).
      rewrite concat_snoc, <-Hbuf, app_assoc.
      replace (Z.to_nat (n + buffer_idx d)) with (length (l ++ e)) by (rewrite length_app; lia).
      apply take_app_length.
    + by rewrite app_assoc, Hpk.
Qed.

Lemma wp_dump_packet d ps secs p (Q : bool -> pcap_dumper -> Prop) :
  dumping d ps secs -> packet_ok (mode d) (snaplen d) p ->
  (forall (b : bool) d', dumping d' (if b then ps ++ [p] else ps) secs -> same_conf d d' ->
     (b = false -> exceeds d' (pcap_rec_size d (Z.of_nat (length (p_data p)))) = true) -> Q b d') ->
  wp (pcap_dump_packet appname (p_data p) (Z.of_nat (length (p_data p))) (p_sec p, p_usec p) (p_uid p)) Q d.
Proof.
  intros Hd Hp HQ. pose proof (ok_snap _ (dp_ok _ _ _ Hd)) as Hs.
  set (tot := pcap_rec_size d (Z.of_nat (length (p_data p)))) in *.
  assert (Ht : 0 < tot < PCAP_BUFFER_SIZE) by (apply rec_size_bound; lia).
  assert (Hrest : forall d1, dumping d1 ps secs -> same_conf d d1 ->
    (PCAP_BUFFER_SIZE - buffer_idx d1 <=? tot) = false ->
    wp (d ← getS;
        if PCAP_BUFFER_SIZE - buffer_idx d <=? tot then mret false
        else if exceeds d tot then mret false
        else
          (match mode d with
           | PCAPNG_DUMP => dump_packet_pcapng (p_data p) (Z.of_nat (length (p_data p))) (p_sec p, p_usec p) tot
           | _ => dump_packet_pcap appname (p_data p) (Z.of_nat (length (p_data p))) (p_sec p, p_usec p) (p_uid p) tot
           end) ;;
          modifyS (fun d => d <| buffer_idx ::= Z.add tot |> <| dump_size ::= fun n => u64 (n + tot) |>) ;;
          pcap_check_export ;;
          mret true) Q d1).
  { intros d1 Hd1 Hc Hroom. wp_step. wp_step. rewrite Hroom. apply Z.leb_gt in Hroom.
    destruct (exceeds d1 tot) eqn:Ex; [wp_step; by apply HQ|].
    pose proof Hc as [(Hm & Hsn & _) _].
    assert (Hp1 : packet_ok (mode d1) (snaplen d1) p) by (by rewrite Hm, Hsn).
    assert (He : Z.of_nat (length (enc_packet appname (mode d1) (snaplen d1) p)) = tot).
    { rewrite length_enc_packet by (done || lia). by apply rec_size_conf. }
    rewrite <-He in *. wp_step.
    eapply wp_eq; [apply dump_packet_run; [apply Hd1|done|lia]|].
    wp_step. wp_step. wp_step. eapply wp_check_export; [apply dumping_packet; (done || lia)|].
    intros b d2 Hd2 Hc2. wp_step. apply (HQ true); [done| |done].
    eapply same_conf_trans; [exact Hc|]. exact Hc2. }
  unfold pcap_dump_packet. wp_step. wp_step. fold tot. wp_step. apply wp_when; intros E.
  - eapply wp_export_buffer; [done|]. intros d1 Hd1 Hc _ Hi. apply Hrest; [done|done|].
    rewrite Hi. apply Z.leb_gt. lia.
  - by apply Hrest.
Qed.

Hypothesis malloc_ok : forall n mem, malloc n = Some mem -> Z.of_nat (length mem) = n /\ bytes_ok mem.

Lemma keylog_extends kb kb1 kb2 n sec :
  0 <= n -> KEYLOG_BUFFER_HEADROOM + (n + Z.of_nat (length sec) + 1) <= Z.of_nat (length kb) ->
  wrn (KEYLOG_BUFFER_HEADROOM + n) sec kb = Some kb1 ->
  wrn (KEYLOG_BUFFER_HEADROOM + (n + Z.of_nat (length sec))) [10] kb1 = Some kb2 ->
  take (Z.to_nat (Z.of_nat (length sec) + 1 + n)) (drop (Z.to_nat KEYLOG_BUFFER_HEADROOM) kb2) =
  take (Z.to_nat n) (drop (Z.to_nat KEYLOG_BUFFER_HEADROOM) kb) ++ sec ++ [10].
Proof.
  unfold KEYLOG_BUFFER_HEADROOM. intros Hn Hl E1 E2.
  assert (E : wrn (16 + n) (sec ++ [10]) kb = Some kb2).
  { rewrite wrn_split, E1. cbn [mbind option_bind]. by rewrite <-Z.add_assoc. }
  destruct (split_len 16 kb) as (h & k & -> & Hh); [lia|]. rewrite length_app in Hl.
  destruct (split_len n k) as (a & b & -> & Ha); [lia|]. rewrite length_app in Hl.
  destruct (split_len (Z.of_nat (length sec) + 1) b) as (x & y & -> & Hx); [lia|].
  rewrite app_assoc, (wrn_at _ (h ++ a) x (sec ++ [10]) y) in E
    by (rewrite ?length_app; simpl; lia).
  apply (inj Some) in E. subst kb2. replace (Z.to_nat 16) with (length h) by lia.
  rewrite <-(app_assoc h), !drop_app_length.
  replace (Z.to_nat (Z.of_nat (length sec) + 1 + n)) with (length (a ++ sec ++ [10]))
    by (rewrite !length_app; simpl; lia).
  replace (Z.to_nat n) with (length a) by lia.
  by rewrite (app_assoc a (sec ++ [10])), !take_app_length.
Qed.

Lemma wp_dump_secret d ps secs sec (Q : bool -> pcap_dumper -> Prop) :
  dumping d ps secs -> bytes_ok sec ->
  (forall (b : bool) d', dumping d' ps (if b then secs ++ sec ++ [10] else secs) ->
     same_mode d d' -> Q b d') ->
  wp (pcap_dump_secret malloc sec) Q d.
Proof.
  intros [Hok Hcb Hps Hsz (exp & pend & Hexp & Hout & Hbuf & Hpk & Hsec & Hno)] Hb HQ.
  unfold pcap_dump_secret. wp_step. wp_step. cbv zeta.
  set (full := KEYLOG_BUFFER_HEADROOM + PCAP_BUFFER_SIZE + KEYLOG_BUFFER_TAILROOM).
  destruct (match keylog_buf d with Some kb => Some kb | None => malloc full end) as [kb|] eqn:Ekb.
  2:{ wp_step. apply (HQ false); [|done]. split; try done. by exists exp, pend. }
  assert (Hkb : bytes_ok kb /\ Z.of_nat (length kb) = full /\
    keylog d = take (Z.to_nat (keylog_idx d)) (drop (Z.to_nat KEYLOG_BUFFER_HEADROOM) kb)).
  { unfold keylog. destruct (keylog_buf d) eqn:E.
    - injection Ekb as ->. destruct (ok_key _ Hok _ E). by split_and!.
    - destruct (malloc_ok _ _ Ekb). split_and!; try done. by rewrite (proj2 (ok_kidx _ Hok) E). }
  destruct Hkb as (Hkb & Hlen & Hlog). pose proof (ok_kidx _ Hok) as [Hk _].
  wp_step. wp_step. cbv zeta.
  set (n := Z.of_nat (length sec)). destruct (PCAP_BUFFER_SIZE <=? _) eqn:Efull.
  { wp_step. apply (HQ false); [|done]. split; try done.
    - destruct Hok. split; try done. intros kb' [= <-]. done.
    - exists exp, pend. split_and!; try done. intros Hm. rewrite <-(Hsec Hm). by rewrite Hlog. }
  apply Z.leb_gt in Efull. unfold full, KEYLOG_BUFFER_HEADROOM, KEYLOG_BUFFER_TAILROOM in *.
  destruct (wrn_safe (16 + keylog_idx d) sec kb) as (k1 & E1 & Hl1 & Hb1); [lia|lia|done|done|].
  destruct (wrn_safe (16 + (keylog_idx d + n)) [10] k1) as (k2 & E2 & Hl2 & Hb2);
    [lia|simpl; lia|by repeat constructor|done|].
  wp_step. eapply wp_lift; [exact E1|]. wp_step. eapply wp_lift; [exact E2|]. wp_run.
  apply (HQ true); [|done]. split; try done.
  - destruct Hok. split; try done.
    + change (0 <= n + 1 + keylog_idx d < PCAP_BUFFER_SIZE /\ (Some k2 = None -> n + 1 + keylog_idx d = 0)).
      split; [lia|done].
    + intros kb' Hkb'. change (Some k2 = Some kb') in Hkb'. injection Hkb' as <-.
      split; [done|]. unfold KEYLOG_BUFFER_HEADROOM, KEYLOG_BUFFER_TAILROOM. lia.
  - exists exp, pend. split_and!; try done. intros Hm. rewrite <-(Hsec Hm), <-app_assoc, Hlog.
    f_equal. unfold keylog. simpl. by eapply keylog_extends; [lia| |exact E1|exact E2]; unfold KEYLOG_BUFFER_HEADROOM; lia.
Qed.

Lemma new_dumper_dumping md snap max now alloc mutex d :
  pcap_new_dumper malloc md snap max true now alloc mutex = Some d ->
  0 <= snap <= 65535 -> u_ok 64 max ->
  dumping d [] [] /\ mode d = md /\ snaplen d = snap /\ max_dump_size d = max.
Proof.
  unfold pcap_new_dumper. intros H Hs Hm. destruct alloc; [|done]. cbn [negb] in H.
  destruct (malloc PCAP_BUFFER_SIZE) as [mem|] eqn:E; [|done]. destruct mutex; [|done].
  injection H as <-. destruct (malloc_ok _ _ E) as [Hl Hb]. split; [|done].
  split; [|done|constructor|done|exists [], []; by split_and!].
  by split.
Qed.

End writers.

End PcapSpec.
