(* ===== verification/PcapRead.v ===== *)
(** * Reading back a dump

    Readers of PCAPNG blocks, of PCAP records and of the PCAPdroid trailer, and
    the round trips: whatever the sequence of packets, secrets and periodic
    exports, the readers find in the exported bytes exactly what the dumper
    accepted, in order. *)

From stdpp Require Import gmap.
From S2P Require Import Prelude Crc32 PcapDump PcapSpec.
Import Crc32 PcapDump PcapSpec.

Module PcapRead.

(** ** Readers *)

Definition guard_opt (b : bool) : option unit := if b then Some tt else None.

Fixpoint read_all {A} (rd : list Z -> option (A * list Z)) (fuel : nat) (bs : list Z)
    : option (list A) :=
  match bs with
  | [] => Some []
  | _ =>
      match fuel with
      | O => None
      | S fuel => r ← rd bs; l ← read_all rd fuel (snd r); Some (fst r :: l)
      end
  end.

Inductive block :=
  | EPB (iface ts orig : Z) (data : list Z)
  | DSB (ty : Z) (data : list Z).

(** One PCAPNG block: its length is a multiple of four and is repeated at its
    end. *)
Definition read_block (bs : list Z) : option (block * list Z) :=
  ty ← rd32 bs 0;
  len ← rd32 bs 4;
  guard_opt ((12 <=? len) && (len mod 4 =? 0)) ;;
  trail ← rd32 bs (len - 4);
  guard_opt (trail =? len) ;;
  if ty =? 6 then
    iface ← rd32 bs 8; hi ← rd32 bs 12; lo ← rd32 bs 16; cap ← rd32 bs 20; orig ← rd32 bs 24;
    guard_opt (32 + cap <=? len) ;;
    data ← rdn (Z.to_nat cap) bs 28;
    Some (EPB iface (hi * 2 ^ 32 + lo) orig data, drop (Z.to_nat len) bs)
  else if ty =? 10 then
    st ← rd32 bs 8; sl ← rd32 bs 12;
    guard_opt (20 + sl <=? len) ;;
    data ← rdn (Z.to_nat sl) bs 16;
    Some (DSB st data, drop (Z.to_nat len) bs)
  else None.

Record rec := Rec { r_sec : Z; r_usec : Z; r_orig : Z; r_data : list Z }.

Definition read_rec (bs : list Z) : option (rec * list Z) :=
  sec ← rd32 bs 0; usec ← rd32 bs 4; incl ← rd32 bs 8; orig ← rd32 bs 12;
  data ← rdn (Z.to_nat incl) bs 16;
  Some (Rec sec usec orig data, drop (Z.to_nat (16 + incl)) bs).

(** A frame with a trailer: the Ethernet type, the padded packet, the UID and
    the application name; the checksum is the reference CRC-32. *)
Record tagged := Tagged { t_proto : Z; t_packet : list Z; t_uid : Z; t_app : list Z }.

Definition read_frame (fr : list Z) : option tagged :=
  let len := Z.of_nat (length fr) in
  guard_opt ((46 <=? len) && (len mod 4 =? 0)) ;;
  proto ← rd16 fr 12;
  packet ← rdn (Z.to_nat (len - 46)) fr 14;
  magic ← rd32 fr (len - 32);
  guard_opt (bswap32 magic =? PCAPDROID_TRAILER_MAGIC) ;;
  uid ← rd32 fr (len - 28);
  app ← rdn 20 fr (len - 24);
  body ← rdn (Z.to_nat (len - 4)) fr 0;
  fcs ← rd32 fr (len - 4);
  guard_opt (fcs =? crc_ref body 0) ;;
  Some (Tagged (bswap16 proto) packet (bswap32 uid) app).

Definition read_tagged (bs : list Z) : option ((Z * Z * Z * tagged) * list Z) :=
  r ← read_rec bs;
  t ← read_frame (r_data (fst r));
  Some ((r_sec (fst r), r_usec (fst r), r_orig (fst r), t), snd r).

(** A reader that undoes an encoder reads a whole stream. *)
Lemma read_all_concat {A B} (rd : list Z -> option (B * list Z)) (enc : A -> list Z) (view : A -> B)
    (P : A -> Prop) l fuel :
  (forall a rest, P a -> enc a <> [] /\ rd (enc a ++ rest) = Some (view a, rest)) ->
  Forall P l -> (length (concat (enc <$> l)) <= fuel)%nat ->
  read_all rd fuel (concat (enc <$> l)) = Some (view <$> l).
Proof.
  intros Hrd Hl. revert fuel. induction Hl as [|a l Ha Hl IH]; intros fuel Hf; [by destruct fuel|].
  destruct (Hrd a (concat (enc <$> l)) Ha) as [Hne E].
  cbn [fmap list_fmap concat] in *. destruct (enc a) as [|x e] eqn:Ee; [done|].
  destruct fuel as [|fuel]; [simpl in Hf; lia|].
  cbn [app read_all] in *. rewrite E. cbn [mbind option_bind fst snd].
  rewrite IH; [done|]. simpl in Hf. rewrite length_app in Hf. lia.
Qed.

(** Reading fields: skip or take the first part of the memory. *)
Ltac side := rewrite ?length_app, ?length_le_bytes, ?Nat2Z.inj_add, ?length_zeros; first [done | lia].
Ltac fld :=
  match goal with
  | |- context [rdn ?n (?a ++ ?b) ?off] =>
      first [rewrite (rdn_here n off a b) by side | rewrite (rdn_skip n off a b) by side; fld]
  end.
Lemma le_val_4 v : u_ok 32 v -> le_val (le_bytes 4 v) = v.
Proof. intros Hv. rewrite le_val_le_bytes. by apply Z.mod_small. Qed.
Ltac rdf :=
  try unfold rd32; fld; cbn [fmap option_fmap option_map]; try done;
  f_equal; apply le_val_4; unfold u_ok in *; lia.
Ltac opt := cbn [guard_opt mbind option_bind fst snd].

(** The timestamp in two halves. *)
Lemma halves v : u_ok 64 v -> u_ok 32 (v >>> 32) /\ (v >>> 32) * 2 ^ 32 + v mod 2 ^ 32 = v.
Proof.
  intros Hv. unfold u_ok in *. rewrite Z.shiftr_div_pow2 by lia.
  pose proof (Z.div_mod v (2 ^ 32)). split; [|lia].
  split; [apply Z.div_pos; lia|apply Z.div_lt_upper_bound; lia].
Qed.

(** Lengths of blocks. *)
Lemma block_len n : 12 <= n /\ n mod 4 = 0 -> (12 <=? n) && (n mod 4 =? 0) = true.
Proof. intros [H1 H2]. rewrite H2. apply andb_true_iff. split; [lia|done]. Qed.
Lemma mod4_add x k : x mod 4 = 0 -> (4 * k + x) mod 4 = 0.
Proof. intros H. replace (4 * k + x) with (x + k * 4) by lia. by rewrite Z_mod_plus_full. Qed.

Section views.
Context (appname : Z -> option (list Z)) (snap : Z).
Hypothesis appname_ok : forall uid name, appname uid = Some name -> bytes_ok name.
Hypothesis Hsnap : 0 <= snap <= 65535.

(** What a reader sees of an item. *)
Definition view_block (i : item) : block :=
  match i with
  | IPacket p => EPB 0 (usecs p) (Z.of_nat (length (p_data p))) (captured snap p)
  | ISecrets s => DSB 0x544c534b s
  end.

Lemma read_epb p rest :
  packet_ok PCAPNG_DUMP snap p ->
  read_block (enc_epb snap p ++ rest) = Some (view_block (IPacket p), rest).
Proof.
  intros (Hb & Hl & _). pose proof (length_captured snap p) as Hc. specialize (Hc ltac:(lia)).
  assert (Hcap : 0 <= caplen snap p <= 65535) by (unfold caplen; lia).
  pose proof (length_epb snap p) as He. specialize (He ltac:(lia)).
  assert (Hsz : epb_size snap p = 32 + caplen snap p + pad4 (caplen snap p)) by (unfold epb_size, EPB_SIZE; lia).
  pose proof (pad4_bound (caplen snap p)) as Hp. pose proof (pad4_aligns (caplen snap p)) as Ha.
  destruct (halves (usecs p)) as [Hh1 Hh2]; [apply uwrap_ok; lia|].
  assert (Hd : drop (Z.to_nat (epb_size snap p)) (enc_epb snap p ++ rest) = rest)
    by (rewrite <-He, Nat2Z.id; apply drop_app_length).
  clear He. unfold enc_epb in *. rewrite <-!app_assoc in *. set (bs := _ ++ _) in *.
  assert (F0 : rd32 bs 0 = Some 6) by (unfold bs; rdf).
  assert (F4 : rd32 bs 4 = Some (epb_size snap p)) by (unfold bs; rdf).
  assert (F8 : rd32 bs 8 = Some 0) by (unfold bs; rdf).
  assert (F12 : rd32 bs 12 = Some (usecs p >>> 32)) by (unfold bs; rdf).
  assert (F16 : rd32 bs 16 = Some (usecs p mod 2 ^ 32))
    by (unfold bs, rd32; fld; cbn [fmap option_fmap option_map]; by rewrite le_val_le_bytes).
  assert (F20 : rd32 bs 20 = Some (caplen snap p)) by (unfold bs; rdf).
  assert (F24 : rd32 bs 24 = Some (Z.of_nat (length (p_data p)))) by (unfold bs; rdf).
  assert (F28 : rdn (Z.to_nat (caplen snap p)) bs 28 = Some (captured snap p))
    by (unfold bs; fld; done).
  assert (Ft : rd32 bs (epb_size snap p - 4) = Some (epb_size snap p)) by (unfold bs; rdf).
  unfold read_block. rewrite F0. opt. rewrite F4. opt. 
  rewrite block_len by (split; [lia|rewrite Hsz, <-Z.add_assoc; by apply (mod4_add _ 8)]). opt.
  rewrite Ft. opt. rewrite !Z.eqb_refl. opt.
  rewrite F8. opt. rewrite F12. opt. rewrite F16. opt. rewrite F20. opt. rewrite F24. opt.
  replace (32 + caplen snap p <=? epb_size snap p) with true by lia. opt. rewrite F28. opt.
  by rewrite Hh2, Hd.
Qed.

Lemma read_dsb sec rest :
  bytes_ok sec -> Z.of_nat (length sec) < PCAP_BUFFER_SIZE ->
  read_block (enc_dsb sec ++ rest) = Some (view_block (ISecrets sec), rest).
Proof.
  intros Hb Hl. unfold PCAP_BUFFER_SIZE in Hl. pose proof (length_dsb sec) as He.
  assert (Hsz : dsb_size sec = 20 + Z.of_nat (length sec) + pad4 (Z.of_nat (length sec)))
    by (unfold dsb_size, KEYLOG_BUFFER_HEADROOM; lia).
  pose proof (pad4_bound (Z.of_nat (length sec))) as Hp.
  pose proof (pad4_aligns (Z.of_nat (length sec))) as Ha.
  assert (Hd : drop (Z.to_nat (dsb_size sec)) (enc_dsb sec ++ rest) = rest)
    by (rewrite <-He, Nat2Z.id; apply drop_app_length).
  clear He. unfold enc_dsb in *. rewrite <-!app_assoc in *. set (bs := _ ++ _) in *.
  assert (F0 : rd32 bs 0 = Some 10) by (unfold bs; rdf).
  assert (F4 : rd32 bs 4 = Some (dsb_size sec)) by (unfold bs; rdf).
  assert (F8 : rd32 bs 8 = Some 0x544c534b) by (unfold bs; rdf).
  assert (F12 : rd32 bs 12 = Some (Z.of_nat (length sec))) by (unfold bs; rdf).
  assert (F16 : rdn (Z.to_nat (Z.of_nat (length sec))) bs 16 = Some sec) by (unfold bs; fld; done).
  assert (Ft : rd32 bs (dsb_size sec - 4) = Some (dsb_size sec)) by (unfold bs; rdf).
  unfold read_block. rewrite F0. opt. rewrite F4. opt.
  rewrite block_len by (split; [lia|rewrite Hsz, <-Z.add_assoc; by apply (mod4_add _ 5)]). opt.
  rewrite Ft. opt. change (10 =? 6) with false. rewrite !Z.eqb_refl. opt. rewrite F8. opt. rewrite F12. opt.
  replace (20 + Z.of_nat (length sec) <=? dsb_size sec) with true by lia. opt. rewrite F16. opt.
  by rewrite Hd.
Qed.

Lemma read_rec_spec incl orig p fr rest :
  u_ok 32 incl -> u_ok 32 orig -> incl = Z.of_nat (length fr) ->
  read_rec (enc_rec incl orig p fr ++ rest) = Some (Rec (u32 (p_sec p)) (u32 (p_usec p)) orig fr, rest).
Proof.
  intros Hi Ho Hl. unfold enc_rec. rewrite <-!app_assoc. set (bs := _ ++ _).
  assert (Hrd : forall off v, rdn 4 bs off = Some (le_bytes 4 v) -> rd32 bs off = Some (u32 v)).
  { intros off v E. unfold rd32. rewrite E. cbn [fmap option_fmap option_map].
    by rewrite le_val_le_bytes. }
  assert (F0 : rd32 bs 0 = Some (u32 (p_sec p))) by (apply Hrd; unfold bs; fld; done).
  assert (F4 : rd32 bs 4 = Some (u32 (p_usec p))) by (apply Hrd; unfold bs; fld; done).
  assert (F8 : rd32 bs 8 = Some incl) by (unfold bs; rdf).
  assert (F12 : rd32 bs 12 = Some orig) by (unfold bs; rdf).
  assert (F16 : rdn (Z.to_nat incl) bs 16 = Some fr) by (unfold bs; fld; done).
  unfold read_rec. rewrite F0. opt. rewrite F4. opt. rewrite F8. opt. rewrite F12. opt.
  rewrite F16. opt. do 2 f_equal. unfold bs.
  rewrite !app_assoc. replace (Z.to_nat (16 + incl)) with
    (length ((((le_bytes 4 (p_sec p) ++ le_bytes 4 (p_usec p)) ++ le_bytes 4 incl) ++ le_bytes 4 orig) ++ fr))
    by (rewrite !length_app, !length_le_bytes; lia).
  apply drop_app_length.
Qed.

Definition eth_type (p : packet) : Z :=
  if (nth 0 (p_data p) 0 >>> 4) =? 4 then ETH_P_IP else ETH_P_IPV6.
Definition view_frame (p : packet) : tagged :=
  Tagged (eth_type p) (p_data p ++ zeros (frame_pad p)) (u32 (p_uid p)) (appname_field appname (p_uid p)).

Lemma frame_head_ok p : bytes_ok (p_data p) -> bytes_ok (frame_head appname p).
Proof.
  intros Hb. pose proof (enc_packet_ok appname appname_ok PCAP_DUMP_WITH_TRAILER snap p Hb) as H.
  unfold enc_packet, enc_rec, frame in H. unfold bytes_ok in *. rewrite !Forall_app in H. apply H.
Qed.

Lemma read_frame_spec p :
  packet_ok PCAP_DUMP_WITH_TRAILER snap p ->
  read_frame (frame appname p) = Some (view_frame p).
Proof.
  intros (Hb & Hl & _). pose proof (frame_head_ok p Hb) as Hfb.
  pose proof (length_frame_head appname p) as Hh. unfold ETHHDR_SIZE in Hh.
  assert (Hp : 0 <= frame_pad p <= 3) by apply pad4_bound.
  pose proof (pad4_aligns (ETHHDR_SIZE + Z.of_nat (length (p_data p)))) as Ha.
  fold (frame_pad p) in Ha. unfold ETHHDR_SIZE in Ha.
  set (fcs := crc32 (frame_head appname p) 0).
  assert (Hfcs : crc_ref (frame_head appname p) 0 = fcs) 
    by (unfold fcs, crc32, crc_ref; rewrite crc32_loop_ref by (auto with cint lia); done).
  assert (Hbody : forall n, n = length (frame_head appname p) ->
    rdn n (frame appname p) 0 = Some (frame_head appname p))
    by (intros n ->; by apply rdn_here).
  assert (Hlen : Z.of_nat (length (frame appname p)) = 46 + Z.of_nat (length (p_data p)) + frame_pad p)
    by (unfold frame; rewrite length_app, length_le_bytes; lia).
  assert (Hm : Z.of_nat (length (frame appname p)) mod 4 = 0).
  { rewrite Hlen. replace (46 + _ + _) with (4 * 8 + (14 + Z.of_nat (length (p_data p)) + frame_pad p)) by lia.
    by apply mod4_add. }
  pose proof (length_appname appname (p_uid p)) as Hna. pose proof (length_zeros (frame_pad p)) as Hz.
  set (n := Z.of_nat (length (frame appname p))) in *.
  assert (Hfr : frame appname p = zeros 12 ++ le_bytes 2 (htons (eth_type p)) ++
    (p_data p ++ zeros (frame_pad p)) ++ le_bytes 4 (htonl PCAPDROID_TRAILER_MAGIC) ++
    le_bytes 4 (htonl (u32 (p_uid p))) ++ appname_field appname (p_uid p) ++ le_bytes 4 fcs ++ []).
  { unfold frame, frame_head, eth_bytes, trailer_bytes. fold (eth_type p).
    by rewrite app_nil_r, <-!app_assoc. }
  assert (Hw : forall v off, rdn 4 (frame appname p) off = Some (le_bytes 4 v) -> u_ok 32 v ->
    rd32 (frame appname p) off = Some v)
    by (intros v off E Hv; unfold rd32; rewrite E; cbn [fmap option_fmap option_map]; by rewrite le_val_4).
  assert (F12 : rd16 (frame appname p) 12 = Some (htons (eth_type p))).
  { rewrite Hfr. unfold rd16. fld. cbn [fmap option_fmap option_map]. rewrite le_val_le_bytes.
    f_equal. apply Z.mod_small. apply bswap16_ok. }
  assert (F14 : rdn (Z.to_nat (n - 46)) (frame appname p) 14 = Some (p_data p ++ zeros (frame_pad p)))
    by (rewrite Hfr; by fld).
  assert (Fm : rd32 (frame appname p) (n - 32) = Some (htonl PCAPDROID_TRAILER_MAGIC))
    by (apply Hw; [rewrite Hfr; by fld|apply bswap32_ok]).
  assert (Fu : rd32 (frame appname p) (n - 28) = Some (htonl (u32 (p_uid p))))
    by (apply Hw; [rewrite Hfr; by fld|apply bswap32_ok]).
  assert (Fa : rdn 20 (frame appname p) (n - 24) = Some (appname_field appname (p_uid p)))
    by (rewrite Hfr; by fld).
  assert (Fc : rd32 (frame appname p) (n - 4) = Some fcs)
    by (apply Hw; [rewrite Hfr; by fld|apply ulnot_ok; lia]).
  unfold read_frame. fold n. replace (46 <=? n) with true by lia. rewrite Hm. opt.
  rewrite F12. opt. rewrite F14. opt. rewrite Fm. opt. rewrite bswap32_involutive by done.
  rewrite Z.eqb_refl. opt. rewrite Fu. opt. rewrite Fa. opt.
  rewrite Hbody by lia. opt. rewrite Fc. opt. rewrite Hfcs, Z.eqb_refl. opt.
  unfold view_frame. rewrite bswap16_involutive, bswap32_involutive; [done| |].
  - apply uwrap_ok. lia.
  - unfold eth_type. by case_match.
Qed.
End views.

(** ** The dumper in use *)

Inductive dump_op :=
  | OpPacket (p : packet)
  | OpSecret (sec : list Z)
  | OpCheck
  | OpTime (now : Z).

Section runs.
Context (malloc : Z -> option (list Z)) (appname : Z -> option (list Z)).
Hypothesis malloc_ok : forall n mem, malloc n = Some mem -> Z.of_nat (length mem) = n /\ bytes_ok mem.
Hypothesis appname_ok : forall uid name, appname uid = Some name -> bytes_ok name.

(** Run the calls, collecting the packets and the secrets that are accepted. *)
Fixpoint run_dump (ops : list dump_op) (ps : list packet) (secs : list Z)
    : M pcap_dumper (list packet * list Z) :=
  match ops with
  | [] => mret (ps, secs)
  | OpPacket p :: ops =>
      b ← pcap_dump_packet appname (p_data p) (Z.of_nat (length (p_data p))) (p_sec p, p_usec p) (p_uid p);
      run_dump ops (if (b : bool) then ps ++ [p] else ps) secs
  | OpSecret sec :: ops =>
      b ← pcap_dump_secret malloc sec;
      run_dump ops ps (if (b : bool) then secs ++ sec ++ [10] else secs)
  | OpCheck :: ops => pcap_check_export ;; run_dump ops ps secs
  | OpTime now :: ops => modifyS (fun d => d <| now_ms := now |>) ;; run_dump ops ps secs
  end.

(** A whole dump: a new dumper, the calls, the end.  The accepted packets and
  secrets, and the bytes the callback received. *)
Definition dump_file (md : pcap_dump_mode_t) (snap max now : Z) (ops : list dump_op)
    : option (list packet * list Z * list Z) :=
  d ← pcap_new_dumper malloc md snap max true now true true;
  r ← run_dump ops [] [] d;
  out ← pcap_destroy_dumper (snd r);
  Some (fst r, concat (rev out)).

Definition op_ok (md : pcap_dump_mode_t) (snap : Z) (o : dump_op) : Prop :=
  match o with
  | OpPacket p => packet_ok md snap p
  | OpSecret sec => bytes_ok sec
  | _ => True
  end.
Definition op_packets (ops : list dump_op) : list packet :=
  omap (fun o => match o with OpPacket p => Some p | _ => None end) ops.
Definition no_secrets (ops : list dump_op) : Prop :=
  Forall (fun o => match o with OpSecret _ => False | _ => True end) ops.

Lemma wp_run_dump md snap ops d ps secs :
  dumping appname d ps secs -> mode d = md -> snaplen d = snap -> Forall (op_ok md snap) ops ->
  wp (run_dump ops ps secs) (fun r d' => dumping appname d' (fst r) (snd r) /\ same_mode d d' /\
    (no_secrets ops -> keylog_buf d = None -> keylog_buf d' = None) /\
    (max_dump_size d = 0 -> fst r = ps ++ op_packets ops)) d.
Proof.
  intros Hd Hm Hs Hops. revert d ps secs Hd Hm Hs.
  induction Hops as [|o ops Ho Hops IH]; intros d ps secs Hd Hm Hs; cbn [run_dump].
  { wp_step. split; [done|]. split; [done|]. split; [done|]. intros _. by rewrite app_nil_r. }
  destruct o as [p|sec| |now]; wp_step.
  - eapply wp_dump_packet; [done|done|by rewrite Hm, Hs|].
    intros b d1 Hd1 [Hmode Hkey] Hb. pose proof Hmode as (Hm1 & Hs1 & Hx1).
    eapply wp_mono; [apply IH; [done|congruence|congruence]|].
    intros r d2 (Hd2 & Hmode2 & Hkey2 & Hall). split_and!; [done|by eapply same_mode_trans| |].
    + intros Hno Hk. inversion Hno; subst. auto.
    + intros Hmax. rewrite Hall by congruence. destruct b; [|].
      * by rewrite <-app_assoc.
      * exfalso. specialize (Hb eq_refl). unfold exceeds in Hb. by rewrite Hx1, Hmax in Hb.
  - eapply wp_dump_secret; [done|done|done|]. intros b d1 Hd1 Hmode. pose proof Hmode as (Hm1 & Hs1 & Hx1).
    eapply wp_mono; [apply IH; [done|congruence|congruence]|].
    intros r d2 (Hd2 & Hmode2 & Hkey2 & Hall). split_and!; [done|by eapply same_mode_trans| |].
    + intros Hno. by inversion Hno.
    + intros Hmax. by rewrite Hall by congruence.
  - eapply wp_check_export; [done|]. intros b d1 Hd1 [Hmode Hkey]. pose proof Hmode as (Hm1 & Hs1 & Hx1).
    eapply wp_mono; [apply IH; [done|congruence|congruence]|].
    intros r d2 (Hd2 & Hmode2 & Hkey2 & Hall). split_and!; [done|by eapply same_mode_trans| |].
    + intros Hno Hk. inversion Hno; subst. auto.
    + intros Hmax. by rewrite Hall by congruence.
  - wp_step. eapply wp_mono; [apply IH; [|done|done]|].
    { destruct Hd as [Hok Hcb Hps Hsz Hst]. split; try done. by destruct Hok; split. }
    intros r d2 (Hd2 & Hmode2 & Hkey2 & Hall). split_and!; try done.
    intros Hno Hk. inversion Hno; subst. auto.
Qed.

Lemma dump_file_items md snap max now ops :
  0 <= snap <= 65535 -> u_ok 64 max -> is_Some (malloc PCAP_BUFFER_SIZE) ->
  Forall (op_ok md snap) ops ->
  exists ps secs out items, dump_file md snap max now ops = Some (ps, secs, out) /\
    out = concat (enc_item appname md snap <$> items) /\ Forall (item_ok md snap) items /\
    packets_of items = ps /\ Forall (packet_ok md snap) ps /\
    (max = 0 -> ps = op_packets ops /\ secrets_of items = secs) /\
    (no_secrets ops -> items = IPacket <$> ps) /\
    (0 < max -> u64 (Z.of_nat (length out)) < max).
Proof.
  intros Hs Hm [mem Hmem] Hops. unfold dump_file.
  destruct (pcap_new_dumper malloc md snap max true now true true) as [d|] eqn:E.
  2:{ unfold pcap_new_dumper in E. cbn [negb] in E. by rewrite Hmem in E. }
  destruct (new_dumper_dumping malloc appname malloc_ok _ _ _ _ _ _ _ E Hs Hm) as (Hd & Hmd & Hsn & Hmx).
  assert (Hk : keylog_buf d = None).
  { unfold pcap_new_dumper in E. cbn [negb] in E. rewrite Hmem in E. by injection E as <-. }
  destruct (wp_run_dump md snap ops d [] [] Hd Hmd Hsn Hops)
    as ([ps secs] & d1 & E1 & Hd1 & Hmode & Hno & Hall).
  cbn [mbind option_bind]. rewrite E1. cbn [mbind option_bind fst snd] in *.
  assert (Hex : wp export_buffer (fun _ d2 => dumping appname d2 ps secs /\ same_conf d1 d2 /\
    keylog_idx d2 = 0 /\ buffer_idx d2 = 0) d1)
    by (eapply (wp_export_buffer appname); [done|]; intros; by split_and!).
  destruct Hex as ([] & d2 & E2 & Hd2 & [Hmode2 Hkey2] & Hk2 & Hi2).
  unfold pcap_destroy_dumper. rewrite E2. cbn [mbind option_bind snd].
  destruct Hd2 as [Hok2 _ Hps Hsz (items & pend & Hit & Hout & Hbuf & Hpk & Hsec & Hnok)].
  destruct Hmode as (Hm1 & Hs1 & Hx1), Hmode2 as (Hm2 & Hs2 & Hx2).
  rewrite Hm2, Hm1, Hs2, Hs1, Hmd, Hsn, Hx2, Hx1, Hmx, Hi2 in *.
  assert (Hpend : pend = []).
  { destruct pend as [|p pend]; [done|]. exfalso. simpl in Hbuf. rewrite take_0 in Hbuf.
    symmetry in Hbuf. apply app_eq_nil in Hbuf as [Hbuf _].
    by destruct md. }
  subst pend. rewrite app_nil_r in Hpk. subst ps.
  eexists _, secs, _, items. split; [done|]. split_and!; try done.
  - intros Hz. split; [by rewrite (Hall Hz)|]. rewrite <-(Hsec Hz).
    unfold keylog. rewrite Hk2. case_match; by rewrite ?take_0, ?app_nil_r.
  - intros Hn. apply Hnok, Hkey2. by apply Hno.
  - intros Hpos. destruct (ok_max _ Hok2) as [_ Hlim]. rewrite Hx2 in Hlim.
    specialize (Hlim Hpos). rewrite Hsz, Z.add_0_r in Hlim. exact Hlim.
Qed.

(** What a reader of the plain and of the tagged PCAP format sees of a packet. *)
Definition view_rec (snap : Z) (p : packet) : rec :=
  Rec (u32 (p_sec p)) (u32 (p_usec p)) (Z.of_nat (length (p_data p))) (captured snap p).
Definition view_tagged (p : packet) : Z * Z * Z * tagged :=
  (u32 (p_sec p), u32 (p_usec p), Z.of_nat (length (frame appname p)), view_frame appname p).

(** C29: Every PCAPNG dump reads back: the blocks are the accepted packets, cut at the
  snap length and in order, and the secrets; without a size limit no packet
  is refused and no secret is lost. *)
Theorem pcapng_roundtrip snap max now ops :
  0 <= snap <= 65535 -> u_ok 64 max -> is_Some (malloc PCAP_BUFFER_SIZE) ->
  Forall (op_ok PCAPNG_DUMP snap) ops ->
  exists ps secs out items, dump_file PCAPNG_DUMP snap max now ops = Some (ps, secs, out) /\
    read_all read_block (length out) out = Some (view_block snap <$> items) /\
    packets_of items = ps /\
    (max = 0 -> ps = op_packets ops /\ secrets_of items = secs).
Proof.
  intros Hs Hm Hmem Hops.
  destruct (dump_file_items _ _ _ now _ Hs Hm Hmem Hops)
    as (ps & secs & out & items & E & Hout & Hit & Hpk & _ & Hall & _).
  exists ps, secs, out, items. split_and!; try done. rewrite Hout.
  apply read_all_concat with (P := item_ok PCAPNG_DUMP snap); [|done|done].
  intros [p|sec] rest Hi.
  - split; [done|]. by apply read_epb.
  - destruct Hi as [Hb Hl]. split; [done|]. by apply read_dsb.
Qed.

(** Every PCAP dump reads back: one record per accepted packet, in order, cut at
  the snap length. *)
Theorem pcap_roundtrip snap max now ops :
  0 <= snap <= 65535 -> u_ok 64 max -> is_Some (malloc PCAP_BUFFER_SIZE) ->
  Forall (op_ok PCAP_DUMP snap) ops -> no_secrets ops ->
  exists ps secs out, dump_file PCAP_DUMP snap max now ops = Some (ps, secs, out) /\
    read_all read_rec (length out) out = Some (view_rec snap <$> ps) /\
    (max = 0 -> ps = op_packets ops).
Proof.
  intros Hs Hm Hmem Hops Hn.
  destruct (dump_file_items _ _ _ now _ Hs Hm Hmem Hops)
    as (ps & secs & out & items & E & Hout & Hit & Hpk & Hps & Hall & Hno & _).
  exists ps, secs, out. split_and!; [done| |intros Hz; by apply Hall].
  rewrite Hout, (Hno Hn), enc_packets.
  apply read_all_concat with (P := packet_ok PCAP_DUMP snap); [|done|done].
  intros p rest (Hb & Hl & _). split; [done|]. pose proof (length_captured snap p) as Hc.
  apply read_rec_spec; [| |symmetry; apply Hc; lia]; unfold u_ok, caplen; lia.
Qed.

(** C30: A dump with trailers of packets that are not empty and not longer than the snap
  length, and of no TLS secrets, reads back: each frame carries its packet, padded, the
  UID and the name of its application, and a CRC that verifies; without a size limit no
  packet is refused.  A packet longer than the snap length loses its trailer
  ([trailer_lost_beyond_snaplen]). *)
Theorem trailer_roundtrip snap max now ops :
  0 <= snap <= 65535 -> u_ok 64 max -> is_Some (malloc PCAP_BUFFER_SIZE) ->
  Forall (op_ok PCAP_DUMP_WITH_TRAILER snap) ops -> no_secrets ops ->
  exists ps secs out, dump_file PCAP_DUMP_WITH_TRAILER snap max now ops = Some (ps, secs, out) /\
    read_all read_tagged (length out) out = Some (view_tagged <$> ps) /\
    (max = 0 -> ps = op_packets ops).
Proof.
  intros Hs Hm Hmem Hops Hn.
  destruct (dump_file_items _ _ _ now _ Hs Hm Hmem Hops)
    as (ps & secs & out & items & E & Hout & Hit & Hpk & Hps & Hall & Hno & _).
  exists ps, secs, out. split_and!; [done| |intros Hz; by apply Hall].
  rewrite Hout, (Hno Hn), enc_packets.
  apply read_all_concat with (P := packet_ok PCAP_DUMP_WITH_TRAILER snap); [|done|done].
  intros p rest Hp. split; [done|]. unfold read_tagged.
  assert (Hl : Z.of_nat (length (frame appname p)) <= 65535 + 64).
  { destruct Hp as (_ & Hl & _). pose proof (length_frame_head appname p).
    assert (0 <= frame_pad p <= 3) by apply pad4_bound.
    unfold frame, ETHHDR_SIZE in *. rewrite length_app, length_le_bytes. lia. }
  cbn [enc_packet]. rewrite read_rec_spec; [|unfold u_ok; lia|unfold u_ok; lia|done].
  cbn [mbind option_bind fst snd r_data]. rewrite (read_frame_spec appname snap) by done. done.
Qed.

(** C39: The size limit: what was exported stays below [max_dump_size] (a size of 64
  bits), whatever the mode, with the blocks of the secrets counted. *)
Theorem dump_size_limit md snap max now ops :
  0 <= snap <= 65535 -> u_ok 64 max -> is_Some (malloc PCAP_BUFFER_SIZE) ->
  Forall (op_ok md snap) ops -> 0 < max ->
  exists ps secs out, dump_file md snap max now ops = Some (ps, secs, out) /\
    u64 (Z.of_nat (length out)) < max.
Proof.
  intros Hs Hm Hmem Hops Hpos.
  destruct (dump_file_items _ _ _ now _ Hs Hm Hmem Hops)
    as (ps & secs & out & items & E & _ & _ & _ & _ & _ & _ & Hlim).
  exists ps, secs, out. auto.
Qed.
End runs.

(** ** The preamble *)

Definition enc_opt (ty : Z) (s : list Z) : list Z :=
  (le_bytes 2 ty ++ le_bytes 2 (Z.of_nat (length s))) ++ s ++ zeros (pad4 (Z.of_nat (length s))).
Definition opts_bytes (device os appver : list Z) : list Z :=
  enc_opt 2 device ++ enc_opt 3 os ++ enc_opt 4 appver.
Definition preamble (device os appver : list Z) (snap : Z) : list Z :=
  let opts := opts_bytes device os appver in
  let len := 28 + Z.of_nat (length opts) in
  shb_bytes len ++ enc_opt 2 device ++ enc_opt 3 os ++ enc_opt 4 appver ++ le_bytes 4 len ++
  idb_bytes snap ++ le_bytes 4 20.

(** Any PCAPNG block: its type and what is between the two lengths. *)
Definition read_any (bs : list Z) : option ((Z * list Z) * list Z) :=
  ty ← rd32 bs 0;
  len ← rd32 bs 4;
  guard_opt ((12 <=? len) && (len mod 4 =? 0)) ;;
  trail ← rd32 bs (len - 4);
  guard_opt (trail =? len) ;;
  body ← rdn (Z.to_nat (len - 12)) bs 8;
  Some ((ty, body), drop (Z.to_nat len) bs).

Lemma length_enc_opt ty s :
  Z.of_nat (length (enc_opt ty s)) = 4 + Z.of_nat (length s) + pad4 (Z.of_nat (length s)).
Proof.
  unfold enc_opt. pose proof (pad4_bound (Z.of_nat (length s))).
  rewrite !length_app, !length_le_bytes, !Nat2Z.inj_add, length_zeros. lia.
Qed.
Lemma enc_opt_aligned ty s : Z.of_nat (length (enc_opt ty s)) mod 4 = 0.
Proof. rewrite length_enc_opt, <-Z.add_assoc. apply (mod4_add _ 1), pad4_aligns. Qed.

Lemma opt_tot ty s :
  Z.of_nat (length s) <= 65000 -> opt_tot_length (pcapng_option ty s) = Z.of_nat (length (enc_opt ty s)).
Proof.
  intros Hs. rewrite length_enc_opt. unfold pcapng_option. cbn [opt_tot_length].
  pose proof (pad4_bound (Z.of_nat (length s))).
  rewrite (uwrap_id 16 (Z.of_nat (length s))) by (unfold u_ok; lia). by rewrite uwrap_id by (unfold u_ok; lia).
Qed.

(** An option is stored as specified, wherever it fits. *)
Lemma write_opt_spec off ty s mem mem' :
  Z.of_nat (length s) <= 65000 -> wrn off (enc_opt ty s) mem = Some mem' ->
  write_pcapng_opt off (pcapng_option ty s) mem = Some mem'.
Proof.
  intros Hs Hw. unfold write_pcapng_opt, pcapng_option.
  cbn [opt_type opt_length opt_padding opt_data].
  rewrite (uwrap_id 16 (Z.of_nat (length s))) by (unfold u_ok; lia).
  unfold enc_opt in Hw. apply wrn_seq in Hw as (m1 & E1 & Hw). apply wrn_seq in Hw as (m2 & E2 & Hw).
  rewrite E1. cbn [mbind option_bind]. rewrite rdn_take, take_ge by lia. cbn [mbind option_bind].
  rewrite length_app, !length_le_bytes in E2, Hw. change (Z.of_nat (2 + 2)) with 4 in *.
  rewrite E2. cbn [mbind option_bind]. exact Hw.
Qed.

Lemma length_opts device os appver :
  Z.of_nat (length (opts_bytes device os appver)) = Z.of_nat (length (enc_opt 2 device)) +
    Z.of_nat (length (enc_opt 3 os)) + Z.of_nat (length (enc_opt 4 appver)).
Proof. unfold opts_bytes. rewrite !length_app. lia. Qed.

Lemma pcapng_preamble_bytes malloc device os appver d mem :
  Z.of_nat (length device) <= 65000 -> Z.of_nat (length os) <= 65000 ->
  Z.of_nat (length appver) <= 65000 ->
  malloc (48 + Z.of_nat (length (opts_bytes device os appver))) = Some mem ->
  Z.of_nat (length mem) = 48 + Z.of_nat (length (opts_bytes device os appver)) ->
  get_pcapng_preamble malloc device os appver d =
    Some (Some (preamble device os appver (snaplen d))).
Proof.
  intros H1 H2 H3 Hm Hl. unfold get_pcapng_preamble. rewrite !opt_tot by done.
  pose proof (length_opts device os appver) as Ho.
  set (n1 := Z.of_nat (length (enc_opt 2 device))) in *.
  set (n2 := Z.of_nat (length (enc_opt 3 os))) in *.
  set (n3 := Z.of_nat (length (enc_opt 4 appver))) in *.
  replace (24 + n1 + n2 + n3 + 4) with (28 + Z.of_nat (length (opts_bytes device os appver))) by lia.
  replace (28 + Z.of_nat (length (opts_bytes device os appver)) + (16 + 4))
    with (48 + Z.of_nat (length (opts_bytes device os appver))) by lia.
  rewrite Hm. set (pre := preamble device os appver (snaplen d)).
  assert (Hpre : Z.of_nat (length pre) = Z.of_nat (length mem)).
  { rewrite Hl. unfold pre, preamble, shb_bytes, idb_bytes. rewrite !length_app, !length_le_bytes.
    fold n1 n2 n3. lia. }
  assert (Hw : wrn 0 pre mem = Some pre).
  { rewrite <-(app_nil_r mem), <-(app_nil_r pre) at 1. rewrite app_nil_r at 1.
    rewrite wrn_here by lia. by rewrite app_nil_r. }
  revert Hw. unfold pre at 1, preamble.
  set (len := 28 + _). intros Hw.
  apply wrn_seq in Hw as (m1 & E1 & Hw). apply wrn_seq in Hw as (m2 & E2 & Hw).
  apply wrn_seq in Hw as (m3 & E3 & Hw). apply wrn_seq in Hw as (m4 & E4 & Hw).
  apply wrn_seq in Hw as (m5 & E5 & Hw). apply wrn_seq in Hw as (m6 & E6 & Hw).
  change (Z.of_nat (length (shb_bytes len))) with 24 in *.
  change (Z.of_nat (length (le_bytes 4 len))) with 4 in *.
  change (Z.of_nat (length (idb_bytes (snaplen d)))) with 16 in *. fold n1 n2 n3 in E2, E3, E4, E5, E6, Hw.
  change (0 + 24) with 24 in *.
  rewrite E1. cbn [mbind option_bind]. rewrite (write_opt_spec _ _ _ _ _ H1 E2). cbn [mbind option_bind].
  rewrite (write_opt_spec _ _ _ _ _ H2 E3). cbn [mbind option_bind].
  rewrite (write_opt_spec _ _ _ _ _ H3 E4). cbn [mbind option_bind].
  rewrite E5. cbn [mbind option_bind].
  replace len with (24 + n1 + n2 + n3 + 4) by (unfold len; lia). rewrite E6. cbn [mbind option_bind].
  replace (24 + n1 + n2 + n3 + 20) with (24 + n1 + n2 + n3 + 4 + 16) by lia. by rewrite Hw.
Qed.

(** A block of any type. *)
Definition enc_any (b : Z * list Z) : list Z :=
  let len := 12 + Z.of_nat (length (snd b)) in
  le_bytes 4 (fst b) ++ le_bytes 4 len ++ snd b ++ le_bytes 4 len.

Lemma read_any_spec ty len body rest :
  u_ok 32 ty -> len = 12 + Z.of_nat (length body) -> len mod 4 = 0 -> len < 2 ^ 32 ->
  read_any (le_bytes 4 ty ++ le_bytes 4 len ++ body ++ le_bytes 4 len ++ rest) = Some ((ty, body), rest).
Proof.
  intros Ht Hl Hm Hmax. set (bs := _ ++ _).
  assert (Hd : drop (Z.to_nat len) bs = rest).
  { unfold bs. replace (Z.to_nat len) with
      (length ((((le_bytes 4 ty ++ le_bytes 4 len) ++ body) ++ le_bytes 4 len)))
      by (rewrite !length_app, !length_le_bytes; lia).
    rewrite !app_assoc. apply drop_app_length. }
  assert (F0 : rd32 bs 0 = Some ty) by (unfold bs; rdf).
  assert (F4 : rd32 bs 4 = Some len) by (unfold bs; rdf).
  assert (Ft : rd32 bs (len - 4) = Some len) by (unfold bs; rdf).
  assert (F8 : rdn (Z.to_nat (len - 12)) bs 8 = Some body) by (unfold bs; fld; done).
  unfold read_any. rewrite F0. opt. rewrite F4. opt. rewrite block_len by (split; [lia|done]). opt.
  rewrite Ft. opt. rewrite Z.eqb_refl. opt. rewrite F8. opt. by rewrite Hd.
Qed.

(** The preamble of a PCAPNG file, whatever the memory it is built in contained,
    is a section header block with the magic number, the version, an unknown
    section length and the three options, followed by an interface description
    block for raw IP with the snap length. *)
Theorem pcapng_preamble malloc device os appver d mem :
  mode d = PCAPNG_DUMP ->
  Z.of_nat (length device) <= 65000 -> Z.of_nat (length os) <= 65000 ->
  Z.of_nat (length appver) <= 65000 ->
  malloc (48 + Z.of_nat (length (opts_bytes device os appver))) = Some mem ->
  Z.of_nat (length mem) = 48 + Z.of_nat (length (opts_bytes device os appver)) ->
  exists out, pcap_get_preamble malloc device os appver d = Some (Some out) /\
    read_all read_any (length out) out = Some
      [(0x0A0D0D0A, le_bytes 4 0x1a2b3c4d ++ le_bytes 2 1 ++ le_bytes 2 0 ++ replicate 8 255 ++
          opts_bytes device os appver);
       (1, le_bytes 2 LINKTYPE_RAW ++ le_bytes 2 0 ++ le_bytes 4 (snaplen d))].
Proof.
  intros Hmode H1 H2 H3 Hm Hl. unfold pcap_get_preamble. rewrite decide_True by done.
  eexists. split; [by eapply pcapng_preamble_bytes|].
  unfold preamble, shb_bytes, idb_bytes. set (opts := opts_bytes _ _ _). set (len := 28 + _).
  assert (Ho : Z.of_nat (length opts) mod 4 = 0 /\ Z.of_nat (length opts) <= 4 * 65000).
  { unfold opts. rewrite length_opts. split.
    - rewrite <-Z.add_assoc, Zplus_mod, (Zplus_mod (Z.of_nat (length (enc_opt 3 os)))).
      by rewrite !enc_opt_aligned.
    - rewrite !length_enc_opt. pose proof (pad4_bound (Z.of_nat (length device))).
      pose proof (pad4_bound (Z.of_nat (length os))). pose proof (pad4_bound (Z.of_nat (length appver))). lia. }
  set (b1 := (0x0A0D0D0A, _)). set (b2 := (1, _)). set (out := _ ++ enc_opt 2 device ++ _).
  assert (Hout : out = concat (enc_any <$> [b1; b2])).
  { cbn [fmap list_fmap concat]. rewrite app_nil_r. unfold out, enc_any, b1, b2. cbn [fst snd].
    assert (Hlen : 12 + Z.of_nat (length (le_bytes 4 0x1a2b3c4d ++ le_bytes 2 1 ++ le_bytes 2 0 ++
      replicate 8 255 ++ opts)) = len)
      by (rewrite !length_app, !length_le_bytes, length_replicate; unfold len; lia).
    rewrite Hlen. unfold opts, opts_bytes. by rewrite <-!app_assoc. }
  rewrite Hout at 2. rewrite (read_all_concat read_any enc_any id
    (fun b => u_ok 32 (fst b) /\ Z.of_nat (length (snd b)) mod 4 = 0 /\ Z.of_nat (length (snd b)) < 2 ^ 20)).
  - done.
  - intros [ty body] rest (Ht & Hb & Hmax). split; [done|]. unfold enc_any. cbn [fst snd] in *.
    rewrite <-!app_assoc. apply read_any_spec; [done|done|by apply (mod4_add _ 3)|lia].
  - apply Forall_cons. split; [|apply Forall_cons; split; [|constructor]]; split; try done.
    unfold b1. cbn [snd]. rewrite !length_app, !length_le_bytes, length_replicate.
    replace (Z.of_nat _) with (4 * 4 + Z.of_nat (length opts)) by lia.
    split; [apply mod4_add; apply Ho|lia].
  - by rewrite Hout.
Qed.

(** ** A concrete dump *)

Definition malloc_ex (n : Z) : option (list Z) :=
  if n <? 0 then None else Some (replicate (Z.to_nat n) 0xAA).
Definition appname_ex (uid : Z) : option (list Z) := Some [97; 112; 112].

Lemma malloc_ex_ok n mem : malloc_ex n = Some mem -> Z.of_nat (length mem) = n /\ bytes_ok mem.
Proof.
  unfold malloc_ex. destruct (Z.ltb_spec n 0); [done|]. intros [= <-].
  rewrite length_replicate. split; [lia|by apply Forall_replicate].
Qed.
Lemma appname_ex_ok uid name : appname_ex uid = Some name -> bytes_ok name.
Proof. intros [= <-]. by repeat constructor. Qed.
Lemma malloc_ex_buffer : is_Some (malloc_ex PCAP_BUFFER_SIZE).
Proof. by eexists. Qed.

(** An IPv4 packet of [n] bytes. *)
Definition ip_packet (n : nat) : packet := Packet 1700000000 250000 10100 (0x45 :: replicate (n - 1) 7).
Definition ops_ex : list dump_op := [OpPacket (ip_packet 41); OpTime 5000; OpCheck; OpPacket (ip_packet 30)].

Lemma ip_packet_ok md snap n :
  (1 <= n <= 1000)%nat -> Z.of_nat n <= snap -> packet_ok md snap (ip_packet n).
Proof.
  intros Hn Hs. unfold packet_ok. simpl. rewrite length_replicate. split_and!; [|lia|lia].
  constructor; [done|by apply Forall_replicate].
Qed.
Lemma ops_ex_ok md : Forall (op_ok md 64) ops_ex.
Proof.
  assert (H : forall n, (1 <= n <= 64)%nat -> op_ok md 64 (OpPacket (ip_packet n)))
    by (intros n Hn; apply ip_packet_ok; lia).
  unfold ops_ex. rewrite !Forall_cons. split_and!; first [done|apply H; lia|constructor].
Qed.

Lemma pcapng_roundtrip_witness :
  let ops := OpSecret [1; 2; 3] :: ops_ex in
  exists ps secs out items, dump_file malloc_ex appname_ex PCAPNG_DUMP 64 0 0 ops = Some (ps, secs, out) /\
    read_all read_block (length out) out = Some (view_block 64 <$> items) /\
    packets_of items = ps /\ (0 = 0 -> ps = op_packets ops /\ secrets_of items = secs).
Proof.
  apply (pcapng_roundtrip malloc_ex appname_ex malloc_ex_ok appname_ex_ok 64 0 0);
    [lia|done|apply malloc_ex_buffer|constructor; [by repeat constructor|apply ops_ex_ok]].
Defined.

Lemma pcap_roundtrip_witness :
  exists ps secs out, dump_file malloc_ex appname_ex PCAP_DUMP 64 0 0 ops_ex = Some (ps, secs, out) /\
    read_all read_rec (length out) out = Some (view_rec 64 <$> ps) /\ (0 = 0 -> ps = op_packets ops_ex).
Proof.
  apply (pcap_roundtrip malloc_ex appname_ex malloc_ex_ok appname_ex_ok 64 0 0);
    [lia|done|apply malloc_ex_buffer|apply ops_ex_ok|by repeat constructor].
Defined.

Lemma trailer_roundtrip_witness :
  exists ps secs out, dump_file malloc_ex appname_ex PCAP_DUMP_WITH_TRAILER 64 0 0 ops_ex = Some (ps, secs, out) /\
    read_all read_tagged (length out) out = Some (view_tagged appname_ex <$> ps) /\
    (0 = 0 -> ps = op_packets ops_ex).
Proof.
  apply (trailer_roundtrip malloc_ex appname_ex malloc_ex_ok appname_ex_ok 64 0 0);
    [lia|done|apply malloc_ex_buffer|apply ops_ex_ok|by repeat constructor].
Defined.

Lemma dump_size_limit_witness :
  exists ps secs out, dump_file malloc_ex appname_ex PCAPNG_DUMP 64 200 0 ops_ex = Some (ps, secs, out) /\
    u64 (Z.of_nat (length out)) < 200.
Proof.
  apply (dump_size_limit malloc_ex appname_ex malloc_ex_ok appname_ex_ok PCAPNG_DUMP 64 200 0);
    [lia|done|apply malloc_ex_buffer|apply ops_ex_ok|lia].
Defined.

Definition dumper_ex (md : pcap_dump_mode_t) : pcap_dumper := Dumper md true 64 0 0 0 [] 0 None 0 0 [].
Lemma pcapng_preamble_witness :
  exists out, pcap_get_preamble malloc_ex [80; 88] [65] [49; 46; 48] (dumper_ex PCAPNG_DUMP) = Some (Some out) /\
    read_all read_any (length out) out = Some
      [(0x0A0D0D0A, le_bytes 4 0x1a2b3c4d ++ le_bytes 2 1 ++ le_bytes 2 0 ++ replicate 8 255 ++
          opts_bytes [80; 88] [65] [49; 46; 48]);
       (1, le_bytes 2 LINKTYPE_RAW ++ le_bytes 2 0 ++ le_bytes 4 64)].
Proof.
  apply (pcapng_preamble malloc_ex [80; 88] [65] [49; 46; 48] (dumper_ex PCAPNG_DUMP) (replicate 72 0xAA));
    first [reflexivity | vm_compute; discriminate].
Defined.

(** A packet of [n] bytes dumped with a trailer and a snap length of 64, into
    memory filled with 0xAA: what the reader finds of its record. *)
Definition dump_one (n : nat) : option rec :=
  let d := Dumper PCAP_DUMP_WITH_TRAILER true 64 0 0 0 (replicate 400 0xAA) 0 None 0 0 [] in
  let p := ip_packet n in
  r ← dump_packet_pcap appname_ex (p_data p) (Z.of_nat (length (p_data p))) (p_sec p, p_usec p) (p_uid p)
        (pcap_rec_size d (Z.of_nat n)) d;
  fst <$> read_rec (buffer (snd r)).

(** Why the packets of a dump with trailers must not exceed the snap length: a
    longer packet is copied beyond it, over the place of the trailer, which is
    then missing; when it is longer by a few bytes only, the record ends with
    what the memory held before. *)
Theorem trailer_lost_beyond_snaplen :
  (t_uid <$> (r ← dump_one 64; read_frame (r_data r))) = Some 10100 /\
  (r ← dump_one 200; read_frame (r_data r)) = None /\
  (r ← dump_one 200; Some (drop 14 (r_data r))) = Some (0x45 :: replicate 97 7) /\
  (r ← dump_one 70; Some (drop 84 (r_data r))) = Some (replicate 28 0xAA).
Proof. split_and!; vm_compute; reflexivity. Qed.
End PcapRead.
