(* ===== verification/PcapSafe.v ===== *)
(** * The dumper stays well formed

    Whatever was dumped before, every operation of a well-formed dumper is
    defined and leaves it well formed, so the capture can use it at any time. *)

From S2P Require Import Prelude PcapDump PcapSpec PcapRead.

Module PcapSafe.
Import PcapDump PcapSpec.

(** The packets of the capture: below 64K, at the start of memory that is not empty. *)
Definition captured_ok (bytes : list Z) (n : Z) : Prop :=
  bytes_ok bytes /\ 0 <= n <= 65535 /\ n <= Z.of_nat (length bytes) /\ 1 <= Z.of_nat (length bytes).

Section safe.
Context (appname : Z -> option (list Z)).
Hypothesis appname_ok : forall uid name, appname uid = Some name -> bytes_ok name.

Lemma dumper_ok_size d n :
  dumper_ok d -> exceeds d n = false ->
  u_ok 64 (max_dump_size d) /\ (0 < max_dump_size d -> u64 (dump_size d + n) < max_dump_size d).
Proof.
  intros Hok He. split; [apply (ok_max _ Hok)|]. intros Hm. unfold exceeds in He.
  rewrite (proj2 (Z.ltb_lt _ _) Hm) in He. simpl in He. by apply Z.leb_gt in He.
Qed.

Lemma wp_callback buf n (Q : unit -> pcap_dumper -> Prop) d :
  0 <= n <= Z.of_nat (length buf) -> (forall l, Q tt (d <| dumped := l |>)) ->
  wp (run_dump_cb buf n) Q d.
Proof.
  intros Hn HQ. unfold run_dump_cb. wp_step. wp_step. apply wp_when; intros _.
  - wp_step. eapply wp_lift; [apply rdn_take; lia|]. wp_step. apply HQ.
  - specialize (HQ (dumped d)). by destruct d.
Qed.

Lemma wp_export_keylog_fine (Q : unit -> pcap_dumper -> Prop) d :
  dumper_ok d ->
  (forall d', dumper_ok d' -> buffer_idx d' = buffer_idx d -> mode d' = mode d ->
     snaplen d' = snaplen d -> Q tt d') ->
  wp export_keylog_buffer Q d.
Proof.
  intros Hok HQ. unfold export_keylog_buffer. wp_step. wp_step.
  destruct (Z.eqb_spec (keylog_idx d) 0) as [Hz|Hz]; [wp_step; by apply HQ|]. cbv zeta.
  destruct (exceeds d _) eqn:Eex.
  { wp_step. apply HQ; [|done..]. destruct Hok. by split. }
  destruct (keylog_buf d) as [kb|] eqn:Hkb; [|by destruct Hz; apply (ok_kidx _ Hok)].
  destruct (dsb_stores d kb Hok Hkb) as (Hlen & Hkok & k1 & k2 & r & E1 & E2 & E3 & Hr & Hlr).
  pose proof (ok_kidx _ Hok) as [Hk _].
  assert (Hsize : dsb_size (keylog d) = KEYLOG_BUFFER_HEADROOM + keylog_idx d + pad4 (keylog_idx d) + 4)
    by (unfold dsb_size; rewrite Hlen, Z2Nat.id by lia; done).
  rewrite Hsize in E1, E3. set (n := KEYLOG_BUFFER_HEADROOM + _ + _ + 4) in *.
  wp_step. eapply wp_lift; [done|]. wp_step. eapply wp_lift; [exact E1|].
  wp_step. eapply wp_lift; [exact E2|]. wp_step. eapply wp_lift; [exact E3|].
  wp_step. wp_step. wp_step. apply wp_callback.
  { rewrite length_app. pose proof (length_dsb (keylog d)). pose proof (pad4_bound (keylog_idx d)).
    unfold n, KEYLOG_BUFFER_HEADROOM in *. lia. }
  intros out. wp_step. apply HQ; [|done..].
  pose proof (dumper_ok_size d n Hok Eex) as Hm. destruct Hok. split; try done; [apply u64_ok|].
  intros kb' Hkb'. change (Some (enc_dsb (keylog d) ++ r) = Some kb') in Hkb'.
  apply (inj Some) in Hkb'. subst kb'. split; [|rewrite Hlr; by apply ok_key0].
  unfold bytes_ok, enc_dsb. solve_bytes; apply zeros_ok.
Qed.

Lemma wp_export_fine (Q : unit -> pcap_dumper -> Prop) d :
  dumper_ok d ->
  (forall d', dumper_ok d' -> buffer_idx d' = 0 -> mode d' = mode d -> snaplen d' = snaplen d -> Q tt d') ->
  wp export_buffer Q d.
Proof.
  intros Hd HQ. unfold export_buffer. wp_step. apply wp_export_keylog_fine; [done|].
  intros d1 Hok1 _ Hm1 Hn1. wp_step. wp_step.
  destruct (Z.eqb_spec (buffer_idx d1) 0) as [Hz|Hz]; [wp_step; by apply HQ|].
  pose proof (ok_idx _ Hok1). pose proof (ok_buf _ Hok1) as [Hl _].
  wp_step. apply wp_callback; [lia|]. intros out. wp_step. apply HQ; [|done..].
  destruct Hok1. by split.
Qed.

Lemma wp_check_export_fine (Q : bool -> pcap_dumper -> Prop) d :
  dumper_ok d -> (forall b d', dumper_ok d' -> Q b d') -> wp pcap_check_export Q d.
Proof.
  intros Hd HQ. unfold pcap_check_export. wp_step. wp_step. case_match; [|wp_step; by apply HQ].
  wp_step. apply wp_export_fine; [done|]. intros. wp_step. by apply HQ.
Qed.

(** In the format with the trailer, what a packet leaves of the record holds the trailer
    or not, and the stores stay in it. *)
Lemma wp_dump_trailer bytes n tv uid (Q : unit -> pcap_dumper -> Prop) d :
  dumper_ok d -> captured_ok bytes n -> mode d = PCAP_DUMP_WITH_TRAILER ->
  let tot := pcap_rec_size d n in
  buffer_idx d + tot <= PCAP_BUFFER_SIZE ->
  (forall b, Z.of_nat (length b) = PCAP_BUFFER_SIZE -> bytes_ok b -> Q tt (d <| buffer := b |>)) ->
  wp (dump_packet_pcap appname bytes n tv uid tot) Q d.
Proof.
  intros Hok (Hb & Hn & Hl & Hl1) Hm tot Hfit HQ. pose proof (ok_snap _ Hok) as Hsnap. pose proof (ok_idx _ Hok) as Hi.
  destruct (ok_buf _ Hok) as [Hbl Hbb].
  set (k := cmin n (snaplen d)) in *. set (m := k + 46 + pad4 (k + 46)).
  assert (Hk : 0 <= k <= 65535) by (unfold k; lia).
  assert (Htot : tot = m + 16).
  { unfold tot, pcap_rec_size, TRAILER_SIZE, ETHHDR_SIZE, PCAP_REC_SIZE, m. by rewrite Hm. }
  assert (Hm4 : m mod 4 = 0) by apply pad4_aligns.
  pose proof (pad4_bound (k + 46)) as Hpad.
  assert (Hmr : k + 46 <= m <= k + 49) by (unfold m; lia). clearbody m.
  unfold dump_packet_pcap. wp_step. wp_step. rewrite Hm. cbv zeta. rewrite bool_decide_true by done.
  unfold PCAP_REC_SIZE, ETHHDR_SIZE in *. rewrite Htot in *. clearbody tot.
  replace (m + 16 - 16) with m by lia.
  rewrite (uwrap_id 32 m) by (unfold u_ok; lia). rewrite (uwrap_id 32 (m - 14)) by (unfold u_ok; lia).
  set (base := buffer_idx d + 16). set (cut := cmin n (m - 14)).
  assert (Hcut : 0 <= cut <= n /\ cut <= m - 14) by (unfold cut; lia). clearbody cut.
  destruct (rd8_is_Some bytes 0) as (b0 & -> & _); [lia..|done|]. cbn [mbind option_bind].
  destruct (wrn_safe base (eth_bytes b0) (buffer d)) as (b1 & -> & L1 & B1);
    [unfold base; lia|unfold base, eth_bytes in *; rewrite length_app, length_le_bytes; simpl; lia| |done|].
  { unfold eth_bytes. solve_bytes. }
  wp_step. eapply wp_lift; [done|].
  destruct (rdn_is_Some (Z.to_nat cut) bytes 0) as (data & -> & Ld & Bd); [lia..|done|].
  wp_step. eapply wp_lift; [done|].
  destruct (wrn_safe (base + 14) data b1) as (b2 & -> & L2 & B2); [unfold base; lia..|done|done|].
  wp_step. eapply wp_lift; [done|].
  wp_step. cbn [andb].
  assert (Hend : forall b ol, length b = length (buffer d) -> bytes_ok b ->
    wp (buf ← liftO (wrn (buffer_idx d) (le_bytes 4 tv.1 ++ le_bytes 4 tv.2 ++ le_bytes 4 m ++ le_bytes 4 ol) b);
        modifyS (fun d => d <| buffer := buf |>)) Q d).
  { intros b ol Lb Bb.
    destruct (wrn_safe (buffer_idx d) (le_bytes 4 tv.1 ++ le_bytes 4 tv.2 ++ le_bytes 4 m ++ le_bytes 4 ol) b)
      as (b' & -> & L' & B'); [lia|rewrite !length_app, !length_le_bytes; lia|solve_bytes|done|].
    wp_step. eapply wp_lift; [done|]. wp_step. apply HQ; [lia|done]. }
  destruct (TRAILER_SIZE <=? u32 (m - (14 + cut))) eqn:Et.
  2:{ eapply wp_lift; [done|]. cbn [fst snd]. apply Hend; [lia|done]. }
  apply Z.leb_le in Et. rewrite uwrap_id in Et by (unfold u_ok; lia). unfold TRAILER_SIZE in *.
  set (off := 14 + cut) in *. pose proof (pad4_bound off) as Hp. pose proof (pad4_aligns off) as Ha.
  assert (Hoff : 0 <= off) by (unfold off; lia). clearbody off.
  assert (Hroom : off + pad4 off + 32 <= m).
  { assert ((m - (off + pad4 off)) mod 4 = 0) as Hd by (rewrite Zminus_mod, Hm4, Ha; done).
    apply Z.mod_divide in Hd as [j Hj]; [|lia]. lia. }
  destruct (wrn_safe (base + off) (zeros (pad4 off)) b2) as (b3 & -> & L3 & B3);
    [unfold base; lia|unfold zeros; rewrite length_replicate; unfold base; lia|apply zeros_ok|done|].
  cbn [mbind option_bind].
  destruct (wrn_safe (base + off + pad4 off) (trailer_bytes appname uid ++ zeros 4) b3) as (b4 & -> & L4 & B4);
    [unfold base; lia| | |done|].
  { unfold trailer_bytes. rewrite !length_app, !length_le_bytes, length_appname.
    change (length (zeros 4)) with 4%nat. unfold base. lia. }
  { unfold trailer_bytes. pose proof (appname_field_ok appname appname_ok uid). solve_bytes. }
  cbn [mbind option_bind].
  destruct (rdn_is_Some (Z.to_nat (m - 4)) b4 base) as (fr & -> & Lf & Bf); [unfold base; lia..|done|].
  cbn [mbind option_bind].
  destruct (wrn_safe (base + off + pad4 off + 28) (le_bytes 4 (Crc32.Crc32.crc32 fr 0)) b4) as (b5 & -> & L5 & B5);
    [unfold base; lia|rewrite length_le_bytes; unfold base; lia|apply le_bytes_ok|done|].
  cbn [mbind option_bind]. eapply wp_lift; [done|]. cbn [fst snd]. apply Hend; [lia|done].
Qed.

(** The other formats only read the packet. *)
Lemma dump_packet_take bytes n tv uid tot d :
  mode d <> PCAP_DUMP_WITH_TRAILER -> n <= Z.of_nat (length bytes) ->
  match mode d with
  | PCAPNG_DUMP => dump_packet_pcapng bytes n tv tot
  | _ => dump_packet_pcap appname bytes n tv uid tot
  end d =
  match mode d with
  | PCAPNG_DUMP => dump_packet_pcapng (take (Z.to_nat n) bytes) n tv tot
  | _ => dump_packet_pcap appname (take (Z.to_nat n) bytes) n tv uid tot
  end d.
Proof.
  intros Hm Hl.
  assert (Hr : forall k, rdn (Z.to_nat (cmin n k)) bytes 0 = rdn (Z.to_nat (cmin n k)) (take (Z.to_nat n) bytes) 0).
  { intros k. rewrite <-(Nat2Z.id (Z.to_nat (cmin n k))).
    rewrite !rdn_take by (rewrite ?length_take; lia). by rewrite take_take, Nat.min_l by lia. }
  destruct (mode d) eqn:Em; try done;
    unfold dump_packet_pcapng, dump_packet_pcap; mstep; rewrite ?Em; rewrite ?bool_decide_false by done;
    cbn [andb]; cbv zeta; by rewrite Hr.
Qed.

(** The record of any packet, in the three formats. *)
Lemma wp_dump_record bytes n tv uid (Q : unit -> pcap_dumper -> Prop) d :
  dumper_ok d -> captured_ok bytes n ->
  let tot := pcap_rec_size d n in
  buffer_idx d + tot <= PCAP_BUFFER_SIZE ->
  (forall b, Z.of_nat (length b) = PCAP_BUFFER_SIZE -> bytes_ok b -> Q tt (d <| buffer := b |>)) ->
  wp (match mode d with
      | PCAPNG_DUMP => dump_packet_pcapng bytes n tv tot
      | _ => dump_packet_pcap appname bytes n tv uid tot
      end) Q d.
Proof.
  intros Hok Hc tot Hfit HQ. pose proof Hc as (Hb & Hn & Hl & Hl1). pose proof (ok_snap _ Hok) as Hsnap.
  destruct (decide (mode d = PCAP_DUMP_WITH_TRAILER)) as [Hm|Hm].
  { rewrite Hm. by apply wp_dump_trailer. }
  set (p := Packet tv.1 tv.2 uid (take (Z.to_nat n) bytes)).
  assert (Hln : Z.of_nat (length (take (Z.to_nat n) bytes)) = n) by (rewrite length_take; lia).
  assert (Hp : packet_ok (mode d) (snaplen d) p) by (split_and!; [by apply Forall_take|cbn; lia|done]).
  pose proof (length_enc_packet appname d p ltac:(lia) Hp) as He. cbn [p_data p] in He. rewrite Hln in He. fold tot in He.
  pose proof (dump_packet_run appname d p Hok Hp ltac:(lia)) as Hrun. rewrite He in Hrun. cbn [p_data p] in Hrun.
  rewrite Hln in Hrun. eapply wp_eq; [rewrite dump_packet_take by done|].
  { destruct tv. exact Hrun. }
  destruct (ok_buf _ Hok). pose proof (ok_idx _ Hok). apply HQ.
  - rewrite !length_app, length_take, length_drop. lia.
  - apply Forall_app_2; [by apply Forall_take|]. apply Forall_app_2; [|by apply Forall_drop].
    apply enc_packet_ok; [done|]. by apply Forall_take.
Qed.

Lemma rec_size_pos d n : 0 <= snaplen d -> 0 <= n -> 0 <= pcap_rec_size d n.
Proof.
  intros Hs Hn. unfold pcap_rec_size, EPB_SIZE, TRAILER_SIZE, ETHHDR_SIZE, PCAP_REC_SIZE.
  destruct (mode d); cbv zeta; [lia| |]; match goal with |- context [pad4 ?x] => pose proof (pad4_bound x) end; lia.
Qed.

Lemma wp_dump_packet_fine bytes n tv uid (Q : bool -> pcap_dumper -> Prop) d :
  dumper_ok d -> captured_ok bytes n -> (forall b d', dumper_ok d' -> Q b d') ->
  wp (pcap_dump_packet appname bytes n tv uid) Q d.
Proof.
  intros Hd Hb HQ. pose proof Hb as (_ & Hn & _).
  assert (Hrest : forall d1, dumper_ok d1 -> pcap_rec_size d1 n = pcap_rec_size d n ->
    wp (d1 ← getS;
        if PCAP_BUFFER_SIZE - buffer_idx d1 <=? pcap_rec_size d n then mret false
        else if exceeds d1 (pcap_rec_size d n) then mret false
        else
          (match mode d1 with
           | PCAPNG_DUMP => dump_packet_pcapng bytes n tv (pcap_rec_size d n)
           | _ => dump_packet_pcap appname bytes n tv uid (pcap_rec_size d n)
           end) ;;
          modifyS (fun d' => d' <| buffer_idx ::= Z.add (pcap_rec_size d n) |>
                                <| dump_size ::= fun k => u64 (k + pcap_rec_size d n) |>) ;;
          pcap_check_export ;; mret true) Q d1).
  { intros d1 Hok1 Hsz. wp_step. wp_step. rewrite <-Hsz.
    destruct (Z.leb_spec (PCAP_BUFFER_SIZE - buffer_idx d1) (pcap_rec_size d1 n)); [wp_step; by apply HQ|].
    destruct (exceeds d1 _) eqn:Eex; [wp_step; by apply HQ|].
    wp_step. apply wp_dump_record; [done|done|lia|]. intros b Lb Bb. wp_step. wp_step. wp_step.
    apply wp_check_export_fine; [|intros b2 d2 Hd2; wp_step; by apply HQ].
    pose proof (dumper_ok_size d1 _ Hok1 Eex) as Hm. pose proof (ok_idx _ Hok1) as Hi.
    pose proof (rec_size_pos d1 n (proj1 (ok_snap _ Hok1)) ltac:(lia)) as Hpos.
    destruct Hok1. split; try done; [cbn; lia|apply u64_ok]. }
  unfold pcap_dump_packet. wp_step. wp_step. wp_step. apply wp_when; intros E.
  - apply wp_export_fine; [done|]. intros d1 Hd1 _ Hm1 Hn1. apply Hrest; [done|].
    unfold pcap_rec_size. by rewrite Hm1, Hn1.
  - by apply Hrest.
Qed.

Lemma destroy_dumper_fine d : dumper_ok d -> is_Some (pcap_destroy_dumper d).
Proof.
  intros Hd. destruct (wp_export_fine (fun _ _ => True) d Hd) as ([] & d' & E & _); [done|].
  unfold pcap_destroy_dumper. rewrite E. by eexists.
Qed.

End safe.

(** ** Creation, secrets and preamble *)

Section memory.
Context (malloc : Z -> option (list Z)).
Hypothesis malloc_ok : forall n mem, malloc n = Some mem -> Z.of_nat (length mem) = n /\ bytes_ok mem.

Lemma new_dumper_fine md snap max cb now alloc mutex d :
  pcap_new_dumper malloc md snap max cb now alloc mutex = Some d ->
  0 <= snap <= 65535 -> u_ok 64 max ->
  dumper_ok d.
Proof.
  unfold pcap_new_dumper. intros E Hs Hm. destruct alloc; [|done]. cbn [negb] in E.
  destruct (malloc PCAP_BUFFER_SIZE) as [mem|] eqn:Em; [|done]. destruct mutex; [|done].
  injection E as <-. destruct (malloc_ok _ _ Em). by split.
Qed.

Lemma wp_dump_secret_fine sec (Q : bool -> pcap_dumper -> Prop) d :
  dumper_ok d -> bytes_ok sec -> (forall b d', dumper_ok d' -> Q b d') ->
  wp (pcap_dump_secret malloc sec) Q d.
Proof.
  intros Hok Hb HQ. unfold pcap_dump_secret. wp_step. wp_step. cbv zeta.
  set (full := KEYLOG_BUFFER_HEADROOM + PCAP_BUFFER_SIZE + KEYLOG_BUFFER_TAILROOM).
  destruct (match keylog_buf d with Some kb => Some kb | None => malloc full end) as [kb|] eqn:Ekb;
    [|wp_step; by apply HQ].
  assert (Hkb : bytes_ok kb /\ Z.of_nat (length kb) = full).
  { destruct (keylog_buf d) eqn:E; [injection Ekb as ->; by apply (ok_key _ Hok)|].
    destruct (malloc_ok _ _ Ekb). by split. }
  destruct Hkb as [Hkb Hlen]. pose proof (ok_kidx _ Hok) as [Hk _].
  wp_step. wp_step. cbv zeta. set (n := Z.of_nat (length sec)).
  destruct (PCAP_BUFFER_SIZE <=? _) eqn:Efull.
  { wp_step. apply HQ. destruct Hok. split; try done. by intros kb' [= <-]. }
  apply Z.leb_gt in Efull. unfold full, KEYLOG_BUFFER_HEADROOM, KEYLOG_BUFFER_TAILROOM in *.
  destruct (wrn_safe (16 + keylog_idx d) sec kb) as (k1 & E1 & Hl1 & Hb1); [lia|lia|done|done|].
  destruct (wrn_safe (16 + (keylog_idx d + n)) [10] k1) as (k2 & E2 & Hl2 & Hb2);
    [lia|simpl; lia|by repeat constructor|done|].
  wp_step. eapply wp_lift; [exact E1|]. wp_step. eapply wp_lift; [exact E2|]. wp_run.
  apply HQ. destruct Hok. split; try done.
  - change (0 <= n + 1 + keylog_idx d < PCAP_BUFFER_SIZE /\ (Some k2 = None -> n + 1 + keylog_idx d = 0)).
    split; [lia|done].
  - intros kb' Hkb'. change (Some k2 = Some kb') in Hkb'. injection Hkb' as <-.
    split; [done|]. unfold KEYLOG_BUFFER_HEADROOM, KEYLOG_BUFFER_TAILROOM. lia.
Qed.

(** The strings of the platform are short. *)
Definition platform_ok (device os appver : list Z) : Prop :=
  Z.of_nat (length device) <= 65000 /\ Z.of_nat (length os) <= 65000 /\
  Z.of_nat (length appver) <= 65000.

Lemma preamble_fine device os appver d :
  platform_ok device os appver -> is_Some (pcap_get_preamble malloc device os appver d).
Proof.
  intros (H1 & H2 & H3). unfold pcap_get_preamble. case_decide.
  - destruct (malloc (48 + Z.of_nat (length (PcapRead.opts_bytes device os appver)))) as [mem|] eqn:E.
    + destruct (malloc_ok _ _ E) as [Hl _]. eexists. by eapply PcapRead.pcapng_preamble_bytes.
    + unfold get_pcapng_preamble. rewrite !PcapRead.opt_tot by done.
      rewrite PcapRead.length_opts in E.
      match goal with |- context [malloc ?n] => replace n with (48 + (Z.of_nat (length (PcapRead.enc_opt 2 device)) +
        Z.of_nat (length (PcapRead.enc_opt 3 os)) + Z.of_nat (length (PcapRead.enc_opt 4 appver)))) by lia end.
      rewrite E. by eexists.
  - unfold get_pcap_file_header, PCAP_HDR_SIZE. destruct (malloc 24) as [mem|] eqn:E; [|by eexists].
    destruct (malloc_ok _ _ E) as [Hl Hb].
    match goal with |- context [wrn 0 ?b mem] => assert (Hfit : 0 + Z.of_nat (length b) <= Z.of_nat (length mem));
      [|assert (Hok : bytes_ok b) by (solve_bytes; by case_match);
        destruct (wrn_safe 0 b mem) as (m & -> & _); [lia|exact Hfit|done|done|by eexists]] end.
    rewrite Hl, !length_app, !length_le_bytes. lia.
Qed.
End memory.
End PcapSafe.
