(* ===== verification/Patricia.v ===== *)
(** * The Patricia tree of address prefixes
    (submodules/nDPI/src/lib/third_party/src/ndpi_patricia.c)

    The tree behind the IP blacklists.  A node tests one bit of the address;
    a node without a prefix ("glue") only joins two subtrees.  The parent
    pointers, which the insertion follows upwards, are the frames of a zipper.
    The debug build of the code stops on a failed [assert]; a failed assert, an
    access outside an address and an overflow of the search stack are [None].
    The allocations of nDPI are taken to succeed. *)

From S2P Require Import Prelude.

Module Patricia.

(** [ndpi_prefix_t]: the bytes of the address, in memory order, and a length. *)
Record prefix := Prefix { add : list Z; bitlen : Z }.
#[export] Instance prefix_eq_dec : EqDecision prefix.
Proof. solve_decision. Defined.

(** [ndpi_patricia_node_t]; [Null] is the null pointer, [uv64] is
    [node->value.u.uv64]. *)
Inductive node :=
  | Null
  | Node (bit : Z) (pfx : option prefix) (uv64 : Z) (l r : node).

Record patricia_tree := Tree { head : node; maxbits : Z }.
Definition PATRICIA_MAXBITS : Z := 16 * 8.

Definition ndpi_patricia_new (maxbits : Z) : patricia_tree := Tree Null maxbits.

(** [BIT_TEST(addr[bit >> 3], 0x80 >> (bit & 0x07))] *)
Definition bit_test (addr : list Z) (bit : Z) : option bool :=
  b ← rd8 addr (bit >>> 3);
  Some (negb ((b .& (0x80 >>> (bit .& 0x07))) =? 0)).

Fixpoint comp_loop (fuel : nat) (pa pd : list Z) (off mask : Z) : option bool :=
  match fuel with
  | O => None
  | S fuel =>
      if 32 <=? mask then
        a ← rd32 pa off; d ← rd32 pd off;
        if negb (a =? d) then Some false else comp_loop fuel pa pd (off + 4) (mask - 32)
      else if mask =? 0 then Some true else
        let m := htonl (u32 (0xffffffff <<< (32 - mask))) in
        a ← rd32 pa off; d ← rd32 pd off;
        Some ((a .& m) =? (d .& m))
  end.
Definition ndpi_comp_with_mask (addr dest : list Z) (mask : Z) : option bool :=
  comp_loop (S (Z.to_nat (mask / 32))) addr dest 0 mask.

(** ** Search *)

Definition push (e : prefix * Z) (stack : list (prefix * Z)) : option (list (prefix * Z)) :=
  if Z.of_nat (length stack) <? PATRICIA_MAXBITS + 1 then Some (e :: stack) else None.
Definition push_node (p : option prefix) (v : Z) (stack : list (prefix * Z)) :
    option (list (prefix * Z)) :=
  match p with Some q => push (q, v) stack | None => Some stack end.

(** The descent of [ndpi_patricia_search_best2]: the nodes it pushes. *)
Fixpoint best_descend (n : node) (addr : list Z) (bitlen : Z) (inclusive : bool)
    (stack : list (prefix * Z)) : option (list (prefix * Z)) :=
  match n with
  | Null => Some stack
  | Node bit p v l r =>
      if bit <? bitlen then
        stack ← push_node p v stack;
        right ← bit_test addr bit;
        best_descend (if right : bool then r else l) addr bitlen inclusive stack
      else if inclusive then push_node p v stack else Some stack
  end.

(** Popping the stack until a prefix covers the address. *)
Fixpoint best_pop (stack : list (prefix * Z)) (pfx : prefix) : option (option (prefix * Z)) :=
  match stack with
  | [] => Some None
  | (q, v) :: stack =>
      c ← ndpi_comp_with_mask (add q) (add pfx) (bitlen q);
      if c && (bitlen q <=? bitlen pfx) then Some (Some (q, v)) else best_pop stack pfx
  end.

Definition ndpi_patricia_search_best2 (t : patricia_tree) (pfx : prefix) (inclusive : bool) :
    option (option (prefix * Z)) :=
  if negb (bitlen pfx <=? maxbits t) then None else
  stack ← best_descend (head t) (add pfx) (bitlen pfx) inclusive [];
  best_pop stack pfx.

Definition ndpi_patricia_search_best (t : patricia_tree) (pfx : prefix) :
    option (option (prefix * Z)) :=
  ndpi_patricia_search_best2 t pfx true.

(** ** Insertion: a pointer to a node is the node with the frames above it *)

Record frame := Frame {
    f_bit : Z;
    f_pfx : option prefix;
    f_uv64 : Z;
    f_right : bool;     (* the pointer descends to the right child *)
    f_other : node;
  }.

Definition rebuild (f : frame) (n : node) : node :=
  if f_right f then Node (f_bit f) (f_pfx f) (f_uv64 f) (f_other f) n
  else Node (f_bit f) (f_pfx f) (f_uv64 f) n (f_other f).
(** The whole tree seen from a pointer. *)
Definition plug (n : node) (ctx : list frame) : node :=
  fold_left (fun n f => rebuild f n) ctx n.

(** [bit < maxbits && BIT_TEST(..)] *)
Definition go_right (maxbits : Z) (addr : list Z) (bit : Z) : option bool :=
  if bit <? maxbits then bit_test addr bit else Some false.

Fixpoint find_leaf (maxbits : Z) (n : node) (ctx : list frame) (addr : list Z) (bitlen : Z) :
    option (node * list frame) :=
  match n with
  | Null => None
  | Node bit p v l r =>
      if (bit <? bitlen) || bool_decide (p = None) then
        right ← go_right maxbits addr bit;
        if right : bool then
          match r with
          | Null => Some (n, ctx)
          | _ => find_leaf maxbits r (Frame bit p v true l :: ctx) addr bitlen
          end
        else
          match l with
          | Null => Some (n, ctx)
          | _ => find_leaf maxbits l (Frame bit p v false r :: ctx) addr bitlen
          end
      else Some (n, ctx)
  end.

Fixpoint first_bit (fuel : nat) (r j : Z) : Z :=
  match fuel with
  | O => j
  | S fuel => if negb ((r .& (0x80 >>> j)) =? 0) then j else first_bit fuel r (j + 1)
  end.

(** The first bit that differs, counted byte by byte. *)
Fixpoint differ_loop (fuel : nat) (addr test_addr : list Z) (i check_bit differ_bit : Z) :
    option Z :=
  match fuel with
  | O => None
  | S fuel =>
      if i * 8 <? check_bit then
        a ← rd8 addr i; b ← rd8 test_addr i;
        let r := a .^ b in
        if r =? 0 then differ_loop fuel addr test_addr (i + 1) check_bit ((i + 1) * 8)
        else let j := first_bit 8 r 0 in
             if j <? 8 then Some (i * 8 + j) else None
      else Some differ_bit
  end.

Fixpoint go_up (n : node) (ctx : list frame) (differ_bit : Z) : node * list frame :=
  match ctx with
  | f :: ctx' => if differ_bit <=? f_bit f then go_up (rebuild f n) ctx' differ_bit else (n, ctx)
  | [] => (n, ctx)
  end.

(** Where the new node goes, once the walk has stopped at [n]. *)
Definition attach (maxbits : Z) (n : node) (ctx : list frame) (pfx : prefix)
    (test_addr : list Z) (differ_bit : Z) : option (node * list frame) :=
  match n with
  | Null => None
  | Node bit p v l r =>
      let new_node := Node (bitlen pfx) (Some pfx) 0 Null Null in
      if (differ_bit =? bitlen pfx) && (bit =? bitlen pfx) then
        match p with
        | Some _ => Some (n, ctx)
        | None => Some (Node bit (Some pfx) v l r, ctx)
        end
      else if bit =? differ_bit then
        right ← go_right maxbits (add pfx) bit;
        if right : bool then
          match r with Null => Some (new_node, Frame bit p v true l :: ctx) | _ => None end
        else
          match l with Null => Some (new_node, Frame bit p v false r :: ctx) | _ => None end
      else if bitlen pfx =? differ_bit then
        right ← go_right maxbits test_addr (bitlen pfx);
        Some (if right : bool then Node (bitlen pfx) (Some pfx) 0 Null n
              else Node (bitlen pfx) (Some pfx) 0 n Null, ctx)
      else
        right ← go_right maxbits (add pfx) differ_bit;
        Some (new_node, Frame differ_bit None 0 right n :: ctx)
  end.

Definition ndpi_patricia_lookup (t : patricia_tree) (pfx : prefix) :
    option (node * list frame) :=
  if negb (bitlen pfx <=? maxbits t) then None else
  match head t with
  | Null => Some (Node (bitlen pfx) (Some pfx) 0 Null Null, [])
  | _ =>
      '(n, ctx) ← find_leaf (maxbits t) (head t) [] (add pfx) (bitlen pfx);
      match n with
      | Node bit (Some q) _ _ _ =>
          let check_bit := if bit <? bitlen pfx then bit else bitlen pfx in
          d ← differ_loop (S (length (add pfx))) (add pfx) (add q) 0 check_bit 0;
          let differ_bit := if check_bit <? d then check_bit else d in
          let (n, ctx) := go_up n ctx differ_bit in
          attach (maxbits t) n ctx pfx (add q) differ_bit
      | _ => None
      end
  end.

(** [node->value.u.uv64 = user_data] through the pointer; the tree after it. *)
Definition set_uv64 (p : node * list frame) (user_data : Z) : option node :=
  match p with
  | (Node bit pf _ l r, ctx) => Some (plug (Node bit pf user_data l r) ctx)
  | (Null, _) => None
  end.

(** ** The bits of an address *)

Definition abit (a : list Z) (i : Z) : bool :=
  Z.testbit (nth (Z.to_nat (i / 8)) a 0) (7 - i mod 8).
(** The first [n] bits agree. *)
Definition agree (n : Z) (a b : list Z) : Prop := forall i, 0 <= i < n -> abit a i = abit b i.

Lemma agree_sym n a b : agree n a b -> agree n b a.
Proof. intros H i Hi. symmetry. auto. Qed.
Lemma agree_trans n a b c : agree n a b -> agree n b c -> agree n a c.
Proof. intros H1 H2 i Hi. rewrite H1; auto. Qed.
Lemma agree_le m n a b : agree n a b -> m <= n -> agree m a b.
Proof. intros H Hm i Hi. apply H. lia. Qed.
Lemma agree_refl n a : agree n a a.
Proof. done. Qed.

Lemma rd8_nth a i : 0 <= i < Z.of_nat (length a) -> rd8 a i = Some (nth (Z.to_nat i) a 0).
Proof.
  intros Hi. unfold rd8. replace (0 <=? i) with true by lia.
  destruct (lookup_lt_is_Some_2 a (Z.to_nat i)) as [b Hb]; [lia|].
  rewrite Hb. f_equal. symmetry. by apply nth_lookup_Some.
Qed.

Lemma single_bit b j : 0 <= j < 8 ->
  negb ((b .& (0x80 >>> j)) =? 0) = Z.testbit b (7 - j).
Proof.
  intros Hj. replace (0x80 >>> j) with (2 ^ (7 - j)).
  2:{ rewrite Z.shiftr_div_pow2, Z.pow_sub_r by lia. done. }
  destruct (Z.testbit b (7 - j)) eqn:E.
  - apply negb_true_iff, Z.eqb_neq. intros H. apply (f_equal (fun z => Z.testbit z (7 - j))) in H.
    rewrite Z.land_spec, Z.pow2_bits_true, Z.bits_0, E in H; [done|lia].
  - apply negb_false_iff, Z.eqb_eq. apply Z.bits_inj'. intros i Hi.
    rewrite Z.land_spec, Z.bits_0, Z.pow2_bits_eqb by lia.
    destruct (Z.eqb_spec (7 - j) i) as [<-|]; [by rewrite E|by rewrite andb_false_r].
Qed.

Lemma bit_test_abit a i :
  0 <= i < 8 * Z.of_nat (length a) -> bit_test a i = Some (abit a i).
Proof.
  intros Hi. unfold bit_test, abit. rewrite (Z.shiftr_div_pow2 i 3) by lia.
  change (2 ^ 3) with 8. rewrite rd8_nth.
  2:{ split; [apply Z.div_pos; lia|apply Z.div_lt_upper_bound; lia]. }
  cbn [mbind option_bind]. change (i .& 7) with (i .& Z.ones 3).
  rewrite Z.land_ones by lia. change (2 ^ 3) with 8.
  rewrite single_bit by (apply Z.mod_pos_bound; lia). done.
Qed.


(** The bits of a little-endian word, byte by byte. *)
Lemma le_val_testbit l k j :
  bytes_ok l -> 0 <= j < 8 ->
  Z.testbit (le_val l) (8 * Z.of_nat k + j) = Z.testbit (nth k l 0) j.
Proof.
  intros Hl Hj. revert k. induction Hl as [|b l Hb Hl IH]; intros k.
  - rewrite Z.bits_0. destruct k; by rewrite Z.bits_0.
  - rewrite le_val_cons_lxor, Z.lxor_spec by done.
    destruct k as [|k].
    + rewrite Z.shiftl_spec_low, xorb_false_r by lia. f_equal.
    + rewrite (u_ok_testbit 8 b) by (done || lia).
      rewrite Z.shiftl_spec_high, xorb_false_l by lia. cbn [nth]. rewrite <-(IH k). f_equal. lia.
Qed.

(** Testbits of a word at the position of bit [i] of the address. *)
Definition word_pos (i : Z) : Z := 8 * (i / 8) + (7 - i mod 8).

Lemma word_abit a off w i :
  bytes_ok a -> 0 <= off -> rd32 a (4 * off) = Some w -> 0 <= i < 32 ->
  Z.testbit w (word_pos i) = abit a (32 * off + i).
Proof.
  intros Ha Ho. unfold rd32, rdn. case_match eqn:E; [|done]. intros [= <-] Hi.
  apply andb_true_iff in E as [_ E%Z.leb_le]. unfold word_pos.
  assert (0 <= i / 8 < 4) by (split; [apply Z.div_pos; lia|apply Z.div_lt_upper_bound; lia]).
  assert (0 <= i mod 8 < 8) by (apply Z.mod_pos_bound; lia).
  replace (i / 8) with (Z.of_nat (Z.to_nat (i / 8))) by lia.
  rewrite le_val_testbit; [|solve_bytes|lia]. unfold abit.
  replace ((32 * off + i) / 8) with (4 * off + i / 8)
    by (replace (32 * off + i) with (i + (4 * off) * 8) by lia; rewrite Z.div_add by lia; lia).
  replace ((32 * off + i) mod 8) with (i mod 8)
    by (replace (32 * off + i) with (i + (4 * off) * 8) by lia; by rewrite Z.mod_add by lia).
  f_equal. rewrite nth_lookup, lookup_take_lt by lia.
  rewrite lookup_drop, nth_lookup. do 2 f_equal. lia.
Qed.

(** [htonl(~0u << (32 - m))] selects the first [m] bits. *)
Lemma mask_bits m i : 1 <= m < 32 -> 0 <= i < 32 ->
  Z.testbit (htonl (u32 (0xffffffff <<< (32 - m)))) (word_pos i) = (i <? m).
Proof.
  intros Hm Hi.
  pose (P := fun k => forallb (fun j =>
    eqb (Z.testbit (htonl (u32 (0xffffffff <<< (32 - k)))) (word_pos j)) (j <? k))
    (Z.of_nat <$> seq 0 32) || (k =? 0)).
  assert (HP : P m = true).
  { apply (forallb_below P 32); [vm_compute; reflexivity|lia]. }
  unfold P in HP. apply orb_true_iff in HP as [HP|HP]; [|lia].
  pose proof (forallb_below _ 32 i HP) as H. cbv beta in H.
  apply eqb_prop. apply H. lia.
Qed.

Lemma word_eq x y :
  u_ok 32 x -> u_ok 32 y ->
  (forall i, 0 <= i < 32 -> Z.testbit x (word_pos i) = Z.testbit y (word_pos i)) -> x = y.
Proof.
  intros Hx Hy H. apply Z.bits_inj'. intros j Hj.
  destruct (decide (j < 32)).
  - replace j with (word_pos (word_pos j)).
    + apply H. unfold word_pos.
      pose proof (Z.mod_pos_bound j 8 ltac:(lia)). pose proof (Z.div_mod j 8 ltac:(lia)). lia.
    + unfold word_pos. pose proof (Z.mod_pos_bound j 8 ltac:(lia)).
      replace (8 * (j / 8) + (7 - j mod 8)) with ((7 - j mod 8) + (j / 8) * 8) by lia.
      rewrite Z.div_add, Z.mod_add, Z.div_small, Z.mod_small by lia.
      pose proof (Z.div_mod j 8 ltac:(lia)). lia.
  - by rewrite !(u_ok_testbit 32) by (done || lia).
Qed.

(** An address of [w] 32-bit words. *)
Definition addr_ok (w : Z) (a : list Z) : Prop := Z.of_nat (length a) = 4 * w /\ bytes_ok a.

Lemma rd32_word w a off :
  addr_ok w a -> 0 <= off < w -> exists v, rd32 a (4 * off) = Some v /\ u_ok 32 v.
Proof. intros [Hl Ha] Ho. apply rd32_is_Some; [lia|lia|done]. Qed.

Lemma comp_loop_spec w a d fuel off mask :
  addr_ok w a -> addr_ok w d -> 0 <= off -> 0 <= mask -> 32 * off + mask <= 32 * w ->
  mask / 32 < Z.of_nat fuel ->
  exists c, comp_loop fuel a d (4 * off) mask = Some c /\
    (c = true <-> forall i, 32 * off <= i < 32 * off + mask -> abit a i = abit d i).
Proof.
  intros Ha Hd. revert off mask.
  induction fuel as [|fuel IH]; intros off mask Ho Hm Hw Hf.
  { pose proof (Z.div_pos mask 32). lia. }
  cbn [comp_loop]. destruct (Z.leb_spec 32 mask) as [H32|H32].
  - destruct (rd32_word w a off) as (x & Hx & Hxo); [done|lia|].
    destruct (rd32_word w d off) as (y & Hy & Hyo); [done|lia|].
    rewrite Hx, Hy. cbn [mbind option_bind].
    assert (Hxy : x = y <-> forall i, 32 * off <= i < 32 * off + 32 -> abit a i = abit d i).
    { split.
      - intros <- i Hi. replace i with (32 * off + (i - 32 * off)) by lia.
        rewrite <-(word_abit a off x), <-(word_abit d off x); try done; try lia; apply Ha || apply Hd.
      - intros H. apply word_eq; [done..|]. intros i Hi.
        rewrite (word_abit a off x), (word_abit d off y); try done; try lia; try apply Ha || apply Hd.
        apply H. lia. }
    destruct (Z.eqb_spec x y) as [He|He]; simpl.
    + replace (4 * off + 4) with (4 * (off + 1)) by lia.
      destruct (IH (off + 1) (mask - 32)) as (c & Hc & Hiff); [lia..| |].
      { replace mask with ((mask - 32) + 1 * 32) in Hf by lia. rewrite Z.div_add in Hf; lia. }
      exists c. split; [done|]. rewrite Hiff. split; intros H i Hi.
      * destruct (decide (i < 32 * off + 32)); [by apply Hxy; [|lia]|apply H; lia].
      * apply H. lia.
    + exists false. split; [done|]. split; [done|]. intros H. destruct He. apply Hxy.
      intros i Hi. apply H. lia.
  - destruct (Z.eqb_spec mask 0) as [->|H0].
    { exists true. split; [done|]. split; [|done]. intros _ i Hi. lia. }
    destruct (rd32_word w a off) as (x & Hx & Hxo); [done|lia|].
    destruct (rd32_word w d off) as (y & Hy & Hyo); [done|lia|].
    rewrite Hx, Hy. cbn [mbind option_bind]. eexists. split; [done|].
    set (m := htonl _). assert (Hmo : u_ok 32 m) by (unfold m; auto with cint).
    rewrite Z.eqb_eq. split.
    + intros H i Hi. replace i with (32 * off + (i - 32 * off)) by lia.
      rewrite <-(word_abit a off x), <-(word_abit d off y); try done; try lia; try apply Ha || apply Hd.
      apply (f_equal (fun z => Z.testbit z (word_pos (i - 32 * off)))) in H.
      rewrite !Z.land_spec in H. unfold m in H. rewrite mask_bits in H by lia.
      replace (i - 32 * off <? mask) with true in H by lia. by rewrite !andb_true_r in H.
    + intros H. apply word_eq; [apply land_ok_r; [lia|done]..|]. intros i Hi.
      rewrite !Z.land_spec. unfold m. rewrite mask_bits by lia.
      destruct (Z.ltb_spec i mask); [|by rewrite !andb_false_r].
      rewrite (word_abit a off x), (word_abit d off y); try done; try lia; try apply Ha || apply Hd.
      by rewrite H by lia.
Qed.

Lemma comp_with_mask_spec w a d mask :
  addr_ok w a -> addr_ok w d -> 0 <= mask <= 32 * w ->
  exists c, ndpi_comp_with_mask a d mask = Some c /\ (c = true <-> agree mask a d).
Proof.
  intros Ha Hd Hm. unfold ndpi_comp_with_mask.
  destruct (comp_loop_spec w a d (S (Z.to_nat (mask / 32))) 0 mask) as (c & Hc & Hi);
    [done|done|lia|lia|lia| |by exists c].
  pose proof (Z.div_pos mask 32). lia.
Qed.

Lemma nth_byte_ok a k : bytes_ok a -> u_ok 8 (nth k a 0).
Proof.
  intros Ha. rewrite nth_lookup. destruct (a !! k) as [b|] eqn:E; simpl; [|unfold u_ok; lia].
  by eapply Forall_lookup_1 in E.
Qed.

(** The byte-wise search of the first difference. *)
Lemma abit_byte a i j : 0 <= i -> 0 <= j < 8 ->
  abit a (i * 8 + j) = Z.testbit (nth (Z.to_nat i) a 0) (7 - j).
Proof.
  intros Hi Hj. unfold abit.
  replace (i * 8 + j) with (j + i * 8) by lia.
  by rewrite Z.div_add, Z.mod_add, Z.div_small, Z.mod_small by lia.
Qed.

Lemma first_bit_spec fuel r j :
  0 <= j -> j + Z.of_nat fuel = 8 -> (forall k, 0 <= k < j -> Z.testbit r (7 - k) = false) ->
  let j' := first_bit fuel r j in
  (forall k, 0 <= k < j' -> Z.testbit r (7 - k) = false) /\
  (j' = 8 \/ 0 <= j' < 8 /\ Z.testbit r (7 - j') = true).
Proof.
  revert j. induction fuel as [|fuel IH]; intros j Hj Hf Hk; cbn [first_bit].
  { split; [done|]. left. lia. }
  rewrite single_bit by lia. destruct (Z.testbit r (7 - j)) eqn:E.
  - split; [done|]. right. split; [lia|done].
  - apply IH; [lia|lia|]. intros k Hk'. destruct (decide (k = j)) as [->|]; [done|].
    apply Hk. lia.
Qed.

Lemma byte_zero r : u_ok 8 r -> (forall k, 0 <= k < 8 -> Z.testbit r (7 - k) = false) -> r = 0.
Proof.
  intros Hr H. apply Z.bits_inj'. intros i Hi. rewrite Z.bits_0.
  destruct (decide (i < 8)); [|by apply (u_ok_testbit 8); [..|lia]].
  replace i with (7 - (7 - i)) by lia. apply H. lia.
Qed.

(** [d] is the number of leading bits, up to [n], on which two addresses agree. *)
Definition is_differ (n : Z) (a b : list Z) (d : Z) : Prop :=
  0 <= d <= n /\ agree d a b /\ (d < n -> abit a d <> abit b d).

Lemma differ_loop_spec w a b n fuel i :
  addr_ok w a -> addr_ok w b -> 0 <= i -> 0 <= n <= 32 * w -> i <= 4 * w ->
  4 * w < Z.of_nat fuel + i -> agree (i * 8) a b ->
  exists d, differ_loop fuel a b i n (i * 8) = Some d /\ is_differ n a b (Z.min n d).
Proof.
  intros Ha Hb. revert i. induction fuel as [|fuel IH]; intros i Hi Hn Hiw Hf Hag; [lia|].
  cbn [differ_loop]. destruct (Z.ltb_spec (i * 8) n) as [Hlt|Hge].
  2:{ exists (i * 8). split; [done|]. rewrite Z.min_l by lia. split; [lia|].
      split; [by eapply agree_le|lia]. }
  destruct Ha as [Hal Hab], Hb as [Hbl Hbb].
  rewrite !rd8_nth by lia. cbn [mbind option_bind].
  set (x := nth (Z.to_nat i) a 0). set (y := nth (Z.to_nat i) b 0).
  assert (Hx : u_ok 8 x) by (by apply nth_byte_ok).
  assert (Hy : u_ok 8 y) by (by apply nth_byte_ok).
  destruct (Z.eqb_spec (x .^ y) 0) as [H0|H0].
  - apply Z.lxor_eq in H0. apply IH; [lia|lia| |lia|].
    { destruct (decide (i < 4 * w)); lia. }
    intros k Hk. destruct (decide (k < i * 8)); [apply Hag; lia|].
    replace k with (i * 8 + (k - i * 8)) by lia. rewrite !abit_byte by lia. fold x y. by rewrite H0.
  - destruct (first_bit_spec 8 (x .^ y) 0) as [Hlow Hj]; [lia|done|lia|].
    set (j := first_bit 8 (x .^ y) 0) in *.
    destruct Hj as [Hj|[Hj Hbit]].
    { destruct H0. apply byte_zero; [by apply lxor_ok|]. rewrite Hj in Hlow. done. }
    replace (j <? 8) with true by lia. exists (i * 8 + j). split; [done|].
    assert (Hag' : agree (i * 8 + j) a b).
    { intros k Hk. destruct (decide (k < i * 8)); [apply Hag; lia|].
      replace k with (i * 8 + (k - i * 8)) by lia. rewrite !abit_byte by lia. fold x y.
      pose proof (Hlow (k - i * 8) ltac:(lia)) as H. rewrite Z.lxor_spec in H.
      by apply xorb_eq. }
    split; [lia|]. split; [eapply agree_le; [done|lia]|].
    intros Hlt'. rewrite Z.min_r in * by lia. rewrite !abit_byte by lia. fold x y.
    rewrite Z.lxor_spec in Hbit. by destruct (Z.testbit x _), (Z.testbit y _).
Qed.

(** ** The tree represents a set of prefixes *)

Fixpoint elems (n : node) : list (prefix * Z) :=
  match n with
  | Null => []
  | Node _ p v l r =>
      (match p with Some q => [(q, v)] | None => [] end) ++ elems l ++ elems r
  end.

(** [q] covers the prefix [x]: [x] starts with the bits of [q]. *)
Definition covers (q x : prefix) : Prop := bitlen q <= bitlen x /\ agree (bitlen q) (add q) (add x).

Section tree.
Context (w : Z) (Hw : 1 <= w <= 4).

Definition pfx_ok (q : prefix) : Prop := addr_ok w (add q) /\ 0 <= bitlen q <= 32 * w.

(** The bit of the root is beyond [lo]. *)
Definition above (lo : Z) (n : node) : Prop :=
  match n with Null => True | Node bit _ _ _ _ => lo < bit end.
Definition side (bit : Z) (b : bool) (n : node) : Prop :=
  Forall (fun e => abit (add e.1) bit = b) (elems n).
Definition alike (bit : Z) (l : list (prefix * Z)) : Prop :=
  forall e1 e2, e1 ∈ l -> e2 ∈ l -> agree bit (add e1.1) (add e2.1).

Fixpoint wf (n : node) : Prop :=
  match n with
  | Null => True
  | Node bit p v l r =>
      0 <= bit <= 32 * w /\
      match p with
      | Some q => pfx_ok q /\ bitlen q = bit
      | None => l <> Null /\ r <> Null
      end /\
      above bit l /\ above bit r /\ side bit false l /\ side bit true r /\
      alike bit (elems n) /\ wf l /\ wf r
  end.

Lemma wf_elems n : wf n -> forall e, e ∈ elems n ->
  pfx_ok e.1 /\ match n with Null => False | Node bit _ _ _ _ => bit <= bitlen e.1 end.
Proof.
  induction n as [|bit p v l IHl r IHr]; [by intros _ e ?%not_elem_of_nil|].
  intros (Hb & Hp & Hal & Har & _ & _ & _ & Hl & Hr) e. cbn [elems].
  rewrite !elem_of_app. intros [He|[He|He]].
  - destruct p as [q|]; [|by apply not_elem_of_nil in He].
    apply list_elem_of_singleton in He as ->. destruct Hp as [Hq Hbit]. simpl. split; [done|lia].
  - destruct (IHl Hl e He) as [Hok Hle]. split; [done|].
    destruct l; [done|]. simpl in Hal. lia.
  - destruct (IHr Hr e He) as [Hok Hle]. split; [done|].
    destruct r; [done|]. simpl in Har. lia.
Qed.

Lemma wf_nonempty n : wf n -> n <> Null -> exists e, e ∈ elems n.
Proof.
  induction n as [|bit p v l IHl r IHr]; [done|].
  intros (_ & Hp & _ & _ & _ & _ & _ & Hl & _) _. destruct p as [q|].
  - exists (q, v). by left.
  - destruct (IHl Hl) as [e He]; [by destruct Hp|]. exists e. cbn [elems app].
    apply elem_of_app. by left.
Qed.

(** Nodes that can still cover [x], when the descent has reached [n]. *)
Lemma covers_side bit b n x e :
  wf n -> above bit n -> 0 <= bit < bitlen x -> side bit b n -> e ∈ elems n ->
  covers e.1 x -> abit (add x) bit = b.
Proof.
  intros Hn Ha Hbit Hs He [Hle Hag]. unfold side in Hs. rewrite Forall_forall in Hs.
  rewrite <-(Hs e He). symmetry. apply Hag.
  destruct (wf_elems n Hn e He) as [_ H]. destruct n; [done|]. simpl in Ha. lia.
Qed.

Lemma bit_test_ok a i : addr_ok w a -> 0 <= i < 32 * w -> bit_test a i = Some (abit a i).
Proof. intros [Hl _] Hi. apply bit_test_abit. lia. Qed.

(** What the stack of the search holds: among the prefixes of the nodes
  visited, longest first, every prefix that covers [x]. *)
Definition longer (e1 e2 : prefix * Z) : Prop := bitlen e2.1 < bitlen e1.1.

Lemma best_descend_spec x n stack lo :
  wf n -> above lo n -> pfx_ok x -> Z.of_nat (length stack) <= lo + 1 -> -1 <= lo ->
  Forall (fun e => bitlen e.1 <= lo) stack -> StronglySorted longer stack ->
  exists s, best_descend n (add x) (bitlen x) true stack = Some (s ++ stack) /\
    StronglySorted longer (s ++ stack) /\
    (forall e, e ∈ s -> e ∈ elems n) /\
    (forall e, e ∈ elems n -> covers e.1 x -> e ∈ s).
Proof.
  intros Hn Ha Hx. revert lo stack Hn Ha.
  induction n as [|bit p v l IHl r IHr]; intros lo stack Hn Ha Hlen Hlo Hbits Hsort.
  { exists []. split_and!; try done. }
  pose proof Hn as (Hb & Hp & Hal & Har & Hsl & Hsr & _ & Hl & Hr). simpl in Ha.
  assert (Hpush : exists s0, push_node p v stack = Some (s0 ++ stack) /\
    s0 = (match p with Some q => [(q, v)] | None => [] end) /\
    Z.of_nat (length (s0 ++ stack)) <= bit + 1 /\
    Forall (fun e => bitlen e.1 <= bit) (s0 ++ stack) /\ StronglySorted longer (s0 ++ stack)).
  { assert (Hbits' : Forall (fun e : prefix * Z => bitlen e.1 <= bit) stack)
      by (eapply Forall_impl; [exact Hbits|]; simpl; lia).
    destruct p as [q|]; simpl.
    - unfold push, PATRICIA_MAXBITS. replace (_ <? _) with true by lia.
      exists [(q, v)]. destruct Hp as [_ Hq]. split_and!; simpl; try done; [lia| |].
      + constructor; simpl; [lia|done].
      + constructor; [done|]. eapply Forall_impl; [exact Hbits|]. unfold longer. simpl. lia.
    - exists []. split_and!; simpl; try done; lia. }
  destruct Hpush as (s0 & Hpush & Hs0 & Hlen' & Hbits' & Hsort'). cbn [best_descend].
  destruct (Z.ltb_spec bit (bitlen x)) as [Hlt|Hge].
  - rewrite Hpush. cbn [mbind option_bind].
    assert (Hbx : bit < 32 * w) by (destruct Hx as [_ Hx]; lia).
    rewrite bit_test_ok by (try apply Hx; lia). cbn [mbind option_bind].
    assert (H : exists s, best_descend (if abit (add x) bit then r else l) (add x) (bitlen x) true
        (s0 ++ stack) = Some (s ++ s0 ++ stack) /\
      StronglySorted longer (s ++ s0 ++ stack) /\
      (forall e, e ∈ s -> e ∈ elems (if abit (add x) bit then r else l)) /\
      (forall e, e ∈ elems (if abit (add x) bit then r else l) -> covers e.1 x -> e ∈ s)).
    { destruct (abit (add x) bit); [apply (IHr bit)|apply (IHl bit)]; done || lia. }
    destruct H as (s & -> & Hsort2 & Hin & Hall). exists (s ++ s0). rewrite <-app_assoc.
    split_and!; [done|done| |].
    + intros e. cbn [elems]. rewrite !elem_of_app. intros [He|He].
      * apply Hin in He. destruct (abit (add x) bit); auto.
      * left. by rewrite Hs0 in He.
    + intros e. cbn [elems]. rewrite !elem_of_app. rewrite <-Hs0.
      intros [He|[He|He]] Hc; [by right| |]; left; apply Hall; try done.
      * by rewrite (covers_side bit false l x e) by (done || lia).
      * by rewrite (covers_side bit true r x e) by (done || lia).
  - exists s0. rewrite Hpush. split_and!; [done|done| |].
    + intros e He. cbn [elems]. apply elem_of_app. left. by rewrite <-Hs0.
    + intros e. cbn [elems]. rewrite !elem_of_app, <-Hs0.
      intros [He|[He|He]] [Hle _]; [done| |].
      * destruct (wf_elems l Hl e He) as [_ H]. destruct l; [done|]. simpl in Hal. lia.
      * destruct (wf_elems r Hr e He) as [_ H]. destruct r; [done|]. simpl in Har. lia.
Qed.

Lemma best_pop_spec x stack :
  pfx_ok x -> Forall (fun e => pfx_ok e.1) stack -> StronglySorted longer stack ->
  exists res, best_pop stack x = Some res /\
    match res with
    | Some e => e ∈ stack /\ covers e.1 x /\
        (forall e', e' ∈ stack -> covers e'.1 x -> e' = e \/ bitlen e'.1 < bitlen e.1)
    | None => forall e, e ∈ stack -> ~ covers e.1 x
    end.
Proof.
  intros Hx. induction stack as [|[q v] stack IH]; intros Hok Hs.
  { exists None. split; [done|]. by intros e ?%not_elem_of_nil. }
  apply Forall_cons in Hok as [Hq Hok]. apply StronglySorted_inv in Hs as [Hs Hall].
  cbn [best_pop]. destruct Hq as [Hqa Hqb].
  destruct (comp_with_mask_spec w (add q) (add x) (bitlen q)) as (c & -> & Hc);
    [done|apply Hx|done|]. cbn [mbind option_bind].
  destruct (c && (bitlen q <=? bitlen x)) eqn:E.
  - apply andb_true_iff in E as [E1 E2%Z.leb_le]. exists (Some (q, v)). split; [done|].
    split_and!; [by left|split; [done|by apply Hc]|].
    intros e' [->|He']%elem_of_cons _; [by left|right].
    rewrite Forall_forall in Hall. by apply Hall.
  - assert (Hn : ~ covers q x).
    { intros [H1 H2%Hc]. simpl in H2. rewrite H2 in E. simpl in E. lia. }
    destruct (IH Hok Hs) as (res & -> & Hres). exists res. split; [done|].
    destruct res as [e|].
    + destruct Hres as (Hin & Hcov & Hbest). split_and!; [by right|done|].
      intros e' [->|He']%elem_of_cons Hc'; [done|auto].
    + intros e [->|He]%elem_of_cons; [done|auto].
Qed.

(** The longest prefix of the set that covers [x], if there is one. *)
Definition is_best (l : list (prefix * Z)) (x : prefix) (res : option (prefix * Z)) : Prop :=
  match res with
  | Some e => e ∈ l /\ covers e.1 x /\
      (forall e', e' ∈ l -> covers e'.1 x -> e' = e \/ bitlen e'.1 < bitlen e.1)
  | None => forall e, e ∈ l -> ~ covers e.1 x
  end.

Lemma search_best_spec t x :
  maxbits t = 32 * w -> wf (head t) -> pfx_ok x ->
  exists res, ndpi_patricia_search_best t x = Some res /\ is_best (elems (head t)) x res.
Proof.
  intros Hm Hn Hx. unfold ndpi_patricia_search_best, ndpi_patricia_search_best2.
  replace (bitlen x <=? maxbits t) with true by (destruct Hx; lia). cbn [negb].
  destruct (best_descend_spec x (head t) [] (-1)) as (s & -> & Hs & Hin & Hall);
    [done| |done|done|done|constructor|constructor|].
  { destruct (head t); [done|]. simpl. destruct Hn. lia. }
  rewrite app_nil_r in *. cbn [mbind option_bind].
  destruct (best_pop_spec x s) as (res & Hp & Hres); [done| |done|].
  { apply Forall_forall. intros e He. by apply (wf_elems (head t) Hn e), Hin. }
  exists res. split; [done|]. destruct res as [e|].
  - destruct Hres as (He & Hc & Hb). split_and!; [auto|done|]. auto.
  - intros e He Hc. by apply (Hres e); [apply Hall|].
Qed.

(** ** Insertion *)

Definition own (f : frame) : list (prefix * Z) :=
  match f_pfx f with Some q => [(q, f_uv64 f)] | None => [] end.
Definition rest (ctx : list frame) : list (prefix * Z) :=
  concat (map (fun f => own f ++ elems (f_other f)) ctx).

Lemma rebuild_elems f n : elems (rebuild f n) ≡ₚ elems n ++ own f ++ elems (f_other f).
Proof.
  unfold rebuild, own. destruct (f_right f); cbn [elems]; [|solve_Permutation].
  solve_Permutation.
Qed.

Lemma plug_elems n ctx : elems (plug n ctx) ≡ₚ elems n ++ rest ctx.
Proof.
  revert n. induction ctx as [|f ctx IH]; intros n; [by rewrite app_nil_r|].
  change (plug n (f :: ctx)) with (plug (rebuild f n) ctx). rewrite IH, rebuild_elems.
  unfold rest. cbn [map concat]. by rewrite <-!app_assoc.
Qed.

Lemma wf_rebuild_inv f n : wf (rebuild f n) -> wf n /\ above (f_bit f) n.
Proof. unfold rebuild. destruct (f_right f); intros (? & ? & ? & ? & ? & ? & ? & ? & ?); done. Qed.

Lemma wf_plug_inv n ctx : wf (plug n ctx) -> wf n.
Proof.
  revert n. induction ctx as [|f ctx IH]; intros n H; [done|].
  by apply IH, wf_rebuild_inv in H as [].
Qed.

Lemma rebuild_Null f n : rebuild f n <> Null.
Proof. unfold rebuild. by destruct (f_right f). Qed.
Lemma above_rebuild b f n : above b (rebuild f n) <-> b < f_bit f.
Proof. unfold rebuild. by destruct (f_right f). Qed.

Lemma wf_frames n ctx :
  wf (plug n ctx) -> Sorted (fun f g => f_bit g < f_bit f) ctx.
Proof.
  revert n. induction ctx as [|f ctx IH]; intros n H; [constructor|].
  change (wf (plug (rebuild f n) ctx)) in H. constructor; [by eapply IH|].
  destruct ctx as [|g ctx]; constructor.
  change (wf (plug (rebuild g (rebuild f n)) ctx)) in H.
  apply wf_plug_inv, wf_rebuild_inv in H as [_ H]. by apply above_rebuild in H.
Qed.

Lemma alike_cons bit l x v e :
  alike bit l -> e ∈ l -> agree bit (add e.1) (add x) -> alike bit ((x, v) :: l).
Proof.
  intros Ha He Hx e1 e2 [->|H1]%elem_of_cons [->|H2]%elem_of_cons; simpl.
  - done.
  - apply agree_trans with (add e.1); [by apply agree_sym|by apply Ha].
  - apply agree_trans with (add e.1); [by apply Ha|done].
  - by apply Ha.
Qed.

Lemma alike_sub bit l l' : alike bit l -> (forall e, e ∈ l' -> e ∈ l) -> alike bit l'.
Proof. intros Ha H e1 e2 H1 H2. apply Ha; auto. Qed.

Lemma side_cons bit b n n' x v d e :
  side bit b n -> e ∈ elems n -> agree d (add e.1) (add x) -> 0 <= bit < d ->
  elems n' ≡ₚ (x, v) :: elems n -> side bit b n'.
Proof.
  unfold side. intros Hs He Ha Hd Hp. rewrite Hp. constructor; [|done]. simpl.
  rewrite Forall_forall in Hs. rewrite <-(Hs e He). symmetry. apply Ha. lia.
Qed.

(** Replacing a subtree by one that has the prefix [x] in addition. *)
Lemma wf_rebuild n n' f x v d e :
  wf (rebuild f n) -> wf n' -> n' <> Null -> above (f_bit f) n' ->
  e ∈ elems n -> agree d (add e.1) (add x) -> f_bit f < d ->
  elems n' ≡ₚ (x, v) :: elems n -> wf (rebuild f n').
Proof.
  intros Hn Hn' Hnn Hab He Ha Hd Hp.
  assert (Hal : alike (f_bit f) (elems (rebuild f n)) -> alike (f_bit f) (elems (rebuild f n'))).
  { intros Hal. apply alike_sub with ((x, v) :: elems (rebuild f n)).
    - apply alike_cons with e; [done| |by apply (agree_le _ d); [|lia]].
      rewrite rebuild_elems. set_solver.
    - intros e'. rewrite !rebuild_elems, Hp. set_solver. }
  unfold rebuild in *. destruct (f_right f); simpl in Hn |- *;
    destruct Hn as (H1 & H2 & H3 & H4 & H5 & H6 & H7 & H8 & H9);
    split_and!; try done; auto; try lia.
  - revert H2 Hnn; clear; destruct (f_pfx f); [done|]. by intros [??].
  - apply (side_cons (f_bit f) true n n' x v d e); done || lia.
  - revert H2 Hnn; clear; destruct (f_pfx f); [done|]. by intros [??].
  - apply (side_cons (f_bit f) false n n' x v d e); done || lia.
Qed.

Lemma wf_plug n n' x v d e ctx :
  wf (plug n ctx) -> wf n' -> match n' with Null => False | Node b _ _ _ _ => d <= b end ->
  e ∈ elems n -> agree d (add e.1) (add x) -> Forall (fun f => f_bit f < d) ctx ->
  elems n' ≡ₚ (x, v) :: elems n ->
  wf (plug n' ctx) /\ elems (plug n' ctx) ≡ₚ (x, v) :: elems (plug n ctx).
Proof.
  intros Hw1 Hn' Hb He Ha Hctx Hp. split; [|by rewrite !plug_elems, Hp].
  assert (Hab : match ctx with [] => True | f :: _ => above (f_bit f) n' end).
  { destruct ctx as [|f ctx]; [done|]. apply Forall_cons in Hctx as [Hf _].
    destruct n'; simpl in *; [done|lia]. }
  assert (Hnn : n' <> Null) by (by destruct n').
  clear Hb. revert n n' Hw1 Hn' Hab Hnn He Hp.
  induction ctx as [|f ctx IH]; intros n n' Hw1 Hn' Hab Hnn He Hp; [done|].
  apply Forall_cons in Hctx as [Hf Hctx]. apply (IH Hctx (rebuild f n)); clear IH.
  - done.
  - apply (wf_rebuild n n' f x v d e); try done. by eapply wf_plug_inv.
  - destruct ctx as [|g ctx]; [done|]. apply above_rebuild.
    pose proof (wf_plug_inv (rebuild g (rebuild f n)) ctx Hw1) as Hg.
    apply wf_rebuild_inv in Hg as [_ Hg]. by apply above_rebuild in Hg.
  - apply rebuild_Null.
  - rewrite rebuild_elems. set_solver.
  - rewrite !rebuild_elems, Hp. done.
Qed.

Lemma plug_app n c1 c2 : plug n (c1 ++ c2) = plug (plug n c1) c2.
Proof. unfold plug. by rewrite fold_left_app. Qed.

(** The walk follows the bits of the address. *)
Definition follows (a : list Z) (f : frame) : Prop := f_right f = abit a (f_bit f).
(** Why it stops at a node: the node has at least [len] bits, or no child on the side of [a]. *)
Definition stops (a : list Z) (len bit : Z) (l r : node) : Prop :=
  len <= bit \/ (if abit a bit then r else l) = Null.

Lemma frames_below bit p v l r fs :
  wf (plug (Node bit p v l r) fs) -> Forall (fun f => f_bit f < bit) fs.
Proof.
  revert bit p v l r. induction fs as [|f fs IH]; intros bit p v l r H; constructor.
  - apply (wf_plug_inv (rebuild f _) fs), wf_rebuild_inv in H as [_ H]. exact H.
  - pose proof (wf_plug_inv (rebuild f _) fs H) as [_ Hf]%wf_rebuild_inv. simpl in Hf.
    change (wf (plug (rebuild f (Node bit p v l r)) fs)) in H.
    assert (Forall (fun g => f_bit g < f_bit f) fs) as Hg.
    { unfold rebuild in H. destruct (f_right f); by apply IH in H. }
    eapply Forall_impl; [exact Hg|]. simpl. lia.
Qed.

Lemma find_leaf_spec x n ctx :
  wf n -> n <> Null -> pfx_ok x ->
  exists bit q v l r fs,
    find_leaf (32 * w) n ctx (add x) (bitlen x) = Some (Node bit (Some q) v l r, fs ++ ctx) /\
    plug (Node bit (Some q) v l r) fs = n /\ Forall (follows (add x)) fs /\
    stops (add x) (bitlen x) bit l r.
Proof.
  intros Hn Hnn Hx. revert ctx Hn Hnn.
  induction n as [|bit p v l IHl r IHr]; intros ctx Hn Hnn; [done|].
  pose proof Hn as (Hb & Hp & Hal & Har & Hsl & Hsr & _ & Hl & Hr). cbn [find_leaf].
  destruct ((bit <? bitlen x) || bool_decide (p = None)) eqn:E.
  2:{ apply orb_false_iff in E as [E1%Z.ltb_ge E2%bool_decide_eq_false].
      destruct p as [q|]; [|done]. exists bit, q, v, l, r, []. split_and!; try done. by left. }
  assert (Hlt : bit < 32 * w).
  { apply orb_true_iff in E as [E%Z.ltb_lt|E%bool_decide_eq_true]; [destruct Hx; lia|].
    subst p. destruct Hp as [Hp _]. destruct l as [|b' ? ? ? ?]; [done|].
    simpl in Hal. destruct Hl. lia. }
  unfold go_right. replace (bit <? 32 * w) with true by lia.
  rewrite bit_test_ok by (try apply Hx; lia). cbn [mbind option_bind].
  set (b := abit (add x) bit). set (c := if b then r else l). set (o := if b then l else r).
  assert (Hstep : (if b then
      match r with Null => Some (Node bit p v l r, ctx)
      | _ => find_leaf (32 * w) r (Frame bit p v true l :: ctx) (add x) (bitlen x) end
    else
      match l with Null => Some (Node bit p v l r, ctx)
      | _ => find_leaf (32 * w) l (Frame bit p v false r :: ctx) (add x) (bitlen x) end) =
    match c with Null => Some (Node bit p v l r, ctx)
    | _ => find_leaf (32 * w) c (Frame bit p v b o :: ctx) (add x) (bitlen x) end).
  { unfold c, o. by destruct b. }
  rewrite Hstep. clear Hstep.
  assert (Hc : wf c) by (unfold c; by destruct b).
  assert (Hreb : rebuild (Frame bit p v b o) c = Node bit p v l r).
  { unfold rebuild, c, o. simpl. by destruct b. }
  assert (IH : forall ctx, c <> Null -> exists bit q v l r fs,
    find_leaf (32 * w) c ctx (add x) (bitlen x) = Some (Node bit (Some q) v l r, fs ++ ctx) /\
    plug (Node bit (Some q) v l r) fs = c /\ Forall (follows (add x)) fs /\
    stops (add x) (bitlen x) bit l r).
  { intros ctx' Hcn. unfold c in *. destruct b; auto. }
  destruct c as [|b0 p0 v0 l0 r0] eqn:Ec.
  - destruct p as [q|]; [|by destruct Hp; destruct b]. exists bit, q, v, l, r, [].
    split_and!; try done. right. unfold c in Ec. exact Ec.
  - destruct (IH (Frame bit p v b o :: ctx)) as (b' & q & v' & l' & r' & fs & H1 & H2 & H3 & H4);
      [done|]. exists b', q, v', l', r', (fs ++ [Frame bit p v b o]).
    rewrite <-app_assoc, plug_app, H2. split_and!; [done|done| |done].
    apply Forall_app. split; [done|]. by constructor.
Qed.

Lemma go_up_spec n ctx d :
  Sorted (fun f g => f_bit g < f_bit f) ctx ->
  exists pop up, ctx = pop ++ up /\ go_up n ctx d = (plug n pop, up) /\
    Forall (fun f => d <= f_bit f) pop /\ Forall (fun f => f_bit f < d) up.
Proof.
  revert n. induction ctx as [|f ctx IH]; intros n Hs; [by exists [], []|]. cbn [go_up].
  destruct (Z.leb_spec d (f_bit f)).
  - apply Sorted_inv in Hs as [Hs _]. destruct (IH (rebuild f n) Hs) as (pop & up & -> & H1 & H2 & H3).
    exists (f :: pop), up. split_and!; [done|done|by constructor|done].
  - exists [], (f :: ctx). split_and!; [done|done|done|]. constructor; [done|].
    apply Sorted_StronglySorted in Hs; [|intros ? ? ?; lia].
    apply StronglySorted_inv in Hs as [_ Hs]. eapply Forall_impl; [exact Hs|]. simpl. lia.
Qed.

(** The node where the walk stopped stands above every bit on which [x] agrees
  with the tree: climbing leaves the subtree at which [x] branches off. *)
Lemma climb_root x bit q v l r pop d :
  wf (plug (Node bit (Some q) v l r) pop) -> Forall (follows (add x)) pop ->
  Forall (fun f => d <= f_bit f) pop -> d <= bit ->
  exists b p v' l' r', plug (Node bit (Some q) v l r) pop = Node b p v' l' r' /\ d <= b <= bit /\
    (q, v) ∈ elems (Node b p v' l' r') /\
    (pop = [] \/ (b < bit /\ abit (add q) b = abit (add x) b)).
Proof.
  intros Hwf Hf Hd Hb. destruct pop as [|g pop _] using rev_ind.
  { exists bit, (Some q), v, l, r. split_and!; [done|lia|lia|by left|by left]. }
  apply Forall_app in Hf as [_ Hg]. apply Forall_cons in Hg as [Hg _].
  apply Forall_app in Hd as [_ Hdg]. apply Forall_cons in Hdg as [Hdg _].
  pose proof (frames_below _ _ _ _ _ _ Hwf) as Hlt.
  apply Forall_app in Hlt as [_ Hlt]. apply Forall_cons in Hlt as [Hlt _].
  assert (Hin : (q, v) ∈ elems (plug (Node bit (Some q) v l r) pop)) by (rewrite plug_elems; by left).
  rewrite plug_app in *. set (c := plug _ pop) in *. change (plug c [g]) with (rebuild g c) in *.
  assert (Hq : abit (add q) (f_bit g) = f_right g).
  { unfold rebuild in Hwf. destruct (f_right g); destruct Hwf as (_ & _ & _ & _ & H5 & H6 & _);
      unfold side in *; rewrite Forall_forall in H5, H6;
      [apply (H6 (q, v))|apply (H5 (q, v))]; done. }
  assert (Hin2 : (q, v) ∈ elems (rebuild g c)) by (rewrite rebuild_elems; set_solver).
  revert Hin2. unfold rebuild. destruct (f_right g) eqn:Er; intros Hin2.
  - eexists _, _, _, _, _. split; [done|]. split_and!; [lia|lia|done|]. right. split; [lia|].
    by rewrite Hq, <-Hg, Er.
  - eexists _, _, _, _, _. split; [done|]. split_and!; [lia|lia|done|]. right. split; [lia|].
    by rewrite Hq, <-Hg, Er.
Qed.

Definition leaf (x : prefix) (v : Z) : node := Node (bitlen x) (Some x) v Null Null.

Lemma alike_single bit x v : alike bit [(x, v)].
Proof. intros e1 e2 ->%list_elem_of_singleton ->%list_elem_of_singleton. done. Qed.

Lemma wf_leaf x v : pfx_ok x -> wf (leaf x v).
Proof.
  intros Hx. unfold leaf. simpl. split_and!; try done; try apply Hx; try constructor.
  apply alike_single.
Qed.

Lemma side_same bit b p v l r q u :
  wf (Node b p v l r) -> (q, u) ∈ elems (Node b p v l r) -> 0 <= bit < b ->
  side bit (abit (add q) bit) (Node b p v l r).
Proof.
  intros (_ & _ & _ & _ & _ & _ & Hal & _) Hq Hb. apply Forall_forall. intros e He.
  apply (Hal e (q, u) He Hq). lia.
Qed.

Lemma wf_alike b p v l r : wf (Node b p v l r) -> alike b (elems (Node b p v l r)).
Proof. intros (_ & _ & _ & _ & _ & _ & H & _). exact H. Qed.

(** The four places a prefix can take, each a well-formed subtree. *)
Section places.
Context (x : prefix) (val : Z) (Hx : pfx_ok x).
Context (b : Z) (p : option prefix) (u : Z) (l r : node).
Context (q : prefix) (v : Z).
Let n := Node b p u l r.
Context (Hn : wf n) (Hq : (q, v) ∈ elems n).

Lemma wf_glue_mod :
  p = None -> b = bitlen x -> agree b (add q) (add x) -> wf (Node b (Some x) val l r).
Proof.
  intros -> Hb Hag. pose proof (wf_alike _ _ _ _ _ Hn) as Hal.
  destruct Hn as (H1 & H2 & H3 & H4 & H5 & H6 & H7 & H8 & H9). simpl.
  split_and!; first [done | lia | by apply (alike_cons b _ x val (q, v))].
Qed.

Lemma wf_child bx :
  abit (add x) b = bx -> (if bx then r else l) = Null -> b < bitlen x -> agree b (add q) (add x) ->
  wf (if bx then Node b p u l (leaf x val) else Node b p u (leaf x val) r) /\
  elems (if bx then Node b p u l (leaf x val) else Node b p u (leaf x val) r)
    ≡ₚ (x, val) :: elems n.
Proof.
  intros Hbx Hnull Hlt Hag. pose proof (wf_alike _ _ _ _ _ Hn) as Hal.
  pose proof (wf_leaf x val Hx) as Hlf.
  assert (Hp : elems (if bx then Node b p u l (leaf x val) else Node b p u (leaf x val) r)
    ≡ₚ (x, val) :: elems n).
  { unfold n, leaf. destruct bx; subst; cbn [elems]; solve_Permutation. }
  split; [|done].
  assert (Hal' : alike b (elems (if bx then Node b p u l (leaf x val) else Node b p u (leaf x val) r))).
  { eapply alike_sub; [by apply (alike_cons b (elems n) x val (q, v))|]. intros e. by rewrite Hp. }
  assert (Hs : side b bx (leaf x val)) by (constructor; [done|constructor]).
  destruct Hn as (H1 & H2 & H3 & H4 & H5 & H6 & H7 & H8 & H9).
  destruct bx; subst;
    (split_and!; first [done | simpl; lia | revert H2; clear; destruct p; [done|by intros [??]]]).
Qed.

Lemma wf_parent bq :
  abit (add q) (bitlen x) = bq -> bitlen x < b -> agree (bitlen x) (add q) (add x) ->
  let n' := if bq : bool then Node (bitlen x) (Some x) val Null n
            else Node (bitlen x) (Some x) val n Null in
  wf n' /\ elems n' ≡ₚ (x, val) :: elems n.
Proof.
  intros Hbq Hlt Hag n'.
  assert (Hp : elems n' ≡ₚ (x, val) :: elems n).
  { unfold n'. destruct bq; cbn [elems]; by rewrite ?app_nil_r. }
  split; [|done]. assert (Hal : alike (bitlen x) (elems n')).
  { eapply alike_sub; [apply (alike_cons (bitlen x) (elems n) x val (q, v))|]; try done.
    - intros e1 e2 H1 H2. eapply agree_le; [by apply (wf_alike _ _ _ _ _ Hn)|lia].
    - intros e. by rewrite Hp. }
  pose proof (side_same (bitlen x) b p u l r q v Hn Hq) as Hs.
  destruct Hx as [Hxa Hxb]. rewrite Hbq in Hs. unfold n' in *.
  destruct bq; (split_and!; first [done | lia | apply Hs; lia | change (bitlen x < b); lia | constructor]).
Qed.

Lemma wf_glue d bx :
  abit (add x) d = bx -> abit (add q) d <> bx -> 0 <= d < b -> d < bitlen x ->
  agree d (add q) (add x) ->
  let n' := rebuild (Frame d None 0 bx n) (leaf x val) in
  wf n' /\ elems n' ≡ₚ (x, val) :: elems n.
Proof.
  intros Hbx Hne Hd Hlt Hag n'.
  assert (Hp : elems n' ≡ₚ (x, val) :: elems n).
  { unfold n'. rewrite rebuild_elems. done. }
  split; [|done]. assert (Hal : alike d (elems n')).
  { eapply alike_sub; [apply (alike_cons d (elems n) x val (q, v))|]; try done.
    - intros e1 e2 H1 H2. eapply agree_le; [by apply (wf_alike _ _ _ _ _ Hn)|lia].
    - intros e. by rewrite Hp. }
  pose proof (side_same d b p u l r q v Hn Hq) as Hs.
  assert (Hbq : abit (add q) d = negb bx) by (destruct bx, (abit (add q) d); done).
  rewrite Hbq in Hs. pose proof (wf_leaf x val Hx) as Hlf.
  assert (Hsx : side d bx (leaf x val)) by (constructor; [done|constructor]).
  assert (Hb : b <= 32 * w) by (destruct Hn as [Hn1 _]; lia).
  unfold n', rebuild in *. cbn [f_bit f_pfx f_uv64 f_right f_other] in *.
  destruct bx; (split_and!; first [done | lia | apply Hs; lia | change (d < b); lia]).
Qed.
End places.

Lemma go_right_ok a i : addr_ok w a -> 0 <= i < 32 * w -> go_right (32 * w) a i = Some (abit a i).
Proof. intros Ha Hi. unfold go_right. replace (i <? 32 * w) with true by lia. by apply bit_test_ok. Qed.

(** The set has no prefix with the bits of [x]. *)
Definition fresh (x : prefix) (l : list (prefix * Z)) : Prop :=
  forall e, e ∈ l -> bitlen e.1 = bitlen x -> ~ agree (bitlen x) (add e.1) (add x).

Lemma attach_spec x val b p u l r up q v d :
  let n := Node b p u l r in
  pfx_ok x -> addr_ok w (add q) -> wf (plug n up) -> (q, v) ∈ elems n -> fresh x (elems n) ->
  agree d (add q) (add x) -> 0 <= d <= bitlen x -> d <= b -> Forall (fun f => f_bit f < d) up ->
  (d < bitlen x -> b = d -> (if abit (add x) b then r else l) = Null) ->
  (d < bitlen x -> d < b -> abit (add q) d <> abit (add x) d) ->
  exists loc t', attach (32 * w) n up x (add q) d = Some loc /\ set_uv64 loc val = Some t' /\
    wf t' /\ elems t' ≡ₚ (x, val) :: elems (plug n up).
Proof.
  intros n Hx Hqa Hwf Hq Hfr Hag Hd Hdb Hup Hchild Hdiff.
  assert (Hn : wf n) by (by eapply wf_plug_inv). destruct Hx as [Hxa Hxb].
  assert (Hb : b <= 32 * w) by (destruct Hn; lia).
  assert (Hput : forall n', wf n' -> match n' with Null => False | Node b' _ _ _ _ => d <= b' end ->
    elems n' ≡ₚ (x, val) :: elems n ->
    wf (plug n' up) /\ elems (plug n' up) ≡ₚ (x, val) :: elems (plug n up)).
  { intros n' H1 H2 H3. by apply (wf_plug n n' x val d (q, v)). }
  unfold n, attach.
  destruct ((d =? bitlen x) && (b =? bitlen x)) eqn:E.
  { apply andb_true_iff in E as [->%Z.eqb_eq ->%Z.eqb_eq]. destruct p as [q0|].
    - exfalso. destruct Hn as (_ & [_ Hq0] & _ & _ & _ & _ & Hal & _).
      apply (Hfr (q0, u)); [by left|done|].
      eapply agree_trans; [|exact Hag]. apply (Hal (q0, u) (q, v)); [by left|done].
    - eexists _, _. split; [done|]. split; [done|]. apply Hput; [|simpl; lia|done].
      by apply (wf_glue_mod x val) with (u := u) (q := q) (v := v) (p := None). }
  destruct (Z.eqb_spec b d) as [->|Hne].
  { assert (Hlt : d < bitlen x).
    { destruct (Z.eqb_spec d (bitlen x)); [done|lia]. }
    rewrite go_right_ok by (done || lia). cbn [mbind option_bind].
    destruct (wf_child x val (conj Hxa Hxb) d p u l r q v Hn Hq (abit (add x) d)) as [H1 H2];
      [done|auto|done|done|]. specialize (Hchild Hlt eq_refl).
    destruct (abit (add x) d); subst; (eexists _, _; split; [done|]; split; [done|]);
      (apply Hput; [exact H1|simpl; lia|exact H2]). }
  destruct (Z.eqb_spec (bitlen x) d) as [<-|Hnd].
  { rewrite go_right_ok by (done || lia). cbn [mbind option_bind].
    destruct (wf_parent x val (conj Hxa Hxb) b p u l r q v Hn Hq (abit (add q) (bitlen x)))
      as [H1 H2]; [done|lia|done|].
    destruct (abit (add q) (bitlen x)); (eexists _, _; split; [done|]; split; [done|]);
      (apply Hput; [exact H1|simpl; lia|exact H2]). }
  rewrite go_right_ok by (done || lia). cbn [mbind option_bind].
  destruct (wf_glue x val (conj Hxa Hxb) b p u l r q v Hn Hq d (abit (add x) d)) as [H1 H2];
    [done|apply Hdiff; lia|lia|lia|done|].
  eexists _, _. split; [done|]. split; [done|]. apply Hput; [exact H1| |exact H2].
  unfold rebuild. simpl. destruct (abit (add x) d); simpl; lia.
Qed.

Lemma patricia_lookup_spec t x val :
  maxbits t = 32 * w -> wf (head t) -> pfx_ok x -> fresh x (elems (head t)) ->
  exists loc t', ndpi_patricia_lookup t x = Some loc /\ set_uv64 loc val = Some t' /\
    wf t' /\ elems t' ≡ₚ (x, val) :: elems (head t).
Proof.
  intros Hm Hwf Hx Hfr. unfold ndpi_patricia_lookup.
  replace (bitlen x <=? maxbits t) with true by (destruct Hx; lia). cbn [negb].
  destruct (head t) as [|hb hp hv hl hr] eqn:Eh.
  { eexists _, _. split; [done|]. split; [done|]. split; [by apply wf_leaf|done]. }
  rewrite <-Eh in *. rewrite Hm.
  destruct (find_leaf_spec x (head t) []) as (bit & q & v & l & r & fs & Hf & Hpl & Hfol & Hst);
    [done|by rewrite Eh|done|]. rewrite Hf. cbn [mbind option_bind].
  rewrite app_nil_r. rewrite <-Hpl in Hwf.
  pose proof (wf_plug_inv _ _ Hwf) as (Hbit & [Hq Hqb] & _).
  set (check := if bit <? bitlen x then bit else bitlen x).
  assert (Hcheck : check = Z.min bit (bitlen x)).
  { unfold check. destruct (Z.ltb_spec bit (bitlen x)); lia. }
  destruct Hx as [Hxa Hxb].
  destruct (differ_loop_spec w (add x) (add q) check (S (length (add x))) 0) as (d0 & Hd0 & Hdif);
    [done|apply Hq|done|lia|lia|destruct Hxa; lia|intros ? ?; lia|].
  change (0 * 8) with 0 in Hd0. rewrite Hd0. cbn [mbind option_bind].
  assert (Hmin : (if check <? d0 then check else d0) = Z.min check d0).
  { destruct (Z.ltb_spec check d0); lia. }
  rewrite Hmin. set (d := Z.min check d0) in *. destruct Hdif as (Hd & Hag & Hne).
  destruct (go_up_spec (Node bit (Some q) v l r) fs d) as (pop & up & -> & Hgo & Hpop & Hup);
    [by eapply wf_frames|]. rewrite Hgo.
  rewrite plug_app in *. apply Forall_app in Hfol as [Hfol _].
  destruct (climb_root x bit q v l r pop d) as (b & p & u & l' & r' & Hroot & Hb & Hin & Hor);
    [by eapply wf_plug_inv|done|done|lia|]. rewrite Hroot in *.
  replace (elems (head t)) with (elems (plug (Node b p u l' r') up)) in * by (by rewrite Hpl).
  apply (attach_spec x val b p u l' r' up q v d); try done; [apply Hq| |by apply agree_sym|lia|lia| |].
  - intros e He. apply Hfr. rewrite plug_elems. apply elem_of_app. by left.
  - intros Hlt Hbd. destruct Hor as [->|[Hlt' Heq]].
    + simpl in Hroot. injection Hroot as <- <- <- <- <-. destruct Hst as [Hst|Hst]; [lia|done].
    + exfalso. apply (Hne ltac:(lia)). by rewrite <-Hbd, Heq.
  - intros Hlt Hdb Heq. apply (Hne ltac:(lia)). by rewrite Heq.
Qed.

End tree.

End Patricia.
