(* ===== verification/Ptree.v ===== *)
(** * The address set of nDPI (ndpi_ptree_t in submodules/nDPI/src/lib/ndpi_main.c)

    Two Patricia trees, one per address family, filled by [ndpi_ptree_insert]
    and searched by [ndpi_ptree_match_addr].  The reference is the list of the
    accepted prefixes.  The family is not an argument: [ndpi_is_ipv6] guesses it
    from the words of the address that IPv4 does not use. *)

From S2P Require Import Prelude Patricia.

Module Ptree.
Import Patricia.

(** [ndpi_ip_addr_t]: the sixteen bytes of the union. *)
Definition ndpi_ip_addr_t := list Z.
Definition ip_addr_ok (a : ndpi_ip_addr_t) : Prop := addr_ok 4 a.

Record ndpi_ptree := Ptree { v4 : patricia_tree; v6 : patricia_tree }.

Definition ndpi_ptree_create : ndpi_ptree :=
  Ptree (ndpi_patricia_new 32) (ndpi_patricia_new 128).

(** [u6_addr32[1] != 0 || u6_addr32[2] != 0 || u6_addr32[3] != 0] *)
Definition ndpi_is_ipv6 (a : ndpi_ip_addr_t) : bool :=
  negb (le_val (take 4 (drop 4 a)) =? 0) || negb (le_val (take 4 (drop 8 a)) =? 0)
  || negb (le_val (take 4 (drop 12 a)) =? 0).

(** [memcpy(.., addr, (maxbits + 7) / 8)] *)
Definition ndpi_fill_prefix (a : ndpi_ip_addr_t) (bits maxbits : Z) : prefix :=
  Prefix (take (Z.to_nat ((maxbits + 7) / 8)) a) bits.

Definition tree_of (t : ndpi_ptree) (is_v6 : bool) : patricia_tree := if is_v6 then v6 t else v4 t.
Definition set_tree (t : ndpi_ptree) (is_v6 : bool) (pt : patricia_tree) : ndpi_ptree :=
  if is_v6 then Ptree (v4 t) pt else Ptree pt (v6 t).

Definition ndpi_ptree_insert (t : ndpi_ptree) (addr : ndpi_ip_addr_t) (bits user_data : Z) :
    option (Z * ndpi_ptree) :=
  let is_v6 := ndpi_is_ipv6 addr in
  let ptree := tree_of t is_v6 in
  if maxbits ptree <? bits then Some (-1, t) else
  let prefix := ndpi_fill_prefix addr bits (maxbits ptree) in
  node ← ndpi_patricia_search_best ptree prefix;
  let exists_ := match node with Some (q, _) => bitlen q =? bits | None => false end in
  if exists_ : bool then Some (-2, t) else
  node ← ndpi_patricia_lookup ptree prefix;
  head' ← set_uv64 node user_data;
  Some (0, set_tree t is_v6 (Tree head' (maxbits ptree))).

(** The result and [*user_data], which is written on success only. *)
Definition ndpi_ptree_match_addr (t : ndpi_ptree) (addr : ndpi_ip_addr_t) (user_data : Z) :
    option (Z * Z) :=
  let ptree := tree_of t (ndpi_is_ipv6 addr) in
  let prefix := ndpi_fill_prefix addr (maxbits ptree) (maxbits ptree) in
  node ← ndpi_patricia_search_best ptree prefix;
  match node with
  | Some (_, uv64) => Some (0, uv64)
  | None => Some (-1, user_data)
  end.

(** ** The reference: the rules accepted, most recent first *)

Definition rule := (ndpi_ip_addr_t * Z * Z)%type.   (* address, bits, value *)

Definition same_bits (n : Z) (a b : list Z) : bool :=
  forallb (fun i => eqb (abit a i) (abit b i)) (Z.of_nat <$> seq 0 (Z.to_nat n)).

Lemma same_bits_agree n a b : same_bits n a b = true <-> agree n a b.
Proof.
  unfold same_bits, agree. rewrite forallb_forall. split.
  - intros H i Hi. apply eqb_prop, H, list_elem_of_In, list_elem_of_fmap.
    exists (Z.to_nat i). split; [lia|]. apply elem_of_seq. lia.
  - intros H k Hk%list_elem_of_In. apply list_elem_of_fmap in Hk as (j & -> & Hj).
    apply elem_of_seq in Hj. rewrite H by lia. apply eqb_reflx.
Qed.

Definition family_bits (v6 : bool) : Z := if v6 then 128 else 32.
(** A rule applies to the addresses nDPI files in the same family and that
    start with its bits. *)
Definition rule_covers (r : rule) (a : ndpi_ip_addr_t) : bool :=
  let '(addr, bits, _) := r in
  eqb (ndpi_is_ipv6 addr) (ndpi_is_ipv6 a) && same_bits bits addr a.
Definition rule_same (r1 r2 : rule) : bool :=
  let '(a1, b1, _) := r1 in let '(a2, b2, _) := r2 in
  (b1 =? b2) && rule_covers r1 a2.

Definition ref_insert (l : list rule) (r : rule) : Z * list rule :=
  let '(addr, bits, _) := r in
  if family_bits (ndpi_is_ipv6 addr) <? bits then (-1, l)
  else if existsb (rule_same r) l then (-2, l)
  else (0, r :: l).

(** The most specific rule for an address. *)
Definition ref_best (l : list rule) (a : ndpi_ip_addr_t) (res : option rule) : Prop :=
  match res with
  | Some r => r ∈ l /\ rule_covers r a = true /\
      (forall r', r' ∈ l -> rule_covers r' a = true ->
        r'.1.2 = r.1.2 /\ r'.2 = r.2 \/ r'.1.2 < r.1.2)
  | None => forall r, r ∈ l -> rule_covers r a = false
  end.

Fixpoint run (t : ndpi_ptree) (rules : list rule) : option (list Z * ndpi_ptree) :=
  match rules with
  | [] => Some ([], t)
  | (addr, bits, v) :: rules =>
      '(rv, t) ← ndpi_ptree_insert t addr bits v;
      '(rvs, t) ← run t rules;
      Some (rv :: rvs, t)
  end.
Fixpoint ref_run (l : list rule) (rules : list rule) : list Z * list rule :=
  match rules with
  | [] => ([], l)
  | r :: rules =>
      let (rv, l) := ref_insert l r in
      let (rvs, l) := ref_run l rules in (rv :: rvs, l)
  end.

(** ** The trees represent the rules *)

Lemma prefix_bytes fam : Z.to_nat ((family_bits fam + 7) / 8) = (if fam : bool then 16 else 4)%nat.
Proof. by destruct fam. Qed.

Definition words (is_v6 : bool) : Z := if is_v6 then 4 else 1.
Definition rule_entry (r : rule) : prefix * Z :=
  let '(a, bits, v) := r in (ndpi_fill_prefix a bits (family_bits (ndpi_is_ipv6 a)), v).
Definition of_family (is_v6 : bool) (l : list rule) : list rule :=
  filter (fun r => ndpi_is_ipv6 r.1.1 = is_v6) l.

Definition rule_ok (r : rule) : Prop :=
  ip_addr_ok r.1.1 /\ 0 <= r.1.2 <= family_bits (ndpi_is_ipv6 r.1.1).

Record tree_rep (l : list rule) (fam : bool) (pt : patricia_tree) : Prop := {
    rep_bits : maxbits pt = family_bits fam;
    rep_wf : wf (words fam) (head pt);
    rep_elems : elems (head pt) ≡ₚ map rule_entry (of_family fam l);
  }.
Definition ptree_rep (l : list rule) (t : ndpi_ptree) : Prop :=
  Forall rule_ok l /\ forall fam, tree_rep l fam (tree_of t fam).

Lemma ptree_rep_init : ptree_rep [] ndpi_ptree_create.
Proof. split; [constructor|]. intros []; by constructor. Qed.

Lemma family_words fam : family_bits fam = 32 * words fam.
Proof. by destruct fam. Qed.

Lemma fill_ok a bits fam :
  ip_addr_ok a -> 0 <= bits <= family_bits fam ->
  pfx_ok (words fam) (ndpi_fill_prefix a bits (family_bits fam)).
Proof.
  intros [Hl Ha] Hb. unfold pfx_ok, ndpi_fill_prefix, addr_ok. cbn [add bitlen].
  rewrite length_take, <-family_words, prefix_bytes. split; [|done].
  split; [destruct fam; unfold words; lia|]. by apply Forall_take.
Qed.

Lemma fill_abit a bits fam i :
  ip_addr_ok a -> 0 <= i < family_bits fam ->
  abit (add (ndpi_fill_prefix a bits (family_bits fam))) i = abit a i.
Proof.
  intros [Hl Ha] Hi. unfold abit, ndpi_fill_prefix. cbn [add]. f_equal.
  rewrite !nth_lookup, lookup_take_lt, ?prefix_bytes; [done|].
  assert (0 <= i / 8 < (if fam : bool then 16 else 4)).
  { split; [apply Z.div_pos; lia|]. apply Z.div_lt_upper_bound; [lia|].
    destruct fam; unfold family_bits in *; lia. }
  rewrite prefix_bytes. destruct fam; lia.
Qed.

Lemma fill_agree a b n bits bits' fam :
  ip_addr_ok a -> ip_addr_ok b -> n <= family_bits fam ->
  agree n (add (ndpi_fill_prefix a bits (family_bits fam)))
    (add (ndpi_fill_prefix b bits' (family_bits fam))) <-> agree n a b.
Proof.
  intros Ha Hb Hn. unfold agree. split; intros H i Hi.
  - specialize (H i Hi). rewrite !fill_abit in H by (done || lia). done.
  - rewrite !fill_abit by (done || lia). auto.
Qed.

Lemma of_family_elem fam r l : r ∈ of_family fam l <-> ndpi_is_ipv6 r.1.1 = fam /\ r ∈ l.
Proof. unfold of_family. by rewrite list_elem_of_filter. Qed.

(** A node covers an address when its rule does. *)
Lemma rule_entry_covers r a bits :
  rule_ok r -> ip_addr_ok a -> ndpi_is_ipv6 r.1.1 = ndpi_is_ipv6 a ->
  covers (rule_entry r).1 (ndpi_fill_prefix a bits (family_bits (ndpi_is_ipv6 a))) <->
  r.1.2 <= bits /\ rule_covers r a = true.
Proof.
  destruct r as [[ra rb] rv]. intros [Hra Hrb] Ha Hf. unfold rule_entry, rule_covers.
  cbn [fst snd] in *. rewrite Hf in *. rewrite eqb_reflx, andb_true_l, same_bits_agree.
  unfold covers. rewrite fill_agree by (done || (simpl; lia)). done.
Qed.

Lemma rule_covers_family r a : rule_covers r a = true -> ndpi_is_ipv6 r.1.1 = ndpi_is_ipv6 a.
Proof. destruct r as [[ra rb] rv]. simpl. intros [H _]%andb_true_iff. by apply eqb_prop. Qed.

(** The search in a tree, in terms of the rules of its family. *)
Lemma search_rules l t a bits :
  ptree_rep l t -> ip_addr_ok a -> 0 <= bits <= family_bits (ndpi_is_ipv6 a) ->
  exists res, ndpi_patricia_search_best (tree_of t (ndpi_is_ipv6 a))
      (ndpi_fill_prefix a bits (family_bits (ndpi_is_ipv6 a))) = Some (rule_entry <$> res) /\
    match res with
    | Some r => r ∈ l /\ rule_covers r a = true /\ r.1.2 <= bits /\
        (forall r', r' ∈ l -> rule_covers r' a = true -> r'.1.2 <= bits ->
          rule_entry r' = rule_entry r \/ r'.1.2 < r.1.2)
    | None => forall r, r ∈ l -> rule_covers r a = true -> bits < r.1.2
    end.
Proof.
  intros [Hok Hrep] Ha Hbits. set (fam := ndpi_is_ipv6 a) in *.
  destruct (Hrep fam) as [Hm Hwf Hel]. rewrite Forall_forall in Hok.
  destruct (search_best_spec (words fam) ltac:(by destruct fam) (tree_of t fam)
    (ndpi_fill_prefix a bits (family_bits fam))) as (res & -> & Hres);
    [by rewrite Hm, family_words|done|by apply fill_ok|].
  assert (Hin : forall r, r ∈ l -> rule_covers r a = true -> r.1.2 <= bits ->
    rule_entry r ∈ elems (head (tree_of t fam)) /\
    covers (rule_entry r).1 (ndpi_fill_prefix a bits (family_bits fam))).
  { intros r Hr Hc Hb. pose proof (rule_covers_family _ _ Hc) as Hf. split.
    - rewrite Hel. apply list_elem_of_fmap. exists r. split; [done|]. by apply of_family_elem.
    - apply rule_entry_covers; auto. }
  destruct res as [e|].
  - destruct Hres as (He & Hc & Hbest). rewrite Hel in He.
    apply list_elem_of_fmap in He as (r & -> & [Hf Hr]%of_family_elem).
    exists (Some r). split; [done|]. apply rule_entry_covers in Hc as [Hb Hcov]; [|auto..].
    split_and!; [done|done|done|]. intros r' Hr' Hc' Hb'.
    destruct (Hin r' Hr' Hc' Hb') as [H1 H2]. destruct (Hbest _ H1 H2) as [H|H]; [by left|right].
    destruct r' as [[? ?] ?], r as [[? ?] ?]. exact H.
  - exists None. split; [done|]. intros r Hr Hc. destruct (decide (bits < r.1.2)); [done|].
    destruct (Hin r Hr Hc) as [H1 H2]; [lia|]. by destruct (Hres _ H1).
Qed.

Lemma rule_same_iff r a bits v :
  rule_same (a, bits, v) r = true <-> r.1.2 = bits /\ rule_covers r a = true.
Proof.
  destruct r as [[ra rb] rv]. simpl. rewrite !andb_true_iff, Z.eqb_eq, !same_bits_agree.
  rewrite !eqb_true_iff. split; intros (H1 & H2 & H3); subst; split_and!; auto using agree_sym.
Qed.

(** One insertion: the return code and the rules after it. *)
Lemma insert_rep l t r :
  ptree_rep l t -> ip_addr_ok r.1.1 -> 0 <= r.1.2 ->
  exists t', ndpi_ptree_insert t r.1.1 r.1.2 r.2 = Some ((ref_insert l r).1, t') /\
    ptree_rep (ref_insert l r).2 t'.
Proof.
  destruct r as [[a bits] v]. cbn [fst snd]. intros Hr Ha Hb. unfold ndpi_ptree_insert, ref_insert.
  set (fam := ndpi_is_ipv6 a). pose proof Hr as [Hok Hrep]. destruct (Hrep fam) as [Hm Hwf Hel].
  rewrite Hm. destruct (Z.ltb_spec (family_bits fam) bits) as [Hlt|Hge]; [by exists t|].
  destruct (search_rules l t a bits Hr Ha) as (res & Hs & Hres); [done|]. fold fam in Hs. rewrite Hs.
  cbn [mbind option_bind].
  assert (Hex : existsb (rule_same (a, bits, v)) l =
    match rule_entry <$> res with Some (q, _) => bitlen q =? bits | None => false end).
  { apply eq_true_iff_eq. rewrite existsb_exists. split.
    - intros (r' & Hr'%list_elem_of_In & [Hb' Hc]%rule_same_iff).
      destruct res as [[[ra rb] rv]|]; simpl.
      + destruct Hres as (_ & _ & Hle & Hbest). destruct (Hbest r') as [H|H]; [done|done|lia| |].
        * destruct r' as [[? ?] ?]. simpl in *. injection H. intros. lia.
        * simpl in *. lia.
      + specialize (Hres r' Hr' Hc). lia.
    - destruct res as [[[ra rb] rv]|]; simpl; [|done]. intros ->%Z.eqb_eq.
      destruct Hres as (Hin & Hc & _). exists (ra, bits, rv). split; [by apply list_elem_of_In|].
      exact (proj2 (rule_same_iff (ra, bits, rv) a bits v) (conj eq_refl Hc)). }
  rewrite Hex. destruct (match rule_entry <$> res with Some (q, _) => _ | None => _ end) eqn:E;
    [by exists t|].
  destruct (patricia_lookup_spec (words fam) ltac:(by destruct fam) (tree_of t fam)
    (ndpi_fill_prefix a bits (family_bits fam)) v) as (loc & hd & Hl & Hsv & Hwf' & Hel');
    [by rewrite Hm, family_words|done|by apply fill_ok| |].
  { intros e He. rewrite Hel in He. apply list_elem_of_fmap in He as (r & -> & [Hf Hrl]%of_family_elem).
    intros Hbl Hag. rewrite Forall_forall in Hok. specialize (Hok r Hrl).
    assert (Hc : existsb (rule_same (a, bits, v)) l = true).
    { apply existsb_exists. exists r. split; [by apply list_elem_of_In|]. apply rule_same_iff.
      pose proof (rule_entry_covers r a bits Hok Ha Hf) as H. destruct r as [[ra rb] rv].
      simpl in Hbl |- *. split; [done|]. apply H. split; [simpl; lia|]. simpl in *. by rewrite Hbl. }
    congruence. }
  rewrite Hl. cbn [mbind option_bind]. rewrite Hsv. cbn [mbind option_bind].
  eexists. split; [done|]. split.
  { constructor; [|done]. split; [done|simpl; fold fam; lia]. }
  intros fam'. unfold tree_of, set_tree. destruct (decide (fam' = fam)) as [->|Hne].
  - assert (Ht : (if fam then v6 (if fam then Ptree (v4 t) (Tree hd (family_bits fam))
        else Ptree (Tree hd (family_bits fam)) (v6 t)) else v4 (if fam then
        Ptree (v4 t) (Tree hd (family_bits fam)) else Ptree (Tree hd (family_bits fam)) (v6 t)))
      = Tree hd (family_bits fam)) by (by destruct fam).
    rewrite Ht. constructor; [done|done|]. cbn [head]. rewrite Hel'. unfold of_family. cbn [snd].
    rewrite filter_cons_True by done. cbn [map]. by rewrite Hel.
  - assert (Ht : (if fam' then v6 (if fam then Ptree (v4 t) (Tree hd (family_bits fam))
        else Ptree (Tree hd (family_bits fam)) (v6 t)) else v4 (if fam then
        Ptree (v4 t) (Tree hd (family_bits fam)) else Ptree (Tree hd (family_bits fam)) (v6 t)))
      = tree_of t fam') by (by destruct fam, fam').
    rewrite Ht. destruct (Hrep fam') as [H1 H2 H3]. constructor; [done|done|].
    rewrite H3. unfold of_family. cbn [snd]. by rewrite filter_cons_False by (simpl; fold fam; congruence).
Qed.

Lemma match_rep l t a u :
  ptree_rep l t -> ip_addr_ok a ->
  exists res, ref_best l a res /\
    ndpi_ptree_match_addr t a u = Some (match res with Some r => (0, r.2) | None => (-1, u) end).
Proof.
  intros Hr Ha. pose proof Hr as [Hok Hrep]. unfold ndpi_ptree_match_addr.
  destruct (Hrep (ndpi_is_ipv6 a)) as [-> _ _].
  destruct (search_rules l t a (family_bits (ndpi_is_ipv6 a)) Hr Ha) as (res & -> & Hres).
  { destruct (ndpi_is_ipv6 a); simpl; lia. }
  assert (Hlen : forall r, r ∈ l -> rule_covers r a = true -> r.1.2 <= family_bits (ndpi_is_ipv6 a)).
  { intros r Hr' Hc. rewrite Forall_forall in Hok. destruct (Hok r Hr') as [_ H].
    rewrite (rule_covers_family _ _ Hc) in H. lia. }
  exists res. cbn [mbind option_bind]. destruct res as [[[ra rb] rv]|]; (split; [|done]).
  - destruct Hres as (H1 & H2 & H3 & H4). split_and!; [done|done|]. intros r' Hr' Hc.
    destruct (H4 r' Hr' Hc (Hlen r' Hr' Hc)) as [H|H]; [left|by right].
    destruct r' as [[? ?] ?]. simpl in *. injection H. auto.
  - intros r Hr' . destruct (rule_covers r a) eqn:Hc; [|done].
    specialize (Hres r Hr' Hc). specialize (Hlen r Hr' Hc). lia.
Qed.

Definition rule_input_ok (r : rule) : Prop := ip_addr_ok r.1.1 /\ 0 <= r.1.2.

Lemma run_rep l t rules :
  ptree_rep l t -> Forall rule_input_ok rules ->
  exists t', run t rules = Some ((ref_run l rules).1, t') /\ ptree_rep (ref_run l rules).2 t'.
Proof.
  intros Hr Hok. revert l t Hr. induction Hok as [|r rules [Ha Hb] Hok IH]; intros l t Hr.
  { by exists t. }
  destruct (insert_rep l t r Hr Ha Hb) as (t1 & H1 & Hr1). cbn [ref_run].
  destruct (ref_insert l r) as [rv l1]. cbn [fst snd] in *.
  destruct (IH l1 t1 Hr1) as (t2 & H2 & Hr2). destruct (ref_run l1 rules) as [rvs l2].
  exists t2. split; [|done]. destruct r as [[a bits] v]. cbn [run fst snd] in *.
  rewrite H1. cbn [mbind option_bind]. by rewrite H2.
Qed.

(** C31: Whatever is inserted, the two Patricia trees answer as the list of the
    accepted rules: an insertion is refused with -1 when the prefix is longer
    than the addresses of its family and with -2 when the same prefix is
    already there, and an address gets the value of the most specific rule that
    covers it.  No assertion fails, no read leaves an address and the search
    stack never overflows. *)
Theorem ptree_refines rules a u :
  Forall rule_input_ok rules -> ip_addr_ok a ->
  exists t res, run ndpi_ptree_create rules = Some ((ref_run [] rules).1, t) /\
    ref_best (ref_run [] rules).2 a res /\
    ndpi_ptree_match_addr t a u = Some (match res with Some r => (0, r.2) | None => (-1, u) end).
Proof.
  intros Hok Ha. destruct (run_rep [] ndpi_ptree_create rules ptree_rep_init Hok) as (t & Ht & Hr).
  destruct (match_rep _ t a u Hr Ha) as (res & Hb & Hm). by exists t, res.
Qed.

Definition ip4_addr (a b c d : Z) : ndpi_ip_addr_t := [a; b; c; d] ++ replicate 12 0.

Lemma ptree_refines_witness :
  let rules := [(ip4_addr 10 0 0 0, 8, 1); (ip4_addr 10 1 0 0, 16, 2); (ip4_addr 10 1 9 9, 16, 3);
                (ip4_addr 192 168 1 0, 24, 4); (ip4_addr 1 2 3 4, 33, 5)] in
  (ref_run [] rules).1 = [0; 0; -2; 0; -1] /\
  (exists t res, run ndpi_ptree_create rules = Some ((ref_run [] rules).1, t) /\
    ref_best (ref_run [] rules).2 (ip4_addr 10 1 7 7) res /\
    ndpi_ptree_match_addr t (ip4_addr 10 1 7 7) 0 =
      Some (match res with Some r => (0, r.2) | None => (-1, 0) end)) /\
  ('(_, t) ← run ndpi_ptree_create rules; ndpi_ptree_match_addr t (ip4_addr 10 1 7 7) 0)
    = Some (0, 2) /\
  ('(_, t) ← run ndpi_ptree_create rules; ndpi_ptree_match_addr t (ip4_addr 11 1 7 7) 0)
    = Some (-1, 0).
Proof.
  intros rules. split_and!; [vm_compute; reflexivity| |vm_compute; reflexivity..].
  apply ptree_refines; [|by vm_compute; repeat constructor].
  repeat (constructor; [by vm_compute; repeat constructor|]). constructor.
Defined.

(** The family is guessed from the address: the IPv6 network 2001:db8::/32 is
    filed as an IPv4 address, so it covers 32.1.13.184 and no IPv6 host. *)
Example v6_network_filed_as_v4 :
  let net := [0x20; 0x01; 0x0d; 0xb8] ++ replicate 12 0 in
  let host6 := [0x20; 0x01; 0x0d; 0xb8] ++ replicate 11 0 ++ [1] in
  ('(rvs, t) ← run ndpi_ptree_create [(net, 32, 7)];
   m6 ← ndpi_ptree_match_addr t host6 0;
   m4 ← ndpi_ptree_match_addr t (ip4_addr 32 1 13 184) 0;
   Some (rvs, m6, m4)) = Some ([0], (-1, 0), (0, 7)).
Proof. vm_compute. reflexivity. Qed.

End Ptree.
