(* ===== verification/Blacklist.v ===== *)
(** * Blacklists and block lists (core/blacklist.c)

    A list of domains and applications in uthash tables and of addresses in the
    nDPI set, loaded from the files of the malware lists or from the lists the
    Java side holds.  [inet_pton] is a parameter ([InetPton]); the booleans are
    the outcomes of the allocations; log messages are not represented. *)

From S2P Require Import Prelude CString UtHash ZdtunTypes Patricia Ptree.

Module Blacklist.
Import Ptree.

Definition EADDRINUSE : Z := 98.
Definition ENOMEM : Z := 12.
Definition EINVAL : Z := 22.
Definition PCAPDROID_NDPI_CATEGORY_MALWARE : Z := 20.

Record blacklists_stats := Stats {
  num_lists : Z; num_domains : Z; num_ips : Z; num_apps : Z; num_failed : Z }.
Record blacklist_stats := BlStats { num_rules : Z; bs_num_failed : Z }.
Inductive blacklist_type := DOMAIN_BLACKLIST | IP_BLACKLIST | UID_BLACKLIST.
#[export] Instance blacklist_type_eq_dec : EqDecision blacklist_type.
Proof. solve_decision. Defined.

Record blacklist := Bl {
    domains : list (cstr * unit);
    uids : list (Z * unit);
    ptree : ndpi_ptree;
    stats : blacklists_stats;
  }.
#[export] Instance eta_stats : Eta blacklists_stats := fun s =>
  Stats (num_lists s) (num_domains s) (num_ips s) (num_apps s) (num_failed s).
#[export] Instance eta_blacklist : Eta blacklist := fun b =>
  Bl (domains b) (uids b) (ptree b) (stats b).

(** [inet_pton(AF_INET, s, ..)] and [inet_pton(AF_INET6, s, ..)]. *)
Class InetPton := {
    inet_pton4 : cstr -> option (list Z);
    inet_pton6 : cstr -> option (list Z);
  }.
Class InetPtonOk (I : InetPton) := {
    inet_pton4_ok s a : inet_pton4 s = Some a -> length a = 4%nat /\ bytes_ok a;
    inet_pton6_ok s a : inet_pton6 s = Some a -> length a = 16%nat /\ bytes_ok a;
  }.

Definition ip_zeros : ndpi_ip_addr_t := replicate 16 0.
Definition ndpi_of_v4 (a : list Z) : ndpi_ip_addr_t := a ++ replicate 12 0.

Definition blacklist_init (calloc_ok ptree_ok : bool) : option blacklist :=
  if negb calloc_ok then None else
  if negb ptree_ok then None else
  Some (Bl [] [] ndpi_ptree_create (Stats 0 0 0 0 0)).

(** ** Matching *)

Definition WWW : cstr := str "www.".
(** [if(strncmp(domain, "www.", 4) == 0) domain += 4] *)
Definition strip_www (domain : cstr) : cstr :=
  if has_prefix WWW domain then drop 4 domain else domain.

(** The offset of the suffix it returns. *)
Definition get_second_level_domain (domain : cstr) : nat :=
  match memrchr domain DOT (length domain) with
  | None => 0
  | Some O => 0
  | Some dot =>
      match memrchr domain DOT dot with
      | None => 0
      | Some dot => S dot
      end
  end%nat.

Definition blacklist_match_domain (bl : blacklist) (domain : cstr) : bool :=
  let domain := strip_www domain in
  match HASH_FIND domain (domains bl) with
  | Some _ => true
  | None =>
      let off := get_second_level_domain domain in
      if Nat.eqb off 0 then false else
      match HASH_FIND (drop off domain) (domains bl) with Some _ => true | None => false end
  end.

Definition blacklist_match_uid (bl : blacklist) (uid : Z) : bool :=
  match HASH_FIND uid (uids bl) with Some _ => true | None => false end.

Definition match_addr (ip : zdtun_ip) (ipver : Z) : ndpi_ip_addr_t :=
  if ipver =? 4 then le_bytes 4 (ip4 ip) ++ replicate 12 0 else ip_bytes ip.
Definition blacklist_match_ip (bl : blacklist) (ip : zdtun_ip) (ipver : Z) : option bool :=
  '(_, res) ← ndpi_ptree_match_addr (ptree bl) (match_addr ip ipver) 0;
  Some (res =? PCAPDROID_NDPI_CATEGORY_MALWARE).

Definition blacklist_get_stats (bl : blacklist) : blacklists_stats := stats bl.

(** ** Adding *)

Definition set_stats (f : blacklists_stats -> blacklists_stats) : M blacklist unit :=
  modifyS (fun bl => bl <| stats ::= f |>).

Definition blacklist_add_domain (domain : cstr) (malloc_ok strdup_ok : bool) : M blacklist Z :=
  let domain := strip_www domain in
  bl ← getS;
  if blacklist_match_domain bl domain then mret (- EADDRINUSE) else
  if negb malloc_ok then mret (- ENOMEM) else
  if negb strdup_ok then mret (- ENOMEM) else
  modifyS (fun bl => bl <| domains ::= HASH_ADD domain tt |>) ;;
  set_stats (fun s => s <| num_domains ::= Z.succ |>) ;;
  mret 0.

(** The parameter [bits] is a [uint8_t]. *)
Definition blacklist_add_ip (addr : ndpi_ip_addr_t) (bits : Z) : M blacklist Z :=
  bl ← getS;
  r ← liftO (ndpi_ptree_insert (ptree bl) addr bits PCAPDROID_NDPI_CATEGORY_MALWARE);
  modifyS (fun bl => bl <| ptree := snd r |>) ;;
  if negb (fst r =? 0) then mret (if fst r =? -2 then - EADDRINUSE else - EINVAL) else
  set_stats (fun s => s <| num_ips ::= Z.succ |>) ;;
  mret 0.

Definition blacklist_add_uid (uid : Z) (malloc_ok : bool) : M blacklist Z :=
  bl ← getS;
  if blacklist_match_uid bl uid then mret (- EADDRINUSE) else
  if negb malloc_ok then mret (- ENOMEM) else
  modifyS (fun bl => bl <| uids ::= HASH_ADD uid tt |>) ;;
  set_stats (fun s => s <| num_apps ::= Z.succ |>) ;;
  mret 0.

(** What is left in the tables when the iterations end. *)
Definition blacklist_destroy (bl : blacklist) : list (cstr * unit) * list (Z * unit) :=
  (HASH_CLEAR (domains bl), HASH_CLEAR (uids bl)).

Section inet.
Context `{InetPton}.

(** ndpi_main.c; the result is zeroed first. *)
Definition ndpi_parse_ip_string (ip_str : cstr) : Z * ndpi_ip_addr_t :=
  match strchr ip_str DOT with
  | Some _ =>
      match inet_pton4 ip_str with
      | Some a => (4, ndpi_of_v4 a)
      | None => (-1, ip_zeros)
      end
  | None =>
      match inet_pton6 ip_str with
      | Some a => (6, a)
      | None => (-1, ip_zeros)
      end
  end.

(** zdtun.c; what the argument held before, where the call does not write. *)
Definition zdtun_parse_ip (ip_str : cstr) (parsed : zdtun_ip) : Z * zdtun_ip :=
  match strchr ip_str DOT with
  | Some _ =>
      match inet_pton4 ip_str with
      | Some a => (4, ZIp (a ++ drop 4 (ip_bytes parsed)))
      | None => (-1, parsed)
      end
  | None =>
      match inet_pton6 ip_str with
      | Some a => (6, ZIp a)
      | None => (-1, parsed)
      end
  end.

Definition blacklist_match_ipstr (bl : blacklist) (ip_str : cstr) (uninit : zdtun_ip) : option bool :=
  let (ipver, parsed) := zdtun_parse_ip ip_str uninit in
  if ipver <? 0 then Some false else blacklist_match_ip bl parsed ipver.

Definition blacklist_add_ipstr (ip : cstr) : M blacklist Z :=
  let (ipver, addr) := ndpi_parse_ip_string ip in
  if negb (ipver =? 4) && negb (ipver =? 6) then mret (- EINVAL) else
  let bits := if ipver =? 4 then 32 else 128 in
  blacklist_add_ip addr bits.

(** ** Loading a file *)

Record counts := Counts { num_ok : Z; num_fail : Z; num_dup : Z }.
#[export] Instance eta_counts : Eta counts := fun c =>
  Counts (num_ok c) (num_fail c) (num_dup c).
Definition max_file_rules : Z := 500000.

Definition count_rv (rv : Z) (c : counts) : counts :=
  if rv =? 0 then c <| num_ok ::= Z.succ |>
  else if rv =? - EADDRINUSE then c <| num_dup ::= Z.succ |>
  else c <| num_fail ::= Z.succ |>.

(** [if(slash) *slash = 0] *)
Definition before_slash (line : cstr) : cstr :=
  match strchr line SLASH with Some i => take i line | None => line end.

(** One turn of the loop, for the characters [fgets] stored; [mem] is the outcome of the allocations. *)
Definition load_line (btype : blacklist_type) (mem : bool * bool) (chars : list Z) (c : counts) :
    M blacklist counts :=
  let item := c_str chars in
  match item with
  | [] => mret c
  | ch :: _ =>
      if (ch =? HASH) || (ch =? LF) then mret c else
      let line := cut_at [CR; LF] item in
      let slash := strchr line SLASH in
      let buffer := before_slash line in
      let (ipver, ip_addr) := ndpi_parse_ip_string buffer in
      let is_ip_addr := (ipver =? 4) || (ipver =? 6) in
      if max_file_rules <=? num_ok c then mret (c <| num_fail ::= Z.succ |>) else
      if bool_decide (btype = IP_BLACKLIST) then
        if negb is_ip_addr then mret (c <| num_fail ::= Z.succ |>) else
        bits ← liftO (match slash with
                      | Some i => atoi (drop (S i) line)
                      | None => Some (if ipver =? 4 then 32 else 128)
                      end);
        let ipv4 := le_val (take 4 ip_addr) in
        if ((ipver =? 4) && (bits =? 32)) &&
           ((ipv4 =? 0) || (ipv4 =? 0xFFFFFFFF) || (ipv4 =? 0x7F000001))
        then mret c else
        rv ← blacklist_add_ip ip_addr (u8 bits);
        mret (count_rv rv c)
      else
        if is_ip_addr then mret (c <| num_fail ::= Z.succ |>) else
        rv ← blacklist_add_domain buffer (fst mem) (snd mem);
        mret (count_rv rv c)
  end.

Definition BUFFER_SIZE : nat := 256.

(** [i] counts the turns, to name the allocations. *)
Fixpoint load_loop (fuel : nat) (btype : blacklist_type) (mem : nat -> bool * bool) (i : nat)
    (f : list Z) (c : counts) : M blacklist counts :=
  match fuel with
  | O => ub
  | S fuel =>
      match fgets BUFFER_SIZE f with
      | None => mret c
      | Some (chars, f) =>
          c ← load_line btype (mem i) chars c;
          load_loop fuel btype mem (S i) f c
      end
  end.

(** [file] is the contents of the file, [None] when it cannot be opened. *)
Definition blacklist_load_file (file : option (list Z)) (btype : blacklist_type)
    (mem : nat -> bool * bool) : M blacklist (Z * option blacklist_stats) :=
  match file with
  | None => mret (-1, None)
  | Some f =>
      c ← load_loop (S (length f)) btype mem 0 f (Counts 0 0 0);
      set_stats (fun s => s <| num_lists ::= Z.succ |> <| num_failed ::= Z.add (num_fail c) |>) ;;
      mret (0, Some (BlStats (num_ok c) (num_fail c)))
  end.

(** ** Loading the lists of the Java side: their strings, [None] a null reference *)

Fixpoint bl_load_list_of_type (items : list (option cstr)) (tp : blacklist_type)
    (mem : nat -> bool * bool) (i : nat) (num_loaded : Z) : M blacklist Z :=
  match items with
  | [] => mret num_loaded
  | None :: items => bl_load_list_of_type items tp mem (S i) num_loaded
  | Some val :: items =>
      rv ← match tp with
           | IP_BLACKLIST => blacklist_add_ipstr val
           | DOMAIN_BLACKLIST => blacklist_add_domain val (fst (mem i)) (snd (mem i))
           | UID_BLACKLIST => uid ← liftO (atoi val); blacklist_add_uid uid (fst (mem i))
           end;
      if rv =? 0 then bl_load_list_of_type items tp mem (S i) (num_loaded + 1)
      else if negb (rv =? - EADDRINUSE) then mret (-1)
      else bl_load_list_of_type items tp mem (S i) num_loaded
  end.

Definition blacklist_load_list_descriptor (apps hosts ips : list (option cstr))
    (mem : nat -> bool * bool) : M blacklist Z :=
  num_apps ← bl_load_list_of_type apps UID_BLACKLIST mem 0 0;
  num_domains ← bl_load_list_of_type hosts DOMAIN_BLACKLIST mem (length apps) 0;
  num_ips ← bl_load_list_of_type ips IP_BLACKLIST mem (length apps + length hosts) 0;
  mret (if (num_apps =? -1) || (num_ips =? -1) || (num_domains =? -1) then -1 else 0).

End inet.

(** ** Domains *)

Definition dots (s : list Z) : nat := length (filter (fun c => c = DOT) s).
(** The last two labels of a name that has more. *)
Inductive second_level : cstr -> cstr -> Prop :=
  | sl_short d : (dots d <= 1)%nat -> second_level d d
  | sl_long p a b : DOT ∉ a -> DOT ∉ b -> second_level (p ++ DOT :: a ++ DOT :: b) (a ++ DOT :: b).

Definition sld (d : cstr) : cstr := drop (get_second_level_domain d) d.

Lemma dots_app (a b : list Z) : dots (a ++ b) = (dots a + dots b)%nat.
Proof. unfold dots. by rewrite filter_app, length_app. Qed.
Lemma dots_cons (a : list Z) : dots (DOT :: a) = S (dots a).
Proof. unfold dots. by rewrite filter_cons_True. Qed.
Lemma dots_none (a : list Z) : DOT ∉ a -> dots a = 0%nat.
Proof.
  intros H. unfold dots. rewrite (proj2 (length_zero_iff_nil _)); [done|].
  apply elem_of_nil_inv. intros x [-> Hx]%list_elem_of_filter. done.
Qed.
Lemma dots_none_inv (a : list Z) : dots a = 0%nat -> DOT ∉ a.
Proof.
  intros H Hin. apply length_zero_iff_nil in H.
  assert (Hf : DOT ∈ filter (fun c => c = DOT) a) by (by apply list_elem_of_filter).
  rewrite H in Hf. by apply not_elem_of_nil in Hf.
Qed.

Lemma sld_correct d : second_level d (sld d).
Proof.
  unfold sld, get_second_level_domain.
  destruct (memrchr d DOT (length d)) as [i|] eqn:E1.
  2:{ apply sl_short. apply memrchr_notin in E1. rewrite take_ge in E1 by lia.
      rewrite dots_none by done. lia. }
  pose proof (memrchr_Some _ _ _ _ E1) as (Hi & _ & _).
  destruct (memrchr_split _ _ _ _ E1) as (b & Hb & Hnb); [lia|]. rewrite take_ge in Hb by lia.
  assert (Hone : DOT ∉ take i d -> second_level d d).
  { intros Ha. apply sl_short. rewrite Hb, dots_app, dots_cons, !dots_none by done. lia. }
  destruct i as [|i]; [apply Hone, not_elem_of_nil|].
  destruct (memrchr d DOT (S i)) as [j|] eqn:E2; [|by apply Hone, memrchr_notin].
  pose proof (memrchr_Some _ _ _ _ E2) as (Hj & _ & _).
  destruct (memrchr_split _ _ _ _ E2) as (a & Ha & Hna); [lia|]. rewrite Ha in Hb.
  assert (Hd : d = take j d ++ DOT :: a ++ DOT :: b) by (rewrite Hb at 1; by rewrite <-app_assoc).
  assert (Hdr : drop (S j) d = a ++ DOT :: b).
  { rewrite Hd at 1. rewrite drop_app_ge by (rewrite length_take; lia).
    rewrite length_take. replace (S j - j `min` length d)%nat with 1%nat by lia. done. }
  rewrite Hdr. rewrite Hd at 1. by apply sl_long.
Qed.

Lemma last_dot_unique a b a' b' :
  DOT ∉ b -> DOT ∉ b' -> a ++ DOT :: b = a' ++ DOT :: b' -> a = a' /\ b = b'.
Proof.
  intros Hb Hb' H.
  assert (Hr : forall x y x' y' : cstr, DOT ∉ x -> DOT ∉ x' -> x ++ DOT :: y = x' ++ DOT :: y' ->
    x = x' /\ y = y').
  { induction x as [|c x IH]; intros y x' y' Hx Hx' Heq; destruct x' as [|c' x'].
    - by injection Heq.
    - injection Heq as <- _. destruct Hx'. by left.
    - injection Heq as -> _. destruct Hx. by left.
    - injection Heq as -> Heq. apply not_elem_of_cons in Hx as [_ Hx], Hx' as [_ Hx'].
      destruct (IH _ _ _ Hx Hx' Heq) as [-> ->]. done. }
  apply (f_equal reverse) in H. rewrite !reverse_app, !reverse_cons, <-!app_assoc in H.
  destruct (Hr (reverse b) (reverse a) (reverse b') (reverse a')) as [H1 H2];
    [by rewrite elem_of_reverse..|exact H|].
  by split; apply (inj reverse).
Qed.

Lemma second_level_unique d s1 s2 : second_level d s1 -> second_level d s2 -> s1 = s2.
Proof.
  intros H1 H2. destruct H1 as [d Hd|p a b Ha Hb]; inversion H2 as [d' Hd'|p' a' b' Ha' Hb' Heq]; subst.
  - done.
  - exfalso. rewrite dots_app, dots_cons, dots_app, dots_cons in Hd. lia.
  - exfalso. rewrite dots_app, dots_cons, dots_app, dots_cons in Hd'. lia.
  - clear H2. revert Heq. rewrite !app_comm_cons, !app_assoc. intros Heq.
    apply last_dot_unique in Heq as [Heq ->]; [|done..].
    by apply last_dot_unique in Heq as [_ ->].
Qed.

Lemma second_level_idem d s : second_level d s -> second_level s s.
Proof.
  intros [d' Hd|p a b Ha Hb]; [by apply sl_short|]. apply sl_short.
  rewrite dots_app, dots_cons, !dots_none by done. lia.
Qed.

(** [x] is under the listed domain [d]: the same name, or its last two labels. *)
Definition under (x d : cstr) : Prop := x = d \/ second_level x d.

Lemma under_sld x d : under x d <-> x = d \/ sld x = d.
Proof.
  unfold under. split; intros [H|H]; auto.
  - right. by apply (second_level_unique x); [apply sld_correct|].
  - right. subst. apply sld_correct.
Qed.

Lemma match_domain_iff bl x :
  blacklist_match_domain bl x = true <->
  exists d, d ∈ hash_keys (domains bl) /\ under (strip_www x) d.
Proof.
  unfold blacklist_match_domain. set (y := strip_www x).
  assert (Hf : forall k, HASH_FIND k (domains bl) = None <-> k ∉ hash_keys (domains bl))
    by (intros; apply HASH_FIND_None).
  setoid_rewrite under_sld.
  assert (Hex : forall k, (exists u, HASH_FIND k (domains bl) = Some u) <-> k ∈ hash_keys (domains bl)).
  { intros k. specialize (Hf k). destruct (HASH_FIND k (domains bl)) as [u|].
    - split; [|by exists u]. intros _. destruct (decide (k ∈ hash_keys (domains bl))) as [|Hn]; [done|].
      by apply Hf in Hn.
    - split; [by intros [? ?]|]. intros Hk. by destruct (proj1 Hf eq_refl). }
  destruct (HASH_FIND y (domains bl)) as [u|] eqn:E1.
  { split; [|done]. intros _. exists y. split; [apply Hex; eauto|by left]. }
  assert (Hy : y ∉ hash_keys (domains bl)) by (by apply Hf).
  destruct (Nat.eqb_spec (get_second_level_domain y) 0) as [E0|E0].
  - split; [done|]. intros (d & Hd & [<-|Hs]); [done|]. unfold sld in Hs. rewrite E0 in Hs. by subst.
  - fold (sld y). case_match eqn:E2.
    + split; [|done]. intros _. exists (sld y). split; [apply Hex; eauto|by right].
    + split; [done|]. intros (d & Hd & [<-|<-]); [done|]. by apply Hf in E2.
Qed.

(** ** The invariant of a blacklist *)

(** [rules] are the accepted addresses; the counters are exact. *)
Record bl_ok (rules : list rule) (bl : blacklist) : Prop := {
    ok_uids : hash_wf (uids bl);
    ok_rules : ptree_rep rules (ptree bl);
    ok_malware : Forall (fun r => r.2 = PCAPDROID_NDPI_CATEGORY_MALWARE) rules;
    ok_num_domains : num_domains (stats bl) = HASH_COUNT (domains bl);
    ok_num_apps : num_apps (stats bl) = HASH_COUNT (uids bl);
    ok_num_ips : num_ips (stats bl) = Z.of_nat (length rules);
  }.

Definition bl_empty : blacklist := Bl [] [] ndpi_ptree_create (Stats 0 0 0 0 0).

Lemma bl_ok_empty : bl_ok [] bl_empty.
Proof. constructor; try done; [constructor|apply ptree_rep_init]. Qed.

Lemma HASH_COUNT_ADD {K V} (k : K) (v : V) h : HASH_COUNT (HASH_ADD k v h) = Z.succ (HASH_COUNT h).
Proof. unfold HASH_COUNT, HASH_ADD. rewrite length_app. simpl. lia. Qed.

(** A domain is written without a second "www.": then an entry that is refused
    as a duplicate is matched all the same. *)
Definition clean (d : cstr) : Prop := strip_www (strip_www d) = strip_www d.

Definition adds_domain (d : cstr) (bl bl' : blacklist) : Prop :=
  forall x, blacklist_match_domain bl' x = true <->
    blacklist_match_domain bl x = true \/ under (strip_www x) (strip_www d).

Lemma under_trans x d e : under x d -> under d e -> under x e.
Proof.
  intros [->|H1] [->|H2]; [by left|by right|by right|].
  right. by rewrite <-(second_level_unique d d e (second_level_idem _ _ H1) H2).
Qed.

Lemma add_domain_wp rules d m s bl :
  bl_ok rules bl ->
  wp (blacklist_add_domain d m s) (fun rv bl' =>
    bl_ok rules bl' /\ uids bl' = uids bl /\ (rv = 0 \/ rv <> 0 /\ bl' = bl) /\
    num_domains (stats bl') = num_domains (stats bl) + (if rv =? 0 then 1 else 0) /\
    (clean d -> m = true -> s = true -> adds_domain d bl bl')) bl.
Proof.
  intros Hok. unfold blacklist_add_domain. wp_run.
  destruct (blacklist_match_domain bl (strip_www d)) eqn:E.
  { wp_run. split_and!; [done|done|right; done|simpl; lia|]. intros Hc _ _ x.
    apply match_domain_iff in E as (e & He & Hu). rewrite Hc in Hu. rewrite match_domain_iff.
    split; [by left|]. intros [H|H]; [done|]. exists e. split; [done|]. by eapply under_trans. }
  destruct m; cbn [negb]; cbv iota; [|wp_run; split_and!; try done; [by right|simpl; lia]].
  destruct s; cbn [negb]; cbv iota; [|wp_run; split_and!; try done; [by right|simpl; lia]].
  unfold set_stats. wp_run. destruct Hok as [H1 H2 H3 H4 H5 H6]. split_and!.
  - constructor; try done. cbn. rewrite HASH_COUNT_ADD. lia.
  - done.
  - by left.
  - simpl. lia.
  - intros _ _ _ x. rewrite !match_domain_iff. cbn [domains set_field]. unfold hash_keys, HASH_ADD.
    cbn. rewrite fmap_app. split.
    + intros (e & [He|He]%elem_of_app & Hu); [left; eauto|right].
      by apply list_elem_of_singleton in He as ->.
    + intros [(e & He & Hu)|Hu]; eexists; (split; [apply elem_of_app|exact Hu]); [by left|right].
      by apply list_elem_of_singleton.
Qed.

Lemma add_ip_wp rules a bits bl :
  bl_ok rules bl -> ip_addr_ok a -> 0 <= bits ->
  wp (blacklist_add_ip a bits) (fun rv bl' =>
    let r := (a, bits, PCAPDROID_NDPI_CATEGORY_MALWARE) in
    rv = (if (ref_insert rules r).1 =? 0 then 0
          else if (ref_insert rules r).1 =? -2 then - EADDRINUSE else - EINVAL) /\
    bl_ok (ref_insert rules r).2 bl' /\ domains bl' = domains bl /\
    num_domains (stats bl') = num_domains (stats bl)) bl.
Proof.
  intros [H1 H2 H3 H4 H5 H6] Ha Hb. set (r := (a, bits, PCAPDROID_NDPI_CATEGORY_MALWARE)).
  unfold blacklist_add_ip. wp_run.
  destruct (insert_rep rules (ptree bl) r H2 Ha Hb) as (t' & Hi & Hrep).
  eapply wp_lift; [exact Hi|]. wp_run. cbn [fst snd].
  assert (Hr : (ref_insert rules r).1 = 0 /\ (ref_insert rules r).2 = r :: rules \/
    (ref_insert rules r).1 <> 0 /\ (ref_insert rules r).2 = rules).
  { unfold ref_insert, r. case_match; [by right|]. case_match; [by right|by left]. }
  destruct (Z.eqb_spec (ref_insert rules r).1 0) as [E|E]; simpl negb; cbv iota.
  - unfold set_stats. wp_run. destruct Hr as [[_ Hr]|[? _]]; [|done]. rewrite Hr in *.
    split_and!; try done. constructor; try done; cbn; [by constructor|lia].
  - wp_run. destruct Hr as [[? _]|[_ Hr]]; [done|]. rewrite Hr in *. split_and!; try done.
Qed.

Lemma add_uid_wp rules uid m bl :
  bl_ok rules bl ->
  wp (blacklist_add_uid uid m) (fun rv bl' =>
    bl_ok rules bl' /\ domains bl' = domains bl /\
    (m = true -> forall u, blacklist_match_uid bl' u = true <->
      blacklist_match_uid bl u = true \/ u = uid)) bl.
Proof.
  intros Hok. unfold blacklist_add_uid. wp_run.
  destruct (blacklist_match_uid bl uid) eqn:E.
  { wp_run. split_and!; [done|done|]. intros _ u. split; [by left|]. by intros [H| ->]. }
  destruct m; cbn [negb]; cbv iota; [|by wp_run].
  unfold set_stats. wp_run. destruct Hok as [H1 H2 H3 H4 H5 H6].
  unfold blacklist_match_uid in *. split_and!; [|done|].
  - constructor; try done; cbn.
    + apply hash_wf_ADD; [done|]. by destruct (HASH_FIND uid (uids bl)).
    + rewrite HASH_COUNT_ADD. lia.
  - intros _ u. cbn. destruct (decide (u = uid)) as [->|Hne].
    + rewrite HASH_FIND_ADD_eq. by split; [right|].
    + rewrite HASH_FIND_ADD_ne by done. split; [by left|]. by intros [H| ->].
Qed.

(** ** Files *)

Section files.
Context `{HI : InetPton} `{HIok : !InetPtonOk HI}.

Lemma parse_ip_ok str : ip_addr_ok (ndpi_parse_ip_string str).2.
Proof.
  unfold ndpi_parse_ip_string, ip_addr_ok, Patricia.addr_ok, ndpi_of_v4.
  assert (Hz : forall n, bytes_ok (replicate n 0)).
  { intros n. apply Forall_replicate. unfold u_ok. lia. }
  destruct (strchr str DOT); [destruct (inet_pton4 str) as [a|] eqn:E|
    destruct (inet_pton6 str) as [a|] eqn:E]; cbn [snd]; try by split; [|apply Hz].
  - apply inet_pton4_ok in E as [Hl Ha]. rewrite length_app, Hl. split; [done|].
    apply Forall_app_2; [done|apply Hz].
  - apply inet_pton6_ok in E as [-> Ha]. done.
Qed.

(** The text of a line that is not a comment. *)
Definition rule_line (chars : list Z) : option cstr :=
  match c_str chars with
  | [] => None
  | ch :: _ => if (ch =? HASH) || (ch =? LF) then None else Some (cut_at [CR; LF] (c_str chars))
  end.
Definition is_ip (s : cstr) : bool :=
  ((ndpi_parse_ip_string s).1 =? 4) || ((ndpi_parse_ip_string s).1 =? 6).

(** The domain on a line of a domain list. *)
Definition domain_rule (chars : list Z) : option cstr :=
  line ← rule_line chars;
  if is_ip (before_slash line) then None else Some (before_slash line).

Definition malware (r : ndpi_ip_addr_t * Z) : rule := (r, PCAPDROID_NDPI_CATEGORY_MALWARE).
(** The address an address list or a line of a file writes, and the length of a prefix
    that is this address alone. *)
Definition addr_of (s : cstr) : option (ndpi_ip_addr_t * Z) :=
  match strchr s DOT with
  | Some _ => a ← inet_pton4 s; Some (a ++ replicate 12 0, 32)
  | None => a ← inet_pton6 s; Some (a, 128)
  end.
(** Addresses of hosts a file cannot blacklist; the third is meant to be 127.0.0.1. *)
Definition reserved : list (list Z) := [[0; 0; 0; 0]; [255; 255; 255; 255]; [1; 0; 0; 127]].
(** The prefix on a line of an address list. *)
Definition file_rule (chars : list Z) : option rule :=
  line ← rule_line chars;
  af ← addr_of (before_slash line);
  len ← match strchr line SLASH with Some i => atoi (drop (S i) line) | None => Some (snd af) end;
  if (snd af =? 32) && (len =? 32) && bool_decide (take 4 (fst af) ∈ reserved) then None
  else Some (fst af, len mod 256, PCAPDROID_NDPI_CATEGORY_MALWARE).
(** A rule is accepted as [ref_insert] says, as long as the file has not had 500000;
    [n] have been, [l] are the rules so far. *)
Definition ref_line (nl : Z * list rule) (r : rule) : Z * list rule :=
  if 500000 <=? nl.1 then nl
  else (if (ref_insert nl.2 r).1 =? 0 then nl.1 + 1 else nl.1, (ref_insert nl.2 r).2).
Definition file_ref (btype : blacklist_type) (n : Z) (l : list rule) (lines : list (list Z)) : Z * list rule :=
  if bool_decide (btype = IP_BLACKLIST) then foldl ref_line (n, l) (omap file_rule lines) else (n, l).
Lemma file_ref_cons btype n l chars lines :
  file_ref btype n l (chars :: lines) =
  file_ref btype (file_ref btype n l [chars]).1 (file_ref btype n l [chars]).2 lines.
Proof.
  unfold file_ref. case_bool_decide; [|done]. cbn [omap list_omap]. destruct (file_rule chars); cbn [foldl]; [|done].
  by destruct (ref_line _ _).
Qed.

Lemma file_ref_skip btype n l chars :
  btype <> IP_BLACKLIST \/ 500000 <= n \/ file_rule chars = None -> file_ref btype n l [chars] = (n, l).
Proof.
  unfold file_ref. intros H. case_bool_decide; [|done]. cbn [omap list_omap].
  destruct (file_rule chars) as [r|]; [|done]. cbn [foldl]. unfold ref_line. cbn [fst].
  destruct H as [H|[H|H]]; [done| |done]. by rewrite (proj2 (Z.leb_le _ _) H).
Qed.
Lemma file_ref_one n l chars r :
  n < 500000 -> file_rule chars = Some r ->
  file_ref IP_BLACKLIST n l [chars] = (if (ref_insert l r).1 =? 0 then n + 1 else n, (ref_insert l r).2).
Proof.
  unfold file_ref. intros Hn E. rewrite bool_decide_true by done. cbn [omap list_omap]. rewrite E. cbn [foldl].
  unfold ref_line. cbn [fst snd]. by rewrite (proj2 (Z.leb_gt _ _) Hn).
Qed.
Lemma addr_of_parse s :
  addr_of s = (let (ipver, a) := ndpi_parse_ip_string s in
    if ipver =? 4 then Some (a, 32) else if ipver =? 6 then Some (a, 128) else None).
Proof.
  unfold addr_of, ndpi_parse_ip_string, ndpi_of_v4.
  destruct (strchr s DOT); [destruct (inet_pton4 s)|destruct (inet_pton6 s)]; done.
Qed.
Lemma reserved_val a :
  ip_addr_ok a ->
  (le_val (take 4 a) =? 0) || (le_val (take 4 a) =? 0xFFFFFFFF) || (le_val (take 4 a) =? 0x7F000001) =
  bool_decide (take 4 a ∈ reserved).
Proof.
  intros [Hl Hb]. set (b := take 4 a). assert (Hb4 : bytes_ok b) by (by apply Forall_take).
  assert (E : le_bytes 4 (le_val b) = b).
  { replace 4%nat with (length b) by (unfold b; rewrite length_take; lia). by apply le_bytes_le_val. }
  assert (Hin : forall v, (le_val b =? v) = true -> b = le_bytes 4 v) by (intros v <-%Z.eqb_eq; done).
  symmetry. case_bool_decide as H.
  - unfold reserved in H. rewrite !elem_of_cons, elem_of_nil in H. destruct H as [->|[->|[->|[]]]]; done.
  - symmetry. apply not_true_iff_false. intros Hv. apply H. unfold reserved. rewrite !elem_of_cons.
    rewrite !orb_true_iff in Hv. destruct Hv as [[Hv|Hv]|Hv]; apply Hin in Hv; auto.
Qed.

(** The prefix length of an address list fits an [int]. *)
Definition numbers_ok (btype : blacklist_type) (chars : list Z) : Prop :=
  btype = IP_BLACKLIST ->
  match rule_line chars with
  | Some line =>
      match strchr line SLASH with Some i => is_Some (atoi (drop (S i) line)) | None => True end
  | None => True
  end.

Definition no_domain (bl bl' : blacklist) : Prop :=
  forall x, blacklist_match_domain bl' x = blacklist_match_domain bl x.

Lemma no_domain_same bl bl' : domains bl' = domains bl -> no_domain bl bl'.
Proof. intros H x. unfold blacklist_match_domain. by rewrite H. Qed.

Record loaded (btype : blacklist_type) (rules : list rule) (chars : list Z) (c : counts) (bl : blacklist)
    (c' : counts) (bl' : blacklist) : Prop := {
  ld_ok : bl_ok (file_ref btype (num_ok c) rules [chars]).2 bl';
  ld_num : btype = IP_BLACKLIST -> num_ok c' = (file_ref btype (num_ok c) rules [chars]).1;
  ld_limit : 0 <= num_ok c' <= max_file_rules;
  ld_step : num_ok c' <= num_ok c + 1;
  ld_count : btype <> IP_BLACKLIST ->
    num_domains (stats bl') - num_domains (stats bl) = num_ok c' - num_ok c;
  }.

Lemma count_ok rv c : num_ok (count_rv rv c) = num_ok c + (if rv =? 0 then 1 else 0).
Proof. unfold count_rv. case_match; simpl; [lia|]. case_match; simpl; lia. Qed.

Lemma count_ok_le rv c : num_ok c <= num_ok (count_rv rv c) <= num_ok c + 1.
Proof. rewrite count_ok. destruct (rv =? 0); lia. Qed.

Lemma load_line_wp rules btype mem chars c bl :
  bl_ok rules bl -> numbers_ok btype chars -> 0 <= num_ok c <= max_file_rules ->
  wp (load_line btype mem chars c) (fun c' bl' => loaded btype rules chars c bl c' bl' /\
    (btype <> IP_BLACKLIST -> mem = (true, true) -> num_ok c < max_file_rules ->
     match domain_rule chars with
     | Some d => clean d -> adds_domain d bl bl'
     | None => no_domain bl bl'
     end)) bl.
Proof.
  intros Hok Hnum Hc. unfold load_line, domain_rule, numbers_ok in *.
  assert (Hstay : forall c', num_ok c' = num_ok c ->
    btype <> IP_BLACKLIST \/ 500000 <= num_ok c \/ file_rule chars = None ->
    loaded btype rules chars c bl c' bl).
  { intros c' E F%(file_ref_skip btype (num_ok c) rules). constructor; rewrite ?F; [done|done|lia|lia|lia]. }
  pose proof (eq_refl (file_rule chars)) as Hfr. unfold file_rule at 2, rule_line in Hfr. unfold rule_line in *.
  destruct (c_str chars) as [|ch item] eqn:Ei; cbv zeta.
  { wp_run. split; [apply Hstay; auto|done]. }
  destruct ((ch =? HASH) || (ch =? LF)); cbn [mbind option_bind] in *.
  { wp_run. split; [apply Hstay; auto|done]. }
  rewrite <-Ei in *. set (line := cut_at [CR; LF] (c_str chars)) in *.
  unfold is_ip. pose proof (parse_ip_ok (before_slash line)) as Hip. rewrite addr_of_parse in Hfr.
  destruct (ndpi_parse_ip_string (before_slash line)) as [ipver addr] eqn:Ep. cbn [fst snd] in *.
  destruct (Z.leb_spec max_file_rules (num_ok c)) as [Hlim|Hlim].
  { wp_run. split; [apply Hstay; auto|]. intros _ _ ?. lia. }
  case_bool_decide as Hb.
  2:{ destruct ((ipver =? 4) || (ipver =? 6)).
      { wp_run. split; [apply Hstay; auto|]. intros _ _ _. done. }
      wp_run. eapply wp_mono; [by apply add_domain_wp|]. intros rv bl' (Hok' & Hu & Hrv & Hn & Hadd).
      wp_run. split; [|intros _ -> _ Hcl; by apply Hadd].
      pose proof (count_ok_le rv c). pose proof (count_ok rv c).
      constructor; [rewrite file_ref_skip by auto; done|done|lia|lia|lia]. }
  destruct ((ipver =? 4) || (ipver =? 6)) eqn:Ev; cbn [negb]; cbv iota.
  2:{ apply orb_false_iff in Ev as [E4 E6]. rewrite E4, E6 in Hfr. wp_run. split; [apply Hstay; auto|by intros ?]. }
  assert (Haf : (if ipver =? 4 then Some (addr, 32) else if ipver =? 6 then Some (addr, 128) else None) =
    Some (addr, if ipver =? 4 then 32 else 128)) by (by destruct (ipver =? 4); [|destruct (ipver =? 6)]).
  rewrite Haf in Hfr. cbn [mbind option_bind snd fst] in Hfr.
  assert (Hbits : is_Some (match strchr line SLASH with
    | Some i => atoi (drop (S i) line) | None => Some (if ipver =? 4 then 32 else 128) end)).
  { specialize (Hnum Hb). destruct (strchr line SLASH); [done|by eexists]. }
  destruct Hbits as [bits Hbits]. wp_run. eapply wp_lift; [exact Hbits|]. cbv zeta. rewrite Hbits in Hfr.
  cbn [mbind option_bind] in Hfr. rewrite reserved_val by done.
  replace ((if ipver =? 4 then 32 else 128) =? 32) with (ipver =? 4) in Hfr by (by destruct (ipver =? 4)).
  destruct ((ipver =? 4) && (bits =? 32) && _).
  { wp_run. split; [apply Hstay; auto|by intros ?]. }
  wp_run. eapply wp_mono; [apply (add_ip_wp rules addr (u8 bits)); [done|done|]|].
  { apply (uwrap_ok 8 bits). lia. }
  intros rv bl' (-> & Hok' & Hd & Hn). wp_run. split; [|by intros ?]. unfold max_file_rules in Hlim.
  match goal with |- loaded _ _ _ _ _ (count_rv ?rv c) _ => pose proof (count_ok_le rv c); pose proof (count_ok rv c) as Hcnt end.
  subst btype. constructor; rewrite ?(file_ref_one _ _ _ _ Hlim Hfr); cbn [fst snd]; [done| |unfold max_file_rules; lia|lia|done].
  intros _. rewrite Hcnt. change (bits mod 256) with (u8 bits). destruct (_ =? 0); [done|]. destruct (_ =? -2); simpl; lia.
Qed.

Fixpoint file_lines (fuel : nat) (f : list Z) : list (list Z) :=
  match fuel with
  | O => []
  | S fuel => match fgets BUFFER_SIZE f with
              | None => []
              | Some (chars, f) => chars :: file_lines fuel f
              end
  end.
(** The pieces [fgets] reads from a file. *)
Definition lines_of (f : list Z) : list (list Z) := file_lines (S (length f)) f.

(** The loop over the file: enough fuel, whatever the file holds. *)
Lemma load_loop_wp fuel rules btype mem i f c bl :
  (length f < fuel)%nat -> bl_ok rules bl -> Forall (numbers_ok btype) (file_lines fuel f) ->
  0 <= num_ok c <= max_file_rules ->
  wp (load_loop fuel btype mem i f c) (fun c' bl' =>
    bl_ok (file_ref btype (num_ok c) rules (file_lines fuel f)).2 bl' /\ 0 <= num_ok c' <= max_file_rules /\
    num_ok c' <= num_ok c + Z.of_nat (length (file_lines fuel f)) /\
    (btype <> IP_BLACKLIST ->
      num_domains (stats bl') - num_domains (stats bl) = num_ok c' - num_ok c /\
      ((forall i, mem i = (true, true)) ->
       num_ok c + Z.of_nat (length (file_lines fuel f)) <= max_file_rules ->
       Forall clean (omap domain_rule (file_lines fuel f)) ->
       forall x, blacklist_match_domain bl' x = true <->
         blacklist_match_domain bl x = true \/
         exists d, d ∈ omap domain_rule (file_lines fuel f) /\ under (strip_www x) (strip_www d)))) bl.
Proof.
  revert rules i f c bl. induction fuel as [|fuel IH]; intros rules i f c bl Hf Hok Hnum Hc; [lia|].
  cbn [load_loop file_lines] in *. destruct (fgets BUFFER_SIZE f) as [[chars f']|] eqn:E.
  2:{ wp_run. split_and!; [by unfold file_ref; case_bool_decide|lia|lia|simpl; lia|]. intros _. split; [lia|]. intros _ _ _ x.
      split; [by left|]. intros [H|(d & Hd & _)]; [done|]. by apply not_elem_of_nil in Hd. }
  pose proof (fgets_shorter BUFFER_SIZE f chars f' ltac:(unfold BUFFER_SIZE; lia) E) as Hlt. apply Forall_cons in Hnum as [Hn1 Hnum]. wp_run.
  eapply wp_mono; [by apply (load_line_wp rules)|].
  intros c1 bl1 [[Hok1 Hnum1 Hlim1 Hst1 Hcnt1] Hdom1].
  eapply wp_mono; [eapply IH; [lia|exact Hok1|done|done]|].
  intros c2 bl2 (Hok2 & Hlim2 & Hst2 & Hrest). simpl length.
  split_and!; [|lia|lia|lia|].
  { rewrite file_ref_cons. destruct (decide (btype = IP_BLACKLIST)) as [Hb|Hb]; [by rewrite <-(Hnum1 Hb)|].
    unfold file_ref in *. by rewrite (bool_decide_false _ Hb) in *. } intros Hb. destruct (Hrest Hb) as [Hcnt2 Hdom2].
  split; [specialize (Hcnt1 Hb); lia|]. intros Hmem Hmax Hcl x.
  specialize (Hdom1 Hb (Hmem i) ltac:(lia)). cbn [omap list_omap] in *.
  destruct (domain_rule chars) as [d|].
  - apply Forall_cons in Hcl as [Hd Hcl]. rewrite Hdom2 by (done || lia). rewrite (Hdom1 Hd x).
    setoid_rewrite elem_of_cons. split.
    + intros [[H|H]|(e & He & Hu)]; [by left|right; exists d; auto|right; exists e; auto].
    + intros [H|(e & [->|He] & Hu)]; [by left; left|by left; right|right; eauto].
  - rewrite Hdom2 by (done || lia). by rewrite (Hdom1 x).
Qed.

Lemma load_file_wp rules f btype mem bl :
  bl_ok rules bl -> Forall (numbers_ok btype) (lines_of f) ->
  wp (blacklist_load_file (Some f) btype mem) (fun res bl' =>
    bl_ok (file_ref btype 0 rules (lines_of f)).2 bl' /\
    exists st, res = (0, Some st) /\ 0 <= num_rules st <= max_file_rules /\
    (btype <> IP_BLACKLIST ->
      num_domains (stats bl') = num_domains (stats bl) + num_rules st /\
      ((forall i, mem i = (true, true)) ->
       Z.of_nat (length (lines_of f)) <= max_file_rules ->
       Forall clean (omap domain_rule (lines_of f)) ->
       forall x, blacklist_match_domain bl' x = true <->
         blacklist_match_domain bl x = true \/
         exists d, d ∈ omap domain_rule (lines_of f) /\ under (strip_www x) (strip_www d)))) bl.
Proof.
  intros Hok Hnum. unfold blacklist_load_file, set_stats. wp_run.
  eapply wp_mono; [apply (load_loop_wp _ rules); [lia|done|done|simpl; unfold max_file_rules; lia]|].
  intros c bl1 (Hok1 & Hlim & _ & Hrest). wp_run. split.
  { destruct Hok1. by constructor. }
  eexists. split; [done|]. split; [exact Hlim|]. intros Hb. destruct (Hrest Hb) as [Hn Hm].
  split; [simpl in *; lia|exact Hm].
Qed.

(** C40: Loading the file of a malware list terminates and is memory safe for every
  content of the file and every outcome of the allocations, adds at most
  500000 rules and keeps the counters of the blacklist exact; the numbers
  after the slashes only have to fit an [int]. *)
Theorem load_file_total rules f btype mem bl :
  bl_ok rules bl -> Forall (numbers_ok btype) (lines_of f) ->
  exists st bl' rules', blacklist_load_file (Some f) btype mem bl = Some ((0, Some st), bl') /\
    0 <= num_rules st <= 500000 /\ bl_ok rules' bl'.
Proof.
  intros Hok Hnum.
  destruct (load_file_wp rules f btype mem bl Hok Hnum) as ([rv o] & bl' & Hrun & H1 & st & H2 & H3 & _).
  rewrite H2 in Hrun. by eexists st, bl', _.
Qed.

(** C33: What a domain list means: after loading it, a name is blacklisted exactly
  when it was before, or when the name or its second-level domain, without a
  leading "www.", is on a line of the file that is neither a comment nor an
  IP address. *)
Theorem load_domains_spec rules f mem bl :
  bl_ok rules bl -> (forall i, mem i = (true, true)) ->
  Z.of_nat (length (lines_of f)) <= max_file_rules ->
  Forall clean (omap domain_rule (lines_of f)) ->
  exists st bl', blacklist_load_file (Some f) DOMAIN_BLACKLIST mem bl = Some ((0, Some st), bl') /\
    num_domains (stats bl') = num_domains (stats bl) + num_rules st /\
    forall x, blacklist_match_domain bl' x = true <->
      blacklist_match_domain bl x = true \/
      exists d, d ∈ omap domain_rule (lines_of f) /\ under (strip_www x) (strip_www d).
Proof.
  intros Hok Hmem Hlen Hcl.
  destruct (load_file_wp rules f DOMAIN_BLACKLIST mem bl Hok) as ([rv o] & bl' & Hrun & _ & st & H2 & _ & H3).
  { by apply Forall_forall. }
  rewrite H2 in Hrun. destruct (H3 ltac:(done)) as [H4 H5]. exists st, bl'. split_and!; [done|done|].
  by apply H5.
Qed.

(** ** Addresses *)


Lemma match_ip_rep rules bl ip ipver :
  bl_ok rules bl -> ip_addr_ok (match_addr ip ipver) ->
  blacklist_match_ip bl ip ipver =
    Some (existsb (fun r => rule_covers r (match_addr ip ipver)) rules).
Proof.
  intros Hok Ha. unfold blacklist_match_ip.
  destruct (match_rep rules (ptree bl) (match_addr ip ipver) 0 (ok_rules _ _ Hok) Ha) as (res & Hb & ->).
  cbn [mbind option_bind]. pose proof (ok_malware _ _ Hok) as Hm. rewrite Forall_forall in Hm.
  destruct res as [r|]; cbn [mbind option_bind]; f_equal; symmetry.
  - destruct Hb as (Hin & Hc & _). rewrite (Hm r Hin). apply existsb_exists.
    exists r. split; [by apply list_elem_of_In|done].
  - apply not_true_iff_false. intros (r & Hr%list_elem_of_In & Hc)%existsb_exists.
    by rewrite (Hb r Hr) in Hc.
Qed.

Lemma is_ipv6_of_v4 v : length v = 4%nat -> ndpi_is_ipv6 (v ++ replicate 12 0) = false.
Proof. destruct v as [|? [|? [|? [|? [|? v]]]]]; done. Qed.

Lemma ip4_addr_ok ip : ip_addr_ok (le_bytes 4 (ip4 ip) ++ replicate 12 0).
Proof.
  split; [by rewrite length_app, length_le_bytes|].
  apply Forall_app_2; [apply le_bytes_ok|]. apply Forall_replicate. unfold u_ok. lia.
Qed.

Lemma rule_covers_zero (r : rule) x :
  r.1.2 = 0 -> ndpi_is_ipv6 r.1.1 = ndpi_is_ipv6 x -> rule_covers r x = true.
Proof. destruct r as [[ra rb] rv]. simpl. intros -> ->. by rewrite eqb_reflx. Qed.

(** The lines of an address list whose prefix length is 0 modulo 256, in
  particular those with no number after the slash, blacklist every IPv4
  address. *)
Theorem zero_prefix_blocks_all rules mem chars line i a n c bl ip :
  bl_ok rules bl -> num_ok c < max_file_rules ->
  rule_line chars = Some line -> strchr line SLASH = Some i ->
  DOT ∈ take i line -> inet_pton4 (take i line) = Some a ->
  atoi (drop (S i) line) = Some n -> n mod 256 = 0 ->
  exists c' bl', load_line IP_BLACKLIST mem chars c bl = Some (c', bl') /\
    blacklist_match_ip bl' ip 4 = Some true.
Proof.
  intros Hok Hc Hl Hs Hdot Hp Hn Hz.
  assert (Hpa : ndpi_parse_ip_string (take i line) = (4, ndpi_of_v4 a)).
  { unfold ndpi_parse_ip_string. rewrite Hp. destruct (strchr (take i line) DOT) eqn:E; [done|].
    by apply strchr_None in E. }
  assert (Hfam : ndpi_is_ipv6 (ndpi_of_v4 a) = false).
  { apply is_ipv6_of_v4. by apply inet_pton4_ok in Hp as [-> _]. }
  enough (Hgoal : wp (load_line IP_BLACKLIST mem chars c)
    (fun _ bl' => blacklist_match_ip bl' ip 4 = Some true) bl).
  { destruct Hgoal as (c' & bl' & H1 & H2). by exists c', bl'. }
  unfold load_line, rule_line in *. destruct (c_str chars) as [|ch item] eqn:Ei; [done|].
  destruct ((ch =? HASH) || (ch =? LF)); [done|].
  rewrite <-Ei in *. apply (inj Some) in Hl. rewrite Hl. unfold before_slash. rewrite Hs, Hpa. cbv zeta.
  replace (max_file_rules <=? num_ok c) with false by lia.
  rewrite bool_decide_true by done. change (negb ((4 =? 4) || (4 =? 6))) with false. cbv iota.
  wp_run. eapply wp_lift; [exact Hn|].
  replace (n =? 32) with false by (symmetry; apply Z.eqb_neq; intros ->; done).
  change (4 =? 4) with true. cbn [andb]. cbv zeta. wp_run. change (u8 n) with (n mod 256). rewrite Hz.
  eapply wp_mono; [apply (add_ip_wp rules)|]; [done| |done|].
  { pose proof (parse_ip_ok (take i line)) as H. by rewrite Hpa in H. }
  intros rv bl' (_ & Hok' & _). wp_run. rewrite (match_ip_rep _ _ _ _ Hok').
  2:{ unfold match_addr. by apply ip4_addr_ok. }
  f_equal. apply existsb_exists. unfold ref_insert. rewrite Hfam.
  change (family_bits false <? 0) with false. cbv iota.
  assert (Hfi : ndpi_is_ipv6 (match_addr ip 4) = false).
  { unfold match_addr. apply is_ipv6_of_v4. apply length_le_bytes. }
  destruct (existsb (rule_same _) rules) eqn:E.
  - apply existsb_exists in E as (r & Hr & [Hb Hcv]%rule_same_iff). exists r. split; [done|].
    apply rule_covers_family in Hcv. apply rule_covers_zero; [done|]. by rewrite Hcv, Hfam.
  - eexists. split; [by left|]. apply rule_covers_zero; [done|]. simpl. by rewrite Hfam.
Qed.

Definition ipstr_ref (l : list rule) (s : cstr) : Z * list rule :=
  match addr_of s with Some af => ref_insert l (malware af) | None => (-1, l) end.
Lemma add_ipstr_wp rules str bl :
  bl_ok rules bl -> wp (blacklist_add_ipstr str) (fun rv bl' =>
    rv = (if (ipstr_ref rules str).1 =? 0 then 0 else if (ipstr_ref rules str).1 =? -2 then - EADDRINUSE else - EINVAL) /\
    bl_ok (ipstr_ref rules str).2 bl') bl.
Proof.
  intros Hok. unfold blacklist_add_ipstr, ipstr_ref. pose proof (parse_ip_ok str) as Hip. rewrite addr_of_parse.
  destruct (ndpi_parse_ip_string str) as [ipver addr]. cbn [snd] in Hip.
  destruct (Z.eqb_spec ipver 4) as [->|H4]; [|destruct (Z.eqb_spec ipver 6) as [->|H6]]; cbn [negb andb]; cbv zeta;
    [..|by wp_run]; (eapply wp_mono; [apply (add_ip_wp rules); [done|done|simpl; lia]|]); by intros rv bl' (? & ? & _).
Qed.

(** The numbers of an application list fit an [int]. *)
Definition uid_items_ok (items : list (option cstr)) : Prop :=
  Forall (fun i => match i with Some s => is_Some (atoi s) | None => True end) items.

(** The loading of a list stops at the first address that is refused, unless it is
    already covered. *)
Fixpoint list_ref (l : list rule) (items : list (option cstr)) : list rule :=
  match items with
  | [] => l
  | None :: items => list_ref l items
  | Some s :: items => if (ipstr_ref l s).1 =? -1 then l else list_ref (ipstr_ref l s).2 items
  end.
Lemma ref_insert_rv l r :
  (ref_insert l r).1 = 0 \/ (ref_insert l r).1 = -2 \/ (ref_insert l r).1 = -1 /\ (ref_insert l r).2 = l.
Proof. destruct r as [[a b] v]. unfold ref_insert. case_match; [auto|]. case_match; auto. Qed.
Lemma ipstr_ref_rv l s :
  (ipstr_ref l s).1 = 0 \/ (ipstr_ref l s).1 = -2 \/ (ipstr_ref l s).1 = -1 /\ (ipstr_ref l s).2 = l.
Proof. unfold ipstr_ref. destruct (addr_of s) as [af|]; [apply ref_insert_rv|auto]. Qed.

Lemma load_list_wp rules items tp mem i n bl :
  bl_ok rules bl -> (tp = UID_BLACKLIST -> uid_items_ok items) ->
  wp (bl_load_list_of_type items tp mem i n) (fun _ bl' =>
    bl_ok (if bool_decide (tp = IP_BLACKLIST) then list_ref rules items else rules) bl') bl.
Proof.
  revert rules i n bl. induction items as [|[val|] items IH]; intros rules i n bl Hok Hu;
    cbn [bl_load_list_of_type list_ref].
  - wp_run. by case_match.
  - assert (Hu' : tp = UID_BLACKLIST -> uid_items_ok items).
    { intros H. specialize (Hu H). by apply Forall_cons in Hu as [_ Hu]. }
    wp_run. destruct tp; cbn [bool_decide decide].
    + eapply wp_mono; [by apply add_domain_wp|]. intros rv bl' [Hok' _].
      destruct (rv =? 0); [by apply (IH rules)|]. destruct (negb _); [by wp_run|by apply (IH rules)].
    + eapply wp_mono; [by apply (add_ipstr_wp rules)|]. intros rv bl' [-> Hok'].
      destruct (ipstr_ref_rv rules val) as [E|[E|[E E2]]]; rewrite E in *; cbn [Z.eqb Pos.eqb negb].
      * by apply (IH (ipstr_ref rules val).2).
      * by apply (IH (ipstr_ref rules val).2).
      * rewrite E2 in Hok'. rewrite bool_decide_true by done. simpl. by wp_run.
    + specialize (Hu eq_refl). apply Forall_cons in Hu as [[uid Huid] _].
      wp_run. eapply wp_lift; [exact Huid|].
      eapply wp_mono; [by apply add_uid_wp|]. intros rv bl' [Hok' _].
      destruct (rv =? 0); [by apply (IH rules)|]. destruct (negb _); [by wp_run|by apply (IH rules)].
  - apply (IH rules); [done|]. intros H. specialize (Hu H). by apply Forall_cons in Hu as [_ Hu].
Qed.

Lemma load_descriptor_wp rules apps hosts ips mem bl :
  bl_ok rules bl -> uid_items_ok apps ->
  wp (blacklist_load_list_descriptor apps hosts ips mem) (fun _ bl' => bl_ok (list_ref rules ips) bl') bl.
Proof.
  intros Hok Hu. unfold blacklist_load_list_descriptor. wp_run.
  eapply wp_mono; [by apply (load_list_wp rules)|]. intros na bl1 H1. wp_run.
  eapply wp_mono; [by apply (load_list_wp rules)|]. intros nd bl2 H2. wp_run.
  eapply wp_mono; [by apply (load_list_wp rules)|]. intros ni bl3 H3. by wp_run.
Qed.

(** ** Histories *)

Inductive bl_op :=
  | OpDomain (d : cstr) (malloc_ok strdup_ok : bool)
  | OpIp (a : ndpi_ip_addr_t) (bits : Z)
  | OpIpstr (s : cstr)
  | OpUid (uid : Z) (malloc_ok : bool)
  | OpFile (f : option (list Z)) (btype : blacklist_type) (mem : nat -> bool * bool)
  | OpLists (apps hosts ips : list (option cstr)) (mem : nat -> bool * bool).

Definition run_op (o : bl_op) : M blacklist unit :=
  match o with
  | OpDomain d m s => blacklist_add_domain d m s ;; mret tt
  | OpIp a bits => blacklist_add_ip a bits ;; mret tt
  | OpIpstr s => blacklist_add_ipstr s ;; mret tt
  | OpUid uid m => blacklist_add_uid uid m ;; mret tt
  | OpFile f btype mem => blacklist_load_file f btype mem ;; mret tt
  | OpLists apps hosts ips mem => blacklist_load_list_descriptor apps hosts ips mem ;; mret tt
  end.
Definition run_ops (ops : list bl_op) : M blacklist unit := forM ops run_op.

Definition op_ok (o : bl_op) : Prop :=
  match o with
  | OpIp a bits => ip_addr_ok a /\ 0 <= bits
  | OpFile (Some f) btype _ => Forall (numbers_ok btype) (lines_of f)
  | OpLists apps _ _ _ => uid_items_ok apps
  | _ => True
  end.

(** The address rules a history makes, from the arguments of its calls, the lines of its
    files and the strings of its lists. *)
Definition op_ref (l : list rule) (o : bl_op) : list rule :=
  match o with
  | OpIp a bits => (ref_insert l (malware (a, bits))).2
  | OpIpstr s => (ipstr_ref l s).2
  | OpFile (Some f) btype _ => (file_ref btype 0 l (lines_of f)).2
  | OpLists _ _ ips _ => list_ref l ips
  | _ => l
  end.
Definition rules_of (ops : list bl_op) : list rule := foldl op_ref [] ops.

Lemma run_op_wp rules o bl :
  bl_ok rules bl -> op_ok o -> wp (run_op o) (fun _ bl' => bl_ok (op_ref rules o) bl') bl.
Proof.
  intros Hok Ho. destruct o as [d m s|a bits|s|uid m|[f|] btype mem|apps hosts ips mem];
    cbn [run_op]; wp_run.
  - eapply wp_mono; [by apply add_domain_wp|]. intros rv bl' [Hr _]. by wp_run.
  - destruct Ho. eapply wp_mono; [by apply (add_ip_wp rules)|]. intros rv bl' (_ & Hr & _). by wp_run.
  - eapply wp_mono; [by apply (add_ipstr_wp rules)|]. intros rv bl' [_ Hr]. by wp_run.
  - eapply wp_mono; [by apply add_uid_wp|]. intros rv bl' [Hr _]. by wp_run.
  - eapply wp_mono; [by apply (load_file_wp rules)|]. intros rv bl' [Hr _]. by wp_run.
  - unfold blacklist_load_file. by wp_run.
  - eapply wp_mono; [by apply (load_descriptor_wp rules)|]. intros rv bl' Hr. by wp_run.
Qed.

Lemma run_ops_wp ops : forall rules bl,
  bl_ok rules bl -> Forall op_ok ops -> wp (run_ops ops) (fun _ bl' => bl_ok (foldl op_ref rules ops) bl') bl.
Proof.
  induction ops as [|o ops IH]; intros rules bl Hok Ho; unfold run_ops; cbn [forM foldl].
  - by wp_run.
  - apply Forall_cons in Ho as [Ho Hos]. wp_run.
    eapply wp_mono; [by apply (run_op_wp rules)|]. intros [] bl' Hok'. by apply IH.
Qed.

(** C32: A blacklist filled by any calls, files and lists, with any allocation
  failing, never corrupts memory (the numbers in the files and lists fit an [int], and
  the addresses of the calls are 16 bytes); its counters are the sizes of its tables;
  and a packet is matched exactly when one of the prefixes of the history covers its
  address: those of the calls, the addresses of the strings alone, the lines of the
  files with the length after the slash, or the whole address without one, up to
  500000 of a file, in the order they were given and less the ones refused. *)
Theorem blacklist_history ops :
  Forall op_ok ops ->
  exists bl, run_ops ops bl_empty = Some (tt, bl) /\
    num_domains (stats bl) = HASH_COUNT (domains bl) /\
    num_apps (stats bl) = HASH_COUNT (uids bl) /\
    num_ips (stats bl) = Z.of_nat (length (rules_of ops)) /\
    forall ip ipver, ip_ok ip -> blacklist_match_ip bl ip ipver =
      Some (existsb (fun r => rule_covers r (match_addr ip ipver)) (rules_of ops)).
Proof.
  intros Ho. destruct (run_ops_wp ops [] bl_empty bl_ok_empty Ho) as ([] & bl & Hrun & Hok).
  exists bl. split_and!; [done|apply Hok|apply Hok|apply Hok|].
  intros ip ipver Hip. apply match_ip_rep; [done|].
  unfold match_addr. destruct (ipver =? 4); [apply ip4_addr_ok|].
  destruct Hip as [Hl Hb]. split; [by rewrite Hl|done].
Qed.

End files.

(** ** Witnesses: an [inet_pton] for dotted quads *)

Fixpoint dotted (n : nat) (s : cstr) (acc : option Z) : option (list Z) :=
  match s with
  | [] => match acc, n with Some v, 1%nat => Some [v] | _, _ => None end
  | c :: s =>
      if isdigit c then
        let v := default 0 acc * 10 + (c - 48) in
        if v <? 256 then dotted n s (Some v) else None
      else if c =? DOT then
        match acc, n with Some v, S n' => l ← dotted n' s None; Some (v :: l) | _, _ => None end
      else None
  end.

Lemma dotted_ok n s acc l : (forall v, acc = Some v -> 0 <= v < 256) ->
  dotted n s acc = Some l -> length l = n /\ bytes_ok l.
Proof.
  revert n acc l. induction s as [|c s IH]; intros n acc l Hacc; cbn [dotted].
  - destruct acc as [v|]; [|done]. destruct n as [|[|n]]; [done| |done]. intros [= <-].
    split; [done|]. constructor; [by apply Hacc|constructor].
  - destruct (isdigit c) eqn:Ed.
    + cbv zeta. destruct (Z.ltb_spec (default 0 acc * 10 + (c - 48)) 256); [|done].
      apply IH. intros v [= <-]. unfold isdigit in Ed.
      assert (0 <= default 0 acc) by (destruct acc as [v|]; simpl; [by apply Hacc|lia]). lia.
    + destruct (c =? DOT); [|done]. destruct acc as [v|], n as [|n]; try done.
      cbn [mbind option_bind]. destruct (dotted n s None) as [l'|] eqn:E; [|done]. intros [= <-].
      destruct (IH n None l') as [Hl Hb]; [done|done|]. split; [simpl; lia|].
      constructor; [by apply Hacc|done].
Qed.

#[local] Instance inet_pton_v4 : InetPton := {|
  inet_pton4 s := dotted 4 s None;
  inet_pton6 s := if decide (s = str "::1") then Some (replicate 15 0 ++ [1]) else None |}.
#[local] Instance inet_pton_v4_ok : InetPtonOk inet_pton_v4.
Proof.
  split; simpl; intros s a.
  - by apply dotted_ok.
  - case_decide; [|done]. intros [= <-]. split; [done|]. by vm_compute; repeat constructor.
Qed.

Definition nl (s : string) : list Z := str s ++ [LF].
Definition all_ok (_ : nat) : bool * bool := (true, true).

Lemma load_file_total_witness :
  let f := nl "# networks" ++ nl "10.0.0.0/8" ++ nl "bad" ++ nl "1.2.3.4" ++ nl "1.2.3.4" in
  (exists st bl' rules', blacklist_load_file (Some f) IP_BLACKLIST all_ok bl_empty
      = Some ((0, Some st), bl') /\ 0 <= num_rules st <= 500000 /\ bl_ok rules' bl') /\
  fst <$> blacklist_load_file (Some f) IP_BLACKLIST all_ok bl_empty = Some (0, Some (BlStats 2 1)).
Proof.
  split; [|vm_compute; reflexivity].
  apply (load_file_total []); [apply bl_ok_empty|].
  repeat (constructor; [by intros _; vm_compute; eauto|]). constructor.
Defined.

Lemma load_domains_spec_witness :
  let f := nl "# list" ++ nl "www.Bad.com" ++ nl "evil.org" ++ nl "sub.evil.org" ++ nl "1.2.3.4" in
  exists st bl', blacklist_load_file (Some f) DOMAIN_BLACKLIST all_ok bl_empty
      = Some ((0, Some st), bl') /\
    num_domains (stats bl') = num_domains (stats bl_empty) + num_rules st /\
    forall x, blacklist_match_domain bl' x = true <->
      blacklist_match_domain bl_empty x = true \/
      exists d, d ∈ omap domain_rule (lines_of f) /\ under (strip_www x) (strip_www d).
Proof.
  apply (load_domains_spec []); [apply bl_ok_empty|done|vm_compute; done|].
  repeat (constructor; [by vm_compute|]). constructor.
Defined.

Lemma zero_prefix_blocks_all_witness :
  num_ok (Counts 0 0 0) < max_file_rules /\
  exists c' bl', load_line IP_BLACKLIST (true, true) (nl "9.9.9.9/x") (Counts 0 0 0) bl_empty
      = Some (c', bl') /\
    blacklist_match_ip bl' (ip_of_ip4 0x08080808) 4 = Some true.
Proof.
  split; [vm_compute; reflexivity|].
  apply (zero_prefix_blocks_all [] (true, true) (nl "9.9.9.9/x") (str "9.9.9.9/x") 7 [9; 9; 9; 9] 0);
    first [apply bl_ok_empty | by vm_compute | idtac].
  apply list_elem_of_In. vm_compute. auto.
Defined.

Lemma blacklist_history_witness :
  let ops := [OpDomain (str "ads.example.com") true true; OpIpstr (str "10.1.2.3");
    OpIp (ip4_addr 10 1 0 0) 16; OpUid 10123 true; OpFile (Some (nl "10.1.9.9/16")) IP_BLACKLIST all_ok;
    OpLists [Some (str "10123")] [Some (str "x.org")] [Some (str "::1")] all_ok] in
  exists bl, run_ops ops bl_empty = Some (tt, bl) /\
    num_domains (stats bl) = HASH_COUNT (domains bl) /\
    num_apps (stats bl) = HASH_COUNT (uids bl) /\
    num_ips (stats bl) = Z.of_nat (length (rules_of ops)) /\
    forall ip ipver, ip_ok ip -> blacklist_match_ip bl ip ipver =
      Some (existsb (fun r => rule_covers r (match_addr ip ipver)) (rules_of ops)).
Proof.
  apply blacklist_history. constructor; [done|]. constructor; [done|].
  constructor; [split; [by vm_compute; repeat constructor|done]|]. constructor; [done|].
  constructor; [repeat (constructor; [by intros _; vm_compute; eauto|]); constructor|].
  constructor; [|constructor]. constructor; [by eexists|constructor].
Defined.

(** Its prefixes: 10.1.9.9/16 is the prefix that was there, and a line of a file names
    a host without a number after a slash. *)
Example history_rules :
  rules_of [OpIpstr (str "10.1.2.3"); OpIp (ip4_addr 10 1 0 0) 16; OpFile (Some (nl "10.1.9.9/16" ++ nl "7.7.7.7")) IP_BLACKLIST all_ok] =
  [malware (ip4_addr 7 7 7 7, 32); malware (ip4_addr 10 1 0 0, 16); malware (ip4_addr 10 1 2 3, 32)].
Proof. vm_compute. reflexivity. Qed.
(** The IPv6 prefix 2001:db8::/32 is filed as an IPv4 address, and blocks 32.1.13.184. *)
Example ipv6_prefix_blocks_ipv4 :
  match run_ops [OpIp ([0x20; 1; 0x0d; 0xb8] ++ replicate 12 0) 32] bl_empty with
  | Some (_, bl) => blacklist_match_ip bl (ip_of_ip4 0xb80d0120) 4
  | None => None
  end = Some true.
Proof. vm_compute. reflexivity. Qed.
(** The loopback address is meant to be dropped; compared in network byte
    order, it is 1.0.0.127 that is. *)
Example loopback_rule_accepted :
  fst <$> blacklist_load_file (Some (nl "127.0.0.1")) IP_BLACKLIST all_ok bl_empty
    = Some (0, Some (BlStats 1 0)) /\
  fst <$> blacklist_load_file (Some (nl "1.0.0.127")) IP_BLACKLIST all_ok bl_empty
    = Some (0, Some (BlStats 0 0)).
Proof. split; vm_compute; reflexivity. Qed.

(** An empty line that ends in CR LF is a rule for the empty domain. *)
Example empty_crlf_line :
  domain_rule [CR; LF] = Some [] /\ domain_rule [LF] = None.
Proof. split; vm_compute; reflexivity. Qed.

End Blacklist.
