(* ===== verification/PdDns.v ===== *)
(** * DNS replies (process_dns_reply of core/pcapdroid.c)

    The addresses of the A and AAAA records of a reply go to the host name
    cache.  [reply] is an offset into the memory of the packet; a read outside
    that memory is undefined.  [mem] gives the outcome of the allocations of
    each addition. *)

From S2P Require Import Prelude CString UtHash Lru ZdtunTypes IpLru.

Module PdDns.
Import IpLru.

Definition DNS_HEADER_LEN : Z := 12.    (* sizeof(dns_packet_t) *)

(** Skipping the name of a query: up to its NUL. *)
Fixpoint skip_query (fuel : nat) (buf : list Z) (reply len : Z) : option (Z * Z) :=
  match fuel with
  | O => None
  | S fuel =>
      if 0 <? len then
        b ← rd8 buf reply;
        if b =? 0 then Some (reply, len) else skip_query fuel buf (reply + 1) (len - 1)
      else Some (reply, len)
  end.

Fixpoint skip_queries (num_queries : nat) (buf : list Z) (reply len : Z) : option (Z * Z) :=
  match num_queries with
  | O => Some (reply, len)
  | S n =>
      if 0 <? len then
        '(reply, len) ← skip_query (S (Z.to_nat len)) buf reply len;
        skip_queries n buf (reply + 5) (len - 5)
      else Some (reply, len)
  end.

Fixpoint skip_name (fuel : nat) (buf : list Z) (reply len : Z) : option (Z * Z) :=
  match fuel with
  | O => None
  | S fuel =>
      if 0 <? len then
        b ← rd8 buf reply;
        if b =? 0x00 then Some (reply + 1, len - 1)
        else if b =? 0xc0 then Some (reply + 2, len - 2)
        else skip_name fuel buf (reply + 1) (len - 1)
      else Some (reply, len)
  end.

(** The address of a record, read where the data of the record should be. *)
Definition record_addr (buf : list Z) (reply rec_type addr_len : Z) : option (option zdtun_ip) :=
  if (rec_type =? 0x1) && (addr_len =? 4) then
    v ← rd32 buf reply; Some (Some (ip_of_ip4 v))
  else if (rec_type =? 0x1c) && (addr_len =? 16) then
    a ← rdn 16 buf reply; Some (Some (ZIp a))
  else Some None.

Fixpoint read_records (num_replies : nat) (query : cstr) (mem : nat -> bool * bool)
    (buf : list Z) (reply len : Z) : M ip_lru unit :=
  match num_replies with
  | O => mret tt
  | S n =>
      if 0 <? len then
        r ← liftO (skip_name (S (Z.to_nat len)) buf reply len);
        let (reply, len) := (r : Z * Z) in
        if len <? 10 then mret tt else
        ty ← liftO (rd16 buf reply);
        al ← liftO (rd16 buf (reply + 8));
        let rec_type := ntohs ty in
        let addr_len := ntohs al in
        let reply := reply + 10 in
        let len := len - 10 in
        addr ← liftO (record_addr buf reply rec_type addr_len);
        match addr with
        | Some ip => modifyS (fun lru => ip_lru_add lru ip query (fst (mem n)) (snd (mem n)))
        | None => mret tt
        end ;;
        read_records n query mem buf (reply + addr_len) (len - addr_len)
      else mret tt
  end.

(** [query] is [data->ndpi_flow->host_server_name], the state [pd->ip_to_host]. *)
Definition process_dns_reply (query : cstr) (pkt : zdtun_pkt) (mem : nat -> bool * bool) :
    M ip_lru unit :=
  match query, strchr query DOT with
  | _ :: _, Some _ =>
      if pkt_l7_len pkt <? DNS_HEADER_LEN then mret tt else
      let buf := pkt_mem pkt in
      let dns := pkt_l7 pkt in
      flags ← liftO (rd16 buf (dns + 2));
      questions ← liftO (rd16 buf (dns + 4));
      answ_rrs ← liftO (rd16 buf (dns + 6));
      if ((ntohs flags .& 0x8000) =? 0x8000) && negb (questions =? 0) && negb (answ_rrs =? 0) then
        let num_queries := ntohs questions in
        let num_replies := cmin (ntohs answ_rrs) 32 in
        r ← liftO (skip_queries (Z.to_nat num_queries) buf (dns + DNS_HEADER_LEN)
                     (pkt_l7_len pkt - DNS_HEADER_LEN));
        read_records (Z.to_nat num_replies) query mem buf (fst r) (snd r)
      else mret tt
  | _, _ => mret tt
  end.

(** ** Memory safety *)

(** [reply] and [len] move together: they always end at the same place. *)
Definition at_end (fin : Z) (c : Z * Z) : Prop := fst c + snd c = fin.

Section safe.
Context (buf : list Z) (lo fin : Z).
Context (Hbuf : bytes_ok buf) (Hlo : 0 <= lo) (Hfin : fin <= Z.of_nat (length buf)).

Lemma skip_query_safe fuel reply len :
  lo <= reply -> reply + len = fin -> Z.max 0 len < Z.of_nat fuel ->
  exists c, skip_query fuel buf reply len = Some c /\ at_end fin c /\ lo <= c.1.
Proof.
  revert reply len. induction fuel as [|fuel IH]; intros reply len Hr He Hf; [lia|].
  cbn [skip_query]. destruct (Z.ltb_spec 0 len); [|by exists (reply, len)].
  destruct (rd8_is_Some buf reply) as (b & -> & _); [lia|done|]. cbn [mbind option_bind].
  destruct (b =? 0); [by exists (reply, len)|]. apply IH; lia.
Qed.

Lemma skip_queries_safe n reply len :
  lo <= reply -> reply + len = fin ->
  exists c, skip_queries n buf reply len = Some c /\ at_end fin c /\ lo <= c.1.
Proof.
  revert reply len. induction n as [|n IH]; intros reply len Hr He; [by exists (reply, len)|].
  cbn [skip_queries]. destruct (0 <? len); [|by exists (reply, len)].
  destruct (skip_query_safe (S (Z.to_nat len)) reply len) as ([r l] & -> & H1 & H2); [lia..|].
  unfold at_end in *. cbn [mbind option_bind fst snd] in *. apply IH; lia.
Qed.

Lemma skip_name_safe fuel reply len :
  lo <= reply -> reply + len = fin -> Z.max 0 len < Z.of_nat fuel ->
  exists c, skip_name fuel buf reply len = Some c /\ at_end fin c /\ lo <= c.1.
Proof.
  revert reply len. induction fuel as [|fuel IH]; intros reply len Hr He Hf; [lia|].
  cbn [skip_name]. destruct (Z.ltb_spec 0 len); [|by exists (reply, len)].
  destruct (rd8_is_Some buf reply) as (b & -> & _); [lia|done|]. cbn [mbind option_bind].
  unfold at_end in *. destruct (b =? 0); [eexists; split; [done|]; simpl; lia|].
  destruct (b =? 192); [eexists; split; [done|]; simpl; lia|]. apply IH; lia.
Qed.

(** The address of a record may lie up to 16 bytes past the end. *)
Context (Hslack : fin + 16 <= Z.of_nat (length buf)).

Lemma record_addr_safe reply ty al :
  lo <= reply <= fin -> exists a, record_addr buf reply ty al = Some a /\
    match a with Some ip => ip_ok ip | None => True end.
Proof.
  intros Hr. unfold record_addr. destruct (_ && (al =? 4)).
  { destruct (rd32_is_Some buf reply) as (v & -> & Hv); [lia|lia|done|]. eexists. split; [done|].
    split; [done|]. unfold ip_of_ip4. cbn [ip_bytes]. apply Forall_app_2; [apply le_bytes_ok|].
    apply Forall_replicate. unfold u_ok. lia. }
  destruct (_ && _); [|by eexists].
  destruct (rdn_is_Some 16 buf reply) as (a & -> & Hl & Ha); [lia|lia|done|]. eexists. split; [done|].
  by split.
Qed.

Lemma read_records_wp n query mem reply len lru :
  lo <= reply -> reply + len = fin ->
  wp (read_records n query mem buf reply len) (fun _ lru' => max_size lru' = max_size lru) lru.
Proof.
  revert reply len lru. induction n as [|n IH]; intros reply len lru Hr He;
    cbn [read_records]; [by wp_run|].
  destruct (Z.ltb_spec 0 len); [|by wp_run]. wp_run.
  destruct (skip_name_safe (S (Z.to_nat len)) reply len) as ([r l] & Hs & H1 & H2); [lia..|].
  eapply wp_lift; [exact Hs|]. unfold at_end in H1. cbn [fst snd] in *.
  destruct (Z.ltb_spec l 10); [by wp_run|]. wp_run.
  destruct (rd16_is_Some buf r) as (ty & Hty & _); [lia|lia|done|]. eapply wp_lift; [exact Hty|].
  wp_run. destruct (rd16_is_Some buf (r + 8)) as (al & Hal & _); [lia|lia|done|].
  eapply wp_lift; [exact Hal|]. cbv zeta. wp_run.
  destruct (record_addr_safe (r + 10) (ntohs ty) (ntohs al)) as (a & Ha & _); [lia|].
  eapply wp_lift; [exact Ha|]. pose proof (bswap16_ok al) as [Hal' _].
  destruct a as [ip|]; wp_run; (eapply wp_mono; [apply IH; lia|]); [|done].
  intros _ lru' ->. unfold ip_lru_add. rewrite find_entry_touch.
  destruct (mem n) as [[] []]; simpl; try done; destruct (HASH_FIND _ _); simpl; try done; by case_match.
Qed.
End safe.

Lemma process_dns_reply_wp query pkt mem lru :
  bytes_ok (pkt_mem pkt) -> 0 <= pkt_l7 pkt ->
  pkt_l7 pkt + pkt_l7_len pkt + 16 <= Z.of_nat (length (pkt_mem pkt)) ->
  wp (process_dns_reply query pkt mem) (fun _ lru' => max_size lru' = max_size lru) lru.
Proof.
  intros Hb Hl Hlen.
  unfold process_dns_reply, DNS_HEADER_LEN. destruct query as [|q query]; [by wp_run|].
  destruct (strchr _ DOT); [|by wp_run]. destruct (Z.ltb_spec (pkt_l7_len pkt) 12); [by wp_run|].
  cbv zeta. wp_run.
  destruct (rd16_is_Some (pkt_mem pkt) (pkt_l7 pkt + 2)) as (fl & Hfl & _); [lia|lia|done|].
  eapply wp_lift; [exact Hfl|]. wp_run.
  destruct (rd16_is_Some (pkt_mem pkt) (pkt_l7 pkt + 4)) as (nq & Hnq & _); [lia|lia|done|].
  eapply wp_lift; [exact Hnq|]. wp_run.
  destruct (rd16_is_Some (pkt_mem pkt) (pkt_l7 pkt + 6)) as (na & Hna & _); [lia|lia|done|].
  eapply wp_lift; [exact Hna|]. destruct (_ && negb (na =? 0)); [|by wp_run]. wp_run.
  destruct (skip_queries_safe (pkt_mem pkt) (pkt_l7 pkt) (pkt_l7 pkt + pkt_l7_len pkt) Hb Hl
    ltac:(lia) (Z.to_nat (ntohs nq)) (pkt_l7 pkt + 12) (pkt_l7_len pkt - 12))
    as (c & Hc & He & Hlo); [lia|lia|].
  eapply wp_lift; [exact Hc|].
  apply (read_records_wp _ (pkt_l7 pkt) (pkt_l7 pkt + pkt_l7_len pkt)); done || lia.
Qed.

(** C35: Whatever bytes a reply holds and whatever allocation fails, the parser
    terminates, and it reads at most sixteen bytes past the end of the packet. *)
Theorem process_dns_reply_safe query pkt mem lru :
  bytes_ok (pkt_mem pkt) -> 0 <= pkt_l7 pkt ->
  pkt_l7 pkt + pkt_l7_len pkt + 16 <= Z.of_nat (length (pkt_mem pkt)) ->
  exists lru', process_dns_reply query pkt mem lru = Some (tt, lru') /\ max_size lru' = max_size lru.
Proof.
  intros Hb Hl Hlen. destruct (process_dns_reply_wp query pkt mem lru Hb Hl Hlen) as ([] & lru' & H1 & H2).
  by exists lru'.
Qed.

(** ** Replies as a server writes them *)

(** A 16-bit number on the wire. *)
Definition be16 (v : Z) : list Z := rev (le_bytes 2 v).

Inductive rr_name :=
  | NamePtr (labels : list Z) (lo : Z)  (* labels, and a pointer to one of the first 256 bytes *)
  | NameFull (labels : list Z).         (* labels in full, before the root *)
Record rr := RR { name : rr_name; rtype : Z; class_ttl : list Z; rdata : list Z }.

Definition enc_name (n : rr_name) : list Z :=
  match n with NamePtr ls lo => ls ++ [0xc0; lo] | NameFull ls => ls ++ [0] end.
Definition enc_rr (r : rr) : list Z :=
  enc_name (name r) ++ be16 (rtype r) ++ class_ttl r ++ be16 (Z.of_nat (length (rdata r))) ++ rdata r.
(** A question: the labels of its name; its type and class. *)
Definition enc_question (q : list Z * list Z) : list Z := q.1 ++ [0] ++ q.2.

Record reply := Reply {
  id : list Z; flags : Z; questions : list (list Z * list Z); answers : list rr; counts : list Z }.
Definition enc_reply (r : reply) : list Z :=
  id r ++ be16 (flags r) ++ be16 (Z.of_nat (length (questions r))) ++
  be16 (Z.of_nat (length (answers r))) ++ counts r ++
  concat (map enc_question (questions r)) ++ concat (map enc_rr (answers r)).

Definition name_ok (n : rr_name) : Prop :=
  match n with NamePtr ls _ | NameFull ls => 0 ∉ ls /\ 0xc0 ∉ ls end.
#[export] Instance name_ok_dec n : Decision (name_ok n).
Proof. destruct n; simpl; apply _. Defined.
Definition rr_ok (r : rr) : Prop :=
  name_ok (name r) /\ u_ok 16 (rtype r) /\ length (class_ttl r) = 6%nat /\ Z.of_nat (length (rdata r)) < 2 ^ 16 /\
  bytes_ok (rdata r).
Definition reply_ok (r : reply) : Prop :=
  length (id r) = 2%nat /\ u_ok 16 (flags r) /\ Z.testbit (flags r) 15 = true /\
  length (counts r) = 4%nat /\
  Forall (fun q => 0 ∉ q.1 /\ length q.2 = 4%nat) (questions r) /\ Forall rr_ok (answers r) /\
  0 < Z.of_nat (length (questions r)) < 2 ^ 16 /\ 0 < Z.of_nat (length (answers r)) < 2 ^ 16.

#[export] Instance rr_ok_dec r : Decision (rr_ok r).
Proof. unfold rr_ok. apply _. Defined.
#[export] Instance reply_ok_dec r : Decision (reply_ok r).
Proof. unfold reply_ok. apply _. Defined.

(** The address a record carries. *)
Definition rr_addr (r : rr) : option zdtun_ip :=
  if decide (rtype r = 1 /\ length (rdata r) = 4%nat) then Some (ZIp (rdata r ++ replicate 12 0))
  else if decide (rtype r = 28 /\ length (rdata r) = 16%nat) then Some (ZIp (rdata r))
  else None.
Fixpoint add_answers (n : nat) (query : cstr) (mem : nat -> bool * bool) (rrs : list rr)
    (lru : ip_lru) : ip_lru :=
  match n, rrs with
  | S n, r :: rrs =>
      add_answers n query mem rrs
        (match rr_addr r with
         | Some ip => ip_lru_add lru ip query (fst (mem n)) (snd (mem n))
         | None => lru
         end)
  | _, _ => lru
  end.

Lemma length_be16 v : length (be16 v) = 2%nat.
Proof. done. Qed.

Lemma rd16_be16 a v b : u_ok 16 v -> rd16 (a ++ be16 v ++ b) (Z.of_nat (length a)) = Some (bswap16 v).
Proof. intros Hv. unfold rd16. rewrite rdn_at by done. done. Qed.

Lemma rd8_here a c l : rd8 (a ++ c :: l) (Z.of_nat (length a)) = Some c.
Proof.
  replace (Z.of_nat (length a)) with (Z.of_nat (length a) + 0) by lia. by rewrite rd8_app_r.
Qed.

Lemma skip_query_at a q b len fuel :
  0 ∉ q -> Z.of_nat (length q) < len -> (length q < fuel)%nat ->
  skip_query fuel (a ++ q ++ 0 :: b) (Z.of_nat (length a)) len
    = Some (Z.of_nat (length a) + Z.of_nat (length q), len - Z.of_nat (length q)).
Proof.
  revert a len fuel. induction q as [|c q IH]; intros a len fuel Hq Hl Hf;
    (destruct fuel as [|fuel]; [simpl in Hf; lia|]); cbn [skip_query];
    replace (0 <? len) with true by (simpl in *; lia).
  - cbn [app]. rewrite rd8_here. cbn [mbind option_bind]. simpl. do 2 f_equal; lia.
  - apply not_elem_of_cons in Hq as [Hc Hq].
    cbn [app]. rewrite rd8_here.
    cbn [mbind option_bind]. rewrite (proj2 (Z.eqb_neq c 0)) by congruence.
    specialize (IH (a ++ [c]) (len - 1) fuel Hq). rewrite <-app_assoc, length_app in IH. simpl in *.
    replace (Z.of_nat (length a) + 1) with (Z.of_nat (length a + 1)) by lia.
    rewrite IH by lia. do 2 f_equal; lia.
Qed.

Definition bytes_of {A} (enc : A -> list Z) (l : list A) : list Z := concat (map enc l).

Lemma skip_queries_at qs a b lenb :
  Forall (fun q => 0 ∉ q.1 /\ length q.2 = 4%nat) qs -> 0 <= lenb ->
  let qb := bytes_of enc_question qs in
  skip_queries (length qs) (a ++ qb ++ b) (Z.of_nat (length a)) (Z.of_nat (length qb) + lenb)
    = Some (Z.of_nat (length a) + Z.of_nat (length qb), lenb).
Proof.
  intros Hqs Hb. revert a. induction Hqs as [|[qn qt] qs [Hn Ht] Hqs IH]; intros a qb.
  { simpl. do 2 f_equal; lia. }
  unfold qb, bytes_of. cbn [map concat length skip_queries]. fold (bytes_of enc_question qs).
  change (enc_question (qn, qt)) with (qn ++ [0] ++ qt). cbn [fst snd] in *.
  set (rest := bytes_of enc_question qs) in *.
  replace (length ((qn ++ [0] ++ qt) ++ rest)) with (length qn + 5 + length rest)%nat
    by (rewrite !length_app, Ht; simpl; lia).
  rewrite (proj2 (Z.ltb_lt 0 _)) by lia.
  replace (a ++ ((qn ++ [0] ++ qt) ++ rest) ++ b) with (a ++ qn ++ 0 :: (qt ++ rest ++ b))
    by (by rewrite <-!app_assoc).
  rewrite skip_query_at by (done || lia). cbn [mbind option_bind].
  specialize (IH (a ++ qn ++ [0] ++ qt)). cbv zeta in IH.
  replace ((a ++ qn ++ [0] ++ qt) ++ rest ++ b) with (a ++ qn ++ 0 :: (qt ++ rest ++ b)) in IH
    by (by rewrite <-!app_assoc).
  replace (length (a ++ qn ++ [0] ++ qt)) with (length a + length qn + 5)%nat in IH
    by (rewrite !length_app, Ht; simpl; lia).
  replace (Z.of_nat (length a) + Z.of_nat (length qn) + 5)
    with (Z.of_nat (length a + length qn + 5)) by lia.
  replace (Z.of_nat (length qn + 5 + length rest) + lenb - Z.of_nat (length qn) - 5)
    with (Z.of_nat (length rest) + lenb) by lia.
  rewrite IH. do 2 f_equal. lia.
Qed.

Lemma skip_labels_at a ls c b len fuel :
  0 ∉ ls -> 0xc0 ∉ ls -> c = 0 \/ c = 0xc0 -> Z.of_nat (length ls) < len -> (length ls < fuel)%nat ->
  let n := if c =? 0 then 1 else 2 in
  skip_name fuel (a ++ ls ++ c :: b) (Z.of_nat (length a)) len
    = Some (Z.of_nat (length a) + Z.of_nat (length ls) + n, len - Z.of_nat (length ls) - n).
Proof.
  intros H0 Hc0 Hc Hl Hf n. revert a len fuel H0 Hc0 Hl Hf. induction ls as [|d ls IH]; intros a len fuel H0 Hc0 Hl Hf;
    (destruct fuel as [|fuel]; [simpl in Hf; lia|]); cbn [skip_name];
    replace (0 <? len) with true by (simpl in *; lia); cbn [app]; rewrite rd8_here.
  - cbn [mbind option_bind]. unfold n. destruct Hc as [-> | ->]; simpl; do 2 f_equal; lia.
  - apply not_elem_of_cons in H0 as [Hn0 H0], Hc0 as [Hnc Hc0].
    cbn [mbind option_bind]. rewrite (proj2 (Z.eqb_neq d 0)) by congruence.
    rewrite (proj2 (Z.eqb_neq d 192)) by congruence.
    specialize (IH (a ++ [d]) (len - 1) fuel H0 Hc0). rewrite <-app_assoc, length_app in IH. simpl in *.
    replace (Z.of_nat (length a) + 1) with (Z.of_nat (length a + 1)) by lia.
    rewrite IH by lia. do 2 f_equal; lia.
Qed.

Lemma skip_name_at n a b len :
  name_ok n -> Z.of_nat (length (enc_name n)) <= len ->
  skip_name (S (Z.to_nat len)) (a ++ enc_name n ++ b) (Z.of_nat (length a)) len
    = Some (Z.of_nat (length a) + Z.of_nat (length (enc_name n)),
            len - Z.of_nat (length (enc_name n))).
Proof.
  destruct n as [ls lo|ls]; intros [H0 Hc] Hl; cbn [enc_name] in *; rewrite length_app in *; simpl length in *;
    rewrite <-app_assoc; cbn [app]; rewrite skip_labels_at by (auto || lia); cbn [Z.eqb]; do 2 f_equal; lia.
Qed.

Lemma record_addr_at r a b :
  rr_ok r -> record_addr (a ++ rdata r ++ b) (Z.of_nat (length a)) (rtype r)
    (Z.of_nat (length (rdata r))) = Some (rr_addr r).
Proof.
  intros (_ & Ht & _ & Hd & Hb). unfold record_addr, rr_addr.
  destruct (Z.eqb_spec (rtype r) 1) as [E1|E1]; cbn [andb].
  - destruct (Z.eqb_spec (Z.of_nat (length (rdata r))) 4) as [E2|E2].
    + rewrite decide_True by (split; [done|lia]). unfold rd32. rewrite rdn_at by lia.
      cbn [fmap option_fmap option_map mbind option_bind]. unfold ip_of_ip4.
      replace 4%nat with (length (rdata r)) by lia. by rewrite le_bytes_le_val.
    + rewrite E1. rewrite decide_False by lia. rewrite decide_False by lia. done.
  - rewrite decide_False by lia. destruct (Z.eqb_spec (rtype r) 28) as [E3|E3]; cbn [andb].
    + destruct (Z.eqb_spec (Z.of_nat (length (rdata r))) 16) as [E2|E2].
      * rewrite decide_True by (split; [done|lia]). rewrite rdn_at by lia. done.
      * by rewrite decide_False by lia.
    + by rewrite decide_False by lia.
Qed.

(** No more records are read than there are answers: what follows them is not looked at. *)
Lemma read_records_at n query mem rrs a b more lru :
  Forall rr_ok rrs -> (n <= length rrs)%nat -> 0 <= more ->
  read_records n query mem (a ++ bytes_of enc_rr rrs ++ b) (Z.of_nat (length a))
    (Z.of_nat (length (bytes_of enc_rr rrs)) + more) lru = Some (tt, add_answers n query mem rrs lru).
Proof.
  intros Hr Hn Hm. revert n a lru Hn. induction Hr as [|r rrs Hr Hrs IH]; intros n a lru Hn.
  { destruct n; [done|simpl in Hn; lia]. }
  destruct n as [|n]; [done|]. apply le_S_n in Hn. pose proof Hr as (Hname & Hty & Hct & Hdl & Hdb).
  unfold bytes_of. cbn [map concat read_records add_answers]. fold (bytes_of enc_rr rrs).
  set (tl := bytes_of enc_rr rrs) in *. set (nm := enc_name (name r)).
  set (tal := be16 (rtype r)). set (dl := be16 (Z.of_nat (length (rdata r)))).
  assert (Henc : enc_rr r = nm ++ tal ++ class_ttl r ++ dl ++ rdata r) by done.
  assert (Hlen : length (enc_rr r ++ tl) = (length nm + 10 + length (rdata r) + length tl)%nat).
  { rewrite Henc, !length_app, Hct. unfold tal, dl. rewrite !length_be16. lia. }
  rewrite Hlen.
  assert (Hpos : 0 < Z.of_nat (length nm + 10 + length (rdata r) + length tl) + more) by lia.
  rewrite (proj2 (Z.ltb_lt _ _) Hpos).
  set (buf := a ++ (enc_rr r ++ tl) ++ b).
  assert (Hb1 : buf = a ++ nm ++ (tal ++ class_ttl r ++ dl ++ rdata r) ++ tl ++ b).
  { unfold buf. rewrite Henc. by rewrite <-!app_assoc. }
  assert (Hb2 : buf = (a ++ nm) ++ tal ++ (class_ttl r ++ dl ++ rdata r ++ tl ++ b)).
  { rewrite Hb1. by rewrite <-!app_assoc. }
  assert (Hb3 : buf = (a ++ nm ++ tal ++ class_ttl r) ++ dl ++ (rdata r ++ tl ++ b)).
  { rewrite Hb1. by rewrite <-!app_assoc. }
  assert (Hb4 : buf = (a ++ nm ++ tal ++ class_ttl r ++ dl) ++ rdata r ++ (tl ++ b)).
  { rewrite Hb1. by rewrite <-!app_assoc. }
  assert (Hb5 : buf = (a ++ nm ++ tal ++ class_ttl r ++ dl ++ rdata r) ++ tl ++ b).
  { rewrite Hb1. by rewrite <-!app_assoc. }
  pose proof (length_be16 (rtype r)) as Hl1. pose proof (length_be16 (Z.of_nat (length (rdata r)))) as Hl2.
  fold tal in Hl1. fold dl in Hl2.
  set (total := Z.of_nat (length nm + 10 + length (rdata r) + length tl) + more) in *.
  assert (H1 : skip_name (S (Z.to_nat total)) buf (Z.of_nat (length a)) total
    = Some (Z.of_nat (length (a ++ nm)), total - Z.of_nat (length nm))).
  { rewrite Hb1. unfold nm. rewrite skip_name_at; [|done|fold nm; lia]. rewrite length_app. do 2 f_equal. lia. }
  assert (H2 : rd16 buf (Z.of_nat (length (a ++ nm))) = Some (bswap16 (rtype r))).
  { rewrite Hb2. by apply rd16_be16. }
  assert (H3 : rd16 buf (Z.of_nat (length (a ++ nm)) + 8)
    = Some (bswap16 (Z.of_nat (length (rdata r))))).
  { rewrite Hb3. replace (Z.of_nat (length (a ++ nm)) + 8)
      with (Z.of_nat (length (a ++ nm ++ tal ++ class_ttl r))) by (rewrite !length_app; lia).
    apply rd16_be16. unfold u_ok. lia. }
  assert (H4 : record_addr buf (Z.of_nat (length (a ++ nm)) + 10) (rtype r)
    (Z.of_nat (length (rdata r))) = Some (rr_addr r)).
  { rewrite Hb4. replace (Z.of_nat (length (a ++ nm)) + 10)
      with (Z.of_nat (length (a ++ nm ++ tal ++ class_ttl r ++ dl))) by (rewrite !length_app; lia).
    by apply record_addr_at. }
  rewrite H1. mstep. replace (total - Z.of_nat (length nm) <? 10) with false by lia.
  rewrite H2. mstep. rewrite H3. mstep. cbv zeta.
  rewrite !bswap16_involutive by (done || (unfold u_ok; lia)). rewrite H4. mstep.
  replace (Z.of_nat (length (a ++ nm)) + 10 + Z.of_nat (length (rdata r)))
    with (Z.of_nat (length (a ++ nm ++ tal ++ class_ttl r ++ dl ++ rdata r)))
    by (rewrite !length_app; lia).
  replace (total - Z.of_nat (length nm) - 10 - Z.of_nat (length (rdata r)))
    with (Z.of_nat (length tl) + more) by lia.
  rewrite Hb5. destruct (rr_addr r) as [ip|]; mstep; by rewrite IH.
Qed.

Lemma dns_flag v : u_ok 16 v -> Z.testbit v 15 = true -> (v .& 0x8000 =? 0x8000) = true.
Proof.
  intros Hv Hb. apply Z.eqb_eq. change 0x8000 with (2 ^ 15). apply Z.bits_inj'. intros i Hi.
  rewrite Z.land_spec, Z.pow2_bits_eqb by lia. destruct (Z.eqb_spec 15 i) as [<-|]; [by rewrite Hb|].
  by rewrite andb_false_r.
Qed.

Lemma bswap16_zero v : u_ok 16 v -> bswap16 v = 0 -> v = 0.
Proof. intros Hv H. rewrite <-(bswap16_involutive v Hv), H. done. Qed.

(** The whole reply, wherever it lies in the packet. *)
Lemma process_dns_reply_at query r pre more post tuple fl plen ihl l4l mem lru :
  reply_ok r -> DOT ∈ query ->
  process_dns_reply query
    (Pkt tuple fl plen ihl l4l (Z.of_nat (length (enc_reply r ++ more))) (pre ++ enc_reply r ++ more ++ post)
      (Z.of_nat (length pre))) mem lru
  = Some (tt, add_answers (length (answers r) `min` 32) query mem (answers r) lru).
Proof.
  intros (Hid & Hfl & Hbit & Hct & Hqs & Has & Hnq & Hna) Hq. unfold process_dns_reply.
  destruct query as [|c query]; [by apply not_elem_of_nil in Hq|].
  destruct (strchr (c :: query) DOT) eqn:Ed; [clear Ed|by apply strchr_None in Ed].
  cbn [pkt_l7_len pkt_mem pkt_l7]. unfold DNS_HEADER_LEN.
  set (nq := Z.of_nat (length (questions r))) in *. set (na := Z.of_nat (length (answers r))) in *.
  set (qb := bytes_of enc_question (questions r)). set (ab := bytes_of enc_rr (answers r)).
  assert (Henc : enc_reply r = id r ++ be16 (flags r) ++ be16 nq ++ be16 na ++ counts r ++ qb ++ ab)
    by done.
  assert (Hlen : Z.of_nat (length (enc_reply r ++ more)) = 12 + (Z.of_nat (length qb) + (Z.of_nat (length ab) + Z.of_nat (length more)))).
  { rewrite Henc, !length_app, Hid, Hct, !length_be16. lia. }
  rewrite Hlen. replace (_ <? 12) with false by lia. cbv zeta.
  set (buf := pre ++ enc_reply r ++ more ++ post).
  assert (Hrd : forall a v b, u_ok 16 v -> buf = a ++ be16 v ++ b ->
    forall off, off = Z.of_nat (length a) -> rd16 buf off = Some (bswap16 v)).
  { intros a v b Hv -> off ->. by apply rd16_be16. }
  assert (H1 : rd16 buf (Z.of_nat (length pre) + 2) = Some (bswap16 (flags r))).
  { eapply (Hrd (pre ++ id r)); [done| |rewrite length_app; lia].
    unfold buf. rewrite Henc, <-!app_assoc. done. }
  assert (H2 : rd16 buf (Z.of_nat (length pre) + 4) = Some (bswap16 nq)).
  { eapply (Hrd (pre ++ id r ++ be16 (flags r))); [unfold u_ok; lia| |].
    - unfold buf. rewrite Henc, <-!app_assoc. done.
    - rewrite !length_app, length_be16. lia. }
  assert (H3 : rd16 buf (Z.of_nat (length pre) + 6) = Some (bswap16 na)).
  { eapply (Hrd (pre ++ id r ++ be16 (flags r) ++ be16 nq)); [unfold u_ok; lia| |].
    - unfold buf. rewrite Henc, <-!app_assoc. done.
    - rewrite !length_app, !length_be16. lia. }
  mstep. rewrite H1. mstep. rewrite H2. mstep. rewrite H3. mstep.
  rewrite bswap16_involutive, dns_flag by done.
  assert (Hz : forall v, 0 < v < 2 ^ 16 -> negb (bswap16 v =? 0) = true).
  { intros v Hv. apply negb_true_iff, Z.eqb_neq. intros E. apply bswap16_zero in E; [lia|]. unfold u_ok. lia. }
  rewrite !Hz by done. cbn [andb]. rewrite !bswap16_involutive by (unfold u_ok; lia).
  set (hd := pre ++ id r ++ be16 (flags r) ++ be16 nq ++ be16 na ++ counts r).
  assert (Hhd : Z.of_nat (length hd) = Z.of_nat (length pre) + 12).
  { unfold hd. rewrite !length_app, Hid, Hct, !length_be16. lia. }
  assert (Hbuf : buf = hd ++ qb ++ ab ++ more ++ post).
  { unfold buf, hd. rewrite Henc. by rewrite <-!app_assoc. }
  rewrite Hbuf, <-Hhd. replace (12 + (Z.of_nat (length qb) + (Z.of_nat (length ab) + Z.of_nat (length more))) - 12)
    with (Z.of_nat (length qb) + (Z.of_nat (length ab) + Z.of_nat (length more))) by lia.
  unfold nq. rewrite Nat2Z.id.
  pose proof (skip_queries_at (questions r) hd (ab ++ more ++ post) (Z.of_nat (length ab) + Z.of_nat (length more)) Hqs ltac:(lia)) as Hs.
  cbv zeta in Hs. fold qb in Hs. rewrite Hs. mstep. cbn [fst snd].
  replace (hd ++ qb ++ ab ++ more ++ post) with ((hd ++ qb) ++ ab ++ more ++ post) by (by rewrite <-app_assoc).
  replace (Z.of_nat (length hd) + Z.of_nat (length qb)) with (Z.of_nat (length (hd ++ qb)))
    by (rewrite length_app; lia).
  unfold ab. rewrite read_records_at by (first [done | unfold na; lia]). do 3 f_equal. unfold na. lia.
Qed.

(** C34: The A and AAAA records of a reply reach the host name cache under the name
    that was asked for: one addition per record, in order, for the first 32 records;
    whatever follows the answers, authority and additional records, is not looked at.
    The reply has a question and an answer, and the names of its records are labels in
    full or labels that end in a pointer to the first 256 bytes, no byte of them
    being 192 (a pointer beyond, [far_pointer_lost], is not recognised). *)
Theorem dns_reply_roundtrip query r pre more post tuple fl plen ihl l4l mem lru :
  reply_ok r -> DOT ∈ query ->
  process_dns_reply query
    (Pkt tuple fl plen ihl l4l (Z.of_nat (length (enc_reply r ++ more))) (pre ++ enc_reply r ++ more ++ post)
      (Z.of_nat (length pre))) mem lru
  = Some (tt, add_answers (length (answers r) `min` 32) query mem (answers r) lru).
Proof. apply process_dns_reply_at. Qed.

Definition reply_example : reply :=
  Reply [0x12; 0x34] 0x8180 [([3; 119; 119; 119; 2; 97; 98; 3; 99; 111; 109], [0; 1; 0; 1])]
    [RR (NamePtr [] 12) 5 (replicate 6 0) [1; 97; 0xc0; 12];
     RR (NamePtr [1; 97] 16) 1 (replicate 6 0) [93; 184; 216; 34];
     RR (NameFull [2; 97; 98; 3; 99; 111; 109]) 28 (replicate 6 0) ([0x20; 1] ++ replicate 14 7)]
    [0; 0; 0; 0].

(** The EDNS record that ends most replies. *)
Definition opt_record : list Z := [0; 0; 41; 4; 208; 0; 0; 0; 0; 0; 0].
Lemma dns_reply_roundtrip_witness :
  let lru := IpLruT 10 [] in
  let q := str "www.ab.com" in
  process_dns_reply q
    (Pkt (Tuple ip_zero ip_zero 0 0 4 17) 0 0 0 0 (Z.of_nat (length (enc_reply reply_example ++ opt_record)))
      ([9; 9] ++ enc_reply reply_example ++ opt_record ++ []) 2) (fun _ => (true, true)) lru
  = Some (tt, add_answers (length (answers reply_example) `min` 32) q (fun _ => (true, true))
      (answers reply_example) lru) /\
  cache (add_answers 3 q (fun _ => (true, true)) (answers reply_example) lru)
    = [(ZIp ([93; 184; 216; 34] ++ replicate 12 0), q); (ZIp ([0x20; 1] ++ replicate 14 7), q)].
Proof.
  split; [|vm_compute; reflexivity]. apply (dns_reply_roundtrip _ reply_example [9; 9] opt_record []).
  - apply (bool_decide_unpack _). vm_compute. done.
  - apply list_elem_of_In. vm_compute. auto 10.
Defined.

Lemma process_dns_reply_safe_witness :
  let p := Pkt (Tuple ip_zero ip_zero 0 0 4 17) 0 0 0 0 20 (replicate 40 0xc0) 2 in
  exists lru', process_dns_reply (str "a.b") p (fun _ => (true, false)) (IpLruT 4 [])
    = Some (tt, lru') /\ max_size lru' = 4.
Proof.
  apply process_dns_reply_safe; [|by vm_compute..]. apply Forall_replicate. unfold u_ok. lia.
Defined.

(** A record cut short by the end of the packet: the address that is cached
    comes from the bytes behind the packet. *)
Theorem truncated_record_reads_past_end :
  exists query payload junk1 junk2 mem,
    let run junk := process_dns_reply query (Pkt (Tuple ip_zero ip_zero 0 0 4 17) 0 0 0 0
      (Z.of_nat (length payload)) (payload ++ junk) 0) mem (IpLruT 4 []) in
    length junk1 = length junk2 /\
    run junk1 = Some (tt, IpLruT 4 [(ip_of_ip4 0x04030201, query)]) /\
    run junk2 = Some (tt, IpLruT 4 [(ip_of_ip4 0x08070605, query)]).
Proof.
  exists (str "a.b"), (take 33 (enc_reply (Reply [0; 0] 0x8180 [([1; 97; 1; 98], [0; 1; 0; 1])]
    [RR (NamePtr [] 12) 1 (replicate 6 0) [0; 0; 0; 0]] [0; 0; 0; 0]))) .
  exists [1; 2; 3; 4], [5; 6; 7; 8], (fun _ => (true, true)). vm_compute. done.
Qed.

(** A pointer beyond the first 256 bytes is not recognised as one: the record
    behind it is lost. *)
Example far_pointer_lost :
  let r := Reply [0; 0] 0x8180 [([1; 97; 1; 98], [0; 1; 0; 1])]
    [RR (NameFull [0xc1; 5]) 1 (replicate 6 0) [1; 2; 3; 4]] [0; 0; 0; 0] in
  (* without the root label that ends a name in full *)
  let wire := take 23 (enc_reply r) ++ drop 24 (enc_reply r) in
  process_dns_reply (str "a.b") (Pkt (Tuple ip_zero ip_zero 0 0 4 17) 0 0 0 0
    (Z.of_nat (length wire)) (wire ++ replicate 16 0) 0) (fun _ => (true, true)) (IpLruT 4 [])
  = Some (tt, IpLruT 4 []).
Proof. vm_compute. reflexivity. Qed.

End PdDns.
