(* ===== verification/NdpiConf.v ===== *)
(** * The application protocols (core/ndpi_config.c)

    nDPI reports a master and an application protocol for a flow.  The capture
    keeps one of the protocols that [init_ndpi_protocols_bitmask] enables.  The
    identifiers are those of ndpi_protocol_ids.h. *)

From S2P Require Import Prelude.

Module NdpiConf.

Definition NDPI_PROTOCOL_UNKNOWN : Z := 0.
Definition NDPI_PROTOCOL_FTP_CONTROL : Z := 1.
Definition NDPI_PROTOCOL_MAIL_POP : Z := 2.
Definition NDPI_PROTOCOL_MAIL_SMTP : Z := 3.
Definition NDPI_PROTOCOL_MAIL_IMAP : Z := 4.
Definition NDPI_PROTOCOL_DNS : Z := 5.
Definition NDPI_PROTOCOL_IPP : Z := 6.
Definition NDPI_PROTOCOL_HTTP : Z := 7.
Definition NDPI_PROTOCOL_MDNS : Z := 8.
Definition NDPI_PROTOCOL_NTP : Z := 9.
Definition NDPI_PROTOCOL_NETBIOS : Z := 10.
Definition NDPI_PROTOCOL_NFS : Z := 11.
Definition NDPI_PROTOCOL_SSDP : Z := 12.
Definition NDPI_PROTOCOL_SNMP : Z := 14.
Definition NDPI_PROTOCOL_SMBV1 : Z := 16.
Definition NDPI_PROTOCOL_SYSLOG : Z := 17.
Definition NDPI_PROTOCOL_DHCP : Z := 18.
Definition NDPI_PROTOCOL_POSTGRES : Z := 19.
Definition NDPI_PROTOCOL_MYSQL : Z := 20.
Definition NDPI_PROTOCOL_MAIL_POPS : Z := 23.
Definition NDPI_PROTOCOL_MAIL_SMTPS : Z := 29.
Definition NDPI_PROTOCOL_DTLS : Z := 30.
Definition NDPI_PROTOCOL_BITTORRENT : Z := 37.
Definition NDPI_PROTOCOL_SMBV23 : Z := 41.
Definition NDPI_PROTOCOL_RTSP : Z := 50.
Definition NDPI_PROTOCOL_MAIL_IMAPS : Z := 51.
Definition NDPI_PROTOCOL_IRC : Z := 65.
Definition NDPI_PROTOCOL_NATS : Z := 68.
Definition NDPI_PROTOCOL_TELNET : Z := 77.
Definition NDPI_PROTOCOL_STUN : Z := 78.
Definition NDPI_PROTOCOL_IP_IPSEC : Z := 79.
Definition NDPI_PROTOCOL_IP_GRE : Z := 80.
Definition NDPI_PROTOCOL_RTP : Z := 87.
Definition NDPI_PROTOCOL_RDP : Z := 88.
Definition NDPI_PROTOCOL_VNC : Z := 89.
Definition NDPI_PROTOCOL_TLS : Z := 91.
Definition NDPI_PROTOCOL_SSH : Z := 92.
Definition NDPI_PROTOCOL_TFTP : Z := 96.
Definition NDPI_PROTOCOL_STEALTHNET : Z := 98.
Definition NDPI_PROTOCOL_SIP : Z := 100.
Definition NDPI_PROTOCOL_DHCPV6 : Z := 103.
Definition NDPI_PROTOCOL_KERBEROS : Z := 111.
Definition NDPI_PROTOCOL_PPTP : Z := 115.
Definition NDPI_PROTOCOL_NETFLOW : Z := 128.
Definition NDPI_PROTOCOL_SFLOW : Z := 129.
Definition NDPI_PROTOCOL_HTTP_CONNECT : Z := 130.
Definition NDPI_PROTOCOL_HTTP_PROXY : Z := 131.
Definition NDPI_PROTOCOL_RADIUS : Z := 146.
Definition NDPI_PROTOCOL_TEAMVIEWER : Z := 148.
Definition NDPI_PROTOCOL_OPENVPN : Z := 159.
Definition NDPI_PROTOCOL_CISCOVPN : Z := 161.
Definition NDPI_PROTOCOL_TOR : Z := 163.
Definition NDPI_PROTOCOL_RTCP : Z := 165.
Definition NDPI_PROTOCOL_SOCKS : Z := 172.
Definition NDPI_PROTOCOL_RTMP : Z := 174.
Definition NDPI_PROTOCOL_FTP_DATA : Z := 175.
Definition NDPI_PROTOCOL_ZMQ : Z := 177.
Definition NDPI_PROTOCOL_REDIS : Z := 182.
Definition NDPI_PROTOCOL_QUIC : Z := 188.
Definition NDPI_PROTOCOL_WIREGUARD : Z := 206.
Definition NDPI_PROTOCOL_DNSCRYPT : Z := 208.
Definition NDPI_PROTOCOL_TINC : Z := 209.
Definition NDPI_PROTOCOL_MQTT : Z := 222.
Definition NDPI_PROTOCOL_RX : Z := 223.
Definition NDPI_PROTOCOL_GIT : Z := 226.
Definition NDPI_PROTOCOL_WEBSOCKET : Z := 251.
Definition NDPI_PROTOCOL_Z3950 : Z := 260.

Definition NDPI_BITS : Z := 32.
Definition NDPI_NUM_BITS : Z := 512.
Definition NDPI_NUM_FDS_BITS : Z := 16.
(** [NDPI_MAX_SUPPORTED_PROTOCOLS + NDPI_MAX_NUM_CUSTOM_PROTOCOLS]: the length of
    the table [proto_defaults]. *)
Definition NDPI_MAX_PROTOCOLS : Z := NDPI_NUM_BITS.

(** [ndpi_protocol_bitmask_struct_t]: the words of [fds_bits]. *)
Definition bitmask := list Z.

Definition NDPI_ZERO : bitmask := replicate (Z.to_nat NDPI_NUM_FDS_BITS) 0.
Definition NDPI_SET (p : bitmask) (n : Z) : option bitmask :=
  w ← p !! Z.to_nat (n / NDPI_BITS);
  Some (<[Z.to_nat (n / NDPI_BITS) := u32 (w .| (1 <<< (n mod NDPI_BITS)))]> p).
Definition NDPI_ISSET (p : bitmask) (n : Z) : option bool :=
  w ← p !! Z.to_nat (n / NDPI_BITS);
  Some (negb ((w .& (1 <<< (n mod NDPI_BITS))) =? 0)).

Definition enabled_protocols : list Z :=
  [ NDPI_PROTOCOL_FTP_CONTROL; NDPI_PROTOCOL_MAIL_POP; NDPI_PROTOCOL_MAIL_SMTP;
    NDPI_PROTOCOL_MAIL_IMAP; NDPI_PROTOCOL_DNS; NDPI_PROTOCOL_IPP;
    NDPI_PROTOCOL_HTTP; NDPI_PROTOCOL_MDNS; NDPI_PROTOCOL_NTP;
    NDPI_PROTOCOL_NETBIOS; NDPI_PROTOCOL_NFS; NDPI_PROTOCOL_SSDP;
    NDPI_PROTOCOL_SNMP; NDPI_PROTOCOL_SMBV1; NDPI_PROTOCOL_SYSLOG;
    NDPI_PROTOCOL_DHCP; NDPI_PROTOCOL_POSTGRES; NDPI_PROTOCOL_MYSQL;
    NDPI_PROTOCOL_MAIL_POPS; NDPI_PROTOCOL_MAIL_SMTPS; NDPI_PROTOCOL_DTLS;
    NDPI_PROTOCOL_BITTORRENT; NDPI_PROTOCOL_SMBV23; NDPI_PROTOCOL_RTSP;
    NDPI_PROTOCOL_MAIL_IMAPS; NDPI_PROTOCOL_IRC; NDPI_PROTOCOL_NATS;
    NDPI_PROTOCOL_TELNET; NDPI_PROTOCOL_STUN; NDPI_PROTOCOL_IP_IPSEC;
    NDPI_PROTOCOL_IP_GRE; NDPI_PROTOCOL_RTP; NDPI_PROTOCOL_RDP;
    NDPI_PROTOCOL_VNC; NDPI_PROTOCOL_TLS; NDPI_PROTOCOL_SSH;
    NDPI_PROTOCOL_TFTP; NDPI_PROTOCOL_STEALTHNET; NDPI_PROTOCOL_SIP;
    NDPI_PROTOCOL_DHCPV6; NDPI_PROTOCOL_KERBEROS; NDPI_PROTOCOL_PPTP;
    NDPI_PROTOCOL_NETFLOW; NDPI_PROTOCOL_SFLOW; NDPI_PROTOCOL_HTTP_CONNECT;
    NDPI_PROTOCOL_HTTP_PROXY; NDPI_PROTOCOL_RADIUS; NDPI_PROTOCOL_TEAMVIEWER;
    NDPI_PROTOCOL_OPENVPN; NDPI_PROTOCOL_CISCOVPN; NDPI_PROTOCOL_TOR;
    NDPI_PROTOCOL_RTCP; NDPI_PROTOCOL_SOCKS; NDPI_PROTOCOL_RTMP;
    NDPI_PROTOCOL_FTP_DATA; NDPI_PROTOCOL_ZMQ; NDPI_PROTOCOL_REDIS;
    NDPI_PROTOCOL_QUIC; NDPI_PROTOCOL_WIREGUARD; NDPI_PROTOCOL_DNSCRYPT;
    NDPI_PROTOCOL_TINC; NDPI_PROTOCOL_DNSCRYPT; NDPI_PROTOCOL_MQTT;
    NDPI_PROTOCOL_RX; NDPI_PROTOCOL_GIT; NDPI_PROTOCOL_WEBSOCKET;
    NDPI_PROTOCOL_Z3950 ].

Definition init_ndpi_protocols_bitmask : option bitmask :=
  foldl (fun b n => p ← b; NDPI_SET p n) (Some NDPI_ZERO) enabled_protocols.

Record ndpi_protocol := NProto { master_protocol : Z; app_protocol : Z }.

(** [masterProtos] is initialised before its first use. *)
Definition pd_ndpi2proto (proto : ndpi_protocol) : option Z :=
  let l7proto := if negb (master_protocol proto =? NDPI_PROTOCOL_UNKNOWN)
                 then master_protocol proto else app_protocol proto in
  let l7proto := if (l7proto =? NDPI_PROTOCOL_HTTP_CONNECT) || (l7proto =? NDPI_PROTOCOL_HTTP_PROXY)
                 then NDPI_PROTOCOL_HTTP else l7proto in
  masterProtos ← init_ndpi_protocols_bitmask;
  set ← NDPI_ISSET masterProtos l7proto;
  Some (if negb set then NDPI_PROTOCOL_UNKNOWN else l7proto).

(** [isClearTextProto] is the field of the table of nDPI. *)
Definition is_encrypted_l7 (isClearTextProto : Z -> bool) (l7proto : Z) : bool :=
  if NDPI_MAX_PROTOCOLS <=? l7proto then false else negb (isClearTextProto l7proto).

(** ** The protocols a connection can have *)

Definition app_proto (p : Z) : bool := bool_decide (p = 0 \/ p ∈ enabled_protocols).
Definition proto_ok (p : ndpi_protocol) : Prop :=
  0 <= master_protocol p < NDPI_MAX_PROTOCOLS /\ 0 <= app_protocol p < NDPI_MAX_PROTOCOLS.

Definition master_protos : bitmask :=
  Eval vm_compute in default NDPI_ZERO init_ndpi_protocols_bitmask.

Lemma init_bitmask : init_ndpi_protocols_bitmask = Some master_protos.
Proof. by vm_compute. Qed.

(** The mask holds exactly the list. *)
Lemma isset_enabled n :
  0 <= n < NDPI_MAX_PROTOCOLS ->
  NDPI_ISSET master_protos n = Some (bool_decide (n ∈ enabled_protocols)).
Proof.
  intros Hn.
  assert (H : forallb (fun n => bool_decide (NDPI_ISSET master_protos n =
      Some (bool_decide (n ∈ enabled_protocols)))) (seqZ 0 512) = true) by (by vm_compute).
  rewrite forallb_forall in H. specialize (H n). rewrite bool_decide_eq_true in H.
  apply H, list_elem_of_In, elem_of_seqZ. unfold NDPI_MAX_PROTOCOLS, NDPI_NUM_BITS in Hn. lia.
Qed.

Lemma ndpi2proto_ok proto :
  proto_ok proto -> exists p, pd_ndpi2proto proto = Some p /\ app_proto p = true.
Proof.
  intros [H1 H2]. unfold pd_ndpi2proto. rewrite init_bitmask. cbn [mbind option_bind].
  set (p1 := if negb _ then _ else app_protocol proto).
  assert (0 <= p1 < NDPI_MAX_PROTOCOLS) by (unfold p1; by case_match).
  set (p2 := if _ || _ then _ else p1).
  assert (0 <= p2 < NDPI_MAX_PROTOCOLS).
  { unfold p2. case_match; [by vm_compute|done]. }
  rewrite isset_enabled by done. cbn [mbind option_bind]. eexists. split; [done|].
  case_bool_decide as E; apply bool_decide_eq_true; simpl; [by right|by left].
Qed.

End NdpiConf.
