(* ===== verification/ZdtunWire.v ===== *)
(** * Building packets in zdtun (zdtun.c, utils.c of submodules/zdtun)

    The internet checksum, the IPv4/IPv6 headers and the TCP header that
    zdtun writes in front of the data it sends back to the client.  A buffer is
    a list of bytes; stores are bounds checked. *)

From S2P Require Import Prelude ZdtunTypes ZdtunConn ZdtunPkt.
Import ZdtunPkt.

Module ZdtunWire.

(** ** [calc_checksum] (utils.c) *)

(** The first loop: 16-bit words as loaded from memory, then the odd byte. *)
Fixpoint sum_words (sum : Z) (buf : list Z) : Z :=
  match buf with
  | a :: b :: buf' => sum_words (u32 (sum + le_val [a; b])) buf'
  | [a] => u32 (sum + a)
  | [] => sum
  end.

(** [while(sum >> 16)]; the bound on the number of turns is shown below. *)
Fixpoint fold_carry (fuel : nat) (sum : Z) : Z :=
  match fuel with
  | O => sum
  | S fuel =>
      if sum >>> 16 =? 0 then sum
      else fold_carry fuel (u32 ((sum .& 0xFFFF) + (sum >>> 16)))
  end.

Definition calc_checksum (start : Z) (buf : list Z) : Z := u16 (fold_carry 3 (sum_words start buf)).

(** ** Headers *)

Definition iphdr4 (t : zdtun_5tuple) (tot_len check : Z) : list Z :=
  [0x45; 0] ++ le_bytes 2 (htons tot_len) ++ [0; 0] ++ le_bytes 2 (htons 0x4000) ++
  [64; ipproto t] ++ le_bytes 2 check ++
  take 4 (ip_bytes (dst_ip t)) ++ take 4 (ip_bytes (src_ip t)).

Definition iphdr6 (t : zdtun_5tuple) (l3_len : Z) : list Z :=
  [0x60; 0; 0; 0] ++ le_bytes 2 (htons l3_len) ++
  [(if negb (ipproto t =? IPPROTO_ICMP) then ipproto t else IPPROTO_ICMPV6); 64] ++
  ip_bytes (dst_ip t) ++ ip_bytes (src_ip t).

(** [zdtun_make_iphdr]: the header of a packet from the server to the client. *)
Definition make_iphdr_bytes (ver : Z) (t : zdtun_5tuple) (l3_len : Z) : list Z :=
  if ver =? 4 then
    let tot_len := u16 (l3_len + IPV4_HEADER_LEN) in
    iphdr4 t tot_len (ulnot 16 (calc_checksum 0 (iphdr4 t tot_len 0)))
  else iphdr6 t l3_len.

Definition zdtun_make_iphdr (ver : Z) (t : zdtun_5tuple) (l3_len : Z) (buf : list Z) :
    option (list Z) :=
  wrn 0 (make_iphdr_bytes ver t l3_len) buf.

(** The pseudo headers of [zdtun_l3_checksum]. *)
Definition ippseudo (src dst : list Z) (proto l3_len : Z) : list Z :=
  src ++ dst ++ [0; proto] ++ le_bytes 2 (htons l3_len).
Definition ip6_hdr_pseudo (src dst plen : list Z) (nxt : Z) : list Z :=
  src ++ dst ++ plen ++ [0; 0] ++ [0; 0; 0] ++ [nxt].

(** [zdtun_l3_checksum]: [off] is where the transport header starts in [buf]. *)
Definition zdtun_l3_checksum (ver proto : Z) (buf : list Z) (off l3_len : Z) : option Z :=
  l3 ← rdn (Z.to_nat l3_len) buf off;
  let rv := calc_checksum 0 l3 in
  pseudo ← (if ver =? 4 then
              src ← rdn 4 buf 12; dst ← rdn 4 buf 16;
              Some (ippseudo src dst proto l3_len)
            else
              src ← rdn 16 buf 8; dst ← rdn 16 buf 24; plen ← rdn 2 buf 4;
              Some (ip6_hdr_pseudo src dst plen
                (if (ver =? 6) && (proto =? IPPROTO_ICMP) then IPPROTO_ICMPV6 else proto)));
  Some (ulnot 16 (calc_checksum rv pseudo)).

(** The TCP header of [build_reply_tcpip]; [win] is the field [th_win]. *)
Definition tcphdr_bytes (c : zdtun_conn) (flags optsoff win sum : Z) : list Z :=
  le_bytes 2 (dst_port (c_tuple c)) ++ le_bytes 2 (src_port (c_tuple c)) ++
  le_bytes 4 (htonl (zdtun_seq c)) ++
  le_bytes 4 (if negb ((flags .& TH_ACK) =? 0) then htonl (client_seq c) else 0) ++
  [(5 + optsoff) <<< 4; flags] ++ le_bytes 2 win ++ le_bytes 2 sum ++ [0; 0].

(** [th_win]: the smaller of the free send buffer and the largest window. *)
Definition tcp_window (sndbuf scale : Z) : Z :=
  let max_win := u32 (0xFFFF <<< scale) in
  let tcpwin := cmin sndbuf max_win in
  htons (u16 (tcpwin >>> scale)).

Definition build_reply_tcpip (ver : Z) (c : zdtun_conn) (flags l4_len optsoff sndbuf : Z)
    (buf : list Z) : option (list Z) :=
  let iphdr_len := zdtun_iphdr_len ver in
  let l3_len := u16 (l4_len + TCP_HEADER_LEN + optsoff * 4) in
  let win := tcp_window sndbuf (window_scale c) in
  buf ← wrn iphdr_len (tcphdr_bytes c flags optsoff win 0) buf;
  buf ← zdtun_make_iphdr ver (c_tuple c) l3_len buf;
  sum ← zdtun_l3_checksum ver (ipproto (c_tuple c)) buf iphdr_len l3_len;
  wrn (iphdr_len + 16) (le_bytes 2 sum) buf.

(** ** The checksum is the ones' complement sum *)

Fixpoint words (buf : list Z) : Z :=
  match buf with
  | a :: b :: buf' => le_val [a; b] + words buf'
  | [a] => a
  | [] => 0
  end.

Lemma words_ind (P : list Z -> Prop) :
  P [] -> (forall a, P [a]) -> (forall a b l, P l -> P (a :: b :: l)) -> forall l, P l.
Proof.
  intros H0 H1 H2 l. enough (P l /\ forall a, P (a :: l)) as [? _] by done.
  induction l as [|a l [IH1 IH2]]; split; auto.
Qed.

Lemma words_bound buf : bytes_ok buf -> 0 <= words buf <= 65535 * ((Z.of_nat (length buf) + 1) / 2).
Proof.
  induction buf as [|a|a b l IH] using words_ind; intros Hok; [done| |].
  - inversion Hok; subst. unfold u_ok in *. cbn [words length]. change ((Z.of_nat 1 + 1) / 2) with 1. lia.
  - inversion Hok as [|? ? Ha Hok1]; subst. inversion Hok1 as [|? ? Hb Hok2]; subst.
    cbn [words le_val length]. unfold u_ok in *. apply IH in Hok2.
    replace (Z.of_nat (S (S (length l))) + 1) with ((Z.of_nat (length l) + 1) + 1 * 2) by lia.
    rewrite Z.div_add by lia. lia.
Qed.

Lemma sum_words_words buf s :
  bytes_ok buf -> 0 <= s -> s + words buf < 2 ^ 32 -> sum_words s buf = s + words buf.
Proof.
  revert s. induction buf as [|a|a b l IH] using words_ind; intros s Hok Hs Hlt.
  - simpl. lia.
  - inversion Hok; subst. unfold u_ok in *. simpl in *. apply uwrap_id. unfold u_ok. lia.
  - inversion Hok as [|? ? Ha Hok1]; subst. inversion Hok1 as [|? ? Hb Hok2]; subst.
    cbn [sum_words words] in *. pose proof (words_bound l Hok2) as Hb'.
    assert (0 <= le_val [a; b]) by (unfold u_ok in *; cbn; lia).
    rewrite uwrap_id by (unfold u_ok; lia). rewrite IH by (done || lia). lia.
Qed.

(** One turn keeps the value modulo 65535 and the zero test. *)
Lemma fold_step s :
  0 <= s -> exists h, s = h * 65536 + (s .& 0xFFFF) /\ h = s >>> 16 /\ 0 <= h /\ 0 <= s .& 0xFFFF < 65536.
Proof.
  intros Hs. exists (s >>> 16). rewrite Z.shiftr_div_pow2 by lia.
  change 0xFFFF with (Z.ones 16). rewrite Z.land_ones by lia.
  pose proof (Z.div_mod s (2 ^ 16)). pose proof (Z.mod_pos_bound s (2 ^ 16)).
  pose proof (Z.div_pos s (2 ^ 16)). split_and!; lia.
Qed.

(** Three turns are enough, and the result is the sum modulo 65535, where 0
    stands for 0 only. *)
Lemma fold_carry_spec s :
  0 <= s < 2 ^ 32 ->
  0 <= fold_carry 3 s < 65536 /\ fold_carry 3 s mod 65535 = s mod 65535 /\
  (fold_carry 3 s = 0 <-> s = 0).
Proof.
  intros Hs.
  assert (Hbase : forall n t, 0 <= t < 65536 -> fold_carry n t = t).
  { intros [|n] t Ht; [done|]. cbn [fold_carry].
    rewrite Z.shiftr_div_pow2, Z.div_small by lia. done. }
  assert (Hstep : forall n t, 0 <= t < 2 ^ 32 -> 65536 <= t ->
    exists t', fold_carry (S n) t = fold_carry n t' /\ t' mod 65535 = t mod 65535 /\
      0 < t' <= t / 65536 + 65535 /\ t' = t - t / 65536 * 65535).
  { intros n t Ht Hge. destruct (fold_step t) as (h & He & Hh & Hh0 & Hl); [lia|].
    exists ((t .& 0xFFFF) + h). cbn [fold_carry]. rewrite <-Hh.
    replace (h =? 0) with false by lia. rewrite uwrap_id by (unfold u_ok; lia).
    split; [done|]. split.
    - rewrite He at 2. replace (h * 65536 + (t .& 65535)) with ((t .& 65535) + h + h * 65535) by lia.
      by rewrite Z_mod_plus_full.
    - assert (t / 65536 = h) as ->; [|lia].
      rewrite He, Z.div_add_l, Z.div_small by lia. lia. }
  destruct (decide (s < 65536)) as [|Hge]; [rewrite Hbase by lia; lia|].
  destruct (Hstep 2%nat s) as (t & -> & Hm & Hb); [lia..|].
  assert (s / 65536 < 65536) by (apply Z.div_lt_upper_bound; lia).
  destruct (decide (t < 65536)) as [|Hge2]; [rewrite Hbase by lia; lia|].
  destruct (Hstep 1%nat t) as (t' & -> & Hm' & Hb'); [lia..|].
  assert (t / 65536 = 1) by (symmetry; apply (Z.div_unique _ _ _ (t - 65536)); lia).
  rewrite (Hbase 1%nat t') by lia. lia.
Qed.

Lemma calc_checksum_spec start buf :
  bytes_ok buf -> u_ok 16 start -> Z.of_nat (length buf) <= 65535 ->
  u_ok 16 (calc_checksum start buf) /\
  calc_checksum start buf mod 65535 = (start + words buf) mod 65535 /\
  (calc_checksum start buf = 0 <-> start = 0 /\ words buf = 0).
Proof.
  intros Hok Hs Hl. unfold calc_checksum, u_ok in *.
  pose proof (words_bound buf Hok) as Hb.
  assert ((Z.of_nat (length buf) + 1) / 2 <= 32768) by (apply Z.div_le_upper_bound; lia).
  rewrite sum_words_words by (done || lia).
  destruct (fold_carry_spec (start + words buf)) as (H1 & H2 & H3); [lia|].
  rewrite uwrap_id by (unfold u_ok; lia). split; [lia|]. split; [done|]. lia.
Qed.

Lemma words_app a b : Nat.Even (length a) -> words (a ++ b) = words a + words b.
Proof.
  induction a as [|x|x y l IH] using words_ind; intros He; [done| |].
  - by destruct He as [? ?]; simpl in *; lia.
  - change ((x :: y :: l) ++ b) with (x :: y :: (l ++ b)). cbn [words]. rewrite IH; [lia|].
    destruct He as [k Hk]. exists (k - 1)%nat. simpl in Hk. lia.
Qed.

Lemma words_le2 z : u_ok 16 z -> words (le_bytes 2 z) = z.
Proof.
  intros Hz. pose proof (le_val_le_bytes 2 z) as H. rewrite Z.mod_small in H by apply Hz.
  rewrite <-H at 2. cbn [le_bytes words le_val]. lia.
Qed.

Lemma ulnot_16 z : u_ok 16 z -> ulnot 16 z = 65535 - z.
Proof.
  intros Hz. unfold ulnot, uwrap, u_ok, Z.lnot in *. rewrite <-Z.sub_1_r.
  rewrite <-(Z_mod_plus_full (- z - 1) 1). rewrite Z.mod_small; lia.
Qed.

(** A packet whose checksum field was computed over the rest verifies: the
    checksum of the whole is 0xFFFF.  [pre] and [post] surround the field. *)
Lemma checksum_verifies pre post start :
  Nat.Even (length pre) -> bytes_ok pre -> bytes_ok post -> u_ok 16 start ->
  Z.of_nat (length pre + 2 + length post) <= 65535 ->
  let check := ulnot 16 (calc_checksum start (pre ++ [0; 0] ++ post)) in
  calc_checksum start (pre ++ le_bytes 2 check ++ post) = 0xFFFF.
Proof.
  intros He Hpre Hpost Hs Hl check.
  assert (Hz : bytes_ok (pre ++ [0; 0] ++ post)) by (repeat apply Forall_app_2; by repeat constructor).
  destruct (calc_checksum_spec start (pre ++ [0; 0] ++ post)) as (H1 & H2 & H3);
    [done|done|rewrite !length_app; simpl; lia|].
  set (s0 := calc_checksum start (pre ++ [0; 0] ++ post)) in *.
  assert (Hc : check = 65535 - s0) by (by apply ulnot_16).
  assert (Hcu : u_ok 16 check) by (apply ulnot_ok; lia).
  assert (Hok : bytes_ok (pre ++ le_bytes 2 check ++ post)).
  { repeat apply Forall_app_2; [done|apply le_bytes_ok|done]. }
  destruct (calc_checksum_spec start (pre ++ le_bytes 2 check ++ post)) as (G1 & G2 & G3);
    [done|done|rewrite !length_app, length_le_bytes; lia|].
  set (s1 := calc_checksum _ (pre ++ le_bytes 2 check ++ post)) in *.
  rewrite words_app in G2, G3, H2, H3 by done.
  rewrite words_app in G2, G3 by (rewrite length_le_bytes; by exists 1%nat).
  rewrite words_le2 in G2, G3 by done. cbn [app words le_val] in H2, H3.
  pose proof (words_bound pre Hpre). pose proof (words_bound post Hpost). unfold u_ok in *.
  assert (s1 mod 65535 = 0) as Hm.
  { rewrite G2, Hc.
    replace (start + (words pre + (65535 - s0 + words post)))
      with ((start + (words pre + (0 + 256 * (0 + 256 * 0) + words post))) - s0 + 1 * 65535) by lia.
    rewrite Z_mod_plus_full, Zminus_mod, <-H2, Z.sub_diag. done. }
  assert (s1 <> 0).
  { intros E. apply G3 in E. assert (s0 = 0) as E0; [apply H3; lia|]. lia. }
  apply Z.mod_divide in Hm; [|lia]. destruct Hm as [k Hk]. lia.
Qed.

Lemma iphdr4_split t tot check :
  iphdr4 t tot check =
  ([0x45; 0] ++ le_bytes 2 (htons tot) ++ [0; 0] ++ le_bytes 2 (htons 0x4000) ++ [64; ipproto t])
  ++ le_bytes 2 check ++ (take 4 (ip_bytes (dst_ip t)) ++ take 4 (ip_bytes (src_ip t))).
Proof. unfold iphdr4. by rewrite <-!app_assoc. Qed.

Definition tuple_ok (t : zdtun_5tuple) : Prop :=
  ip_ok (src_ip t) /\ ip_ok (dst_ip t) /\ u_ok 16 (src_port t) /\ u_ok 16 (dst_port t) /\
  u_ok 8 (ipproto t).

Lemma ip_ok_take4 ip : ip_ok ip -> length (take 4 (ip_bytes ip)) = 4%nat /\ bytes_ok (take 4 (ip_bytes ip)).
Proof. intros [Hl Hb]. split; [rewrite length_take; lia|by apply Forall_take]. Qed.

Lemma length_iphdr ver t l3 :
  tuple_ok t -> Z.of_nat (length (make_iphdr_bytes ver t l3)) = zdtun_iphdr_len ver.
Proof.
  intros ([Ls _] & [Ld _] & _). unfold make_iphdr_bytes, zdtun_iphdr_len.
  destruct (ver =? 4).
  - unfold iphdr4. by rewrite !length_app, !length_take, !length_le_bytes, Ls, Ld.
  - unfold iphdr6. by rewrite !length_app, !length_le_bytes, Ls, Ld.
Qed.

Lemma iphdr_bytes_ok ver t l3 : tuple_ok t -> bytes_ok (make_iphdr_bytes ver t l3).
Proof.
  intros ([Ls Bs] & [Ld Bd] & _ & _ & Hp). unfold make_iphdr_bytes.
  destruct (ver =? 4); [unfold iphdr4|unfold iphdr6]; solve_bytes. by case_match.
Qed.

Lemma length_tcphdr c flags optsoff win sum :
  length (tcphdr_bytes c flags optsoff win sum) = 20%nat.
Proof. unfold tcphdr_bytes. by rewrite !length_app, !length_le_bytes. Qed.

Lemma tcphdr_bytes_ok c flags optsoff win sum :
  u_ok 8 flags -> 0 <= optsoff <= 10 -> bytes_ok (tcphdr_bytes c flags optsoff win sum).
Proof.
  intros Hf Ho. unfold tcphdr_bytes. solve_bytes.
  unfold u_ok. rewrite Z.shiftl_mul_pow2 by lia. lia.
Qed.

Lemma iphdr_len_cases ver : zdtun_iphdr_len ver = 20 \/ zdtun_iphdr_len ver = 40.
Proof. unfold zdtun_iphdr_len. case_match; auto. Qed.

(** The checksum can be computed whenever the segment lies in the buffer. *)
Lemma l3_checksum_safe ver proto buf off l3_len :
  bytes_ok buf -> 40 <= Z.of_nat (length buf) -> 0 <= off -> 0 <= l3_len ->
  off + l3_len <= Z.of_nat (length buf) ->
  exists sum, zdtun_l3_checksum ver proto buf off l3_len = Some sum.
Proof.
  intros Hb H40 Ho Hl Hfit. unfold zdtun_l3_checksum.
  assert (Hrd : forall n o, 0 <= o -> o + Z.of_nat n <= Z.of_nat (length buf) ->
    exists l, rdn n buf o = Some l) by (intros; edestruct rdn_is_Some as (l & ? & _); eauto).
  destruct (Hrd (Z.to_nat l3_len) off) as [l ->]; [lia..|]. cbn [mbind option_bind].
  destruct (Hrd 4%nat 12) as [? ->]; [lia..|]. destruct (Hrd 4%nat 16) as [? ->]; [lia..|].
  destruct (Hrd 16%nat 8) as [? ->]; [lia..|]. destruct (Hrd 16%nat 24) as [? ->]; [lia..|].
  destruct (Hrd 2%nat 4) as [? ->]; [lia..|].
  destruct (ver =? 4); cbn [mbind option_bind]; by eexists.
Qed.

(** Building a reply writes only inside the buffer. *)
Lemma build_reply_safe ver c flags l4_len optsoff sndbuf buf :
  tuple_ok (c_tuple c) -> u_ok 8 flags -> 0 <= optsoff <= 10 -> 0 <= l4_len ->
  bytes_ok buf -> Z.of_nat (length buf) <= 65535 ->
  zdtun_iphdr_len ver + (l4_len + TCP_HEADER_LEN + optsoff * 4) <= Z.of_nat (length buf) ->
  exists buf', build_reply_tcpip ver c flags l4_len optsoff sndbuf buf = Some buf' /\
    length buf' = length buf /\ bytes_ok buf'.
Proof.
  intros Ht Hf Ho Hl4 Hb Hmax Hfit. unfold build_reply_tcpip, TCP_HEADER_LEN in *.
  set (win := tcp_window _ _). rewrite (uwrap_id 16).
  2:{ destruct (iphdr_len_cases ver); unfold u_ok; lia. }
  pose proof (length_iphdr ver (c_tuple c) (l4_len + 20 + optsoff * 4) Ht) as Hh.
  assert (0 < zdtun_iphdr_len ver) by (destruct (iphdr_len_cases ver); lia).
  destruct (wrn_safe (zdtun_iphdr_len ver) (tcphdr_bytes c flags optsoff win 0) buf)
    as (b1 & -> & Hl1 & Hb1); [lia|rewrite length_tcphdr; lia|by apply tcphdr_bytes_ok|done|].
  cbn [mbind option_bind]. unfold zdtun_make_iphdr.
  destruct (wrn_safe 0 (make_iphdr_bytes ver (c_tuple c) (l4_len + 20 + optsoff * 4)) b1)
    as (b2 & -> & Hl2 & Hb2); [lia|lia|by apply iphdr_bytes_ok|done|].
  cbn [mbind option_bind].
  destruct (l3_checksum_safe ver (ipproto (c_tuple c)) b2 (zdtun_iphdr_len ver)
    (l4_len + 20 + optsoff * 4)) as [sum ->]; [done| |lia..|].
  { destruct (iphdr_len_cases ver); lia. }
  cbn [mbind option_bind].
  destruct (wrn_safe (zdtun_iphdr_len ver + 16) (le_bytes 2 sum) b2)
    as (b3 & -> & Hl3 & Hb3); [lia|rewrite length_le_bytes; lia|apply le_bytes_ok|done|].
  exists b3. split_and!; [done|lia|done].
Qed.

(** Every IPv4 header zdtun produces has a valid checksum (RFC 1071): summing
    the 20 bytes, the checksum field included, gives 0xFFFF. *)
Theorem make_iphdr4_checksum t l3_len :
  tuple_ok t -> calc_checksum 0 (make_iphdr_bytes 4 t l3_len) = 0xFFFF.
Proof.
  intros (Hs & Hd & _ & _ & Hp).
  destruct (ip_ok_take4 _ Hs) as [Ls Bs], (ip_ok_take4 _ Hd) as [Ld Bd].
  unfold make_iphdr_bytes. cbn [Z.eqb Pos.eqb]. cbv zeta. rewrite !iphdr4_split.
  change (le_bytes 2 0) with [0; 0]. apply checksum_verifies.
  - by exists 5%nat.
  - solve_bytes.
  - by apply Forall_app_2.
  - done.
  - rewrite !length_app, Ls, Ld. simpl. lia.
Qed.

Definition tuple_ex : zdtun_5tuple :=
  Tuple (ip_of_ip4 0x0100000a) (ip_of_ip4 0x08080808) (htons 40000) (htons 443) 4 IPPROTO_TCP.

Lemma tuple_ex_ok : tuple_ok tuple_ex.
Proof. unfold tuple_ok. split_and!; (apply ip_of_ip4_ok || by vm_compute). Qed.

Lemma make_iphdr4_checksum_witness :
  calc_checksum 0 (make_iphdr_bytes 4 tuple_ex 20) = 0xFFFF.
Proof. apply make_iphdr4_checksum. apply tuple_ex_ok. Defined.

End ZdtunWire.
