(* ===== verification/InetSum.v ===== *)
(** * The Internet checksum, as a receiver verifies it

    RFC 1071, RFC 793 and RFC 8200 on the bytes of a packet: the sum of its 16-bit
    words in network order with the carries added back, over the transport segment and
    the pseudo header of the addresses in the IP header.  Nothing here is taken from
    the code; the end of the file relates it to the sums the code computes. *)

From S2P Require Import Prelude ZdtunWire.
Import ZdtunWire.

Module InetSum.

(** ** The receiver *)

Fixpoint be_words (l : list Z) : list Z :=
  match l with
  | a :: b :: l => 256 * a + b :: be_words l
  | [a] => [256 * a]
  | [] => []
  end.
(** Adding with the carry put back. *)
Definition add1c (x y : Z) : Z := (x + y) mod 65536 + (x + y) / 65536.
Definition ones_sum (l : list Z) : Z := foldl add1c 0 (be_words l).
Definition be (n : nat) (z : Z) : list Z := rev (le_bytes n z).

Definition pseudo4 (src dst : list Z) (proto len : Z) : list Z := src ++ dst ++ [0; proto] ++ be 2 len.
Definition pseudo6 (src dst : list Z) (next len : Z) : list Z := src ++ dst ++ be 4 len ++ [0; 0; 0; next].

(** The checksum of the transport segment of a packet is right. *)
Definition transport_valid (pkt : list Z) : bool :=
  let field off n := take n (drop off pkt) in
  let first := nth 0 pkt 0 in
  if first / 16 =? 4 then
    let seg := drop (Z.to_nat (first mod 16 * 4)) pkt in
    ones_sum (pseudo4 (field 12%nat 4%nat) (field 16%nat 4%nat) (nth 9 pkt 0) (Z.of_nat (length seg)) ++ seg) =? 0xFFFF
  else if first / 16 =? 6 then
    let seg := drop 40 pkt in
    ones_sum (pseudo6 (field 8%nat 16%nat) (field 24%nat 16%nat) (nth 6 pkt 0) (Z.of_nat (length seg)) ++ seg) =? 0xFFFF
  else false.

(** ** Its sums *)

Definition bsum (l : list Z) : Z := foldr Z.add 0 (be_words l).
Lemma be_words_app a b : Nat.Even (length a) -> be_words (a ++ b) = be_words a ++ be_words b.
Proof.
  induction a as [|x|x y l IH] using words_ind; intros [k Hk]; [done|simpl in Hk; lia|]. cbn [app be_words].
  rewrite IH; [done|]. exists (k - 1)%nat. simpl in Hk. lia.
Qed.
Lemma bsum_app a b : Nat.Even (length a) -> bsum (a ++ b) = bsum a + bsum b.
Proof.
  intros He. unfold bsum. rewrite be_words_app by done. rewrite foldr_app.
  induction (be_words a) as [|x l IH]; cbn [foldr]; lia.
Qed.
(** Words in the other order: a factor of 256 modulo 65535. *)
Lemma bsum_words l :
  bytes_ok l -> (exists k, bsum l = 256 * words l - 65535 * k) /\ 0 <= bsum l /\ (bsum l = 0 -> words l = 0).
Proof.
  unfold bsum. induction l as [|a|a b l IH] using words_ind; intros Hb.
  - split; [by exists 0|done].
  - apply Forall_inv in Hb. unfold u_ok in Hb. cbn [be_words foldr words]. split; [exists 0; lia|lia].
  - apply Forall_cons in Hb as [Ha Hb]. apply Forall_cons in Hb as [Hb Hl]. unfold u_ok in *.
    destruct (IH Hl) as ((k & Hk) & Hp & Hz). pose proof (words_bound l Hl). cbn [be_words foldr words le_val].
    split; [exists (b + k); lia|lia].
Qed.
Lemma be_words_bound l : bytes_ok l -> Forall (fun w => 0 <= w <= 65535) (be_words l).
Proof.
  induction l as [|a|a b l IH] using words_ind; intros Hb; cbn [be_words]; [constructor| |].
  - apply Forall_inv in Hb. unfold u_ok in Hb. constructor; [lia|constructor].
  - apply Forall_cons in Hb as [Ha Hb]. apply Forall_cons in Hb as [Hb Hl]. unfold u_ok in *. constructor; [lia|by apply IH].
Qed.
Lemma add1c_spec x y :
  0 <= x <= 65535 -> 0 <= y <= 65535 ->
  0 <= add1c x y <= 65535 /\ (exists k, add1c x y = x + y - 65535 * k) /\ (add1c x y = 0 -> x = 0 /\ y = 0).
Proof.
  intros Hx Hy. unfold add1c. pose proof (Z.div_mod (x + y) 65536). pose proof (Z.mod_pos_bound (x + y) 65536).
  assert ((x + y) / 65536 < 2) by (apply Z.div_lt_upper_bound; lia). pose proof (Z.div_pos (x + y) 65536).
  split; [lia|]. split; [exists ((x + y) / 65536); lia|lia].
Qed.
Lemma ones_fold l : forall x,
  0 <= x <= 65535 -> Forall (fun w => 0 <= w <= 65535) l ->
  0 <= foldl add1c x l <= 65535 /\ (exists k, foldl add1c x l = x + foldr Z.add 0 l - 65535 * k) /\
  (foldl add1c x l = 0 -> x = 0 /\ foldr Z.add 0 l = 0).
Proof.
  induction l as [|w l IH]; intros x Hx Hl; cbn [foldl foldr].
  - split; [done|]. split; [exists 0; lia|lia].
  - apply Forall_cons in Hl as [Hw Hl]. destruct (add1c_spec x w Hx Hw) as (Hb & (k & Hk) & Hz).
    destruct (IH _ Hb Hl) as (Hb' & (k' & Hk') & Hz'). split; [done|]. split; [exists (k + k'); lia|].
    intros E. destruct (Hz' E) as [E1 E2]. destruct (Hz E1). lia.
Qed.
(** All ones exactly for a positive multiple of 65535. *)
Lemma ones_sum_valid l : bytes_ok l -> bsum l mod 65535 = 0 -> bsum l <> 0 -> ones_sum l = 0xFFFF.
Proof.
  intros Hb Hm Hn. destruct (ones_fold (be_words l) 0) as (Hr & (k & Hk) & Hz); [lia|by apply be_words_bound|].
  fold (ones_sum l) (bsum l) in *. rewrite Hk in *. apply Z.mod_divide in Hm as [q Hq]; [|lia].
  assert (0 + bsum l - 65535 * k <> 0) by (intros E; by destruct (Hz E)). lia.
Qed.

Lemma be_length n z : length (be n z) = n.
Proof. unfold be. by rewrite length_rev, length_le_bytes. Qed.
Lemma be_ok n z : bytes_ok (be n z).
Proof. unfold be. apply bytes_ok_rev, le_bytes_ok. Qed.
Lemma be2_htons z : le_bytes 2 (htons z) = be 2 z.
Proof.
  unfold bswap16, be. rewrite <-(length_le_bytes 2 z) at 1. rewrite <-length_rev. apply le_bytes_le_val, bytes_ok_rev, le_bytes_ok.
Qed.
Lemma be4_small z : 0 <= z < 65536 -> be 4 z = [0; 0] ++ be 2 z.
Proof.
  intros Hz. unfold be. cbn [le_bytes rev app]. rewrite !Z.div_div by lia. rewrite (Z.div_small z (256 * 256)) by lia.
  rewrite (Z.div_small z (256 * (256 * 256))) by lia. done.
Qed.
End InetSum.
