(* ===== verification/ZdtunReply.v ===== *)
(** * The packets zdtun builds are the packets it parses

    [send_to_client] parses the reply it has just built and treats a failure as
    impossible.  This file shows that it is: the packet made by [build_reply_tcpip]
    parses and its TCP checksum verifies.  Its header has the IP version of the socket;
    when that is the version of the client its 5-tuple is the one of the connection with
    the two ends swapped, and otherwise the addresses are cut or filled with what follows
    them. *)

From S2P Require Import Prelude ZdtunTypes ZdtunConn ZdtunPkt ZdtunWire InetSum.
Import ZdtunPkt ZdtunWire InetSum.

Module ZdtunReply.

(** The tuple of a reply. *)
Definition tuple_reply (t : zdtun_5tuple) : zdtun_5tuple :=
  Tuple (dst_ip t) (src_ip t) (dst_port t) (src_port t) (ipver t) (ipproto t).

(** The tuples the parser produces: the bytes an IPv4 address leaves unused are 0. *)
Definition ip_canon (ver : Z) (ip : zdtun_ip) : Prop :=
  ip_ok ip /\ (ver = 4 -> drop 4 (ip_bytes ip) = replicate 12 0).

Record conn_tuple_ok (t : zdtun_5tuple) : Prop := {
    ct_ver : ipver t = 4 \/ ipver t = 6;
    ct_src : ip_canon (ipver t) (src_ip t);
    ct_dst : ip_canon (ipver t) (dst_ip t);
    ct_sport : u_ok 16 (src_port t);
    ct_dport : u_ok 16 (dst_port t);
    ct_proto : ipproto t = IPPROTO_TCP \/ ipproto t = IPPROTO_UDP \/ ipproto t = IPPROTO_ICMP;
  }.

Lemma conn_tuple_ok_tuple t : conn_tuple_ok t -> tuple_ok t.
Proof.
  intros [_ [? _] [? _] ? ? Hp]. split_and!; try done.
  destruct Hp as [->|[->| ->]]; by vm_compute.
Qed.

Lemma ip_canon_ip4 ip :
  ip_canon 4 ip -> ip_of_ip4 (le_val (take 4 (ip_bytes ip))) = ip.
Proof.
  intros [[Hl Hb] Hz]. unfold ip_of_ip4. destruct ip as [bs]. cbn [ip_bytes] in *. f_equal.
  rewrite <-Hz by done.
  pose proof (le_bytes_le_val (take 4 bs) (Forall_take _ _ _ Hb)) as He.
  rewrite length_take, Hl in He. change (4 `min` 16)%nat with 4%nat in He.
  by rewrite He, take_drop.
Qed.

(** Load from a buffer made of pieces: skip the pieces before the offset. *)
Ltac lens := rewrite ?length_app, ?length_le_bytes, ?length_take; cbn [length]; lia.
Ltac load := rewrite <-?app_assoc; repeat (rewrite rdn_skip by lens); apply rdn_here; lens.
Ltac load_as v :=
  match goal with
  | |- context [rdn ?n ?b ?o] => assert (rdn n b o = Some v) as -> by load
  end.

Lemma le_val_le2 z : u_ok 16 z -> le_val (le_bytes 2 z) = z.
Proof. intros. rewrite le_val_le_bytes. by apply Z.mod_small. Qed.

(** How an address appears in a header of version [ver]. *)
Definition seen (ver : Z) (ip : zdtun_ip) : zdtun_ip :=
  if ver =? 4 then ip_of_ip4 (le_val (take 4 (ip_bytes ip))) else ip.
Definition tuple_seen (ver : Z) (t : zdtun_5tuple) : zdtun_5tuple :=
  Tuple (seen ver (dst_ip t)) (seen ver (src_ip t)) (dst_port t) (src_port t) ver (ipproto t).
Lemma tuple_seen_same t : conn_tuple_ok t -> tuple_seen (ipver t) t = tuple_reply t.
Proof.
  intros [Hv Hs Hd _ _ _]. unfold tuple_seen, tuple_reply, seen. destruct Hv as [Hv|Hv]; rewrite Hv in *; [|done].
  by rewrite !ip_canon_ip4.
Qed.

(** ** The network layer *)

Section l3.
Context (ver : Z) (t : zdtun_5tuple) (l3 : Z) (rest : list Z).
Hypothesis Hver : ver = 4 \/ ver = 6.
Hypothesis Ht : conn_tuple_ok t.
Hypothesis Hl3 : 0 <= l3 /\ l3 + zdtun_iphdr_len (ver) <= 65535.

Definition reply_l3 : l3_info :=
  L3 (zdtun_iphdr_len (ver)) (l3 + zdtun_iphdr_len (ver)) 0
     (seen ver (dst_ip t)) (seen ver (src_ip t)) (ipproto t).

Lemma parse_ipv4_reply :
  ver = 4 ->
  parse_ipv4 (make_iphdr_bytes 4 t l3 ++ rest) (l3 + 20) = Some (inr reply_l3).
Proof.
  intros Hv. destruct (conn_tuple_ok_tuple _ Ht) as ([Ls Bs] & [Ld Bd] & _).
  rewrite Hv in *.
  unfold make_iphdr_bytes. cbn [Z.eqb Pos.eqb]. cbv zeta.
  set (check := ulnot 16 _). set (tot := u16 (l3 + IPV4_HEADER_LEN)).
  assert (Htot : tot = l3 + 20).
  { unfold tot, IPV4_HEADER_LEN. apply uwrap_id. unfold u_ok. cbn in Hl3. lia. }
  unfold parse_ipv4. change (rd8 _ 0) with (Some 0x45). cbn [mbind option_bind].
  change ((69 .& 15) * 4) with 20. replace (l3 + 20 <? 20) with false by lia.
  assert (rd16 (iphdr4 t tot check ++ rest) 2 = Some (htons tot)) as ->.
  { unfold rd16, iphdr4. load_as (le_bytes 2 (htons tot)).
    simpl. f_equal. apply (le_val_le2 (htons tot)). auto with cint. }
  cbn [mbind option_bind]. rewrite bswap16_involutive by (apply uwrap_ok; lia).
  replace (tot <? 20) with false by lia.
  assert (rd32 (iphdr4 t tot check ++ rest) 12 = Some (le_val (take 4 (ip_bytes (dst_ip t))))) as ->.
  { unfold rd32, iphdr4. by load_as (take 4 (ip_bytes (dst_ip t))). }
  cbn [mbind option_bind].
  assert (rd32 (iphdr4 t tot check ++ rest) 16 = Some (le_val (take 4 (ip_bytes (src_ip t))))) as ->.
  { unfold rd32, iphdr4. by load_as (take 4 (ip_bytes (src_ip t))). }
  cbn [mbind option_bind].
  change (rd8 (iphdr4 t tot check ++ rest) 9) with (Some (ipproto t)).
  cbn [mbind option_bind].
  assert (rd16 (iphdr4 t tot check ++ rest) 6 = Some (htons 0x4000)) as ->.
  { unfold rd16, iphdr4. by load_as (le_bytes 2 (htons 0x4000)). }
  cbn [mbind option_bind]. unfold reply_l3. rewrite Hv. rewrite Htot, Z.min_id. done.
Qed.

Lemma parse_ipv6_reply :
  ver = 6 ->
  parse_ipv6 (make_iphdr_bytes 6 t l3 ++ rest) (l3 + 40) = Some (inr reply_l3).
Proof.
  intros Hv. destruct (conn_tuple_ok_tuple _ Ht) as ([Ls Bs] & [Ld Bd] & _).
  destruct Ht as [_ _ _ _ _ Hp]. rewrite Hv in *.
  assert (Hl : u_ok 16 l3) by (unfold u_ok; cbn in Hl3; lia).
  unfold make_iphdr_bytes. cbn [Z.eqb Pos.eqb].
  unfold parse_ipv6, IPV6_HEADER_LEN. replace (l3 + 40 <? 40) with false by lia.
  set (nxt := if negb (ipproto t =? IPPROTO_ICMP) then ipproto t else IPPROTO_ICMPV6).
  change (rd8 (iphdr6 t l3 ++ rest) 6) with (Some nxt). cbn [mbind option_bind].
  assert (is_upper_layer nxt = true /\
    (if nxt =? IPPROTO_ICMPV6 then IPPROTO_ICMP else nxt) = ipproto t) as [-> Hn].
  { unfold nxt. by destruct Hp as [->|[->| ->]]. }
  cbn [negb].
  assert (rd16 (iphdr6 t l3 ++ rest) 4 = Some (htons l3)) as ->.
  { unfold rd16, iphdr6. load_as (le_bytes 2 (htons l3)).
    simpl. f_equal. apply (le_val_le2 (htons l3)). auto with cint. }
  cbn [mbind option_bind]. rewrite bswap16_involutive by done.
  assert (rdn 16 (iphdr6 t l3 ++ rest) 8 = Some (ip_bytes (dst_ip t))) as ->.
  { unfold iphdr6. load. }
  cbn [mbind option_bind].
  assert (rdn 16 (iphdr6 t l3 ++ rest) 24 = Some (ip_bytes (src_ip t))) as ->.
  { unfold iphdr6. load. }
  cbn [mbind option_bind]. rewrite Z.min_id, Hn. unfold reply_l3. rewrite Hv.
  by destruct (dst_ip t), (src_ip t).
Qed.

Lemma parse_l3_reply :
  parse_l3 (make_iphdr_bytes (ver) t l3 ++ rest) (l3 + zdtun_iphdr_len (ver)) =
  Some (inr (ver, reply_l3)).
Proof.
  unfold parse_l3, IPV4_HEADER_LEN.
  destruct Hver as [Hv|Hv].
  - pose proof (parse_ipv4_reply Hv) as H4. rewrite Hv in *. cbn [zdtun_iphdr_len Z.eqb Pos.eqb] in *.
    change (zdtun_iphdr_len 4) with 20 in *. replace (l3 + 20 <? 20) with false by lia.
    change (rd8 (make_iphdr_bytes 4 t l3 ++ rest) 0) with (Some 0x45). cbn [mbind option_bind].
    change (69 >>> 4) with 4. cbn [Z.eqb Pos.eqb negb andb]. by rewrite H4.
  - pose proof (parse_ipv6_reply Hv) as H6. rewrite Hv in *.
    change (zdtun_iphdr_len 6) with 40 in *. replace (l3 + 40 <? 20) with false by lia.
    change (rd8 (make_iphdr_bytes 6 t l3 ++ rest) 0) with (Some 0x60). cbn [mbind option_bind].
    change (0x60 >>> 4) with 6. cbn [Z.eqb Pos.eqb negb andb]. by rewrite H6.
Qed.
End l3.

(** The pseudo header that goes with a reply of [n] bytes, and the checksum
    [zdtun_l3_checksum] computes of it. *)
Definition pseudo_of (ver : Z) (t : zdtun_5tuple) (n : Z) : list Z :=
  if ver =? 4 then
    ippseudo (take 4 (ip_bytes (dst_ip t))) (take 4 (ip_bytes (src_ip t))) (ipproto t) n
  else ip6_hdr_pseudo (ip_bytes (dst_ip t)) (ip_bytes (src_ip t)) (le_bytes 2 (htons n))
         (if ipproto t =? IPPROTO_ICMP then IPPROTO_ICMPV6 else ipproto t).

Lemma pseudo_of_fine ver t n :
  conn_tuple_ok t -> bytes_ok (pseudo_of ver t n) /\ Z.of_nat (length (pseudo_of ver t n)) <= 65535.
Proof.
  intros Ht. destruct (conn_tuple_ok_tuple _ Ht) as ([Ls Bs] & [Ld Bd] & _ & _ & Hp).
  unfold pseudo_of, ippseudo, ip6_hdr_pseudo. split; destruct (_ =? 4); [solve_bytes| |..].
  - solve_bytes. by destruct (_ =? IPPROTO_ICMP).
  - rewrite ?length_app, ?length_le_bytes, ?length_take, ?Ls, ?Ld; simpl; lia.
  - rewrite ?length_app, ?length_le_bytes, ?length_take, ?Ls, ?Ld; simpl; lia.
Qed.

Lemma l3_checksum_seg ver t n seg rest :
  ver = 4 \/ ver = 6 -> conn_tuple_ok t -> n = Z.of_nat (length seg) ->
  zdtun_l3_checksum (ver) (ipproto t) (make_iphdr_bytes (ver) t n ++ seg ++ rest)
    (zdtun_iphdr_len (ver)) n =
  Some (ulnot 16 (calc_checksum (calc_checksum 0 seg) (pseudo_of ver t n))).
Proof.
  intros Hver Ht Hn. pose proof (conn_tuple_ok_tuple _ Ht) as Htu.
  pose proof (length_iphdr (ver) t n Htu) as Hh. destruct Htu as ([Ls Bs] & [Ld Bd] & _).
  unfold zdtun_l3_checksum. rewrite (rdn_at (Z.to_nat n) (zdtun_iphdr_len (ver))) by lia.
  cbn [mbind option_bind]. unfold pseudo_of, make_iphdr_bytes.
  destruct Hver as [-> | ->]; cbn [Z.eqb Pos.eqb andb]; cbv zeta.
  - set (check := ulnot 16 _).
    unfold iphdr4. load_as (take 4 (ip_bytes (dst_ip t))). cbn [mbind option_bind].
    load_as (take 4 (ip_bytes (src_ip t))). done.
  - unfold iphdr6. load_as (ip_bytes (dst_ip t)). cbn [mbind option_bind].
    load_as (ip_bytes (src_ip t)). cbn [mbind option_bind].
    load_as (le_bytes 2 (htons n)). done.
Qed.

(** ** The transport layer *)

(** The part of the header before the checksum field. *)
Definition tcp_pre (c : zdtun_conn) (flags optsoff win : Z) : list Z :=
  le_bytes 2 (dst_port (c_tuple c)) ++ le_bytes 2 (src_port (c_tuple c)) ++
  le_bytes 4 (htonl (zdtun_seq c)) ++
  le_bytes 4 (if negb ((flags .& TH_ACK) =? 0) then htonl (client_seq c) else 0) ++
  [(5 + optsoff) <<< 4; flags] ++ le_bytes 2 win.

Lemma tcphdr_split c flags optsoff win sum :
  tcphdr_bytes c flags optsoff win sum =
  tcp_pre c flags optsoff win ++ le_bytes 2 sum ++ [0; 0].
Proof. unfold tcphdr_bytes, tcp_pre. by rewrite <-!app_assoc. Qed.
Lemma length_tcp_pre c flags optsoff win : length (tcp_pre c flags optsoff win) = 16%nat.
Proof. unfold tcp_pre. by rewrite !length_app, !length_le_bytes. Qed.

Section l4.
Context (ver : Z) (c : zdtun_conn) (flags optsoff l4_len sndbuf : Z) (buf : list Z).
Let t := c_tuple c.
Let hl := zdtun_iphdr_len (ver).
Let l3n := l4_len + TCP_HEADER_LEN + optsoff * 4.
Let win := tcp_window sndbuf (window_scale c).
Hypothesis Hver : ver = 4 \/ ver = 6.
Hypothesis Ht : conn_tuple_ok t.
Hypothesis Hopt : 0 <= optsoff <= 10.
Hypothesis Hl4 : 0 <= l4_len.
Hypothesis Hfit : hl + l3n <= Z.of_nat (length buf) <= 65535.

Definition pseudo_hdr : list Z := pseudo_of ver t l3n.

(** What follows the TCP header: options and data, already in the buffer. *)
Definition after_hdr : list Z := drop (Z.to_nat hl + 20) buf.
Definition segment (sum : Z) : list Z :=
  tcphdr_bytes c flags optsoff win sum ++ take (Z.to_nat (l3n - 20)) after_hdr.
Definition reply_sum : Z := ulnot 16 (calc_checksum (calc_checksum 0 (segment 0)) pseudo_hdr).

Definition reply_buf : list Z :=
  make_iphdr_bytes (ver) t l3n ++ tcphdr_bytes c flags optsoff win reply_sum ++ after_hdr.

Lemma hl_cases : (ver = 4 /\ hl = 20) \/ (ver = 6 /\ hl = 40).
Proof.
  unfold hl, zdtun_iphdr_len. destruct Hver as [Hv|Hv]; rewrite Hv; [by left|by right].
Qed.

Lemma l3_checksum_reply rest :
  zdtun_l3_checksum (ver) (ipproto t)
    (make_iphdr_bytes (ver) t l3n ++ tcphdr_bytes c flags optsoff win 0 ++ rest) hl l3n =
  Some (ulnot 16 (calc_checksum
    (calc_checksum 0 (tcphdr_bytes c flags optsoff win 0 ++ take (Z.to_nat (l3n - 20)) rest))
    pseudo_hdr)) \/ Z.of_nat (length rest) < l3n - 20.
Proof.
  destruct (decide (Z.of_nat (length rest) < l3n - 20)) as [|Hr]; [by right|]. left.
  rewrite <-(take_drop (Z.to_nat (l3n - 20)) rest) at 1. rewrite (app_assoc (tcphdr_bytes _ _ _ _ _)).
  apply l3_checksum_seg; [done|done|]. rewrite length_app, length_tcphdr, length_take.
  unfold l3n, TCP_HEADER_LEN in *. lia.
Qed.

Lemma build_reply_shape :
  build_reply_tcpip (ver) c flags l4_len optsoff sndbuf buf = Some reply_buf.
Proof.
  unfold build_reply_tcpip. fold t hl win.
  assert (u16 (l4_len + TCP_HEADER_LEN + optsoff * 4) = l3n) as ->.
  { apply uwrap_id. unfold u_ok. destruct hl_cases; fold l3n; unfold l3n, TCP_HEADER_LEN in *; lia. }
  assert (Hb : buf = take (Z.to_nat hl) buf ++ take 20 (drop (Z.to_nat hl) buf) ++ after_hdr).
  { unfold after_hdr. by rewrite <-drop_drop, !take_drop. }
  assert (Hl1 : Z.of_nat (length (take (Z.to_nat hl) buf)) = hl).
  { rewrite length_take. destruct hl_cases; unfold l3n, TCP_HEADER_LEN in *; lia. }
  assert (Hl2 : length (take 20 (drop (Z.to_nat hl) buf)) = 20%nat).
  { rewrite length_take, length_drop. destruct hl_cases; unfold l3n, TCP_HEADER_LEN in *; lia. }
  rewrite Hb at 1. rewrite wrn_at by (rewrite ?length_tcphdr; lia). cbn [mbind option_bind].
  unfold zdtun_make_iphdr.
  pose proof (length_iphdr (ver) t l3n (conn_tuple_ok_tuple _ Ht)) as Hh.
  fold hl in Hh.
  rewrite wrn_here by lia.
  cbn [mbind option_bind app].
  destruct (l3_checksum_reply after_hdr) as [->|Hc].
  2:{ unfold after_hdr in Hc. rewrite length_drop in Hc. destruct hl_cases; lia. }
  cbn [mbind option_bind]. unfold reply_buf. fold (segment 0). fold reply_sum.
  rewrite !tcphdr_split, <-!app_assoc, !(app_assoc (make_iphdr_bytes _ _ _)).
  apply wrn_at; rewrite ?length_app, ?length_tcp_pre, ?length_le_bytes; lia.
Qed.

(** The parser's view of the transport header. *)
Lemma parse_l4_reply frag :
  ipproto t = IPPROTO_TCP ->
  zdtun_parse_pkt reply_buf (hl + l3n) frag =
  Some (inr (Pkt (tuple_seen ver t) 0 (hl + l3n) hl (20 + optsoff * 4) l4_len reply_buf
    (hl + (20 + optsoff * 4))), frag).
Proof.
  intros Hp. unfold zdtun_parse_pkt, reply_buf. fold hl.
  assert (Hle : 0 <= l3n /\ l3n + hl <= 65535)
    by (unfold l3n, TCP_HEADER_LEN in *; destruct hl_cases; lia).
  set (tail := tcphdr_bytes c flags optsoff win reply_sum ++ after_hdr).
  pose proof (parse_l3_reply ver t l3n tail Hver Ht Hle) as H3. fold hl in H3.
  rewrite (Z.add_comm hl l3n), H3. mstep. cbn [l3_flags reply_l3].
  change (has_flag 0 _) with false. cbn [andb].
  pose proof (length_iphdr (ver) t l3n (conn_tuple_ok_tuple _ Ht)) as Hh.
  fold hl in Hh.
  assert (parse_l4 (make_iphdr_bytes (ver) t l3n ++ tail) (reply_l3 ver t l3n) =
    Some (inr (L4 (dst_port t) (src_port t) (20 + optsoff * 4)))) as ->.
  { unfold parse_l4. cbn [reply_l3 l3_proto l3_hdr_len l3_len]. fold hl. rewrite Hp.
    cbn [Z.eqb Pos.eqb IPPROTO_TCP]. unfold TCP_HEADER_LEN.
    replace (l3n + hl <? hl + 20) with false by (unfold l3n, TCP_HEADER_LEN; lia).
    rewrite <-Hh, rd8_app_r by lia.
    change (rd8 tail 12) with (Some ((5 + optsoff) <<< 4)). cbn [mbind option_bind].
    rewrite Z.shiftr_shiftl_l by lia. change (4 - 4) with 0. rewrite Z.shiftl_0_r.
    replace (l3n + _ <? _) with false by (unfold l3n, TCP_HEADER_LEN; lia).
    unfold rd16. rewrite <-(Z.add_0_r (Z.of_nat _)) at 1. rewrite !rdn_app_r by lia.
    unfold tail, tcphdr_bytes. load_as (le_bytes 2 (dst_port t)). cbn [fmap option_fmap option_map mbind option_bind].
    load_as (le_bytes 2 (src_port t)). cbn [fmap option_fmap option_map mbind option_bind].
    rewrite !le_val_le2 by apply Ht. do 3 f_equal. lia. }
  mstep. unfold reply_l3.
  cbn [l4_sport l4_dport ZdtunPkt.l4_len l3_src l3_dst l3_hdr_len l3_proto l3_len].
  unfold tuple_seen. fold hl.
  replace (l3n + hl - hl - (20 + optsoff * 4)) with l4_len by (unfold l3n, TCP_HEADER_LEN; lia).
  rewrite uwrap_id; [done|]. unfold u_ok, l3n, TCP_HEADER_LEN in *. destruct hl_cases; lia.
Qed.
End l4.

(** Summing the data and then the pseudo header. *)
Lemma calc_checksum_nested a b :
  bytes_ok a -> bytes_ok b -> Z.of_nat (length a) <= 65535 -> Z.of_nat (length b) <= 65535 ->
  u_ok 16 (calc_checksum (calc_checksum 0 a) b) /\
  calc_checksum (calc_checksum 0 a) b mod 65535 = (words a + words b) mod 65535 /\
  (calc_checksum (calc_checksum 0 a) b = 0 <-> words a = 0 /\ words b = 0).
Proof.
  intros Ha Hb Hla Hlb.
  destruct (calc_checksum_spec 0 a) as (H1 & H2 & H3); [done..|].
  destruct (calc_checksum_spec (calc_checksum 0 a) b) as (G1 & G2 & G3); [done..|].
  split; [done|]. split; [|rewrite G3, H3; tauto].
  by rewrite G2, <-Zplus_mod_idemp_l, H2, Z.add_0_l, Zplus_mod_idemp_l.
Qed.

Lemma nested_verifies pre post ps :
  Nat.Even (length pre) -> bytes_ok pre -> bytes_ok post -> bytes_ok ps ->
  Z.of_nat (length pre + 2 + length post) <= 65535 -> Z.of_nat (length ps) <= 65535 ->
  calc_checksum (calc_checksum 0 (pre ++ le_bytes 2
    (ulnot 16 (calc_checksum (calc_checksum 0 (pre ++ [0; 0] ++ post)) ps)) ++ post)) ps = 0xFFFF.
Proof.
  intros He Hpre Hpost Hps Hl Hlp.
  destruct (calc_checksum_nested (pre ++ [0; 0] ++ post) ps) as (H1 & H2 & H3);
    [solve_bytes|done|rewrite !length_app; simpl; lia|done|].
  set (s0 := calc_checksum (calc_checksum 0 _) ps) in *.
  destruct (calc_checksum_nested (pre ++ le_bytes 2 (ulnot 16 s0) ++ post) ps) as (G1 & G2 & G3);
    [solve_bytes|done|rewrite !length_app, length_le_bytes; lia|done|].
  set (s1 := calc_checksum (calc_checksum 0 (pre ++ le_bytes 2 (ulnot 16 s0) ++ post)) ps) in *.
  assert (Hc : ulnot 16 s0 = 65535 - s0) by (by apply ulnot_16).
  rewrite words_app in G2, G3, H2, H3 by done.
  rewrite words_app in G2, G3 by (rewrite length_le_bytes; by exists 1%nat).
  rewrite words_le2 in G2, G3 by (apply ulnot_ok; lia). cbn [app words le_val] in H2, H3.
  pose proof (words_bound pre Hpre). pose proof (words_bound post Hpost).
  pose proof (words_bound ps Hps). unfold u_ok in *.
  assert (s1 mod 65535 = 0) as Hm.
  { rewrite G2, Hc.
    replace (words pre + (65535 - s0 + words post) + words ps)
      with ((words pre + (0 + 256 * (0 + 256 * 0) + words post) + words ps) - s0 + 1 * 65535) by lia.
    by rewrite Z_mod_plus_full, Zminus_mod, <-H2, Z.sub_diag. }
  assert (s1 <> 0) by (intros E; apply G3 in E; assert (s0 = 0); [apply H3; lia|lia]).
  apply Z.mod_divide in Hm; [|lia]. destruct Hm as [k Hk]. lia.
Qed.

(** What the sums of the code mean to a receiver. *)
Lemma bsum_pseudo4 src dst proto n : bytes_ok (src ++ dst) -> ippseudo src dst proto n = pseudo4 src dst proto n.
Proof. intros _. unfold ippseudo, pseudo4. by rewrite be2_htons. Qed.
Lemma bsum_pseudo6 src dst next n :
  length src = 16%nat -> length dst = 16%nat -> 0 <= n < 65536 ->
  bsum (ip6_hdr_pseudo src dst (le_bytes 2 (htons n)) next) = bsum (pseudo6 src dst next n) /\
  length (pseudo6 src dst next n) = 40%nat.
Proof.
  intros Hs Hd Hn. unfold ip6_hdr_pseudo, pseudo6. rewrite be2_htons, be4_small by done. split.
  - assert (Hev : forall l : list Z, length l = 16%nat -> Nat.Even (length l)) by (intros l ->; by exists 8%nat).
    rewrite !(bsum_app src), !(bsum_app dst) by auto. unfold be. cbn [le_bytes rev app]. unfold bsum. cbn [be_words foldr]. lia.
  - rewrite !length_app, Hs, Hd. done.
Qed.
Lemma rdn_field n (off : nat) buf l : rdn n buf (Z.of_nat off) = Some l -> take n (drop off buf) = l.
Proof. unfold rdn. rewrite Nat2Z.id. destruct (_ && _); [|done]. by intros [= <-]. Qed.
Lemma transport_valid_at ver t seg :
  ver = 4 \/ ver = 6 -> conn_tuple_ok t -> bytes_ok seg ->
  zdtun_iphdr_len ver + Z.of_nat (length seg) <= 65535 ->
  calc_checksum (calc_checksum 0 seg) (pseudo_of ver t (Z.of_nat (length seg))) = 0xFFFF ->
  transport_valid (make_iphdr_bytes ver t (Z.of_nat (length seg)) ++ seg) = true.
Proof.
  intros Hver Ht Hseg Hl Hsum. set (n := Z.of_nat (length seg)) in *.
  pose proof (length_iphdr ver t n (conn_tuple_ok_tuple _ Ht)) as Hh.
  destruct (pseudo_of_fine ver t n Ht) as [Bps Lps].
  assert (Hlen : zdtun_iphdr_len ver = 20 \/ zdtun_iphdr_len ver = 40) by (destruct Hver as [-> | ->]; [by left|by right]).
  destruct (calc_checksum_nested seg (pseudo_of ver t n)) as (_ & Hm & Hz); [done|done|lia|done|].
  rewrite Hsum in Hm, Hz.
  (* the sums of the code, in network order *)
  assert (Hgo : forall ps, bytes_ok ps -> Nat.Even (length ps) -> bsum ps = bsum (pseudo_of ver t n) -> ones_sum (ps ++ seg) = 0xFFFF).
  { intros ps Hps He E. destruct (bsum_words seg Hseg) as ((k1 & Hk1) & Hp1 & Hz1).
    destruct (bsum_words _ Bps) as ((k2 & Hk2) & Hp2 & Hz2).
    apply ones_sum_valid; [by apply Forall_app|..]; rewrite bsum_app, E by done.
    - rewrite Hk1, Hk2. replace (256 * words (pseudo_of ver t n) - 65535 * k2 + (256 * words seg - 65535 * k1))
        with (256 * (words seg + words (pseudo_of ver t n)) + (- k1 - k2) * 65535) by lia.
      rewrite Z_mod_plus_full, <-Zmult_mod_idemp_r, <-Hm. done.
    - intros E0. assert (65535 = 0) as [=]. apply Hz. split; [apply Hz1|apply Hz2]; lia. }
  destruct (conn_tuple_ok_tuple _ Ht) as ([Ls Bs] & [Ld Bd] & _ & _ & Hpr).
  destruct Hver as [-> | ->]; unfold transport_valid, pseudo_of in *; cbn [Z.eqb Pos.eqb] in *.
  - change (nth 0 (make_iphdr_bytes 4 t n ++ seg) 0) with 0x45. change (0x45 / 16 =? 4) with true. cbv iota.
    change (Z.to_nat (0x45 mod 16 * 4)) with 20%nat.
    change (zdtun_iphdr_len 4) with 20 in *. rewrite (drop_app_length' _ _ 20) by lia.
    fold n. change (nth 9 (make_iphdr_bytes 4 t n ++ seg) 0) with (ipproto t).
    assert (take 4 (drop 12 (make_iphdr_bytes 4 t n ++ seg)) = take 4 (ip_bytes (dst_ip t)) /\
      take 4 (drop 16 (make_iphdr_bytes 4 t n ++ seg)) = take 4 (ip_bytes (src_ip t))) as [-> ->].
    { unfold make_iphdr_bytes. cbn [Z.eqb Pos.eqb]. cbv zeta. set (check := ulnot 16 _). unfold iphdr4.
      split; apply rdn_field; load. }
    apply Z.eqb_eq, Hgo; [|unfold pseudo4; rewrite !length_app, !length_take, be_length, Ls, Ld; by exists 6%nat|by rewrite bsum_pseudo4 by (apply Forall_app; split; by apply Forall_take)].
    rewrite <-bsum_pseudo4 by (apply Forall_app; split; by apply Forall_take). exact Bps.
  - change (nth 0 (make_iphdr_bytes 6 t n ++ seg) 0) with 0x60. change (0x60 / 16 =? 4) with false. change (0x60 / 16 =? 6) with true. cbv iota.
    change (zdtun_iphdr_len 6) with 40 in *. rewrite (drop_app_length' _ _ 40) by lia. fold n.
    set (nxt := if ipproto t =? IPPROTO_ICMP then IPPROTO_ICMPV6 else ipproto t) in *.
    assert (nth 6 (make_iphdr_bytes 6 t n ++ seg) 0 = nxt) as ->.
    { change (nth 6 _ 0) with (if negb (ipproto t =? IPPROTO_ICMP) then ipproto t else IPPROTO_ICMPV6). unfold nxt. by destruct (_ =? IPPROTO_ICMP). }
    assert (take 16 (drop 8 (make_iphdr_bytes 6 t n ++ seg)) = ip_bytes (dst_ip t) /\
      take 16 (drop 24 (make_iphdr_bytes 6 t n ++ seg)) = ip_bytes (src_ip t)) as [-> ->].
    { unfold make_iphdr_bytes. cbn [Z.eqb Pos.eqb]. unfold iphdr6. split; apply rdn_field; load. }
    destruct (bsum_pseudo6 (ip_bytes (dst_ip t)) (ip_bytes (src_ip t)) nxt n) as [Eb Lb]; [done|done|lia|].
    apply Z.eqb_eq, Hgo; [|rewrite Lb; by exists 20%nat|by rewrite Eb].
    assert (u_ok 8 nxt) by (unfold nxt; destruct (_ =? IPPROTO_ICMP); [by vm_compute|done]).
    unfold pseudo6. apply Forall_app_2; [done|]. apply Forall_app_2; [done|]. apply Forall_app_2; [apply be_ok|].
    by repeat (constructor; [first [done | by vm_compute]|]).
Qed.

(** C23: The reply built for a TCP connection parses without touching the table of
    fragments, with the flags it was built with and exactly the [l4_len] bytes of data
    that were in the buffer: the failure branch of [send_to_client], which the code
    calls impossible, is.  Its 5-tuple is [tuple_seen] of the IP version of the socket:
    when that is the version of the connection, the tuple of the connection with the
    ends swapped. *)
Theorem tcp_reply_parses ver c flags l4_len optsoff sndbuf buf frag :
  ver = 4 \/ ver = 6 -> conn_tuple_ok (c_tuple c) -> ipproto (c_tuple c) = IPPROTO_TCP ->
  0 <= optsoff <= 10 -> 0 <= l4_len ->
  let hl := zdtun_iphdr_len ver in
  let size := hl + (TCP_HEADER_LEN + optsoff * 4 + l4_len) in
  size <= Z.of_nat (length buf) <= 65535 ->
  exists buf' p,
    build_reply_tcpip ver c flags l4_len optsoff sndbuf buf = Some buf' /\
    zdtun_parse_pkt buf' size frag = Some (inr p, frag) /\
    pkt_tuple p = tuple_seen ver (c_tuple c) /\
    (ver = ipver (c_tuple c) -> pkt_tuple p = tuple_reply (c_tuple c)) /\ pkt_is_fragment p = false /\
    tcp_th_flags p = Some flags /\ pkt_l7_len p = l4_len /\
    drop (Z.to_nat (pkt_l7 p)) (pkt_mem p) = drop (Z.to_nat (pkt_l7 p)) buf.
Proof.
  intros Hver Ht Hp Hopt Hl4 hl size Hfit.
  assert (Hsz : size = hl + (l4_len + TCP_HEADER_LEN + optsoff * 4)) by (unfold size; lia).
  rewrite Hsz in *. eexists _, _.
  split; [by apply build_reply_shape|]. split; [by apply parse_l4_reply|].
  pose proof (length_iphdr ver (c_tuple c) (l4_len + TCP_HEADER_LEN + optsoff * 4)
    (conn_tuple_ok_tuple _ Ht)) as Hh. fold hl in Hh.
  cbn [pkt_tuple pkt_l7_len pkt_l7 pkt_mem]. split_and!; try done.
  - intros ->. by apply tuple_seen_same.
  - unfold tcp_th_flags. cbn [pkt_mem pkt_ip_hdr_len]. unfold reply_buf. fold hl.
    replace (hl + 13) with (Z.of_nat (length (make_iphdr_bytes ver (c_tuple c)
      (l4_len + TCP_HEADER_LEN + optsoff * 4))) + 13) by lia.
    by rewrite rd8_app_r by lia.
  - unfold reply_buf, after_hdr. fold hl. rewrite app_assoc.
    rewrite drop_app_ge by (rewrite length_app, length_tcphdr; lia).
    rewrite length_app, length_tcphdr, drop_drop. f_equal. lia.
Qed.

(** C26: The same reply carries a valid TCP checksum: what a receiver computes from the
    bytes of the packet, the pseudo header of RFC 793 or RFC 8200 and the segment in
    network order, sums to 0xFFFF. *)
Theorem tcp_reply_checksum ver c flags l4_len optsoff sndbuf buf :
  ver = 4 \/ ver = 6 -> conn_tuple_ok (c_tuple c) -> 0 <= optsoff <= 10 -> 0 <= l4_len -> u_ok 8 flags ->
  bytes_ok buf ->
  let size := zdtun_iphdr_len ver + (l4_len + TCP_HEADER_LEN + optsoff * 4) in
  size <= Z.of_nat (length buf) <= 65535 ->
  exists buf', build_reply_tcpip ver c flags l4_len optsoff sndbuf buf = Some buf' /\
    transport_valid (take (Z.to_nat size) buf') = true.
Proof.
  intros Hver Ht Hopt Hl4 Hfl Hbuf size Hfit.
  set (hl := zdtun_iphdr_len ver) in *. set (l3_len := l4_len + TCP_HEADER_LEN + optsoff * 4) in *.
  set (sum := reply_sum ver c flags optsoff l4_len sndbuf buf).
  pose proof (conn_tuple_ok_tuple _ Ht) as Htu. pose proof (length_iphdr ver (c_tuple c) l3_len Htu) as Hh.
  fold hl in Hh. destruct Htu as ([Ls Bs] & [Ld Bd] & Hsp & Hdp & Hpr).
  pose proof (hl_cases ver Hver) as Hc. fold hl in Hc.
  exists (reply_buf ver c flags optsoff l4_len sndbuf buf). split; [by apply build_reply_shape|].
  assert (Hv : l3_len = l4_len + 20 + optsoff * 4) by done.
  set (k := Z.to_nat (l3_len - 20)). set (seg := segment ver c flags optsoff l4_len sndbuf buf sum).
  assert (Hlen : Z.of_nat (length seg) = l3_len).
  { unfold seg, segment. rewrite length_app, length_tcphdr, length_take. unfold after_hdr. rewrite length_drop. fold hl l3_len. lia. }
  assert (Hpre : bytes_ok (tcp_pre c flags optsoff (tcp_window sndbuf (window_scale c)))).
  { unfold tcp_pre. solve_bytes. unfold u_ok. rewrite Z.shiftl_mul_pow2 by lia. lia. }
  assert (Hpost : bytes_ok ([0; 0] ++ take k (after_hdr ver buf))) by (unfold after_hdr; solve_bytes).
  assert (take (Z.to_nat size) (reply_buf ver c flags optsoff l4_len sndbuf buf) =
    make_iphdr_bytes ver (c_tuple c) (Z.of_nat (length seg)) ++ seg) as ->.
  { rewrite Hlen. unfold reply_buf. fold sum l3_len. rewrite <-(take_drop k (after_hdr ver buf)) at 1.
    transitivity (take (Z.to_nat size) ((make_iphdr_bytes ver (c_tuple c) l3_len ++ seg) ++ drop k (after_hdr ver buf)));
      [by unfold seg, segment; rewrite <-!app_assoc|]. unfold seg, segment. apply take_app_length'. rewrite !length_app, length_tcphdr, length_take. unfold after_hdr, k.
    rewrite length_drop. fold hl. unfold size. lia. }
  apply transport_valid_at; [done|done| |rewrite Hlen; fold hl; unfold size in *; lia|].
  - unfold seg, segment. rewrite tcphdr_split, <-!app_assoc. apply Forall_app_2; [done|].
    apply Forall_app_2; [apply le_bytes_ok|done].
  - rewrite Hlen. unfold seg, segment. rewrite tcphdr_split, <-!app_assoc. unfold sum, reply_sum, segment.
    rewrite tcphdr_split, <-!app_assoc. apply nested_verifies.
    + rewrite length_tcp_pre. by exists 8%nat.
    + done.
    + done.
    + by apply pseudo_of_fine.
    + rewrite length_tcp_pre, length_app, length_take. unfold after_hdr. simpl. lia.
    + by apply pseudo_of_fine.
Qed.

Definition conn_ex : zdtun_conn := (zdtun_conn_new tuple_ex 0) <| zdtun_seq := 0x77EB77EB |>.

Lemma tuple_ex_conn_ok : conn_tuple_ok (c_tuple conn_ex).
Proof.
  split; [by left| | |by vm_compute|by vm_compute|by left];
    (split; [apply ip_of_ip4_ok|intros _; reflexivity]).
Qed.

Lemma tcp_reply_parses_witness :
  exists buf' p,
    build_reply_tcpip 4 conn_ex (TH_SYN .| TH_ACK) 3 0 1000 (replicate 80 7) = Some buf' /\
    zdtun_parse_pkt buf' 43 ∅ = Some (inr p, ∅) /\
    pkt_tuple p = tuple_seen 4 tuple_ex /\ (4 = 4 -> pkt_tuple p = tuple_reply tuple_ex) /\ pkt_is_fragment p = false /\
    tcp_th_flags p = Some 18 /\ pkt_l7_len p = 3 /\
    drop (Z.to_nat (pkt_l7 p)) (pkt_mem p) = drop (Z.to_nat (pkt_l7 p)) (replicate 80 7).
Proof.
  apply (tcp_reply_parses 4 conn_ex 18 3 0 1000 (replicate 80 7) ∅);
    [by left|apply tuple_ex_conn_ok|reflexivity|lia|lia|vm_compute; split; discriminate].
Defined.

Lemma tcp_reply_checksum_witness :
  exists buf', build_reply_tcpip 4 conn_ex 16 4 0 1000 (replicate 80 7) = Some buf' /\
    transport_valid (take 44 buf') = true.
Proof.
  apply (tcp_reply_checksum 4 conn_ex 16 4 0 1000 (replicate 80 7));
    [by left|apply tuple_ex_conn_ok|lia|lia|done| |vm_compute; split; discriminate].
  apply Forall_replicate. done.
Defined.

(** Through a SOCKS5 proxy with an IPv4 address the replies of an IPv6 connection get
    IPv4 headers with the first four bytes of its addresses: the client does not know
    them. *)
Definition tuple6_ex : zdtun_5tuple :=
  Tuple (ZIp ([0xfd] ++ replicate 14 0 ++ [1])) (ZIp ([0x20; 1; 0x0d; 0xb8] ++ replicate 11 0 ++ [2]))
    (htons 40000) (htons 443) 6 IPPROTO_TCP.
Example ipv6_reply_through_ipv4_proxy :
  sock_ipver (Proxy ip_zero 0 4) ((zdtun_conn_new tuple6_ex 0) <| proxy_mode := PROXY_SOCKS5 |>) = Some 4 /\
  match build_reply_tcpip 4 (zdtun_conn_new tuple6_ex 0) 16 0 0 1000 (replicate 80 7) with
  | Some buf => match zdtun_parse_pkt buf 40 ∅ with
                | Some (inr p, _) => bool_decide (ipver (pkt_tuple p) = 4)
                    && bool_decide (take 4 (ip_bytes (dst_ip (pkt_tuple p))) = [0xfd; 0; 0; 0])
                | _ => false
                end
  | None => false
  end = true.
Proof. split; vm_compute; reflexivity. Qed.

End ZdtunReply.
