(* ===== verification/PdTypes.v ===== *)
(** * State of the capture (core/pcapdroid.h)

    Connections live in a heap indexed by pointers, because the two
    notification arrays, the packet contexts and the connections of the
    forwarding engine share them: an access to a freed one is undefined.  The
    answers of the environment (allocations, JNI, clock, nDPI) come from the
    sequence [sys]; [calls] counts them and [trace] records what is sent out. *)

From S2P Require Import Prelude CString UtHash ZdtunTypes IpLru PcapDump Blacklist NdpiConf.

Module PdTypes.
Export IpLru Blacklist NdpiConf.

Definition CAPTURE_STATS_UPDATE_FREQUENCY_MS : Z := 300.
Definition CONNECTION_DUMP_UPDATE_FREQUENCY_MS : Z := 1000.
Definition NETD_RESOLVE_DELAY_MS : Z := 1000.
Definition MAX_DPI_PACKETS : Z := 12.
Definition MINIMAL_PAYLOAD_MAX_DIRECTION_SIZE : Z := 512.
Definition CONN_UPDATE_STATS : Z := 1.
Definition CONN_UPDATE_INFO : Z := 2.
Definition CONN_UPDATE_PAYLOAD : Z := 4.
Definition UID_UNKNOWN : Z := -1.
Definition UID_PHONE : Z := 1001.
Definition UID_NETD : Z := 1051.

Inductive payload_mode_t := PAYLOAD_MODE_NONE | PAYLOAD_MODE_MINIMAL | PAYLOAD_MODE_FULL.
#[export] Instance payload_mode_eq_dec : EqDecision payload_mode_t.
Proof. solve_decision. Defined.

Inductive block_quic_mode_t :=
  BLOCK_QUIC_MODE_NEVER | BLOCK_QUIC_MODE_ALWAYS | BLOCK_QUIC_MODE_TO_DECRYPT.
#[export] Instance block_quic_mode_eq_dec : EqDecision block_quic_mode_t.
Proof. solve_decision. Defined.

(** The part of nDPI's flow the capture reads. *)
Record ndpi_flow := Flow {
    host_server_name : cstr;
    tls_quic_alpn : option cstr;
    http_url : option cstr;
  }.
Definition flow_zero : ndpi_flow := Flow [] None None.

(** [pkt_context_t]; [px_data] is the pointer of the connection. *)
Record pkt_context := PCtx {
    px_pkt : zdtun_pkt;
    px_tv : Z * Z;
    px_ms : Z;
    px_is_tx : bool;
    px_tuple : zdtun_5tuple;
    px_data : Z;
  }.

(** A chunk of payload handed to the Java side: direction, time and bytes. *)
Record payload_chunk := Chunk { ch_http : bool; ch_tx : bool; ch_ms : Z; ch_bytes : list Z }.

(** [pd_conn_t].  [payload_chunks] is the content of the Java list it refers to,
    [None] for a null reference. *)
Record pd_conn := PdConn {
    incr_id : Z;
    ndpi_flow_of : option ndpi_flow;
    l7proto : Z;
    alpn : Z;
    pcap_last_update_ms : Z;       (* the two members of the union *)
    ifidx : Z;
    fw_pctx : option pkt_context;
    local_port : Z;
    payload_chunks : option (list payload_chunk);
    first_seen : Z;
    last_seen : Z;
    payload_length : Z;
    sent_bytes : Z;
    rcvd_bytes : Z;
    sent_pkts : Z;
    rcvd_pkts : Z;
    blocked_pkts : Z;
    pd_status : zdtun_conn_status;
    info : option cstr;
    uid : Z;
    tcp_flags_c2s : Z;
    tcp_flags_s2c : Z;
    pending_dns_queries : Z;       (* also last_ack *)
    pending_notification : bool;
    to_purge : bool;
    info_from_lru : bool;
    blacklisted_internal : bool;
    blacklisted_ip : bool;
    blacklisted_domain : bool;
    whitelisted_app : bool;
    to_block : bool;
    netd_block_missed : bool;
    proxied : bool;
    decryption_ignored : bool;
    port_mapping_applied : bool;
    encrypted_l7 : bool;
    payload_truncated : bool;
    has_payload_rx : bool;
    has_payload_tx : bool;
    url : option cstr;
    update_type : Z;
  }.
#[export] Instance eta_pd_conn : Eta pd_conn := fun c =>
  PdConn (incr_id c) (ndpi_flow_of c) (l7proto c) (alpn c)
    (pcap_last_update_ms c) (ifidx c) (fw_pctx c) (local_port c)
    (payload_chunks c) (first_seen c) (last_seen c) (payload_length c) (sent_bytes c)
    (rcvd_bytes c) (sent_pkts c) (rcvd_pkts c) (blocked_pkts c) (pd_status c) (info c) (uid c)
    (tcp_flags_c2s c) (tcp_flags_s2c c) (pending_dns_queries c)
    (pending_notification c) (to_purge c) (info_from_lru c) (blacklisted_internal c)
    (blacklisted_ip c) (blacklisted_domain c) (whitelisted_app c) (to_block c)
    (netd_block_missed c) (proxied c) (decryption_ignored c) (port_mapping_applied c)
    (encrypted_l7 c) (payload_truncated c) (has_payload_rx c) (has_payload_tx c) (url c)
    (update_type c).

(** [pd_calloc(1, sizeof(pd_conn_t))] *)
Definition pd_conn_zero : pd_conn :=
  PdConn 0 None NDPI_PROTOCOL_UNKNOWN 0 0 0 None 0 None 0 0 0 0 0 0 0 0 CONN_STATUS_NEW None 0 0 0 0
    false false false false false false false false false false false false false false
    false false None 0.

(** [conn_and_tuple_t] and [conn_array_t]: [cells] is the memory [items] points
    to, a cell [None] while it is not written; [None] is a NULL array. *)
Record conn_and_tuple := Slot { s_tuple : zdtun_5tuple; s_data : Z }.
Record conn_array := CArr {
    cells : option (list (option conn_and_tuple));
    size : Z;
    cur_items : Z;
  }.
#[export] Instance eta_conn_array : Eta conn_array := fun a => CArr (cells a) (size a) (cur_items a).
Definition conn_array_zero : conn_array := CArr None 0 0.

Record capture_stats_t := CStats {
    cs_sent_bytes : Z; cs_rcvd_bytes : Z; ipv6_sent_bytes : Z; ipv6_rcvd_bytes : Z;
    cs_sent_pkts : Z; cs_rcvd_pkts : Z; new_stats : bool; last_update_ms : Z }.
#[export] Instance eta_capture_stats : Eta capture_stats_t := fun s =>
  CStats (cs_sent_bytes s) (cs_rcvd_bytes s) (ipv6_sent_bytes s) (ipv6_rcvd_bytes s)
    (cs_sent_pkts s) (cs_rcvd_pkts s) (new_stats s) (last_update_ms s).

(** What the Java side receives about a connection: the sections of the update
    that [update_type] selects. *)
Record upd_stats := UpdStats {
    us_last_seen : Z; us_payload_length : Z; us_sent_bytes : Z; us_rcvd_bytes : Z;
    us_sent_pkts : Z; us_rcvd_pkts : Z; us_blocked_pkts : Z; us_tcp_flags : Z; us_flags : Z }.
Record upd_info := UpdInfo { ui_info : cstr; ui_url : cstr; ui_proto : string; ui_encrypted : bool }.
Record conn_update := ConnUpdate {
    cu_id : Z;
    cu_stats : option upd_stats;
    cu_info : option upd_info;
    cu_payload : option (option (list payload_chunk) * bool);
  }.
(** The arguments of the constructor of a connection descriptor. *)
Record conn_descriptor := ConnDescr {
    cd_id : Z; cd_tuple : zdtun_5tuple; cd_local_port : Z; cd_uid : Z; cd_ifidx : Z;
    cd_mitm_decrypt : bool; cd_first_seen : Z }.

(** The arguments of [statsSetData]. *)
Record stats_dump := StatsDump {
    sd_stats : capture_stats_t; sd_dump_size : Z; sd_dropped_pkts : Z; sd_dropped_connections : Z;
    sd_open_sockets : Z; sd_all_max_fd : Z; sd_active_conns : Z; sd_tot_conns : Z;
    sd_dns_requests : Z }.

Inductive pd_event :=
  | EvConnections (new_conns : list (conn_descriptor * conn_update)) (updates : list conn_update)
  | EvStatsDump (s : stats_dump)
  | EvStopPcapDump (file_tail : list (list Z))
  | EvBlacklistsLoaded (names : list (cstr * Z))
  | EvTun (packet : list Z).

(** The malware_detection, firewall, tls_decryption, vpn and pcap_dump parts. *)
Record bl_info := BlInfo { bi_fname : cstr; bi_type : blacklist_type }.
Record bl_status_arr := BlStatusArr {
    st_items : option (list (option (cstr * Z)));
    st_size : Z;
    st_cur_items : Z }.
#[export] Instance eta_bl_status_arr : Eta bl_status_arr := fun a =>
  BlStatusArr (st_items a) (st_size a) (st_cur_items a).

Record malware_t := Malware {
    md_enabled : bool; md_bl : option blacklist; md_whitelist : option blacklist;
    reload_in_progress : bool; reload_done : bool;
    md_new_bl : option blacklist; md_new_wl : option blacklist;
    status_arr : option bl_status_arr; bls_info : list bl_info }.
#[export] Instance eta_malware : Eta malware_t := fun m =>
  Malware (md_enabled m) (md_bl m) (md_whitelist m) (reload_in_progress m) (reload_done m)
    (md_new_bl m) (md_new_wl m) (status_arr m) (bls_info m).

Record firewall_t := Firewall {
    fw_enabled : bool; fw_bl : option blacklist; fw_new_bl : option blacklist;
    wl_enabled : bool; fw_wl : option blacklist; fw_new_wl : option blacklist }.
#[export] Instance eta_firewall : Eta firewall_t := fun f =>
  Firewall (fw_enabled f) (fw_bl f) (fw_new_bl f) (wl_enabled f) (fw_wl f) (fw_new_wl f).

Record tls_t := Tls { tls_enabled : bool; tls_list : option blacklist; tls_new_list : option blacklist }.
#[export] Instance eta_tls : Eta tls_t := fun t => Tls (tls_enabled t) (tls_list t) (tls_new_list t).

Record vpn_t := Vpn {
    block_quic_mode : block_quic_mode_t;
    known_dns_servers : option blacklist;
    ipv4_enabled : bool; ipv4_dns_server : Z; ipv4_internal_dns : Z;
    ipv6_enabled : bool; ipv6_dns_server : list Z }.
#[export] Instance eta_vpn : Eta vpn_t := fun v =>
  Vpn (block_quic_mode v) (known_dns_servers v) (ipv4_enabled v) (ipv4_dns_server v)
    (ipv4_internal_dns v) (ipv6_enabled v) (ipv6_dns_server v).

(** [pcapdroid_t] and the global variables of pcapdroid.c. *)
Record pcapdroid := Pd {
    conns : gmap Z pd_conn;
    next_conn : Z;
    new_conn_id : Z;
    now_ms : Z;
    ip_to_host : ip_lru;
    new_conns : conn_array;
    conns_updates : conn_array;
    uid2app : list (Z * cstr);
    vpn_capture : bool;
    payload_mode : payload_mode_t;
    num_dropped_pkts : Z;
    num_discarded_fragments : Z;
    num_dropped_connections : Z;
    num_dns_requests : Z;
    capture_stats : capture_stats_t;
    tun_stats : zdtun_statistics;
    dumper : option PcapDump.pcap_dumper;
    max_pkts_per_flow : Z;
    socks5_enabled : bool;
    malware_detection : malware_t;
    firewall : firewall_t;
    tls_decryption : tls_t;
    vpn : vpn_t;
    netd_resolve_waiting : Z;
    last_connections_dump : Z;
    next_connections_dump : Z;
    new_dns_server : Z;
    block_private_dns : bool;
    dump_capture_stats_now : bool;
    reload_blacklists_now : bool;
    bl_num_checked_connections : Z;
    fw_num_checked_connections : Z;
    running : bool;
    calls : nat;
    trace : list pd_event;
  }.
#[export] Instance eta_pcapdroid : Eta pcapdroid := fun p =>
  Pd (conns p) (next_conn p) (new_conn_id p) (now_ms p) (ip_to_host p) (new_conns p)
    (conns_updates p) (uid2app p) (vpn_capture p) (payload_mode p) (num_dropped_pkts p) (num_discarded_fragments p) (num_dropped_connections p)
    (num_dns_requests p)
    (capture_stats p) (tun_stats p) (dumper p) (max_pkts_per_flow p) (socks5_enabled p)
    (malware_detection p) (firewall p) (tls_decryption p) (vpn p) (netd_resolve_waiting p)
    (last_connections_dump p) (next_connections_dump p) (new_dns_server p)
    (block_private_dns p) (dump_capture_stats_now p) (reload_blacklists_now p)
    (bl_num_checked_connections p) (fw_num_checked_connections p) (running p) (calls p) (trace p).

(** One answer of the environment: an allocation ([a_mem]), the growth of an
    array ([a_realloc]), the copy of a string ([a_strdup]), a call that can fail ([a_ok]), a number, a string, and what nDPI reports. *)
Record answer := Ans {
    a_mem : bool;
    a_realloc : bool;
    a_strdup : bool;
    a_ok : bool;
    a_int : Z;
    a_bytes : list Z;
    a_proto : ndpi_protocol;
    a_flow : ndpi_flow;
  }.

(** What stays fixed during a run: nDPI's tables and the memory of the dumper. *)
Class PdEnv := {
    sys : nat -> answer;
    isClearTextProto : Z -> bool;
    ndpi_get_proto_name : Z -> string;
    dump_malloc : Z -> option (list Z);
    files : cstr -> option (list Z);     (* the files below the directory of the application *)
  }.

Section ops.
Context `{PdEnv}.

Definition ask {A} (f : answer -> A) : M pcapdroid A :=
  pd ← getS;
  modifyS (fun pd => pd <| calls ::= S |>) ;;
  mret (f (sys (calls pd))).
Definition emit (e : pd_event) : M pcapdroid unit :=
  modifyS (fun pd => pd <| trace ::= fun t => t ++ [e] |>).

(** Accesses through a pointer to a connection. *)
Definition conn (p : Z) : M pcapdroid pd_conn := pd ← getS; liftO (conns pd !! p).
Definition set_conn (p : Z) (f : pd_conn -> pd_conn) : M pcapdroid unit :=
  c ← conn p; modifyS (fun pd => pd <| conns ::= <[p := f c]> |>).

(** Running an operation of a part of the state. *)
Definition zoom {S A} (get : pcapdroid -> S) (put : S -> pcapdroid -> pcapdroid) (m : M S A) :
    M pcapdroid A :=
  pd ← getS;
  r ← liftO (m (get pd));
  modifyS (put (snd r)) ;; mret (fst r).

(** The name of an application is cached the first time it is asked for. *)
Definition get_appname_by_uid (u : Z) : M pcapdroid cstr :=
  pd ← getS;
  match HASH_FIND u (uid2app pd) with
  | Some name => mret name
  | None =>
      mem ← ask a_mem;
      if negb mem then mret [] else
      name ← ask a_bytes;
      modifyS (fun pd => pd <| uid2app ::= HASH_ADD u (take 63 name) |>) ;;
      mret (take 63 name)
  end.

End ops.
End PdTypes.
