(* ===== verification/PdCheck.v ===== *)
(** * Blocking decisions taken from the contents of a connection
      (core/pcapdroid.c, core/capture_vpn.c)

    The checks against the domain lists, the whitelist mode, the decryption
    list, and the end of the detection of nDPI. *)

From S2P Require Import Prelude CString UtHash ZdtunTypes PdTypes.

Module PdCheck.
Export PdTypes.

Section ops.
Context `{PdEnv}.

(** A test against a list that may be NULL. *)
Definition in_list (bl : option blacklist) (test : blacklist -> bool) : bool :=
  from_option test false bl.
Definition ip_in_list (bl : option blacklist) (tuple : zdtun_5tuple) : M pcapdroid bool :=
  match bl with
  | Some bl => liftO (blacklist_match_ip bl (dst_ip tuple) (ipver tuple))
  | None => mret false
  end.

Definition check_blacklisted_domain (p : Z) : M pcapdroid unit :=
  pd ← getS;
  c ← conn p;
  let md := malware_detection pd in
  let fw := firewall pd in
  match info c with
  | Some ((_ :: _) as domain) =>
      whenM (bool_decide (is_Some (md_bl md)) && negb (blacklisted_domain c)
             && negb (whitelisted_app c) && in_list (md_bl md) (fun bl => blacklist_match_domain bl domain))
        (get_appname_by_uid (uid c) ;;
         whenM (negb (in_list (md_whitelist md) (fun wl => blacklist_match_domain wl domain)))
           (set_conn p (fun c => c <| blacklisted_domain := true |> <| to_block := true |>))) ;;
      c ← conn p;
      whenM (fw_enabled fw && bool_decide (is_Some (fw_bl fw)) && negb (to_block c))
        (let b := in_list (fw_bl fw) (fun bl => blacklist_match_domain bl domain) in
         set_conn p (fun c => c <| to_block := b |>) ;;
         whenM b (get_appname_by_uid (uid c) ;; mret tt))
  | _ => mret tt
  end.

Definition is_dns (tuple : zdtun_5tuple) : bool :=
  (ipproto tuple =? IPPROTO_UDP) && (ntohs (dst_port tuple) =? 53).

Definition check_whitelist_mode_block (tuple : zdtun_5tuple) (p : Z) : M pcapdroid unit :=
  pd ← getS;
  c ← conn p;
  let fw := firewall pd in
  match fw_wl fw with
  | Some wl =>
      whenM (fw_enabled fw && wl_enabled fw && negb (to_block c)
             && (negb (is_dns tuple) || (negb (uid c =? UID_NETD) && negb (uid c =? UID_PHONE)
                                         && negb (uid c =? UID_UNKNOWN))))
        (set_conn p (fun c => c <| to_block := negb (blacklist_match_uid wl (uid c)) |>))
  | None => mret tt
  end.

Definition matches_decryption_whitelist (tuple : zdtun_5tuple) (p : Z) : M pcapdroid bool :=
  pd ← getS;
  match tls_list (tls_decryption pd) with
  | None => mret false
  | Some l =>
      c ← conn p;
      ip ← ip_in_list (Some l) tuple;
      mret (ip || blacklist_match_uid l (uid c)
            || match info c with Some d => blacklist_match_domain l d | None => false end)
  end.

Definition should_proxify (tuple : zdtun_5tuple) (p : Z) : M pcapdroid bool :=
  pd ← getS;
  if negb (socks5_enabled pd) then mret false else
  match tls_list (tls_decryption pd) with
  | Some _ =>
      m ← matches_decryption_whitelist tuple p;
      if negb m then set_conn p (fun c => c <| decryption_ignored := true |>) ;; mret false
      else mret (ipproto tuple =? IPPROTO_TCP)
  | None => mret (ipproto tuple =? IPPROTO_TCP)
  end.

Definition set_blocked_internal (p : Z) : M pcapdroid unit :=
  set_conn p (fun c => c <| blacklisted_internal := true |> <| to_block := true |>).

Definition vpn_process_ndpi (tuple : zdtun_5tuple) (p : Z) : M pcapdroid unit :=
  pd ← getS;
  c ← conn p;
  whenM (l7proto c =? NDPI_PROTOCOL_QUIC)
    (m ← (if decide (block_quic_mode (vpn pd) = BLOCK_QUIC_MODE_ALWAYS) then mret true
          else if decide (block_quic_mode (vpn pd) = BLOCK_QUIC_MODE_TO_DECRYPT)
          then matches_decryption_whitelist tuple p else mret false);
     whenM m (set_blocked_internal p)) ;;
  c ← conn p;
  if block_private_dns pd && negb (to_block c) && (l7proto c =? NDPI_PROTOCOL_TLS) then
    match info c with
    | Some d =>
        dns ← liftO (known_dns_servers (vpn pd));
        whenM (blacklist_match_domain dns d) (set_blocked_internal p)
    | None => mret tt
    end
  else mret tt.

(** ** The data nDPI extracts *)

(** [host] stands for the pointer; it is called on a non-empty string. *)
Fixpoint numeric_loop (host : cstr) : bool :=
  match host with
  | [] => false
  | ch :: host =>
      if ch =? 58 then true else if ch =? 46 then false else numeric_loop host
  end.
Definition is_numeric_host (host : cstr) : bool :=
  match host with
  | ch :: _ => if isdigit ch then true else numeric_loop host
  | [] => numeric_loop host
  end.

(** [pd_strndup]: at most [n] characters; NULL when the allocation fails. *)
Definition pd_strndup (s : cstr) (n : nat) : M pcapdroid (option cstr) :=
  ok ← ask a_strdup; mret (if ok : bool then Some (take n s) else None).

Definition or_update (bits : Z) (c : pd_conn) : pd_conn := c <| update_type ::= fun u => u .| bits |>.

(** The ALPN of the client hello, looked at once. *)
Definition alpn_of (s : cstr) : Z :=
  if strstr s (str "http/") then NDPI_PROTOCOL_HTTP
  else if strstr s (str "imap") then NDPI_PROTOCOL_MAIL_IMAP
  else if strstr s (str "stmp") then NDPI_PROTOCOL_MAIL_SMTP
  else NDPI_PROTOCOL_TLS.
Definition process_alpn (p : Z) (flow : ndpi_flow) : M pcapdroid unit :=
  c ← conn p;
  match tls_quic_alpn flow with
  | Some s =>
      whenM (alpn c =? 0)
        (let a := alpn_of s in
         set_conn p (fun c => (if a =? NDPI_PROTOCOL_TLS then c else or_update CONN_UPDATE_INFO c)
                                <| alpn := a |>))
  | None => mret tt
  end.

Definition process_url (p : Z) (flow : ndpi_flow) : M pcapdroid unit :=
  c ← conn p;
  match url c, http_url flow with
  | None, Some u =>
      u ← pd_strndup u 256;
      set_conn p (fun c => or_update CONN_UPDATE_INFO c <| url := u |>)
  | _, _ => mret tt
  end.

Definition nonempty (s : cstr) : bool := match s with [] => false | _ => true end.

(** The switch on the protocol of [process_ndpi_data]: the host name it finds. *)
Definition ndpi_found_info (p : Z) (proto : Z) (flow : ndpi_flow) : M pcapdroid (option cstr) :=
  let host := host_server_name flow in
  if (proto =? NDPI_PROTOCOL_TLS) || (proto =? NDPI_PROTOCOL_DNS) then
    whenM (proto =? NDPI_PROTOCOL_TLS) (process_alpn p flow) ;;
    mret (if nonempty host then Some host else None)
  else if proto =? NDPI_PROTOCOL_HTTP then
    process_url p flow ;;
    mret (if nonempty host && negb (is_numeric_host host) then Some host else None)
  else mret None.

Definition set_found_info (p : Z) (found : cstr) : M pcapdroid unit :=
  c ← conn p;
  whenM (bool_decide (info c = None) || info_from_lru c)
    (i ← pd_strndup found 256;
     set_conn p (fun c => c <| info := i |> <| info_from_lru := false |>) ;;
     check_blacklisted_domain p ;;
     set_conn p (or_update CONN_UPDATE_INFO)).

Definition process_ndpi_data (tuple : zdtun_5tuple) (p : Z) : M pcapdroid unit :=
  c ← conn p;
  flow ← (if (l7proto c =? NDPI_PROTOCOL_TLS) || (l7proto c =? NDPI_PROTOCOL_DNS)
             || (l7proto c =? NDPI_PROTOCOL_HTTP)
          then liftO (ndpi_flow_of c) else mret flow_zero);
  found_info ← ndpi_found_info p (l7proto c) flow;
  match found_info with Some s => set_found_info p s | None => mret tt end ;;
  pd ← getS;
  whenM (vpn_capture pd) (vpn_process_ndpi tuple p).

Definition conn_free_ndpi (p : Z) : M pcapdroid unit :=
  set_conn p (fun c => c <| ndpi_flow_of := None |>).

Definition pd_giveup_dpi (p : Z) (tuple : zdtun_5tuple) : M pcapdroid unit :=
  c ← conn p;
  match ndpi_flow_of c with
  | None => mret tt
  | Some _ =>
      whenM (l7proto c =? NDPI_PROTOCOL_UNKNOWN)
        (r ← ask (fun a => (a_proto a, a_flow a));
         proto ← liftO (pd_ndpi2proto (fst r));
         set_conn p (fun c => c <| ndpi_flow_of := Some (snd r) |> <| l7proto := proto |>
                                <| encrypted_l7 := is_encrypted_l7 isClearTextProto proto |>)) ;;
      process_ndpi_data tuple p ;;
      conn_free_ndpi p
  end.

End ops.
End PdCheck.
