(* ===== verification/PdNotify.v ===== *)
(** * Ownership and notification of the connections
      (core/pcapdroid.c, core/jni_impl.c)

    Changed connections wait in two arrays until [sendConnectionsDump] hands
    them to the Java side; the closed ones are freed right after. *)

From S2P Require Import Prelude CString UtHash ZdtunTypes PcapDump PdTypes PdCheck.

Module PdNotify.
Export PdCheck.

Inductive arr_id := NEW_CONNS | CONNS_UPDATES.
#[export] Instance arr_id_eq_dec : EqDecision arr_id.
Proof. solve_decision. Defined.

Definition arr_of (a : arr_id) (pd : pcapdroid) : conn_array :=
  match a with NEW_CONNS => new_conns pd | CONNS_UPDATES => conns_updates pd end.
Definition put_arr (a : arr_id) (arr : conn_array) (pd : pcapdroid) : pcapdroid :=
  match a with
  | NEW_CONNS => pd <| new_conns := arr |>
  | CONNS_UPDATES => pd <| conns_updates := arr |>
  end.

(** [pd_realloc] keeps the cells that fit; the new ones are not initialised. *)
Definition realloc_cells (old : option (list (option conn_and_tuple))) (n : Z) :
    list (option conn_and_tuple) :=
  let old := default [] old in
  take (Z.to_nat n) old ++ replicate (Z.to_nat n - length old) None.

(** A store through [items], which may be NULL. *)
Definition store_cell (a : conn_array) (i : Z) (s : conn_and_tuple) : option conn_array :=
  l ← cells a;
  if (0 <=? i) && (i <? Z.of_nat (length l))
  then Some (a <| cells := Some (<[Z.to_nat i := Some s]> l) |>) else None.

(** The cells below [cur_items], which the loops over an array read. *)
Definition slots (a : conn_array) : option (list conn_and_tuple) :=
  match cells a with
  | None => if cur_items a <=? 0 then Some [] else None
  | Some l =>
      if cur_items a <=? Z.of_nat (length l)
      then mapM id (take (Z.to_nat (cur_items a)) l) else None
  end.

Section ops.
Context `{PdEnv}.

Definition pd_purge_connection (p : Z) : M pcapdroid unit :=
  conn_free_ndpi p ;;
  modifyS (fun pd => pd <| conns ::= delete p |>).

Definition notif_connection (a : arr_id) (tuple : zdtun_5tuple) (p : Z) : M pcapdroid Z :=
  c ← conn p;
  whenM (is_closed (pd_status c)) (pd_giveup_dpi p tuple) ;;
  c ← conn p;
  if pending_notification c then mret 0 else
  pd ← getS;
  let arr := arr_of a pd in
  room ← (if size arr <=? cur_items arr then
            let size' := if size arr =? 0 then 8 else size arr * 2 in
            mem ← ask a_realloc;
            modifyS (put_arr a (CArr (if mem : bool then Some (realloc_cells (cells arr) size')
                                      else None) size' (cur_items arr))) ;;
            mret mem
          else mret true);
  if negb room then mret (-1) else
  pd ← getS;
  let arr := arr_of a pd in
  arr ← liftO (store_cell arr (cur_items arr) (Slot tuple p));
  modifyS (put_arr a (arr <| cur_items ::= Z.succ |>)) ;;
  set_conn p (fun c => c <| pending_notification := true |>) ;;
  mret 0.

Definition pd_notify_connection_update (tuple : zdtun_5tuple) (p : Z) : M pcapdroid Z :=
  notif_connection CONNS_UPDATES tuple p.

Definition conns_clear (a : arr_id) (free_all : bool) : M pcapdroid unit :=
  pd ← getS;
  whenM (bool_decide (is_Some (cells (arr_of a pd))))
    (ss ← liftO (slots (arr_of a pd));
     forM ss (fun s =>
       c ← conn (s_data s);
       whenM (to_purge c || free_all) (pd_purge_connection (s_data s)))) ;;
  modifyS (put_arr a conn_array_zero).

(** ** The dump *)

Definition pd_get_proto_name (proto al ipproto : Z) : string :=
  if proto =? NDPI_PROTOCOL_UNKNOWN then zdtun_proto2str ipproto
  else if (proto =? NDPI_PROTOCOL_TLS) && (al =? NDPI_PROTOCOL_HTTP) then "HTTPS"
  else if (proto =? NDPI_PROTOCOL_TLS) && (al =? NDPI_PROTOCOL_MAIL_IMAP) then "IMAPS"
  else if (proto =? NDPI_PROTOCOL_TLS) && (al =? NDPI_PROTOCOL_MAIL_SMTP) then "SMTPS"
  else ndpi_get_proto_name proto.

Definition flag (b : bool) (n : Z) : Z := Z.b2z b <<< n.
Definition stats_of (vpn : bool) (c : pd_conn) : upd_stats :=
  let blocked := to_block c && vpn in
  UpdStats (last_seen c) (payload_length c) (sent_bytes c) (rcvd_bytes c) (sent_pkts c)
    (rcvd_pkts c) (blocked_pkts c) ((tcp_flags_c2s c <<< 8) .| tcp_flags_s2c c)
    (flag (port_mapping_applied c) 13 .| flag (decryption_ignored c) 12
     .| flag (netd_block_missed c) 11 .| flag blocked 10 .| flag (blacklisted_domain c) 9
     .| flag (blacklisted_ip c) 8 .| (status_val (pd_status c) .& 0xFF)).
Definition info_of (tuple : zdtun_5tuple) (c : pd_conn) : upd_info :=
  UpdInfo (default [] (info c)) (default [] (url c))
    (pd_get_proto_name (l7proto c) (alpn c) (ipproto tuple)) (encrypted_l7 c).
Definition has_update (c : pd_conn) (bit : Z) : bool := negb ((update_type c .& bit) =? 0).
Definition update_of (vpn : bool) (tuple : zdtun_5tuple) (c : pd_conn) : conn_update :=
  ConnUpdate (incr_id c)
    (if has_update c CONN_UPDATE_STATS then Some (stats_of vpn c) else None)
    (if has_update c CONN_UPDATE_INFO then Some (info_of tuple c) else None)
    (if has_update c CONN_UPDATE_PAYLOAD then Some (payload_chunks c, payload_truncated c)
     else None).

(** [None] when a JNI call fails. *)
Definition getConnUpdate (s : conn_and_tuple) : M pcapdroid (option conn_update) :=
  c ← conn (s_data s);
  ok ← ask a_ok;
  if negb ok then mret None else
  pd ← getS;
  let update := update_of (vpn_capture pd) (s_tuple s) c in
  set_conn (s_data s) (fun c =>
    (if has_update c CONN_UPDATE_PAYLOAD then c <| payload_chunks := None |> else c)
      <| update_type := 0 |>) ;;
  ok ← ask a_ok;
  mret (if ok : bool then Some update else None).

Definition descriptor_of (pd : pcapdroid) (tuple : zdtun_5tuple) (c : pd_conn) : conn_descriptor :=
  ConnDescr (incr_id c) tuple (ntohs (if vpn_capture pd then local_port c else src_port tuple))
    (uid c) (if vpn_capture pd then 0 else ifidx c) (tls_enabled (tls_decryption pd) && proxied c)
    (first_seen c).

Definition dumpNewConnection (s : conn_and_tuple) :
    M pcapdroid (option (conn_descriptor * conn_update)) :=
  pd ← getS;
  c ← conn (s_data s);
  ok ← ask a_ok;
  if negb ok then mret None else
  set_conn (s_data s) (or_update (CONN_UPDATE_STATS .| CONN_UPDATE_INFO)) ;;
  update ← getConnUpdate s;
  ok ← ask a_ok;
  mret (if ok : bool then pair (descriptor_of pd (s_tuple s) c) <$> update else None).
Definition dumpConnectionUpdate : conn_and_tuple -> M pcapdroid (option conn_update) := getConnUpdate.

(** The loop over an array: it stops at the first connection that fails. *)
Fixpoint dump_loop {A} (dump : conn_and_tuple -> M pcapdroid (option A)) (ss : list conn_and_tuple) :
    M pcapdroid (option (list A)) :=
  match ss with
  | [] => mret (Some [])
  | s :: ss =>
      set_conn (s_data s) (fun c => c <| pending_notification := false |>) ;;
      r ← dump s;
      match r with
      | None => mret None
      | Some a =>
          rest ← dump_loop dump ss;
          mret (cons a <$> rest)
      end
  end.

Definition sendConnectionsDump : M pcapdroid unit :=
  pd ← getS;
  ok ← ask a_ok;
  if negb ok then mret tt else
  ss ← liftO (slots (new_conns pd));
  news ← dump_loop dumpNewConnection ss;
  match news with
  | None => mret tt
  | Some news =>
      ss ← liftO (slots (conns_updates pd));
      updates ← dump_loop dumpConnectionUpdate ss;
      match updates with
      | None => mret tt
      | Some updates => emit (EvConnections news updates)
      end
  end.

(** ** The statistics *)

Definition stats_dump_of (pd : pcapdroid) : stats_dump :=
  let s := tun_stats pd in
  StatsDump (capture_stats pd) (from_option PcapDump.dump_size 0 (dumper pd))
    (cmin (num_dropped_pkts pd) 0x7FFFFFFF) (num_dropped_connections pd)
    (num_open_sockets s) (all_max_fd s)
    (i32 (num_icmp_conn s + num_tcp_conn s + num_udp_conn s))
    (i32 (num_icmp_opened s + num_tcp_opened s + num_udp_opened s))
    (num_dns_requests pd).
Definition sendStatsDump : M pcapdroid unit :=
  ok ← ask a_ok;
  if negb ok then mret tt else
  ok ← ask a_ok;
  pd ← getS;
  whenM ok (emit (EvStatsDump (stats_dump_of pd))).

(** The part of [pd_housekeeping] that empties the arrays. *)
Definition dump_connections : M pcapdroid unit :=
  pd ← getS;
  whenM (negb (cur_items (new_conns pd) =? 0) || negb (cur_items (conns_updates pd) =? 0))
    (sendConnectionsDump ;;
     conns_clear NEW_CONNS false ;;
     conns_clear CONNS_UPDATES false).

End ops.
End PdNotify.
