(* ===== verification/PdConn.v ===== *)
(** * Connections: creation, new lists, end (core/pcapdroid.c, core/capture_vpn.c)

    [pd_new_connection] decides whether a new connection is blocked; the two
    callbacks decide it again when a list of the user changes. *)

From S2P Require Import Prelude CString UtHash ZdtunTypes PdTypes PdCheck PdNotify.

Module PdConn.
Export PdNotify.

Section ops.
Context `{PdEnv}.

(** A pending DNS request of netd for the host of the new connection [p] gets
    the uid of [p]. *)
Definition netd_block_missed_test (fw : firewall_t) (u : Z) : bool :=
  fw_enabled fw && bool_decide (is_Some (fw_bl fw)) &&
  (in_list (fw_bl fw) (fun bl => blacklist_match_uid bl u)
   || (wl_enabled fw && in_list (fw_wl fw) (fun wl => negb (blacklist_match_uid wl u)))).

Definition netd_resolved : M pcapdroid unit :=
  pd ← getS;
  whenM (0 <? netd_resolve_waiting pd)
    (modifyS (fun pd => pd <| netd_resolve_waiting ::= Z.pred |>) ;;
     whenM (netd_resolve_waiting pd - 1 =? 0)
       (modifyS (fun pd => pd <| next_connections_dump ::=
                                   fun t => u64 (t - NETD_RESOLVE_DELAY_MS) |>))).

Definition netd_resolve (p : Z) (s : conn_and_tuple) : M pcapdroid unit :=
  pd ← getS;
  d ← conn p;
  c ← conn (s_data s);
  whenM ((uid c =? UID_NETD) && bool_decide (is_Some (info c)) && bool_decide (info c = info d))
    (set_conn (s_data s) (fun c => c <| uid := uid d |>) ;;
     whenM (negb (to_block c) && netd_block_missed_test (firewall pd) (uid d))
       (set_conn (s_data s) (fun c => c <| netd_block_missed := true |>)) ;;
     netd_resolved).

(** The host name of the cache, and what follows from it. *)
Definition resolve_host (tuple : zdtun_5tuple) (p : Z) : M pcapdroid unit :=
  pd ← getS;
  mem ← ask a_mem;
  let (host, lru) := ip_lru_find (ip_to_host pd) (dst_ip tuple) mem in
  modifyS (fun pd => pd <| ip_to_host := lru |>) ;;
  set_conn p (fun c => c <| info := host |>) ;;
  match host with
  | None => mret tt
  | Some _ =>
      set_conn p (fun c => c <| info_from_lru := true |>) ;;
      c ← conn p;
      whenM (negb (uid c =? UID_UNKNOWN))
        (pd ← getS;
         ss ← liftO (slots (new_conns pd));
         forM ss (netd_resolve p)) ;;
      check_blacklisted_domain p
  end.

(** The malware list, by address. *)
Definition check_blacklisted_ip (tuple : zdtun_5tuple) (p : Z) : M pcapdroid unit :=
  pd ← getS;
  c ← conn p;
  let md := malware_detection pd in
  match md_bl md with
  | None => mret tt
  | Some bl =>
      whenM (negb (whitelisted_app c))
        (b ← ip_in_list (Some bl) tuple;
         whenM b
           (get_appname_by_uid (uid c) ;;
            w ← ip_in_list (md_whitelist md) tuple;
            whenM (negb w)
              (set_conn p (fun c => c <| blacklisted_ip := true |> <| to_block := true |>)))) ;;
      modifyS (fun pd => pd <| bl_num_checked_connections ::= fun n => i32 (n + 1) |>)
  end.

(** The firewall, by address and by application. *)
Definition check_firewall (tuple : zdtun_5tuple) (p : Z) : M pcapdroid unit :=
  pd ← getS;
  c ← conn p;
  let fw := firewall pd in
  match fw_bl fw with
  | Some bl =>
      whenM (fw_enabled fw && negb (to_block c))
        (b ← ip_in_list (Some bl) tuple;
         set_conn p (fun c => c <| to_block := b |>) ;;
         (if b : bool then get_appname_by_uid (uid c) ;; mret tt
          else
            let b := blacklist_match_uid bl (uid c) in
            set_conn p (fun c => c <| to_block := b |>) ;;
            whenM b (get_appname_by_uid (uid c) ;; mret tt)) ;;
         modifyS (fun pd => pd <| fw_num_checked_connections ::= fun n => i32 (n + 1) |>))
  | None => mret tt
  end.

(** The checks on a connection whose uid is known. *)
Definition init_connection (tuple : zdtun_5tuple) (p : Z) : M pcapdroid unit :=
  pd ← getS;
  c ← conn p;
  match md_whitelist (malware_detection pd) with
  | Some wl =>
      let w := blacklist_match_uid wl (uid c) in
      set_conn p (fun c => c <| whitelisted_app := w |>) ;;
      whenM w (get_appname_by_uid (uid c) ;; mret tt)
  | None => mret tt
  end ;;
  resolve_host tuple p ;;
  check_blacklisted_ip tuple p ;;
  check_firewall tuple p ;;
  check_whitelist_mode_block tuple p.

Definition pd_new_connection (tuple : zdtun_5tuple) (u : Z) : M pcapdroid (option Z) :=
  mem ← ask a_mem;
  if negb mem then mret None else
  pd ← getS;
  let p := next_conn pd in
  putS (pd <| next_conn ::= Z.succ |> <| conns ::= <[p := pd_conn_zero]> |>) ;;
  mem ← ask a_mem;
  if negb mem then pd_purge_connection p ;; mret None else
  set_conn p (fun c => c <| ndpi_flow_of := Some flow_zero |>) ;;
  rv ← notif_connection NEW_CONNS tuple p;
  if rv <? 0 then pd_purge_connection p ;; mret None else
  pd ← getS;
  set_conn p (fun c => c <| uid := u |> <| incr_id := new_conn_id pd |>) ;;
  modifyS (fun pd => pd <| new_conn_id ::= fun i => i32 (i + 1) |>) ;;
  init_connection tuple p ;;
  mret (Some p).

(** ** New lists *)

Definition check_blocked_conn_cb (tuple : zdtun_5tuple) (p : Z) : M pcapdroid unit :=
  pd ← getS;
  c ← conn p;
  let fw := firewall pd in
  let old_block := to_block c in
  let b := blacklisted_internal c || blacklisted_ip c || blacklisted_domain c in
  b ← match fw_bl fw with
      | Some bl =>
          if negb b && fw_enabled fw then
            if blacklist_match_uid bl (uid c) then mret true else
            ip ← ip_in_list (Some bl) tuple;
            mret (ip || match info c with
                        | Some ((_ :: _) as d) => blacklist_match_domain bl d
                        | _ => false
                        end)
          else mret b
      | None => mret b
      end;
  set_conn p (fun c => c <| to_block := b |>) ;;
  check_whitelist_mode_block tuple p ;;
  c ← conn p;
  whenM (negb (Bool.eqb old_block (to_block c)))
    (set_conn p (or_update CONN_UPDATE_STATS) ;;
     pd_notify_connection_update tuple p ;; mret tt).

(** [whitelist] and, for the domain, [info] are dereferenced without a check. *)
Definition check_blacklisted_conn_cb (tuple : zdtun_5tuple) (p : Z) : M pcapdroid unit :=
  pd ← getS;
  wl ← liftO (md_whitelist (malware_detection pd));
  c ← conn p;
  let w := blacklist_match_uid wl (uid c) in
  set_conn p (fun c => c <| whitelisted_app := w |>) ;;
  changed1 ← (if blacklisted_ip c then
                ip ← (if w then mret true else ip_in_list (Some wl) tuple);
                (if ip : bool then set_conn p (fun c => c <| blacklisted_ip := false |>) else mret tt) ;;
                mret ip
              else mret false);
  changed2 ← (if blacklisted_domain c then
                d ← (if w then mret true else
                       d ← liftO (info c); mret (blacklist_match_domain wl d));
                (if d : bool then set_conn p (fun c => c <| blacklisted_domain := false |>) else mret tt) ;;
                mret d
              else mret false);
  whenM (changed1 || changed2)
    (whenM (bool_decide (is_Some (fw_bl (firewall pd)))) (check_blocked_conn_cb tuple p) ;;
     set_conn p (or_update CONN_UPDATE_STATS) ;;
     pd_notify_connection_update tuple p ;; mret tt).

(** ** The end of a connection (callbacks of the forwarding engine) *)

Definition connection_closed (tuple : zdtun_5tuple) (p : Z) (st : zdtun_conn_status) :
    M pcapdroid unit :=
  set_conn p (or_update CONN_UPDATE_STATS) ;;
  rv ← pd_notify_connection_update tuple p;
  if rv <? 0 then pd_purge_connection p else
  pd_giveup_dpi p tuple ;;
  set_conn p (fun c => c <| pd_status := st |> <| to_purge := true |>).

Definition update_conn_status (p : Z) (st : zdtun_conn_status) : M pcapdroid unit :=
  set_conn p (fun c => c <| pd_status := st |>) ;;
  whenM (is_closed st) (set_conn p (fun c => c <| to_purge := true |>)).

End ops.
End PdConn.
