(* ===== verification/PdProcess.v ===== *)
(** * Packets of a connection (core/pcapdroid.c, core/jni_impl.c)

    A packet goes through the detection of nDPI and the payload dump, then it
    is accounted and written to the PCAP dump.  The callbacks are those of
    jni_impl.c. *)

From S2P Require Import Prelude CString UtHash ZdtunTypes PcapDump PdDns PdTypes PdCheck PdNotify PdConn.

Module PdProcess.
Export PdConn.
#[local] Existing Instance PcapDump.pcap_dumper_eta.
#[local] Existing Instance PcapDump.pcap_dump_mode_eq_dec.

Section ops.
Context `{PdEnv}.

(** Appending a chunk to the Java list of the connection. *)
Definition dumpPayloadChunk (px : pkt_context) (dump_size : Z) : M pcapdroid bool :=
  let p := px_data px in
  c ← conn p;
  have ← match payload_chunks c with
         | Some _ => mret true
         | None =>
             ok ← ask a_ok;
             whenM ok (set_conn p (fun c => c <| payload_chunks := Some [] |>)) ;;
             mret ok
         end;
  if negb have then mret false else
  array_ok ← ask a_ok;
  if negb array_ok then mret false else
  chunk_ok ← ask a_ok;
  if negb chunk_ok then mret false else
  bytes ← liftO (rdn (Z.to_nat dump_size) (pkt_mem (px_pkt px)) (pkt_l7 (px_pkt px)));
  added ← ask a_ok;
  whenM added
    (set_conn p (fun c => c <| payload_chunks ::= fmap (fun l =>
       l ++ [Chunk (l7proto c =? NDPI_PROTOCOL_HTTP) (px_is_tx px) (px_ms px) bytes]) |>)) ;;
  mret added.

Definition has_payload (tx : bool) (c : pd_conn) : bool :=
  if tx then has_payload_tx c else has_payload_rx c.
Definition set_has_payload (tx : bool) (c : pd_conn) : pd_conn :=
  if tx then c <| has_payload_tx := true |> else c <| has_payload_rx := true |>.

(** Whether something was dumped, and whether something was left out. *)
Definition dump_payload (px : pkt_context) : M pcapdroid (bool * bool) :=
  pd ← getS;
  c ← conn (px_data px);
  let minimal := bool_decide (payload_mode pd = PAYLOAD_MODE_MINIMAL) in
  let len := pkt_l7_len (px_pkt px) in
  if negb minimal || negb (has_payload (px_is_tx px) c) then
    let cut := minimal && (MINIMAL_PAYLOAD_MAX_DIRECTION_SIZE <? len) in
    let to_dump := if cut then MINIMAL_PAYLOAD_MAX_DIRECTION_SIZE else len in
    ok ← dumpPayloadChunk px to_dump;
    whenM ok (set_conn (px_data px) (set_has_payload (px_is_tx px))) ;;
    mret (ok, payload_truncated c || cut || negb ok)
  else mret (false, true).

Definition process_payload (px : pkt_context) : M pcapdroid unit :=
  pd ← getS;
  let p := px_data px in
  c ← conn p;
  if bool_decide (payload_mode pd = PAYLOAD_MODE_NONE) || (pkt_l7_len (px_pkt px) <=? 0)
     || (tls_enabled (tls_decryption pd) && proxied c)
  then mret tt else
  r ← dump_payload px;
  let (updated, truncated) := r : bool * bool in
  c ← conn p;
  whenM ((updated && bool_decide (is_Some (payload_chunks c)))
         || negb (Bool.eqb truncated (payload_truncated c)))
    (set_conn p (fun c => or_update CONN_UPDATE_PAYLOAD c <| payload_truncated ::= orb truncated |>) ;;
     pd_notify_connection_update (px_tuple px) p ;; mret tt).

(** ** Detection *)

(** The outcomes of the allocations of [process_dns_reply]. *)
Definition dns_reply (query : cstr) (pkt : zdtun_pkt) : M pcapdroid unit :=
  pd ← getS;
  let mem n := (a_mem (sys (calls pd + 2 * n)), a_mem (sys (calls pd + 2 * n + 1))) in
  modifyS (fun pd => pd <| calls ::= Nat.add 64 |>) ;;
  zoom ip_to_host (fun lru pd => pd <| ip_to_host := lru |>) (PdDns.process_dns_reply query pkt mem).

Definition ndpi_process (px : pkt_context) (flow : ndpi_flow) : M pcapdroid unit :=
  let p := px_data px in
  c ← conn p;
  r ← ask (fun a => (a_proto a, a_flow a));
  proto ← liftO (pd_ndpi2proto (fst r));
  set_conn p (fun c => c <| ndpi_flow_of := Some (snd r) |> <| l7proto := proto |>) ;;
  whenM (negb (l7proto c =? proto))
    (set_conn p (fun c => or_update CONN_UPDATE_INFO c
                            <| encrypted_l7 := is_encrypted_l7 isClearTextProto proto |>)) ;;
  whenM (negb (px_is_tx px) && (proto =? NDPI_PROTOCOL_DNS))
    (dns_reply (host_server_name (snd r)) (px_pkt px)).

(** Delaying the dump, to attribute the DNS requests of netd. *)
Definition netd_delay (p : Z) : M pcapdroid unit :=
  pd ← getS;
  c ← conn p;
  whenM ((l7proto c =? NDPI_PROTOCOL_DNS) && (uid c =? UID_NETD) && (sent_pkts c + rcvd_pkts c =? 0)
         && ((0 <? netd_resolve_waiting pd)
             || (u64 (next_connections_dump pd - NETD_RESOLVE_DELAY_MS) <? now_ms pd)))
    (whenM (netd_resolve_waiting pd =? 0)
       (modifyS (fun pd => pd <| next_connections_dump ::= fun t => u64 (t + NETD_RESOLVE_DELAY_MS) |>)) ;;
     modifyS (fun pd => pd <| netd_resolve_waiting ::= Z.succ |>)).

(** The ALPN guessed when the client hello has none. *)
Definition guess_alpn (tuple : zdtun_5tuple) (c : pd_conn) : Z :=
  if ntohs (dst_port tuple) =? 443 then NDPI_PROTOCOL_HTTP
  else match info c with
       | Some i =>
           if has_prefix (str "imap.") i then NDPI_PROTOCOL_MAIL_IMAP
           else if has_prefix (str "smtp.") i then NDPI_PROTOCOL_MAIL_SMTP else alpn c
       | None => alpn c
       end.
Definition finish_dpi (tuple : zdtun_5tuple) (p : Z) : M pcapdroid unit :=
  c ← conn p;
  whenM (bool_decide (ndpi_flow_of c = None) && (l7proto c =? NDPI_PROTOCOL_TLS) && (alpn c =? 0))
    (let a := guess_alpn tuple c in
     set_conn p (fun c => c <| alpn := a |>) ;;
     whenM (negb (a =? 0))
       (set_conn p (or_update CONN_UPDATE_INFO) ;;
        pd_notify_connection_update tuple p ;; mret tt)).

(** The extra dissection is asked for only when the rest of the condition holds. *)
Definition dpi_done (giveup : bool) (p : Z) : M pcapdroid bool :=
  c ← conn p;
  if giveup then mret true
  else if l7proto c =? NDPI_PROTOCOL_UNKNOWN then mret false
  else extra_possible ← ask a_ok; mret (negb extra_possible).

Definition perform_dpi (px : pkt_context) : M pcapdroid unit :=
  let p := px_data px in
  c ← conn p;
  let giveup := MAX_DPI_PACKETS <=? sent_pkts c + rcvd_pkts c + 1 in
  flow ← liftO (ndpi_flow_of c);
  ndpi_process px flow ;;
  fin ← dpi_done giveup p;
  (if fin : bool then pd_giveup_dpi p (pkt_tuple (px_pkt px))
   else process_ndpi_data (pkt_tuple (px_pkt px)) p) ;;
  netd_delay p ;;
  finish_dpi (px_tuple px) p.

(** [tv] is the pair of seconds and microseconds. *)
Definition pkt_context_of (pkt : zdtun_pkt) (is_tx : bool) (tuple : zdtun_5tuple) (p : Z)
    (tv : Z * Z) : pkt_context :=
  PCtx pkt tv (u64 (fst tv * 1000 + Z.quot (snd tv) 1000)) is_tx tuple p.

Definition pd_process_packet (pkt : zdtun_pkt) (is_tx : bool) (tuple : zdtun_5tuple) (p : Z)
    (tv : Z * Z) : M pcapdroid pkt_context :=
  let px := pkt_context_of pkt is_tx tuple p tv in
  set_conn p (fun c => c <| last_seen := i64 (px_ms px) |>) ;;
  set_conn p (fun c => if first_seen c =? 0 then c <| first_seen := i64 (px_ms px) |> else c) ;;
  c ← conn p;
  whenM (bool_decide (is_Some (ndpi_flow_of c))
         && (negb (pkt_is_fragment pkt) || pkt_is_first_fragment pkt))
    (perform_dpi px) ;;
  process_payload px ;;
  mret px.

(** ** Accounting and dump *)

Definition stop_pcap_dump : M pcapdroid unit :=
  pd ← getS;
  d ← liftO (dumper pd);
  out ← liftO (PcapDump.pcap_destroy_dumper (d <| PcapDump.now_ms := now_ms pd |>));
  modifyS (fun pd => pd <| dumper := None |>) ;;
  emit (EvStopPcapDump out).

(** The name of an application in the trailer: cached, or asked for.  Its
    characters are bytes. *)
Definition dump_appname (pd : pcapdroid) (u : Z) : option cstr :=
  match HASH_FIND u (uid2app pd) with
  | Some name => Some (map u8 name)
  | None => if a_mem (sys (calls pd)) then Some (map u8 (take 63 (a_bytes (sys (S (calls pd))))))
            else None
  end.

Definition pd_dump_packet (pktbuf : list Z) (pktlen : Z) (tv : Z * Z) (u : Z) : M pcapdroid unit :=
  pd ← getS;
  match dumper pd with
  | None => mret tt
  | Some d =>
      r ← liftO (PcapDump.pcap_dump_packet (dump_appname pd) pktbuf pktlen tv u
                   (d <| PcapDump.now_ms := now_ms pd |>));
      modifyS (fun pd => pd <| dumper := Some (snd r) |>) ;;
      whenM (fst r && bool_decide (PcapDump.mode d = PcapDump.PCAP_DUMP_WITH_TRAILER))
        (get_appname_by_uid u ;; mret tt) ;;
      whenM (negb (fst r)) stop_pcap_dump
  end.

Definition account_conn (px : pkt_context) (c : pd_conn) : pd_conn :=
  let pkt := px_pkt px in
  let c := c <| payload_length ::= fun n => i64 (n + pkt_l7_len pkt) |> in
  if px_is_tx px
  then c <| sent_pkts ::= fun n => i32 (n + 1) |> <| sent_bytes ::= fun n => i64 (n + pkt_len pkt) |>
  else c <| rcvd_pkts ::= fun n => i32 (n + 1) |> <| rcvd_bytes ::= fun n => i64 (n + pkt_len pkt) |>.

Definition account_capture (px : pkt_context) (s : capture_stats_t) : capture_stats_t :=
  let len := pkt_len (px_pkt px) in
  let v6 := ipver (pkt_tuple (px_pkt px)) =? 6 in
  let s :=
    if px_is_tx px
    then let s := s <| cs_sent_pkts ::= fun n => i32 (n + 1) |>
                    <| cs_sent_bytes ::= fun n => i64 (n + len) |> in
         if v6 then s <| ipv6_sent_bytes ::= fun n => i64 (n + len) |> else s
    else let s := s <| cs_rcvd_pkts ::= fun n => i32 (n + 1) |>
                    <| cs_rcvd_bytes ::= fun n => i64 (n + len) |> in
         if v6 then s <| ipv6_rcvd_bytes ::= fun n => i64 (n + len) |> else s
  in s <| new_stats := true |>.

Definition pd_account_stats (px : pkt_context) : M pcapdroid unit :=
  let p := px_data px in
  set_conn p (account_conn px) ;;
  modifyS (fun pd => pd <| capture_stats ::= account_capture px |>) ;;
  set_conn p (or_update CONN_UPDATE_STATS) ;;
  pd_notify_connection_update (px_tuple px) p ;;
  pd ← getS;
  c ← conn p;
  whenM (bool_decide (is_Some (dumper pd))
         && ((max_pkts_per_flow pd <=? 0) || (sent_pkts c + rcvd_pkts c <=? max_pkts_per_flow pd)))
    (pd_dump_packet (pkt_mem (px_pkt px)) (pkt_len (px_pkt px)) (px_tv px) (uid c)).

End ops.
End PdProcess.
