(* ===== verification/PdHouse.v ===== *)
(** * Periodic work (core/pcapdroid.c)

    [pd_housekeeping] does one of: send the statistics, send the connections,
    flush the PCAP dump, advance the reload of the malware lists; then it takes
    the new lists the Java side left.  [load_new_blacklists] runs in a thread of
    its own. *)

From S2P Require Import Prelude CString UtHash ZdtunTypes PcapDump PdTypes PdCheck PdNotify PdConn PdProcess.

Module PdHouse.
Export PdProcess.
#[local] Existing Instance PcapDump.pcap_dumper_eta.

Definition set_malware (f : malware_t -> malware_t) : M pcapdroid unit :=
  modifyS (fun pd => pd <| malware_detection ::= f |>).
Definition set_firewall (f : firewall_t -> firewall_t) : M pcapdroid unit :=
  modifyS (fun pd => pd <| firewall ::= f |>).

Section ops.
Context `{PdEnv} `{InetPton}.

(** ** Loading the malware lists *)

Definition status_arr_zero : bl_status_arr := BlStatusArr None 0 0.

(** The array is extended when [size >= cur_items].  [None] among the results
    stands for [continue]. *)
Definition add_status (st : bl_status_arr) (fname : cstr) (num : Z) : M pcapdroid bl_status_arr :=
  r ← (if st_cur_items st <=? st_size st then
         let size' := if st_size st =? 0 then 8 else st_size st * 2 in
         ok ← ask a_realloc;
         mret (if ok : bool
               then (true, st <| st_items := Some (take (Z.to_nat size') (default [] (st_items st)) ++
                                 replicate (Z.to_nat size' - length (default [] (st_items st))) None) |>
                              <| st_size := size' |>)
               else (false, st <| st_items := None |> <| st_size := 0 |>))
       else mret (true, st));
  let (ok, st) := r : bool * bl_status_arr in
  if negb ok then mret st else
  mem ← ask a_mem;
  if negb mem then mret st else
  l ← liftO (st_items st);
  if (0 <=? st_cur_items st) && (st_cur_items st <? Z.of_nat (length l))
  then mret (st <| st_items := Some (<[Z.to_nat (st_cur_items st) := Some (fname, num)]> l) |>
                <| st_cur_items ::= Z.succ |>)
  else ub.

Definition list_path (fname : cstr) : cstr := take 255 (str "malware_bl/" ++ fname).

(** The outcomes of the allocations of one file. *)
Definition file_mem (n : nat) : M pcapdroid (nat -> bool * bool) :=
  pd ← getS;
  modifyS (fun pd => pd <| calls ::= Nat.add (2 * n) |>) ;;
  mret (fun i => (a_mem (sys (calls pd + 2 * i)), a_mem (sys (calls pd + 2 * i + 1)))).

Fixpoint load_lists (infos : list bl_info) (bl : blacklist) (st : bl_status_arr) :
    M pcapdroid (blacklist * bl_status_arr) :=
  match infos with
  | [] => mret (bl, st)
  | i :: infos =>
      let file := files (list_path (bi_fname i)) in
      mem ← file_mem (S (length (default [] file)));
      r ← liftO (blacklist_load_file file (bi_type i) mem bl);
      let '((rv, stats), bl) := r : Z * option blacklist_stats * blacklist in
      st ← match stats with
           | Some s => if rv =? 0 then add_status st (bi_fname i) (num_rules s) else mret st
           | None => mret st
           end;
      load_lists infos bl st
  end.

Definition load_new_blacklists : M pcapdroid unit :=
  mem ← ask a_mem;
  if negb mem then set_malware (fun m => m <| reload_done := true |>) else
  c ← ask a_mem;
  t ← ask a_mem;
  match blacklist_init c t with
  | None => set_malware (fun m => m <| reload_done := true |>)
  | Some bl =>
      pd ← getS;
      r ← load_lists (bls_info (malware_detection pd)) bl status_arr_zero;
      mem1 ← ask a_mem;
      mem2 ← ask a_mem;
      r1 ← liftO (blacklist_add_domain (str "internetbadguys.com") mem1 mem2 (fst r));
      r2 ← liftO (blacklist_add_ipstr (str "0.0.0.1") (snd r1));
      set_malware (fun m => m <| md_new_bl := Some (snd r2) |> <| status_arr := Some (snd r) |>
                              <| reload_done := true |>)
  end.

(** The items of the array, as the callback and the loop after it read them. *)
Definition status_items (st : bl_status_arr) : option (list (cstr * Z)) :=
  match st_items st with
  | None => if st_cur_items st <=? 0 then Some [] else None
  | Some l => if st_cur_items st <=? Z.of_nat (length l)
              then mapM id (take (Z.to_nat (st_cur_items st)) l) else None
  end.

(** [pd_calloc(0, ..)] gives NULL or memory of size 0, which is then read. *)
Definition use_new_blacklists : M pcapdroid unit :=
  pd ← getS;
  match md_new_bl (malware_detection pd) with
  | None => mret tt
  | Some bl =>
      let st := status_arr (malware_detection pd) in
      set_malware (fun m => m <| md_bl := Some bl |> <| md_new_bl := None |> <| status_arr := None |>) ;;
      match st with
      | Some st => l ← liftO (status_items st); emit (EvBlacklistsLoaded l)
      | None => mem ← ask a_mem; if negb mem then mret tt else ub
      end
  end.

(** ** Housekeeping *)

Definition stats_due (pd : pcapdroid) : bool :=
  dump_capture_stats_now pd ||
  (new_stats (capture_stats pd)
   && (CAPTURE_STATS_UPDATE_FREQUENCY_MS <=? u64 (now_ms pd - last_update_ms (capture_stats pd)))).

(** [zstats] is the result of [zdtun_get_stats]. *)
Definition send_stats (zstats : zdtun_statistics) : M pcapdroid unit :=
  modifyS (fun pd => pd <| dump_capture_stats_now := false |>) ;;
  pd ← getS;
  whenM (vpn_capture pd) (modifyS (fun pd => pd <| tun_stats := zstats |>)) ;;
  sendStatsDump ;;
  pd ← getS;
  modifyS (fun pd => pd <| capture_stats ::=
    fun s => s <| new_stats := false |> <| last_update_ms := now_ms pd |> |>).

Definition connections_turn : M pcapdroid unit :=
  dump_connections ;;
  modifyS (fun pd => pd <| last_connections_dump := now_ms pd |>
                        <| next_connections_dump :=
                             u64 (now_ms pd + CONNECTION_DUMP_UPDATE_FREQUENCY_MS) |>
                        <| netd_resolve_waiting := 0 |>).

(** [pd->pcap_dump.dumper && pcap_check_export(..)] *)
Definition dumper_turn : M pcapdroid bool :=
  pd ← getS;
  match dumper pd with
  | None => mret false
  | Some d =>
      r ← liftO (PcapDump.pcap_check_export (d <| PcapDump.now_ms := now_ms pd |>));
      modifyS (fun pd => pd <| dumper := Some (snd r) |>) ;;
      mret (fst r)
  end.

(** Starting the worker, and taking what it loaded. *)
Definition malware_turn : M pcapdroid unit :=
  pd ← getS;
  let md := malware_detection pd in
  if reload_in_progress md then
    whenM (reload_done md)
      (set_malware (fun m => m <| reload_in_progress := false |>) ;;
       use_new_blacklists)
  else if reload_blacklists_now pd then
    modifyS (fun pd => pd <| reload_blacklists_now := false |>) ;;
    set_malware (fun m => m <| reload_done := false |> <| md_new_bl := None |>
                            <| status_arr := None |> <| reload_in_progress := true |>)
  else mret tt.

Definition periodic_turn (zstats : zdtun_statistics) : M pcapdroid unit :=
  pd ← getS;
  if stats_due pd then send_stats zstats
  else if next_connections_dump pd <=? now_ms pd then connections_turn
  else
    exported ← dumper_turn;
    if exported : bool then mret tt
    else if md_enabled (malware_detection pd) then malware_turn else mret tt.

(** [active] are the open connections [iter_active_connections] visits. *)
Definition for_active (active : list (zdtun_5tuple * Z)) (cb : zdtun_5tuple -> Z -> M pcapdroid unit) :
    M pcapdroid unit := forM active (fun a => cb (fst a) (snd a)).

Definition take_new_lists (active : list (zdtun_5tuple * Z)) : M pcapdroid unit :=
  pd ← getS;
  match md_new_wl (malware_detection pd) with
  | Some wl =>
      set_malware (fun m => m <| md_whitelist := Some wl |> <| md_new_wl := None |>) ;;
      for_active active check_blacklisted_conn_cb
  | None => mret tt
  end ;;
  pd ← getS;
  match fw_new_bl (firewall pd), fw_new_wl (firewall pd) with
  | Some bl, _ =>
      set_firewall (fun f => f <| fw_bl := Some bl |> <| fw_new_bl := None |>) ;;
      for_active active check_blocked_conn_cb
  | None, Some wl =>
      set_firewall (fun f => f <| fw_wl := Some wl |> <| fw_new_wl := None |>) ;;
      for_active active check_blocked_conn_cb
  | None, None => mret tt
  end ;;
  pd ← getS;
  match tls_new_list (tls_decryption pd) with
  | Some l => modifyS (fun pd => pd <| tls_decryption ::=
                         fun t => t <| tls_list := Some l |> <| tls_new_list := None |> |>)
  | None => mret tt
  end.

Definition pd_housekeeping (zstats : zdtun_statistics) (active : list (zdtun_5tuple * Z)) :
    M pcapdroid unit :=
  periodic_turn zstats ;; take_new_lists active.

(** [pd_refresh_time]: the seconds and nanoseconds of the monotonic clock. *)
Definition pd_refresh_time : M pcapdroid unit :=
  r ← ask (fun a => (a_ok a, a_int a, nth 0 (a_bytes a) 0));
  let '(ok, sec, nsec) := r : bool * Z * Z in
  whenM ok (modifyS (fun pd => pd <| now_ms := u64 (sec * 1000 + Z.quot nsec 1000000) |>)).

(** The end of [pd_run]: the last dump, then everything is freed. *)
Definition pd_stop : M pcapdroid unit :=
  sendStatsDump ;;
  sendConnectionsDump ;;
  conns_clear NEW_CONNS true ;;
  conns_clear CONNS_UPDATES true ;;
  pd ← getS;
  whenM (bool_decide (is_Some (dumper pd))) stop_pcap_dump ;;
  modifyS (fun pd => pd <| uid2app := [] |>).

End ops.
End PdHouse.
