(* ===== verification/PdVpn.v ===== *)
(** * The VPN capture loop (core/capture_vpn.c)

    What the capture does around the forwarding engine: the callbacks it gives
    to zdtun, and the packet part of [run_vpn] cut at the calls of
    [zdtun_lookup] and [zdtun_forward], during which the callbacks run. *)

From S2P Require Import Prelude CString UtHash ZdtunTypes ZdtunConn ZdtunPkt PortMap ZdtunWire PdTypes PdCheck PdNotify PdConn PdProcess PdHouse.

Module PdVpn.
Export PdHouse.
Import ZdtunWire.

Definition ENOBUFS : Z := 105.
Definition DNS_FLAGS_MASK : Z := 0x8000.
Definition DNS_TYPE_REQUEST : Z := 0x0000.
Definition DNS_PACKET_LEN : Z := 12.     (* sizeof(dns_packet_t) *)

Section ops.
Context `{PdEnv}.

(** [get_uid] asks the system; a name is looked up for the log. *)
Definition resolve_uid : M pcapdroid Z :=
  u ← ask a_int;
  if 0 <=? u then get_appname_by_uid u ;; mret u else mret UID_UNKNOWN.

(** Seconds and microseconds; when the clock fails, what the structure held. *)
Definition get_pkt_timestamp : M pcapdroid (Z * Z) :=
  r ← ask (fun a => (a_ok a, a_int a, nth 0 (a_bytes a) 0));
  let '(ok, sec, nsec) := r : bool * Z * Z in
  mret (sec, if ok then Z.quot nsec 1000 else nsec).

Definition handle_new_connection (tuple : zdtun_5tuple) : M pcapdroid (option Z) :=
  u ← resolve_uid;
  pd_new_connection tuple u.

(** A packet that is not let through. *)
Definition count_blocked (tuple : zdtun_5tuple) (p : Z) : M pcapdroid unit :=
  set_conn p (fun c => or_update CONN_UPDATE_STATS c <| blocked_pkts ::= fun n => i32 (n + 1) |>) ;;
  pd_notify_connection_update tuple p ;; mret tt.

(** The packet being forwarded is accounted once, before the first answer. *)
Definition account_forwarded (p : Z) : M pcapdroid unit :=
  c ← conn p;
  match fw_pctx c with
  | Some px => pd_account_stats px ;; set_conn p (fun c => c <| fw_pctx := None |>)
  | None => mret tt
  end.

(** [write] on the tun descriptor: its result, or the opposite of errno. *)
Definition write_tun (pkt : zdtun_pkt) : M pcapdroid Z :=
  bytes ← liftO (rdn (Z.to_nat (pkt_len pkt)) (pkt_mem pkt) 0);
  rv ← ask a_int;
  whenM (0 <=? rv) (emit (EvTun (take (Z.to_nat rv) bytes))) ;;
  mret rv.

Definition remote2vpn (tuple : zdtun_5tuple) (p : Z) (pkt : zdtun_pkt) : M pcapdroid Z :=
  pd ← getS;
  if negb (running pd) then mret 0 else
  account_forwarded p ;;
  pd_refresh_time ;;
  tv ← get_pkt_timestamp;
  px ← pd_process_packet pkt false tuple p tv;
  c ← conn p;
  if to_block c then count_blocked tuple p ;; mret (-1) else
  rv ← write_tun pkt;
  if rv <? 0 then
    whenM (negb (rv =? - ENOBUFS)) (modifyS (fun pd => pd <| running := false |>)) ;;
    mret (-1)
  else if negb (rv =? pkt_len pkt) then mret (-1)
  else pd_account_stats px ;; mret 0.

(** ** DNS *)

Definition is_internal_dns (v : vpn_t) (tuple : zdtun_5tuple) : bool :=
  ipv4_enabled v && (ipver tuple =? 4) && (ip4 (dst_ip tuple) =? ipv4_internal_dns v).

Definition use_new_dns_server : M pcapdroid unit :=
  pd ← getS;
  whenM (negb (new_dns_server pd =? 0))
    (modifyS (fun pd => pd <| vpn ::= fun v => v <| ipv4_dns_server := new_dns_server pd |> |>
                          <| new_dns_server := 0 |>)).

(** The connection is returned because [zdtun_conn_dnat] changes it.  The flags
    are tested as loaded, without [ntohs]. *)
Definition check_dns_req_allowed (zc : zdtun_conn) (px : pkt_context) :
    M pcapdroid (bool * zdtun_conn) :=
  use_new_dns_server ;;
  pd ← getS;
  let tuple := px_tuple px in
  let pkt := px_pkt px in
  if ipproto tuple =? IPPROTO_ICMP then mret (true, zc) else
  let v := vpn pd in
  let internal := is_internal_dns v tuple in
  let own := internal || (ipv6_enabled v && (ipver tuple =? 6)
                          && bool_decide (ip_bytes (dst_ip tuple) = ipv6_dns_server v)) in
  dns ← (if own then mret true else
           known ← liftO (known_dns_servers v); ip_in_list (Some known) tuple);
  if negb dns then mret (true, zc) else
  if is_dns tuple && (DNS_PACKET_LEN <=? pkt_l7_len pkt) then
    flags ← liftO (rd16 (pkt_mem pkt) (pkt_l7 pkt + 2));
    if negb ((flags .& DNS_FLAGS_MASK) =? DNS_TYPE_REQUEST) then mret (true, zc) else
    modifyS (fun pd => pd <| num_dns_requests ::= fun n => u32 (n + 1) |>) ;;
    mret (true, if internal
                then zdtun_conn_dnat zc (ip_of_ip4 (ipv4_dns_server v)) (htons 53) 4 else zc)
  else mret (negb (block_private_dns pd), zc).

(** The labels of the query: up to a NUL, while five bytes remain. *)
Fixpoint query_len (fuel : nat) (mem : list Z) (q qlen remaining : Z) : option Z :=
  match fuel with
  | O => None
  | S fuel =>
      if 5 <=? remaining then
        b ← rd8 mem (q + qlen);
        if b =? 0 then Some qlen else query_len fuel mem q (qlen + 1) (remaining - 1)
      else Some qlen
  end.

(** Comparing bytes one after the other: the next one is read if the last agreed. *)
Fixpoint bytes_are {A} (mem : list Z) (l : list (Z * Z)) (k : option (option A)) : option (option A) :=
  match l with
  | [] => k
  | (off, v) :: l => b ← rd8 mem off; if b =? v then bytes_are mem l k else Some None
  end.

(** Step 1: the length of the name and the type of a valid query. *)
Definition dns_query_of (pkt : zdtun_pkt) : option (option (Z * Z)) :=
  if pkt_l7_len pkt <? DNS_PACKET_LEN + 5 then Some None else
  let mem := pkt_mem pkt in
  questions ← rd16 mem (pkt_l7 pkt + 4);
  if negb (ntohs questions =? 1) then Some None else
  let q := pkt_l7 pkt + DNS_PACKET_LEN in
  let remaining := pkt_l7_len pkt - DNS_PACKET_LEN in
  qlen ← query_len (S (Z.to_nat remaining)) mem q 0 remaining;
  bytes_are mem [(q + qlen, 0); (q + qlen + 1, 0); (q + qlen + 3, 0); (q + qlen + 4, 1)]
    (qtype ← rd8 mem (q + qlen + 2);
     if negb (qtype =? 0x01) && negb (qtype =? 0x1c) then Some None else
     Some (Some (qlen, qtype))).

(** Step 2: the stores into the buffer of the reply. *)
Definition udphdr_reply (t : zdtun_5tuple) (len : Z) : list Z :=
  le_bytes 2 (dst_port t) ++ le_bytes 2 (src_port t) ++ le_bytes 2 (htons (u16 len)) ++ [0; 0].
Definition dns_answer (qtype alen : Z) : list Z :=
  [0xc0; 0x0c; 0x00; qtype; 0x00; 0x01] ++ le_bytes 4 (htonl 10) ++ [0x00; alen] ++
  replicate (Z.to_nat alen) 0.

Definition build_dns_reply (ver : Z) (tuple : zdtun_5tuple) (mem : list Z) (l7 qlen qtype : Z) :
    option (list Z) :=
  let alen := if qtype =? 0x01 then 4 else 16 in
  let iplen := zdtun_iphdr_len ver in
  let len := iplen + 8 + DNS_PACKET_LEN + qlen + 5 + 12 + alen in
  let buf := replicate (Z.to_nat len) 0 in
  buf ← zdtun_make_iphdr ver tuple (u16 (len - iplen)) buf;
  buf ← wrn iplen (udphdr_reply tuple (len - iplen)) buf;
  id ← rdn 2 mem l7;
  questions ← rdn 2 mem (l7 + 4);
  let dns := iplen + 8 in
  buf ← wrn dns (id ++ le_bytes 2 (htons 0x8180) ++ questions ++ questions ++ [0; 0; 0; 0]) buf;
  queries ← rdn (Z.to_nat (qlen + 5)) mem (l7 + DNS_PACKET_LEN);
  buf ← wrn (dns + DNS_PACKET_LEN) queries buf;
  buf ← wrn (dns + DNS_PACKET_LEN + qlen + 5) (dns_answer qtype alen) buf;
  sum ← zdtun_l3_checksum ver (ipproto tuple) buf iplen (u16 (len - iplen));
  wrn (iplen + 6) (le_bytes 2 sum) buf.

(** [ver] is the IP version of the socket of the connection. *)
Definition spoof_dns_reply (ver : Z) (px : pkt_context) : M pcapdroid bool :=
  q ← liftO (dns_query_of (px_pkt px));
  match q with
  | None => mret false
  | Some (qlen, qtype) =>
      buf ← liftO (build_dns_reply ver (px_tuple px) (pkt_mem (px_pkt px)) (pkt_l7 (px_pkt px)) qlen qtype);
      emit (EvTun buf) ;; mret true
  end.

(** ** The packet part of [run_vpn] *)

(** Before [zdtun_lookup]: [None] goes to the housekeeping, [Some create] is the
    last argument of the lookup. *)
Definition vpn_accept (pkt : zdtun_pkt) : M pcapdroid (option bool) :=
  if pkt_is_fragment pkt then
    modifyS (fun pd => pd <| num_discarded_fragments ::= fun n => i64 (n + 1) |>) ;; mret None
  else
  pd ← getS;
  let v := vpn pd in
  let t := pkt_tuple pkt in
  if is_internal_dns v t && (ntohs (dst_port t) =? 853) then mret None else
  if ((ipver t =? 6) && negb (ipv6_enabled v)) || ((ipver t =? 4) && negb (ipv4_enabled v))
  then mret None else
  if ipproto t =? IPPROTO_TCP then
    flags ← liftO (tcp_th_flags pkt);
    mret (Some (negb ((flags .& TH_SYN) =? 0) && ((flags .& TH_ACK) =? 0)))
  else mret (Some true).

(** The lookup gave no connection. *)
Definition vpn_no_conn (create : bool) : M pcapdroid unit :=
  whenM create (modifyS (fun pd => pd <| num_dropped_connections ::= fun n => u32 (n + 1) |>)).

(** The redirections of a connection nothing was sent on. *)
Definition vpn_redirect (m : PortMap.mappings_t) (zc : zdtun_conn) (p : Z) : M pcapdroid zdtun_conn :=
  r ← liftO (PortMap.pd_check_port_map m zc);
  if fst r : bool then set_conn p (fun c => c <| port_mapping_applied := true |>) ;; mret (snd r) else
  b ← should_proxify (c_tuple zc) p;
  if b : bool then set_conn p (fun c => c <| proxied := true |>) ;; mret (zdtun_conn_proxy zc)
  else mret zc.

(** The verdict on the first packet of a connection: whether a reply was spoofed, so
    that the connection is to be closed. *)
Definition vpn_first_packet (socks5 : proxy_t) (zc : zdtun_conn) (px : pkt_context) :
    M pcapdroid (bool * zdtun_conn) :=
  let p := px_data px in
  c ← conn p;
  r ← (if negb (port_mapping_applied c) then
         r ← check_dns_req_allowed zc px;
         set_conn p (fun c => c <| blacklisted_internal ::= fun b => b || negb (fst r) |>) ;;
         mret (snd r)
       else mret zc);
  set_conn p (fun c => c <| to_block ::= fun b => b || blacklisted_internal c |>) ;;
  c ← conn p;
  if to_block c && (l7proto c =? NDPI_PROTOCOL_DNS) && (ipproto (px_tuple px) =? IPPROTO_UDP) then
    ver ← liftO (sock_ipver socks5 r);
    spoof_dns_reply ver px ;;
    mret (true, r)
  else mret (false, r).

(** Up to the closing of a connection that was answered here. *)
Definition vpn_judge (m : PortMap.mappings_t) (socks5 : proxy_t) (zc : zdtun_conn) (p : Z) (pkt : zdtun_pkt) :
    M pcapdroid (pkt_context * (bool * zdtun_conn)) :=
  let tuple := c_tuple zc in
  c ← conn p;
  zc ← (if sent_pkts c =? 0 then vpn_redirect m zc p else mret zc);
  tv ← get_pkt_timestamp;
  px ← pd_process_packet pkt true tuple p tv;
  c ← conn p;
  r ← (if sent_pkts c =? 0 then vpn_first_packet socks5 zc px else mret (false, zc));
  mret (px, r).

(** From there to [zdtun_forward]: whether it is called. *)
Definition vpn_allow (tuple : zdtun_5tuple) (p : Z) (px : pkt_context) : M pcapdroid bool :=
  c ← conn p;
  if to_block c then count_blocked tuple p ;; mret false else
  set_conn p (fun c => c <| fw_pctx := Some px |>) ;;
  mret true.

(** After [zdtun_forward] returned [rv]: the status to close the connection with,
    if it is to be closed. *)
Definition vpn_forwarded (rv : Z) (zc : zdtun_conn) (p : Z) : M pcapdroid (option zdtun_conn_status) :=
  if negb (rv =? 0) then
    whenM (negb (bool_decide (status zc = CONN_STATUS_UNREACHABLE)))
      (modifyS (fun pd => pd <| num_dropped_connections ::= fun n => u32 (n + 1) |>)) ;;
    mret (Some CONN_STATUS_ERROR)
  else
    account_forwarded p ;;
    c ← conn p;
    whenM ((sent_pkts c =? 1) && negb (sock zc =? INVALID_SOCKET) && (ipver (c_tuple zc) =? 4))
      (ok ← ask a_ok;
       port ← ask a_int;
       whenM ok (set_conn p (fun c => c <| local_port := u16 port |>))) ;;
    mret None.

(** [load_dns_servers], with the outcome of the allocations. *)
Definition dns_server_ips : list cstr := map str
  ["8.8.8.8"; "8.8.4.4"; "1.1.1.1"; "1.0.0.1"; "2001:4860:4860::8888"; "2001:4860:4860::8844";
   "2606:4700:4700::64"; "2606:4700:4700::6400"; "2606:4700:4700::1111"; "2606:4700:4700::1001"]%string.
Definition dns_server_domains : list cstr := map str
  ["dns.google"; "chrome.cloudflare-dns.com"; "mozilla.cloudflare-dns.com"; "doh.cleanbrowsing.org";
   "chromium.dns.nextdns.io"; "firefox.dns.nextdns.io"; "dns.quad9.net"; "doh.opendns.com";
   "dns.adguard.com"; "dot.libredns.gr"; "dns.dnslify.com"; "dns-tls.qis.io"]%string.

End ops.

Section servers.
Context `{InetPton}.
Fixpoint add_ips (l : list cstr) (bl : blacklist) : option blacklist :=
  match l with
  | [] => Some bl
  | s :: l => r ← blacklist_add_ipstr s bl; add_ips l (snd r)
  end.
Fixpoint add_domains (mem : nat -> bool * bool) (l : list cstr) (bl : blacklist) : option blacklist :=
  match l with
  | [] => Some bl
  | s :: l =>
      let n := length l in
      r ← blacklist_add_domain s (fst (mem n)) (snd (mem n)) bl; add_domains mem l (snd r)
  end.
Definition load_dns_servers (mem : nat -> bool * bool) (bl : blacklist) : option blacklist :=
  bl ← add_ips dns_server_ips bl;
  add_domains mem dns_server_domains bl.

(** The preferences [run_vpn] reads, and its set up.  A NULL list is dereferenced
    by the first addition. *)
Record vpn_prefs := VpnPrefs {
    vp_quic : block_quic_mode_t;
    vp_ipv4_enabled : bool; vp_ipv4_dns : Z; vp_ipv4_internal : Z;
    vp_ipv6_enabled : bool; vp_ipv6_dns : list Z }.
Context `{PdEnv}.
Definition vpn_start (prefs : vpn_prefs) : M pcapdroid unit :=
  c ← ask a_mem;
  t ← ask a_mem;
  bl ← liftO (blacklist_init c t);
  pd ← getS;
  modifyS (fun pd => pd <| calls ::= Nat.add 24 |>) ;;
  bl ← liftO (load_dns_servers
    (fun n => (a_mem (sys (calls pd + 2 * n)), a_mem (sys (calls pd + 2 * n + 1)))) bl);
  modifyS (fun pd => pd <| vpn := Vpn (vp_quic prefs) (Some bl) (vp_ipv4_enabled prefs)
      (vp_ipv4_dns prefs) (vp_ipv4_internal prefs) (vp_ipv6_enabled prefs) (vp_ipv6_dns prefs) |>
                        <| new_dns_server := 0 |>) ;;
  pd_refresh_time.
End servers.
End PdVpn.
