(* ===== verification/PdJni.v ===== *)
(** * The entry points of the Java side (core/jni_impl.c) and the start of a
      capture (core/pcapdroid.c)

    The functions Java threads call while the packet loop runs: each one is a
    step between two steps of the loop.  [global_pd] is not NULL then. *)

From S2P Require Import Prelude CString UtHash ZdtunTypes ZdtunConn PortMap PcapDump PdTypes PdCheck PdNotify PdConn PdProcess PdHouse.

Module PdJni.
Export PdHouse.
#[local] Existing Instance PcapDump.pcap_dumper_eta.

Definition MAX_HOST_LRU_SIZE : Z := 256.
Definition PCAPD_SNAPLEN : Z := 65535.
Definition VPN_BUFFER_SIZE : Z := 32768.
Definition PERIODIC_PURGE_TIMEOUT_MS : Z := 5000.

(** ** The globals *)

Definition stopPacketLoop : M pcapdroid unit := modifyS (fun pd => pd <| running := false |>).
Definition askStatsDump : M pcapdroid unit :=
  pd ← getS; whenM (running pd) (modifyS (fun pd => pd <| dump_capture_stats_now := true |>)).
Definition reloadBlacklists : M pcapdroid unit :=
  modifyS (fun pd => pd <| reload_blacklists_now := true |>).
Definition setPrivateDnsBlocked (b : bool) : M pcapdroid unit :=
  modifyS (fun pd => pd <| block_private_dns := b |>).
Definition nativeSetFirewallEnabled (b : bool) : M pcapdroid unit :=
  set_firewall (fun f => f <| fw_enabled := b |>).
Definition getNumCheckedMalwareConnections : M pcapdroid Z :=
  pd ← getS; mret (bl_num_checked_connections pd).
Definition getNumCheckedFirewallConnections : M pcapdroid Z :=
  pd ← getS; mret (fw_num_checked_connections pd).

(** Any other number behaves as the full mode: the code compares with the first two. *)
Definition payload_mode_of (mode : Z) : payload_mode_t :=
  if mode =? 0 then PAYLOAD_MODE_NONE
  else if mode =? 1 then PAYLOAD_MODE_MINIMAL else PAYLOAD_MODE_FULL.
Definition setPayloadMode (mode : Z) : M pcapdroid unit :=
  modifyS (fun pd => pd <| payload_mode := payload_mode_of mode |>).

(** [inet_aton]: the address as it is stored in memory. *)
Definition setDnsServer (inet_aton : cstr -> option Z) (server : cstr) : M pcapdroid unit :=
  match inet_aton server with
  | Some a => modifyS (fun pd => pd <| new_dns_server := a |>)
  | None => mret tt
  end.

Section lists.
Context `{PdEnv} `{InetPton}.

(** ** The lists of the user *)

(** The fields of a list descriptor: applications, hosts and addresses. *)
Record list_descr := ListDescr {
    ld_apps : list (option cstr); ld_hosts : list (option cstr); ld_ips : list (option cstr) }.

(** [blacklist_init], then [blacklist_load_list_descriptor]; the list is destroyed
    when loading fails. *)
Definition new_list (d : list_descr) : M pcapdroid (option blacklist) :=
  c ← ask a_mem;
  t ← ask a_mem;
  match blacklist_init c t with
  | None => mret None
  | Some bl =>
      mem ← file_mem (length (ld_apps d) + length (ld_hosts d) + length (ld_ips d));
      r ← liftO (blacklist_load_list_descriptor (ld_apps d) (ld_hosts d) (ld_ips d) mem bl);
      mret (if fst r <? 0 then None else Some (snd r))
  end.

(** The common end of the four functions below. *)
Definition store_list (d : list_descr) (store : blacklist -> M pcapdroid unit) : M pcapdroid bool :=
  l ← new_list d;
  match l with
  | None => mret false
  | Some bl => store bl ;; mret true
  end.

Definition reloadBlocklist (d : list_descr) : M pcapdroid bool :=
  pd ← getS;
  if negb (vpn_capture pd) then mret false else
  if bool_decide (is_Some (fw_new_bl (firewall pd))) then mret false else
  store_list d (fun bl => set_firewall (fun f => f <| fw_new_bl := Some bl |>)).

Definition reloadFirewallWhitelist (whitelist : option list_descr) : M pcapdroid bool :=
  pd ← getS;
  if negb (vpn_capture pd) then mret false else
  if bool_decide (is_Some (fw_new_wl (firewall pd))) then mret false else
  match whitelist with
  | None => set_firewall (fun f => f <| wl_enabled := false |>) ;; mret true
  | Some d => store_list d (fun wl =>
      set_firewall (fun f => f <| fw_new_wl := Some wl |> <| wl_enabled := true |>))
  end.

Definition reloadMalwareWhitelist (d : list_descr) : M pcapdroid bool :=
  pd ← getS;
  if negb (md_enabled (malware_detection pd)) then mret false else
  if bool_decide (is_Some (md_new_wl (malware_detection pd))) then mret false else
  store_list d (fun wl => set_malware (fun m => m <| md_new_wl := Some wl |>)).

Definition reloadDecryptionList (d : list_descr) : M pcapdroid bool :=
  pd ← getS;
  if negb (tls_enabled (tls_decryption pd)) then mret false else
  if bool_decide (is_Some (tls_new_list (tls_decryption pd))) then mret false else
  store_list d (fun l => modifyS (fun pd =>
    pd <| tls_decryption ::= fun t => t <| tls_new_list := Some l |> |>)).

(** [garbage] is what the uninitialised [ip] holds. *)
Definition addPortMapping (garbage : zdtun_ip) (proto orig redirect : Z) (redirect_ip : cstr)
    (realloc_ok : bool) : M PortMap.mappings_t bool :=
  let (ver, ip) := zdtun_parse_ip redirect_ip garbage in
  if ver <? 0 then mret false
  else PortMap.pd_add_port_map ver proto orig redirect ip realloc_ok.

(** ** The dump *)

(** [None] is a null array. *)
Definition getPcapHeader (device os appver : list Z) : M pcapdroid (option (list Z)) :=
  pd ← getS;
  match dumper pd with
  | None => mret None
  | Some d =>
      hdr ← liftO (PcapDump.pcap_get_preamble dump_malloc device os appver d);
      match hdr with
      | None => mret None
      | Some hdr => ok ← ask a_ok; ok' ← ask a_ok; mret (if ok && ok' then Some hdr else None)
      end
  end.

Definition dumpMasterSecret (secret : list Z) : M pcapdroid unit :=
  pd ← getS;
  match dumper pd with
  | None => mret tt
  | Some d =>
      r ← liftO (PcapDump.pcap_dump_secret dump_malloc secret d);
      modifyS (fun pd => pd <| dumper := Some (snd r) |>)
  end.

(** [strncpy] into an array of 32 characters: zero padded, not terminated when the
    string has 32 or more. *)
Definition strncpy32 (s : cstr) : list Z := take 32 (s ++ replicate 32 0).
Definition getSocks5ProxyAuth (pref : cstr) : option (list Z * list Z) :=
  let buf := take 63 pref in
  match strchr buf 58 with
  | None => None
  | Some i => Some (strncpy32 (take i buf), strncpy32 (drop (S i) buf))
  end.

(** ** The start of [pd_run] *)

(** The structure [runPacketLoop] fills, and the globals a previous run may have
    left set. *)
Record pd_config := Config {
    cf_vpn_capture : bool; cf_payload_mode : payload_mode_t; cf_max_pkts : Z; cf_socks5 : bool;
    cf_malware : bool; cf_bls_info : list bl_info; cf_firewall : bool; cf_tls : bool;
    cf_block_private_dns : bool; cf_reload_now : bool; cf_stats_now : bool; cf_dns_server : Z }.
Definition pcapdroid_init (cf : pd_config) : pcapdroid :=
  Pd ∅ 1 0 0 (IpLruT 0 []) conn_array_zero conn_array_zero [] (cf_vpn_capture cf)
    (cf_payload_mode cf) 0 0 0 0 (CStats 0 0 0 0 0 0 false 0) zstats_zero None (cf_max_pkts cf)
    (cf_socks5 cf) (Malware (cf_malware cf) None None false false None None None (cf_bls_info cf))
    (Firewall (cf_firewall cf) None None false None None) (Tls (cf_tls cf) None None)
    (Vpn BLOCK_QUIC_MODE_NEVER None false 0 0 false []) 0 0 0 (cf_dns_server cf)
    (cf_block_private_dns cf) (cf_stats_now cf) (cf_reload_now cf) 0 0 false 0 [].

Record pd_prefs := Prefs {
    pcap_enabled : bool; trailer_enabled : bool; pcapng_format : bool;
    pref_snaplen : Z; pref_max_dump_size : Z }.

Definition dump_mode (prefs : pd_prefs) : PcapDump.pcap_dump_mode_t :=
  if pcapng_format prefs then PcapDump.PCAPNG_DUMP
  else if trailer_enabled prefs then PcapDump.PCAP_DUMP_WITH_TRAILER else PcapDump.PCAP_DUMP.
Definition dump_snaplen (vpn : bool) (prefs : pd_prefs) : Z :=
  let max_snaplen := if negb vpn then PCAPD_SNAPLEN else VPN_BUFFER_SIZE in
  if (pref_snaplen prefs <=? 0) || (max_snaplen <? pref_snaplen prefs)
  then max_snaplen else pref_snaplen prefs.

Definition start_dumper (prefs : pd_prefs) : M pcapdroid unit :=
  whenM (pcap_enabled prefs)
    (pd ← getS;
     alloc ← ask a_mem;
     mutex ← ask a_ok;
     match PcapDump.pcap_new_dumper dump_malloc (dump_mode prefs) (dump_snaplen (vpn_capture pd) prefs)
             (u64 (pref_max_dump_size prefs)) true (now_ms pd) alloc mutex with
     | Some d => modifyS (fun pd => pd <| dumper := Some d |>)
     | None => modifyS (fun pd => pd <| running := false |>)
     end).

(** Loading the lists before the loop, in the same thread. *)
Definition start_malware : M pcapdroid unit :=
  pd ← getS;
  whenM (md_enabled (malware_detection pd) && reload_blacklists_now pd)
    (modifyS (fun pd => pd <| reload_blacklists_now := false |>) ;;
     load_new_blacklists ;; use_new_blacklists).

(** The result is that of the initialisation of nDPI.  [ip_lru_init] is not tested:
    its failure is undefined here, where the code waits for the first use. *)
Definition pd_start (prefs : pd_prefs) : M pcapdroid bool :=
  modifyS (fun pd => pd <| running := true |> <| netd_resolve_waiting := 0 |>) ;;
  ndpi ← ask a_ok;
  if negb ndpi then mret false else
  mem ← ask a_mem;
  lru ← liftO (ip_lru_init mem MAX_HOST_LRU_SIZE);
  modifyS (fun pd => pd <| ip_to_host := lru |>) ;;
  start_malware ;;
  start_dumper prefs ;;
  modifyS (fun pd => pd <| tun_stats := zstats_zero |>) ;;
  pd_refresh_time ;;
  modifyS (fun pd => pd <| last_connections_dump := now_ms pd |>
                        <| next_connections_dump := u64 (now_ms pd + 500) |>
                        <| bl_num_checked_connections := 0 |>
                        <| fw_num_checked_connections := 0 |>) ;;
  mret true.

End lists.
End PdJni.
