(* ===== verification/PdFrame.v ===== *)
(** * What an operation on a connection leaves alone

    Most operations change a connection without touching its ownership: the
    notification arrays, the set of live connections and the two flags
    [pending_notification] and [to_purge].  [keeps] says so of a program and
    composes along the sequence, the branches and the loops. *)

From S2P Require Import Prelude CString UtHash ZdtunTypes Ptree PcapSafe PdTypes PdCheck PdNotify PdConn PdProcess PdHouse.

Module PdFrame.
Export PdHouse.

(** ** The ownership of the connections, and the configuration *)

Definition own (c : pd_conn) : bool * bool := (pending_notification c, to_purge c).
Definition shape (pd : pcapdroid) : gmap Z (bool * bool) * conn_array * conn_array * Z :=
  (own <$> conns pd, new_conns pd, conns_updates pd, next_conn pd).
Definition config (pd : pcapdroid) : malware_t * firewall_t * tls_t * vpn_t :=
  (malware_detection pd, firewall pd, tls_decryption pd, vpn pd).

(** A packet as [zdtun_parse_pkt] leaves it, in a buffer with the slack that
    [process_dns_reply] needs. *)
Record pkt_fine (pkt : zdtun_pkt) : Prop := {
    pf_bytes : bytes_ok (pkt_mem pkt);
    pf_l7 : 0 <= pkt_l7 pkt;
    pf_end : pkt_l7 pkt + pkt_l7_len pkt + 16 <= Z.of_nat (length (pkt_mem pkt));
    pf_len : 0 <= pkt_len pkt <= 65535 /\ pkt_len pkt <= Z.of_nat (length (pkt_mem pkt));
    pf_mem : 1 <= Z.of_nat (length (pkt_mem pkt));
    pf_tuple : ip_ok (dst_ip (pkt_tuple pkt));
  }.

(** What the code relies on in a connection: one blacklisted by its domain has a
    name, which [check_blacklisted_conn_cb] reads without a test; the context of
    a packet being forwarded is a context of this connection. *)
Definition px_fine (p : Z) (px : pkt_context) : Prop :=
  px_data px = p /\ pkt_fine (px_pkt px) /\ ip_ok (dst_ip (px_tuple px)).
(** A capture loop that frees a connection without an update is sure that the
    connection does not wait in an array: a pending connection of the loop has an
    update. *)
Class Told := told : Z -> Prop.
Definition told_none : Told := fun _ => False.

Record named {T : Told} (p : Z) (c : pd_conn) : Prop := {
    nm_info : blacklisted_domain c = true -> is_Some (info c);
    nm_pctx : forall px, fw_pctx c = Some px -> px_fine p px;
    nm_told : told p -> pending_notification c = true -> update_type c <> 0;
  }.
Definition named_at {T : Told} (p : Z) (pd : pcapdroid) : Prop := forall c, conns pd !! p = Some c -> named p c.

(** The connection has something to tell. *)
Definition busy (p : Z) (pd : pcapdroid) : Prop :=
  forall c, conns pd !! p = Some c -> update_type c <> 0.

Record same {T : Told} (pd pd' : pcapdroid) : Prop := {
    same_shape : shape pd' = shape pd;
    same_config : config pd' = config pd;
    same_dumper : dumper pd' = dumper pd;
    same_named : forall p, named_at p pd -> named_at p pd';
    same_busy : forall p, busy p pd -> busy p pd';
  }.

Section same.
Context {T : Told}.
Lemma same_refl pd : same pd pd.
Proof. done. Qed.
Lemma same_trans pd1 pd2 pd3 : same pd1 pd2 -> same pd2 pd3 -> same pd1 pd3.
Proof. intros [] []. split; [by etrans..|auto|auto]. Qed.
End same.
#[export] Instance same_preorder {T : Told} : PreOrder same.
Proof. split; [exact same_refl|exact same_trans]. Qed.

(** ** Lists that can be searched *)

Definition list_ok (bl : option blacklist) : Prop :=
  forall l, bl = Some l -> exists rules, bl_ok rules l.
Record lists_ok (pd : pcapdroid) : Prop := {
    lk_bl : list_ok (md_bl (malware_detection pd));
    lk_whitelist : list_ok (md_whitelist (malware_detection pd));
    lk_fw_bl : list_ok (fw_bl (firewall pd));
    lk_fw_wl : list_ok (fw_wl (firewall pd));
    lk_tls : list_ok (tls_list (tls_decryption pd));
    lk_new_bl : list_ok (md_new_bl (malware_detection pd));
    lk_new_wl : list_ok (md_new_wl (malware_detection pd));
    lk_fw_new_bl : list_ok (fw_new_bl (firewall pd));
    lk_fw_new_wl : list_ok (fw_new_wl (firewall pd));
    lk_tls_new : list_ok (tls_new_list (tls_decryption pd));
    lk_status : is_Some (md_new_bl (malware_detection pd)) ->
      exists st, status_arr (malware_detection pd) = Some st /\ is_Some (status_items st);
    lk_dns : is_Some (known_dns_servers (vpn pd)) /\ list_ok (known_dns_servers (vpn pd));
  }.

Lemma lists_ok_config pd pd' : config pd' = config pd -> lists_ok pd -> lists_ok pd'.
Proof. intros [= H1 H2 H3 H4] []. split; by rewrite ?H1, ?H2, ?H3, ?H4. Qed.
Lemma lists_ok_same {T : Told} pd pd' : same pd pd' -> lists_ok pd -> lists_ok pd'.
Proof. intros []. by apply lists_ok_config. Qed.

Definition live (ps : list Z) (pd : pcapdroid) : Prop :=
  lists_ok pd /\ Forall (fun p => is_Some (conns pd !! p)) ps.

Lemma same_dom {T : Told} pd pd' p : same pd pd' -> is_Some (conns pd' !! p) <-> is_Some (conns pd !! p).
Proof.
  intros [[= E _ _ _] _ _ _ _]. apply (f_equal (lookup p)) in E. rewrite !lookup_fmap in E.
  destruct (conns pd' !! p), (conns pd !! p); simpl in E; (done || split; eauto).
Qed.

Lemma live_same {T : Told} ps pd pd' : same pd pd' -> live ps pd -> live ps pd'.
Proof.
  intros Hs [Hl Hp]. split; [by eapply lists_ok_same|].
  eapply Forall_impl; [exact Hp|]. intros p. apply same_dom, Hs.
Qed.

(** ** Programs that keep the ownership *)

Section keeps.
Context {T : Told} (ps : list Z).

Definition keeps {A} (m : M pcapdroid A) : Prop :=
  forall pd, live ps pd -> wp m (fun _ pd' => same pd pd') pd.

Lemma keeps_ret {A} (a : A) : keeps (mret a).
Proof. intros pd _. by wp_run. Qed.
Lemma keeps_lift {A} (o : option A) : is_Some o -> keeps (liftO o).
Proof. intros [a ->] pd _. by eapply wp_lift. Qed.
Lemma keeps_modify g : (forall pd, same pd (g pd)) -> keeps (modifyS g).
Proof. intros Hg pd _. by wp_run. Qed.

Lemma keeps_bind {A B} (m : M pcapdroid A) (f : A -> M pcapdroid B) :
  keeps m -> (forall a, keeps (f a)) -> keeps (m ≫= f).
Proof.
  intros Hm Hf pd Hl. wp_step. eapply wp_mono; [by apply Hm|]. intros a pd1 H1.
  eapply wp_mono; [apply Hf, (live_same ps pd); done|]. intros b pd2 H2. exact (same_trans _ _ _ H1 H2).
Qed.

(** The value read is the state the rest runs from. *)
Lemma keeps_get {B} (f : pcapdroid -> M pcapdroid B) :
  (forall pd, live ps pd -> keeps (f pd)) -> keeps (getS ≫= f).
Proof. intros Hf pd Hl. wp_step. wp_step. by apply Hf. Qed.

Lemma keeps_lift_bind {A B} (o : option A) (f : A -> M pcapdroid B) :
  is_Some o -> (forall a, o = Some a -> keeps (f a)) -> keeps (liftO o ≫= f).
Proof. intros [a Ha] Hf pd Hl. wp_step. eapply wp_lift; [exact Ha|]. by apply Hf. Qed.

Lemma keeps_assoc {A B C} (m : M pcapdroid A) (f : A -> M pcapdroid B) (g : B -> M pcapdroid C) :
  keeps (m ≫= (fun a => f a ≫= g)) -> keeps ((m ≫= f) ≫= g).
Proof. intros H pd Hl. specialize (H pd Hl). unfold wp in *. by rewrite bind_assoc. Qed.

Lemma keeps_conn p : p ∈ ps -> keeps (conn p).
Proof.
  intros Hp pd [Hl Hall]. unfold conn. wp_run. rewrite Forall_forall in Hall.
  destruct (Hall p Hp) as [c Hc]. by eapply wp_lift.
Qed.

Lemma keeps_when b (m : M pcapdroid unit) : (b = true -> keeps m) -> keeps (whenM b m).
Proof. destruct b; [by auto|]. intros _. apply keeps_ret. Qed.

Lemma keeps_for {A} (l : list A) (f : A -> M pcapdroid unit) :
  Forall (fun a => keeps (f a)) l -> keeps (forM l f).
Proof.
  induction 1 as [|a l Ha Hl IH]; [apply keeps_ret|]. by apply keeps_bind.
Qed.

(** What an assignment keeps of a connection. *)
Definition milder (p : Z) (c c' : pd_conn) : Prop :=
  (named p c -> named p c') /\ (update_type c <> 0 -> update_type c' <> 0).

Lemma same_set pd p c c' :
  conns pd !! p = Some c -> own c' = own c -> milder p c c' ->
  same pd (pd <| conns ::= <[p := c']> |>).
Proof.
  intros Hc Ho [Hn Hu]. split; [|done|done| |].
  - unfold shape. cbn. do 3 f_equal.
    rewrite fmap_insert, Ho, insert_id; [done|]. by rewrite lookup_fmap, Hc.
  - intros q Hq d. cbn. intros [[<- <-]|[Hne Hd]]%lookup_insert_Some; [|by apply Hq].
    apply Hn. by apply Hq.
  - intros q Hq d. cbn. intros [[<- <-]|[Hne Hd]]%lookup_insert_Some; [|by apply Hq].
    apply Hu. by apply Hq.
Qed.

Lemma keeps_set p f :
  p ∈ ps -> (forall c, own (f c) = own c /\ milder p c (f c)) -> keeps (set_conn p f).
Proof.
  intros Hp Hf pd [Hl Hall]. unfold set_conn, conn. wp_run. rewrite Forall_forall in Hall.
  destruct (Hall p Hp) as [c Hc]. eapply wp_lift; [exact Hc|]. wp_run. apply same_set with c; [done|apply Hf..].
Qed.
End keeps.

Lemma live_conn ps p pd : live ps pd -> p ∈ ps -> is_Some (conns pd !! p).
Proof. intros [_ Hp]. rewrite Forall_forall in Hp. apply Hp. Qed.

Lemma wp_keeps {T : Told} {A} ps (m : M pcapdroid A) (Q : A -> pcapdroid -> Prop) pd :
  keeps ps m -> live ps pd -> (forall a pd', same pd pd' -> Q a pd') -> wp m Q pd.
Proof. intros Hm Hl HQ. eapply wp_mono; [by apply Hm|]. auto. Qed.

(** Accesses to a connection that is there. *)
Lemma wp_conn_at p c (Q : pd_conn -> pcapdroid -> Prop) pd :
  conns pd !! p = Some c -> Q c pd -> wp (conn p) Q pd.
Proof. intros Hc HQ. unfold conn. wp_run. by eapply wp_lift. Qed.
Lemma wp_set_at p c f (Q : unit -> pcapdroid -> Prop) pd :
  conns pd !! p = Some c -> Q tt (pd <| conns ::= <[p := f c]> |>) -> wp (set_conn p f) Q pd.
Proof. intros Hc HQ. unfold set_conn. wp_step. eapply wp_conn_at; [done|]. by wp_run. Qed.

(** A first part proved by hand. *)
Lemma keeps_rest {T : Told} {A B} ps (m : M pcapdroid A) (f : A -> M pcapdroid B) pd :
  live ps pd -> wp m (fun _ => same pd) pd -> (forall a, keeps ps (f a)) ->
  wp (m ≫= f) (fun _ => same pd) pd.
Proof.
  intros Hl Hm Hf. wp_step. eapply wp_mono; [exact Hm|]. intros a pd1 H1.
  eapply wp_keeps; [apply Hf|by apply (live_same ps pd)|]. intros b pd2 H2. by apply (same_trans pd pd1).
Qed.

Lemma keeps_weaken {T : Told} {A} ps ps' (m : M pcapdroid A) : ps ⊆ ps' -> keeps ps m -> keeps ps' m.
Proof.
  intros Hsub Hm pd [Hl Hp]. apply Hm. split; [done|]. rewrite Forall_forall in *. auto.
Qed.

Lemma lor_ne_0 a b : a <> 0 -> a .| b <> 0.
Proof. intros Ha [E _]%Z.lor_eq_0_iff. done. Qed.

(** A field that [named] does not read was assigned, the name, or an update added. *)
Ltac keep_update H :=
  let H' := fresh in
  first [ exact H | intros H'; apply lor_ne_0; exact (H H')
        | repeat case_match; first [exact H | intros H'; apply lor_ne_0; exact (H H')] ].
Ltac keep_named :=
  let H1 := fresh in let H2 := fresh in let H3 := fresh in let Ht := fresh in
  split;
  [ intros [H1 H2 H3]; split;
    [ first [exact H1 | intros _; eexists; reflexivity | intros ?; discriminate
            | repeat case_match; exact H1]
    | first [exact H2 | intros ?; discriminate | repeat case_match; exact H2]
    | first [exact H3 | intros ? ?; discriminate | intros Ht; specialize (H3 Ht); keep_update H3] ]
  | let H4 := fresh in intros H4;
    first [exact H4 | apply lor_ne_0; exact H4
          | repeat case_match; first [exact H4 | apply lor_ne_0; exact H4]] ].

(** One step of the proof that a program keeps the ownership. *)
Create HintDb keep.
Ltac keep_step :=
  lazymatch goal with
  | |- keeps _ (let _ := _ in _) => cbv zeta
  | |- keeps _ (mbind _ getS) => apply keeps_get; intros ? ?
  | |- keeps _ (mbind _ (liftO _)) => apply keeps_lift_bind; [|intros ? ?]
  | |- keeps _ (mbind _ (mbind _ _)) => apply keeps_assoc
  | |- keeps _ (mbind _ _) => apply keeps_bind; [|intros ?]
  | |- keeps _ (mret _) => apply keeps_ret
  | |- keeps _ (liftO _) => apply keeps_lift
  | |- keeps _ (modifyS _) => apply keeps_modify; intros ?; split; done
  | |- keeps _ (conn _) => apply keeps_conn
  | |- keeps _ (set_conn _ _) => apply keeps_set; [|intros ?; split; [first [reflexivity | by repeat case_match]|keep_named]]
  | |- keeps _ (whenM _ _) => apply keeps_when; intros ?
  | |- keeps _ (match ?x with _ => _ end) => destruct x eqn:?
  | |- _ ∈ _ => first [assumption | set_solver]
  end.
Ltac keep := repeat first [ solve [eauto with keep] | keep_step ].

(** A list of the configuration can be searched. *)
Ltac listed :=
  match goal with
  | H : live _ _ |- list_ok _ =>
      destruct H as [[] _];
      first [assumption | match goal with E : ?x = Some _ |- _ => rewrite <-E; assumption end]
  end.

Section ops.
Context `{PdEnv} {T : Told}.

Lemma keeps_ask ps {A} (f : answer -> A) : keeps ps (ask f).
Proof. unfold ask. keep. Qed.
Hint Resolve keeps_ask : keep.

Lemma keeps_appname ps u : keeps ps (get_appname_by_uid u).
Proof. unfold get_appname_by_uid. keep. Qed.
Hint Resolve keeps_appname : keep.

Lemma wp_ask {A} (f : answer -> A) (Q : A -> pcapdroid -> Prop) pd :
  Q (f (sys (calls pd))) (pd <| calls ::= S |>) -> wp (ask f) Q pd.
Proof. intros HQ. unfold ask. by wp_run. Qed.

Lemma wp_appname u (Q : cstr -> pcapdroid -> Prop) pd :
  (forall n pd', same pd pd' -> conns pd' = conns pd -> Q n pd') -> wp (get_appname_by_uid u) Q pd.
Proof.
  intros HQ. unfold get_appname_by_uid. wp_run. destruct (HASH_FIND _ _); [wp_run; by apply HQ|].
  wp_step. apply wp_ask. destruct (a_mem _); cbn [negb]; [|wp_run; by apply HQ].
  wp_step. apply wp_ask. wp_run. by apply HQ.
Qed.

Lemma match_ip_ok bl rules tuple :
  bl_ok rules bl -> ip_ok (dst_ip tuple) -> is_Some (blacklist_match_ip bl (dst_ip tuple) (ipver tuple)).
Proof.
  intros Hbl [Hlen Hb]. rewrite (match_ip_rep rules); [by eexists|done|].
  unfold match_addr, Ptree.ip_addr_ok, Patricia.Patricia.addr_ok. case_match.
  - rewrite length_app, length_le_bytes, length_replicate. split; [lia|]. solve_bytes.
  - split; [lia|done].
Qed.

Section conn.
Context (tuple : zdtun_5tuple) (Htuple : ip_ok (dst_ip tuple)).
Context (Hproto : forall n, proto_ok (a_proto (sys n))).
Context (Hstrdup : forall n, a_strdup (sys n) = true).

Lemma keeps_ip_in_list ps bl : list_ok bl -> keeps ps (ip_in_list bl tuple).
Proof.
  intros Hbl. unfold ip_in_list. keep. destruct (Hbl _ eq_refl) as [rules Hr].
  by eapply match_ip_ok.
Qed.

Lemma keeps_check_domain ps p : p ∈ ps -> keeps ps (check_blacklisted_domain p).
Proof.
  intros Hp pd Hl. destruct (live_conn ps p pd) as [c Hc]; [done..|].
  unfold check_blacklisted_domain. wp_run. eapply wp_conn_at; [done|]. cbv zeta.
  destruct (info c) as [[|ch d]|] eqn:Hi; [by wp_run| |by wp_run].
  apply (keeps_rest ps); [done| |intros; keep].
  apply wp_when; intros _; [|done]. wp_step. eapply wp_appname. intros _ pd1 Hs Hcs.
  apply wp_when; intros _; [|done]. eapply wp_set_at; [by rewrite Hcs|].
  etrans; [exact Hs|]. apply same_set with c; [by rewrite Hcs|done|].
  split; [|done]. intros [? ? ?]. split; [|done..]. intros _. cbn. rewrite Hi. by eexists.
Qed.

Lemma keeps_whitelist_mode ps p : p ∈ ps -> keeps ps (check_whitelist_mode_block tuple p).
Proof. intros Hp. unfold check_whitelist_mode_block. keep. Qed.
Hint Resolve keeps_check_domain keeps_whitelist_mode : keep.

Lemma keeps_decryption ps p : p ∈ ps -> keeps ps (matches_decryption_whitelist tuple p).
Proof.
  intros Hp. unfold matches_decryption_whitelist. keep. apply keeps_ip_in_list. listed.
Qed.
Hint Resolve keeps_decryption : keep.

Lemma keeps_proxify ps p : p ∈ ps -> keeps ps (should_proxify tuple p).
Proof. intros Hp. unfold should_proxify. keep. Qed.

Lemma keeps_vpn_ndpi ps p : p ∈ ps -> keeps ps (vpn_process_ndpi tuple p).
Proof.
  intros Hp. unfold vpn_process_ndpi, set_blocked_internal. keep.
  match goal with H : live _ _ |- _ => destruct H as [[] _] end. naive_solver.
Qed.
Hint Resolve keeps_vpn_ndpi : keep.

(** ** The end of the detection *)

Lemma keeps_strndup ps s n : keeps ps (pd_strndup s n).
Proof. unfold pd_strndup. keep. Qed.
Hint Resolve keeps_strndup : keep.

Lemma keeps_strndup_bind {B} ps s n (f : option cstr -> M pcapdroid B) :
  (forall s, keeps ps (f (Some s))) -> keeps ps (pd_strndup s n ≫= f).
Proof.
  intros Hf pd Hl. wp_step. unfold pd_strndup. wp_step. apply wp_ask. wp_step.
  rewrite Hstrdup. eapply wp_keeps; [apply Hf|by apply (live_same ps pd)|].
  intros a pd1 H1. by apply (same_trans pd (pd <| calls ::= S |>)).
Qed.

Lemma keeps_found_info ps p proto flow : p ∈ ps -> keeps ps (ndpi_found_info p proto flow).
Proof. intros Hp. unfold ndpi_found_info, process_alpn, process_url, or_update. keep. Qed.

Lemma keeps_set_found ps p s : p ∈ ps -> keeps ps (set_found_info p s).
Proof.
  intros Hp. unfold set_found_info, or_update. keep_step; [keep|]. keep_step.
  apply keeps_strndup_bind. intros. keep.
Qed.
Hint Resolve keeps_found_info keeps_set_found : keep.

Lemma keeps_free_ndpi ps p : p ∈ ps -> keeps ps (conn_free_ndpi p).
Proof. intros Hp. unfold conn_free_ndpi. keep. Qed.
Hint Resolve keeps_free_ndpi : keep.

(** The flow of nDPI is read: it has not been freed. *)
Definition has_flow (p : Z) (pd : pcapdroid) : Prop :=
  exists c f, conns pd !! p = Some c /\ ndpi_flow_of c = Some f.

Lemma wp_process_ndpi ps p pd :
  live ps pd -> p ∈ ps -> has_flow p pd -> wp (process_ndpi_data tuple p) (fun _ => same pd) pd.
Proof.
  intros Hl Hp (c & f & Hc & Hf). unfold process_ndpi_data. wp_run.
  eapply wp_conn_at; [done|]. wp_run.
  assert (Hrest : forall flow, keeps ps
    (found_info ← ndpi_found_info p (l7proto c) flow;
     match found_info with Some s => set_found_info p s | None => mret tt end ;;
     pd ← getS; whenM (vpn_capture pd) (vpn_process_ndpi tuple p))) by (intros; keep).
  case_match; [eapply wp_lift; [done|]|wp_step]; by apply Hrest.
Qed.

Lemma wp_giveup ps p pd :
  live ps pd -> p ∈ ps -> wp (pd_giveup_dpi p tuple) (fun _ => same pd) pd.
Proof.
  intros Hl Hp. unfold pd_giveup_dpi. destruct (live_conn ps p pd) as [c Hc]; [done..|].
  wp_step. eapply wp_conn_at; [done|].
  destruct (ndpi_flow_of c) as [f|] eqn:Hf; [|by wp_run].
  assert (Hrest : forall pd1, same pd pd1 -> has_flow p pd1 ->
    wp (process_ndpi_data tuple p ;; conn_free_ndpi p) (fun _ => same pd) pd1).
  { intros pd1 H1 Hflow. wp_step. eapply wp_mono.
    { apply (wp_process_ndpi ps); [by apply (live_same ps pd)|done|done]. }
    intros [] pd2 H2. eapply wp_keeps; [by apply keeps_free_ndpi| |].
    { apply (live_same ps pd1); [done|]. by apply (live_same ps pd). }
    intros [] pd3 H3. exact (same_trans _ _ _ H1 (same_trans _ _ _ H2 H3)). }
  wp_step. apply wp_when; intros E; [|apply Hrest; [done|by exists c, f]].
  wp_step. unfold ask. wp_run.
  destruct (ndpi2proto_ok (a_proto (sys (calls pd)))) as (proto & Hpr & _); [done|].
  eapply wp_lift; [exact Hpr|]. eapply wp_set_at; [exact Hc|]. apply Hrest.
  - transitivity (pd <| calls ::= S |>); [by split|]. apply same_set with c; [done|done|keep_named].
  - eexists _, _. split; [apply lookup_insert_eq|done].
Qed.

Lemma keeps_giveup ps p : p ∈ ps -> keeps ps (pd_giveup_dpi p tuple).
Proof. intros Hp pd Hl. by apply (wp_giveup ps). Qed.
Hint Resolve keeps_giveup : keep.

(** ** The checks of a new connection *)

Lemma keeps_netd ps p s : p ∈ ps -> s_data s ∈ ps -> keeps ps (netd_resolve p s).
Proof. intros Hp Hs. unfold netd_resolve, netd_resolved. keep. Qed.

Lemma keeps_blacklisted_ip ps p : p ∈ ps -> keeps ps (check_blacklisted_ip tuple p).
Proof.
  intros Hp. unfold check_blacklisted_ip. keep; apply keeps_ip_in_list; listed.
Qed.

Lemma keeps_firewall ps p : p ∈ ps -> keeps ps (check_firewall tuple p).
Proof. intros Hp. unfold check_firewall. keep. apply keeps_ip_in_list; listed. Qed.
Hint Resolve keeps_netd keeps_blacklisted_ip keeps_firewall : keep.

End conn.
End ops.
#[export] Hint Resolve keeps_ask keeps_appname keeps_check_domain keeps_whitelist_mode
  keeps_decryption keeps_proxify keeps_vpn_ndpi keeps_strndup keeps_found_info keeps_set_found
  keeps_free_ndpi keeps_giveup keeps_netd keeps_blacklisted_ip keeps_firewall : keep.
#[export] Hint Extern 1 (_ ∈ _) => set_solver : keep.
End PdFrame.
