(* ===== verification/PdOwn.v ===== *)
(** * Who owns a connection

    The invariant of the two notification arrays: a pending connection is in
    exactly one of them, once, and is live; a connection the forwarding engine
    still uses is live and not to be freed.  When every dump succeeds nothing
    else is live ([tight]). *)

From S2P Require Import Prelude CString UtHash ZdtunTypes PcapSpec PcapSafe PdTypes PdCheck PdNotify PdConn PdFrame.

Module PdOwn.
Export PdFrame.

(** ** The arrays *)

Record arr_rep (a : conn_array) (ss : list conn_and_tuple) : Prop := {
    ar_cur : cur_items a = Z.of_nat (length ss);
    ar_cells : match cells a with
               | None => ss = [] /\ size a = 0
               | Some l => size a = Z.of_nat (length l) /\ 0 < size a /\
                           exists rest, l = (Some <$> ss) ++ rest
               end;
  }.

Lemma arr_rep_zero : arr_rep conn_array_zero [].
Proof. by split. Qed.

Lemma mapM_id_some {A} (l : list A) : mapM id (Some <$> l) = Some l.
Proof. by apply mapM_fmap_Some. Qed.

Lemma arr_rep_slots a ss : arr_rep a ss -> slots a = Some ss.
Proof.
  intros [Hc Hs]. unfold slots. destruct (cells a) as [l|].
  - destruct Hs as (_ & _ & rest & ->). rewrite Hc, length_app, length_fmap.
    rewrite (proj2 (Z.leb_le _ _)) by lia. rewrite Nat2Z.id, take_app_length' by (by rewrite length_fmap).
    apply mapM_id_some.
  - destruct Hs as [-> _]. by rewrite Hc.
Qed.

(** Room is made as in [notif_connection]; then the slot is stored. *)
Definition grow (a : conn_array) : conn_array :=
  if size a <=? cur_items a then
    let size' := if size a =? 0 then 8 else size a * 2 in
    CArr (Some (realloc_cells (cells a) size')) size' (cur_items a)
  else a.

Lemma realloc_cells_app {A} (l rest : list A) n :
  (length l <= n)%nat ->
  exists rest', take n (l ++ rest) = l ++ rest'.
Proof. intros Hl. rewrite take_app_ge by done. by eexists. Qed.

Lemma grow_rep a ss :
  arr_rep a ss -> arr_rep (grow a) ss /\ cur_items (grow a) < size (grow a) /\ is_Some (cells (grow a)).
Proof.
  intros [Hc Hs]. unfold grow. destruct (Z.leb_spec (size a) (cur_items a)) as [Hle|Hgt].
  - set (n := if size a =? 0 then 8 else size a * 2).
    assert (Hn : Z.of_nat (length ss) < n /\ 0 < n /\ Z.of_nat (length (default [] (cells a))) <= n).
    { unfold n. destruct (cells a) as [l|]; simpl.
      - destruct Hs as (Hs & Hp & rest & ->). rewrite length_app, length_fmap in *.
        destruct (Z.eqb_spec (size a) 0); lia.
      - destruct Hs as [-> ->]. simpl. lia. }
    destruct Hn as (Hn1 & Hn2 & Hn3). split_and!; [|cbn; lia|by eexists]. split; [done|]. cbn.
    unfold realloc_cells. rewrite length_app, length_take, length_replicate.
    split_and!; [lia|lia|]. destruct (cells a) as [l|]; simpl in *.
    + destruct Hs as (_ & _ & rest & ->). rewrite take_app_ge by (rewrite length_fmap; lia).
      rewrite <-app_assoc. by eexists.
    + destruct Hs as [-> _]. by eexists.
  - split_and!; [by split|done|]. destruct (cells a); [by eexists|]. destruct Hs as [-> Hs]. simpl in *. lia.
Qed.

Lemma store_rep a ss s :
  arr_rep a ss -> cur_items a < size a ->
  exists a', store_cell a (cur_items a) s = Some a' /\ arr_rep (a' <| cur_items ::= Z.succ |>) (ss ++ [s]).
Proof.
  intros [Hc Hs] Hlt. unfold store_cell. destruct (cells a) as [l|] eqn:E; [|destruct Hs as [-> ?]; simpl in *; lia].
  destruct Hs as (Hsz & Hp & rest & Hl). cbn [mbind option_bind].
  rewrite (proj2 (Z.leb_le _ _)), (proj2 (Z.ltb_lt _ _)) by lia. cbn [andb].
  eexists. split; [done|]. split; [cbn; rewrite length_app; simpl; lia|]. cbn.
  rewrite length_insert. split_and!; [done|done|].
  rewrite Hc, Nat2Z.id, Hl. rewrite Hl, length_app, length_fmap in Hsz.
  destruct rest as [|r rest]; [simpl in *; lia|]. exists rest.
  rewrite insert_app_r_alt by (by rewrite length_fmap). rewrite length_fmap, Nat.sub_diag. simpl.
  by rewrite fmap_app, <-app_assoc.
Qed.

(** ** The invariant *)

Definition own_of (p : Z) (pd : pcapdroid) : option (bool * bool) := own <$> conns pd !! p.
Definition ptrs (news upds : list conn_and_tuple) : list Z := s_data <$> news ++ upds.

Record owned (tight : bool) (active : gset Z) (news upds : list conn_and_tuple) (pd : pcapdroid) : Prop := {
    ow_new : arr_rep (new_conns pd) news;
    ow_upd : arr_rep (conns_updates pd) upds;
    ow_nodup : NoDup (ptrs news upds);
    ow_pend : forall p, p ∈ ptrs news upds -> exists tp, own_of p pd = Some (true, tp);
    ow_active : forall p, p ∈ active -> exists pn, own_of p pd = Some (pn, false);
    ow_fresh : forall p, is_Some (conns pd !! p) -> p < next_conn pd;
    ow_tight : tight = true -> forall p o, own_of p pd = Some o ->
      (o.1 = true -> p ∈ ptrs news upds) /\ (p ∉ active -> o = (true, true));
  }.

Lemma own_of_is_Some p pd o : own_of p pd = Some o -> is_Some (conns pd !! p).
Proof. unfold own_of. destruct (conns pd !! p); [by eexists|done]. Qed.

Lemma own_of_set p c q pd :
  own_of q (pd <| conns ::= <[p := c]> |>) = if decide (q = p) then Some (own c) else own_of q pd.
Proof.
  unfold own_of. cbn. case_decide; subst; [by rewrite lookup_insert_eq|by rewrite lookup_insert_ne].
Qed.

(** Only the [shape] matters. *)
Lemma owned_shape t active news upds pd pd' :
  shape pd' = shape pd -> owned t active news upds pd -> owned t active news upds pd'.
Proof.
  intros Hs [H1 H2 H3 H4 H5 H6 H7]. injection Hs as Hc Hn Hu Hf.
  assert (Ho : forall p, own_of p pd' = own_of p pd).
  { intros p. unfold own_of. by rewrite <-!lookup_fmap, Hc. }
  split; [by rewrite Hn|by rewrite Hu|done|..].
  - intros p Hp. rewrite Ho. auto.
  - intros p Hp. rewrite Ho. auto.
  - intros p Hp. rewrite Hf. apply H6. revert Hp. apply (f_equal (lookup p)) in Hc.
    rewrite !lookup_fmap in Hc. destruct (conns pd !! p), (conns pd' !! p); naive_solver.
  - intros Ht p o. rewrite Ho. auto.
Qed.

Lemma owned_same {T : Told} t active news upds pd pd' :
  same pd pd' -> owned t active news upds pd -> owned t active news upds pd'.
Proof. intros []. by apply owned_shape. Qed.

(** The connections named somewhere are live. *)
Lemma owned_live t active news upds pd :
  owned t active news upds pd -> lists_ok pd ->
  live (elements active ++ ptrs news upds) pd.
Proof.
  intros Ho Hl. split; [done|]. apply Forall_app. split; apply Forall_forall; intros p Hp.
  - apply elem_of_elements in Hp.
    destruct (ow_active _ _ _ _ _ Ho p Hp). by eapply own_of_is_Some.
  - destruct (ow_pend _ _ _ _ _ Ho p Hp). by eapply own_of_is_Some.
Qed.

(** ** The invariant of the capture *)

Record inv {T : Told} (tight : bool) (active : gset Z) (pd : pcapdroid) : Prop := {
    iv_lists : lists_ok pd;
    iv_named : forall p, named_at p pd;
    iv_dumper : forall d, dumper pd = Some d -> PcapSpec.PcapSpec.dumper_ok d;
    iv_owned : exists news upds, owned tight active news upds pd;
  }.

Lemma pd_inv_same {T : Told} t active pd pd' : same pd pd' -> inv t active pd -> inv t active pd'.
Proof.
  intros Hs [Hl Hn Hd (news & upds & Ho)]. split; [by eapply lists_ok_same| | |].
  - intros p. by apply (same_named _ _ Hs).
  - by rewrite (same_dumper _ _ Hs).
  - exists news, upds. by eapply owned_same.
Qed.

Lemma own_of_same {T : Told} p pd pd' : same pd pd' -> own_of p pd' = own_of p pd.
Proof. intros [[= E _ _ _] _ _ _ _]. unfold own_of. by rewrite <-!lookup_fmap, E. Qed.

Lemma inv_live {T : Told} t active pd p : inv t active pd -> is_Some (own_of p pd) -> live [p] pd.
Proof.
  intros [Hl _ _ _] [o Ho]. split; [done|]. apply Forall_singleton. by eapply own_of_is_Some.
Qed.

Lemma inv_keeps {T : Told} {A} t active p (m : M pcapdroid A) (Q : A -> pcapdroid -> Prop) pd :
  inv t active pd -> is_Some (own_of p pd) -> keeps [p] m ->
  (forall a pd', inv t active pd' -> same pd pd' -> Q a pd') -> wp m Q pd.
Proof.
  intros Hi Hp Hm HQ. eapply wp_keeps; [exact Hm|by eapply inv_live|].
  intros a pd' Hs. apply HQ; [by eapply pd_inv_same|done].
Qed.

(** [p] becomes pending: it is the one connection whose ownership changes. *)
Definition own_changes (p : Z) (pd pd' : pcapdroid) : Prop :=
  forall q, q <> p -> own_of q pd' = own_of q pd.

(** Nothing else changes in a connection that is not closed. *)
Definition notified (p : Z) (pd pd' : pcapdroid) : Prop :=
  forall c, conns pd !! p = Some c -> is_closed (pd_status c) = false ->
    conns pd' !! p = Some (c <| pending_notification := true |>).

Section ops.
Context `{PdEnv} {T : Told}.
Context (tuple : zdtun_5tuple) (Htuple : ip_ok (dst_ip tuple)).
Context (Hproto : forall n, proto_ok (a_proto (sys n))).
Context (Hstrdup : forall n, a_strdup (sys n) = true).
Context (Hrealloc : forall n, a_realloc (sys n) = true).

(** The lists after [s] was added to an array. *)
Definition arr_list (a : arr_id) (news upds : list conn_and_tuple) : list conn_and_tuple :=
  match a with NEW_CONNS => news | CONNS_UPDATES => upds end.
Definition enq_new (a : arr_id) (s : conn_and_tuple) (news : list conn_and_tuple) :=
  match a with NEW_CONNS => news ++ [s] | CONNS_UPDATES => news end.
Definition enq_upd (a : arr_id) (s : conn_and_tuple) (upds : list conn_and_tuple) :=
  match a with NEW_CONNS => upds | CONNS_UPDATES => upds ++ [s] end.

Lemma ptrs_enq a s news upds :
  ptrs (enq_new a s news) (enq_upd a s upds) ≡ₚ s_data s :: ptrs news upds.
Proof. unfold ptrs. destruct a; simpl; rewrite !fmap_app; simpl; solve_Permutation. Qed.

Lemma owned_enqueue t active news upds pd a arr p c :
  owned t active news upds pd -> conns pd !! p = Some c -> pending_notification c = false ->
  arr_rep arr (arr_list a news upds ++ [Slot tuple p]) ->
  let pd' := put_arr a arr pd <| conns ::= <[p := c <| pending_notification := true |>]> |> in
  owned t active (enq_new a (Slot tuple p) news) (enq_upd a (Slot tuple p) upds) pd'.
Proof.
  intros [H1 H2 H3 H4 H5 H6 H7] Hc Hp Harr pd'.
  assert (Hnot : p ∉ ptrs news upds).
  { intros Hin. destruct (H4 p Hin) as [tp Ht]. unfold own_of in Ht. rewrite Hc in Ht.
    injection Ht as Ht _. congruence. }
  pose proof (ptrs_enq a (Slot tuple p) news upds) as Hperm. cbn [s_data] in Hperm.
  assert (Hown : forall q, own_of q pd' = if decide (q = p) then Some (true, to_purge c) else own_of q pd).
  { intros q. unfold own_of, pd'. destruct a; cbn; case_decide as Eq; subst;
      by rewrite ?lookup_insert_eq, ?lookup_insert_ne by done. }
  assert (Hold : own_of p pd = Some (false, to_purge c)).
  { unfold own_of. rewrite Hc. unfold own. cbn. by rewrite Hp. }
  split.
  - by destruct a.
  - by destruct a.
  - rewrite Hperm. by constructor.
  - intros q. rewrite Hperm, Hown. intros [->|Hq]%elem_of_cons; [rewrite decide_True by done; eauto|].
    case_decide; [eauto|by apply H4].
  - intros q Hq. rewrite Hown. case_decide as Eq; [|by apply H5]. subst. destruct (H5 p Hq) as [pn Hpn].
    rewrite Hold in Hpn. injection Hpn as _ ->. eauto.
  - intros q. unfold pd'. destruct a; cbn; intros [d [[<- _]|[_ Hd]]%lookup_insert_Some]; eauto.
  - intros Ht q o. rewrite Hown, Hperm. case_decide as Eq.
    + subst q. intros [= <-]. split; [intros _; apply elem_of_cons; by left|]. intros Hq. simpl.
      destruct (H7 Ht p _ Hold) as [_ H8]. by specialize (H8 Hq).
    + intros Ho. destruct (H7 Ht q o Ho) as [Hin Hact]. split; [|done]. intros Hpend.
      apply elem_of_cons. right. auto.
Qed.

(** What [notif_connection] does to the memory, the invariant aside: the end of the
    detection of a closed connection, then a slot unless there is one. *)
Record enqueued (a : arr_id) (p : Z) (ss : list conn_and_tuple) (pd1 pd' : pcapdroid) : Prop := {
    eq_conn : exists c, conns pd1 !! p = Some c /\ pending_notification c = false /\
      conns pd' = <[p := c <| pending_notification := true |>]> (conns pd1);
    eq_arr : arr_rep (arr_of a pd') (ss ++ [Slot tuple p]);
    eq_other : forall b, b <> a -> arr_of b pd' = arr_of b pd1;
    eq_next : next_conn pd' = next_conn pd1;
    eq_config : config pd' = config pd1;
    eq_dumper : dumper pd' = dumper pd1;
  }.

Lemma wp_notif_memory a p ss (Q : Z -> pcapdroid -> Prop) pd c0 :
  live [p] pd -> arr_rep (arr_of a pd) ss -> conns pd !! p = Some c0 ->
  (forall pd1 pd', same pd pd1 -> (is_closed (pd_status c0) = false -> conns pd1 !! p = Some c0) ->
     (pd' = pd1 /\ pending_notification c0 = true \/
      pending_notification c0 = false /\ enqueued a p ss pd1 pd') -> Q 0 pd') ->
  wp (notif_connection a tuple p) Q pd.
Proof.
  intros Hl Harr Hc0 HQ. unfold notif_connection. wp_step. eapply wp_conn_at; [done|]. wp_step.
  apply (wp_mono _ (fun _ pd1 => same pd pd1 /\ (is_closed (pd_status c0) = false -> conns pd1 !! p = Some c0))).
  { destruct (is_closed (pd_status c0)); cbn [whenM]; [|by wp_step].
    eapply wp_keeps; [apply (keeps_giveup tuple Htuple Hproto Hstrdup [p] p); set_solver|exact Hl|].
    intros _ pd1 Hs1. by split. }
  intros [] pd1 (Hs1 & Hsame). specialize (HQ pd1).
  destruct (live_conn [p] p pd1) as [c Hc]; [by apply (live_same _ pd)|set_solver|].
  pose proof (own_of_same p _ _ Hs1) as Ho. unfold own_of in Ho. rewrite Hc, Hc0 in Ho. injection Ho as Hp _.
  rewrite <-Hp in HQ. wp_step. eapply wp_conn_at; [done|].
  destruct (pending_notification c) eqn:Hpend; [wp_step; apply HQ; auto|].
  wp_step. wp_step. cbv zeta.
  assert (Harr1 : arr_rep (arr_of a pd1) ss).
  { pose proof (same_shape _ _ Hs1) as [= _ E1 E2 _]. destruct a; cbn in *; by rewrite ?E1, ?E2. }
  destruct (grow_rep _ _ Harr1) as (Hg & Hlt & Hsome).
  set (pd2 := pd1 <| calls := if size (arr_of a pd1) <=? cur_items (arr_of a pd1)
                              then S (calls pd1) else calls pd1 |>).
  wp_step. apply (wp_eq _ _ _ true (put_arr a (grow (arr_of a pd1)) pd2)).
  { unfold grow, pd2. case_match.
    - unfold ask, mbind, M_bind, getS, modifyS, mret, M_ret. cbn. rewrite Hrealloc. by destruct a.
    - destruct a; by destruct pd1. }
  cbn [negb]. wp_step. wp_step. cbv zeta.
  replace (arr_of a (put_arr a (grow (arr_of a pd1)) pd2)) with (grow (arr_of a pd1)) by (by destruct a).
  destruct (store_rep _ _ (Slot tuple p) Hg Hlt) as (arr' & Hst & Hrep).
  wp_step. eapply wp_lift; [exact Hst|]. wp_step. wp_step. wp_step.
  eapply (wp_set_at _ c); [by destruct a|]. wp_step. apply HQ; [done..|]. right. split; [done|].
  split; [exists c; by destruct a|by destruct a|by destruct a; intros []|by destruct a..].
Qed.

(** The ownership after it. *)
Lemma owned_enqueued t active a p news upds pd1 pd' :
  owned t active news upds pd1 -> enqueued a p (arr_list a news upds) pd1 pd' ->
  owned t active (enq_new a (Slot tuple p) news) (enq_upd a (Slot tuple p) upds) pd'.
Proof.
  intros Ho [(c & Hc & Hp & Hcs) Harr Hother Hnext _ _].
  pose proof (owned_enqueue t active news upds pd1 a (arr_of a pd') p c Ho Hc Hp Harr) as Hen. cbv zeta in Hen.
  eapply owned_shape; [|exact Hen]. unfold shape.
  destruct a; cbn in *; rewrite Hcs, Hnext.
  - by rewrite (Hother CONNS_UPDATES ltac:(done) : conns_updates pd' = conns_updates pd1).
  - by rewrite (Hother NEW_CONNS ltac:(done) : new_conns pd' = new_conns pd1).
Qed.

Lemma enqueued_named a p ss pd1 pd' q :
  enqueued a p ss pd1 pd' -> (q = p -> told p -> busy p pd1) -> named_at q pd1 -> named_at q pd'.
Proof.
  intros [(c & Hc & Hp & Hcs) _ _ _ _ _] Hb Hn d. rewrite Hcs.
  intros [[<- <-]|[_ Hd]]%lookup_insert_Some; [|by apply Hn].
  destruct (Hn c Hc) as [H1 H2 _]. split; [done|done|]. intros Ht _. exact (Hb eq_refl Ht c Hc).
Qed.

Lemma wp_notif t active a p o (Q : Z -> pcapdroid -> Prop) pd :
  inv t active pd -> own_of p pd = Some o -> (told p -> busy p pd) ->
  (forall pd', inv t active pd' -> own_of p pd' = Some (true, o.2) -> own_changes p pd pd' ->
     config pd' = config pd -> notified p pd pd' -> Q 0 pd') ->
  wp (notif_connection a tuple p) Q pd.
Proof.
  intros Hi Ho Hb HQ. destruct (live_conn [p] p pd) as [c0 Hc0]; [by eapply inv_live|set_solver|].
  pose proof Hi as [_ _ _ (news & upds & Hw)].
  apply (wp_notif_memory a p (arr_list a news upds) _ _ c0); [by eapply inv_live|destruct a; apply Hw|done|].
  intros pd1 pd' Hs1 Hsame Hcase. pose proof (pd_inv_same _ _ _ _ Hs1 Hi) as Hi1.
  pose proof (own_of_same p _ _ Hs1) as Ho1. rewrite Ho in Ho1.
  assert (Hoc : o = own c0) by (unfold own_of in Ho; rewrite Hc0 in Ho; by injection Ho).
  destruct Hcase as [[-> Hp]|[Hp He]].
  { apply HQ; [done| |by intros q _; apply own_of_same|by apply same_config|].
    - rewrite Ho1, Hoc. unfold own. by rewrite Hp.
    - intros d Hd Hop. assert (d = c0) as -> by congruence. rewrite (Hsame Hop).
      f_equal. destruct c0. cbn in Hp. by subst. }
  pose proof He as [(c & Hc & Hpc & Hcs) Harr Hother Hnext Hcfg Hdump].
  assert (Hoc' : own c = own c0).
  { unfold own_of in Ho1. rewrite Hc, Hoc in Ho1. change (Some (own c) = Some (own c0)) in Ho1. by apply (inj Some) in Ho1. }
  apply HQ.
  - destruct Hi1 as [Hl1 Hn1 Hd1 _]. split; [by apply (lists_ok_config pd1)| |by rewrite Hdump|].
    + intros q. apply (enqueued_named a p _ pd1 pd' q He); [|done]. intros _ Ht.
      by apply (same_busy _ _ Hs1), Hb.
    + eexists _, _. apply (owned_enqueued t active a p news upds pd1); [|done].
      by apply (owned_same _ _ _ _ pd).
  - unfold own_of. rewrite Hcs, lookup_insert_eq. rewrite Hoc, <-Hoc'. done.
  - intros q Hq. rewrite <-(own_of_same q _ _ Hs1). unfold own_of. by rewrite Hcs, lookup_insert_ne.
  - rewrite Hcfg. by apply same_config.
  - intros d Hd Hop. assert (d = c0) as -> by congruence. specialize (Hsame Hop).
    rewrite Hcs, lookup_insert_eq. do 2 f_equal. congruence.
Qed.
End ops.
End PdOwn.
