(* ===== verification/PdLife.v ===== *)
(** * The life of a connection

    Creation, changes and end of a connection keep the ownership invariant. *)

From S2P Require Import Prelude CString UtHash ZdtunTypes PdTypes PdCheck PdNotify PdConn PdFrame PdOwn.

Module PdLife.
Export PdOwn.

(** ** Steps of the invariant *)

Lemma inv_insert {T : Told} t active pd c :
  inv t active pd -> own c = (false, false) -> named (next_conn pd) c ->
  inv t ({[next_conn pd]} ∪ active)
    (pd <| next_conn ::= Z.succ |> <| conns ::= <[next_conn pd := c]> |>).
Proof.
  intros [Hl Hn Hdf (news & upds & [H1 H2 H3 H4 H5 H6 H7])] Hc Hnc. set (p := next_conn pd).
  assert (Hp : own_of p pd = None).
  { unfold own_of. destruct (conns pd !! p) eqn:E; [|done]. specialize (H6 p ltac:(eauto)). unfold p in H6. lia. }
  match goal with |- inv _ _ ?x => set (pd' := x) end.
  assert (Hown : forall q, own_of q pd' = if decide (q = p) then Some (false, false) else own_of q pd).
  { intros q. unfold own_of, pd'. cbn. case_decide; subst; [by rewrite lookup_insert_eq, <-Hc|].
    by rewrite lookup_insert_ne. }
  split; [by apply (lists_ok_config pd)| |done|exists news, upds; split; [done..| | | |]].
  - intros q d. unfold pd'. cbn. intros [[<- <-]|[_ Hd]]%lookup_insert_Some; [done|by eapply Hn].
  - intros q Hq. rewrite Hown. destruct (H4 q Hq) as [tp Ht]. case_decide; [congruence|eauto].
  - intros q. rewrite Hown. case_decide; [eauto|]. intros Hq. apply H5. set_solver.
  - intros q. unfold pd'. cbn. intros [d [[<- _]|[_ Hd]]%lookup_insert_Some]; [unfold p; lia|].
    specialize (H6 q ltac:(eauto)). lia.
  - intros Ht q o. rewrite Hown. case_decide as E.
    + intros [= <-]. subst q. split; [done|]. set_solver.
    + intros Ho. destruct (H7 Ht q o Ho) as [Ha Hb]. split; [done|]. intros Hq. apply Hb. set_solver.
Qed.

(** A connection that was not announced is freed. *)
Lemma inv_purge {T : Told} t active pd p tp :
  inv t ({[p]} ∪ active) pd -> p ∉ active -> own_of p pd = Some (false, tp) ->
  inv t active (pd <| conns ::= delete p |>).
Proof.
  intros [Hl Hn Hdf (news & upds & [H1 H2 H3 H4 H5 H6 H7])] Hp Ho.
  match goal with |- inv _ _ ?x => set (pd' := x) end.
  assert (Hown : forall q, own_of q pd' = if decide (q = p) then None else own_of q pd).
  { intros q. unfold own_of, pd'. cbn. case_decide; subst; [by rewrite lookup_delete_eq|].
    by rewrite lookup_delete_ne. }
  split; [by apply (lists_ok_config pd)| |done|exists news, upds; split; [done..| | | |]].
  - intros q d. unfold pd'. cbn. intros [_ Hd]%lookup_delete_Some. by eapply Hn.
  - intros q Hq. rewrite Hown. destruct (H4 q Hq) as [tp' Ht]. case_decide; [congruence|eauto].
  - intros q Hq. rewrite Hown. case_decide; [congruence|]. apply H5. set_solver.
  - intros q. unfold pd'. cbn. intros [d [_ Hd]%lookup_delete_Some]. eauto.
  - intros Ht q o. rewrite Hown. case_decide as E; [done|].
    intros Hq. destruct (H7 Ht q o Hq) as [Ha Hb]. split; [done|]. intros. apply Hb. set_solver.
Qed.

(** A pending connection is handed over to the next dump. *)
Lemma owned_retire t active news upds pd p c c' :
  owned t active news upds pd -> conns pd !! p = Some c -> pending_notification c = true ->
  own c' = (true, true) ->
  owned t (active ∖ {[p]}) news upds (pd <| conns ::= <[p := c']> |>).
Proof.
  intros [H1 H2 H3 H4 H5 H6 H7] Hc Hp Hc'.
  assert (Ho : own_of p pd = Some (true, to_purge c)) by (unfold own_of; rewrite Hc; unfold own; cbn; by rewrite Hp).
  split; [done..| | | |].
  - intros q Hq. rewrite own_of_set, Hc'. case_decide; [eauto|by apply H4].
  - intros q Hq. rewrite own_of_set. case_decide; [set_solver|]. apply H5. set_solver.
  - intros q. cbn. intros [d [[<- _]|[_ Hd]]%lookup_insert_Some]; eauto.
  - intros Ht q o. rewrite own_of_set, Hc'. case_decide as E.
    + intros [= <-]. subst q. split; [|done]. intros _. by apply (H7 Ht p _ Ho).
    + intros Hq. destruct (H7 Ht q o Hq) as [Ha Hb]. split; [done|]. intros. apply Hb. set_solver.
Qed.
Lemma inv_retire {T : Told} t active pd p c st :
  inv t active pd -> conns pd !! p = Some c -> pending_notification c = true ->
  inv t (active ∖ {[p]})
    (pd <| conns ::= <[p := c <| pd_status := st |> <| to_purge := true |>]> |>).
Proof.
  intros [Hl Hn Hdf (news & upds & Ho)] Hc Hp. split; [by apply (lists_ok_config pd)| |done|].
  - intros q d. cbn. intros [[<- <-]|[_ Hd]]%lookup_insert_Some; [by destruct (Hn p c Hc)|by eapply Hn].
  - exists news, upds. apply (owned_retire t active _ _ pd p c); [done..|]. unfold own. cbn. by rewrite Hp.
Qed.

Section ops.
Context `{PdEnv} {T : Told}.
Context (tuple : zdtun_5tuple) (Htuple : ip_ok (dst_ip tuple)).
Context (Hproto : forall n, proto_ok (a_proto (sys n))).
Context (Hstrdup : forall n, a_strdup (sys n) = true).
Context (Hrealloc : forall n, a_realloc (sys n) = true).

(** ** A new connection *)

Definition fresh_conn (p : Z) (pd : pcapdroid) : Prop :=
  exists c, conns pd !! p = Some c /\ blacklisted_domain c = false.

Lemma fresh_named p (c c' : pd_conn) :
  blacklisted_domain c = false -> blacklisted_domain c' = blacklisted_domain c ->
  fw_pctx c' = fw_pctx c -> pending_notification c' = pending_notification c ->
  update_type c' = update_type c -> milder p c c'.
Proof.
  intros H1 H2 H3 H4 H5. split; [|by rewrite H5]. intros [_ H6 H7].
  split; [congruence|by rewrite H3|by rewrite H4, H5].
Qed.

Lemma wp_resolve_host t active p pd :
  inv t active pd -> fresh_conn p pd -> wp (resolve_host tuple p) (fun _ => same pd) pd.
Proof.
  intros Hi (c & Hc & Hb). pose proof Hi as [Hl _ _ (news & upds & Ho)].
  set (ps := p :: ptrs news upds).
  assert (Hlive : live ps pd).
  { split; [done|]. constructor; [by eexists|]. eapply Forall_app, (owned_live _ _ _ _ _ Ho Hl). }
  unfold resolve_host. wp_step. wp_step. wp_step. apply wp_ask.
  destruct (ip_lru_find _ _ _) as [host lru]. wp_step. wp_step. wp_step.
  eapply (wp_set_at _ c); [done|].
  match goal with |- wp _ _ ?x => set (pd1 := x) end.
  assert (Hs1 : same pd pd1).
  { transitivity (pd <| calls ::= S |> <| ip_to_host := lru |>); [by split|].
    apply (same_set _ _ c); [done..|]. by apply (fresh_named _ c). }
  destruct host as [h|]; [|by wp_step].
  assert (Hlive1 : live ps pd1) by (by apply (live_same ps pd)).
  apply (wp_mono _ (fun _ => same pd1)); [|intros [] pd2 Hs2; by apply (same_trans pd pd1)].
  wp_step. eapply wp_set_at; [apply lookup_insert_eq|].
  match goal with |- wp _ _ ?x => set (pd2 := x) end.
  assert (Hs2 : same pd1 pd2) by (eapply same_set; [apply lookup_insert_eq|done|keep_named]).
  assert (Hlive2 : live ps pd2) by (by apply (live_same ps pd1)).
  wp_step. eapply wp_conn_at; [apply lookup_insert_eq|].
  eapply (wp_mono _ (fun _ => same pd2)); [|intros [] pd3 Hs3; by apply (same_trans pd1 pd2)].
  apply (keeps_rest ps); [done| |intros _; by apply keeps_check_domain; set_solver].
  apply wp_when; intros _; [|done]. wp_step. wp_step. wp_step. eapply wp_lift.
  { apply (arr_rep_slots _ news). destruct Ho. by unfold pd2, pd1. }
  apply (keeps_for ps); [|done]. apply Forall_forall. intros s Hin. apply keeps_netd; [set_solver|].
  unfold ps, ptrs. rewrite fmap_app. apply elem_of_cons. right. apply elem_of_app. left.
  by apply list_elem_of_fmap_2.
Qed.

Lemma wp_init_connection t active p pd :
  inv t active pd -> fresh_conn p pd -> wp (init_connection tuple p) (fun _ => same pd) pd.
Proof.
  intros Hi (c & Hc & Hb). unfold init_connection. wp_step. wp_step. wp_step.
  eapply wp_conn_at; [done|]. pose proof Hi as [Hl _ _ _].
  assert (Hlive : live [p] pd) by (split; [done|]; apply Forall_singleton; by eexists).
  assert (Hrest : forall pd1, same pd pd1 -> fresh_conn p pd1 ->
    wp (resolve_host tuple p ;; check_blacklisted_ip tuple p ;; check_firewall tuple p ;;
        check_whitelist_mode_block tuple p) (fun _ => same pd) pd1).
  { intros pd1 Hs Hf. eapply wp_mono.
    - apply (keeps_rest [p]); [by apply (live_same _ pd)| |intros _; keep].
      apply (wp_resolve_host t active); [by eapply pd_inv_same|done].
    - intros [] pd2 Hs2. by apply (same_trans pd pd1). }
  wp_step. destruct (md_whitelist _) as [wl|]; [|wp_step; apply Hrest; [done|by exists c]].
  cbv zeta. wp_step. eapply (wp_set_at _ c); [done|].
  match goal with |- wp _ _ ?x => set (pd1 := x) end.
  assert (Hs1 : same pd pd1) by (apply (same_set _ _ c); [done|done|keep_named]).
  assert (Hf1 : fresh_conn p pd1) by (eexists; split; [apply lookup_insert_eq|done]).
  apply wp_when; intros _; [|by apply Hrest]. wp_step. eapply wp_appname. intros _ pd2 Hs2 Hc2. wp_step.
  apply Hrest; [by apply (same_trans pd pd1)|]. unfold fresh_conn. by rewrite Hc2.
Qed.
Lemma wp_new_connection t active u (Q : option Z -> pcapdroid -> Prop) pd :
  inv t active pd -> ~ told (next_conn pd) ->
  (forall pd', inv t active pd' -> config pd' = config pd -> Q None pd') ->
  (forall p pd', p ∉ active -> inv t ({[p]} ∪ active) pd' -> config pd' = config pd ->
     Q (Some p) pd') ->
  wp (pd_new_connection tuple u) Q pd.
Proof.
  intros Hi Hnt HN HS. unfold pd_new_connection. wp_step. apply wp_ask.
  assert (Hi1 : inv t active (pd <| calls ::= S |>)) by (by apply (pd_inv_same t active pd)).
  destruct (a_mem _); cbn [negb]; [|wp_step; by apply HN].
  wp_step. wp_step. cbv zeta. cbn [next_conn]. wp_step. wp_step. wp_step. apply wp_ask.
  set (p := next_conn pd).
  pose proof (inv_insert t active _ pd_conn_zero Hi1 eq_refl ltac:(by split)) as Hi2.
  match type of Hi2 with inv _ _ ?x => set (pd1 := x) in * end.
  change (next_conn (pd <| calls ::= S |>)) with p in *.
  assert (Hnot : p ∉ active).
  { destruct Hi as [_ _ _ (? & ? & [])]. intros Hin. destruct (ow_active0 p Hin) as [? Ho].
    apply own_of_is_Some, ow_fresh0 in Ho. unfold p in Ho. lia. }
  change (set_field next_conn _ _ <| conns ::= <[p := pd_conn_zero]> |>) with pd1.
  assert (Hc1 : conns pd1 !! p = Some pd_conn_zero) by apply lookup_insert_eq.
  destruct (a_mem _); cbn [negb].
  2:{ wp_step. unfold pd_purge_connection, conn_free_ndpi. wp_step. eapply wp_set_at; [exact Hc1|].
      wp_step. wp_step. apply HN; [|done].
      eapply (inv_purge _ _ _ p); [|done|].
      - eapply pd_inv_same; [|exact Hi2]. transitivity (pd1 <| calls ::= S |>); [by split|].
        eapply (same_set _ p pd_conn_zero); [done|done|keep_named].
      - unfold own_of. cbn. by rewrite lookup_insert_eq. }
  wp_step. eapply (wp_set_at _ pd_conn_zero); [exact Hc1|]. wp_step.
  match goal with |- wp _ _ ?x => set (pd2 := x) end.
  assert (Hs2 : same pd1 pd2).
  { transitivity (pd1 <| calls ::= S |>); [by split|]. eapply (same_set _ p pd_conn_zero); [done|done|keep_named]. }
  eapply (wp_notif tuple Htuple Hproto Hstrdup Hrealloc t ({[p]} ∪ active) _ p (false, false)).
  { by apply (pd_inv_same _ _ pd1). }
  { unfold own_of. cbn. by rewrite lookup_insert_eq. }
  { by intros ?%Hnt. }
  intros pd3 Hi3 _ _ Hcf3 Hn3. specialize (Hn3 _ (lookup_insert_eq _ _ _) eq_refl).
  assert (Hcfg : config pd3 = config pd) by (rewrite Hcf3; by apply (same_config pd1)).
  change (0 <? 0) with false. cbv iota. wp_step. wp_step. wp_step. eapply wp_set_at; [exact Hn3|].
  wp_step. wp_step. wp_step.
  match goal with |- wp _ _ ?x => set (pd4 := x) end.
  assert (Hs4 : same pd3 pd4).
  { eapply (same_trans _ (pd3 <| conns ::= <[p := _]> |>)); [|by split].
    eapply (same_set _ p _ _ Hn3); [done|keep_named]. }
  eapply wp_mono.
  { apply (wp_init_connection t ({[p]} ∪ active)); [by apply (pd_inv_same _ _ pd3)|].
    eexists. split; [apply lookup_insert_eq|done]. }
  intros [] pd5 Hs5. wp_step. apply HS; [done| |].
  - by apply (pd_inv_same _ _ pd4), (pd_inv_same _ _ pd3).
  - rewrite <-Hcfg, <-(same_config _ _ Hs4). by apply same_config.
Qed.
(** ** Changes of a connection that the engine uses *)

Lemma inv_active_own t active p pd : inv t active pd -> p ∈ active -> is_Some (own_of p pd).
Proof. intros [_ _ _ (? & ? & Ho)] Hp. destruct (ow_active _ _ _ _ _ Ho p Hp) as [pn ->]. by eexists. Qed.

(** Keeping the invariant, for a program that works on connections in use. *)
Definition safe {A} (t : bool) (active : gset Z) (m : M pcapdroid A) : Prop :=
  forall pd, inv t active pd -> wp m (fun _ pd' => inv t active pd' /\ config pd' = config pd) pd.

Lemma safe_bind {A B} t active (m : M pcapdroid A) (f : A -> M pcapdroid B) :
  safe t active m -> (forall a, safe t active (f a)) -> safe t active (m ≫= f).
Proof.
  intros Hm Hf pd Hi. wp_step. eapply wp_mono; [by apply Hm|]. intros a pd1 [Hi1 Hc1].
  eapply wp_mono; [by apply Hf|]. intros b pd2 [Hi2 Hc2]. split; [done|congruence].
Qed.
Lemma safe_keeps {A} t active p (m : M pcapdroid A) : p ∈ active -> keeps [p] m -> safe t active m.
Proof.
  intros Hp Hm pd Hi. eapply (inv_keeps t active p); [done|by eapply inv_active_own|done|].
  intros a pd' Hi' Hs. split; [done|by apply same_config].
Qed.
Lemma safe_from_keeps {A B} t active p (m : M pcapdroid A) (f : A -> M pcapdroid B) pd :
  inv t active pd -> p ∈ active -> keeps [p] m -> (forall a, safe t active (f a)) ->
  wp (m ≫= f) (fun _ pd' => inv t active pd' /\ config pd' = config pd) pd.
Proof. intros Hi Hp Hm Hf. eapply safe_bind; [by eapply safe_keeps|done|done]. Qed.
Lemma safe_ret {A} t active (a : A) : safe t active (mret a).
Proof. intros pd Hi. by wp_step. Qed.
Lemma safe_get {B} t active (f : pcapdroid -> M pcapdroid B) :
  (forall pd, safe t active (f pd)) -> safe t active (getS ≫= f).
Proof. intros Hf pd Hi. wp_step. wp_step. by apply Hf. Qed.
Lemma safe_when t active b (m : M pcapdroid unit) : safe t active m -> safe t active (whenM b m).
Proof. intros Hm. destruct b; [done|apply safe_ret]. Qed.

(** An update is added, then the connection is put in an array. *)
Lemma wp_update_notif {A} t active p f o (k : Z -> M pcapdroid A) Q pd :
  inv t active pd -> own_of p pd = Some o ->
  (forall c, own (f c) = own c /\ milder p c (f c) /\ update_type (f c) <> 0) ->
  (forall pd', inv t active pd' -> config pd' = config pd -> own_of p pd' = Some (true, o.2) ->
     wp (k 0) Q pd') ->
  wp (set_conn p f ;; rv ← notif_connection CONNS_UPDATES tuple p; k rv) Q pd.
Proof.
  intros Hi Ho Hf Hk. destruct (own_of_is_Some _ _ _ Ho) as [c Hc].
  wp_step. eapply wp_set_at; [exact Hc|]. destruct (Hf c) as (Ho' & Hm & Hu).
  assert (Hs1 : same pd (pd <| conns ::= <[p := f c]> |>)) by (by apply same_set with c).
  wp_step. eapply (wp_notif tuple Htuple Hproto Hstrdup Hrealloc); [by eapply pd_inv_same|by rewrite (own_of_same p _ _ Hs1)| |].
  { intros _ d. cbn. rewrite lookup_insert_eq. by intros [= <-]. }
  intros pd2 Hi2 Ho2 _ Hc2 _. by apply Hk; [|rewrite Hc2|].
Qed.

Lemma or_update_told p bits c :
  0 <> bits -> own (or_update bits c) = own c /\ milder p c (or_update bits c) /\ update_type (or_update bits c) <> 0.
Proof.
  intros Hb. split; [done|]. split; [unfold or_update; keep_named|]. cbn. intros [_ E]%Z.lor_eq_0_iff. done.
Qed.

(** Telling the Java side about a change. *)
Lemma safe_announce_with t active p f :
  p ∈ active -> (forall c, own (f c) = own c /\ milder p c (f c) /\ update_type (f c) <> 0) ->
  safe t active (set_conn p f ;; pd_notify_connection_update tuple p ;; mret tt).
Proof.
  intros Hp Hf pd Hi. unfold pd_notify_connection_update.
  destruct (inv_active_own _ _ _ _ Hi Hp) as [o Ho].
  apply (wp_update_notif t active p f o (fun _ => mret tt)); [done..|]. intros pd' Hi' Hc _. by wp_step.
Qed.
Lemma safe_announce t active p bits :
  p ∈ active -> 0 <> bits ->
  safe t active (set_conn p (or_update bits) ;; pd_notify_connection_update tuple p ;; mret tt).
Proof. intros Hp Hb. apply safe_announce_with; [done|]. intros c. by apply or_update_told. Qed.

Lemma safe_blocked_cb t active p : p ∈ active -> safe t active (check_blocked_conn_cb tuple p).
Proof.
  intros Hp pd Hi. destruct (inv_active_own _ _ _ _ Hi Hp) as [o Ho].
  pose proof (inv_live _ _ _ p Hi ltac:(by eexists)) as Hl.
  destruct (live_conn _ p pd Hl) as [c Hc]; [set_solver|].
  unfold check_blocked_conn_cb. wp_step. wp_step. wp_step. eapply wp_conn_at; [done|]. cbv zeta.
  match goal with |- wp (?m ≫= ?f) _ _ =>
    assert (Hm : keeps [p] m); [|assert (Hf : forall b, safe t active (f b))] end.
  - keep. apply keeps_ip_in_list; [done|listed].
  - intros b. apply safe_bind; [eapply safe_keeps; [exact Hp|keep]|intros _].
    apply safe_bind; [eapply safe_keeps; [exact Hp|keep]|intros _].
    apply safe_bind; [eapply safe_keeps; [exact Hp|keep]|intros c1].
    apply safe_when. by apply safe_announce.
  - by apply (safe_from_keeps t active p).
Qed.

Lemma safe_blacklisted_cb t active p pd :
  inv t active pd -> p ∈ active -> is_Some (md_whitelist (malware_detection pd)) ->
  wp (check_blacklisted_conn_cb tuple p) (fun _ pd' => inv t active pd' /\ config pd' = config pd) pd.
Proof.
  intros Hi Hp [wl Hwl]. destruct (inv_active_own _ _ _ _ Hi Hp) as [o Ho].
  pose proof (inv_live _ _ _ p Hi ltac:(by eexists)) as Hl.
  destruct (live_conn _ p pd Hl) as [c Hc]; [set_solver|].
  destruct (iv_named _ _ _ Hi p c Hc) as [Hnamed _ _].
  unfold check_blacklisted_conn_cb. wp_step. wp_step. wp_step. eapply wp_lift; [exact Hwl|].
  wp_step. eapply wp_conn_at; [exact Hc|]. cbv zeta.
  match goal with |- wp (?m ≫= ?f) _ _ =>
    assert (Hm : keeps [p] m) by keep; assert (Hf : forall b, safe t active (f b));
    [intros _|by apply (safe_from_keeps t active p)] end.
  apply safe_bind; [|intros b1; apply safe_bind; [|intros b2]].
  - eapply safe_keeps; [exact Hp|]. keep. apply keeps_ip_in_list; [done|].
    destruct Hl as [[] _]. by rewrite <-Hwl.
  - eapply safe_keeps; [exact Hp|]. destruct (blacklisted_domain c) eqn:Hb; [|keep].
    apply keeps_bind; [|intros; keep]. keep.
  - apply safe_when, safe_bind; [by apply safe_when, safe_blocked_cb|intros _]. by apply safe_announce.
Qed.

(** ** The end of a connection *)

Lemma wp_connection_closed t active p st pd :
  inv t active pd -> is_Some (own_of p pd) ->
  wp (connection_closed tuple p st)
    (fun _ pd' => inv t (active ∖ {[p]}) pd' /\ config pd' = config pd /\
       own_of p pd' = Some (true, true)) pd.
Proof.
  intros Hi [o Ho]. unfold connection_closed, pd_notify_connection_update.
  apply (wp_update_notif t active p _ o); [done|done|intros; by apply or_update_told|].
  intros pd2 Hi2 Hcf2 Ho2. change (0 <? 0) with false. cbv iota. wp_step.
  eapply (inv_keeps _ _ p); [exact Hi2|by eexists|keep|]. intros _ pd3 Hi3 Hs3.
  pose proof (own_of_same p _ _ Hs3) as Ho3. rewrite Ho2 in Ho3.
  unfold own_of in Ho3. destruct (conns pd3 !! p) as [c|] eqn:Hc; [|done].
  injection Ho3 as Hpn _. eapply wp_set_at; [exact Hc|]. split_and!.
  - by apply inv_retire.
  - transitivity (config pd3); [done|]. by rewrite (same_config _ _ Hs3), Hcf2.
  - unfold own_of. cbn. rewrite lookup_insert_eq. unfold own. cbn. by rewrite Hpn.
Qed.

Lemma safe_conn_status t active p st :
  p ∈ active -> is_closed st = false -> safe t active (update_conn_status p st).
Proof.
  intros Hp Hst. apply (safe_keeps _ _ p); [done|]. unfold update_conn_status. rewrite Hst. keep.
Qed.
End ops.
End PdLife.
