(* ===== verification/PdSend.v ===== *)
(** * The dump of the connections keeps the ownership invariant

    [sendConnectionsDump] clears the pending flags it gets to; [conns_clear]
    then frees the closed connections and empties the arrays. *)

From S2P Require Import Prelude CString UtHash ZdtunTypes PdTypes PdCheck PdNotify PdConn PdFrame PdOwn PdLife.

Module PdSend.
Export PdLife.

Definition unpend (o : bool * bool) : bool * bool := (false, o.2).

(** Everything but the ownership of the connections [ps]. *)
Record rest_same {T : Told} (pd pd' : pcapdroid) : Prop := {
    rs_config : config pd' = config pd;
    rs_new : new_conns pd' = new_conns pd;
    rs_upd : conns_updates pd' = conns_updates pd;
    rs_dumper : dumper pd' = dumper pd;
    rs_next : next_conn pd' = next_conn pd;
    rs_named : forall q, named_at q pd -> named_at q pd';
  }.
Lemma rest_same_trans {T : Told} pd1 pd2 pd3 : rest_same pd1 pd2 -> rest_same pd2 pd3 -> rest_same pd1 pd3.
Proof. intros [] []. split; try (by etrans). auto. Qed.
Lemma rest_same_same {T : Told} pd pd' : same pd pd' -> rest_same pd pd'.
Proof. intros [[= _ H1 H2 H3] Hc Hd Hn _]. by split. Qed.

Definition sent {T : Told} (ps : list Z) (pd pd' : pcapdroid) : Prop :=
  rest_same pd pd' /\
  forall q, own_of q pd' = own_of q pd \/ q ∈ ps /\ own_of q pd' = unpend <$> own_of q pd.
Definition sent_all (ps : list Z) (pd pd' : pcapdroid) : Prop :=
  forall q, q ∈ ps -> own_of q pd' = unpend <$> own_of q pd.

Lemma sent_trans {T : Told} ps1 ps2 pd1 pd2 pd3 :
  sent ps1 pd1 pd2 -> sent ps2 pd2 pd3 -> sent (ps1 ++ ps2) pd1 pd3.
Proof.
  intros [R1 H1] [R2 H2]. split; [by eapply rest_same_trans|]. intros q.
  destruct (H1 q) as [E1|[I1 E1]], (H2 q) as [E2|[I2 E2]]; rewrite E2, ?E1; try set_solver.
  right. split; [set_solver|]. by destruct (own_of q pd1).
Qed.

Lemma sent_live {T : Told} ps pd pd' q : sent ps pd pd' -> is_Some (own_of q pd) -> is_Some (own_of q pd').
Proof. intros [_ H] Hq. destruct (H q) as [->|[_ ->]]; [done|]. by apply fmap_is_Some. Qed.

(** What has been cleared stays so. *)
Lemma sent_all_mono {T : Told} ps ps2 pd1 pd2 pd3 :
  sent_all ps pd1 pd2 -> sent ps2 pd2 pd3 -> sent_all ps pd1 pd3.
Proof.
  intros H1 [_ H2] q Hq. destruct (H2 q) as [->|[_ ->]]; rewrite (H1 q Hq); [done|].
  by destruct (own_of q pd1).
Qed.

Lemma sent_same {T : Told} ps pd pd' : same pd pd' -> sent ps pd pd'.
Proof.
  intros Hs. split; [by apply rest_same_same|]. intros q. left. by apply own_of_same.
Qed.

Lemma sent_unpend {T : Told} pd p c :
  conns pd !! p = Some c ->
  sent [p] pd (pd <| conns ::= <[p := c <| pending_notification := false |>]> |>) /\
  sent_all [p] pd (pd <| conns ::= <[p := c <| pending_notification := false |>]> |>).
Proof.
  intros Hc. assert (Ho : own_of p pd = Some (own c)) by (unfold own_of; by rewrite Hc).
  split; [split; [split; try done|]|].
  - intros q Hq d. cbn. intros [[<- <-]|[_ Hd]]%lookup_insert_Some; [by destruct (Hq c Hc)|by apply Hq].
  - intros q. rewrite own_of_set. case_decide; [|by left]. subst. right. rewrite Ho. set_solver.
  - intros q ->%list_elem_of_singleton. by rewrite own_of_set, decide_True, Ho.
Qed.

(** The connections of [ps] that are to be purged (all of them, with [fa]) are gone. *)
Definition freed (fa : bool) (ps : list Z) (q : Z) (o : option (bool * bool)) : option (bool * bool) :=
  match o with
  | Some (_, tp) => if (tp || fa) && bool_decide (q ∈ ps) then None else o
  | None => None
  end.
Lemma freed_nil fa q o : freed fa [] q o = o.
Proof.
  destruct o as [[a b]|]; [|done]. unfold freed. rewrite bool_decide_eq_false_2 by set_solver.
  by rewrite andb_false_r.
Qed.

Section ops.
Context `{PdEnv} {T : Told}.

Definition jni_ok : Prop := forall n, a_ok (sys n) = true.

(** A connection that waits no longer may lose its update. *)
Lemma sent_cleared p c c' pd :
  conns pd !! p = Some c -> own c' = own c -> pending_notification c = false -> (named p c -> named p c') ->
  sent [] pd (pd <| conns ::= <[p := c']> |>).
Proof.
  intros Hc Ho Hp Hn. split; [split; try done|].
  - intros q Hq d. cbn. intros [[<- <-]|[_ Hd]]%lookup_insert_Some; [by apply Hn, Hq|by apply Hq].
  - intros q. left. rewrite own_of_set, Ho. case_decide; [|done]. subst. unfold own_of. by rewrite Hc.
Qed.

Definition unpending (p : Z) (pd : pcapdroid) : Prop :=
  exists c, conns pd !! p = Some c /\ pending_notification c = false.

Lemma wp_getConnUpdate s pd :
  unpending (s_data s) pd ->
  wp (getConnUpdate s) (fun r pd' => sent [] pd pd' /\ (jni_ok -> is_Some r)) pd.
Proof.
  intros (c & Hc & Hp). unfold getConnUpdate. wp_step. eapply wp_conn_at; [exact Hc|].
  wp_step. apply wp_ask. destruct (a_ok (sys (calls pd))) eqn:E1; cbn [negb].
  2:{ wp_step. split; [by apply sent_same|]. intros Hj. by rewrite Hj in E1. }
  wp_step. wp_step. cbv zeta. wp_step. eapply wp_set_at; [exact Hc|].
  wp_step. apply wp_ask. wp_step. split.
  - match goal with |- sent _ _ (set_field calls S ?y) =>
      apply (sent_trans [] [] _ y); [|by apply sent_same] end.
    apply (sent_trans [] [] _ (pd <| calls ::= S |>)); [by apply sent_same|].
    apply (sent_cleared _ c); [exact Hc|by destruct (has_update c CONN_UPDATE_PAYLOAD)|done|].
    assert (Ho : forall d, pending_notification d = false -> blacklisted_domain d = blacklisted_domain c ->
      info d = info c -> fw_pctx d = fw_pctx c -> named (s_data s) c -> named (s_data s) d).
    { intros d E2 E3 E4 E5 [H2 H3 _]. split; [by rewrite E3, E4|by rewrite E5|by rewrite E2]. }
    apply Ho; by destruct (has_update c CONN_UPDATE_PAYLOAD).
  - intros Hj. rewrite Hj. by eexists.
Qed.

Lemma wp_dumpNewConnection s pd :
  unpending (s_data s) pd ->
  wp (dumpNewConnection s) (fun r pd' => sent [] pd pd' /\ (jni_ok -> is_Some r)) pd.
Proof.
  intros (c & Hc & Hp). unfold dumpNewConnection. wp_step. wp_step. wp_step. eapply wp_conn_at; [exact Hc|].
  wp_step. apply wp_ask. destruct (a_ok (sys (calls pd))) eqn:E1; cbn [negb].
  2:{ wp_step. split; [by apply sent_same|]. intros Hj. by rewrite Hj in E1. }
  wp_step. eapply wp_set_at; [exact Hc|]. wp_step.
  match goal with |- wp _ _ ?x => set (pd1 := x) end.
  assert (Hs1 : same pd pd1).
  { eapply (same_trans _ (pd <| calls ::= S |>)); [by split|]. eapply (same_set _ _ c); [done|done|unfold or_update; keep_named]. }
  eapply wp_mono; [apply (wp_getConnUpdate s pd1); eexists; split; [apply lookup_insert_eq|done]|].
  intros r pd2 [Hs2 Hr]. wp_step. apply wp_ask. wp_step. split.
  - apply (sent_trans [] [] _ pd1); [by apply sent_same|].
    apply (sent_trans [] [] _ pd2); [done|by apply sent_same].
  - intros Hj. rewrite Hj. destruct (Hr Hj) as [u ->]. by eexists.
Qed.

Lemma wp_dump_loop {A} (dump : conn_and_tuple -> M pcapdroid (option A)) ss pd :
  (forall s pd, unpending (s_data s) pd ->
    wp (dump s) (fun r pd' => sent [] pd pd' /\ (jni_ok -> is_Some r)) pd) ->
  Forall (fun s => is_Some (own_of (s_data s) pd)) ss ->
  wp (dump_loop dump ss) (fun r pd' => sent (s_data <$> ss) pd pd' /\
    (is_Some r -> sent_all (s_data <$> ss) pd pd') /\ (jni_ok -> is_Some r)) pd.
Proof.
  intros Hdump. revert pd. induction ss as [|s ss IH]; intros pd Hall.
  { cbn [dump_loop]. wp_step. split_and!; [by apply sent_same|by intros _ q ?%not_elem_of_nil|by eexists]. }
  apply Forall_cons in Hall as [[o Ho] Hall]. destruct (own_of_is_Some _ _ _ Ho) as [c Hc].
  cbn [dump_loop]. wp_step. eapply wp_set_at; [exact Hc|].
  match goal with |- wp _ _ ?x => set (pd1 := x) end.
  destruct (sent_unpend pd _ c Hc) as [Hs1 Ha1]. fold pd1 in Hs1, Ha1.
  wp_step. eapply wp_mono; [apply Hdump; eexists; split; [apply lookup_insert_eq|done]|].
  intros r pd2 [Hs2 Hr].
  assert (Hs12 : sent [s_data s] pd pd2) by (rewrite <-(app_nil_r [s_data s]); by eapply sent_trans).
  assert (Ha2 : sent_all [s_data s] pd pd2) by (by eapply sent_all_mono).
  destruct r as [a|].
  2:{ wp_step. split_and!; [|by intros [? ?]|by intros Hj; destruct (Hr Hj)].
      destruct Hs12 as [R E]. split; [done|]. intros q. destruct (E q); [by left|right; set_solver]. }
  wp_step. eapply wp_mono.
  { apply IH. eapply Forall_impl; [exact Hall|]. intros s' Hs'. by eapply sent_live. }
  intros r' pd3 (Hs3 & Ha3 & Hr3). wp_step. split_and!.
  - by apply (sent_trans [s_data s] _ _ pd2).
  - intros Hsome. assert (Hr' : is_Some r') by (by apply fmap_is_Some in Hsome). intros q.
    intros [->|Hq]%elem_of_cons; [apply (sent_all_mono _ _ _ _ _ Ha2 Hs3); set_solver|].
    rewrite (Ha3 Hr' q Hq). destruct Hs12 as [_ E]. destruct (E q) as [->|[_ ->]]; [done|].
    by destruct (own_of q pd).
  - intros Hj. apply fmap_is_Some. auto.
Qed.
Lemma wp_sendConnectionsDump t active news upds pd :
  owned t active news upds pd ->
  wp sendConnectionsDump (fun _ pd' => sent (ptrs news upds) pd pd' /\
    (jni_ok -> sent_all (ptrs news upds) pd pd')) pd.
Proof.
  intros Ho. assert (Hlive : forall s, s ∈ news ++ upds -> is_Some (own_of (s_data s) pd)).
  { intros s Hs. destruct (ow_pend _ _ _ _ _ Ho (s_data s)) as [tp ->]; [|by eexists].
    by apply list_elem_of_fmap_2. }
  unfold sendConnectionsDump. wp_step. wp_step. wp_step. apply wp_ask.
  set (pd0 := pd <| calls ::= S |>). assert (Hs0 : sent [] pd pd0) by (by apply sent_same).
  assert (Hown0 : forall q, own_of q pd0 = own_of q pd) by done.
  destruct (a_ok (sys (calls pd))) eqn:E0; cbn [negb].
  2:{ wp_step. split; [by apply sent_same|]. intros Hj. by rewrite Hj in E0. }
  wp_step. eapply wp_lift; [apply arr_rep_slots, Ho|]. wp_step. eapply wp_mono.
  { apply wp_dump_loop; [apply wp_dumpNewConnection|].
    apply Forall_forall. intros s Hs. rewrite Hown0. apply Hlive. set_solver. }
  intros r1 pd1 (Hs1 & Ha1 & Hr1).
  assert (H1 : sent (s_data <$> news) pd pd1) by (by apply (sent_trans [] _ _ pd0)).
  assert (A1 : is_Some r1 -> sent_all (s_data <$> news) pd pd1).
  { intros Hr q Hq. by rewrite (Ha1 Hr q Hq), Hown0. }
  destruct r1 as [l1|].
  2:{ wp_step. split; [|intros Hj; by destruct (Hr1 Hj)]. destruct H1 as [R E]. split; [done|]. intros q.
      destruct (E q) as [|[Hq ?]]; [by left|right]. split; [|done]. unfold ptrs. rewrite fmap_app. set_solver. }
  wp_step. eapply wp_lift.
  { apply arr_rep_slots, Ho. }
  wp_step. eapply wp_mono.
  { apply wp_dump_loop; [apply wp_getConnUpdate|].
    apply Forall_forall. intros s Hs. eapply sent_live; [exact H1|]. apply Hlive. set_solver. }
  intros r2 pd2 (Hs2 & Ha2 & Hr2).
  assert (H2 : sent (ptrs news upds) pd pd2).
  { unfold ptrs. rewrite fmap_app. by eapply sent_trans. }
  assert (A2 : is_Some r2 -> sent_all (ptrs news upds) pd pd2).
  { intros Hr q. unfold ptrs. rewrite fmap_app. intros [Hq|Hq]%elem_of_app.
    - apply (sent_all_mono _ _ _ _ _ (A1 ltac:(by eexists)) Hs2 q Hq).
    - rewrite (Ha2 Hr q Hq). destruct H1 as [_ E]. destruct (E q) as [->|[_ ->]]; [done|].
      by destruct (own_of q pd). }
  destruct r2 as [l2|]; [|wp_step; split; [done|intros Hj; by destruct (Hr2 Hj)]].
  unfold emit. wp_step. split.
  - destruct H2 as [R E]. split; [by apply (rest_same_trans _ pd2)|done].
  - intros _. apply A2. by eexists.
Qed.

(** ** Emptying an array *)

Lemma wp_free_loop fa ss pd :
  NoDup (s_data <$> ss) -> Forall (fun s => is_Some (own_of (s_data s) pd)) ss ->
  wp (forM ss (fun s => c ← conn (s_data s);
        whenM (to_purge c || fa) (pd_purge_connection (s_data s))))
    (fun _ pd' => rest_same pd pd' /\
       forall q, own_of q pd' = freed fa (s_data <$> ss) q (own_of q pd)) pd.
Proof.
  revert pd. induction ss as [|s ss IH]; intros pd Hnd Hall.
  { cbn [forM]. wp_step. split; [done|]. intros q. by rewrite freed_nil. }
  apply NoDup_cons in Hnd as [Hnot Hnd]. apply Forall_cons in Hall as [[o Ho] Hall].
  destruct (own_of_is_Some _ _ _ Ho) as [c Hc]. cbn [forM]. wp_step.
  assert (Hoc : own_of (s_data s) pd = Some (own c)) by (unfold own_of; by rewrite Hc).
  apply (wp_mono _ (fun _ pd1 => rest_same pd pd1 /\
    forall q, own_of q pd1 = freed fa [s_data s] q (own_of q pd))).
  { wp_step. eapply wp_conn_at; [exact Hc|].
    assert (Hf : forall q, freed fa [s_data s] q (own_of q pd) =
      if decide (q = s_data s) then (if to_purge c || fa then None else Some (own c)) else own_of q pd).
    { intros q. case_decide as E.
      - subst q. rewrite Hoc. simpl. by rewrite bool_decide_eq_true_2, andb_true_r by set_solver.
      - unfold freed. destruct (own_of q pd) as [[a b]|]; [|done].
        by rewrite bool_decide_eq_false_2, andb_false_r by set_solver. }
    apply wp_when; intros Hp.
    - unfold pd_purge_connection, conn_free_ndpi. wp_step. eapply wp_set_at; [exact Hc|]. wp_step. split.
      + split; [done..|]. intros q Hq d. cbn. rewrite delete_insert_eq.
        intros [_ Hd]%lookup_delete_Some. by apply Hq.
      + intros q. rewrite Hf, Hp. unfold own_of. cbn. rewrite delete_insert_eq.
        case_decide; subst; [by rewrite lookup_delete_eq|by rewrite lookup_delete_ne].
    - split; [done|]. intros q. rewrite Hf, Hp. case_decide; [by subst|done]. }
  intros [] pd1 [R1 H1]. eapply wp_mono.
  { apply IH; [done|]. apply Forall_forall. intros s' Hs'. rewrite Forall_forall in Hall.
    destruct (Hall s' Hs') as [[a b] Ho']. rewrite H1, Ho'. unfold freed.
    rewrite bool_decide_eq_false_2, andb_false_r; [by eexists|].
    intros E%list_elem_of_singleton. apply Hnot. rewrite <-E. by apply list_elem_of_fmap_2. }
  intros [] pd2 [R2 H2]. split; [by eapply rest_same_trans|].
  intros q. rewrite H2, H1. unfold freed. destruct (own_of q pd) as [[a b]|]; [|done].
  rewrite (bool_decide_ext (q ∈ s_data <$> s :: ss) (q ∈ [s_data s] \/ q ∈ s_data <$> ss)) by set_solver.
  rewrite bool_decide_or. destruct (b || fa) eqn:Eb; simpl; [|by rewrite Eb].
  destruct (bool_decide (q ∈ [s_data s])); simpl; [done|]. by rewrite Eb.
Qed.

Definition arr_put (a : arr_id) (pd pd' : pcapdroid) : Prop :=
  config pd' = config pd /\ dumper pd' = dumper pd /\ next_conn pd' = next_conn pd /\
  (forall q, named_at q pd -> named_at q pd') /\
  arr_of a pd' = conn_array_zero /\ forall b, b <> a -> arr_of b pd' = arr_of b pd.

Lemma wp_conns_clear a fa ss pd :
  arr_rep (arr_of a pd) ss -> NoDup (s_data <$> ss) ->
  Forall (fun s => is_Some (own_of (s_data s) pd)) ss ->
  wp (conns_clear a fa) (fun _ pd' => arr_put a pd pd' /\
    forall q, own_of q pd' = freed fa (s_data <$> ss) q (own_of q pd)) pd.
Proof.
  intros Harr Hnd Hall. unfold conns_clear. wp_step. wp_step. wp_step.
  apply (wp_mono _ (fun _ pd1 => rest_same pd pd1 /\
    forall q, own_of q pd1 = freed fa (s_data <$> ss) q (own_of q pd))).
  - apply wp_when; intros Hc.
    + wp_step. eapply wp_lift; [by apply arr_rep_slots|]. by apply wp_free_loop.
    + apply bool_decide_eq_false in Hc. destruct Harr as [_ Hr].
      destruct (cells (arr_of a pd)); [by destruct Hc|]. destruct Hr as [-> _].
      split; [done|]. intros q. by rewrite freed_nil.
  - intros [] pd1 [[R1 R2 R3 Rd R4 R5] H1]. wp_step. split; [|intros q; by rewrite <-H1; destruct a].
    split_and!; [by destruct a..| |by destruct a|].
    + intros q Hq. apply R5 in Hq. by destruct a.
    + intros b Hb. destruct a, b; done.
Qed.
(** ** The whole dump *)

Lemma freed_Some fa ps q o r : freed fa ps q o = Some r -> o = Some r /\ (q ∈ ps -> r.2 || fa = false).
Proof.
  destruct o as [[a b]|]; [|done]. unfold freed.
  destruct (b || fa) eqn:E; simpl; [|by intros [= <-]].
  case_bool_decide; [done|]. by intros [= <-].
Qed.
Lemma freed_keep ps q pn : freed false ps q (Some (pn, false)) = Some (pn, false).
Proof. done. Qed.

(** After a dump, with all entries cleared when JNI does not fail. *)
Lemma owned_dumped t active news upds pd pd1 pd2 :
  owned t active news upds pd -> sent (ptrs news upds) pd pd1 ->
  (t = true -> sent_all (ptrs news upds) pd pd1) ->
  new_conns pd2 = conn_array_zero -> conns_updates pd2 = conn_array_zero ->
  next_conn pd2 = next_conn pd ->
  (forall q, own_of q pd2 = freed false (s_data <$> upds) q (freed false (s_data <$> news) q (own_of q pd1))) ->
  owned t active [] [] pd2 /\ (t = true -> forall q, is_Some (own_of q pd2) -> q ∈ active).
Proof.
  intros [H1 H2 H3 H4 H5 H6 H7] [R E] Hall Hn Hu Hx Hown.
  assert (Hback : forall q o, own_of q pd2 = Some o -> own_of q pd1 = Some o /\
    (q ∈ ptrs news upds -> o.2 = false)).
  { intros q o. rewrite Hown. intros [Ho Hq]%freed_Some. apply freed_Some in Ho as [Ho Hq'].
    split; [done|]. unfold ptrs. rewrite fmap_app, elem_of_app. intros [Hi|Hi].
    - specialize (Hq' Hi). by destruct (o.2).
    - specialize (Hq Hi). by destruct (o.2). }
  assert (Hin : t = true -> forall q, is_Some (own_of q pd2) -> q ∈ active).
  { intros Ht q [o Ho]. destruct (Hback q o Ho) as [Ho1 Hp].
    assert (exists o0, own_of q pd = Some o0) as [o0 Ho0].
    { destruct (E q) as [Eq|[_ Eq]]; rewrite Eq in Ho1; [by eexists|]. by destruct (own_of q pd); [eexists|]. }
    destruct (H7 Ht q o0 Ho0) as [Hpend Hact]. destruct (decide (q ∈ active)); [done|]. exfalso.
    rewrite (Hact n) in *. assert (Hq : q ∈ ptrs news upds) by (by apply Hpend).
    rewrite (Hall Ht q Hq), Ho0 in Ho1. injection Ho1 as <-. by specialize (Hp Hq). }
  split; [|done]. split.
  - rewrite Hn. apply arr_rep_zero.
  - rewrite Hu. apply arr_rep_zero.
  - constructor.
  - by intros p ?%not_elem_of_nil.
  - intros p Hp. destruct (H5 p Hp) as [pn Hpn]. rewrite Hown.
    destruct (E p) as [->|[_ ->]]; rewrite Hpn; simpl; eauto.
  - intros p Hp. rewrite Hx. apply H6.
    assert (is_Some (own_of p pd2)) as [o Ho] by (unfold own_of; by apply fmap_is_Some).
    destruct (Hback p o Ho) as [Ho1 _]. destruct (E p) as [Eq|[_ Eq]]; rewrite Eq in Ho1.
    + by eapply own_of_is_Some.
    + destruct (own_of p pd) eqn:Ep; [|done]. by eapply own_of_is_Some.
  - intros Ht p o Ho. specialize (Hin Ht p ltac:(by eexists)). split; [|done]. intros Hp. exfalso.
    destruct (Hback p o Ho) as [Ho1 _].
    destruct (E p) as [Eq|[_ Eq]]; rewrite Eq in Ho1.
    + destruct (H7 Ht p o Ho1) as [Hpend _]. specialize (Hpend Hp).
      rewrite <-Eq, (Hall Ht p Hpend) in Ho1. destruct (own_of p pd); [|done]. by injection Ho1 as <-.
    + destruct (own_of p pd); [|done]. by injection Ho1 as <-.
Qed.

Lemma nodup_ptrs news upds :
  NoDup (ptrs news upds) -> NoDup (s_data <$> news) /\ NoDup (s_data <$> upds) /\
  forall q, q ∈ s_data <$> news -> q ∉ s_data <$> upds.
Proof. unfold ptrs. rewrite fmap_app. by intros (? & ? & ?)%NoDup_app. Qed.

Lemma wp_dump_connections t active pd :
  (t = true -> jni_ok) -> inv t active pd ->
  wp dump_connections (fun _ pd' => inv t active pd' /\ config pd' = config pd /\
    (t = true -> forall p, is_Some (own_of p pd') -> p ∈ active)) pd.
Proof.
  intros Hj [Hl Hn Hd (news & upds & Ho)]. unfold dump_connections. wp_step. wp_step.
  apply wp_when; intros Hcur.
  2:{ split_and!; [by split; [..|eexists _, _]|done|]. intros Ht p [o Hp].
      destruct (ow_tight _ _ _ _ _ Ho Ht p o Hp) as [Hpend Hact].
      destruct (decide (p ∈ active)); [done|]. exfalso. rewrite (Hact n) in *. specialize (Hpend eq_refl).
      apply orb_false_iff in Hcur as [Hc1 Hc2]. apply negb_false_iff, Z.eqb_eq in Hc1, Hc2.
      rewrite (ar_cur _ _ (ow_new _ _ _ _ _ Ho)) in Hc1. rewrite (ar_cur _ _ (ow_upd _ _ _ _ _ Ho)) in Hc2.
      destruct news; [|done]. destruct upds; [|done]. by apply not_elem_of_nil in Hpend. }
  destruct (nodup_ptrs _ _ (ow_nodup _ _ _ _ _ Ho)) as (Hnd1 & Hnd2 & Hdis).
  assert (Hlive : forall s, s ∈ news ++ upds -> is_Some (own_of (s_data s) pd)).
  { intros s Hs. destruct (ow_pend _ _ _ _ _ Ho (s_data s)) as [tp ->]; [|by eexists].
    by apply list_elem_of_fmap_2. }
  wp_step. eapply wp_mono; [by apply (wp_sendConnectionsDump t active news upds)|].
  intros [] pd1 [Hs Ha]. pose proof Hs as [R1 E1].
  wp_step. eapply wp_mono.
  { apply (wp_conns_clear NEW_CONNS false news); [|done|].
    - cbn. rewrite (rs_new _ _ R1). apply Ho.
    - apply Forall_forall. intros s Hin. eapply sent_live; [exact Hs|]. apply Hlive. set_solver. }
  intros [] pd2 [(C2 & D2 & X2 & N2 & Z2 & O2) E2].
  eapply wp_mono.
  { apply (wp_conns_clear CONNS_UPDATES false upds); [|done|].
    - rewrite (O2 CONNS_UPDATES) by done. cbn. rewrite (rs_upd _ _ R1). apply Ho.
    - apply Forall_forall. intros s Hin. rewrite E2.
      assert (is_Some (own_of (s_data s) pd1)) as [[a b] Hs1].
      { eapply sent_live; [exact Hs|]. apply Hlive. set_solver. }
      rewrite Hs1. unfold freed. rewrite bool_decide_eq_false_2, andb_false_r; [by eexists|].
      intros Hq. apply (Hdis _ Hq). by apply list_elem_of_fmap_2. }
  intros [] pd3 [(C3 & D3 & X3 & N3 & Z3 & O3) E3].
  destruct (owned_dumped t active news upds pd pd1 pd3 Ho Hs) as [Ho3 Hin3].
  - intros Ht. apply Ha. by apply Hj.
  - change (new_conns pd3) with (arr_of NEW_CONNS pd3). by rewrite O3.
  - done.
  - rewrite X3, X2. apply (rs_next _ _ R1).
  - intros q. by rewrite E3, E2.
  - assert (Hcfg : config pd3 = config pd) by (rewrite C3, C2; apply (rs_config _ _ R1)).
    split_and!; [|done|done]. split; [by apply (lists_ok_config pd)| | |by eexists _, _].
    + intros q. apply N3, N2, (rs_named _ _ R1), Hn.
    + by rewrite D3, D2, (rs_dumper _ _ R1).
Qed.
End ops.
End PdSend.
