(* ===== verification/PdSafe.v ===== *)
(** * Packets and housekeeping keep the ownership invariant *)

From S2P Require Import Prelude CString UtHash ZdtunTypes PcapDump PcapSpec PcapSafe PdDns PdTypes PdCheck PdNotify PdConn PdProcess PdHouse PdFrame PdOwn PdLife PdSend.

Module PdSafe.
Export PdSend.
#[local] Existing Instance PcapDump.pcap_dumper_eta.

Section ops.
Context `{PdEnv} {T : Told}.
Context (Hproto : forall n, proto_ok (a_proto (sys n))).
Context (Hstrdup : forall n, a_strdup (sys n) = true).
Context (Hrealloc : forall n, a_realloc (sys n) = true).

(** ** Packets *)

Section packet.
Context (px : pkt_context) (Hpkt : pkt_fine (px_pkt px)) (Htuple : ip_ok (dst_ip (px_tuple px))).
Notation p := (px_data px).

Lemma keeps_dumpPayloadChunk ps n :
  p ∈ ps -> 0 <= n <= pkt_l7_len (px_pkt px) -> keeps ps (dumpPayloadChunk px n).
Proof.
  intros Hp Hn. unfold dumpPayloadChunk. destruct Hpkt. keep.
  destruct (rdn_is_Some (Z.to_nat n) (pkt_mem (px_pkt px)) (pkt_l7 (px_pkt px))) as (l & -> & _);
    [lia..|done|by eexists].
Qed.

Lemma keeps_dump_payload ps :
  p ∈ ps -> 0 < pkt_l7_len (px_pkt px) -> keeps ps (dump_payload px).
Proof.
  intros Hp Hl. unfold dump_payload, set_has_payload, MINIMAL_PAYLOAD_MAX_DIRECTION_SIZE. keep.
  apply keeps_dumpPayloadChunk; [done|]. case_match; lia.
Qed.

Lemma safe_process_payload t active : p ∈ active -> safe t active (process_payload px).
Proof.
  intros Hp. unfold process_payload, or_update.
  apply safe_get. intros pd. apply safe_bind; [by eapply safe_keeps; [exact Hp|keep]|intros c].
  destruct (_ || (pkt_l7_len _ <=? 0) || _) eqn:E; [apply safe_ret|].
  apply orb_false_iff in E as [[_ El]%orb_false_iff _]. apply Z.leb_gt in El.
  apply safe_bind; [by eapply safe_keeps; [exact Hp|apply keeps_dump_payload; [set_solver|done]]|].
  intros [updated truncated]. apply safe_bind; [by eapply safe_keeps; [exact Hp|keep]|intros c'].
  apply safe_when, safe_announce_with; [done..|]. intros d. split; [done|].
  split; [keep_named|]. cbn. intros [_ E']%Z.lor_eq_0_iff. done.
Qed.
(** The parser of DNS replies works on the name cache alone. *)
Lemma wp_dns_reply query (Q : unit -> pcapdroid -> Prop) pd :
  (forall pd', same pd pd' -> conns pd' = conns pd -> Q tt pd') -> wp (dns_reply query (px_pkt px)) Q pd.
Proof.
  intros HQ. unfold dns_reply, zoom. destruct Hpkt. wp_run.
  destruct (PdDns.process_dns_reply_wp query (px_pkt px)
    (fun n => (a_mem (sys (calls pd + 2 * n)), a_mem (sys (calls pd + 2 * n + 1)))) (ip_to_host pd))
    as ([] & lru & E & _); [done..|].
  eapply wp_lift; [exact E|]. wp_run. by apply HQ.
Qed.

Lemma wp_ndpi_process ps flow pd :
  live ps pd -> p ∈ ps ->
  wp (ndpi_process px flow) (fun _ pd' => same pd pd' /\ has_flow p pd') pd.
Proof.
  intros Hl Hp. destruct (live_conn ps p pd) as [c Hc]; [done..|].
  unfold ndpi_process. wp_step. eapply wp_conn_at; [done|]. wp_step. apply wp_ask. wp_step.
  destruct (ndpi2proto_ok (a_proto (sys (calls pd)))) as (proto & Hpr & _); [done|].
  eapply wp_lift; [exact Hpr|]. wp_step. eapply wp_set_at; [exact Hc|].
  match goal with |- wp _ _ ?x => set (pd1 := x) end.
  assert (Hs1 : same pd pd1).
  { apply (same_trans _ (pd <| calls ::= S |>)); [by split|]. apply same_set with c; [done|done|keep_named]. }
  assert (Hf1 : has_flow p pd1) by (eexists _, _; split; [apply lookup_insert_eq|done]).
  assert (Hdns : forall pd2, same pd pd2 -> has_flow p pd2 ->
    wp (whenM (negb (px_is_tx px) && (proto =? NDPI_PROTOCOL_DNS))
      (dns_reply (host_server_name (a_flow (sys (calls pd)))) (px_pkt px)))
      (fun _ pd' => same pd pd' /\ has_flow p pd') pd2).
  { intros pd2 Hs2 Hf2. apply wp_when; intros _; [|done]. apply wp_dns_reply. intros pd3 Hs3 Hc3.
    split; [by apply (same_trans _ pd2)|]. unfold has_flow. by rewrite Hc3. }
  wp_step. apply wp_when; intros _; [|by apply Hdns].
  eapply wp_set_at; [apply lookup_insert_eq|]. apply Hdns.
  - apply (same_trans _ pd1); [done|]. eapply same_set; [apply lookup_insert_eq|done|unfold or_update; keep_named].
  - eexists _, _. split; [apply lookup_insert_eq|done].
Qed.

Lemma wp_dpi_done ps giveup pd (Q : bool -> pcapdroid -> Prop) :
  live ps pd -> p ∈ ps ->
  (forall b pd', same pd pd' -> conns pd' = conns pd -> Q b pd') -> wp (dpi_done giveup p) Q pd.
Proof.
  intros Hl Hp HQ. destruct (live_conn ps p pd) as [c Hc]; [done..|].
  unfold dpi_done. wp_step. eapply wp_conn_at; [done|].
  destruct giveup; [wp_step; by apply HQ|]. case_match; [wp_step; by apply HQ|].
  wp_step. apply wp_ask. wp_step. by apply HQ.
Qed.

Lemma keeps_netd_delay ps q : q ∈ ps -> keeps ps (netd_delay q).
Proof. intros Hq. unfold netd_delay. keep. Qed.

Lemma safe_finish_dpi t active : p ∈ active -> safe t active (finish_dpi (px_tuple px) p).
Proof.
  intros Hp. unfold finish_dpi. apply safe_bind; [by eapply safe_keeps; [exact Hp|keep]|intros c].
  apply safe_when. cbv zeta. apply safe_bind; [by eapply safe_keeps; [exact Hp|keep]|intros _].
  by apply safe_when, safe_announce.
Qed.

Lemma wp_perform_dpi t active pd :
  inv t active pd -> p ∈ active -> has_flow p pd ->
  wp (perform_dpi px) (fun _ pd' => inv t active pd' /\ config pd' = config pd) pd.
Proof.
  intros Hi Hp (c & f & Hc & Hf). destruct Hpkt.
  assert (Hl : live [p] pd) by (eapply inv_live; [done|by eapply inv_active_own]).
  assert (Hin : p ∈ [p]) by set_solver.
  unfold perform_dpi. wp_step. eapply wp_conn_at; [done|]. wp_step. eapply wp_lift; [exact Hf|].
  wp_step. eapply wp_mono; [by apply (wp_ndpi_process [p])|]. intros [] pd1 [Hs1 Hf1].
  pose proof (live_same _ _ _ Hs1 Hl) as Hl1.
  wp_step. eapply wp_dpi_done; [done..|]. intros fin pd2 Hs2 Hc2.
  pose proof (live_same _ _ _ Hs2 Hl1) as Hl2.
  assert (Hf2 : has_flow p pd2) by (unfold has_flow; by rewrite Hc2).
  wp_step. apply (wp_mono _ (fun _ => same pd2)).
  { destruct fin; [by apply (wp_giveup _ pf_tuple0 Hproto Hstrdup [p])|by apply (wp_process_ndpi _ pf_tuple0 Hstrdup [p])]. }
  intros [] pd3 Hs3. assert (Hs : same pd pd3) by (apply (same_trans _ pd1); [done|by apply (same_trans _ pd2)]).
  wp_step. eapply (inv_keeps t active p); [by eapply pd_inv_same| |by apply keeps_netd_delay|].
  { rewrite (own_of_same _ _ _ Hs). by eapply inv_active_own. }
  intros _ pd4 Hi4 Hs4. eapply wp_mono; [by apply safe_finish_dpi|].
  intros [] pd5 [Hi5 Hc5]. split; [done|]. rewrite Hc5. by apply same_config, (same_trans _ pd3).
Qed.
End packet.

Lemma wp_process_packet t active pkt is_tx tuple p tv pd0 :
  pkt_fine pkt -> ip_ok (dst_ip tuple) -> p ∈ active -> inv t active pd0 ->
  wp (pd_process_packet pkt is_tx tuple p tv) (fun px pd' =>
    px = pkt_context_of pkt is_tx tuple p tv /\ inv t active pd' /\ config pd' = config pd0) pd0.
Proof.
  intros Hpkt Htuple Hp Hi0. unfold pd_process_packet. set (px := pkt_context_of pkt is_tx tuple p tv).
  wp_step. eapply wp_mono; [eapply (safe_keeps t active p); [exact Hp|keep|exact Hi0]|].
  intros [] pd1 [Hi1 Hc1]. wp_step. eapply wp_mono; [eapply (safe_keeps t active p); [exact Hp|keep|exact Hi1]|].
  intros [] pd [Hi Hc2].
  destruct (live_conn [p] p pd) as [c Hc]; [by eapply inv_live; [|by eapply inv_active_own]|set_solver|].
  wp_step. eapply wp_conn_at; [done|]. wp_step.
  apply (wp_mono _ (fun _ pd' => inv t active pd' /\ config pd' = config pd)).
  { apply wp_when; [|done]. intros [Hf _]%andb_true_iff. apply bool_decide_eq_true in Hf as [f Hf].
    by apply (wp_perform_dpi px); [done..|exists c, f]. }
  intros [] pd2 [Hi2 Hc3]. wp_step. eapply wp_mono.
  { apply (safe_process_payload px); [done..|exact Hi2]. }
  intros [] pd3 [Hi3 Hc4]. wp_step. split_and!; [done|done|congruence].
Qed.
Lemma safe_process_packet t active pkt is_tx tuple p tv :
  pkt_fine pkt -> ip_ok (dst_ip tuple) -> p ∈ active ->
  safe t active (pd_process_packet pkt is_tx tuple p tv).
Proof.
  intros Hpkt Htuple Hp pd Hi. eapply wp_mono; [by apply (wp_process_packet t active)|].
  by intros px pd' (_ & ? & ?).
Qed.

(** ** The dump file *)

Lemma inv_set_dumper t active pd d :
  inv t active pd -> (forall d', d = Some d' -> PcapSpec.PcapSpec.dumper_ok d') ->
  inv t active (pd <| dumper := d |>).
Proof.
  intros [Hl Hn Hd (news & upds & Ho)] Hd'. split; [by apply (lists_ok_config pd)|done|done|].
  exists news, upds. by apply (owned_shape _ _ _ _ pd).
Qed.

(** A dumper is given the clock of the capture. *)
Lemma dumper_fine_clock d now :
  PcapSpec.PcapSpec.dumper_ok d -> PcapSpec.PcapSpec.dumper_ok (d <| PcapDump.now_ms := now |>).
Proof. intros []. by split. Qed.

(** Neither frees a connection. *)
Definition keeps_own (pd pd' : pcapdroid) : Prop := forall q, own_of q pd' = own_of q pd.
Lemma safe_stop_dump t active pd :
  inv t active pd -> is_Some (dumper pd) ->
  wp stop_pcap_dump (fun _ pd' => inv t active pd' /\ config pd' = config pd /\ keeps_own pd pd') pd.
Proof.
  intros Hi [d Hd]. unfold stop_pcap_dump, emit. wp_step. wp_step. wp_step. eapply wp_lift; [exact Hd|].
  destruct (PcapSafe.destroy_dumper_fine (d <| PcapDump.now_ms := now_ms pd |>)) as [out Hout].
  { apply dumper_fine_clock. by apply (iv_dumper _ _ _ Hi). }
  wp_step. eapply wp_lift; [exact Hout|]. wp_run. split; [|done].
  apply (pd_inv_same _ _ (pd <| dumper := None |>)); [by split|]. by apply inv_set_dumper.
Qed.

Lemma wp_pd_dump t active bytes n tv u pd :
  PcapSafe.captured_ok bytes n -> inv t active pd ->
  wp (pd_dump_packet bytes n tv u) (fun _ pd' => inv t active pd' /\ config pd' = config pd /\ keeps_own pd pd') pd.
Proof.
  intros Hb Hi. unfold pd_dump_packet. wp_step. wp_step.
  destruct (dumper pd) as [d|] eqn:Hd; [|by wp_step]. pose proof (iv_dumper _ _ _ Hi d Hd) as Hfine.
  destruct (PcapSafe.wp_dump_packet_fine (dump_appname pd)) with (bytes := bytes) (n := n) (tv := tv) (uid := u)
    (Q := fun (_ : bool) d' => PcapSpec.PcapSpec.dumper_ok d') (d := d <| PcapDump.now_ms := now_ms pd |>)
    as (ok & d' & E & Hd'); [|by apply dumper_fine_clock|done|done|].
  { intros u' name. unfold dump_appname. intros E. unfold bytes_ok.
    destruct (HASH_FIND u' _); [|destruct (a_mem _); [|done]]; injection E as <-;
      apply Forall_forall; intros x (y & -> & _)%list_elem_of_fmap; apply uwrap_ok; lia. }
  wp_step. eapply wp_lift; [exact E|]. wp_step. wp_step. cbn [fst snd].
  match goal with |- wp _ _ ?x => set (pd1 := x) end.
  assert (Hi1 : inv t active pd1) by (apply inv_set_dumper; [done|by intros d2 [= <-]]).
  wp_step. apply (wp_mono _ (fun _ pd2 => same pd1 pd2)).
  { apply wp_when; intros _; [|done]. wp_step. eapply wp_appname. intros _ pd2 Hs2 _. by wp_step. }
  intros [] pd2 Hs2. assert (Hi2 : inv t active pd2) by (by eapply pd_inv_same).
  assert (Hc2 : config pd2 = config pd) by (by rewrite (same_config _ _ Hs2)).
  assert (Ho2 : keeps_own pd pd2) by (intros q; by rewrite (own_of_same q _ _ Hs2)).
  apply wp_when; intros _; [|done]. eapply wp_mono.
  { apply safe_stop_dump; [exact Hi2|]. rewrite (same_dumper _ _ Hs2). by eexists. }
  intros [] pd3 (Hi3 & Hc3 & Ho3). split_and!; [done|congruence|]. intros q. by rewrite Ho3, Ho2.
Qed.

Lemma safe_dump_packet t active bytes n tv u :
  PcapSafe.captured_ok bytes n -> safe t active (pd_dump_packet bytes n tv u).
Proof. intros Hb pd Hi. eapply wp_mono; [by apply (wp_pd_dump t active)|]. by intros [] pd' (? & ? & _). Qed.

(** The last part of [pd_account_stats], for a connection that is live. *)
Lemma wp_account_dump t active px pd :
  pkt_fine (px_pkt px) -> inv t active pd -> is_Some (own_of (px_data px) pd) ->
  wp (pd ← getS; c ← conn (px_data px);
      whenM (bool_decide (is_Some (dumper pd))
             && ((max_pkts_per_flow pd <=? 0) || (sent_pkts c + rcvd_pkts c <=? max_pkts_per_flow pd)))
        (pd_dump_packet (pkt_mem (px_pkt px)) (pkt_len (px_pkt px)) (px_tv px) (uid c)))
    (fun _ pd' => inv t active pd' /\ config pd' = config pd /\ keeps_own pd pd') pd.
Proof.
  intros [] Hi [o Ho]. destruct (own_of_is_Some _ _ _ Ho) as [c Hc].
  wp_step. wp_step. wp_step. eapply wp_conn_at; [exact Hc|]. apply wp_when; intros _; [|done].
  apply wp_pd_dump; [|done]. split; [done|]. lia.
Qed.

(** For a connection that is live, though it may wait to be freed. *)
Lemma wp_account_stats t active px pd :
  pkt_fine (px_pkt px) -> ip_ok (dst_ip (px_tuple px)) -> inv t active pd -> is_Some (own_of (px_data px) pd) ->
  wp (pd_account_stats px) (fun _ pd' => inv t active pd' /\ config pd' = config pd /\ is_Some (own_of (px_data px) pd')) pd.
Proof.
  intros Hpkt Htuple Hi Ho. unfold pd_account_stats.
  wp_step. eapply (inv_keeps t active (px_data px)); [exact Hi|done|unfold account_conn; keep|]. intros _ pd1 Hi1 Hs1.
  assert (Ho1 : is_Some (own_of (px_data px) pd1)) by (by rewrite (own_of_same _ _ _ Hs1)).
  wp_step. eapply (inv_keeps t active (px_data px)); [exact Hi1|done|keep|]. intros _ pd2 Hi2 Hs2.
  assert (Ho2 : is_Some (own_of (px_data px) pd2)) by (by rewrite (own_of_same _ _ _ Hs2)). destruct Ho2 as [o Ho2].
  unfold pd_notify_connection_update.
  apply (wp_update_notif (px_tuple px) Htuple Hproto Hstrdup Hrealloc t active (px_data px) _ o);
    [done|done|intros; by apply or_update_told|].
  intros pd3 Hi3 Hc3 Ho3. eapply wp_mono; [apply (wp_account_dump t active); [done|done|by eexists]|].
  intros [] pd4 (Hi4 & Hc4 & Ho4). split_and!; [done| |by rewrite Ho4, Ho3].
  rewrite Hc4, Hc3, (same_config _ _ Hs2). by apply same_config.
Qed.
Lemma safe_account t active px :
  pkt_fine (px_pkt px) -> ip_ok (dst_ip (px_tuple px)) -> px_data px ∈ active ->
  safe t active (pd_account_stats px).
Proof.
  intros Hpkt Htuple Hp pd Hi. eapply wp_mono; [apply (wp_account_stats t active); [done..|by eapply inv_active_own]|].
  by intros [] pd' (? & ? & _).
Qed.
(** ** Housekeeping *)

Lemma safe_keeps0 {A} t active (m : M pcapdroid A) : keeps [] m -> safe t active m.
Proof.
  intros Hm pd Hi. eapply wp_keeps; [exact Hm|by split; [apply Hi|]|].
  intros a pd' Hs. split; [by eapply pd_inv_same|by apply same_config].
Qed.

(** A step that only changes the lists. *)
Lemma inv_config t active pd pd' :
  inv t active pd -> shape pd' = shape pd -> conns pd' = conns pd -> dumper pd' = dumper pd ->
  lists_ok pd' -> inv t active pd'.
Proof.
  intros [Hl Hn Hd (news & upds & Ho)] Hs Hc Hdd Hl'. split; [done| | |].
  - intros p c. rewrite Hc. apply Hn.
  - by rewrite Hdd.
  - exists news, upds. by eapply owned_shape.
Qed.

Lemma keeps_send_stats ps z : keeps ps (send_stats z).
Proof. unfold send_stats, sendStatsDump, emit. keep. Qed.

(** What [safe] says, for a step that may change the lists. *)
Definition runs {A} (t : bool) (active : gset Z) (m : M pcapdroid A) : Prop :=
  forall pd, inv t active pd -> wp m (fun _ => inv t active) pd.
Lemma runs_safe {A} t active (m : M pcapdroid A) : safe t active m -> runs t active m.
Proof. intros Hm pd Hi. eapply wp_mono; [by apply Hm|]. by intros a pd' []. Qed.
Lemma runs_bind {A B} t active (m : M pcapdroid A) (f : A -> M pcapdroid B) :
  runs t active m -> (forall a, runs t active (f a)) -> runs t active (m ≫= f).
Proof. intros Hm Hf pd Hi. wp_step. eapply wp_mono; [by apply Hm|]. intros a pd1 Hi1. by apply Hf. Qed.
Lemma runs_get {B} t active (f : pcapdroid -> M pcapdroid B) :
  (forall pd, inv t active pd -> wp (f pd) (fun _ => inv t active) pd) -> runs t active (getS ≫= f).
Proof. intros Hf pd Hi. wp_step. wp_step. by apply Hf. Qed.
Lemma runs_getS {B} t active (f : pcapdroid -> M pcapdroid B) :
  (forall pd, runs t active (f pd)) -> runs t active (getS ≫= f).
Proof. intros Hf. apply runs_get. intros pd Hi. by apply Hf. Qed.
Lemma runs_when t active b (m : M pcapdroid unit) : runs t active m -> runs t active (whenM b m).
Proof. intros Hm. destruct b; [done|]. intros pd Hi. by apply wp_ret. Qed.
Lemma runs_ret {A} t active (a : A) : runs t active (mret a).
Proof. intros pd Hi. by wp_step. Qed.

Lemma runs_connections_turn t active : (t = true -> jni_ok) -> runs t active connections_turn.
Proof.
  intros Hj. unfold connections_turn. apply runs_bind.
  - intros pd Hi. eapply wp_mono; [by apply wp_dump_connections|]. by intros [] pd' [].
  - intros _. apply runs_safe, safe_keeps0. keep.
Qed.

Lemma runs_dumper_turn t active : runs t active dumper_turn.
Proof.
  unfold dumper_turn. apply runs_get. intros pd Hi. destruct (dumper pd) as [d|] eqn:Hd; [|by wp_step].
  destruct (PcapSafe.wp_check_export_fine (fun _ d' => PcapSpec.PcapSpec.dumper_ok d')
    (d <| PcapDump.now_ms := now_ms pd |>)) as (b & d' & E & Hd'); [|done|].
  { by apply dumper_fine_clock, (iv_dumper _ _ _ Hi). }
  wp_step. eapply wp_lift; [exact E|]. wp_run. apply inv_set_dumper; [done|by intros d2 [= <-]].
Qed.

Lemma list_ok_None : list_ok None.
Proof. by intros l. Qed.
#[local] Hint Resolve list_ok_None : core.

(** What reloading the malware lists changes. *)
Definition status_ok (m : malware_t) : Prop :=
  is_Some (md_new_bl m) -> exists st, status_arr m = Some st /\ is_Some (status_items st).
Record reloaded {T : Told} (pd pd' : pcapdroid) : Prop := {
    rl_shape : shape pd' = shape pd;
    rl_named : forall p, named_at p pd -> named_at p pd';
    rl_dumper : dumper pd' = dumper pd;
    rl_config : (firewall pd', tls_decryption pd', vpn pd') = (firewall pd, tls_decryption pd, vpn pd);
    rl_whitelist : md_whitelist (malware_detection pd') = md_whitelist (malware_detection pd);
    rl_new_wl : md_new_wl (malware_detection pd') = md_new_wl (malware_detection pd);
    rl_lists : list_ok (md_bl (malware_detection pd)) -> list_ok (md_new_bl (malware_detection pd)) ->
      list_ok (md_bl (malware_detection pd')) /\ list_ok (md_new_bl (malware_detection pd'));
    rl_status : status_ok (malware_detection pd) -> status_ok (malware_detection pd');
  }.

Lemma reloaded_refl pd : reloaded pd pd.
Proof. by split. Qed.
Lemma reloaded_trans pd1 pd2 pd3 : reloaded pd1 pd2 -> reloaded pd2 pd3 -> reloaded pd1 pd3.
Proof. intros [] []. split; [congruence|auto|congruence..|naive_solver|auto]. Qed.
Lemma reloaded_same pd pd' : same pd pd' -> reloaded pd pd'.
Proof. intros [H1 [= E1 E2 E3 E4] H3 H4]. split; unfold status_ok; rewrite ?E1, ?E2, ?E3, ?E4; done. Qed.
Lemma reloaded_set pd m :
  let old := malware_detection pd in
  md_whitelist m = md_whitelist old -> md_new_wl m = md_new_wl old ->
  (list_ok (md_bl old) -> list_ok (md_new_bl old) -> list_ok (md_bl m) /\ list_ok (md_new_bl m)) ->
  (status_ok old -> status_ok m) -> reloaded pd (pd <| malware_detection := m |>).
Proof. by split. Qed.

Lemma inv_reloaded t active pd pd' : reloaded pd pd' -> inv t active pd -> inv t active pd'.
Proof.
  intros [Hs Hn Hd [= E1 E2 E3] Hw Hnw Hb Hst] [Hl Hn' Hd' (news & upds & Ho)]. split.
  - destruct Hl. destruct Hb as [? ?]; [done|done|].
    split; rewrite ?E1, ?E2, ?E3, ?Hw, ?Hnw; try done. by apply Hst.
  - intros p. by apply Hn.
  - by rewrite Hd.
  - exists news, upds. by eapply owned_shape.
Qed.

Lemma wp_use pd :
  status_ok (malware_detection pd) -> wp use_new_blacklists (fun _ => reloaded pd) pd.
Proof.
  intros Hst. unfold use_new_blacklists, set_malware, emit. wp_step. wp_step.
  destruct (md_new_bl (malware_detection pd)) as [bl|] eqn:Eb; [|wp_step; apply reloaded_refl].
  destruct Hst as (st & -> & l & El); [by eexists|]. wp_step. wp_step. wp_step. eapply wp_lift; [exact El|]. wp_step.
  match goal with |- reloaded pd (?x <| trace ::= _ |>) => apply (reloaded_trans _ x) end;
    [|by apply reloaded_same; split].
  apply reloaded_set; cbn; rewrite ?Eb; try done. by intros _ [? ?].
Qed.

Lemma runs_malware_turn t active : runs t active malware_turn.
Proof.
  unfold malware_turn. apply runs_get. intros pd Hi. cbv zeta.
  pose proof (iv_lists _ _ _ Hi) as Hl.
  destruct (reload_in_progress _).
  - apply wp_when; intros _; [|done]. unfold set_malware at 1. wp_step. wp_step. eapply wp_mono.
    { apply wp_use. exact (lk_status _ Hl). }
    intros [] pd' Hr. apply (inv_reloaded _ _ _ _ Hr), (inv_config _ _ pd); [done..|]. destruct Hl. by split.
  - destruct (reload_blacklists_now pd); [|by wp_step]. unfold set_malware. wp_run.
    apply (inv_config _ _ pd); [done..|]. destruct Hl. split; try done. by intros [? ?].
Qed.
Lemma runs_periodic t active z : (t = true -> jni_ok) -> runs t active (periodic_turn z).
Proof.
  intros Hj. unfold periodic_turn. apply runs_get. intros pd Hi.
  destruct (stats_due pd); [by apply runs_safe; [apply safe_keeps0, keeps_send_stats|]|].
  destruct (_ <=? _); [by apply runs_connections_turn|].
  wp_step. eapply wp_mono; [by apply runs_dumper_turn|]. intros exported pd1 Hi1.
  destruct exported; [by wp_step|]. destruct (md_enabled _); [by apply runs_malware_turn|by wp_step].
Qed.

(** The open connections, as [iter_active_connections] lists them. *)
Definition active_ok (active : gset Z) (l : list (zdtun_5tuple * Z)) : Prop :=
  Forall (fun a => ip_ok (dst_ip a.1) /\ a.2 ∈ active) l.

Lemma wp_for_active t active l cb pd :
  active_ok active l -> inv t active pd ->
  (forall tuple p pd', ip_ok (dst_ip tuple) -> p ∈ active -> inv t active pd' -> config pd' = config pd ->
     wp (cb tuple p) (fun _ pd'' => inv t active pd'' /\ config pd'' = config pd') pd') ->
  wp (for_active l cb) (fun _ pd' => inv t active pd' /\ config pd' = config pd) pd.
Proof.
  intros Hl Hi Hcb. unfold for_active.
  apply (wp_mono _ (fun _ pd' => active_ok active [] /\ inv t active pd' /\ config pd' = config pd)); [|by intros [] ? []].
  apply (wp_for (fun l pd' => active_ok active l /\ inv t active pd' /\ config pd' = config pd)); [done|].
  intros [tuple p] l' pd1 ([[Ht Hp] Hl']%Forall_cons & Hi1 & Hc1).
  eapply wp_mono; [by apply Hcb|]. intros [] pd2 [Hi2 Hc2]. split_and!; [done|done|congruence].
Qed.

(** Taking the new whitelist of the malware detection. *)
Lemma runs_new_whitelist t active l wl pd :
  active_ok active l -> inv t active pd -> md_new_wl (malware_detection pd) = Some wl ->
  wp (set_malware (fun m => m <| md_whitelist := Some wl |> <| md_new_wl := None |>) ;;
      for_active l check_blacklisted_conn_cb) (fun _ => inv t active) pd.
Proof.
  intros Hl Hi Hwl. unfold set_malware. wp_step. wp_step.
  match goal with |- wp _ _ ?x => set (pd1 := x) end.
  assert (Hi1 : inv t active pd1).
  { apply (inv_config _ _ pd); [done..|]. pose proof (iv_lists _ _ _ Hi) as []. split; try done; cbn; by rewrite <-Hwl. }
  eapply wp_mono; [apply (wp_for_active t active _ _ pd1 Hl Hi1)|by intros [] ? []].
  intros tuple p pd' Ht Hp Hi' Hc'. apply safe_blacklisted_cb; [done..|].
  injection Hc' as -> _ _ _. by eexists.
Qed.

Lemma runs_blocked_cb t active l pd :
  active_ok active l -> inv t active pd -> wp (for_active l check_blocked_conn_cb) (fun _ => inv t active) pd.
Proof.
  intros Hl Hi. eapply wp_mono; [apply (wp_for_active t active _ _ pd Hl Hi)|by intros [] ? []].
  intros tuple p pd' Ht Hp Hi' Hc'. by apply safe_blocked_cb.
Qed.

Lemma runs_take_new_lists t active l : active_ok active l -> runs t active (take_new_lists l).
Proof.
  intros Hl. unfold take_new_lists. apply runs_get. intros pd Hi.
  wp_step. apply (wp_mono _ (fun _ => inv t active)).
  { destruct (md_new_wl (malware_detection pd)) as [wl|] eqn:E; [|by wp_step]. by apply runs_new_whitelist. }
  clear pd Hi. intros [] pd Hi. wp_step. wp_step. wp_step.
  apply (wp_mono _ (fun _ => inv t active)).
  { pose proof (iv_lists _ _ _ Hi) as Hk. unfold set_firewall.
    destruct (fw_new_bl (firewall pd)) as [bl|] eqn:E1; [|destruct (fw_new_wl (firewall pd)) as [wl|] eqn:E2];
      [wp_step; wp_step; apply runs_blocked_cb; [done|]..|by wp_step].
    - apply (inv_config _ _ pd); [done..|]. destruct Hk. split; try done; cbn; by rewrite <-E1.
    - apply (inv_config _ _ pd); [done..|]. destruct Hk. split; try done; cbn; by rewrite <-E2. }
  clear pd Hi. intros [] pd Hi. wp_step. wp_step. pose proof (iv_lists _ _ _ Hi) as Hk.
  destruct (tls_new_list (tls_decryption pd)) as [tl|] eqn:E; wp_step; [|done].
  apply (inv_config _ _ pd); [done..|]. destruct Hk. split; try done; cbn; by rewrite <-E.
Qed.

Lemma runs_housekeeping t active z l :
  (t = true -> jni_ok) -> active_ok active l -> runs t active (pd_housekeeping z l).
Proof.
  intros Hj Hl. apply runs_bind; [by apply runs_periodic|]. intros _. by apply runs_take_new_lists.
Qed.

(** ** The reload of the malware lists *)

Section reload.
Context `{HI : InetPton} `{HIok : !InetPtonOk HI}.
Context (Hfiles : forall path f ty, files path = Some f -> Forall (numbers_ok ty) (lines_of f)).

(** The invariant of the array of statuses, while [cur_items <= size]. *)
Record status_rep (st : bl_status_arr) (n : nat) : Prop := {
    sr_cur : st_cur_items st = Z.of_nat n;
    sr_cells : match st_items st with
               | None => n = 0%nat /\ st_size st = 0
               | Some l => st_size st = Z.of_nat (length l) /\ (n <= length l)%nat /\
                           exists l1 l2, l = (Some <$> l1) ++ l2 /\ length l1 = n
               end;
  }.

Lemma status_rep_items st n : status_rep st n -> is_Some (status_items st).
Proof.
  intros [Hc Hs]. unfold status_items. destruct (st_items st) as [l|].
  - destruct Hs as (_ & Hn & l1 & l2 & -> & Hl). rewrite (proj2 (Z.leb_le _ _)) by lia.
    rewrite Hc, Nat2Z.id, take_app_length' by (by rewrite length_fmap). rewrite mapM_id_some. by eexists.
  - destruct Hs as [-> _]. rewrite Hc. by eexists.
Qed.
(** The array is extended at every turn: it always has room. *)
Lemma wp_add_status st n fname num pd :
  status_rep st n ->
  wp (add_status st fname num) (fun st' pd' => same pd pd' /\ exists n', status_rep st' n') pd.
Proof.
  intros [Hc Hs]. unfold add_status. rewrite (proj2 (Z.leb_le _ _)).
  2:{ destruct (st_items st); [lia|]. destruct Hs as [-> ->]. lia. }
  set (size' := if st_size st =? 0 then 8 else st_size st * 2).
  set (old := default [] (st_items st)).
  assert (Hold : exists l1 l2, old = (Some <$> l1) ++ l2 /\ length l1 = n /\ Z.of_nat (length old) <= size' /\
    Z.of_nat n < size').
  { unfold old, size'. destruct (st_items st) as [l|]; simpl.
    - destruct Hs as (Hsz & Hn & l1 & l2 & El & Hl1). exists l1, l2. split_and!; [done|done|..];
        destruct (Z.eqb_spec (st_size st) 0); lia.
    - destruct Hs as [-> ->]. exists [], []. simpl. split_and!; done || lia. }
  destruct Hold as (l1 & l2 & Eold & Hl1 & Hsz & Hroom).
  set (cells := take (Z.to_nat size') old ++ replicate (Z.to_nat size' - length old) None).
  assert (Hcells : exists l3, cells = (Some <$> l1) ++ l3 /\ Z.of_nat (length cells) = size').
  { exists (l2 ++ replicate (Z.to_nat size' - length old) None). unfold cells. rewrite take_ge by lia.
    split; [by rewrite app_assoc, <-Eold|]. rewrite length_app, length_replicate. lia. }
  destruct Hcells as (l3 & Ecells & Hlen).
  wp_step. cbv zeta. wp_step. apply wp_ask. rewrite Hrealloc. wp_step. cbn [negb].
  assert (Hst : forall n', n' = n -> status_rep (st <| st_items := Some cells |> <| st_size := size' |>) n').
  { intros n' ->. split; [done|]. cbn. split_and!; [lia|lia|]. by exists l1, l3. }
  wp_step. apply wp_ask. destruct (a_mem _); cbn [negb]; [|wp_step; split; [by split|eauto]].
  wp_step. eapply wp_lift; [done|]. cbn [st_cur_items set_field].
  change (st_cur_items (st <| st_items := Some cells |> <| st_size := size' |>)) with (st_cur_items st).
  rewrite Hc, Hlen, (proj2 (Z.leb_le _ _)), (proj2 (Z.ltb_lt _ _)) by lia. cbn [andb]. wp_step.
  split; [by split|]. exists (S n). split; [cbn -[Z.of_nat]; lia|]. cbn -[Z.of_nat]. rewrite length_insert, Nat2Z.id.
  split_and!; [lia|lia|]. rewrite Ecells, length_app, length_fmap in Hlen.
  destruct l3 as [|x l3]; [simpl in Hlen; lia|].
  exists (l1 ++ [(fname, num)]), l3. split; [|rewrite length_app, Hl1; simpl; lia].
  rewrite Ecells, <-Hl1, fmap_app, <-app_assoc. simpl.
  by rewrite insert_app_r_alt, length_fmap, Nat.sub_diag by (by rewrite length_fmap).
Qed.

Lemma wp_load_lists infos bl st rules n pd :
  bl_ok rules bl -> status_rep st n ->
  wp (load_lists infos bl st) (fun r pd' => same pd pd' /\ (exists rules, bl_ok rules r.1) /\
    exists n, status_rep r.2 n) pd.
Proof.
  revert bl st rules n pd. induction infos as [|i infos IH]; intros bl st rules n pd Hbl Hst.
  { cbn [load_lists]. wp_step. split_and!; [done|by exists rules|by exists n]. }
  cbn [load_lists]. cbv zeta. wp_step. unfold file_mem. wp_run.
  set (mem := fun k => (a_mem (sys (calls pd + 2 * k)), a_mem (sys (calls pd + 2 * k + 1)))).
  set (k := calls pd) in mem.
  match goal with |- wp _ _ ?x => set (pd1 := x) end.
  assert (Hs1 : same pd pd1) by (by split).
  assert (Hload : exists rv stats bl' rules', blacklist_load_file (files (list_path (bi_fname i))) (bi_type i) mem bl
    = Some (rv, stats, bl') /\ bl_ok rules' bl').
  { destruct (files (list_path (bi_fname i))) as [f|] eqn:Ef.
    - destruct (load_file_wp rules f (bi_type i) mem bl Hbl) as ([rv s] & bl' & E & Hok & _); [by eapply Hfiles|].
      by eexists rv, s, bl', _.
    - by exists (-1), None, bl, rules. }
  destruct Hload as (rv & stats & bl' & rules' & Eload & Hbl').
  eapply wp_lift; [exact Eload|]. cbv beta iota. wp_step.
  apply (wp_mono _ (fun st' pd2 => same pd1 pd2 /\ exists n', status_rep st' n')).
  { assert (Hret : wp (mret st) (fun st' pd2 => same pd1 pd2 /\ exists n', status_rep st' n') pd1)
      by (wp_step; split; [done|by exists n]).
    destruct stats as [s|]; [|done]. destruct (rv =? 0); [|done]. by apply (wp_add_status _ n). }
  intros st' pd2 [Hs2 [n' Hst']]. eapply wp_mono; [by apply (IH bl' st' rules' n')|].
  intros r pd3 (Hs3 & Hr). split; [|done]. apply (same_trans _ pd1); [done|]. by apply (same_trans _ pd2).
Qed.

Lemma wp_load pd0 : wp load_new_blacklists (fun _ => reloaded pd0) pd0.
Proof.
  unfold load_new_blacklists, set_malware. wp_step. apply wp_ask.
  set (pd1 := pd0 <| calls ::= S |>). assert (Hs1 : same pd0 pd1) by (by split).
  assert (Hdone : forall pd, same pd0 pd ->
    reloaded pd0 (pd <| malware_detection ::= fun m => m <| reload_done := true |> |>)).
  { intros pd Hs. apply (reloaded_trans _ pd); [by apply reloaded_same|by apply reloaded_set]. }
  destruct (a_mem _); cbn [negb]; [|wp_step; by apply Hdone].
  wp_step. apply wp_ask. wp_step. apply wp_ask.
  match goal with |- wp _ _ ?x => set (pd2 := x) end.
  assert (Hs2 : same pd0 pd2) by (by split).
  destruct (blacklist_init _ _) as [bl0|] eqn:E0; [|wp_step; by apply Hdone].
  assert (bl0 = bl_empty) as ->.
  { revert E0. unfold blacklist_init. destruct (a_mem (sys (calls pd1))); [|done].
    destruct (a_mem (sys _)); [|done]. by intros [= <-]. }
  wp_step. wp_step. wp_step. eapply wp_mono.
  { apply (wp_load_lists _ bl_empty _ [] 0%nat); [apply bl_ok_empty|by split]. }
  intros r pd3 (Hs3 & [rules Hbl] & n & Hst).
  wp_step. apply wp_ask. wp_step. apply wp_ask.
  match goal with |- wp _ _ ?x => set (pd4 := x) end.
  assert (Hs4 : same pd0 pd4).
  { apply (same_trans _ pd2); [done|]. apply (same_trans _ pd3); [done|by split]. }
  match goal with |- context [blacklist_add_domain ?d ?a ?b ?c] =>
    destruct (add_domain_wp rules d a b c Hbl) as (rv1 & bl1 & E1 & Hbl1 & _) end.
  wp_step. eapply wp_lift; [exact E1|]. cbn [snd].
  match goal with |- context [blacklist_add_ipstr ?d bl1] =>
    destruct (add_ipstr_wp rules d bl1 Hbl1) as (rv2 & bl2 & E2 & _ & Hbl2) end.
  wp_step. eapply wp_lift; [exact E2|]. cbn [snd]. wp_step.
  apply (reloaded_trans _ pd4); [by apply reloaded_same|]. apply reloaded_set; [done..|cbn|].
  - intros Hl _. split; [done|]. intros l [= <-]. by eexists.
  - intros _ _. eexists. split; [done|]. by eapply status_rep_items.
Qed.

Lemma runs_load t active : runs t active load_new_blacklists.
Proof.
  intros pd Hi. eapply wp_mono; [apply wp_load|]. intros [] pd' Hr. by eapply inv_reloaded.
Qed.
End reload.
End ops.
End PdSafe.
