(* ===== verification/PdVpnSafe.v ===== *)
(** * The callbacks of the VPN capture keep the ownership invariant *)

From S2P Require Import Prelude CString UtHash ZdtunTypes ZdtunConn ZdtunPkt PortMap ZdtunWire PcapDump PdTypes PdCheck PdNotify PdConn PdProcess PdHouse PdVpn PdFrame PdOwn PdLife PdSend PdSafe.

Module PdVpnSafe.
Export PdSafe PdVpn.
Import ZdtunWire.

Section ops.
Context `{PdEnv} {T : Told}.
Context (Hproto : forall n, proto_ok (a_proto (sys n))).
Context (Hstrdup : forall n, a_strdup (sys n) = true).
Context (Hrealloc : forall n, a_realloc (sys n) = true).

Lemma keeps_timestamp ps : keeps ps get_pkt_timestamp.
Proof. unfold get_pkt_timestamp. keep. Qed.
Lemma wp_refresh (Q : unit -> pcapdroid -> Prop) pd :
  (forall pd', same pd pd' -> Q tt pd') -> wp pd_refresh_time Q pd.
Proof.
  intros HQ. unfold pd_refresh_time. wp_step. apply wp_ask. cbv beta iota.
  apply wp_when; intros _; [wp_step|]; by apply HQ.
Qed.
Lemma keeps_refresh ps : keeps ps pd_refresh_time.
Proof. intros pd _. by apply wp_refresh. Qed.
Lemma keeps_resolve_uid ps : keeps ps resolve_uid.
Proof. unfold resolve_uid. keep. Qed.

(** ** New connections *)

Lemma wp_handle_new t active tuple (Q : option Z -> pcapdroid -> Prop) pd :
  ip_ok (dst_ip tuple) -> inv t active pd -> (forall p, ~ told p) ->
  (forall pd', inv t active pd' -> Q None pd') ->
  (forall p pd', p ∉ active -> inv t ({[p]} ∪ active) pd' -> Q (Some p) pd') ->
  wp (handle_new_connection tuple) Q pd.
Proof.
  intros Ht Hi Hnt HN HS. unfold handle_new_connection. wp_step. eapply wp_mono.
  { eapply (safe_keeps0 t active); [apply keeps_resolve_uid|exact Hi]. }
  intros u pd1 [Hi1 _]. eapply (wp_new_connection tuple Ht Hproto Hstrdup Hrealloc); [exact Hi1|by apply Hnt|..].
  - intros pd2 Hi2 _. by apply HN.
  - intros p pd2 Hp Hi2 _. by apply HS.
Qed.

(** ** Packets towards the client *)

(** A live connection, which may be waiting to be freed. *)
Lemma wp_count_blocked t active tuple p pd :
  ip_ok (dst_ip tuple) -> inv t active pd -> is_Some (own_of p pd) ->
  wp (count_blocked tuple p) (fun _ pd' => inv t active pd' /\ config pd' = config pd /\ is_Some (own_of p pd')) pd.
Proof.
  intros Ht Hi [o Ho]. unfold count_blocked, pd_notify_connection_update.
  apply (wp_update_notif tuple Ht Hproto Hstrdup Hrealloc t active p _ o (fun _ => mret tt)); [done..| |].
  - intros c. split; [done|]. split; [unfold or_update; keep_named|]. cbn. intros [_ E]%Z.lor_eq_0_iff. done.
  - intros pd' Hi' Hc Ho'. by wp_step.
Qed.

Lemma wp_account_forwarded t active p pd :
  inv t active pd -> is_Some (own_of p pd) ->
  wp (account_forwarded p) (fun _ pd' => inv t active pd' /\ config pd' = config pd /\ is_Some (own_of p pd')) pd.
Proof.
  intros Hi Hp. unfold account_forwarded. destruct (live_conn [p] p pd) as [c Hc]; [by eapply inv_live|set_solver|].
  wp_step. eapply wp_conn_at; [done|]. destruct (fw_pctx c) as [px|] eqn:Hpx; [|by wp_step].
  destruct (iv_named _ _ _ Hi p c Hc) as [_ Hn _]. destruct (Hn px Hpx) as (Hd & Hpkt & Ht).
  wp_step. eapply wp_mono; [apply (wp_account_stats Hproto Hstrdup Hrealloc t active); by rewrite ?Hd|].
  rewrite Hd. intros [] pd1 (Hi1 & Hc1 & Ho1). eapply (inv_keeps _ _ p); [exact Hi1|done|keep|].
  intros [] pd2 Hi2 Hs2. split_and!; [done|rewrite <-Hc1; by apply same_config|by rewrite (own_of_same p _ _ Hs2)].
Qed.
Lemma safe_account_forwarded t active p : p ∈ active -> safe t active (account_forwarded p).
Proof.
  intros Hp pd Hi. eapply wp_mono; [apply (wp_account_forwarded t active); [done|by eapply inv_active_own]|].
  by intros [] pd' (? & ? & _).
Qed.

Lemma safe_write t active pkt : pkt_fine pkt -> safe t active (write_tun pkt).
Proof.
  intros []. apply safe_keeps0. unfold write_tun, emit. keep.
  destruct (rdn_is_Some (Z.to_nat (pkt_len pkt)) (pkt_mem pkt) 0) as (l & -> & _); [lia..|done|by eexists].
Qed.

Lemma safe_remote2vpn t active tuple p pkt :
  pkt_fine pkt -> ip_ok (dst_ip tuple) -> p ∈ active -> safe t active (remote2vpn tuple p pkt).
Proof.
  intros Hpkt Ht Hp. unfold remote2vpn. apply safe_get. intros pd0.
  destruct (running pd0); cbn [negb]; [|apply safe_ret].
  apply safe_bind; [by apply safe_account_forwarded|intros _].
  apply safe_bind; [apply safe_keeps0, keeps_refresh|intros _].
  apply safe_bind; [apply safe_keeps0, keeps_timestamp|intros tv]. clear pd0.
  intros pd Hi. wp_step. eapply wp_mono; [by apply (wp_process_packet Hproto Hstrdup Hrealloc t active)|].
  intros px pd1 (-> & Hi1 & Hc1). rewrite <-Hc1. clear Hi Hc1. revert pd1 Hi1.
  apply (safe_bind t active); [by eapply safe_keeps; [exact Hp|keep]|intros c].
  destruct (to_block c).
  { apply safe_bind; [|intros _; apply safe_ret]. intros pd1 Hi1.
    eapply wp_mono; [apply (wp_count_blocked t active); [done|done|by eapply inv_active_own]|]. by intros [] pd2 (? & ? & _). }
  apply safe_bind; [by apply safe_write|intros rv]. destruct (rv <? 0).
  { apply safe_bind; [|intros _; apply safe_ret]. apply safe_keeps0. keep. }
  destruct (negb _); [apply safe_ret|].
  apply safe_bind; [by apply safe_account|intros _; apply safe_ret].
Qed.
(** ** The first packet of a connection *)

Definition same_conn (zc zc' : zdtun_conn) : Prop :=
  c_tuple zc' = c_tuple zc /\ status zc' = status zc /\ conn_proxy_ok zc'.

Lemma wp_new_dns t active pd :
  inv t active pd -> wp use_new_dns_server (fun _ => inv t active) pd.
Proof.
  intros Hi. unfold use_new_dns_server. wp_step. wp_step. apply wp_when; intros _; [|done].
  wp_step. apply (inv_config _ _ pd); [done..|]. destruct (iv_lists _ _ _ Hi). by split.
Qed.

Lemma wp_check_dns t active zc px pd :
  pkt_fine (px_pkt px) -> ip_ok (dst_ip (px_tuple px)) -> conn_proxy_ok zc -> inv t active pd ->
  wp (check_dns_req_allowed zc px) (fun r pd' => inv t active pd' /\ same_conn zc (snd r)) pd.
Proof.
  intros Hpkt Ht Hz Hi. unfold check_dns_req_allowed. wp_step. eapply wp_mono; [by apply (wp_new_dns t active)|].
  clear pd Hi. intros [] pd Hi. wp_step. wp_step. cbv zeta.
  assert (Hret : forall b (pd' : pcapdroid), inv t active pd' ->
    wp (mret (b, zc)) (fun (r : bool * zdtun_conn) pd' => inv t active pd' /\ same_conn zc (snd r)) pd').
  { intros b pd' Hi'. wp_step. split; [done|by split_and!]. }
  case_match; [by apply Hret|]. wp_step.
  apply (wp_mono _ (fun _ pd' => inv t active pd')).
  { destruct (_ || _); [by wp_step|]. destruct (lk_dns _ (iv_lists _ _ _ Hi)) as [[known Hk] Hl].
    wp_step. eapply wp_lift; [exact Hk|].
    eapply wp_mono; [eapply (safe_keeps0 t active); [|exact Hi]|by intros ? ? []].
    apply keeps_ip_in_list; [done|by rewrite <-Hk]. }
  intros dns pd1 Hi1. destruct dns; cbn [negb]; [|by apply Hret].
  destruct (is_dns _ && _) eqn:Ed; [|by apply Hret].
  apply andb_true_iff in Ed as [_ El]. unfold DNS_PACKET_LEN in El. destruct Hpkt. wp_step.
  destruct (rd16_is_Some (pkt_mem (px_pkt px)) (pkt_l7 (px_pkt px) + 2)) as (fl & Hfl & _); [lia|lia|done|].
  eapply wp_lift; [exact Hfl|]. destruct (negb _); [by apply Hret|]. wp_step. wp_step.
  match goal with |- wp _ _ ?x => set (pd2 := x) end.
  assert (Hi2 : inv t active pd2) by (by apply (pd_inv_same _ _ pd1)).
  destruct (is_internal_dns _ _); [|by apply Hret].
  wp_step. split; [done|]. split_and!; [done..|apply zdtun_conn_dnat_ok].
Qed.

(** The scan of the query stays in the packet. *)
Lemma query_len_safe mem q fuel : forall qlen remaining,
  bytes_ok mem -> 0 <= q + qlen -> q + qlen + remaining <= Z.of_nat (length mem) -> 0 <= qlen ->
  Z.max 4 remaining < Z.of_nat fuel + 4 -> 4 <= remaining ->
  exists n, query_len fuel mem q qlen remaining = Some n /\ qlen <= n /\ n + 4 <= qlen + remaining.
Proof.
  induction fuel as [|fuel IH]; intros qlen remaining Hm Hq He Hn Hf Hr; [lia|]. cbn [query_len].
  destruct (Z.leb_spec 5 remaining); [|exists qlen; split; [done|lia]].
  destruct (rd8_is_Some mem (q + qlen)) as (b & -> & _); [lia|done|]. cbn [mbind option_bind].
  destruct (b =? 0); [exists qlen; split; [done|lia]|].
  destruct (IH (qlen + 1) (remaining - 1)) as (n & -> & ?); [done|lia..|]. exists n. split; [done|lia].
Qed.

Lemma bytes_are_safe {A} mem l (k : option (option A)) :
  bytes_ok mem -> Forall (fun b => 0 <= b.1 < Z.of_nat (length mem)) l -> is_Some k ->
  exists r, bytes_are mem l k = Some r /\ (r = None \/ k = Some r).
Proof.
  intros Hm Hl [r Hk]. induction Hl as [|[off v] l Ho Hl IH]; [exists r; rewrite <-Hk; auto|].
  cbn [bytes_are fst] in *. destruct (rd8_is_Some mem off) as (b & -> & _); [lia|done|]. cbn [mbind option_bind].
  destruct (b =? v); [done|]. exists None. auto.
Qed.

Lemma dns_query_safe pkt :
  pkt_fine pkt ->
  exists r, dns_query_of pkt = Some r /\ forall qlen qtype, r = Some (qlen, qtype) ->
    DNS_PACKET_LEN + 5 <= pkt_l7_len pkt /\ 0 <= qlen /\ DNS_PACKET_LEN + qlen + 4 <= pkt_l7_len pkt /\
    (qtype = 1 \/ qtype = 0x1c).
Proof.
  intros []. unfold dns_query_of, DNS_PACKET_LEN. destruct (Z.ltb_spec (pkt_l7_len pkt) (12 + 5)); [by eexists|].
  cbv zeta. destruct (rd16_is_Some (pkt_mem pkt) (pkt_l7 pkt + 4)) as (nq & -> & _); [lia|lia|done|].
  cbn [mbind option_bind]. destruct (negb _); [by eexists|].
  destruct (query_len_safe (pkt_mem pkt) (pkt_l7 pkt + 12) (S (Z.to_nat (pkt_l7_len pkt - 12))) 0
    (pkt_l7_len pkt - 12)) as (n & -> & Hn); [done|lia..|]. cbn [mbind option_bind].
  destruct (rd8_is_Some (pkt_mem pkt) (pkt_l7 pkt + 12 + n + 2)) as (ty & -> & _); [lia|done|].
  cbn [mbind option_bind].
  match goal with |- context [bytes_are ?m ?l ?k] =>
    destruct (bytes_are_safe m l k) as (r & -> & Hr) end; [done| |by case_match; eexists|].
  { repeat constructor; cbn; lia. }
  eexists. split; [done|]. intros qlen qtype ->. destruct Hr as [|Hr]; [done|].
  destruct (negb (ty =? 1) && negb (ty =? 28)) eqn:Ety; [done|]. injection Hr as <- <-. lia.
Qed.

Lemma dns_answer_fine qtype alen :
  u_ok 8 qtype -> 0 <= alen <= 16 ->
  bytes_ok (dns_answer qtype alen) /\ Z.of_nat (length (dns_answer qtype alen)) = 12 + alen.
Proof.
  intros Hq Ha. unfold dns_answer. split.
  - solve_bytes. by apply Forall_replicate.
  - rewrite !length_app, length_le_bytes, length_replicate. cbn [length]. lia.
Qed.

Lemma build_dns_reply_safe ver tuple mem l7 qlen qtype :
  tuple_ok tuple -> bytes_ok mem -> 0 <= l7 -> 0 <= qlen -> l7 + 12 + qlen + 5 <= Z.of_nat (length mem) ->
  qtype = 1 \/ qtype = 0x1c ->
  is_Some (build_dns_reply ver tuple mem l7 qlen qtype).
Proof.
  intros Ht Hm Hl Hq He Hty. unfold build_dns_reply, zdtun_make_iphdr, DNS_PACKET_LEN. cbv zeta.
  set (alen := if qtype =? 1 then 4 else 16).
  assert (Ha : 0 <= alen <= 16) by (unfold alen; case_match; lia).
  set (ipl := zdtun_iphdr_len ver). assert (Hip : 20 <= ipl <= 40) by (unfold ipl; destruct (iphdr_len_cases ver); lia).
  set (len := ipl + 8 + 12 + qlen + 5 + 12 + alen).
  assert (Hst : forall off bs buf, 0 <= off -> off + Z.of_nat (length bs) <= len -> bytes_ok bs ->
    bytes_ok buf /\ Z.of_nat (length buf) = len ->
    exists buf', wrn off bs buf = Some buf' /\ bytes_ok buf' /\ Z.of_nat (length buf') = len).
  { intros off bs buf Ho Hfit Hbs [Hb Hlb]. destruct (wrn_safe off bs buf) as (b & E & El & Eb); [lia|lia|done|done|].
    exists b. split_and!; [done|done|lia]. }
  assert (Hrd : forall n off, 0 <= off -> off + Z.of_nat n <= Z.of_nat (length mem) ->
    exists l, rdn n mem off = Some l /\ length l = n /\ bytes_ok l) by (intros; apply rdn_is_Some; done).
  pose proof (length_iphdr ver tuple (u16 (len - ipl)) Ht) as Hlh. fold ipl in Hlh.
  edestruct (Hst 0) as (b1 & -> & H1); [lia| |by apply iphdr_bytes_ok| |]; [lia| |].
  { split; [by apply Forall_replicate|rewrite length_replicate; lia]. }
  cbn [mbind option_bind].
  edestruct (Hst ipl (udphdr_reply tuple (len - ipl))) as (b2 & -> & H2); [lia|cbn; lia| |done|].
  { unfold udphdr_reply. solve_bytes. }
  cbn [mbind option_bind].
  destruct (Hrd 2%nat l7) as (id & -> & Lid & Bid); [lia..|]. cbn [mbind option_bind].
  destruct (Hrd 2%nat (l7 + 4)) as (qs & -> & Lqs & Bqs); [lia..|]. cbn [mbind option_bind].
  edestruct (Hst (ipl + 8)) as (b3 & -> & H3); [lia| | |done|].
  2:{ solve_bytes. }
  { rewrite !length_app, length_le_bytes, Lid, Lqs. simpl. lia. }
  cbn [mbind option_bind].
  destruct (Hrd (Z.to_nat (qlen + 5)) (l7 + 12)) as (q & -> & Lq & Bq); [lia..|]. cbn [mbind option_bind].
  edestruct (Hst (ipl + 8 + 12)) as (b4 & -> & H4); [lia|rewrite Lq; lia|done|done|]. cbn [mbind option_bind].
  destruct (dns_answer_fine qtype alen) as [Ban Lan]; [unfold u_ok; lia|done|].
  edestruct (Hst (ipl + 8 + 12 + qlen + 5)) as (b5 & -> & H5); [lia|rewrite Lan; lia|done|done|].
  cbn [mbind option_bind].
  assert (Hu : 0 <= u16 (len - ipl) <= len - ipl).
  { unfold uwrap. split; [apply Z.mod_pos_bound; lia|]. apply Z.mod_le; lia. }
  destruct (l3_checksum_safe ver (ipproto tuple) b5 ipl (u16 (len - ipl))) as [sum ->]; [apply H5|lia..|].
  cbn [mbind option_bind].
  edestruct (Hst (ipl + 6) (le_bytes 2 sum)) as (b6 & -> & _); [lia|rewrite length_le_bytes; lia|apply le_bytes_ok|done|].
  by eexists.
Qed.

Lemma keeps_spoof ps ver px :
  pkt_fine (px_pkt px) -> tuple_ok (px_tuple px) -> keeps ps (spoof_dns_reply ver px).
Proof.
  intros Hpkt Ht. unfold spoof_dns_reply, emit. destruct (dns_query_safe (px_pkt px) Hpkt) as (r & Hr & Hq).
  apply keeps_lift_bind; [by eexists|]. intros r'. rewrite Hr. intros [= <-].
  destruct r as [[qlen qtype]|]; [|keep]. destruct (Hq _ _ eq_refl) as (? & ? & ? & ?).
  apply keeps_lift_bind; [|intros; keep]. unfold DNS_PACKET_LEN in *. destruct Hpkt.
  apply build_dns_reply_safe; [done|done|lia..|done].
Qed.
Lemma wp_redirect t active m zc p pd :
  PortMap.mappings_ok m -> ip_ok (dst_ip (c_tuple zc)) -> conn_proxy_ok zc -> p ∈ active -> inv t active pd ->
  wp (vpn_redirect m zc p) (fun zc' pd' => same_conn zc zc' /\ inv t active pd') pd.
Proof.
  intros Hm Ht Hz Hp Hi. unfold vpn_redirect. wp_step.
  eapply wp_lift; [by apply PortMap.pd_check_port_map_rules|].
  destruct (PortMap.first_rule _ _) as [r|]; cbn [PortMap.apply_rule fst snd].
  { wp_step. eapply wp_mono; [eapply (safe_keeps t active p); [exact Hp|keep|exact Hi]|].
    intros [] pd1 [Hi1 _]. wp_step. split; [|done]. split_and!; [done..|apply zdtun_conn_dnat_ok]. }
  wp_step. eapply wp_mono; [eapply (safe_keeps t active p); [exact Hp|apply keeps_proxify; [done|set_solver]|exact Hi]|].
  intros b pd1 [Hi1 _]. destruct b; [|wp_step; by split_and!].
  wp_step. eapply wp_mono; [eapply (safe_keeps t active p); [exact Hp|keep|exact Hi1]|].
  intros [] pd2 [Hi2 _]. wp_step. split; [|done].
  unfold same_conn, zdtun_conn_proxy. case_match; split_and!; done.
Qed.

Lemma wp_first_packet t active socks5 zc px pd :
  pkt_fine (px_pkt px) -> tuple_ok (px_tuple px) -> conn_proxy_ok zc -> px_data px ∈ active -> inv t active pd ->
  wp (vpn_first_packet socks5 zc px) (fun r pd' => same_conn zc (snd r) /\ inv t active pd') pd.
Proof.
  intros Hpkt Htu Hz Hp Hi. assert (Ht : ip_ok (dst_ip (px_tuple px))) by apply Htu.
  set (p := px_data px) in *. unfold vpn_first_packet. fold p. cbv zeta.
  wp_step. eapply wp_mono; [eapply (safe_keeps t active p); [exact Hp|keep|exact Hi]|]. intros c0 pd1 [Hi1 _].
  wp_step. apply (wp_mono _ (fun zc' pd' => same_conn zc zc' /\ inv t active pd')).
  { destruct (negb _); [|by wp_step; split_and!]. wp_step. eapply wp_mono; [by apply (wp_check_dns t active)|].
    intros [b zc'] pd2 [Hi2 Hs]. cbn [fst snd] in *. wp_step.
    eapply wp_mono; [eapply (safe_keeps t active p); [exact Hp|keep|exact Hi2]|]. intros [] pd3 [Hi3 _]. by wp_step. }
  intros zc1 pd2 [Hs1 Hi2]. pose proof Hs1 as (_ & _ & Hz1). wp_step.
  eapply wp_mono; [eapply (safe_keeps t active p); [exact Hp|keep|exact Hi2]|]. intros [] pd3 [Hi3 _].
  wp_step. eapply wp_mono; [eapply (safe_keeps t active p); [exact Hp|keep|exact Hi3]|]. intros c pd4 [Hi4 _].
  destruct (_ && _ && _); [|by wp_step].
  destruct (sock_ipver_is_Some socks5 zc1 Hz1) as [ver Hver]. wp_step. eapply wp_lift; [exact Hver|].
  wp_step. eapply wp_mono; [eapply (safe_keeps0 t active); [by apply keeps_spoof|exact Hi4]|].
  intros _ pd5 [Hi5 _]. by wp_step.
Qed.

(** ** A packet of the client *)

Lemma wp_vpn_judge t active m socks5 zc p pkt pd :
  PortMap.mappings_ok m -> pkt_fine pkt -> tuple_ok (c_tuple zc) -> conn_proxy_ok zc -> p ∈ active -> inv t active pd ->
  wp (vpn_judge m socks5 zc p pkt) (fun r pd' =>
    (exists tv, fst r = pkt_context_of pkt true (c_tuple zc) p tv) /\ same_conn zc (snd (snd r)) /\ inv t active pd') pd.
Proof.
  intros Hm Hpkt Htu Hz Hp Hi. assert (Ht : ip_ok (dst_ip (c_tuple zc))) by apply Htu.
  unfold vpn_judge. cbv zeta.
  wp_step. eapply wp_mono; [eapply (safe_keeps t active p); [exact Hp|keep|exact Hi]|]. intros c0 pd1 [Hi1 _].
  wp_step. apply (wp_mono _ (fun zc' pd' => same_conn zc zc' /\ inv t active pd')).
  { destruct (_ =? 0); [by apply wp_redirect|wp_step; by split_and!]. }
  intros zc1 pd2 [(Ec1 & Es1 & Hz1) Hi2]. wp_step.
  eapply wp_mono; [eapply (safe_keeps0 t active); [apply keeps_timestamp|exact Hi2]|]. intros tv pd3 [Hi3 _].
  wp_step. eapply wp_mono; [by apply (wp_process_packet Hproto Hstrdup Hrealloc t active)|].
  intros px pd4 (-> & Hi4 & _). wp_step.
  eapply wp_mono; [eapply (safe_keeps t active p); [exact Hp|keep|exact Hi4]|]. intros c1 pd5 [Hi5 _].
  wp_step. apply (wp_mono _ (fun r pd' => same_conn zc (snd r) /\ inv t active pd')).
  { destruct (_ =? 0); [|wp_step; by split_and!].
    eapply wp_mono; [by apply (wp_first_packet t active)|]. intros r pd' [(Ec & Es & Hr) Hi']. split; [|done].
    split_and!; [congruence|congruence|done]. }
  intros r pd6 [Hs Hi6]. wp_step. split_and!; [by exists tv|done|done].
Qed.

Lemma wp_vpn_allow t active tuple p px pd :
  pkt_fine (px_pkt px) -> px_tuple px = tuple -> px_data px = p -> ip_ok (dst_ip tuple) -> is_Some (own_of p pd) ->
  inv t active pd -> wp (vpn_allow tuple p px) (fun _ pd' => inv t active pd' /\ is_Some (own_of p pd')) pd.
Proof.
  intros Hpkt Htu Hd Ht Ho Hi. unfold vpn_allow. wp_step.
  eapply (inv_keeps _ _ p); [exact Hi|done|keep|]. intros c pd1 Hi1 Hs1.
  assert (Ho1 : is_Some (own_of p pd1)) by (by rewrite (own_of_same p _ _ Hs1)). destruct (to_block c).
  { wp_step. eapply wp_mono; [by apply (wp_count_blocked t active)|]. intros [] pd2 (Hi2 & _ & Ho2). by wp_step. }
  wp_step. eapply (inv_keeps _ _ p); [exact Hi1|done| |].
  { apply keeps_set; [set_solver|]. intros d. split; [done|]. split; [|done]. intros [Hn _ Ht']. split; [done| |done].
    cbn. intros px' [= <-]. subst. by split_and!. }
  intros [] pd2 Hi2 Hs2. wp_step. split; [done|]. by rewrite (own_of_same p _ _ Hs2).
Qed.

Lemma wp_forwarded t active rv zc p pd :
  inv t active pd -> is_Some (own_of p pd) -> wp (vpn_forwarded rv zc p) (fun _ pd' => inv t active pd' /\ is_Some (own_of p pd')) pd.
Proof.
  intros Hi Ho. unfold vpn_forwarded. destruct (negb _).
  - eapply (inv_keeps _ _ p); [exact Hi|done|keep|]. intros st pd' Hi' Hs'. by rewrite (own_of_same p _ _ Hs').
  - wp_step. eapply wp_mono; [by apply (wp_account_forwarded t active)|]. intros [] pd1 (Hi1 & _ & Ho1).
    eapply (inv_keeps _ _ p); [exact Hi1|done|keep|]. intros st pd' Hi' Hs'. by rewrite (own_of_same p _ _ Hs').
Qed.

Lemma safe_accept t active pkt :
  bytes_ok (pkt_mem pkt) ->
  (pkt_is_fragment pkt = false -> ipproto (pkt_tuple pkt) = IPPROTO_TCP ->
   0 <= pkt_ip_hdr_len pkt /\ pkt_ip_hdr_len pkt + 20 <= Z.of_nat (length (pkt_mem pkt))) ->
  safe t active (vpn_accept pkt).
Proof.
  intros Hb Ht. apply safe_keeps0. unfold vpn_accept. destruct (pkt_is_fragment pkt); [keep|]. keep.
  unfold tcp_th_flags. match goal with E : (_ =? IPPROTO_TCP) = true |- _ => apply Z.eqb_eq in E end.
  destruct Ht as [? ?]; [done|done|]. destruct (rd8_is_Some (pkt_mem pkt) (pkt_ip_hdr_len pkt + 13)) as (b & -> & _);
    [lia|done|by eexists].
Qed.
End ops.
End PdVpnSafe.
