(* ===== verification/PdRuns.v ===== *)
(** * Whole runs of the capture

    A run is the start of the capture, a sequence of steps in any order, and the
    end.  The steps are the callbacks of the forwarding engine and the packet
    part of its loop, the housekeeping, the worker that loads the malware lists
    and the calls of the Java side.  The state adds to that of the capture the
    connections the engine has open and the port mappings. *)

From S2P Require Import Prelude CString UtHash ZdtunTypes ZdtunConn ZdtunPkt PortMap ZdtunWire PcapDump PcapSpec PcapSafe PdTypes PdCheck PdNotify PdConn PdProcess PdHouse PdVpn PdJni PdFrame PdOwn PdLife PdSend PdSafe PdVpnSafe.

Module PdRuns.
Export PdVpnSafe PdJni.
Import ZdtunWire.

(** ** The steps *)

Inductive java_op :=
  | JStop
  | JAskStats
  | JReloadBlacklists
  | JPrivateDns (b : bool)
  | JFirewallEnabled (b : bool)
  | JPayloadMode (mode : Z)
  | JDnsServer (inet_aton : cstr -> option Z) (server : cstr)
  | JBlocklist (d : list_descr)
  | JFirewallWhitelist (d : option list_descr)
  | JMalwareWhitelist (d : list_descr)
  | JDecryptionList (d : list_descr)
  | JPcapHeader (device os appver : list Z)
  | JSecret (secret : list Z).

(** A connection is named by its place among the open ones, or among those the
    engine gave up without telling their end, or it is the one whose end was told
    last: the code goes on using it until its turn is over. *)
Inductive conn_ref := ROpen (i : nat) | RLost (i : nat) | RLast.
Inductive run_op :=
  | OpOpen (tuple : zdtun_5tuple)
  | OpAccept (pkt : zdtun_pkt)
  | OpNoConn (create : bool)
  | OpJudge (i : nat) (zc : zdtun_conn) (socks5 : proxy_t) (pkt : zdtun_pkt)
  | OpAllow (r : conn_ref) (pkt : zdtun_pkt) (tv : Z * Z)
  | OpForwarded (r : conn_ref) (rv : Z) (zc : zdtun_conn)
  | OpReply (i : nat) (pkt : zdtun_pkt)
  | OpStatus (i : nat) (st : zdtun_conn_status)
  | OpClose (i : nat) (st : zdtun_conn_status)
  | OpCloseAgain (st : zdtun_conn_status)
  | OpLost (i : nat)
  | OpTuple (i : nat) (tuple : zdtun_5tuple)
  | OpHousekeeping (zstats : zdtun_statistics) (order : list nat)
  | OpRefresh
  | OpWorker
  | OpJava (j : java_op)
  | OpPortMapping (garbage : zdtun_ip) (proto orig redirect : Z) (ip : cstr) (realloc_ok : bool)
  | OpResetPorts.

Definition conn_data : Type := zdtun_5tuple * Z.
Record run_state := Run {
    r_pd : pcapdroid;
    r_open : list conn_data;
    r_lost : list conn_data;
    r_last : option conn_data;
    r_ports : PortMap.mappings_t;
  }.

Section steps.
Context `{PdEnv} `{InetPton}.

Definition run_java (j : java_op) : M pcapdroid unit :=
  match j with
  | JStop => stopPacketLoop
  | JAskStats => askStatsDump
  | JReloadBlacklists => reloadBlacklists
  | JPrivateDns b => setPrivateDnsBlocked b
  | JFirewallEnabled b => nativeSetFirewallEnabled b
  | JPayloadMode mode => setPayloadMode mode
  | JDnsServer aton s => setDnsServer aton s
  | JBlocklist d => reloadBlocklist d ;; mret tt
  | JFirewallWhitelist d => reloadFirewallWhitelist d ;; mret tt
  | JMalwareWhitelist d => reloadMalwareWhitelist d ;; mret tt
  | JDecryptionList d => reloadDecryptionList d ;; mret tt
  | JPcapHeader device os appver => getPcapHeader device os appver ;; mret tt
  | JSecret s => dumpMasterSecret s
  end.

(** The worker runs between its creation and [reload_done]. *)
Definition worker : M pcapdroid unit :=
  pd ← getS;
  let md := malware_detection pd in
  whenM (reload_in_progress md && negb (reload_done md)) load_new_blacklists.

Definition on_pd {A} (m : M pcapdroid A) (s : run_state) (k : A -> pcapdroid -> run_state) :
    option run_state :=
  r ← m (r_pd s); Some (k (fst r) (snd r)).
Definition only_pd {A} (m : M pcapdroid A) (s : run_state) : option run_state :=
  on_pd m s (fun _ pd => Run pd (r_open s) (r_lost s) None (r_ports s)).

(** The [i]-th connection leaves the open ones. *)
Definition closing (i : nat) (a : conn_data) (pd : pcapdroid) (s : run_state) : run_state :=
  Run pd (delete i (r_open s)) (r_lost s) (Some a) (r_ports s).
Definition losing (i : nat) (a : conn_data) (s : run_state) : run_state :=
  Run (r_pd s) (delete i (r_open s)) (a :: r_lost s) None (r_ports s).
Definition retuple (i : nat) (tuple : zdtun_5tuple) (s : run_state) : run_state :=
  Run (r_pd s) (alter (fun a => (tuple, snd a)) i (r_open s)) (r_lost s) None (r_ports s).

Definition conn_of (r : conn_ref) (s : run_state) : option conn_data :=
  match r with ROpen i => r_open s !! i | RLost i => r_lost s !! i | RLast => r_last s end.
Definition on_conn (r : conn_ref) (s : run_state) (f : zdtun_5tuple -> Z -> option run_state) :
    option run_state :=
  match conn_of r s with
  | Some (tuple, p) => f tuple p
  | None => Some s
  end.
(** A step that may be about the connection closed last. *)
Definition ref_pd {A} (r : conn_ref) (m : M pcapdroid A) (s : run_state) : option run_state :=
  on_pd m s (fun _ pd => Run pd (r_open s) (r_lost s) (match r with RLast => r_last s | _ => None end) (r_ports s)).

(** The open connections in the order of the engine's table. *)
Definition iter_order (order : list nat) (s : run_state) : list conn_data := omap (fun i => r_open s !! i) order.

Definition step (o : run_op) (s : run_state) : option run_state :=
  match o with
  | OpOpen tuple =>
      on_pd (handle_new_connection tuple) s (fun r pd =>
        Run pd (match r with Some p => (tuple, p) :: r_open s | None => r_open s end)
          (r_lost s) None (r_ports s))
  | OpAccept pkt => only_pd (vpn_accept pkt) s
  | OpNoConn create => only_pd (vpn_no_conn create) s
  | OpJudge i zc socks5 pkt => on_conn (ROpen i) s (fun tuple p =>
      only_pd (vpn_judge (r_ports s) socks5 (zc <| c_tuple := tuple |>) p pkt) s)
  | OpAllow r pkt tv => on_conn r s (fun tuple p =>
      ref_pd r (vpn_allow tuple p (pkt_context_of pkt true tuple p tv)) s)
  | OpForwarded r rv zc => on_conn r s (fun tuple p =>
      ref_pd r (vpn_forwarded rv (zc <| c_tuple := tuple |>) p) s)
  | OpReply i pkt => on_conn (ROpen i) s (fun tuple p => only_pd (remote2vpn tuple p pkt) s)
  | OpStatus i st => on_conn (ROpen i) s (fun tuple p => only_pd (update_conn_status p st) s)
  | OpClose i st => on_conn (ROpen i) s (fun tuple p =>
      on_pd (connection_closed tuple p st) s (fun _ pd => closing i (tuple, p) pd s))
  | OpCloseAgain st => on_conn RLast s (fun tuple p => ref_pd RLast (connection_closed tuple p st) s)
  | OpLost i => match r_open s !! i with Some a => Some (losing i a s) | None => Some s end
  | OpTuple i tuple => Some (retuple i tuple s)
  | OpHousekeeping zstats order => only_pd (pd_housekeeping zstats (iter_order order s)) s
  | OpRefresh => only_pd pd_refresh_time s
  | OpWorker => only_pd worker s
  | OpJava j => only_pd (run_java j) s
  | OpPortMapping g proto orig redirect ip ok =>
      r ← addPortMapping g proto orig redirect ip ok (r_ports s);
      Some (Run (r_pd s) (r_open s) (r_lost s) None (snd r))
  | OpResetPorts => Some (Run (r_pd s) (r_open s) (r_lost s) None (PortMap.pd_reset_port_map (r_ports s)))
  end.

Fixpoint run_ops (ops : list run_op) (s : run_state) : option run_state :=
  match ops with
  | [] => Some s
  | o :: ops => s ← step o s; run_ops ops s
  end.

(** [pd_run] up to the loop; nothing runs when nDPI cannot be initialised. *)
Definition capture_start (cf : pd_config) (prefs : pd_prefs) (vp : vpn_prefs) : option (bool * run_state) :=
  r ← pd_start prefs (pcapdroid_init cf);
  let (ok, pd) := r : bool * pcapdroid in
  if negb ok then Some (false, Run pd [] [] None PortMap.init_mappings) else
  r ← vpn_start vp pd;
  Some (true, Run (snd r) [] [] None PortMap.init_mappings).

(** [zdtun_finalize], which tells nothing of the connections given up before, then the
    end of [pd_run]. *)
Definition finalize_conns (l : list (zdtun_5tuple * Z)) : M pcapdroid unit :=
  forM l (fun a => connection_closed (fst a) (snd a) CONN_STATUS_CLOSED).
Definition capture_end (s : run_state) : option pcapdroid :=
  r ← (finalize_conns (r_open s) ;; pd_stop) (r_pd s); Some (snd r).

Definition run_capture (cf : pd_config) (prefs : pd_prefs) (vp : vpn_prefs) (ops : list run_op) :
    option pcapdroid :=
  r ← capture_start cf prefs vp;
  let (ok, s) := r : bool * run_state in
  if negb ok then Some (r_pd s) else
  s ← run_ops ops s;
  capture_end s.

(** ** What the steps are given *)

Definition descr_ok (d : list_descr) : Prop := uid_items_ok (ld_apps d).
Definition java_ok (j : java_op) : Prop :=
  match j with
  | JBlocklist d | JFirewallWhitelist (Some d) | JMalwareWhitelist d | JDecryptionList d => descr_ok d
  | JPcapHeader device os appver => PcapSafe.platform_ok device os appver
  | JSecret s => bytes_ok s
  | _ => True
  end.

Record parsed_fine (pkt : zdtun_pkt) : Prop := {
    pr_bytes : bytes_ok (pkt_mem pkt);
    pr_tcp : pkt_is_fragment pkt = false -> ipproto (pkt_tuple pkt) = IPPROTO_TCP ->
      0 <= pkt_ip_hdr_len pkt /\ pkt_ip_hdr_len pkt + 20 <= Z.of_nat (length (pkt_mem pkt));
  }.
Definition op_ok (o : run_op) : Prop :=
  match o with
  | OpOpen tuple | OpTuple _ tuple => tuple_ok tuple
  | OpAccept pkt => parsed_fine pkt
  | OpJudge _ zc _ pkt => pkt_fine pkt /\ conn_proxy_ok zc
  | OpAllow _ pkt _ | OpReply _ pkt => pkt_fine pkt
  | OpStatus _ st => is_closed st = false
  | OpJava j => java_ok j
  | _ => True
  end.

(** The environment: the allocations the code does not check succeed, nDPI
    reports its protocols, memory has the size asked for, and the numbers of the
    list files fit an [int]. *)
Record env_ok : Prop := {
    en_proto : forall n, proto_ok (a_proto (sys n));
    en_strdup : forall n, a_strdup (sys n) = true;
    en_realloc : forall n, a_realloc (sys n) = true;
    en_malloc : forall n mem, dump_malloc n = Some mem -> Z.of_nat (length mem) = n /\ bytes_ok mem;
    en_files : forall path f ty, files path = Some f -> Forall (numbers_ok ty) (lines_of f);
  }.

End steps.

(** ** The invariant *)

(** The VPN capture never frees a connection that waits. *)
#[export] Existing Instance told_none.

(** The connections the engine will never tell closed are like open ones. *)
Definition live_set (s : run_state) : gset Z := list_to_set (snd <$> r_open s ++ r_lost s).
Record run_inv (tight : bool) (s : run_state) : Prop := {
    ri_pd : inv tight (live_set s) (r_pd s);
    ri_open : Forall (fun a => tuple_ok (fst a)) (r_open s ++ r_lost s);
    ri_nodup : NoDup (snd <$> r_open s ++ r_lost s);
    ri_last : forall a, r_last s = Some a -> tuple_ok (fst a) /\ is_Some (own_of (snd a) (r_pd s)) /\ snd a ∉ live_set s;
    ri_ports : PortMap.mappings_ok (r_ports s);
  }.

Section safe.
Context `{PdEnv} `{HI : InetPton} `{HIok : !InetPtonOk HI} (Henv : env_ok).
Let Hproto := en_proto Henv.
Let Hstrdup := en_strdup Henv.
Let Hrealloc := en_realloc Henv.

(** ** The Java side *)

Section java.
Context {T : Told}.

Lemma runs_config t active (f : pcapdroid -> pcapdroid) :
  (forall pd, shape (f pd) = shape pd /\ conns (f pd) = conns pd /\ dumper (f pd) = dumper pd) ->
  (forall pd, lists_ok pd -> lists_ok (f pd)) -> runs t active (modifyS f).
Proof.
  intros Hf Hl pd Hi. wp_step. destruct (Hf pd) as (? & ? & ?).
  apply (inv_config _ _ pd); [done..|]. apply Hl, Hi.
Qed.

(** A list as the four functions of the Java side make it. *)
Lemma runs_store t active d (store : blacklist -> M pcapdroid unit) :
  descr_ok d -> (forall bl, list_ok (Some bl) -> runs t active (store bl)) ->
  runs t active (store_list d store).
Proof.
  intros Hd Hs pd Hi. unfold store_list, new_list.
  wp_step. wp_step. apply wp_ask. wp_step. apply wp_ask.
  match goal with |- wp _ _ ?x => set (pd1 := x) end.
  assert (Hi1 : inv t active pd1) by (by apply (pd_inv_same _ _ pd)).
  destruct (blacklist_init _ _) as [bl0|] eqn:E0; [|wp_step; by wp_step].
  assert (bl0 = bl_empty) as ->.
  { revert E0. unfold blacklist_init. do 2 (destruct (a_mem _); [|done]). by intros [= <-]. }
  unfold file_mem. wp_step. wp_step. wp_step. wp_step. wp_step. wp_step. wp_step.
  match goal with |- wp (liftO (blacklist_load_list_descriptor ?a ?b ?c ?m _)) _ ?x =>
    destruct (load_descriptor_wp [] a b c m bl_empty bl_ok_empty Hd) as (rv & bl & E & Hbl);
    set (pd2 := x) end.
  assert (Hi2 : inv t active pd2) by (by apply (pd_inv_same _ _ pd1)).
  eapply wp_lift; [exact E|]. wp_step. cbn [fst snd].
  destruct (rv <? 0); [by wp_step|]. wp_step. eapply wp_mono; [apply Hs; [|exact Hi2]|].
  { intros l [= <-]. by eexists. }
  intros [] pd3 Hi3. by wp_step.
Qed.

Lemma runs_unit {A} t active (m : M pcapdroid A) : runs t active m -> runs t active (m ;; mret tt).
Proof. intros Hm. apply runs_bind; [done|intros; apply runs_ret]. Qed.
Lemma runs_if {A} t active (b : bool) (m1 m2 : M pcapdroid A) :
  runs t active m1 -> runs t active m2 -> runs t active (if b then m1 else m2).
Proof. by destruct b. Qed.


(** A call that stores a list, or changes a setting. *)
Ltac java :=
  repeat lazymatch goal with
  | |- runs _ _ (mret _) => apply runs_ret
  | |- runs _ _ (modifyS _) => apply runs_config; [done|intros ? []; split; done]
  | |- runs _ _ (mbind _ getS) => apply runs_getS; intros ?
  | |- runs _ _ (mbind _ _) => apply runs_bind; [|intros ?]
  | |- runs _ _ (if _ then _ else _) => apply runs_if
  | |- runs _ _ (whenM _ _) => apply runs_when
  | |- runs _ _ (match ?x with _ => _ end) => destruct x
  | |- runs _ _ (store_list _ _) => apply runs_store; [done|intros ? ?]
  end.

Lemma runs_header t active device os appver :
  PcapSafe.platform_ok device os appver -> runs t active (getPcapHeader device os appver).
Proof.
  intros Hp. apply runs_safe, safe_keeps0. unfold getPcapHeader. keep.
  by apply PcapSafe.preamble_fine; [apply (en_malloc Henv)|].
Qed.

Lemma runs_secret t active sec : bytes_ok sec -> runs t active (dumpMasterSecret sec).
Proof.
  intros Hs. unfold dumpMasterSecret. apply runs_get. intros pd Hi.
  destruct (dumper pd) as [d|] eqn:Hd; [|by wp_step].
  destruct (PcapSafe.wp_dump_secret_fine dump_malloc (en_malloc Henv) sec
    (fun _ d' => PcapSpec.PcapSpec.dumper_ok d') d) as (b & d' & E & Hd'); [|done|done|].
  { by apply (iv_dumper _ _ _ Hi). }
  wp_step. eapply wp_lift; [exact E|]. wp_run. apply inv_set_dumper; [done|by intros d2 [= <-]].
Qed.

Lemma runs_java t active j : java_ok j -> runs t active (run_java j).
Proof.
  intros Hj. destruct j as [| | |b|b|mode|aton s|d|[d|]|d|d|device os appver|sec]; cbn [run_java];
    unfold stopPacketLoop, askStatsDump, reloadBlacklists, setPrivateDnsBlocked, nativeSetFirewallEnabled,
      setPayloadMode, setDnsServer, reloadBlocklist, reloadFirewallWhitelist, reloadMalwareWhitelist,
      reloadDecryptionList, set_firewall, set_malware;
    java; [by apply runs_header|by apply runs_secret].
Qed.

Lemma runs_worker t active : runs t active worker.
Proof. unfold worker. apply runs_getS. intros pd. apply runs_when, runs_load; [done..|]. apply (en_files Henv). Qed.

End java.

(** ** One step *)

Lemma live_lookup t s a : run_inv t s -> a ∈ r_open s ++ r_lost s -> tuple_ok (fst a) /\ snd a ∈ live_set s.
Proof.
  intros Hs Ha. split; [by eapply (Forall_forall (fun a => tuple_ok (fst a))); [apply (ri_open _ _ Hs)|]|].
  apply elem_of_list_to_set. by apply list_elem_of_fmap_2.
Qed.
Lemma conn_of_ok t s r a :
  run_inv t s -> conn_of r s = Some a -> tuple_ok (fst a) /\ is_Some (own_of (snd a) (r_pd s)).
Proof.
  intros Hs. assert (Hl : a ∈ r_open s ++ r_lost s -> tuple_ok (fst a) /\ is_Some (own_of (snd a) (r_pd s))).
  { intros Ha. destruct (live_lookup t s a Hs Ha). split; [done|]. eapply inv_active_own; [apply Hs|done]. }
  destruct r as [i|i|]; cbn; intros E; [apply Hl|apply Hl|by destruct (ri_last _ _ Hs a E) as (? & ? & _)];
    apply list_elem_of_lookup_2 in E; set_solver.
Qed.

(** The steps that leave the open connections as they are. *)
Lemma run_inv_pd t s pd :
  run_inv t s -> inv t (live_set s) pd -> run_inv t (Run pd (r_open s) (r_lost s) None (r_ports s)).
Proof. intros [] Hi. by split. Qed.
Lemma step_pd {A} t (m : M pcapdroid A) s :
  run_inv t s -> runs t (live_set s) m -> exists s', only_pd m s = Some s' /\ run_inv t s'.
Proof.
  intros Hs Hm. destruct (Hm (r_pd s) (ri_pd _ _ Hs)) as (a & pd & E & Hi).
  unfold only_pd, on_pd. rewrite E. eexists. split; [done|]. by apply run_inv_pd.
Qed.
(** Those that use a connection which may have been closed. *)
Lemma step_ref {A} t r a (m : M pcapdroid A) s :
  run_inv t s -> conn_of r s = Some a ->
  (inv t (live_set s) (r_pd s) -> wp m (fun _ pd => inv t (live_set s) pd /\ is_Some (own_of (snd a) pd)) (r_pd s)) ->
  exists s', ref_pd r m s = Some s' /\ run_inv t s'.
Proof.
  intros Hs Hr Hm. destruct (Hm (ri_pd _ _ Hs)) as (x & pd & E & Hi & Ho).
  unfold ref_pd, on_pd. rewrite E. eexists. split; [done|]. pose proof (ri_last _ _ Hs) as Hl. destruct Hs.
  split; try done. cbn. intros a' Ha. destruct r; try done. cbn in Hr. assert (a' = a) as -> by congruence.
  destruct (Hl a Hr) as (? & _ & ?). by split_and!.
Qed.

(** A connection leaves the open ones. *)
Lemma live_set_delete s i a pd t :
  run_inv t s -> r_open s !! i = Some a -> live_set (closing i a pd s) = live_set s ∖ {[snd a]}.
Proof.
  intros Hs Hi. pose proof (ri_nodup _ _ Hs) as Hn. unfold live_set, closing. cbn [r_open r_lost].
  apply delete_Permutation in Hi as Hp. rewrite Hp in Hn. cbn in Hn. apply NoDup_cons in Hn as [Hn _].
  apply leibniz_equiv. rewrite Hp at 2. cbn. set_solver.
Qed.
Lemma run_inv_closing t s i a pd :
  run_inv t s -> r_open s !! i = Some a -> inv t (live_set s ∖ {[snd a]}) pd -> is_Some (own_of (snd a) pd) ->
  run_inv t (closing i a pd s).
Proof.
  intros Hs Hl Hi Ho. apply delete_Permutation in Hl as Hp.
  pose proof (ri_open _ _ Hs) as H1. pose proof (ri_nodup _ _ Hs) as H2. rewrite Hp in H1, H2. cbn in H1, H2.
  apply Forall_cons in H1 as [Ha H1]. apply NoDup_cons in H2 as [_ H2]. split; [|done|done| |apply Hs].
  - by rewrite (live_set_delete s i a pd t).
  - intros a' [= <-]. rewrite (live_set_delete s i a pd t) by done. split_and!; [done|done|set_solver].
Qed.
Lemma run_inv_losing t s i a : run_inv t s -> r_open s !! i = Some a -> run_inv t (losing i a s).
Proof.
  intros Hs Hl. apply delete_Permutation in Hl as Hp.
  assert (Hperm : r_open (losing i a s) ++ r_lost (losing i a s) ≡ₚ r_open s ++ r_lost s).
  { cbn. rewrite Hp at 2. solve_Permutation. }
  split; [| | |done|apply Hs].
  - assert (live_set (losing i a s) = live_set s) as ->; [|apply Hs].
    unfold live_set. apply leibniz_equiv. by rewrite Hperm.
  - rewrite Hperm. apply Hs.
  - rewrite Hperm. apply Hs.
Qed.
Lemma retuple_snd i tuple s : snd <$> r_open (retuple i tuple s) = snd <$> r_open s.
Proof.
  cbn. revert i. induction (r_open s) as [|a l IH]; intros [|i]; cbn; [done|done|done|]. f_equal. apply IH.
Qed.
Lemma run_inv_retuple t s i tuple : run_inv t s -> tuple_ok tuple -> run_inv t (retuple i tuple s).
Proof.
  intros Hs Ht. assert (Hsnd : snd <$> r_open (retuple i tuple s) ++ r_lost (retuple i tuple s) = snd <$> r_open s ++ r_lost s).
  { by rewrite !fmap_app, retuple_snd. }
  split; [| | |done|apply Hs].
  - unfold live_set. rewrite Hsnd. apply Hs.
  - pose proof (ri_open _ _ Hs) as Ho. apply Forall_app in Ho as [Ho Hl]. apply Forall_app. split; [|done]. cbn.
    apply Forall_alter; [done|]. by intros a _ _.
  - rewrite Hsnd. apply Hs.
Qed.
Lemma active_order t s order : run_inv t s -> active_ok (live_set s) (iter_order order s).
Proof.
  intros Hs. apply Forall_forall. intros a (i & _ & Hi)%list_elem_of_omap.
  destruct (live_lookup t s a Hs) as [(_ & Hd & _) Hp]; [apply elem_of_app; left; by eapply list_elem_of_lookup_2|]. by split.
Qed.

Lemma step_safe t o s :
  (t = true -> jni_ok) -> run_inv t s -> op_ok o -> exists s', step o s = Some s' /\ run_inv t s'.
Proof.
  intros Hj Hs Ho.
  assert (Hconn : forall r f, (forall tuple p, tuple_ok tuple -> is_Some (own_of p (r_pd s)) -> conn_of r s = Some (tuple, p) ->
    exists s', f tuple p = Some s' /\ run_inv t s') -> exists s', on_conn r s f = Some s' /\ run_inv t s').
  { intros r f Hf. unfold on_conn. destruct (conn_of r s) as [[tuple p]|] eqn:E; [|by eexists].
    destruct (conn_of_ok t s r (tuple, p) Hs E). by apply Hf. }
  assert (Hlive : forall i tuple p, conn_of (ROpen i) s = Some (tuple, p) -> p ∈ live_set s).
  { intros i tuple p E. apply (live_lookup t s (tuple, p) Hs). apply elem_of_app. left. by eapply list_elem_of_lookup_2. }
  destruct o as [tuple|pkt|create|i zc socks5 pkt|r pkt tv|r rv zc|i pkt|i st|i st|st|i|i tuple|zs order| | |j|g proto orig red ip ok|];
    cbn [step op_ok] in *.
  - destruct (wp_handle_new Hproto Hstrdup Hrealloc t (live_set s) tuple (fun r pd =>
      run_inv t (Run pd (match r with Some p => (tuple, p) :: r_open s | None => r_open s end) (r_lost s) None (r_ports s)))
      (r_pd s)) as (r & pd & E & Hr); [apply Ho|apply Hs|by intros p ?| | |].
    + intros pd Hi. by apply run_inv_pd.
    + intros p pd Hp Hi. destruct Hs. split; cbn; [|by constructor| |done|done].
      * unfold live_set. cbn. done.
      * constructor; [|done]. intros Hin. by apply Hp, elem_of_list_to_set.
    + unfold on_pd. rewrite E. by eexists.
  - apply step_pd; [done|]. destruct Ho. by apply runs_safe, safe_accept.
  - apply step_pd; [done|]. apply runs_safe, safe_keeps0. unfold vpn_no_conn. keep.
  - destruct Ho as (Hpkt & Hz). apply Hconn. intros tuple p Ht _ Hl. apply step_pd; [done|]. intros pd Hi.
    eapply wp_mono; [apply (wp_vpn_judge Hproto Hstrdup Hrealloc t (live_set s)); [apply Hs|done|done|done| |exact Hi]|].
    + by eapply Hlive.
    + by intros r pd' (_ & _ & ?).
  - apply Hconn. intros tuple p Ht Hp Hl. apply (step_ref t r (tuple, p)); [done|done|]. intros Hi.
    apply (wp_vpn_allow Hproto Hstrdup Hrealloc t (live_set s)); [done|done|done|apply Ht|done|done].
  - apply Hconn. intros tuple p Ht Hp Hl. apply (step_ref t r (tuple, p)); [done|done|]. intros Hi.
    by apply (wp_forwarded Hproto Hstrdup Hrealloc t (live_set s)).
  - apply Hconn. intros tuple p Ht _ Hl. apply step_pd; [done|]. apply runs_safe.
    apply (safe_remote2vpn Hproto Hstrdup Hrealloc); [done|apply Ht|by eapply Hlive].
  - apply Hconn. intros tuple p Ht _ Hl. apply step_pd; [done|].
    apply runs_safe. apply (safe_conn_status tuple (proj1 (proj2 Ht))); first [done|by eapply Hlive].
  - apply Hconn. intros tuple p Ht Hp Hl.
    destruct (wp_connection_closed tuple (proj1 (proj2 Ht)) Hproto Hstrdup Hrealloc t (live_set s) p st (r_pd s))
      as (r & pd & E & Hi & _ & Hown); [apply Hs|done|].
    unfold on_pd. rewrite E. eexists. split; [done|]. apply (run_inv_closing t); [done|done|done|by eexists].
  - apply Hconn. intros tuple p Ht Hp Hl. apply (step_ref t RLast (tuple, p)); [done|done|]. intros Hi.
    eapply wp_mono; [by apply (wp_connection_closed tuple (proj1 (proj2 Ht)) Hproto Hstrdup Hrealloc t (live_set s) p st)|].
    intros [] pd (Hi' & _ & Hown). split; [|by eexists].
    destruct (ri_last _ _ Hs (tuple, p) Hl) as (_ & _ & Hn). by replace (live_set s) with (live_set s ∖ {[p]}) by (cbn in Hn; set_solver).
  - destruct (r_open s !! i) as [a|] eqn:E; [|by eexists]. eexists. split; [done|]. by apply run_inv_losing.
  - eexists. split; [done|]. by apply run_inv_retuple.
  - apply step_pd; [done|]. apply runs_housekeeping; [done..|]. by eapply active_order.
  - apply step_pd; [done|]. apply runs_safe, safe_keeps0, keeps_refresh.
  - apply step_pd; [done|]. apply runs_worker.
  - apply step_pd; [done|]. by apply runs_java.
  - unfold addPortMapping. destruct (zdtun_parse_ip ip g) as [ver addr].
    destruct (ver <? 0); [eexists; split; [done|]; by apply run_inv_pd, Hs|].
    destruct (PortMap.run_add_spec (PortMap.AddCall ver proto orig red addr ok) (r_ports s) (ri_ports _ _ Hs))
      as (m & E & Hm & _). unfold PortMap.run_add in E. cbn in E. rewrite E.
    eexists. split; [done|]. destruct Hs. by split.
  - eexists. split; [done|]. destruct Hs. by split.
Qed.

Lemma run_ops_safe t ops s :
  (t = true -> jni_ok) -> run_inv t s -> Forall op_ok ops ->
  exists s', run_ops ops s = Some s' /\ run_inv t s'.
Proof.
  intros Hj Hs Hops. revert s Hs. induction Hops as [|o ops Ho Hops IH]; intros s Hs; [by eexists|].
  cbn [run_ops]. destruct (step_safe t o s Hj Hs Ho) as (s1 & -> & Hs1). by apply IH.
Qed.
End safe.
End PdRuns.
