(* ===== verification/PdCapture.v ===== *)
(** * A capture from its start to its end

    Every run is defined, and when the calls of the Java side succeed nothing
    allocated for a connection is left at its end. *)

From S2P Require Import Prelude CString UtHash ZdtunTypes ZdtunConn ZdtunPkt PortMap ZdtunWire PcapDump PcapSpec PcapSafe PdTypes PdCheck PdNotify PdConn PdProcess PdHouse PdVpn PdJni PdFrame PdOwn PdLife PdSend PdSafe PdVpnSafe PdRuns.

Module PdCapture.
Import PdRuns ZdtunWire.
#[local] Existing Instance PcapDump.pcap_dumper_eta.

Section safe.
Context `{PdEnv} `{HI : InetPton} `{HIok : !InetPtonOk HI} (Henv : env_ok).
Let Hproto := en_proto Henv.
Let Hstrdup := en_strdup Henv.
Let Hrealloc := en_realloc Henv.

(** ** The start *)

(** The invariant, but for the DNS servers [run_vpn] loads. *)
Definition started (pd : pcapdroid) : Prop :=
  forall v, is_Some (known_dns_servers v) /\ list_ok (known_dns_servers v) ->
    inv true ∅ (pd <| vpn := v |>).

Lemma started_reloaded pd pd' : reloaded pd pd' -> started pd -> started pd'.
Proof.
  intros Hr Hs v Hv. eapply inv_reloaded; [|by apply (Hs v)]. destruct Hr as [? ? ? [= E1 E2 _] ? ? ? ?].
  split; try done. cbn. by rewrite E1, E2.
Qed.

(** Assignments to the rest of the state. *)
Lemma started_set pd pd' :
  shape pd' = shape pd -> conns pd' = conns pd -> config pd' = config pd ->
  (forall d, dumper pd' = Some d -> PcapSpec.PcapSpec.dumper_ok d) ->
  started pd -> started pd'.
Proof.
  intros Hsh Hc [= E1 E2 E3 _] Hd Hs v Hv. destruct (Hs v Hv) as [Hl Hn _ (news & upds & Ho)]. split.
  - destruct Hl. split; cbn in *; rewrite ?E1, ?E2, ?E3; done.
  - intros p c. cbn. rewrite Hc. apply Hn.
  - done.
  - exists news, upds. eapply owned_shape; [|exact Ho]. done.
Qed.

Lemma list_ok_None' : list_ok None.
Proof. by intros l. Qed.

Lemma started_init cf : started (pcapdroid_init cf).
Proof.
  intros v [Hv Hl]. split.
  - split; try apply list_ok_None'; [by intros [? ?]|done].
  - intros p c Hc. change ((∅ : gmap Z pd_conn) !! p = Some c) in Hc. by rewrite lookup_empty in Hc.
  - done.
  - exists [], []. split; try apply arr_rep_zero; try done.
    + constructor.
    + by intros p ?%not_elem_of_nil.
    + intros p [c Hc]. change ((∅ : gmap Z pd_conn) !! p = Some c) in Hc. by rewrite lookup_empty in Hc.
Qed.

Lemma dump_snaplen_range vpn prefs : 0 <= dump_snaplen vpn prefs <= 65535.
Proof.
  unfold dump_snaplen, PCAPD_SNAPLEN, VPN_BUFFER_SIZE. destruct vpn; cbn [negb]; case_match; lia.
Qed.

Lemma wp_start_dumper prefs pd :
  dumper pd = None -> started pd ->
  wp (start_dumper prefs) (fun _ pd' => started pd') pd.
Proof.
  intros Hd Hs. unfold start_dumper. apply wp_when; intros _; [|done].
  wp_step. wp_step. wp_step. apply wp_ask. wp_step. apply wp_ask.
  destruct (PcapDump.pcap_new_dumper _ _ _ _ _ _ _ _) as [d|] eqn:E; wp_step.
  - apply (started_set pd); [done..| |done]. intros d' [= <-].
    eapply (PcapSafe.new_dumper_fine _ (en_malloc Henv)); [exact E|apply dump_snaplen_range|apply uwrap_ok; lia].
  - apply (started_set pd); [done..| |done]. intros d' Hd'. cbn in Hd'. by rewrite Hd in Hd'.
Qed.

Lemma started_status pd : started pd -> status_ok (malware_detection pd).
Proof.
  intros Hs. set (v := Vpn BLOCK_QUIC_MODE_NEVER (Some bl_empty) false 0 0 false []).
  destruct (Hs v) as [Hl _ _ _]; [|exact (lk_status _ Hl)].
  split; [by eexists|]. intros l [= <-]. exists []. apply bl_ok_empty.
Qed.

Lemma started_dumper pd d : started pd -> dumper pd = Some d -> PcapSpec.PcapSpec.dumper_ok d.
Proof.
  intros Hs Hd. set (v := Vpn BLOCK_QUIC_MODE_NEVER (Some bl_empty) false 0 0 false []).
  destruct (Hs v) as [_ _ Hf _]; [|by apply Hf]. split; [by eexists|]. intros l [= <-]. exists []. apply bl_ok_empty.
Qed.

Lemma wp_start_malware pd :
  started pd ->
  wp start_malware (fun _ pd' => started pd' /\ dumper pd' = dumper pd) pd.
Proof.
  intros Hs. unfold start_malware. wp_step. wp_step. apply wp_when; intros _; [|done].
  wp_step. wp_step. wp_step.
  match goal with |- wp _ _ ?x => set (pd1 := x) end.
  assert (Hs1 : started pd1) by (apply (started_set pd); try done; intros d Hd; eapply started_dumper; done).
  eapply wp_mono; [apply wp_load; [done..|apply (en_files Henv)]|]. intros [] pd2 Hr2.
  assert (Hs2 : started pd2) by (by eapply started_reloaded).
  eapply wp_mono; [by apply wp_use, started_status|]. intros [] pd3 Hr3.
  split; [by eapply started_reloaded|]. by rewrite (rl_dumper _ _ Hr3), (rl_dumper _ _ Hr2).
Qed.

Lemma started_same pd pd' : same pd pd' -> started pd -> started pd'.
Proof. intros Hs. by apply started_reloaded, reloaded_same. Qed.

(** The results the start does not test: the memory of the host cache, and of the
    list of DNS servers. *)
Definition start_mem (cf : pd_config) (prefs : pd_prefs) : Prop :=
  a_mem (sys 1) = true /\
  forall pd, pd_start prefs (pcapdroid_init cf) = Some (true, pd) ->
    a_mem (sys (calls pd)) = true /\ a_mem (sys (S (calls pd))) = true.

Lemma wp_pd_start cf prefs :
  a_mem (sys 1) = true ->
  wp (pd_start prefs) (fun (ok : bool) pd' => if ok then started pd' else conns pd' = ∅) (pcapdroid_init cf).
Proof.
  intros Hmem. unfold pd_start. wp_step. wp_step. wp_step. apply wp_ask.
  match goal with |- context [a_ok (sys ?n)] => change n with 0%nat end. destruct (a_ok (sys 0)); cbn [negb]; [|by wp_step].
  wp_step. apply wp_ask. match goal with |- context [a_mem (sys ?n)] => change n with 1%nat end. rewrite Hmem.
  wp_step. eapply wp_lift; [done|]. wp_step. wp_step. wp_step.
  match goal with |- wp _ _ ?x => set (pd1 := x) end.
  assert (Hs1 : started pd1) by (apply (started_set (pcapdroid_init cf)); first [done|apply started_init]).
  eapply wp_mono; [by apply wp_start_malware|]. intros [] pd2 [Hs2 Hd2].
  wp_step. eapply wp_mono; [by apply wp_start_dumper|]. intros [] pd3 Hs3.
  wp_step. wp_step. wp_step. match goal with |- wp _ _ ?x => set (pd4 := x) end.
  assert (Hs4 : started pd4) by (by apply (started_same pd3)).
  apply wp_refresh. intros pd5 Hs5. wp_step. wp_step. wp_step.
  apply (started_same pd5); [by split|]. by apply (started_same pd4).
Qed.

Lemma add_ips_ok l bl rules :
  bl_ok rules bl -> exists bl' rules', add_ips l bl = Some bl' /\ bl_ok rules' bl'.
Proof.
  revert bl rules. induction l as [|s l IH]; intros bl rules Hb; [by exists bl, rules|]. cbn [add_ips].
  destruct (add_ipstr_wp rules s bl Hb) as (rv & bl1 & E & _ & Hb1). rewrite E. cbn [mbind option_bind snd].
  by eapply IH.
Qed.
Lemma add_domains_ok mem l bl rules :
  bl_ok rules bl -> exists bl', add_domains mem l bl = Some bl' /\ bl_ok rules bl'.
Proof.
  revert bl. induction l as [|s l IH]; intros bl Hb; [by exists bl|]. cbn [add_domains]. cbv zeta.
  destruct (add_domain_wp rules s (fst (mem (length l))) (snd (mem (length l))) bl Hb) as (rv & bl1 & E & Hb1 & _).
  rewrite E. cbn [mbind option_bind snd]. by apply IH.
Qed.
Lemma load_dns_ok mem bl rules :
  bl_ok rules bl -> exists bl', load_dns_servers mem bl = Some bl' /\ list_ok (Some bl').
Proof.
  intros Hb. unfold load_dns_servers. destruct (add_ips_ok dns_server_ips bl rules Hb) as (b1 & r1 & -> & H1).
  cbn [mbind option_bind]. destruct (add_domains_ok mem dns_server_domains b1 r1 H1) as (b2 & -> & H2).
  exists b2. split; [done|]. intros l [= <-]. by exists r1.
Qed.

Lemma wp_vpn_start vp pd :
  started pd -> a_mem (sys (calls pd)) = true -> a_mem (sys (S (calls pd))) = true ->
  wp (vpn_start vp) (fun _ => inv true ∅) pd.
Proof.
  intros Hs H1 H2. unfold vpn_start. wp_step. apply wp_ask. rewrite H1. wp_step. apply wp_ask.
  match goal with |- context [blacklist_init true (a_mem (sys ?n))] => change n with (S (calls pd)) end. rewrite H2. wp_step. eapply wp_lift; [done|].
  wp_step. wp_step. wp_step. wp_step.
  match goal with |- context [load_dns_servers ?m ?b] =>
    destruct (load_dns_ok m b [] bl_ok_empty) as (bl & E & Hbl) end.
  wp_step. eapply wp_lift; [exact E|]. wp_step. wp_step.
  match goal with |- wp _ _ (?x <| vpn := ?v |> <| new_dns_server := 0 |>) =>
    assert (Hi : inv true ∅ (x <| vpn := v |>)); [|set (pd1 := x <| vpn := v |>) in *] end.
  { apply (started_same pd); [by split|done|]. split; [by eexists|done]. }
  apply wp_refresh. intros pd2 Hs2. apply (pd_inv_same _ _ (pd1 <| new_dns_server := 0 |>)); [done|].
  by apply (pd_inv_same _ _ pd1).
Qed.

Lemma inv_weaken t active pd : inv true active pd -> inv t active pd.
Proof.
  intros [Hl Hn Hd (news & upds & [])]. split; [done..|]. exists news, upds. by split; auto.
Qed.

(** The start is defined, and leaves the invariant. *)
Lemma capture_start_ok cf prefs vp :
  start_mem cf prefs ->
  exists ok s, capture_start cf prefs vp = Some (ok, s) /\
    if ok : bool then forall t, run_inv t s else conns (r_pd s) = ∅.
Proof.
  intros [Hm1 Hm2]. unfold capture_start.
  destruct (wp_pd_start cf prefs Hm1) as (ok & pd & E & Hs). rewrite E. cbn [mbind option_bind].
  destruct ok; cbn [negb]; [|by eexists _, _].
  destruct (Hm2 pd E) as [H1 H2].
  destruct (wp_vpn_start vp pd Hs H1 H2) as ([] & pd' & E' & Hi). rewrite E'. cbn [mbind option_bind snd].
  eexists _, _. split; [done|]. intros t. split; cbn; [|constructor|constructor|done|by split].
  unfold live_set. cbn. by apply inv_weaken.
Qed.

(** ** The end *)

Lemma wp_finalize t l lost pd :
  Forall (fun a => tuple_ok (fst a)) l -> inv t (list_to_set (snd <$> l ++ lost)) pd -> NoDup (snd <$> l ++ lost) ->
  wp (finalize_conns l) (fun _ => inv t (list_to_set (snd <$> lost))) pd.
Proof.
  intros Hl. revert pd. induction Hl as [|[tuple p] l Ht Hl IH]; intros pd Hi Hn.
  { cbn. wp_step. done. }
  cbn in Hn. apply NoDup_cons in Hn as [Hp Hn].
  unfold finalize_conns. cbn [forM fst snd]. wp_step. eapply wp_mono.
  { apply (wp_connection_closed tuple (proj1 (proj2 Ht)) Hproto Hstrdup Hrealloc t _ p _ _ Hi).
    eapply inv_active_own; [exact Hi|]. cbn. set_solver. }
  intros [] pd1 (Hi1 & _ & _). apply IH; [|done].
  replace (list_to_set (snd <$> l ++ lost) : gset Z)
    with ((list_to_set (snd <$> ((tuple, p) :: l) ++ lost) : gset Z) ∖ {[p]}); [done|].
  apply leibniz_equiv. cbn. assert (p ∉ (list_to_set (snd <$> l ++ lost) : gset Z)) by (by rewrite elem_of_list_to_set).
  set_solver.
Qed.

Lemma wp_stop_dump_fine pd :
  (forall d, dumper pd = Some d -> PcapSpec.PcapSpec.dumper_ok d) -> is_Some (dumper pd) ->
  wp stop_pcap_dump (fun _ pd' => conns pd' = conns pd) pd.
Proof.
  intros Hf [d Hd]. unfold stop_pcap_dump, emit. wp_step. wp_step. wp_step. eapply wp_lift; [exact Hd|].
  destruct (PcapSafe.destroy_dumper_fine (d <| PcapDump.now_ms := now_ms pd |>)) as [out Hout].
  { apply dumper_fine_clock. by apply Hf. }
  wp_step. eapply wp_lift; [exact Hout|]. wp_run. done.
Qed.

(** Both arrays are emptied and everything in them is freed, whatever the Java
    side answered. *)
Lemma wp_pd_stop t active pd :
  inv t active pd -> wp pd_stop (fun _ pd' => t = true -> forall p, is_Some (conns pd' !! p) -> p ∈ active) pd.
Proof.
  intros Hi0. unfold pd_stop. wp_step. eapply wp_mono.
  { eapply (safe_keeps0 t active); [|exact Hi0]. unfold sendStatsDump, emit. keep. }
  clear Hi0. intros [] pd0 [[Hl Hn Hd (news & upds & Ho)] _].
  destruct (nodup_ptrs _ _ (ow_nodup _ _ _ _ _ Ho)) as (Hnd1 & Hnd2 & Hdis).
  assert (Hlive : forall s, s ∈ news ++ upds -> is_Some (own_of (s_data s) pd0)).
  { intros s Hs. destruct (ow_pend _ _ _ _ _ Ho (s_data s)) as [tp ->]; [|by eexists].
    by apply list_elem_of_fmap_2. }
  wp_step. eapply wp_mono; [by apply (wp_sendConnectionsDump t active news upds)|]. intros [] pd1 [Hs _].
  pose proof Hs as [R1 E1]. wp_step. eapply wp_mono.
  { apply (wp_conns_clear NEW_CONNS true news); [|done|].
    - cbn. rewrite (rs_new _ _ R1). apply Ho.
    - apply Forall_forall. intros s Hin. eapply sent_live; [exact Hs|]. apply Hlive. set_solver. }
  intros [] pd2 [(C2 & D2 & _ & _ & _ & O2) E2]. wp_step. eapply wp_mono.
  { apply (wp_conns_clear CONNS_UPDATES true upds); [|done|].
    - rewrite (O2 CONNS_UPDATES) by done. cbn. rewrite (rs_upd _ _ R1). apply Ho.
    - apply Forall_forall. intros s Hin. rewrite E2.
      assert (is_Some (own_of (s_data s) pd1)) as [[a b] Hs1].
      { eapply sent_live; [exact Hs|]. apply Hlive. set_solver. }
      rewrite Hs1. unfold freed. rewrite bool_decide_eq_false_2, andb_false_r; [by eexists|].
      intros Hq. apply (Hdis _ Hq). by apply list_elem_of_fmap_2. }
  intros [] pd3 [(C3 & D3 & _) E3].
  assert (Hd3 : dumper pd3 = dumper pd0) by (rewrite D3, D2; apply (rs_dumper _ _ R1)).
  assert (Hempty : t = true -> forall q, is_Some (conns pd3 !! q) -> q ∈ active).
  { intros Ht q Hq. destruct (decide (q ∈ active)) as [|Hna]; [done|exfalso].
    enough (own_of q pd3 = None) as Hn3 by (unfold own_of in Hn3; by destruct (conns pd3 !! q), Hq).
    rewrite E3, E2. destruct (own_of q pd0) as [o|] eqn:Eq.
    - destruct (ow_tight _ _ _ _ _ Ho Ht q o Eq) as [Hpend Hact]. rewrite (Hact Hna) in *.
      specialize (Hpend eq_refl). unfold ptrs in Hpend. rewrite fmap_app in Hpend.
      assert (exists a b, own_of q pd1 = Some (a, b)) as (a & b & ->).
      { destruct (E1 q) as [->|[_ ->]]; rewrite Eq; by eexists _, _. }
      unfold freed. rewrite orb_true_r. cbn. destruct (bool_decide (q ∈ s_data <$> news)) eqn:B1; [done|].
      apply bool_decide_eq_false in B1. rewrite orb_true_r. cbn. rewrite bool_decide_eq_true_2; [done|].
      apply elem_of_app in Hpend. tauto.
    - assert (own_of q pd1 = None) as -> by (destruct (E1 q) as [->|[_ ->]]; by rewrite Eq). done. }
  wp_step. wp_step. wp_step. apply (wp_mono _ (fun _ pd4 => t = true -> forall q, is_Some (conns pd4 !! q) -> q ∈ active)).
  - apply wp_when; intros Hb; [|done]. apply bool_decide_eq_true in Hb. eapply wp_mono.
    + apply wp_stop_dump_fine; [by rewrite Hd3|done].
    + intros [] pd4 ->. done.
  - intros [] pd4 H4. wp_step. exact H4.
Qed.

(** What is left belongs to the connections the engine gave up without a word. *)
Definition only_lost (s : run_state) (pd : pcapdroid) : Prop :=
  forall p, is_Some (conns pd !! p) -> p ∈ snd <$> r_lost s.
Lemma capture_end_ok t s :
  run_inv t s -> exists pd, capture_end s = Some pd /\ (t = true -> only_lost s pd).
Proof.
  intros [Hi Hop Hn _ _]. unfold capture_end.
  assert (Hw : wp (finalize_conns (r_open s) ;; pd_stop) (fun _ pd' => t = true -> only_lost s pd') (r_pd s)).
  { apply Forall_app in Hop as [Hop _]. wp_step. eapply wp_mono; [by apply (wp_finalize t)|]. intros [] pd Hi'.
    eapply wp_mono; [by eapply wp_pd_stop|]. intros [] pd' Hl Ht p Hp. apply (elem_of_list_to_set (C := gset Z)). by apply Hl. }
  destruct Hw as ([] & pd & E & Hpd). rewrite E. cbn [mbind option_bind snd]. by exists pd.
Qed.
(** The whole run. *)
Lemma run_capture_ok t cf prefs vp ops :
  (t = true -> jni_ok) -> start_mem cf prefs -> Forall op_ok ops ->
  exists pd, run_capture cf prefs vp ops = Some pd.
Proof.
  intros Hj Hm Hops. unfold run_capture. destruct (capture_start_ok cf prefs vp Hm) as (ok & s & -> & Hs).
  cbn [mbind option_bind]. destruct ok; cbn [negb]; [|by eexists].
  destruct (run_ops_safe Henv t ops s Hj (Hs t) Hops) as (s' & -> & Hs'). destruct (capture_end_ok t s' Hs') as (pd & E & _). by exists pd.
Qed.

(** Where a pointer to a connection is kept. *)
Definition kept (p : Z) (s : run_state) : Prop :=
  p ∈ snd <$> r_open s ++ r_lost s \/
  exists a ss, slots (arr_of a (r_pd s)) = Some ss /\ p ∈ s_data <$> ss.

Lemma tight_kept s p : run_inv true s -> is_Some (conns (r_pd s) !! p) -> kept p s.
Proof.
  intros [Hi _ _ _ _] [c Hc]. destruct (iv_owned _ _ _ Hi) as (news & upds & Ho).
  assert (Hown : own_of p (r_pd s) = Some (own c)) by (unfold own_of; by rewrite Hc).
  destruct (ow_tight _ _ _ _ _ Ho eq_refl p _ Hown) as [Hpend Hact].
  destruct (decide (p ∈ live_set s)) as [Hin|Hn].
  - left. by apply elem_of_list_to_set in Hin.
  - right. rewrite (Hact Hn) in Hpend. specialize (Hpend eq_refl). unfold ptrs in Hpend.
    rewrite fmap_app in Hpend. apply elem_of_app in Hpend as [Hin|Hin].
    + exists NEW_CONNS, news. split; [|done]. apply arr_rep_slots, Ho.
    + exists CONNS_UPDATES, upds. split; [|done]. apply arr_rep_slots, Ho.
Qed.
End safe.

(** ** The properties *)

(** C2: a run of a capture is defined whatever the order of its steps: no use of a
    freed connection, no NULL pointer, no access outside of an array or a packet.
    The steps are well formed ([op_ok]: the packets are ones zdtun parsed, the strings
    of the Java side are bounded), and of the environment [env_ok] and [start_mem] are
    asked: [strdup], the growth of the arrays and the first allocations of a capture
    succeed, which the code does not test; nDPI answers with protocols it has; the
    numbers in list files fit an [int].  Whether a connection can be allocated, a JNI
    call works or a file opens is open.  [capture_assumptions_needed] shows runs that
    fail without them.  The counters wrap around in the model: their overflow, which C
    does not define for signed ones, is not what this is about. *)
Theorem capture_safe `{PdEnv} `{HI : InetPton} `{!InetPtonOk HI} cf prefs vp ops :
  env_ok -> start_mem cf prefs -> Forall op_ok ops ->
  exists pd, run_capture cf prefs vp ops = Some pd.
Proof.
  intros He Hm Hops. destruct (run_capture_ok He false cf prefs vp ops) as (pd & E); [done..|].
  by exists pd.
Qed.


(** ** Concrete runs *)

#[local] Existing Instance inet_pton_v4.
#[local] Existing Instance inet_pton_v4_ok.

Definition ans_ex (ok mem : bool) (t : nat) : answer :=
  Ans mem mem mem ok (Z.of_nat t) [] (NProto 7 0) (Flow (str "a.b") None None).
Definition env_ex (ans : nat -> answer) : PdEnv :=
  {| sys := ans; isClearTextProto := fun _ => true; ndpi_get_proto_name := fun _ => "HTTP"%string;
     dump_malloc := fun n => if n <? 0 then None else Some (replicate (Z.to_nat n) 0); files := fun _ => None |}.
Definition config_ex : pd_config := Config true PAYLOAD_MODE_FULL 0 false true [] true false false false false 0.
Definition prefs_ex : pd_prefs := Prefs true false false 0 0.
Definition vpn_ex : vpn_prefs := VpnPrefs BLOCK_QUIC_MODE_NEVER true 0x08080808 0x0101010a false [].
Definition udp_ex : zdtun_5tuple :=
  Tuple (ip_of_ip4 0x0100000a) (ip_of_ip4 0x04040404) (htons 40000) (htons 80) 4 IPPROTO_UDP.
Definition pkt_ex : zdtun_pkt := Pkt udp_ex 0 30 20 8 2 (replicate 64 1) 28.
Definition hk : run_op := OpHousekeeping zstats_zero [0%nat].

(** A connection with traffic in both directions, a block list that arrives, and
    the end of the connection told twice. *)
Definition ops_ex : list run_op :=
  [OpOpen udp_ex; OpJudge 0 (zdtun_conn_new udp_ex 0) (Proxy ip_zero 0 0) pkt_ex; OpAllow (ROpen 0) pkt_ex (0, 0);
   OpReply 0 pkt_ex; OpForwarded (ROpen 0) 0 (zdtun_conn_new udp_ex 0); OpRefresh; hk; hk;
   OpJava (JBlocklist (ListDescr [Some (str "10")] [] [])); hk;
   OpClose 0 CONN_STATUS_CLOSED; OpCloseAgain CONN_STATUS_CLOSED; OpRefresh; hk].

Definition run_ex (ans : nat -> answer) (ops : list run_op) : option pcapdroid :=
  @run_capture (env_ex ans) _ config_ex prefs_ex vpn_ex ops.

Lemma env_ex_ok ok : @env_ok (env_ex (fun n => ans_ex (ok n) true n)).
Proof.
  split; try done; cbn.
  intros n mem. destruct (n <? 0) eqn:E; [done|]. intros [= <-]. rewrite length_replicate. apply Z.ltb_ge in E.
  split; [by apply Z2Nat.id|]. by apply Forall_replicate.
Defined.
Lemma udp_ex_ok : tuple_ok udp_ex.
Proof. unfold tuple_ok, ip_ok, u_ok. repeat split; try done; apply (bool_decide_unpack _); by vm_compute. Defined.
Lemma pkt_ex_fine : pkt_fine pkt_ex.
Proof. split; try (by vm_compute); [by apply Forall_replicate|apply udp_ex_ok]. Defined.
Lemma run_ops_ex_ok : Forall op_ok ops_ex.
Proof.
  repeat constructor; try done; try apply udp_ex_ok; try apply pkt_ex_fine.
Defined.

Lemma start_mem_ex ok : @start_mem (env_ex (fun n => ans_ex (ok n) true n)) _ config_ex prefs_ex.
Proof. done. Defined.

Lemma capture_safe_witness : exists pd, run_ex (fun n => ans_ex (negb (Nat.eqb n 40)) true n) ops_ex = Some pd.
Proof.
  set (ok := fun n => negb (Nat.eqb n 40)).
  exact (@capture_safe (env_ex (fun n => ans_ex (ok n) true n)) _ _ config_ex prefs_ex vpn_ex ops_ex
    (env_ex_ok ok) (start_mem_ex ok) run_ops_ex_ok).
Defined.

Definition calm : PdEnv := env_ex (fun n => ans_ex true true n).
Lemma start_ex : exists s, @capture_start calm _ config_ex prefs_ex vpn_ex = Some (true, s).
Proof.
  destruct (@capture_start calm _ config_ex prefs_ex vpn_ex) as [[b s]|] eqn:E; apply (f_equal (fmap fst)) in E;
    vm_compute in E; [|done]. injection E as ->. by exists s.
Defined.

(** what the two properties assume is needed. One failing JNI call in
    [sendConnectionsDump] leaks the connections it did not reach, which
    the Java side never hears of again, their end included; and an array that
    cannot grow is written through a NULL pointer when the next connection is
    notified. *)
Example capture_assumptions_needed :
  (exists pd, run_ex (fun n => ans_ex (negb (Nat.eqb n 40)) true n)
      [OpOpen udp_ex; OpRefresh; hk; hk; OpClose 0 CONN_STATUS_CLOSED; OpRefresh; hk; hk] = Some pd /\
    fst <$> map_to_list (conns pd) = [1] /\
    forallb (fun e => match e with EvConnections [] [] => true | EvConnections _ _ => false | _ => true end)
      (trace pd) = true) /\
  run_ex (fun n => ans_ex true (negb (Nat.eqb n 37)) n) [OpOpen udp_ex; OpOpen udp_ex] = None.
Proof.
  split; [eexists; split; [by vm_compute|]; split; [by vm_compute|by vm_compute]|by vm_compute].
Qed.
(** A connection whose socket could not be created is not told closed, so that what
    was allocated for it is still there at the end of the capture. *)
Example lost_connection_stays :
  exists pd, run_ex (fun n => ans_ex true true n) [OpOpen udp_ex; OpRefresh; hk; hk; OpLost 0; OpRefresh; hk; hk] = Some pd /\
    fst <$> map_to_list (conns pd) = [1].
Proof. eexists. split; by vm_compute. Qed.
End PdCapture.
