(* ===== verification/PdSpoof.v ===== *)
(** * The reply to a blocked DNS query (spoof_dns_reply of core/capture_vpn.c)

    When a DNS query is blocked because of the name it asks for, the application
    gets an answer written by the capture itself: the address of all zeros.  This
    file shows that for every query of one A or AAAA question the answer is what
    a resolver must accept: an IP packet from the server to the client, with a
    valid UDP checksum, whose payload is the DNS reply with the same transaction
    and the same question and one record with the null address. *)

From S2P Require Import Prelude CString UtHash Lru ZdtunTypes IpLru ZdtunConn ZdtunPkt ZdtunWire InetSum ZdtunReply PdTypes PdDns PdVpn PdVpnSafe PdJni PdCapture.

Module PdSpoof.
Import PdDns PdVpn ZdtunPkt ZdtunWire InetSum ZdtunReply IpLru.

Section query.
Context (t : zdtun_5tuple) (id flg cnts qname extra pre post : list Z) (qtype : Z).

(** The query: its identifier, flags, one question, the other three counts, the
    question, and what may follow it (EDNS options). *)
Definition dns_query : list Z :=
  id ++ flg ++ be16 1 ++ cnts ++ qname ++ [0; 0; qtype; 0; 1] ++ extra.

Definition alen : nat := if qtype =? 1 then 4 else 16.
(** The reply, as a server would have written it. *)
Definition null_reply : reply :=
  Reply id 0x8180 [(qname, [0; qtype; 0; 1])]
    [RR (NamePtr [] 12) qtype ([0; 1] ++ be16 0 ++ be16 10) (replicate alen 0)] [0; 0; 0; 0].

Hypothesis Ht : conn_tuple_ok t.
Hypothesis Hudp : ipproto t = IPPROTO_UDP.
Hypothesis Hid : length id = 2%nat /\ bytes_ok id.
Hypothesis Hflg : length flg = 2%nat.
Hypothesis Hcnts : length cnts = 6%nat.
Hypothesis Hname : 0 ∉ qname /\ bytes_ok qname.
Hypothesis Hty : qtype = 1 \/ qtype = 28.

Let hl := zdtun_iphdr_len (ipver t).
Let payload := enc_reply null_reply.
Let n := 8 + Z.of_nat (length payload).
Hypothesis Hfit : hl + n <= 65535.

(** ** Step 1: the query is recognised *)

Lemma query_len_at a q b rem fuel :
  0 ∉ q -> Z.of_nat (length q) + 5 <= rem -> (length q < fuel)%nat ->
  forall k base, Z.of_nat (length a) = base + k ->
  query_len fuel (a ++ q ++ 0 :: b) base k rem = Some (k + Z.of_nat (length q)).
Proof.
  revert a rem fuel. induction q as [|c q IH]; intros a rem fuel Hq Hr Hf k base Hk;
    (destruct fuel as [|fuel]; [simpl in Hf; lia|]); cbn [query_len];
    replace (5 <=? rem) with true by (simpl in *; lia); rewrite <-Hk; cbn [app]; rewrite rd8_here;
    cbn [mbind option_bind].
  - simpl. f_equal. lia.
  - apply not_elem_of_cons in Hq as [Hc Hq]. rewrite (proj2 (Z.eqb_neq c 0)) by congruence.
    specialize (IH (a ++ [c]) (rem - 1) fuel Hq). rewrite <-app_assoc, length_app in IH. simpl in *.
    rewrite IH by lia. f_equal. lia.
Qed.

Lemma length_dns_query :
  Z.of_nat (length dns_query) = 12 + Z.of_nat (length qname) + 5 + Z.of_nat (length extra).
Proof.
  unfold dns_query. rewrite !length_app, Hflg, Hcnts, length_be16. destruct Hid as [-> _].
  simpl. lia.
Qed.

Definition query_pkt (fl plen ihl l4l : Z) : zdtun_pkt :=
  Pkt t fl plen ihl l4l (Z.of_nat (length dns_query)) (pre ++ dns_query ++ post)
    (Z.of_nat (length pre)).

Lemma query_recognised fl plen ihl l4l :
  dns_query_of (query_pkt fl plen ihl l4l) = Some (Some (Z.of_nat (length qname), qtype)).
Proof.
  destruct Hid as [Hi _]. destruct Hname as [Hz _].
  unfold dns_query_of, query_pkt. cbn [pkt_l7_len pkt_mem pkt_l7]. unfold DNS_PACKET_LEN.
  pose proof length_dns_query as Hlq. rewrite (proj2 (Z.ltb_ge _ _)) by lia. cbv zeta.
  set (mem := pre ++ dns_query ++ post).
  assert (rd16 mem (Z.of_nat (length pre) + 4) = Some (htons 1)) as ->.
  { replace mem with ((pre ++ id ++ flg) ++ be16 1 ++ cnts ++ qname ++ [0; 0; qtype; 0; 1] ++ extra ++ post)
      by (unfold mem, dns_query; by rewrite <-!app_assoc).
    replace (Z.of_nat (length pre) + 4) with (Z.of_nat (length (pre ++ id ++ flg)))
      by (rewrite !length_app; lia).
    by apply rd16_be16. }
  cbn [mbind option_bind]. change (negb (ntohs (htons 1) =? 1)) with false. cbn [negb].
  set (hd := pre ++ id ++ flg ++ be16 1 ++ cnts).
  assert (Hhd : Z.of_nat (length hd) = Z.of_nat (length pre) + 12).
  { unfold hd. rewrite !length_app, length_be16. lia. }
  assert (Hm : mem = hd ++ qname ++ 0 :: ([0; qtype; 0; 1] ++ extra ++ post)).
  { unfold mem, dns_query, hd. by rewrite <-!app_assoc. }
  rewrite Hm, query_len_at by (done || lia). cbn [mbind option_bind]. rewrite Z.add_0_l.
  set (k := Z.of_nat (length qname)).
  set (q := Z.of_nat (length pre) + 12 + k).
  assert (Hq : q = Z.of_nat (length (hd ++ qname))) by (rewrite length_app; unfold q, k; lia).
  clearbody q. set (buf := hd ++ _).
  assert (Hrd : forall i c, [0; 0; qtype; 0; 1] !! i = Some c -> rd8 buf (q + Z.of_nat i) = Some c).
  { intros i c Hc. unfold buf. change (0 :: [0; qtype; 0; 1] ++ extra ++ post)
      with ([0; 0; qtype; 0; 1] ++ extra ++ post).
    rewrite app_assoc, Hq, rd8_app_r by lia. unfold rd8. rewrite (proj2 (Z.leb_le _ _)) by lia.
    rewrite Nat2Z.id. by apply lookup_app_l_Some. }
  pose proof (Hrd 0%nat _ eq_refl) as H0. rewrite Z.add_0_r in H0.
  pose proof (Hrd 1%nat _ eq_refl : rd8 buf (q + 1) = _) as H1.
  pose proof (Hrd 2%nat _ eq_refl : rd8 buf (q + 2) = _) as H2.
  pose proof (Hrd 3%nat _ eq_refl : rd8 buf (q + 3) = _) as H3.
  pose proof (Hrd 4%nat _ eq_refl : rd8 buf (q + 4) = _) as H4.
  cbn [bytes_are]. rewrite H0, H1, H2, H3, H4. cbn [mbind option_bind Z.eqb Pos.eqb].
  by destruct Hty as [-> | ->].
Qed.

(** ** Step 2: the reply *)

Definition udp_pre : list Z := le_bytes 2 (dst_port t) ++ le_bytes 2 (src_port t) ++ le_bytes 2 (htons n).
Definition udp_segment (sum : Z) : list Z := udp_pre ++ le_bytes 2 sum ++ payload.
Definition udp_sum : Z := ulnot 16 (calc_checksum (calc_checksum 0 (udp_segment 0)) (pseudo_of (ipver t) t n)).
Definition null_packet : list Z := make_iphdr_bytes (ipver t) t n ++ udp_segment udp_sum.

Lemma length_udp_pre : length udp_pre = 6%nat.
Proof. done. Qed.

(** The payload is what the three stores of the reply put one after the other. *)
Lemma payload_eq :
  payload = (id ++ be16 0x8180 ++ be16 1 ++ be16 1 ++ [0; 0; 0; 0]) ++
            (qname ++ [0; 0; qtype; 0; 1]) ++ dns_answer qtype (Z.of_nat alen).
Proof.
  unfold payload, enc_reply, null_reply. cbn [PdDns.id PdDns.flags PdDns.questions PdDns.answers PdDns.counts length map concat].
  unfold enc_question, enc_rr, dns_answer. cbn [fst snd enc_name name rtype class_ttl rdata].
  rewrite !app_nil_r, <-!app_assoc, length_replicate, Nat2Z.id.
  unfold alen. by destruct Hty as [-> | ->].
Qed.

Lemma length_payload :
  Z.of_nat (length payload) = 12 + Z.of_nat (length qname) + 5 + 12 + Z.of_nat alen.
Proof.
  rewrite payload_eq. unfold dns_answer.
  rewrite !length_app, !length_be16, length_le_bytes, length_replicate, Nat2Z.id.
  destruct Hid as [-> _]. cbn [length]. lia.
Qed.

Lemma hl_pos : hl = 20 \/ hl = 40.
Proof. unfold hl. destruct (ct_ver _ Ht) as [-> | ->]; [by left|by right]. Qed.

Lemma read_query a b off k :
  pre ++ dns_query ++ post = a ++ b ++ drop (length a + length b) (pre ++ dns_query ++ post) ->
  off = Z.of_nat (length a) -> k = length b -> rdn k (pre ++ dns_query ++ post) off = Some b.
Proof. intros -> -> ->. by apply rdn_at. Qed.

Lemma zeros_split a b : replicate (a + b) 0 = replicate a 0 ++ replicate b 0.
Proof. apply replicate_add. Qed.

Lemma build_null_reply :
  build_dns_reply (ipver t) t (pre ++ dns_query ++ post) (Z.of_nat (length pre))
    (Z.of_nat (length qname)) qtype = Some null_packet.
Proof.
  destruct Hid as [Hi _]. pose proof length_payload as Hlp. pose proof hl_pos as Hhl.
  set (mem := pre ++ dns_query ++ post).
  assert (Hq1 : rdn 2 mem (Z.of_nat (length pre)) = Some id).
  { unfold mem, dns_query. rewrite <-!app_assoc. by apply rdn_at. }
  assert (Hq2 : rdn 2 mem (Z.of_nat (length pre) + 4) = Some (be16 1)).
  { unfold mem, dns_query. rewrite <-!app_assoc, !(app_assoc pre), !(app_assoc (pre ++ id)).
    apply rdn_at; [rewrite !length_app; lia|done]. }
  assert (Hq3 : rdn (Z.to_nat (Z.of_nat (length qname) + 5)) mem (Z.of_nat (length pre) + DNS_PACKET_LEN)
    = Some (qname ++ [0; 0; qtype; 0; 1])).
  { replace mem with ((pre ++ id ++ flg ++ be16 1 ++ cnts) ++ (qname ++ [0; 0; qtype; 0; 1]) ++ extra ++ post)
      by (unfold mem, dns_query; by rewrite <-!app_assoc).
    apply rdn_at; rewrite ?length_app, ?length_be16; unfold DNS_PACKET_LEN; simpl; lia. }
  unfold build_dns_reply. fold hl. cbv zeta. unfold DNS_PACKET_LEN in *.
  replace (if qtype =? 1 then 4 else 16) with (Z.of_nat alen) by (unfold alen; by destruct (qtype =? 1)).
  replace (hl + 8 + 12 + Z.of_nat (length qname) + 5 + 12 + Z.of_nat alen) with (hl + n)
    by (unfold n; lia).
  replace (hl + n - hl) with n by lia.
  rewrite (uwrap_id 16 n) by (unfold u_ok, n in *; lia).
  set (k := (length qname + 5)%nat).
  replace (Z.to_nat (hl + n)) with (Z.to_nat hl + (8 + (12 + (k + (12 + alen)))))%nat
    by (unfold n, k in *; lia).
  rewrite !zeros_split. unfold zdtun_make_iphdr.
  pose proof (length_iphdr (ipver t) t n (conn_tuple_ok_tuple _ Ht)) as Hh. fold hl in Hh.
  set (h := make_iphdr_bytes (ipver t) t n) in *.
  rewrite wrn_here by (rewrite length_replicate; lia). cbn [mbind option_bind].
  rewrite wrn_at by (done || lia). cbn [mbind option_bind]. rewrite Hq1. cbn [mbind option_bind].
  rewrite Hq2. cbn [mbind option_bind]. rewrite (app_assoc h).
  rewrite wrn_at by (rewrite ?length_app, ?length_replicate, ?length_le_bytes, ?length_be16; simpl; lia).
  cbn [mbind option_bind]. rewrite Hq3. cbn [mbind option_bind]. rewrite (app_assoc (h ++ _)).
  rewrite wrn_at; [|rewrite ?length_app, ?length_le_bytes, ?length_be16; simpl; lia
                   |rewrite ?length_app, ?length_replicate; unfold k; simpl; lia].
  cbn [mbind option_bind]. rewrite (app_assoc ((h ++ _) ++ _)), <-(app_nil_r (replicate 12 0 ++ _)).
  rewrite wrn_at; [|rewrite ?length_app, ?length_le_bytes, ?length_be16; simpl; lia
                   |unfold dns_answer; rewrite ?length_app, ?length_replicate, ?length_le_bytes; simpl; lia].
  cbn [mbind option_bind].
  replace ((((h ++ udphdr_reply t n) ++ _) ++ _) ++ _) with (h ++ udp_segment 0 ++ []).
  2:{ unfold udp_segment, udphdr_reply, udp_pre. rewrite payload_eq, uwrap_id by (unfold u_ok, n in *; lia).
      rewrite <-!app_assoc. done. }
  unfold hl, h. rewrite (l3_checksum_seg (ipver t) t n (udp_segment 0) []); [|apply Ht|done|].
  2:{ unfold udp_segment. rewrite !length_app, length_udp_pre, length_le_bytes. unfold n. lia. }
  cbn [mbind option_bind]. fold h hl. fold udp_sum. unfold null_packet, udp_segment.
  rewrite app_nil_r, !(app_assoc h).
  apply wrn_at; rewrite ?length_app, ?length_udp_pre, ?length_le_bytes; lia.
Qed.

(** The packet as the parser of the capture sees it. *)
Lemma parse_null_packet frag :
  zdtun_parse_pkt null_packet (hl + n) frag =
  Some (inr (Pkt (tuple_reply t) 0 (hl + n) hl 8 (Z.of_nat (length payload)) null_packet (hl + 8)), frag).
Proof.
  pose proof hl_pos as Hhl.
  pose proof (length_iphdr (ipver t) t n (conn_tuple_ok_tuple _ Ht)) as Hh. fold hl in Hh.
  unfold zdtun_parse_pkt, null_packet. rewrite (Z.add_comm hl n).
  pose proof (parse_l3_reply (ipver t) t n (udp_segment udp_sum) (ct_ver _ Ht) Ht) as H3. fold hl in H3.
  rewrite H3 by (unfold n in *; lia). mstep. cbn [l3_flags reply_l3].
  change (has_flag 0 _) with false. cbn [andb].
  assert (parse_l4 (make_iphdr_bytes (ipver t) t n ++ udp_segment udp_sum) (reply_l3 (ipver t) t n) =
    Some (inr (L4 (dst_port t) (src_port t) 8))) as ->.
  { unfold parse_l4. cbn [reply_l3 l3_proto l3_hdr_len l3_len]. fold hl. rewrite Hudp.
    cbn [Z.eqb Pos.eqb IPPROTO_TCP IPPROTO_UDP]. unfold UDP_HEADER_LEN.
    rewrite (proj2 (Z.ltb_ge _ _)) by (unfold n; lia).
    rewrite <-Hh. unfold rd16. rewrite <-(Z.add_0_r (Z.of_nat _)) at 1. rewrite !rdn_app_r by lia.
    unfold udp_segment, udp_pre. load_as (le_bytes 2 (dst_port t)).
    cbn [fmap option_fmap option_map mbind option_bind].
    load_as (le_bytes 2 (src_port t)). cbn [fmap option_fmap option_map mbind option_bind].
    rewrite !le_val_le2 by apply Ht. done. }
  mstep. unfold reply_l3. cbn [l4_sport l4_dport ZdtunPkt.l4_len l3_src l3_dst l3_hdr_len l3_proto l3_len].
  rewrite <-(tuple_seen_same t Ht). unfold tuple_seen. fold hl. replace (n + hl - hl - 8) with (Z.of_nat (length payload)) by (unfold n; lia).
  rewrite uwrap_id; [done|]. unfold u_ok, n in *. lia.
Qed.

(** Its UDP checksum. *)
Lemma udp_segment_sum :
  bytes_ok (udp_segment udp_sum) /\
  calc_checksum (calc_checksum 0 (udp_segment udp_sum)) (pseudo_of (ipver t) t n) = 0xFFFF.
Proof.
  assert (bytes_ok udp_pre) by (unfold udp_pre; solve_bytes).
  assert (bytes_ok payload).
  { rewrite payload_eq. destruct Hid, Hname.
    destruct (PdVpnSafe.dns_answer_fine qtype (Z.of_nat alen)) as [Ba _];
      [unfold u_ok; lia|unfold alen; case_match; lia|].
    solve_bytes; by vm_compute. }
  split; [unfold udp_segment; solve_bytes|]. unfold udp_sum, udp_segment. apply nested_verifies; try done.
  - rewrite length_udp_pre. by exists 3%nat.
  - by apply pseudo_of_fine.
  - pose proof hl_pos. rewrite length_udp_pre. unfold n in *. lia.
  - by apply pseudo_of_fine.
Qed.
Lemma length_udp_segment sum : Z.of_nat (length (udp_segment sum)) = n.
Proof. unfold udp_segment. rewrite !length_app, length_udp_pre, length_le_bytes. unfold n. lia. Qed.
Lemma null_packet_checksum :
  exists seg, rdn (Z.to_nat n) null_packet hl = Some seg /\
    calc_checksum (calc_checksum 0 seg) (pseudo_of (ipver t) t n) = 0xFFFF.
Proof.
  pose proof hl_pos as Hhl.
  pose proof (length_iphdr (ipver t) t n (conn_tuple_ok_tuple _ Ht)) as Hh. fold hl in Hh.
  exists (udp_segment udp_sum). split; [|apply udp_segment_sum].
  replace null_packet with (make_iphdr_bytes (ipver t) t n ++ udp_segment udp_sum ++ [])
    by (by rewrite app_nil_r).
  apply rdn_at; [lia|]. pose proof (length_udp_segment udp_sum). lia.
Qed.
Lemma null_packet_valid : transport_valid null_packet = true.
Proof.
  pose proof (length_udp_segment udp_sum) as El. destruct udp_segment_sum as [Hb Hs].
  unfold null_packet. rewrite <-El in Hs |- *. apply transport_valid_at; try done; [apply Ht|].
  rewrite El. fold hl. lia.
Qed.

Lemma null_packet_at :
  exists hd, null_packet = hd ++ payload /\ hl + 8 = Z.of_nat (length hd).
Proof.
  pose proof (length_iphdr (ipver t) t n (conn_tuple_ok_tuple _ Ht)) as Hh. fold hl in Hh.
  exists (make_iphdr_bytes (ipver t) t n ++ udp_pre ++ le_bytes 2 udp_sum).
  unfold null_packet, udp_segment. split; [by rewrite <-!app_assoc|].
  rewrite !length_app, length_udp_pre, length_le_bytes. lia.
Qed.

(** The program's own reader of DNS replies finds the null address in it. *)
Lemma null_reply_ok : reply_ok null_reply.
Proof.
  destruct Hname as [Hz _]. unfold reply_ok, null_reply.
  cbn [PdDns.id PdDns.flags PdDns.questions PdDns.answers PdDns.counts length].
  destruct Hid. split_and!; try done; try lia.
  - by repeat constructor.
  - repeat constructor; cbn; try done; try (destruct Hty; unfold u_ok; lia).
    + by apply not_elem_of_nil.
    + by apply not_elem_of_nil.
    + unfold alen. by destruct (qtype =? 1).
    + unfold alen. destruct (qtype =? 1); repeat constructor; by vm_compute.
Qed.

Lemma null_reply_addr host mem lru :
  add_answers (length (answers null_reply) `min` 32) host mem (answers null_reply) lru =
  ip_lru_add lru ip_zero host (fst (mem 0%nat)) (snd (mem 0%nat)).
Proof. unfold null_reply, alen. by destruct Hty as [-> | ->]. Qed.
End query.


(** A client at 10.215.173.2 asks 8.8.8.8 for the IPv6 address of www.ab.com. *)
Definition asked : zdtun_5tuple :=
  Tuple (ip_of_ip4 0x02ADD70A) (ip_of_ip4 0x08080808) 0x3930 0x3500 4 IPPROTO_UDP.
Definition asked_name : list Z := [3; 119; 119; 119; 2; 97; 98; 3; 99; 111; 109].
Definition asked_pkt : zdtun_pkt :=
  query_pkt asked [0x12; 0x34] [1; 0] (replicate 6 0) asked_name [] (replicate 28 7) [9] 28 0 57 20 8.

End PdSpoof.
