(* ===== verification/PdTyped.v ===== *)
(** * The types of what a capture keeps

    In every state a run reaches, the protocol of a connection is one of those
    the application shows, and counters, flags and times have the width of the C
    fields.  The proof needs no invariant of the memory: it follows the
    assignments of the programs. *)

From S2P Require Import Prelude CString UtHash ZdtunTypes ZdtunConn ZdtunPkt PortMap ZdtunWire PcapDump PdDns PdTypes PdCheck PdNotify PdConn PdProcess PdHouse PdVpn PdJni PdVpnSafe PdRuns PdCapture.

Module PdTyped.
Export PdRuns.
Import PdCapture.

(** ** The types *)

Definition i_ok (w z : Z) : Prop := - 2 ^ (w - 1) <= z < 2 ^ (w - 1).

Definition alpns : list Z :=
  [0; NDPI_PROTOCOL_HTTP; NDPI_PROTOCOL_MAIL_IMAP; NDPI_PROTOCOL_MAIL_SMTP; NDPI_PROTOCOL_TLS].

Record conn_typed (c : pd_conn) : Prop := {
    ct_proto : app_proto (l7proto c) = true;
    ct_alpn : alpn c ∈ alpns;
    ct_update : u_ok 3 (update_type c);
    ct_sent : i_ok 32 (sent_pkts c) /\ i_ok 64 (sent_bytes c);
    ct_rcvd : i_ok 32 (rcvd_pkts c) /\ i_ok 64 (rcvd_bytes c);
    ct_blocked : i_ok 32 (blocked_pkts c);
    ct_length : i_ok 64 (payload_length c);
    ct_seen : i_ok 64 (first_seen c) /\ i_ok 64 (last_seen c);
    ct_port : u_ok 16 (local_port c);
    ct_id : i_ok 32 (incr_id c);
    ct_url : forall u, url c = Some u -> (length u <= 256)%nat;
  }.

Record stats_typed (s : capture_stats_t) : Prop := {
    st_sent : i_ok 32 (cs_sent_pkts s) /\ i_ok 64 (cs_sent_bytes s) /\ i_ok 64 (ipv6_sent_bytes s);
    st_rcvd : i_ok 32 (cs_rcvd_pkts s) /\ i_ok 64 (cs_rcvd_bytes s) /\ i_ok 64 (ipv6_rcvd_bytes s);
    st_time : u_ok 64 (last_update_ms s);
  }.

Record typed (pd : pcapdroid) : Prop := {
    ty_conns : forall p c, conns pd !! p = Some c -> conn_typed c;
    ty_stats : stats_typed (capture_stats pd);
    ty_id : i_ok 32 (new_conn_id pd);
    ty_now : u_ok 64 (now_ms pd);
    ty_dump : u_ok 64 (last_connections_dump pd) /\ u_ok 64 (next_connections_dump pd);
    ty_counts : u_ok 32 (num_dns_requests pd) /\ u_ok 32 (num_dropped_connections pd)
                /\ i_ok 64 (num_discarded_fragments pd);
  }.

Lemma iwrap_ok w z : 0 < w -> i_ok w (iwrap w z).
Proof.
  intros Hw. unfold i_ok, iwrap. pose proof (Z.mod_pos_bound (z + 2 ^ (w - 1)) (2 ^ w)) as Hb.
  assert (2 ^ w = 2 * 2 ^ (w - 1)) by (rewrite <-Z.pow_succ_r by lia; f_equal; lia).
  assert (0 < 2 ^ (w - 1)) by (apply Z.pow_pos_nonneg; lia). lia.
Qed.

Lemma ndpi2proto_proto n p : proto_ok n -> pd_ndpi2proto n = Some p -> app_proto p = true.
Proof. intros Hn E. destruct (ndpi2proto_ok n Hn) as (p' & E' & Hp). congruence. Qed.

Lemma alpn_of_typed s : alpn_of s ∈ alpns.
Proof. unfold alpn_of. repeat case_match; set_solver. Qed.
Lemma guess_alpn_typed tuple c : conn_typed c -> guess_alpn tuple c ∈ alpns.
Proof. intros [_ Ha]. unfold guess_alpn. repeat case_match; first [exact Ha | set_solver]. Qed.

(** One field of a typed record, assigned or not. *)
Ltac typed_leaf :=
  first
    [ assumption
    | apply iwrap_ok; lia
    | apply uwrap_ok; lia
    | apply (lor_ok 3); [lia|assumption|split; [apply (Z.leb_le 0); reflexivity|apply Z.ltb_lt; reflexivity]]
    | apply ty_id; assumption
    | apply alpn_of_typed | apply guess_alpn_typed; assumption
    | split; [apply (Z.leb_le 0); reflexivity|apply Z.ltb_lt; reflexivity]
    | done ].
Ltac typed_fields H :=
  destruct H;
  repeat match goal with H' : _ /\ _ |- _ => destruct H' end;
  repeat case_match; split; first [assumption | split_and?; intros; typed_leaf].

(** ** Programs that keep the types *)

Definition pres {A} (m : M pcapdroid A) : Prop :=
  forall pd a pd', typed pd -> m pd = Some (a, pd') -> typed pd'.

Lemma pres_ret {A} (a : A) : pres (mret a).
Proof. by intros pd b pd' H [= _ <-]. Qed.
Lemma pres_lift {A} (o : option A) : pres (liftO o).
Proof. intros pd b pd' H E. unfold liftO in E. destruct o; [by injection E as _ <-|done]. Qed.
Lemma pres_ub {A} : pres (ub : M pcapdroid A).
Proof. by intros pd b pd' H E. Qed.
Lemma pres_modify g : (forall pd, typed pd -> typed (g pd)) -> pres (modifyS g).
Proof. intros Hg pd b pd' H [= _ <-]. by apply Hg. Qed.
Lemma pres_put pd0 : typed pd0 -> pres (putS pd0).
Proof. by intros H0 pd b pd' H [= _ <-]. Qed.
Lemma pres_bind {A B} (m : M pcapdroid A) (f : A -> M pcapdroid B) :
  pres m -> (forall a, pres (f a)) -> pres (m ≫= f).
Proof.
  intros Hm Hf pd b pd' H E. unfold mbind, M_bind in E. destruct (m pd) as [[a pd1]|] eqn:E1; [|done].
  eapply (Hf a); [|exact E]. by eapply Hm.
Qed.
Lemma pres_assoc {A B C} (m : M pcapdroid A) (f : A -> M pcapdroid B) (g : B -> M pcapdroid C) :
  pres (m ≫= (fun a => f a ≫= g)) -> pres ((m ≫= f) ≫= g).
Proof. intros H pd c pd' Hp E. rewrite bind_assoc in E. by eapply H. Qed.
Lemma pres_get {B} (f : pcapdroid -> M pcapdroid B) :
  (forall pd, typed pd -> pres (f pd)) -> pres (getS ≫= f).
Proof. intros Hf pd b pd' H E. exact (Hf pd H pd b pd' H E). Qed.
Lemma pres_lift_bind {A B} (o : option A) (f : A -> M pcapdroid B) :
  (forall a, o = Some a -> pres (f a)) -> pres (liftO o ≫= f).
Proof.
  intros Hf. destruct o as [a|]; [|by intros pd b pd' H E].
  intros pd b pd' H E. exact (Hf a eq_refl pd b pd' H E).
Qed.
Lemma pres_when b (m : M pcapdroid unit) : pres m -> pres (whenM b m).
Proof. destruct b; [done|]. intros _. apply pres_ret. Qed.
Lemma pres_for {A} (l : list A) (f : A -> M pcapdroid unit) : (forall a, pres (f a)) -> pres (forM l f).
Proof. intros Hf. induction l as [|a l IH]; [apply pres_ret|]. by apply pres_bind. Qed.
Lemma pres_conn_bind {B} p (f : pd_conn -> M pcapdroid B) :
  (forall c, conn_typed c -> pres (f c)) -> pres (conn p ≫= f).
Proof.
  intros Hf pd b pd' H E. unfold conn in E. rewrite bind_assoc in E.
  change ((liftO (conns pd !! p) ≫= f) pd = Some (b, pd')) in E.
  destruct (conns pd !! p) as [c|] eqn:Ec; [|done].
  eapply (Hf c); [by eapply ty_conns|exact H|exact E].
Qed.
Lemma pres_conn p : pres (conn p).
Proof. unfold conn. apply pres_get. intros. apply pres_lift. Qed.

Lemma typed_insert pd p c : conn_typed c -> typed pd -> typed (pd <| conns ::= <[p := c]> |>).
Proof.
  intros Hc []. split; try assumption. intros q d. cbn.
  intros [[_ <-]|[_ Hd]]%lookup_insert_Some; [done|eauto].
Qed.
Lemma typed_delete pd p : typed pd -> typed (pd <| conns ::= delete p |>).
Proof. intros []. split; try assumption. intros q d. cbn. intros [_ Hd]%lookup_delete_Some. eauto. Qed.
Lemma pres_set p f : (forall c, conn_typed c -> conn_typed (f c)) -> pres (set_conn p f).
Proof.
  intros Hf. unfold set_conn. apply pres_conn_bind. intros c Hc. apply pres_modify. intros pd.
  by apply typed_insert, Hf.
Qed.

Lemma typed_put a arr pd : typed pd -> typed (put_arr a arr pd).
Proof. intros []. by destruct a; split. Qed.

Ltac typed_state :=
  let pd := fresh "pd" in let H := fresh in
  intros pd H; first
    [ apply typed_delete; assumption
    | apply typed_put; assumption
    | destruct H as [? Hs ? ? [] (? & ? & ?)]; repeat case_match; split;
      first [assumption | split_and?; typed_leaf | typed_fields Hs] ].
Create HintDb pres.
Ltac pres_step :=
  lazymatch goal with
  | |- pres (let _ := _ in _) => cbv zeta
  | |- pres (mbind _ getS) => apply pres_get; intros ? ?
  | |- pres (mbind _ (conn _)) => apply pres_conn_bind; intros ? ?
  | |- pres (mbind _ (liftO _)) => apply pres_lift_bind; intros ? ?
  | |- pres (mbind _ (mbind _ _)) => apply pres_assoc
  | |- pres (mbind _ _) => apply pres_bind; [|intros ?]
  | |- pres (mret _) => apply pres_ret
  | |- pres (liftO _) => apply pres_lift
  | |- pres ub => apply pres_ub
  | |- pres (modifyS _) => apply pres_modify; typed_state
  | |- pres (conn _) => apply pres_conn
  | |- pres (set_conn _ _) => let H := fresh in apply pres_set; intros ? H; typed_fields H
  | |- pres (whenM _ _) => apply pres_when
  | |- pres (forM _ _) => apply pres_for; intros ?
  | |- pres (match ?x with _ => _ end) => destruct x eqn:?
  end.
Ltac pres := repeat first [ solve [eauto 3 with pres] | pres_step ].

Section programs.
Context `{PdEnv}.

Lemma pres_ask {A} (f : answer -> A) : pres (ask f).
Proof. unfold ask. pres. Qed.
Lemma pres_ask_bind {A B} (g : answer -> A) (f : A -> M pcapdroid B) :
  (forall n, pres (f (g (sys n)))) -> pres (ask g ≫= f).
Proof.
  intros Hf. unfold ask. apply pres_assoc, pres_get. intros pd _. apply pres_assoc, pres_bind; [pres|].
  intros _. apply Hf.
Qed.
Hint Resolve pres_ask : pres.
Lemma pres_emit e : pres (emit e).
Proof. unfold emit. pres. Qed.
Hint Resolve pres_emit : pres.
Lemma pres_appname u : pres (get_appname_by_uid u).
Proof. unfold get_appname_by_uid. pres. Qed.
Hint Resolve pres_appname : pres.

Lemma pres_ip_in_list bl tuple : pres (ip_in_list bl tuple).
Proof. unfold ip_in_list. pres. Qed.
Hint Resolve pres_ip_in_list : pres.
Lemma pres_check_domain p : pres (check_blacklisted_domain p).
Proof. unfold check_blacklisted_domain. pres. Qed.
Hint Resolve pres_check_domain : pres.
Lemma pres_whitelist_mode tuple p : pres (check_whitelist_mode_block tuple p).
Proof. unfold check_whitelist_mode_block. pres. Qed.
Hint Resolve pres_whitelist_mode : pres.
Lemma pres_decryption tuple p : pres (matches_decryption_whitelist tuple p).
Proof. unfold matches_decryption_whitelist. pres. Qed.
Hint Resolve pres_decryption : pres.
Lemma pres_proxify tuple p : pres (should_proxify tuple p).
Proof. unfold should_proxify. pres. Qed.
Hint Resolve pres_proxify : pres.
Lemma pres_vpn_ndpi tuple p : pres (vpn_process_ndpi tuple p).
Proof. unfold vpn_process_ndpi, set_blocked_internal. pres. Qed.
Hint Resolve pres_vpn_ndpi : pres.
Lemma pres_strndup s n : pres (pd_strndup s n).
Proof. unfold pd_strndup. pres. Qed.
Hint Resolve pres_strndup : pres.
Lemma pres_alpn p flow : pres (process_alpn p flow).
Proof. unfold process_alpn. pres. Qed.
Hint Resolve pres_alpn : pres.
Lemma pres_strndup_bind {B} s n (f : option cstr -> M pcapdroid B) :
  (forall o, (forall u, o = Some u -> (length u <= n)%nat) -> pres (f o)) -> pres (pd_strndup s n ≫= f).
Proof.
  intros Hf. unfold pd_strndup. apply pres_assoc, pres_ask_bind. intros k. apply Hf.
  intros u Hu. destruct (a_strdup _); [|done]. injection Hu as <-. rewrite length_take. lia.
Qed.
Lemma pres_url p flow : pres (process_url p flow).
Proof.
  unfold process_url. apply pres_conn_bind. intros c Hc. destruct (url c); [pres|]. destruct (http_url flow); [|pres].
  apply pres_strndup_bind. intros o Ho. pres.
Qed.
Hint Resolve pres_url : pres.
Lemma pres_found_info p proto flow : pres (ndpi_found_info p proto flow).
Proof. unfold ndpi_found_info. pres. Qed.
Hint Resolve pres_found_info : pres.
Lemma pres_set_found p s : pres (set_found_info p s).
Proof. unfold set_found_info. pres. Qed.
Hint Resolve pres_set_found : pres.
Lemma pres_ndpi_data tuple p : pres (process_ndpi_data tuple p).
Proof. unfold process_ndpi_data. pres. Qed.
Hint Resolve pres_ndpi_data : pres.
Lemma pres_free_ndpi p : pres (conn_free_ndpi p).
Proof. unfold conn_free_ndpi. pres. Qed.
Hint Resolve pres_free_ndpi : pres.

(** What nDPI answers is reduced to a protocol of the mask. *)
Context (Hproto : forall n, proto_ok (a_proto (sys n))).
Lemma pres_proto_bind {A B} (g : answer -> ndpi_protocol * A) (f : ndpi_protocol * A -> Z -> M pcapdroid B) :
  (forall a, fst (g a) = a_proto a) ->
  (forall r proto, app_proto proto = true -> pres (f r proto)) ->
  pres (r ← ask g; proto ← liftO (pd_ndpi2proto (fst r)); f r proto).
Proof.
  intros Hg Hf. apply pres_ask_bind. intros n. apply pres_lift_bind. intros proto E. apply Hf.
  rewrite Hg in E. by eapply ndpi2proto_proto.
Qed.
Lemma pres_giveup p tuple : pres (pd_giveup_dpi p tuple).
Proof.
  unfold pd_giveup_dpi. apply pres_conn_bind. intros c Hc. destruct (ndpi_flow_of c); [|pres].
  apply pres_bind; [|intros ?; pres]. apply pres_when, pres_proto_bind; [done|]. intros. pres.
Qed.
Hint Resolve pres_giveup : pres.
Lemma pres_purge p : pres (pd_purge_connection p).
Proof. unfold pd_purge_connection. pres. Qed.
Hint Resolve pres_purge : pres.
Lemma pres_notif a tuple p : pres (notif_connection a tuple p).
Proof. unfold notif_connection. pres. Qed.
Hint Resolve pres_notif : pres.
Lemma pres_update tuple p : pres (pd_notify_connection_update tuple p).
Proof. unfold pd_notify_connection_update. pres. Qed.
Hint Resolve pres_update : pres.
Lemma pres_clear a b : pres (conns_clear a b).
Proof. unfold conns_clear. pres. Qed.
Hint Resolve pres_clear : pres.

(** ** The dump *)

Lemma pres_conn_update s : pres (getConnUpdate s).
Proof. unfold getConnUpdate. pres. Qed.
Hint Resolve pres_conn_update : pres.
Lemma pres_new_dump s : pres (dumpNewConnection s).
Proof. unfold dumpNewConnection. pres. Qed.
Hint Resolve pres_new_dump : pres.
Lemma pres_dump_loop {A} (dump : conn_and_tuple -> M pcapdroid (option A)) ss :
  (forall s, pres (dump s)) -> pres (dump_loop dump ss).
Proof. intros Hd. induction ss as [|s ss IH]; cbn [dump_loop]; pres. Qed.
Lemma pres_send_dump  : pres (sendConnectionsDump).
Proof. unfold sendConnectionsDump, dumpConnectionUpdate. pres. all: apply pres_dump_loop; intros ?; pres. Qed.
Hint Resolve pres_send_dump : pres.
Lemma pres_send_stats_dump  : pres (sendStatsDump).
Proof. unfold sendStatsDump. pres. Qed.
Hint Resolve pres_send_stats_dump : pres.
Lemma pres_dump_connections  : pres (dump_connections).
Proof. unfold dump_connections. pres. Qed.
Hint Resolve pres_dump_connections : pres.

(** ** Connections *)

Lemma pres_netd_resolve p s : pres (netd_resolve p s).
Proof. unfold netd_resolve, netd_resolved. pres. Qed.
Hint Resolve pres_netd_resolve : pres.
Lemma pres_resolve_host tuple p : pres (resolve_host tuple p).
Proof. unfold resolve_host. pres. Qed.
Hint Resolve pres_resolve_host : pres.
Lemma pres_blacklisted_ip tuple p : pres (check_blacklisted_ip tuple p).
Proof. unfold check_blacklisted_ip. pres. Qed.
Hint Resolve pres_blacklisted_ip : pres.
Lemma pres_firewall tuple p : pres (check_firewall tuple p).
Proof. unfold check_firewall. pres. Qed.
Hint Resolve pres_firewall : pres.
Lemma pres_init_connection tuple p : pres (init_connection tuple p).
Proof. unfold init_connection. pres. Qed.
Hint Resolve pres_init_connection : pres.
Lemma zero_typed : conn_typed pd_conn_zero.
Proof. split; split_and?; try done; set_solver. Qed.
Lemma typed_alloc pd p : typed pd -> typed (pd <| next_conn ::= Z.succ |> <| conns ::= <[p := pd_conn_zero]> |>).
Proof. intros []. apply typed_insert; [apply zero_typed|by split]. Qed.
Lemma pres_new_connection tuple u : pres (pd_new_connection tuple u).
Proof. unfold pd_new_connection. pres. all: apply pres_put, typed_alloc; assumption. Qed.
Hint Resolve pres_new_connection : pres.
Lemma pres_blocked_cb tuple p : pres (check_blocked_conn_cb tuple p).
Proof. unfold check_blocked_conn_cb. pres. Qed.
Hint Resolve pres_blocked_cb : pres.
Lemma pres_blacklisted_cb tuple p : pres (check_blacklisted_conn_cb tuple p).
Proof. unfold check_blacklisted_conn_cb. pres. Qed.
Hint Resolve pres_blacklisted_cb : pres.
Lemma pres_connection_closed tuple p st : pres (connection_closed tuple p st).
Proof. unfold connection_closed. pres. Qed.
Hint Resolve pres_connection_closed : pres.
Lemma pres_conn_status p st : pres (update_conn_status p st).
Proof. unfold update_conn_status. pres. Qed.
Hint Resolve pres_conn_status : pres.

(** ** Packets *)

Lemma pres_payload_chunk px n : pres (dumpPayloadChunk px n).
Proof. unfold dumpPayloadChunk. pres. Qed.
Hint Resolve pres_payload_chunk : pres.
Lemma pres_dump_payload px : pres (dump_payload px).
Proof. unfold dump_payload, set_has_payload. pres. Qed.
Hint Resolve pres_dump_payload : pres.
Lemma pres_process_payload px : pres (process_payload px).
Proof. unfold process_payload. pres. Qed.
Hint Resolve pres_process_payload : pres.
Lemma pres_dns_reply query pkt : pres (dns_reply query pkt).
Proof. unfold dns_reply, zoom. pres. Qed.
Hint Resolve pres_dns_reply : pres.
Lemma pres_ndpi_process px flow : pres (ndpi_process px flow).
Proof.
  unfold ndpi_process. cbv zeta. apply pres_conn_bind. intros c Hc. apply pres_proto_bind; [done|]. intros. pres.
Qed.
Hint Resolve pres_ndpi_process : pres.
Lemma pres_netd_delay p : pres (netd_delay p).
Proof. unfold netd_delay. pres. Qed.
Hint Resolve pres_netd_delay : pres.
Lemma pres_finish_dpi tuple p : pres (finish_dpi tuple p).
Proof. unfold finish_dpi. pres. Qed.
Hint Resolve pres_finish_dpi : pres.
Lemma pres_dpi_done b p : pres (dpi_done b p).
Proof. unfold dpi_done. pres. Qed.
Hint Resolve pres_dpi_done : pres.
Lemma pres_perform_dpi px : pres (perform_dpi px).
Proof. unfold perform_dpi. pres. Qed.
Hint Resolve pres_perform_dpi : pres.
Lemma pres_process_packet pkt tx tuple p tv : pres (pd_process_packet pkt tx tuple p tv).
Proof. unfold pd_process_packet. pres. Qed.
Hint Resolve pres_process_packet : pres.
Lemma pres_stop_dump  : pres (stop_pcap_dump).
Proof. unfold stop_pcap_dump. pres. Qed.
Hint Resolve pres_stop_dump : pres.
Lemma pres_dump_packet bytes n tv u : pres (pd_dump_packet bytes n tv u).
Proof. unfold pd_dump_packet. pres. Qed.
Hint Resolve pres_dump_packet : pres.
Lemma pres_account px : pres (pd_account_stats px).
Proof. unfold pd_account_stats, account_conn, account_capture. pres. Qed.
Hint Resolve pres_account : pres.

(** ** Housekeeping *)

Context `{InetPton}.
Lemma pres_refresh  : pres (pd_refresh_time).
Proof. unfold pd_refresh_time. pres. Qed.
Hint Resolve pres_refresh : pres.
Lemma pres_add_status st fname num : pres (add_status st fname num).
Proof. unfold add_status. pres. Qed.
Hint Resolve pres_add_status : pres.
Lemma pres_file_mem n : pres (file_mem n).
Proof. unfold file_mem. pres. Qed.
Hint Resolve pres_file_mem : pres.
Lemma pres_load_lists infos bl st : pres (load_lists infos bl st).
Proof. revert bl st. induction infos as [|i infos IH]; intros bl st; cbn [load_lists]; pres. Qed.
Hint Resolve pres_load_lists : pres.
Lemma pres_load  : pres (load_new_blacklists).
Proof. unfold load_new_blacklists, set_malware. pres. Qed.
Hint Resolve pres_load : pres.
Lemma pres_use  : pres (use_new_blacklists).
Proof. unfold use_new_blacklists, set_malware. pres. Qed.
Hint Resolve pres_use : pres.
Lemma pres_send_stats z : pres (send_stats z).
Proof. unfold send_stats. pres. Qed.
Hint Resolve pres_send_stats : pres.
Lemma pres_connections_turn  : pres (connections_turn).
Proof. unfold connections_turn. pres. Qed.
Hint Resolve pres_connections_turn : pres.
Lemma pres_dumper_turn  : pres (dumper_turn).
Proof. unfold dumper_turn. pres. Qed.
Hint Resolve pres_dumper_turn : pres.
Lemma pres_malware_turn  : pres (malware_turn).
Proof. unfold malware_turn, set_malware. pres. Qed.
Hint Resolve pres_malware_turn : pres.
Lemma pres_periodic z : pres (periodic_turn z).
Proof. unfold periodic_turn. pres. Qed.
Hint Resolve pres_periodic : pres.
Lemma pres_new_lists l : pres (take_new_lists l).
Proof. unfold take_new_lists, for_active, set_malware, set_firewall. pres. Qed.
Hint Resolve pres_new_lists : pres.
Lemma pres_housekeeping z l : pres (pd_housekeeping z l).
Proof. unfold pd_housekeeping. pres. Qed.
Hint Resolve pres_housekeeping : pres.
Lemma pres_stop  : pres (pd_stop).
Proof. unfold pd_stop. pres. Qed.
Hint Resolve pres_stop : pres.

(** ** The loop and the Java side *)

Lemma pres_uid  : pres (resolve_uid).
Proof. unfold resolve_uid. pres. Qed.
Hint Resolve pres_uid : pres.
Lemma pres_timestamp  : pres (get_pkt_timestamp).
Proof. unfold get_pkt_timestamp. pres. Qed.
Hint Resolve pres_timestamp : pres.
Lemma pres_new tuple : pres (handle_new_connection tuple).
Proof. unfold handle_new_connection. pres. Qed.
Hint Resolve pres_new : pres.
Lemma pres_count_blocked tuple p : pres (count_blocked tuple p).
Proof. unfold count_blocked. pres. Qed.
Hint Resolve pres_count_blocked : pres.
Lemma pres_forwarded_account p : pres (account_forwarded p).
Proof. unfold account_forwarded. pres. Qed.
Hint Resolve pres_forwarded_account : pres.
Lemma pres_write pkt : pres (write_tun pkt).
Proof. unfold write_tun. pres. Qed.
Hint Resolve pres_write : pres.
Lemma pres_reply tuple p pkt : pres (remote2vpn tuple p pkt).
Proof. unfold remote2vpn. pres. Qed.
Hint Resolve pres_reply : pres.
Lemma pres_dns_req zc px : pres (check_dns_req_allowed zc px).
Proof. unfold check_dns_req_allowed, use_new_dns_server. pres. Qed.
Hint Resolve pres_dns_req : pres.
Lemma pres_spoof ver px : pres (spoof_dns_reply ver px).
Proof. unfold spoof_dns_reply. pres. Qed.
Hint Resolve pres_spoof : pres.
Lemma pres_accept pkt : pres (vpn_accept pkt).
Proof. unfold vpn_accept. pres. Qed.
Hint Resolve pres_accept : pres.
Lemma pres_redirect m zc p : pres (vpn_redirect m zc p).
Proof. unfold vpn_redirect. pres. Qed.
Hint Resolve pres_redirect : pres.
Lemma pres_first socks5 zc px : pres (vpn_first_packet socks5 zc px).
Proof. unfold vpn_first_packet. pres. Qed.
Hint Resolve pres_first : pres.
Lemma pres_judge m socks5 zc p pkt : pres (vpn_judge m socks5 zc p pkt).
Proof. unfold vpn_judge. pres. Qed.
Hint Resolve pres_judge : pres.
Lemma pres_allow tuple p px : pres (vpn_allow tuple p px).
Proof. unfold vpn_allow. pres. Qed.
Hint Resolve pres_allow : pres.
Lemma pres_no_conn create : pres (vpn_no_conn create).
Proof. unfold vpn_no_conn. pres. Qed.
Hint Resolve pres_no_conn : pres.
Lemma pres_forwarded rv zc p : pres (vpn_forwarded rv zc p).
Proof. unfold vpn_forwarded. pres. Qed.
Hint Resolve pres_forwarded : pres.
Lemma pres_vpn_start vp : pres (vpn_start vp).
Proof. unfold vpn_start. pres. Qed.
Hint Resolve pres_vpn_start : pres.
Lemma pres_store d store : (forall bl, pres (store bl)) -> pres (store_list d store).
Proof. intros Hs. unfold store_list, new_list. pres. Qed.
Lemma pres_java j : pres (run_java j).
Proof.
  destruct j; cbn [run_java];
    unfold stopPacketLoop, askStatsDump, reloadBlacklists, setPrivateDnsBlocked, nativeSetFirewallEnabled,
      setPayloadMode, setDnsServer, reloadBlocklist, reloadFirewallWhitelist, reloadMalwareWhitelist,
      reloadDecryptionList, getPcapHeader, dumpMasterSecret, set_firewall, set_malware; pres.
  all: apply pres_store; intros ?; pres.
Qed.
Hint Resolve pres_java : pres.
Lemma pres_worker : pres worker.
Proof. unfold worker. pres. Qed.
Hint Resolve pres_worker : pres.
Lemma pres_start prefs : pres (pd_start prefs).
Proof. unfold pd_start, start_malware, start_dumper. pres. Qed.

Lemma typed_init cf : typed (pcapdroid_init cf).
Proof.
  split; split_and?; try done.
Qed.

Lemma on_pd_typed {A} (m : M pcapdroid A) s k s' :
  pres m -> (forall a pd, r_pd (k a pd) = pd) -> typed (r_pd s) -> on_pd m s k = Some s' -> typed (r_pd s').
Proof.
  intros Hm Hk Hs E. unfold on_pd in E. destruct (m (r_pd s)) as [[a pd]|] eqn:E1; [|done].
  injection E as <-. cbn [fst snd]. rewrite Hk. by eapply Hm.
Qed.
Lemma step_typed o s s' : typed (r_pd s) -> step o s = Some s' -> typed (r_pd s').
Proof.
  intros Hs E. destruct o; cbn [step] in E; unfold only_pd, ref_pd, on_conn in E;
    try (destruct (conn_of _ s) as [[? ?]|]; [|by injection E as <-]);
    try (eapply on_pd_typed; [| |exact Hs|exact E]; [pres|intros; cbv beta; by repeat case_match]).
  - destruct (r_open s !! i); by injection E as <-.
  - by injection E as <-.
  - destruct (addPortMapping _ _ _ _ _ _ _) as [r|]; [|done]. by injection E as <-.
  - by injection E as <-.
Qed.
Lemma run_ops_typed ops s s' : typed (r_pd s) -> run_ops ops s = Some s' -> typed (r_pd s').
Proof.
  revert s. induction ops as [|o ops IH]; intros s Hs E; [by injection E as <-|].
  cbn [run_ops] in E. destruct (step o s) as [s1|] eqn:E1; [|done]. eapply (IH s1); [|exact E]. by eapply step_typed.
Qed.
Lemma capture_start_typed cf prefs vp ok s : capture_start cf prefs vp = Some (ok, s) -> typed (r_pd s).
Proof.
  unfold capture_start. intros E. destruct (pd_start prefs _) as [[b pd]|] eqn:E1; [|done].
  apply (pres_start prefs) in E1; [|apply typed_init]. cbn [mbind option_bind] in E. destruct b; cbn [negb] in E.
  - destruct (vpn_start vp pd) as [[u pd']|] eqn:E2; [|done]. injection E as _ <-. by eapply pres_vpn_start.
  - by injection E as _ <-.
Qed.
End programs.

(** C11: every state a capture reaches is well typed: the protocol of a connection is
    one of those the application shows, its ALPN one of five, its flags fit
    the three bits of an update, its URL 256 characters, and counters, sizes
    and times the width of their C fields. *)
Theorem capture_typed `{PdEnv} `{InetPton} cf prefs vp ok s ops s' :
  (forall n, proto_ok (a_proto (sys n))) ->
  capture_start cf prefs vp = Some (ok, s) -> run_ops ops s = Some s' -> typed (r_pd s').
Proof. intros Hp Hs Hr. eapply run_ops_typed; [done| |exact Hr]. by eapply capture_start_typed. Qed.
#[local] Existing Instance inet_pton_v4_ok.
Lemma capture_typed_witness :
  exists s s', @capture_start calm inet_pton_v4 config_ex prefs_ex vpn_ex = Some (true, s) /\
    @run_ops calm inet_pton_v4 ops_ex s = Some s' /\ typed (r_pd s').
Proof.
  destruct start_ex as [s E]. exists s.
  destruct (@run_ops calm inet_pton_v4 ops_ex s) as [s'|] eqn:Er.
  - exists s'. split; [exact E|]. split; [done|].
    exact (@capture_typed calm inet_pton_v4 config_ex prefs_ex vpn_ex true s ops_ex s'
      (en_proto (env_ex_ok (fun _ => true))) E Er).
  - exfalso. clear - E Er.
    destruct (PdCapture.capture_start_ok (env_ex_ok (fun _ => true)) config_ex prefs_ex vpn_ex
      (start_mem_ex (fun _ => true))) as (ok & s1 & E1 & Hs1).
    pose proof (eq_trans (eq_sym E1) E) as E2. injection E2 as -> ->.
    destruct (@run_ops_safe calm inet_pton_v4 inet_pton_v4_ok (env_ex_ok (fun _ => true)) true ops_ex s (fun _ _ => eq_refl) (Hs1 true) (@run_ops_ex_ok))
      as (s' & E' & _). congruence.
Defined.
End PdTyped.
