(* ===== verification/PdQuiet.v ===== *)
(** * What the steps of a capture leave alone

    The housekeeping decides what to do from a few parts of the state: the clock, the
    times of the last statistics, connections and dumps, and the flags of a reload of
    the malware lists.  Here is what each step of a run other than the housekeeping
    does to them. *)

From S2P Require Import Prelude CString UtHash Blacklist ZdtunTypes ZdtunConn ZdtunPkt PortMap ZdtunWire PcapDump PdTypes PdCheck PdNotify PdConn PdProcess PdHouse PdVpn PdJni PdVpnSafe PdRuns.

Module PdQuiet.
Export PdRuns.
#[local] Existing Instance PcapDump.pcap_dumper_eta.

(** ** Programs that leave a part of the state alone *)

Section leaves.
Context {X : Type} (f : pcapdroid -> X).

Definition leaves {A} (m : M pcapdroid A) : Prop :=
  forall pd a pd', m pd = Some (a, pd') -> f pd' = f pd.

Lemma leaves_ret {A} (a : A) : leaves (mret a).
Proof. by intros pd b pd' [= _ <-]. Qed.
Lemma leaves_lift {A} (o : option A) : leaves (liftO o).
Proof. intros pd b pd' E. unfold liftO in E. destruct o; [by injection E as _ <-|done]. Qed.
Lemma leaves_ub {A} : leaves (ub : M pcapdroid A).
Proof. by intros pd b pd' E. Qed.
Lemma leaves_modify g : (forall pd, f (g pd) = f pd) -> leaves (modifyS g).
Proof. intros Hg pd b pd' [= _ <-]. apply Hg. Qed.
Lemma leaves_bind {A B} (m : M pcapdroid A) (k : A -> M pcapdroid B) :
  leaves m -> (forall a, leaves (k a)) -> leaves (m ≫= k).
Proof.
  intros Hm Hk pd b pd' E. unfold mbind, M_bind in E. destruct (m pd) as [[a pd1]|] eqn:E1; [|done].
  by rewrite (Hk a _ _ _ E), (Hm _ _ _ E1).
Qed.
Lemma leaves_get {B} (k : pcapdroid -> M pcapdroid B) : (forall pd, leaves (k pd)) -> leaves (getS ≫= k).
Proof. intros Hk pd b pd' E. exact (Hk pd pd b pd' E). Qed.
Lemma leaves_when b (m : M pcapdroid unit) : leaves m -> leaves (whenM b m).
Proof. destruct b; [done|]. intros _. apply leaves_ret. Qed.
Lemma leaves_for {A} (l : list A) (k : A -> M pcapdroid unit) : (forall a, leaves (k a)) -> leaves (forM l k).
Proof. intros Hk. induction l as [|a l IH]; [apply leaves_ret|]. by apply leaves_bind. Qed.
Lemma wlp_leaves {A} (m : M pcapdroid A) pd : leaves m -> wlp m (fun _ pd' => f pd' = f pd) pd.
Proof. intros Hm a pd' E. by eapply Hm. Qed.
End leaves.

Create HintDb leaves.
Ltac leaves_step :=
  lazymatch goal with
  | |- leaves _ (let _ := _ in _) => cbv zeta
  | |- leaves _ (mbind _ getS) => apply leaves_get; intros ?
  | |- leaves _ (mbind _ _) => apply leaves_bind; [|intros ?]
  | |- leaves _ (mret _) => apply leaves_ret
  | |- leaves _ (liftO _) => apply leaves_lift
  | |- leaves _ ub => apply leaves_ub
  | |- leaves _ (modifyS (put_arr ?a _)) => apply leaves_modify; intros ?; by destruct a
  | |- leaves _ (modifyS _) => apply leaves_modify; intros ?; reflexivity
  | |- leaves _ (whenM _ _) => apply leaves_when
  | |- leaves _ (forM _ _) => apply leaves_for; intros ?
  | |- leaves _ (match ?x with _ => _ end) => destruct x
  end.
Ltac leaves := repeat first [ solve [eauto 3 with leaves] | leaves_step ].

(** What decides the turns of the housekeeping. *)
Definition core (pd : pcapdroid) :=
  (now_ms pd, dump_capture_stats_now pd, capture_stats pd, next_connections_dump pd, netd_resolve_waiting pd, dumper pd,
   reload_blacklists_now pd, (malware_detection pd) <| md_whitelist := None |> <| md_new_wl := None |>).

Section programs.
Context `{PdEnv}.

Lemma lv_ask {A} (g : answer -> A) : leaves core (ask g).
Proof. unfold ask. leaves. Qed.
Hint Resolve lv_ask : leaves.
Lemma lv_conn p : leaves core (conn p).
Proof. unfold conn. leaves. Qed.
Hint Resolve lv_conn : leaves.
Lemma lv_set p g : leaves core (set_conn p g).
Proof. unfold set_conn. leaves. Qed.
Hint Resolve lv_set : leaves.
Lemma lv_emit e : leaves core (emit e).
Proof. unfold emit. leaves. Qed.
Hint Resolve lv_emit : leaves.
Lemma lv_appname u : leaves core (get_appname_by_uid u).
Proof. unfold get_appname_by_uid. leaves. Qed.
Hint Resolve lv_appname : leaves.
Lemma lv_ip_in_list bl tuple : leaves core (ip_in_list bl tuple).
Proof. unfold ip_in_list. leaves. Qed.
Hint Resolve lv_ip_in_list : leaves.
Lemma lv_domain p : leaves core (check_blacklisted_domain p).
Proof. unfold check_blacklisted_domain. leaves. Qed.
Hint Resolve lv_domain : leaves.
Lemma lv_mode tuple p : leaves core (check_whitelist_mode_block tuple p).
Proof. unfold check_whitelist_mode_block. leaves. Qed.
Hint Resolve lv_mode : leaves.
Lemma lv_decryption tuple p : leaves core (matches_decryption_whitelist tuple p).
Proof. unfold matches_decryption_whitelist. leaves. Qed.
Hint Resolve lv_decryption : leaves.
Lemma lv_ndpi tuple p : leaves core (vpn_process_ndpi tuple p).
Proof. unfold vpn_process_ndpi, set_blocked_internal. leaves. Qed.
Hint Resolve lv_ndpi : leaves.
Lemma lv_found p proto flow : leaves core (ndpi_found_info p proto flow).
Proof. unfold ndpi_found_info, process_alpn, process_url, pd_strndup. leaves. Qed.
Hint Resolve lv_found : leaves.
Lemma lv_data tuple p : leaves core (process_ndpi_data tuple p).
Proof. unfold process_ndpi_data, set_found_info, pd_strndup. leaves. Qed.
Hint Resolve lv_data : leaves.
Lemma lv_giveup p tuple : leaves core (pd_giveup_dpi p tuple).
Proof. unfold pd_giveup_dpi, conn_free_ndpi. leaves. Qed.
Hint Resolve lv_giveup : leaves.
Lemma lv_purge p : leaves core (pd_purge_connection p).
Proof. unfold pd_purge_connection, conn_free_ndpi. leaves. Qed.
Hint Resolve lv_purge : leaves.
Lemma lv_notif a tuple p : leaves core (notif_connection a tuple p).
Proof. unfold notif_connection. leaves. Qed.
Hint Resolve lv_notif : leaves.
Lemma lv_clear a b : leaves core (conns_clear a b).
Proof. unfold conns_clear. leaves. Qed.
Hint Resolve lv_clear : leaves.
Lemma lv_update s : leaves core (getConnUpdate s).
Proof. unfold getConnUpdate. leaves. Qed.
Hint Resolve lv_update : leaves.
Lemma lv_new s : leaves core (dumpNewConnection s).
Proof. unfold dumpNewConnection. leaves. Qed.
Hint Resolve lv_new : leaves.
Lemma lv_loop {A} (dump : conn_and_tuple -> M pcapdroid (option A)) ss :
  (forall s, leaves core (dump s)) -> leaves core (dump_loop dump ss).
Proof. intros Hd. induction ss as [|s ss IH]; cbn [dump_loop]; leaves. Qed.
Lemma lv_dump  : leaves core (dump_connections).
Proof. unfold dump_connections, sendConnectionsDump, dumpConnectionUpdate. leaves. all: apply lv_loop; intros ?; leaves. Qed.
Hint Resolve lv_dump : leaves.
Lemma lv_stats  : leaves core (sendStatsDump).
Proof. unfold sendStatsDump. leaves. Qed.
Hint Resolve lv_stats : leaves.
Lemma lv_blocked tuple p : leaves core (check_blocked_conn_cb tuple p).
Proof. unfold check_blocked_conn_cb, pd_notify_connection_update. leaves. Qed.
Hint Resolve lv_blocked : leaves.
Lemma lv_blacklisted tuple p : leaves core (check_blacklisted_conn_cb tuple p).
Proof. unfold check_blacklisted_conn_cb, pd_notify_connection_update. leaves. Qed.
Hint Resolve lv_blacklisted : leaves.
Lemma lv_lists l : leaves core (take_new_lists l).
Proof. unfold take_new_lists, for_active, set_malware, set_firewall. leaves. Qed.
Hint Resolve lv_lists : leaves.
End programs.

(** ** The steps of a run *)

(** The dumper is closed, or went on with its clock: a dump of its buffer is a new one. *)
Definition dump_on (now : Z) (od od' : option PcapDump.pcap_dumper) : Prop :=
  forall d', od' = Some d' -> exists d, od = Some d /\
    (PcapDump.last_dump_ms d' = PcapDump.last_dump_ms d \/ PcapDump.last_dump_ms d' = now) /\
    (PcapDump.keylog_idx d' = PcapDump.keylog_idx d \/ PcapDump.keylog_idx d' = 0).
(** The next dump of the connections, but for the delay that waits for netd. *)
Definition base (pd : pcapdroid) : Z :=
  if 0 <? netd_resolve_waiting pd then next_connections_dump pd - NETD_RESOLVE_DELAY_MS else next_connections_dump pd.
Definition slow (pd : pcapdroid) :=
  (now_ms pd, dump_capture_stats_now pd, last_update_ms (capture_stats pd),
   reload_blacklists_now pd, (malware_detection pd) <| md_whitelist := None |> <| md_new_wl := None |>).
Record quiet (pd pd' : pcapdroid) : Prop := {
    qt_slow : slow pd' = slow pd;
    qt_base : 0 < base pd -> base pd + NETD_RESOLVE_DELAY_MS < 2 ^ 64 -> base pd' = base pd;
    qt_dump : dump_on (now_ms pd) (dumper pd) (dumper pd');
  }.
Lemma dump_on_refl now od : dump_on now od od.
Proof. intros d ->. exists d. auto. Qed.
Lemma slow_now pd pd' : slow pd' = slow pd -> now_ms pd' = now_ms pd.
Proof. intros E. pose proof (f_equal fst E) as E0. by injection E0. Qed.
Lemma quiet_pd_refl pd : quiet pd pd.
Proof. split; [done|done|apply dump_on_refl]. Qed.
Lemma quiet_pd_trans pd1 pd2 pd3 : quiet pd1 pd2 -> quiet pd2 pd3 -> quiet pd1 pd3.
Proof.
  intros [S1 B1 D1] [S2 B2 D2]. split; [congruence| |].
  { intros H0 H1. rewrite <-(B1 H0 H1). apply B2; by rewrite (B1 H0 H1). }
  rewrite (slow_now _ _ S1) in D2. intros d3 E3.
  destruct (D2 d3 E3) as (d2 & E2 & L2 & K2). destruct (D1 d2 E2) as (d1 & E1 & L1 & K1).
  exists d1. split; [done|]. split; [destruct L2 as [->| ->]|destruct K2 as [->| ->]]; auto.
Qed.
Lemma core_slow pd pd' : core pd' = core pd -> quiet pd pd'.
Proof.
  intros E. pose proof (f_equal fst E) as E0. pose proof (f_equal snd E) as E7.
  injection E0 as E1 E2 E3 E4 Ew E5 E6.
  split; [unfold slow; rewrite E1, E2, E3, E6; f_equal; exact E7|unfold base; by rewrite E4, Ew|].
  rewrite E5. apply dump_on_refl.
Qed.

(** A program is quiet whenever it runs. *)
Definition hush {A} (m : M pcapdroid A) : Prop := forall pd a pd', m pd = Some (a, pd') -> quiet pd pd'.
Lemma hush_leaves {A} (m : M pcapdroid A) : leaves core m -> hush m.
Proof. intros Hm pd a pd' E. eapply core_slow, Hm, E. Qed.
Lemma hush_bind {A B} (m : M pcapdroid A) (k : A -> M pcapdroid B) :
  hush m -> (forall a, hush (k a)) -> hush (m ≫= k).
Proof.
  intros Hm Hk pd b pd' E. unfold mbind, M_bind in E. destruct (m pd) as [[a pd1]|] eqn:E1; [|done].
  eapply quiet_pd_trans; [by eapply Hm|by eapply Hk].
Qed.
Lemma hush_get {B} (k : pcapdroid -> M pcapdroid B) : (forall pd, hush (k pd)) -> hush (getS ≫= k).
Proof. intros Hk pd b pd' E. exact (Hk pd pd b pd' E). Qed.
Lemma hush_when b (m : M pcapdroid unit) : hush m -> hush (whenM b m).
Proof. destruct b; [done|]. intros _. apply hush_leaves, leaves_ret. Qed.
Lemma hush_modify g : (forall pd, slow (g pd) = slow pd /\ base (g pd) = base pd /\ (dumper (g pd) = dumper pd \/ dumper (g pd) = None)) -> hush (modifyS g).
Proof.
  intros Hg pd a pd' [= _ <-]. destruct (Hg pd) as (Es & Eb & [Ed|Ed]); (split; [done|by intros _ _|]); rewrite Ed; [apply dump_on_refl|by intros ?].
Qed.
Lemma hush_for {A} (l : list A) (k : A -> M pcapdroid unit) : (forall a, hush (k a)) -> hush (forM l k).
Proof. intros Hk. induction l as [|a l IH]; [apply hush_leaves, leaves_ret|]. by apply hush_bind. Qed.

Create HintDb hush.
Ltac hush_step :=
  lazymatch goal with
  | |- hush (let _ := _ in _) => cbv zeta
  | |- hush (mbind _ getS) => apply hush_get; intros ?
  | |- hush (mbind _ _) => apply hush_bind; [|intros ?]
  | |- hush (modifyS _) => apply hush_modify; intros ?; split; [reflexivity|split; [reflexivity|by auto]]
  | |- hush (whenM _ _) => apply hush_when
  | |- hush (forM _ _) => apply hush_for; intros ?
  | |- hush (match ?x with _ => _ end) => destruct x
  end.
Ltac hush := repeat first [ solve [eauto 3 with hush] | solve [apply hush_leaves; eauto 3 with leaves] | solve [apply hush_leaves; leaves_step] | hush_step ].

Section dumps.
Definition dump_step (now : Z) (d d' : PcapDump.pcap_dumper) : Prop :=
  PcapDump.now_ms d' = now /\
  (PcapDump.last_dump_ms d' = PcapDump.last_dump_ms d \/ PcapDump.last_dump_ms d' = now) /\
  (PcapDump.keylog_idx d' = PcapDump.keylog_idx d \/ PcapDump.keylog_idx d' = 0).
Lemma dump_step_trans now d1 d2 d3 : dump_step now d1 d2 -> dump_step now d2 d3 -> dump_step now d1 d3.
Proof.
  intros (N1 & L1 & K1) (N2 & L2 & K2). split; [done|]. split; [destruct L2 as [->| ->]|destruct K2 as [->| ->]]; auto.
Qed.
Definition dumps {A} (m : M PcapDump.pcap_dumper A) : Prop :=
  forall now d, PcapDump.now_ms d = now -> wlp m (fun _ => dump_step now d) d.
Lemma dump_step_same now d d' :
  PcapDump.now_ms d = now -> PcapDump.now_ms d' = PcapDump.now_ms d ->
  PcapDump.last_dump_ms d' = PcapDump.last_dump_ms d -> PcapDump.keylog_idx d' = PcapDump.keylog_idx d -> dump_step now d d'.
Proof. intros <- E1 E2 E3. unfold dump_step. auto. Qed.
Lemma dumps_bind {A B} (m : M PcapDump.pcap_dumper A) (k : A -> M PcapDump.pcap_dumper B) :
  dumps m -> (forall a, dumps (k a)) -> dumps (m ≫= k).
Proof.
  intros Hm Hk now d Hd. apply wlp_bind. eapply wlp_mono; [by apply Hm|]. intros a d1 H1.
  eapply wlp_mono; [apply Hk, H1|]. intros b d2. by apply dump_step_trans.
Qed.
Lemma dumps_get {B} (k : PcapDump.pcap_dumper -> M PcapDump.pcap_dumper B) :
  (forall d, dumps (k d)) -> dumps (getS ≫= k).
Proof. intros Hk now d Hd. apply wlp_bind, wlp_get. by apply Hk. Qed.
Lemma dumps_ret {A} (a : A) : dumps (mret a).
Proof. intros now d Hd. apply wlp_ret. by apply dump_step_same. Qed.
Lemma dumps_lift {A} (o : option A) : dumps (liftO o).
Proof. intros now d Hd. apply wlp_lift. intros a _. by apply dump_step_same. Qed.
Lemma dumps_when b (m : M PcapDump.pcap_dumper unit) : dumps m -> dumps (whenM b m).
Proof. destruct b; [done|]. intros _. apply dumps_ret. Qed.
Lemma dumps_modify g : (forall d, dump_step (PcapDump.now_ms d) d (g d)) -> dumps (modifyS g).
Proof. intros Hg now d <-. apply wlp_modify, Hg. Qed.
Ltac dumps_step :=
  lazymatch goal with
  | |- dumps (let _ := _ in _) => cbv zeta
  | |- dumps (mbind _ getS) => apply dumps_get; intros ?
  | |- dumps (mbind _ _) => apply dumps_bind; [|intros ?]
  | |- dumps (mret _) => apply dumps_ret
  | |- dumps (liftO _) => apply dumps_lift
  | |- dumps (whenM _ _) => apply dumps_when
  | |- dumps (modifyS _) => apply dumps_modify; intros ?; unfold dump_step; by auto
  | |- dumps (match ?x with _ => _ end) => destruct x
  end.
Lemma dumps_export : dumps PcapDump.export_buffer.
Proof. unfold PcapDump.export_buffer, PcapDump.export_keylog_buffer, PcapDump.run_dump_cb. repeat dumps_step. Qed.
Lemma dumps_check : dumps PcapDump.pcap_check_export.
Proof. unfold PcapDump.pcap_check_export. repeat first [apply dumps_export|dumps_step]. Qed.
Lemma dumps_packet name pkt n tv u : dumps (PcapDump.pcap_dump_packet name pkt n tv u).
Proof.
  unfold PcapDump.pcap_dump_packet, PcapDump.dump_packet_pcapng, PcapDump.dump_packet_pcap.
  repeat first [apply dumps_export|apply dumps_check|dumps_step].
Qed.
End dumps.

Section calls.
Context `{PdEnv} `{InetPton}.
Hint Resolve lv_ask lv_conn lv_set lv_emit lv_appname lv_ip_in_list lv_domain lv_mode lv_decryption lv_ndpi lv_found lv_data
  lv_giveup lv_purge lv_notif lv_clear lv_blocked lv_blacklisted : leaves.

Lemma lv_update_notify tuple p : leaves core (pd_notify_connection_update tuple p).
Proof. unfold pd_notify_connection_update. leaves. Qed.
Hint Resolve lv_update_notify : leaves.
Lemma kp_stop : hush stop_pcap_dump.
Proof. unfold stop_pcap_dump. hush. Qed.
Hint Resolve kp_stop : hush.
Lemma kp_dump pktbuf n tv u : hush (pd_dump_packet pktbuf n tv u).
Proof.
  intros pd a pd'. revert a pd'. change (wlp (pd_dump_packet pktbuf n tv u) (fun _ => quiet pd) pd).
  unfold pd_dump_packet. apply wlp_bind, wlp_get. destruct (dumper pd) as [d|] eqn:Ed; [|apply wlp_ret, quiet_pd_refl].
  apply wlp_bind, wlp_lift. intros [b d'] Er. apply (dumps_packet _ _ _ _ _ (now_ms pd)) in Er; [|done].
  destruct Er as (_ & L & K). cbn [fst snd] in *. apply wlp_bind, wlp_modify.
  match goal with |- wlp _ _ ?x => set (pd1 := x) end.
  assert (H1 : quiet pd pd1).
  { split; [done|done|]. rewrite Ed. intros d1 [= <-]. by exists d. }
  intros a pd2 E. apply (quiet_pd_trans _ pd1); [done|]. revert E. match goal with |- ?m _ = _ -> _ => cut (hush m) end.
  { intros Hk. apply Hk. }
  hush.
Qed.
Hint Resolve kp_dump : hush.
Lemma kp_capture px : hush (modifyS (fun pd => pd <| capture_stats ::= account_capture px |>)).
Proof.
  apply hush_modify. intros pd. split; [|split; [done|by left]]. unfold slow. cbn. unfold account_capture.
  by destruct (px_is_tx px), (_ =? 6).
Qed.
Hint Resolve kp_capture : hush.
Lemma kp_account px : hush (pd_account_stats px).
Proof. unfold pd_account_stats. hush. Qed.
Hint Resolve kp_account : hush.
Lemma kp_netd : hush netd_resolved.
Proof.
  intros pd a pd'. revert a pd'. change (wlp netd_resolved (fun _ => quiet pd) pd).
  unfold netd_resolved. wl; try apply quiet_pd_refl; (split; [done| |apply dump_on_refl]); unfold base; cbn; intros Hb Hw.
  all: repeat match goal with H : (0 <? _) = true |- _ => apply Z.ltb_lt in H
    | H : (_ =? 0) = _ |- _ => first [apply Z.eqb_eq in H|apply Z.eqb_neq in H] end.
  all: destruct (Z.ltb_spec 0 (netd_resolve_waiting pd)), (Z.ltb_spec 0 (Z.pred (netd_resolve_waiting pd))); try lia.
  rewrite uwrap_id; [done|]. unfold u_ok, NETD_RESOLVE_DELAY_MS in *. lia.
Qed.
Lemma kp_delay p : hush (netd_delay p).
Proof.
  intros pd a pd'. revert a pd'. change (wlp (netd_delay p) (fun _ => quiet pd) pd).
  unfold netd_delay. apply wlp_bind, wlp_get, wlp_bind. intros c pd1 E.
  assert (pd1 = pd) as -> by (revert E; unfold conn; cut (wlp (conn p) (fun _ pd1 => pd1 = pd) pd); [intros Hw; apply Hw|unfold conn; by wl]).
  wl; try apply quiet_pd_refl; (split; [done| |apply dump_on_refl]); unfold base; cbn; intros Hb Hw.
  all: repeat match goal with
    | H : (_ =? 0) = _ |- _ => first [apply Z.eqb_eq in H|apply Z.eqb_neq in H] end.
  all: destruct (Z.ltb_spec 0 (netd_resolve_waiting pd)), (Z.ltb_spec 0 (Z.succ (netd_resolve_waiting pd))); try lia.
  rewrite uwrap_id; [lia|]. unfold u_ok, NETD_RESOLVE_DELAY_MS in *. lia.
Qed.
Hint Resolve kp_netd kp_delay : hush.
Lemma kp_new_connection tuple u : hush (pd_new_connection tuple u).
Proof.
  assert (Hinit : forall p, hush (init_connection tuple p)).
  { intros p. unfold init_connection, check_firewall, check_blacklisted_ip, resolve_host, netd_resolve. hush. }
  unfold pd_new_connection. apply hush_bind; [apply hush_leaves, lv_ask|]. intros mem. destruct (negb mem); [hush|].
  intros pd a pd' E. cbv zeta in E. set (pd1 := pd <| next_conn ::= Z.succ |> <| conns ::= <[next_conn pd := pd_conn_zero]> |>).
  apply (quiet_pd_trans _ pd1); [split; [done|done|apply dump_on_refl]|].
  unfold mbind at 1, M_bind at 1, getS at 1 in E. unfold mbind at 1, M_bind at 1, putS at 1 in E. fold pd1 in E. revert E.
  match goal with |- ?m _ = _ -> _ => cut (hush m) end; [intros Hk; apply Hk|]. hush.
Qed.
Hint Resolve kp_new_connection : hush.
Lemma hush_ip_to_host {A} (m : M ip_lru A) : hush (zoom ip_to_host (fun lru pd => pd <| ip_to_host := lru |>) m).
Proof. unfold zoom. hush. Qed.
Lemma kp_process pkt tx tuple p tv : hush (pd_process_packet pkt tx tuple p tv).
Proof.
  unfold pd_process_packet, perform_dpi, process_payload, dump_payload, ndpi_process, dpi_done, finish_dpi, dumpPayloadChunk, dns_reply.
  repeat first [apply hush_ip_to_host|progress hush].
Qed.
Hint Resolve kp_process : hush.

(** The calls of the forwarding engine and of its loop *)
Lemma kp_open tuple : hush (handle_new_connection tuple).
Proof. unfold handle_new_connection, resolve_uid. hush. Qed.
Lemma kp_accept pkt : hush (vpn_accept pkt).
Proof. unfold vpn_accept. hush. Qed.
Lemma kp_no_conn b : hush (vpn_no_conn b).
Proof. unfold vpn_no_conn. hush. Qed.
Lemma kp_first socks5 zc px : hush (vpn_first_packet socks5 zc px).
Proof. unfold vpn_first_packet, check_dns_req_allowed, spoof_dns_reply, use_new_dns_server. hush. Qed.
Lemma kp_redirect m zc p : hush (vpn_redirect m zc p).
Proof. unfold vpn_redirect, should_proxify. hush. Qed.
Hint Resolve kp_first kp_redirect : hush.
Lemma kp_judge m socks5 zc p pkt : hush (vpn_judge m socks5 zc p pkt).
Proof. unfold vpn_judge, get_pkt_timestamp. hush. Qed.
Lemma kp_count tuple p : hush (count_blocked tuple p).
Proof. unfold count_blocked. hush. Qed.
Hint Resolve kp_count : hush.
Lemma kp_allow tuple p px : hush (vpn_allow tuple p px).
Proof. unfold vpn_allow. hush. Qed.
Lemma kp_account_forwarded p : hush (account_forwarded p).
Proof. unfold account_forwarded. hush. Qed.
Hint Resolve kp_account_forwarded : hush.
Lemma kp_forwarded rv zc p : hush (vpn_forwarded rv zc p).
Proof. unfold vpn_forwarded. hush. Qed.
Lemma kp_status p st : hush (update_conn_status p st).
Proof. unfold update_conn_status. hush. Qed.
Lemma kp_closed tuple p st : hush (connection_closed tuple p st).
Proof. unfold connection_closed. hush. Qed.
(** The calls of the Java side, but for the ones that ask for something. *)
Definition java_quiet (j : java_op) : bool :=
  match j with JAskStats | JReloadBlacklists | JSecret _ => false | _ => true end.
Lemma kp_firewall f : hush (set_firewall f).
Proof. unfold set_firewall. hush. Qed.
Hint Resolve kp_firewall : hush.
Lemma kp_java j : java_quiet j = true -> hush (run_java j).
Proof.
  intros Hj. destruct j; try done; cbn [run_java];
    unfold stopPacketLoop, setPrivateDnsBlocked, nativeSetFirewallEnabled, setPayloadMode, setDnsServer, reloadBlocklist,
      reloadFirewallWhitelist, reloadMalwareWhitelist, reloadDecryptionList, store_list, new_list, file_mem, getPcapHeader, set_malware; hush.
Qed.

(** ** The steps *)

(** A step reads the clock once at most. *)
Definition moved (pd pd' : pcapdroid) : Prop := exists pd1 n, quiet pd pd1 /\ quiet (pd1 <| now_ms := n |>) pd'.
Lemma moved_quiet pd pd' : quiet pd pd' -> moved pd pd'.
Proof.
  intros Hq. exists pd', (now_ms pd'). split; [done|].
  replace (pd' <| now_ms := now_ms pd' |>) with pd' by (by destruct pd'). apply quiet_pd_refl.
Qed.
Lemma refresh_moved pd pd' : pd_refresh_time pd = Some (tt, pd') -> moved pd pd'.
Proof.
  unfold pd_refresh_time. intros E. unfold mbind at 1, M_bind at 1 in E.
  destruct (ask _ pd) as [[[[ok sec] nsec] pd1]|] eqn:E1; [|done]. apply lv_ask, core_slow in E1.
  destruct ok; cbn [whenM] in E; injection E as <-; [|by apply moved_quiet].
  eexists pd1, _. split; [done|]. apply quiet_pd_refl.
Qed.
(** The operations that neither turn the housekeeping nor ask it for something. *)
Definition quiet_op (o : run_op) : bool :=
  match o with OpHousekeeping _ _ | OpWorker => false | OpJava j => java_quiet j | _ => true end.
Lemma reply_moved tuple p pkt rv pd pd' : remote2vpn tuple p pkt pd = Some (rv, pd') -> moved pd pd'.
Proof.
  unfold remote2vpn. intros E. unfold mbind at 1, M_bind at 1, getS at 1 in E.
  destruct (negb (running pd)); [injection E as _ <-; apply moved_quiet, quiet_pd_refl|].
  unfold mbind at 1, M_bind at 1 in E. destruct (account_forwarded p pd) as [[[] pd1]|] eqn:E1; [|done].
  unfold mbind at 1, M_bind at 1 in E. destruct (pd_refresh_time pd1) as [[[] pd2]|] eqn:E2; [|done].
  apply kp_account_forwarded in E1. destruct (refresh_moved _ _ E2) as (pd3 & n & Q1 & Q2).
  exists pd3, n. split; [by eapply quiet_pd_trans|]. eapply quiet_pd_trans; [exact Q2|]. clear E1 E2 Q1 Q2. revert E.
  match goal with |- ?m _ = _ -> _ => cut (hush m) end; [intros Hk; apply Hk|].
  unfold get_pkt_timestamp, write_tun. hush.
Qed.
Lemma on_pd_moved {A} (m : M pcapdroid A) s k s' :
  (forall pd a pd', m pd = Some (a, pd') -> moved pd pd') -> (forall a pd, r_pd (k a pd) = pd) ->
  on_pd m s k = Some s' -> moved (r_pd s) (r_pd s').
Proof.
  intros Hm Hk E. unfold on_pd in E. destruct (m (r_pd s)) as [[a pd]|] eqn:E1; [|done]. injection E as <-.
  rewrite Hk. by eapply Hm.
Qed.
Lemma on_pd_keeps {A} (m : M pcapdroid A) s k s' :
  hush m -> (forall a pd, r_pd (k a pd) = pd) -> on_pd m s k = Some s' -> moved (r_pd s) (r_pd s').
Proof. intros Hm. apply on_pd_moved. intros pd a pd' E. by eapply moved_quiet, Hm. Qed.
Lemma on_conn_moved r s f s' :
  (forall tuple p, f tuple p = Some s' -> moved (r_pd s) (r_pd s')) -> on_conn r s f = Some s' -> moved (r_pd s) (r_pd s').
Proof.
  intros Hf E. unfold on_conn in E. destruct (conn_of r s) as [[tuple p]|]; [by eapply Hf|].
  injection E as <-. apply moved_quiet, quiet_pd_refl.
Qed.
Lemma step_moved o s s' : quiet_op o = true -> step o s = Some s' -> moved (r_pd s) (r_pd s').
Proof.
  assert (Hrefl : forall pd, moved pd pd) by (intros pd; apply moved_quiet, quiet_pd_refl).
  intros Ho. destruct o; try done; cbn [step]; unfold only_pd, ref_pd;
    try (intros E; eapply on_conn_moved; [|exact E]; clear E; intros tuple' p).
  - apply on_pd_keeps; [apply kp_open|done].
  - apply on_pd_keeps; [apply kp_accept|done].
  - apply on_pd_keeps; [apply kp_no_conn|done].
  - apply on_pd_keeps; [apply kp_judge|done].
  - apply on_pd_keeps; [apply kp_allow|done].
  - apply on_pd_keeps; [apply kp_forwarded|done].
  - apply on_pd_moved; [intros pd a pd' E; by eapply reply_moved|done].
  - apply on_pd_keeps; [apply kp_status|done].
  - apply on_pd_keeps; [apply kp_closed|done].
  - apply on_pd_keeps; [apply kp_closed|done].
  - destruct (r_open s !! i); intros [= <-]; apply Hrefl.
  - intros [= <-]. apply Hrefl.
  - apply on_pd_moved; [intros pd [] pd' E; by apply refresh_moved|done].
  - apply on_pd_keeps; [by apply kp_java|done].
  - destruct (addPortMapping _ _ _ _ _ _ _) as [r|]; [|done]. intros [= <-]. apply Hrefl.
  - intros [= <-]. apply Hrefl.
Qed.
End calls.
End PdQuiet.
