(* ===== verification/PdReload.v ===== *)
(** * Reloading the malware lists (core/pcapdroid.c)

    A reload the Java side asks for waits while statistics, connections or the
    dump are due: [pd_housekeeping] does one thing at a time.  The loops refresh the
    clock before each turn and handle a packet, so that what was done may become due
    again; but not within 300 ms.  So five turns within 300 ms start the worker, and
    five turns within 300 ms after it ended put its lists into use, whatever
    packets, closed connections and calls of the Java side come in between. *)

From S2P Require Import Prelude CString UtHash Blacklist ZdtunTypes ZdtunConn ZdtunPkt PortMap ZdtunWire PcapDump PdTypes PdCheck PdNotify PdConn PdProcess PdHouse PdVpn PdJni PdVpnSafe PdRuns PdCapture PdQuiet.

Module PdReload.
Export PdRuns.
Import PdCapture PdQuiet.
#[local] Existing Instance PcapDump.pcap_dumper_eta.

(** ** What waits before the malware lists *)

(** The reload, apart from what the turns before it change. *)
Definition reload (pd : pcapdroid) :=
  (md_enabled (malware_detection pd), reload_in_progress (malware_detection pd),
   reload_done (malware_detection pd), reload_blacklists_now pd,
   (md_bl (malware_detection pd), md_new_bl (malware_detection pd))).
Lemma slow_reload pd pd' : slow pd' = slow pd -> reload pd' = reload pd.
Proof.
  intros E. pose (pick m := (md_enabled m, reload_in_progress m, reload_done m, (md_bl m, md_new_bl m))).
  pose proof (f_equal fst E) as E0. pose proof (f_equal (fun c => pick (snd c)) E) as E7.
  injection E0 as E1 E2 E3 E4. injection E7 as F1 F2 F3 F4 F5.
  unfold reload. by rewrite E4, F1, F2, F3, F4, F5.
Qed.
Lemma quiet_reload pd pd' : quiet pd pd' -> reload pd' = reload pd.
Proof. intros [E _ _]. by apply slow_reload. Qed.
Lemma core_reload pd pd' : core pd' = core pd -> reload pd' = reload pd.
Proof. intros E. by apply quiet_reload, core_slow. Qed.
Lemma moved_reload pd pd' : moved pd pd' -> reload pd' = reload pd.
Proof. intros (pd1 & n & H1 & H2). rewrite (quiet_reload _ _ H2). exact (quiet_reload _ _ H1). Qed.

Definition export_due (d : PcapDump.pcap_dumper) (now : Z) : bool :=
  ((0 <? PcapDump.buffer_idx d) && (PcapDump.MAX_PCAP_DUMP_DELAY_MS <=? u64 (now - PcapDump.last_dump_ms d)))
  || (PcapDump.PCAP_BUFFER_ALMOST_FULL_SIZE <? PcapDump.keylog_idx d).

Section deadline.
Context (T : Z).

(** What is due, or may be by the time [T]: it was not done in the last while. *)
Definition stats_wait (pd : pcapdroid) : bool :=
  dump_capture_stats_now pd
  || negb ((T - CAPTURE_STATS_UPDATE_FREQUENCY_MS <? last_update_ms (capture_stats pd)) && (last_update_ms (capture_stats pd) <=? now_ms pd)).
Definition conns_wait (pd : pcapdroid) : bool :=
  negb ((T <? base pd) && (base pd <=? T + CONNECTION_DUMP_UPDATE_FREQUENCY_MS)).
Definition buffer_wait (now : Z) (od : option PcapDump.pcap_dumper) : bool :=
  match od with
  | Some d => negb ((T - PcapDump.MAX_PCAP_DUMP_DELAY_MS <? PcapDump.last_dump_ms d) && (PcapDump.last_dump_ms d <=? now))
  | None => false
  end.
Definition keys_wait (od : option PcapDump.pcap_dumper) : bool :=
  match od with Some d => PcapDump.PCAP_BUFFER_ALMOST_FULL_SIZE <? PcapDump.keylog_idx d | None => false end.
Definition waiting (pd : pcapdroid) : nat :=
  (Nat.b2n (stats_wait pd) + Nat.b2n (conns_wait pd) + Nat.b2n (buffer_wait (now_ms pd) (dumper pd)) + Nat.b2n (keys_wait (dumper pd)))%nat.
Lemma waiting_four pd : (waiting pd <= 4)%nat.
Proof. unfold waiting. destruct (stats_wait pd), (conns_wait pd), (buffer_wait _ _), (keys_wait _); cbn; lia. Qed.

Definition window (pd : pcapdroid) : Prop :=
  0 <= now_ms pd /\ T - CAPTURE_STATS_UPDATE_FREQUENCY_MS < now_ms pd <= T /\ T + 3000 < 2 ^ 64.

Lemma b2n_le (a b : bool) : (b = false -> a = false) -> (Nat.b2n a <= Nat.b2n b)%nat.
Proof. destruct a, b; cbn; lia. Qed.

(** Nothing comes back in the window. *)
Lemma quiet_waiting pd pd' n :
  quiet pd pd' -> window pd -> window (pd' <| now_ms := n |>) -> now_ms pd <= n -> (waiting (pd' <| now_ms := n |>) <= waiting pd)%nat.
Proof.
  intros [Hs Hb Hd] (Hn & Hw & HT) (_ & Hw' & _) Hle. cbn in Hw'. pose proof (f_equal fst Hs) as E0. injection E0 as E1 E2 E3 E4.
  assert (F1 : (Nat.b2n (stats_wait (pd' <| now_ms := n |>)) <= Nat.b2n (stats_wait pd))%nat).
  { apply b2n_le. unfold stats_wait. cbn. rewrite E2, E3. destruct (dump_capture_stats_now pd); cbn [orb]; lia. }
  assert (F2 : (Nat.b2n (conns_wait (pd' <| now_ms := n |>)) <= Nat.b2n (conns_wait pd))%nat).
  { apply b2n_le. unfold conns_wait. change (base (pd' <| now_ms := n |>)) with (base pd').
    unfold NETD_RESOLVE_DELAY_MS, CONNECTION_DUMP_UPDATE_FREQUENCY_MS, CAPTURE_STATS_UPDATE_FREQUENCY_MS in *. lia. }
  assert (F3 : (Nat.b2n (buffer_wait n (dumper pd')) <= Nat.b2n (buffer_wait (now_ms pd) (dumper pd)))%nat).
  { apply b2n_le. destruct (dumper pd') as [d'|] eqn:Ed'; [|done]. destruct (Hd d' eq_refl) as (d & -> & Hl & _). cbn.
    unfold PcapDump.MAX_PCAP_DUMP_DELAY_MS, CAPTURE_STATS_UPDATE_FREQUENCY_MS in *. lia. }
  assert (F4 : (Nat.b2n (keys_wait (dumper pd')) <= Nat.b2n (keys_wait (dumper pd)))%nat).
  { apply b2n_le. destruct (dumper pd') as [d'|] eqn:Ed'; [|done]. destruct (Hd d' eq_refl) as (d & -> & _ & [Hk|Hk]); cbn; rewrite Hk; [done|].
    intros _. by vm_compute. }
  unfold waiting. change (dumper (pd' <| now_ms := n |>)) with (dumper pd'). change (now_ms (pd' <| now_ms := n |>)) with n. lia.
Qed.

(** ** A turn *)

Section turns.
Context `{PdEnv} `{InetPton}.

(** A turn either does one of the things that wait, or leaves the malware lists to
    [malware_turn]. *)
Definition did_one (pd pd' : pcapdroid) : Prop :=
  reload pd' = reload pd /\ now_ms pd' = now_ms pd /\ (window pd -> (waiting pd' < waiting pd)%nat).
Lemma core_waits pd pd' :
  core pd' = core pd -> now_ms pd' = now_ms pd /\ base pd' = base pd /\ dumper pd' = dumper pd /\
    dump_capture_stats_now pd' = dump_capture_stats_now pd /\ last_update_ms (capture_stats pd') = last_update_ms (capture_stats pd).
Proof.
  intros E. pose proof (f_equal fst E) as E0. injection E0 as E1 E2 E3 E4 E5 E6 E7. unfold base. by rewrite E1, E2, E3, E4, E5, E6.
Qed.
Lemma core_waiting pd pd' : core pd' = core pd -> waiting pd' = waiting pd.
Proof.
  intros E. apply core_waits in E as (E1 & E2 & E3 & E4 & E5). unfold waiting, stats_wait, conns_wait. by rewrite E1, E2, E3, E4, E5.
Qed.
Lemma stats_due_waits pd : window pd -> stats_due pd = true -> stats_wait pd = true.
Proof.
  intros (Hn & Hw & HT). unfold stats_due, stats_wait. destruct (dump_capture_stats_now pd); [done|]. cbn [orb].
  intros [_ Hd]%andb_prop. apply negb_true_iff, not_true_iff_false. intros [H1 H2]%andb_prop.
  unfold CAPTURE_STATS_UPDATE_FREQUENCY_MS in *. rewrite uwrap_id in Hd by (unfold u_ok; lia). lia.
Qed.
Lemma stats_turn z pd : stats_due pd = true -> wlp (send_stats z) (fun _ => did_one pd) pd.
Proof.
  intros Hd. unfold send_stats. wl.
  all: eapply wlp_mono; [apply (wlp_leaves core), lv_stats|]; intros [] pd1 E; wl;
    pose proof (core_reload _ _ E) as Er; apply core_waits in E as (E1 & E2 & E3 & E4 & E5).
  all: split; [exact Er|split; [exact E1|]]; intros Hw; pose proof (stats_due_waits _ Hw Hd) as Hs.
  all: match goal with |- (waiting ?x < _)%nat => set (pd2 := x) end.
  all: assert (F : stats_wait pd2 = false) by (destruct Hw as (? & ? & ?); unfold stats_wait, pd2; cbn; cbn in E1, E4; rewrite E4; cbn [orb]; lia).
  all: assert (F2 : conns_wait pd2 = conns_wait pd) by (unfold conns_wait; change (base pd2) with (base pd1); by rewrite E2).
  all: unfold waiting; rewrite F, F2, Hs; change (dumper pd2) with (dumper pd1); change (now_ms pd2) with (now_ms pd1);
    rewrite E1, E3; cbn; lia.
Qed.

Lemma conns_turn pd : next_connections_dump pd <= now_ms pd -> wlp connections_turn (fun _ => did_one pd) pd.
Proof.
  intros Hd. unfold connections_turn. wl.
  eapply wlp_mono; [apply (wlp_leaves core), lv_dump|]; intros [] pd1 E; wl.
  pose proof (core_reload _ _ E) as Er. apply core_waits in E as (E1 & E2 & E3 & E4 & E5).
  split; [exact Er|split; [exact E1|]]. intros (Hn & Hw & HT). match goal with |- (waiting ?x < _)%nat => set (pd2 := x) end.
  assert (F1 : stats_wait pd2 = stats_wait pd).
  { unfold stats_wait. change (dump_capture_stats_now pd2) with (dump_capture_stats_now pd1).
    change (capture_stats pd2) with (capture_stats pd1). change (now_ms pd2) with (now_ms pd1). by rewrite E1, E4, E5. }
  assert (F2 : conns_wait pd2 = false).
  { assert (Eb : base pd2 = now_ms pd + CONNECTION_DUMP_UPDATE_FREQUENCY_MS).
    { unfold base, pd2. cbn. rewrite E1. apply uwrap_id. unfold u_ok, CONNECTION_DUMP_UPDATE_FREQUENCY_MS. lia. }
    unfold conns_wait. rewrite Eb. unfold CONNECTION_DUMP_UPDATE_FREQUENCY_MS, CAPTURE_STATS_UPDATE_FREQUENCY_MS in *. lia. }
  assert (F3 : conns_wait pd = true).
  { unfold conns_wait. assert (base pd <= next_connections_dump pd); [|lia]. unfold base. destruct (_ <? _); unfold NETD_RESOLVE_DELAY_MS; lia. }
  unfold waiting. rewrite F1, F2, F3. change (dumper pd2) with (dumper pd1). change (now_ms pd2) with (now_ms pd1). rewrite E1, E3. cbn. lia.
Qed.

Lemma export_keylog_empties d : wlp PcapDump.export_keylog_buffer (fun _ d' => PcapDump.keylog_idx d' = 0 /\
  PcapDump.buffer_idx d' = PcapDump.buffer_idx d /\ PcapDump.now_ms d' = PcapDump.now_ms d) d.
Proof.
  unfold PcapDump.export_keylog_buffer, PcapDump.run_dump_cb. wl.
  destruct (PcapDump.keylog_idx d =? 0) eqn:E0; [wl; split_and!; [lia|done|done]|].
  destruct (PcapDump.exceeds d _); by wl.
Qed.
Lemma export_empties d : wlp PcapDump.export_buffer (fun _ d' => PcapDump.keylog_idx d' = 0 /\
  (0 < PcapDump.buffer_idx d -> PcapDump.last_dump_ms d' = PcapDump.now_ms d)) d.
Proof.
  unfold PcapDump.export_buffer, PcapDump.run_dump_cb. wl. eapply wlp_mono; [apply export_keylog_empties|].
  intros [] d' (Hk & Hb & Hn). wl. destruct (PcapDump.buffer_idx d' =? 0) eqn:E0; wl; (split; [done|]); intros; [lia|done..].
Qed.
(** Exporting, if it is due, leaves less to wait for. *)
Lemma export_turn now d :
  0 <= now -> T - CAPTURE_STATS_UPDATE_FREQUENCY_MS < now <= T -> T + 3000 < 2 ^ 64 ->
  let todo od := (Nat.b2n (buffer_wait now od) + Nat.b2n (keys_wait od))%nat in
  wlp PcapDump.pcap_check_export (fun b d' =>
    if b : bool then (todo (Some d') < todo (Some d))%nat else (todo (Some d') <= todo (Some d))%nat) (d <| PcapDump.now_ms := now |>).
Proof.
  intros Hn Hw HT todo. unfold PcapDump.pcap_check_export. wl.
  match goal with |- wlp (if ?b then _ else _) _ _ => change b with (export_due d now) end.
  destruct (export_due d now) eqn:E; wl; [|done].
  set (d0 := d <| PcapDump.now_ms := now |>). intros [] d' Ed. apply wlp_ret.
  destruct (export_empties d0 _ _ Ed) as [Hk Hl]. destruct (dumps_export now d0 eq_refl _ _ Ed) as (_ & Hl2 & _).
  change (PcapDump.now_ms d0) with now in Hl. change (PcapDump.last_dump_ms d0) with (PcapDump.last_dump_ms d) in Hl2.
  change (PcapDump.buffer_idx d0) with (PcapDump.buffer_idx d) in Hl.
  unfold todo, buffer_wait, keys_wait. rewrite Hk. change (PcapDump.PCAP_BUFFER_ALMOST_FULL_SIZE <? 0) with false.
  unfold export_due in E. unfold CAPTURE_STATS_UPDATE_FREQUENCY_MS, PcapDump.MAX_PCAP_DUMP_DELAY_MS in *.
  apply orb_prop in E as [[H1 H2]%andb_prop|E]; [|rewrite E].
  - rewrite Hl by lia. replace (negb ((T - 1000 <? now) && (now <=? now))) with false by lia.
    assert (negb ((T - 1000 <? PcapDump.last_dump_ms d) && (PcapDump.last_dump_ms d <=? now)) = true) as ->; [|cbn; lia].
    apply negb_true_iff, not_true_iff_false. intros [H3 H4]%andb_prop. rewrite uwrap_id in H2 by (unfold u_ok; lia). lia.
  - match goal with |- (Nat.b2n ?a + _ < Nat.b2n ?b + _)%nat => assert (Nat.b2n a <= Nat.b2n b)%nat; [|cbn; lia] end.
    apply b2n_le. destruct Hl2 as [-> | ->]; [done|lia].
Qed.

Lemma dumper_did pd d b d' :
  dumper pd = Some d -> PcapDump.pcap_check_export (d <| PcapDump.now_ms := now_ms pd |>) = Some (b, d') -> window pd ->
  let pd1 := pd <| dumper := Some d' |> in
  if b : bool then (waiting pd1 < waiting pd)%nat else (waiting pd1 <= waiting pd)%nat.
Proof.
  intros Ed E (Hn & Hw & HT) pd1. pose proof (export_turn _ _ Hn Hw HT b d' E) as Hx. cbv beta zeta in Hx.
  assert (waiting pd1 = (Nat.b2n (stats_wait pd) + Nat.b2n (conns_wait pd) + (Nat.b2n (buffer_wait (now_ms pd) (Some d')) + Nat.b2n (keys_wait (Some d'))))%nat) as ->.
  { unfold waiting. change (stats_wait pd1) with (stats_wait pd). change (conns_wait pd1) with (conns_wait pd).
    change (dumper pd1) with (Some d'). change (now_ms pd1) with (now_ms pd). lia. }
  unfold waiting. rewrite Ed. destruct b; lia.
Qed.
Lemma periodic_did z pd :
  md_enabled (malware_detection pd) = true ->
  wlp (periodic_turn z) (fun _ pd' => did_one pd pd' \/
    exists pd1, reload pd1 = reload pd /\ now_ms pd1 = now_ms pd /\ malware_turn pd1 = Some (tt, pd')) pd.
Proof.
  intros Hen. unfold periodic_turn. wl. destruct (stats_due pd) eqn:Es.
  { eapply wlp_mono; [by apply stats_turn|]. by left. }
  destruct (next_connections_dump pd <=? now_ms pd) eqn:En.
  { eapply wlp_mono; [apply conns_turn; lia|]. by left. }
  wl. unfold dumper_turn. wl. destruct (dumper pd) as [d|] eqn:Ed.
  - apply wlp_bind. wl. match goal with E : PcapDump.pcap_check_export _ = Some ?r |- _ =>
      destruct r as [b d']; pose proof (dumper_did pd d b d' Ed E) as Hd end. cbn [fst snd].
    destruct b; wl; [left; by split_and!|]. rewrite Hen. intros [] pd' Em. right. eexists. split; [|split; [|exact Em]]; done.
  - wl. rewrite Hen. intros [] pd' Em. right. by exists pd.
Qed.
End turns.
End deadline.

(** ** The stages of a reload *)

Section reload.
Context `{PdEnv} `{InetPton}.

Definition asked (pd : pcapdroid) : Prop :=
  md_enabled (malware_detection pd) = true /\ reload_in_progress (malware_detection pd) = false /\
  reload_blacklists_now pd = true.
(** The worker was started, and has not ended. *)
Definition loading (pd : pcapdroid) : Prop :=
  md_enabled (malware_detection pd) = true /\ reload_in_progress (malware_detection pd) = true /\
  reload_done (malware_detection pd) = false /\ reload_blacklists_now pd = false.
(** The name that is always on the malware list. *)
Definition test_domain : cstr := str "internetbadguys.com".
Definition has_test (obl : option blacklist) : Prop :=
  (forall n, a_mem (sys n) = true) -> exists bl, obl = Some bl /\ blacklist_match_domain bl test_domain = true.
(** The worker ended; with memory the new list has the test domain. *)
Definition finished (pd : pcapdroid) : Prop :=
  md_enabled (malware_detection pd) = true /\ reload_in_progress (malware_detection pd) = true /\
  reload_blacklists_now pd = false /\ reload_done (malware_detection pd) = true /\ has_test (md_new_bl (malware_detection pd)).
(** The reload is over. *)
Definition installed (pd : pcapdroid) : Prop :=
  md_enabled (malware_detection pd) = true /\ reload_in_progress (malware_detection pd) = false /\
  reload_blacklists_now pd = false /\ has_test (md_bl (malware_detection pd)).

Definition of_reload (P : pcapdroid -> Prop) : Prop := forall pd pd', reload pd' = reload pd -> P pd -> P pd'.
Lemma asked_reload : of_reload asked.
Proof. intros pd pd' [= E1 E2 E3 E4 E5 E6]. unfold asked. by rewrite E1, E2, E4. Qed.
Lemma loading_reload : of_reload loading.
Proof. intros pd pd' [= E1 E2 E3 E4 E5 E6]. unfold loading. by rewrite E1, E2, E3, E4. Qed.
Lemma finished_reload : of_reload finished.
Proof. intros pd pd' [= E1 E2 E3 E4 E5 E6]. unfold finished. by rewrite E1, E2, E3, E4, E6. Qed.
Lemma installed_reload : of_reload installed.
Proof. intros pd pd' [= E1 E2 E3 E4 E5 E6]. unfold installed. by rewrite E1, E2, E4, E5. Qed.

Definition becomes (P Q : pcapdroid -> Prop) : Prop := forall pd, P pd -> wlp malware_turn (fun _ => Q) pd.
Lemma asked_becomes : becomes asked loading.
Proof. intros pd (He & Hp & Hn). unfold malware_turn. wl. rewrite Hp, Hn. unfold set_malware. by wl. Qed.
Lemma loading_stays : becomes loading loading.
Proof. intros pd (He & Hp & Hd & Hn). unfold malware_turn. wl. rewrite Hp, Hd. by wl. Qed.
Lemma installed_stays : becomes installed installed.
Proof. intros pd (He & Hp & Hn & Hb). unfold malware_turn. wl. rewrite Hp, Hn. by wl. Qed.
Lemma finished_becomes : becomes finished installed.
Proof.
  intros pd (He & Hp & Hn & Hd & Hb). unfold malware_turn, use_new_blacklists, set_malware. wl. rewrite Hp, Hd. wl; [|done].
  match goal with |- wlp (match ?x with _ => _ end) _ _ => change x with (md_new_bl (malware_detection pd)) end.
  destruct (md_new_bl (malware_detection pd)) as [bl|].
  - wl. match goal with |- wlp (match ?x with _ => _ end) _ _ => destruct x end.
    + unfold emit. by wl.
    + unfold ask. wl. destruct (negb _); [by wl|by intros ? ?].
  - wl. split; [done|]. split; [done|]. split; [done|]. intros Hm. by destruct (Hb Hm) as (? & ? & _).
Qed.

Lemma malware_now pd pd' : malware_turn pd = Some (tt, pd') -> now_ms pd' = now_ms pd.
Proof.
  cut (wlp malware_turn (fun _ pd' => now_ms pd' = now_ms pd) pd); [intros Hw; apply Hw|].
  unfold malware_turn, use_new_blacklists, set_malware, emit, ask. wl; repeat first [case_match|progress wl]; done.
Qed.

(** What comes in between: a reload, the statistics or the secrets of a connection
    are not asked for. *)
Definition is_turn (o : run_op) : bool := match o with OpHousekeeping _ _ => true | _ => false end.
Definition undisturbed (o : run_op) : bool := quiet_op o || is_turn o.
Definition turns (ops : list run_op) : nat := length (List.filter is_turn ops).
(** The clock does not go back, and stays before the time [T]. *)
Fixpoint brief (T : Z) (ops : list run_op) (s : run_state) : bool :=
  match ops with
  | [] => true
  | o :: ops =>
      match step o s with
      | Some s' => (now_ms (r_pd s) <=? now_ms (r_pd s')) && (now_ms (r_pd s') <=? T) && brief T ops s'
      | None => false
      end
  end.

(** [n] more turns lead from [P] to [Q]. *)
Section stage.
Context (P Q : pcapdroid -> Prop) (HP : of_reload P) (HQ : of_reload Q) (HPQ : becomes P Q) (HQQ : becomes Q Q).
Context (HPe : forall pd, P pd -> md_enabled (malware_detection pd) = true).
Context (HQe : forall pd, Q pd -> md_enabled (malware_detection pd) = true).
Definition stage (T : Z) (n : nat) (pd : pcapdroid) : Prop := P pd /\ (waiting T pd < n)%nat \/ Q pd.

Lemma turn_after z l pd : Q pd -> wlp (pd_housekeeping z l) (fun _ => Q) pd.
Proof.
  intros HQp. unfold pd_housekeeping. apply wlp_bind. eapply wlp_mono; [by apply (periodic_did 0), HQe|]. intros [] pd1 Ht.
  assert (HQ1 : Q pd1).
  { destruct Ht as [(Er & _)|(pd2 & Er & _ & Em)]; [by eapply HQ|]. eapply HQQ; [|exact Em]. by eapply HQ. }
  intros [] pd' E. eapply HQ; [|exact HQ1]. by eapply core_reload, lv_lists.
Qed.
Lemma turn_stage T n z l pd :
  window T pd -> stage T n pd -> wlp (pd_housekeeping z l) (fun _ pd' => stage T (pred n) pd' /\ now_ms pd' = now_ms pd) pd.
Proof.
  intros Hw Hs. unfold pd_housekeeping. apply wlp_bind.
  eapply wlp_mono; [apply (periodic_did T); destruct Hs as [[Hs _]|Hs]; auto|]. intros [] pd1 Ht.
  assert (H1 : stage T (pred n) pd1 /\ now_ms pd1 = now_ms pd).
  { destruct Ht as [(Er & En & Hlt)|(pd2 & Er & En & Em)].
    - split; [|done]. specialize (Hlt Hw). destruct Hs as [[Hp Hn]|Hq]; [left; split; [by eapply HP|lia]|right; by eapply HQ].
    - split; [right|by rewrite <-En; eapply malware_now]. destruct Hs as [[Hp Hn]|Hq].
      + eapply HPQ; [|exact Em]. by eapply HP.
      + eapply HQQ; [|exact Em]. by eapply HQ. }
  destruct H1 as [Hs1 Hn1]. intros [] pd' E. apply lv_lists in E. pose proof (core_reload _ _ E) as Er. split.
  - destruct Hs1 as [[Hp Hl]|Hq]; [left|right; by eapply HQ]. split; [by eapply HP|]. by rewrite (core_waiting T _ _ E).
  - apply core_waits in E as [-> _]. done.
Qed.

Lemma moved_waiting T pd pd' :
  moved pd pd' -> window T pd -> now_ms pd <= now_ms pd' <= T -> (waiting T pd' <= waiting T pd)%nat.
Proof.
  intros (pd1 & n & H1 & H2) (Hn & Hw & HT) Hle. pose proof (slow_now _ _ (qt_slow _ _ H2)) as En. cbn in En.
  assert (Hw1 : window T (pd1 <| now_ms := n |>)) by (split; [|split]; cbn; lia).
  assert (Hw2 : window T (pd' <| now_ms := n |>)) by (split; [|split]; cbn; lia).
  pose proof (quiet_waiting T _ _ n H1 (conj Hn (conj Hw HT)) Hw1 ltac:(lia)) as L1.
  pose proof (quiet_waiting T _ _ n H2 Hw1 Hw2 ltac:(cbn; lia)) as L2.
  replace (pd' <| now_ms := n |>) with pd' in L2 by (rewrite <-En; by destruct pd'). lia.
Qed.
Lemma step_stage T o n s s' :
  undisturbed o = true -> window T (r_pd s) -> step o s = Some s' -> now_ms (r_pd s) <= now_ms (r_pd s') <= T ->
  stage T n (r_pd s) -> stage T (if is_turn o then pred n else n) (r_pd s').
Proof.
  intros Ho Hw E Hle Hs. destruct (is_turn o) eqn:Et.
  - destruct o; try done. cbn [step] in E. unfold only_pd, on_pd in E. destruct (pd_housekeeping _ _ _) as [[[] pd]|] eqn:E1; [|done].
    injection E as <-. by apply (turn_stage T n _ _ _ Hw Hs) in E1 as [? _].
  - unfold undisturbed in Ho. rewrite Et, orb_false_r in Ho. pose proof (step_moved _ _ _ Ho E) as Hm.
    pose proof (moved_reload _ _ Hm) as Er. destruct Hs as [[Hp Hn]|Hq]; [left|right; by eapply HQ].
    split; [by eapply HP|]. pose proof (moved_waiting T _ _ Hm Hw Hle). lia.
Qed.
Lemma run_stage T ops : forall n s s',
  forallb undisturbed ops = true -> window T (r_pd s) -> brief T ops s = true -> run_ops ops s = Some s' ->
  stage T n (r_pd s) -> stage T (n - turns ops) (r_pd s').
Proof.
  induction ops as [|o ops IH]; intros n s s' Hu Hw Hb E Hs; cbn [run_ops] in E.
  - injection E as <-. unfold turns. cbn. by rewrite Nat.sub_0_r.
  - apply andb_prop in Hu as [Ho Hu]. cbn [brief] in Hb. destruct (step o s) as [s1|] eqn:E1; [|done]. cbn [mbind option_bind] in E.
    apply andb_prop in Hb as [[H1 H2]%andb_prop Hb]. assert (Hw1 : window T (r_pd s1)) by (destruct Hw as (? & ? & ?); split; [|split]; lia).
    pose proof (step_stage T o n s s1 Ho Hw E1 ltac:(lia) Hs) as Hs1. specialize (IH _ _ _ Hu Hw1 Hb E Hs1).
    replace (n - turns (o :: ops))%nat with ((if is_turn o then pred n else n) - turns ops)%nat; [done|].
    unfold turns. cbn. destruct (is_turn o); cbn; lia.
Qed.
(** Once there, for as long as it takes. *)
Lemma run_after ops : forall s s',
  forallb undisturbed ops = true -> run_ops ops s = Some s' -> Q (r_pd s) -> Q (r_pd s').
Proof.
  induction ops as [|o ops IH]; intros s s' Hu E Hq; cbn [run_ops] in E; [by injection E as <-|].
  apply andb_prop in Hu as [Ho Hu]. destruct (step o s) as [s1|] eqn:E1; [|done]. cbn [mbind option_bind] in E.
  apply (IH s1 s' Hu E). destruct (is_turn o) eqn:Et.
  - destruct o; try done. cbn [step] in E1. unfold only_pd, on_pd in E1. destruct (pd_housekeeping _ _ _) as [[[] pd]|] eqn:E2; [|done].
    injection E1 as <-. by apply (turn_after _ _ _ Hq) in E2.
  - unfold undisturbed in Ho. rewrite Et, orb_false_r in Ho. eapply HQ; [|exact Hq]. by eapply moved_reload, step_moved.
Qed.
End stage.
(** ** The worker *)

Definition outcome (pd : pcapdroid) :=
  (md_enabled (malware_detection pd), reload_in_progress (malware_detection pd), reload_blacklists_now pd).
Lemma ow_ask {A} (g : answer -> A) : leaves outcome (ask g).
Proof. unfold ask. leaves. Qed.
Hint Resolve ow_ask : leaves.
Lemma ow_lists infos bl st : leaves outcome (load_lists infos bl st).
Proof. revert bl st. induction infos as [|i infos IH]; intros bl st; cbn [load_lists]; unfold file_mem, add_status; leaves. Qed.
Hint Resolve ow_lists : leaves.
Lemma ow_load : leaves outcome load_new_blacklists.
Proof. unfold load_new_blacklists, set_malware. leaves. Qed.

Lemma add_domain_test bl :
  wlp (blacklist_add_domain test_domain true true) (fun _ bl' => blacklist_match_domain bl' test_domain = true) bl.
Proof.
  unfold blacklist_add_domain, set_stats. wl. change (strip_www test_domain) with test_domain.
  destruct (blacklist_match_domain bl test_domain) eqn:E; [by wl|]. cbn [negb]. wl.
  unfold blacklist_match_domain. change (strip_www test_domain) with test_domain.
  match goal with |- context [HASH_FIND _ ?h] => change h with (HASH_ADD test_domain tt (domains bl)) end.
  by rewrite HASH_FIND_ADD_eq.
Qed.
Lemma add_ipstr_domains s bl : wlp (blacklist_add_ipstr s) (fun _ bl' => domains bl' = domains bl) bl.
Proof.
  unfold blacklist_add_ipstr, blacklist_add_ip, set_stats. destruct (ndpi_parse_ip_string s) as [v addr].
  destruct (negb _ && _); wl; [done|]. destruct (negb _); by wl.
Qed.

(** Its end is always told, and with memory the new list has the test domain. *)
Definition loaded (pd : pcapdroid) : Prop :=
  reload_done (malware_detection pd) = true /\ has_test (md_new_bl (malware_detection pd)).

Lemma wlp_ask {A} (g : answer -> A) (Q : A -> pcapdroid -> Prop) pd :
  (forall n pd', Q (g (sys n)) pd') -> wlp (ask g) Q pd.
Proof. intros HQ. unfold ask. wl. apply HQ. Qed.
Lemma load_loaded pd : wlp load_new_blacklists (fun _ => loaded) pd.
Proof.
  unfold load_new_blacklists, set_malware. wl. apply wlp_ask. intros n1 pd1.
  destruct (a_mem (sys n1)) eqn:E1; cbn [negb]; wl; [|split; [done|]; intros Hm; by rewrite Hm in E1].
  apply wlp_ask. intros n2 pd2. wl. apply wlp_ask. intros n3 pd3.
  destruct (blacklist_init _ _) as [bl|] eqn:E2; wl;
    [|split; [done|]; intros Hm; by rewrite !Hm in E2].
  intros [bl1 st] pd4 _. wl. apply wlp_ask. intros n4 pd5. wl. apply wlp_ask. intros n5 pd6. wl.
  split; [done|]. intros Hm. eexists. split; [done|].
  match goal with E3 : blacklist_add_domain _ _ _ _ = Some ?a, E4 : blacklist_add_ipstr _ _ = Some ?b |- _ =>
    destruct a as [rv3 bl3]; destruct b as [rv4 bl4]; rewrite !Hm in E3;
    pose proof (add_domain_test _ _ _ E3) as F3; pose proof (add_ipstr_domains _ _ _ _ E4) as F4 end.
  cbn [fst snd] in *. unfold blacklist_match_domain in *. by rewrite F4.
Qed.
Lemma worker_finishes s s' : loading (r_pd s) -> step OpWorker s = Some s' -> finished (r_pd s').
Proof.
  intros (He & Hp & Hd & Hn) E. cbn [step] in E. unfold only_pd, on_pd in E. destruct (worker (r_pd s)) as [[[] pd]|] eqn:E1; [|done].
  injection E as <-. cbn [r_pd]. unfold worker in E1. unfold mbind at 1, M_bind at 1, getS at 1 in E1. rewrite Hp, Hd in E1. cbn [andb negb whenM] in E1.
  destruct (load_loaded (r_pd s) _ _ E1) as [Hl Hb]. apply ow_load in E1. injection E1 as E2 E3 E4.
  split; [congruence|]. split; [congruence|]. split; [congruence|]. by split.
Qed.

Lemma run_ops_cat ops1 ops2 s : run_ops (ops1 ++ ops2) s = (s1 ← run_ops ops1 s; run_ops ops2 s1).
Proof.
  revert s. induction ops1 as [|o ops1 IH]; intros s; [done|]. cbn [app run_ops].
  destruct (step o s) as [s1|]; [|done]. cbn [mbind option_bind]. apply IH.
Qed.
Lemma run_ops_split ops1 ops2 s s' :
  run_ops (ops1 ++ ops2) s = Some s' -> exists s1, run_ops ops1 s = Some s1 /\ run_ops ops2 s1 = Some s'.
Proof. rewrite run_ops_cat. destruct (run_ops ops1 s) as [s1|]; [|done]. by exists s1. Qed.
(** Less than 300 ms pass. *)
Definition in_300ms (ops : list run_op) (s : run_state) : bool :=
  (0 <=? now_ms (r_pd s)) && (now_ms (r_pd s) + 3299 <? 2 ^ 64) && brief (now_ms (r_pd s) + 299) ops s.
Lemma in_300ms_window ops s :
  in_300ms ops s = true -> window (now_ms (r_pd s) + 299) (r_pd s) /\ brief (now_ms (r_pd s) + 299) ops s = true.
Proof.
  unfold in_300ms. intros [[H1 H2]%andb_prop H3]%andb_prop. split; [|done].
  split; [lia|]. unfold CAPTURE_STATS_UPDATE_FREQUENCY_MS. lia.
Qed.
(** Five turns are enough. *)
Lemma five_turns (P Q : pcapdroid -> Prop) ops s s' :
  of_reload P -> of_reload Q -> becomes P Q -> becomes Q Q ->
  (forall pd, P pd -> md_enabled (malware_detection pd) = true) -> (forall pd, Q pd -> md_enabled (malware_detection pd) = true) ->
  forallb undisturbed ops = true -> (5 <= turns ops)%nat -> in_300ms ops s = true ->
  P (r_pd s) -> run_ops ops s = Some s' -> Q (r_pd s').
Proof.
  intros HP HQ HPQ HQQ HPe HQe Hu Ht Hb Hp E. apply in_300ms_window in Hb as [Hw Hb].
  destruct (run_stage P Q HP HQ HPQ HQQ HPe HQe _ ops 5 s s' Hu Hw Hb E) as [[_ Hn]|Hq]; [|lia|done].
  left. split; [done|]. pose proof (waiting_four (now_ms (r_pd s) + 299) (r_pd s)). lia.
Qed.
End reload.

(** C12: a reload of the malware lists that the Java side asked for completes, with
    packets, closed connections and other calls of the Java side in between, in any
    order.  Five turns of the housekeeping within 300 ms, the clock refreshed between
    them, start the worker, whatever waits; it is then left to run for as long as it
    takes; and once it ended, five turns within 300 ms end the reload, and when memory
    can be allocated the lists in use are the new ones.  No reload is in progress when
    it is asked for, and nothing in between asks for another one, for the statistics,
    which go first, or brings the secrets of a connection. *)
Theorem reload_completes `{PdEnv} `{HI : InetPton} `{!InetPtonOk HI} ops1 ops2 ops3 s :
  env_ok -> run_inv false s -> asked (r_pd s) ->
  Forall op_ok (ops1 ++ ops2 ++ ops3) -> forallb undisturbed (ops1 ++ ops2 ++ ops3) = true ->
  (5 <= turns ops1)%nat -> (5 <= turns ops3)%nat -> in_300ms ops1 s = true ->
  (forall s2, run_ops (ops1 ++ ops2 ++ [OpWorker]) s = Some s2 -> in_300ms ops3 s2 = true) ->
  exists s1 s', run_ops ops1 s = Some s1 /\ loading (r_pd s1) /\
    run_ops (ops1 ++ ops2 ++ [OpWorker] ++ ops3) s = Some s' /\ installed (r_pd s').
Proof.
  intros He Hi Ha Hok Hu Ht1 Ht3 Hb1 Hb3. rewrite !Forall_app in Hok. destruct Hok as (Ho1 & Ho2 & Ho3).
  rewrite !forallb_app in Hu. apply andb_prop in Hu as [Hu1 [Hu2 Hu3]%andb_prop].
  destruct (run_ops_safe He false (ops1 ++ ops2 ++ [OpWorker] ++ ops3) s) as (s' & E & _);
    [done|done|rewrite !Forall_app; split_and!; try done; by repeat constructor|].
  destruct (run_ops_split _ _ _ _ E) as (s1 & E1 & E'). destruct (run_ops_split _ _ _ _ E') as (s2 & E2 & E'').
  destruct (run_ops_split [OpWorker] _ _ _ E'') as (s3 & E3 & E4).
  assert (Hl : loading (r_pd s1)).
  { eapply (five_turns asked loading ops1 s s1); try done.
    - apply asked_reload.
    - apply loading_reload.
    - apply asked_becomes.
    - apply loading_stays.
    - by intros pd [].
    - by intros pd []. }
  exists s1, s'. split; [done|]. split; [done|]. split; [done|].
  assert (Hl2 : loading (r_pd s2)).
  { eapply (run_after loading); [apply loading_reload|apply loading_stays|by intros pd []|exact Hu2|exact E2|exact Hl]. }
  cbn [run_ops] in E3. destruct (step OpWorker s2) as [s3'|] eqn:Ew; [|done]. injection E3 as ->.
  eapply (five_turns finished installed ops3 s3 s'); try done.
  - apply finished_reload.
  - apply installed_reload.
  - apply finished_becomes.
  - apply installed_stays.
  - by intros pd [].
  - by intros pd [].
  - apply Hb3. rewrite !run_ops_cat, E1. cbn [mbind option_bind]. rewrite run_ops_cat, E2. cbn [mbind option_bind run_ops]. by rewrite Ew.
  - by apply (worker_finishes s2).
Qed.
(** A capture with malware detection, asked by the Java side to reload. *)
#[local] Existing Instance inet_pton_v4.
#[local] Existing Instance inet_pton_v4_ok.
Lemma run_inv_asked t s :
  run_inv t s -> run_inv t (Run ((r_pd s) <| reload_blacklists_now := true |>) (r_open s) (r_lost s) None (r_ports s)).
Proof. intros Hs. apply run_inv_pd; [done|]. apply (pd_inv_same _ _ (r_pd s)); [by split|apply Hs]. Qed.
(** A clock that goes on by a millisecond with each question to the system. *)
Definition slow_env : PdEnv :=
  env_ex (fun n => Ans true true true true 5 [Z.of_nat n * 1000000] (NProto 7 0) (Flow (str "a.b") None None)).
Lemma slow_env_ok : @env_ok slow_env.
Proof.
  split; try done; cbn. intros n mem. destruct (n <? 0) eqn:E; [done|]. intros [= <-]. rewrite length_replicate. apply Z.ltb_ge in E.
  split; [by apply Z2Nat.id|]. by apply Forall_replicate.
Defined.
Lemma slow_start_mem : @start_mem slow_env _ config_ex prefs_ex.
Proof. done. Defined.
Definition asked_run (s : run_state) : run_state :=
  Run ((r_pd s) <| reload_blacklists_now := true |>) (r_open s) (r_lost s) None (r_ports s).
(** Packets of a new connection between the turns. *)
Definition turns_ex : list run_op :=
  [OpOpen udp_ex; hk; OpRefresh; OpReply 0 pkt_ex; hk; OpRefresh; hk; OpRefresh; OpReply 0 pkt_ex; hk; OpRefresh; hk].
Abbreviation started := (@capture_start slow_env inet_pton_v4 config_ex prefs_ex vpn_ex).
Lemma turns_ex_checks :
  match started with
  | Some (ok, s) => ok && md_enabled (malware_detection (r_pd s)) && negb (reload_in_progress (malware_detection (r_pd s)))
      && @in_300ms slow_env _ turns_ex (asked_run s)
      && match @run_ops slow_env _ (turns_ex ++ [OpRefresh; hk] ++ [OpWorker]) (asked_run s) with
         | Some s2 => @in_300ms slow_env _ turns_ex s2 | None => false end
  | None => false
  end = true.
Proof. vm_compute. reflexivity. Qed.
Lemma turns_ex_ok : Forall op_ok (turns_ex ++ [OpRefresh; hk] ++ turns_ex).
Proof. repeat constructor; try done; try apply udp_ex_ok; try apply pkt_ex_fine. Qed.
Lemma reload_completes_witness :
  exists s s1 s', started = Some (true, s) /\
    @run_ops slow_env _ turns_ex (asked_run s) = Some s1 /\ loading (r_pd s1) /\
    @run_ops slow_env _ (turns_ex ++ [OpRefresh; hk] ++ [OpWorker] ++ turns_ex) (asked_run s) = Some s' /\
    @installed slow_env (r_pd s').
Proof.
  pose proof turns_ex_checks as F. destruct started as [[ok s]|] eqn:E; [|discriminate F].
  apply andb_prop in F as [F F5]. apply andb_prop in F as [F F4]. apply andb_prop in F as [F F3]. apply andb_prop in F as [F1 F2].
  apply negb_true_iff in F3. subst ok. exists s.
  destruct (@PdCapture.capture_start_ok slow_env _ _ slow_env_ok config_ex prefs_ex vpn_ex slow_start_mem) as (ok & s0 & E1 & Hs).
  pose proof (eq_trans (eq_sym E1) E) as E2. injection E2 as -> ->.
  destruct (@reload_completes slow_env _ _ turns_ex [OpRefresh; hk] turns_ex (asked_run s) slow_env_ok
    (run_inv_asked false s (Hs false)) (conj F2 (conj F3 eq_refl)) turns_ex_ok eq_refl ltac:(vm_compute; lia) ltac:(vm_compute; lia) F4)
    as (s1 & s' & H1 & H2 & H3 & H4).
  - intros s2 Er. rewrite Er in F5. exact F5.
  - exists s1, s'. split; [exact eq_refl|]. split; [exact H1|]. split; [exact H2|]. split; [exact H3|exact H4].
Defined.
End PdReload.
