(* ===== verification/PdBlock.v ===== *)
(** * Which connections are blocked (core/pcapdroid.c)

    [pd_new_connection] fills [to_block] along a sequence of tests spread over
    four functions, each skipping what an earlier one decided; a change of the
    firewall lists decides again in [check_blocked_conn_cb].  The specification
    is one boolean formula of the lists; both compute it. *)

From S2P Require Import Prelude CString UtHash Lru ZdtunTypes PdTypes PdCheck PdNotify PdConn PdFrame PdOwn PdLife PdRuns PdCapture PdQuiet PdReload.

Module PdBlock.
Import PdLife PdRuns PdQuiet PdReload IpLru.

(** ** The specification *)

Section spec.
Context (md : malware_t) (fw : firewall_t) (tuple : zdtun_5tuple) (host : option cstr) (u : Z).

(** The three ways an entry of a list matches; a NULL list matches nothing. *)
Definition lists_ip (bl : option blacklist) : bool :=
  match bl with
  | Some bl => default false (blacklist_match_ip bl (dst_ip tuple) (ipver tuple))
  | None => false
  end.
Definition lists_host (bl : option blacklist) : bool :=
  match host with
  | Some ((_ :: _) as d) => in_list bl (fun bl => blacklist_match_domain bl d)
  | _ => false
  end.
Definition lists_app (bl : option blacklist) : bool := in_list bl (fun bl => blacklist_match_uid bl u).

(** The malware lists, with the exceptions of the user. *)
Definition malicious (by_list : option blacklist -> bool) : bool :=
  by_list (md_bl md) && negb (lists_app (md_whitelist md)) && negb (by_list (md_whitelist md)).
Definition firewall_denies : bool :=
  fw_enabled fw && (lists_ip (fw_bl fw) || lists_host (fw_bl fw) || lists_app (fw_bl fw)).
(** DNS requests the system makes for other applications are let through. *)
Definition system_dns : bool :=
  is_dns tuple && ((u =? UID_NETD) || (u =? UID_PHONE) || (u =? UID_UNKNOWN)).
Definition whitelist_denies : bool :=
  fw_enabled fw && wl_enabled fw && bool_decide (is_Some (fw_wl fw)) && negb system_dns
  && negb (lists_app (fw_wl fw)).
Definition user_denies : bool := firewall_denies || whitelist_denies.
Definition blocked : bool := malicious lists_host || malicious lists_ip || user_denies.
End spec.

(** What the decision reads and writes in a connection. *)
Record verdict := Verdict {
    v_open : bool; v_uid : Z; v_info : option cstr; v_white : bool; v_internal : bool; v_ip : bool; v_domain : bool;
    v_block : bool }.
#[export] Instance eta_verdict : Eta verdict := fun v =>
  Verdict (v_open v) (v_uid v) (v_info v) (v_white v) (v_internal v) (v_ip v) (v_domain v) (v_block v).
Definition verdict_of (c : pd_conn) : verdict :=
  Verdict (negb (is_closed (pd_status c))) (uid c) (info c) (whitelisted_app c) (blacklisted_internal c) (blacklisted_ip c)
    (blacklisted_domain c) (to_block c).

(** The verdict of a new connection. *)
Definition judge (md : malware_t) (fw : firewall_t) (tuple : zdtun_5tuple) (host : option cstr) (u : Z) : verdict :=
  Verdict true u host (lists_app u (md_whitelist md)) false
    (malicious md u (lists_ip tuple)) (malicious md u (lists_host host))
    (blocked md fw tuple host u).

(** ** Following one connection *)

Section ops.
Context `{PdEnv} (tuple : zdtun_5tuple) (p : Z).

Definition at_ (md : malware_t) (fw : firewall_t) (v : verdict) (pd : pcapdroid) : Prop :=
  malware_detection pd = md /\ firewall pd = fw /\ verdict_of <$> conns pd !! p = Some v.

Section at_.
Context (md : malware_t) (fw : firewall_t).
Definition stays {A} (m : M pcapdroid A) : Prop :=
  forall v pd, at_ md fw v pd -> wlp m (fun _ => at_ md fw v) pd.

Lemma stays_ret {A} (a : A) : stays (mret a).
Proof. intros v pd Hv. by apply wlp_ret. Qed.
Lemma stays_lift {A} (o : option A) : stays (liftO o).
Proof. intros v pd Hv. by apply wlp_lift. Qed.
Lemma stays_modify g :
  (forall pd, malware_detection (g pd) = malware_detection pd /\ firewall (g pd) = firewall pd /\
     conns (g pd) = conns pd) -> stays (modifyS g).
Proof.
  intros Hg v pd (Hm & Hf & Hc). apply wlp_modify. destruct (Hg pd) as (E1 & E2 & E3).
  split_and!; congruence.
Qed.
Lemma stays_bind {A B} (m : M pcapdroid A) (k : A -> M pcapdroid B) :
  stays m -> (forall a, stays (k a)) -> stays (m ≫= k).
Proof.
  intros Hm Hk v pd Hv. apply wlp_bind. eapply wlp_mono; [by apply Hm|]. intros a pd' Hv'. by apply Hk.
Qed.
Lemma stays_get {B} (k : pcapdroid -> M pcapdroid B) : (forall pd, stays (k pd)) -> stays (getS ≫= k).
Proof. intros Hk v pd Hv. apply wlp_bind, wlp_get. by apply Hk. Qed.
Lemma stays_when b (m : M pcapdroid unit) : stays m -> stays (whenM b m).
Proof. destruct b; [done|]. intros _. apply stays_ret. Qed.
Lemma stays_for {A} (l : list A) (k : A -> M pcapdroid unit) : (forall a, stays (k a)) -> stays (forM l k).
Proof. intros Hk. induction l as [|a l IH]; [apply stays_ret|]. by apply stays_bind. Qed.
Lemma stays_conn q : stays (conn q).
Proof. unfold conn. apply stays_get. intros. apply stays_lift. Qed.
Lemma stays_set q f : (forall c, verdict_of (f c) = verdict_of c) -> stays (set_conn q f).
Proof.
  intros Hf v pd (Hm & Hfw & Hc). unfold set_conn, conn. wl. split_and!; [done..|]. cbn.
  match goal with E : conns pd !! q = Some ?c |- _ => rename E into Eq end.
  destruct (decide (q = p)) as [->|Hne].
  - rewrite lookup_insert_eq. rewrite Eq in Hc. cbn in *. by rewrite Hf.
  - by rewrite lookup_insert_ne.
Qed.
Lemma stays_ask {A} (f : answer -> A) : stays (ask f).
Proof. unfold ask. apply stays_get. intros. apply stays_bind; [by apply stays_modify|]. intros. apply stays_ret. Qed.
End at_.

End ops.

Create HintDb stays.
(** A program that does not change the verdict of [p]. *)
Ltac stays_step :=
  lazymatch goal with
  | |- stays _ _ _ (let _ := _ in _) => cbv zeta
  | |- stays _ _ _ (mbind _ getS) => apply stays_get; intros ?
  | |- stays _ _ _ (mbind _ _) => apply stays_bind; [|intros ?]
  | |- stays _ _ _ (mret _) => apply stays_ret
  | |- stays _ _ _ (liftO _) => apply stays_lift
  | |- stays _ _ _ (modifyS (put_arr ?a _)) => apply stays_modify; intros ?; by destruct a
  | |- stays _ _ _ (modifyS _) => apply stays_modify; done
  | |- stays _ _ _ (whenM _ _) => apply stays_when
  | |- stays _ _ _ (forM _ _) => apply stays_for; intros ?
  | |- stays _ _ _ (conn _) => apply stays_conn
  | |- stays _ _ _ (ask _) => apply stays_ask
  | |- stays _ _ _ (set_conn _ _) => apply stays_set; intros ?; try done; by repeat case_match
  | |- stays _ _ _ (match ?x with _ => _ end) => destruct x
  end.
Ltac stays := repeat first [solve [eauto 2 with stays] | stays_step].

(** What an assignment makes of the verdict. *)
Ltac by_fields :=
  let c := fresh in let Hc := fresh in intros c Hc; unfold verdict_of in Hc |- *; cbn; injection Hc; intros; f_equal; first [assumption | congruence].

Section steps.
Context `{PdEnv} (tuple : zdtun_5tuple) (p : Z) (md : malware_t) (fw : firewall_t).
Notation stays := (stays p md fw).
Notation at_ := (at_ p md fw).

Lemma stays_appname u : stays (get_appname_by_uid u).
Proof. unfold get_appname_by_uid. stays. Qed.
Lemma stays_resolved : stays netd_resolved.
Proof. unfold netd_resolved. stays. Qed.
Hint Resolve stays_appname stays_resolved : stays.

Lemma lv_names u : leaves ip_to_host (get_appname_by_uid u).
Proof. unfold get_appname_by_uid, ask. leaves. Qed.

(** ** One step of the decision *)

Lemma wlp_at_conn v (Q : pd_conn -> pcapdroid -> Prop) pd :
  at_ v pd -> (forall c, verdict_of c = v -> conns pd !! p = Some c -> Q c pd) -> wlp (conn p) Q pd.
Proof.
  intros (_ & _ & Hc) HQ. unfold conn. wl.
  match goal with E : conns pd !! p = Some ?c |- _ => rewrite E in Hc; cbn in Hc; injection Hc as Hc; by apply HQ end.
Qed.

Lemma wlp_at_set v v' f (Q : unit -> pcapdroid -> Prop) pd :
  at_ v pd -> (forall pd', at_ v' pd' -> Q tt pd') ->
  (forall c, verdict_of c = v -> verdict_of (f c) = v') -> wlp (set_conn p f) Q pd.
Proof.
  intros Hv HQ Hf. unfold set_conn. apply wlp_bind. eapply wlp_at_conn; [done|]. intros c Hc _. wl. apply HQ.
  destruct Hv as (? & ? & _). split_and!; [done..|]. cbn. rewrite lookup_insert_eq. cbn. by rewrite (Hf c Hc).
Qed.

Lemma wlp_ip_in_list bl (Q : bool -> pcapdroid -> Prop) pd :
  Q (lists_ip tuple bl) pd -> wlp (ip_in_list bl tuple) Q pd.
Proof.
  intros HQ. unfold ip_in_list, lists_ip in *. destruct bl as [bl|]; wl; [|done].
  match goal with E : blacklist_match_ip _ _ _ = Some ?b |- _ => by rewrite E in HQ end.
Qed.

Lemma wlp_stays {A} v (m : M pcapdroid A) (Q : A -> pcapdroid -> Prop) pd :
  stays m -> at_ v pd -> (forall a pd', at_ v pd' -> Q a pd') -> wlp m Q pd.
Proof. intros Hm Hv HQ. eapply wlp_mono; [by apply Hm|]. auto. Qed.

Lemma wlp_netd_resolve v s pd : at_ v pd -> wlp (netd_resolve p s) (fun _ => at_ v) pd.
Proof.
  intros Hv. unfold netd_resolve. apply wlp_bind, wlp_get. apply wlp_bind. eapply wlp_at_conn; [done|].
  intros d Hd Ed. apply wlp_bind. unfold conn at 1. wl; [|done].
  eapply (wlp_mono _ (fun _ => at_ v)).
  - unfold set_conn, conn. wl. destruct Hv as (? & ? & Hc). split_and!; [done..|]. cbn.
    destruct (decide (s_data s = p)) as [E|Hne]; [|by rewrite lookup_insert_ne].
    rewrite E in *. rewrite lookup_insert_eq. cbn. by simplify_eq.
  - intros [] pd1 Hv1. eapply wlp_stays; [|exact Hv1|done]. stays.
Qed.

Notation lists_ip := (lists_ip tuple).

Lemma wlp_ask_at {A} (f : answer -> A) (Q : A -> pcapdroid -> Prop) pd :
  Q (f (sys (calls pd))) (pd <| calls ::= S |>) -> wlp (ask f) Q pd.
Proof. intros HQ. unfold ask. by wl. Qed.

(** Reading the lists and the connection, at the start of each step. *)
Lemma wlp_start {B} v (k : pcapdroid -> pd_conn -> M pcapdroid B) (Q : B -> pcapdroid -> Prop) pd :
  at_ v pd ->
  (forall c, verdict_of c = v -> malware_detection pd = md -> firewall pd = fw -> wlp (k pd c) Q pd) ->
  wlp (pd ← getS; c ← conn p; k pd c) Q pd.
Proof.
  intros Hv HQ. apply wlp_bind, wlp_get. apply wlp_bind. eapply wlp_at_conn; [done|].
  intros c Hc _. destruct Hv as (? & ? & _). by apply HQ.
Qed.

Lemma in_list_some bl test : bool_decide (is_Some bl) && in_list bl test = in_list bl test.
Proof. by destruct bl. Qed.

(** The name: the malware lists, then the firewall. *)
Lemma wlp_check_domain u host ip pd :
  let w := lists_app u (md_whitelist md) in
  let d := malicious md u (lists_host host) in
  at_ (Verdict true u host w false ip false false) pd ->
  wlp (check_blacklisted_domain p)
    (fun _ => at_ (Verdict true u host w false ip d (d || (fw_enabled fw && lists_host host (fw_bl fw))))) pd.
Proof.
  intros w d Hv. unfold check_blacklisted_domain. eapply wlp_start; [done|].
  intros c Hc Hmd Hfw. injection Hc as _ Hu Hh Hw Hi Hip Hd Hb. cbv zeta. rewrite Hmd, Hfw, Hh.
  assert (Hnone : d = false /\ fw_enabled fw && lists_host host (fw_bl fw) = false ->
    wlp (mret tt) (fun _ => at_ (Verdict true u host w false ip d (d || fw_enabled fw && lists_host host (fw_bl fw)))) pd).
  { intros [-> ->]. by apply wlp_ret. }
  destruct host as [[|ch n]|]; [by apply Hnone; rewrite andb_false_r| |by apply Hnone; rewrite andb_false_r].
  clear Hnone. set (nm := ch :: n : cstr) in *.
  change (in_list (md_bl md) _) with (lists_host (Some nm) (md_bl md)).
  change (in_list (md_whitelist md) _) with (lists_host (Some nm) (md_whitelist md)).
  change (in_list (fw_bl fw) _) with (lists_host (Some nm) (fw_bl fw)).
  assert (Hbl : md_bl md = None -> lists_host (Some nm) (md_bl md) = false) by (by intros ->).
  assert (Hfb : fw_bl fw = None -> lists_host (Some nm) (fw_bl fw) = false) by (by intros ->).
  assert (Ed : d = lists_host (Some nm) (md_bl md) && negb w && negb (lists_host (Some nm) (md_whitelist md))) by done.
  clearbody d w nm. generalize dependent (lists_host (Some nm) (md_bl md)).
  generalize dependent (lists_host (Some nm) (md_whitelist md)).
  generalize dependent (lists_host (Some nm) (fw_bl fw)). intros inf Hfb inw inm Hbl ->.
  rewrite Hd, Hw. cbn [negb]. rewrite andb_true_r.
  apply wlp_bind, (wlp_mono _ (fun _ => at_ (Verdict true u (Some nm) w false ip (inm && negb w && negb inw) (inm && negb w && negb inw)))).
  - apply wlp_when; intros E.
    + apply andb_prop in E as [[_ ->]%andb_prop ->].
      eapply wlp_bind, wlp_stays; [apply stays_appname|exact Hv|]. intros _ pd1 Hv1.
      apply wlp_when; intros ->; [|exact Hv1].
      eapply wlp_at_set; [exact Hv1|done|by_fields].
    + replace (inm && negb w && negb inw) with false; [done|]. symmetry.
      destruct (md_bl md) eqn:Em; [|by rewrite Hbl]. cbn in E. rewrite andb_comm in E. by rewrite E.
  - clear Hv. intros [] pd1 Hv. apply wlp_bind. eapply wlp_at_conn; [done|]. intros c1 Hc1 _.
    assert (Hb1 : to_block c1 = inm && negb w && negb inw) by (by injection Hc1). rewrite Hb1.
    generalize dependent (inm && negb w && negb inw). intros d Hv Hc1 Hb1. apply wlp_when; intros E.
    + apply andb_prop in E as [[-> _]%andb_prop Ed]. apply negb_true_iff in Ed. clear Hb1 Hc1. subst d. cbn [orb andb] in *.
      apply wlp_bind.
      eapply (wlp_at_set _ (Verdict true u (Some nm) w false ip false inf)); [exact Hv| |by_fields].
      intros pd2 Hv2. apply wlp_when; intros ?. 2: done. eapply wlp_bind, wlp_stays; [apply stays_appname|exact Hv2|].
      intros _ pd3 Hv3. by apply wlp_ret.
    + replace (d || fw_enabled fw && inf) with d; [done|].
      destruct (fw_bl fw); [|rewrite Hfb by done]; destruct d, (fw_enabled fw); cbn in *; congruence.
Qed.

(** The name comes from the cache of host names. *)
Lemma wlp_resolve_host u pd :
  let w := lists_app u (md_whitelist md) in
  at_ (Verdict true u None w false false false false) pd ->
  wlp (resolve_host tuple p)
    (fun _ pd' => exists mem, let host := fst (ip_lru_find (ip_to_host pd) (dst_ip tuple) mem) in
       let d := malicious md u (lists_host host) in
       at_ (Verdict true u host w false false d (d || (fw_enabled fw && lists_host host (fw_bl fw)))) pd') pd.
Proof.
  intros w Hv. unfold resolve_host. apply wlp_bind, wlp_get. apply wlp_bind.
  unfold ask. wl. set (mem := a_mem _). destruct (ip_lru_find (ip_to_host pd) (dst_ip tuple) mem) as [host lru] eqn:E.
  wl. eapply (wlp_at_set _ (Verdict true u host w false false false false)); [exact Hv| |by_fields].
  clear Hv. intros pd1 Hv. apply (wlp_mono _ (fun _ => at_
    (let d := malicious md u (lists_host host) in
     Verdict true u host w false false d (d || (fw_enabled fw && lists_host host (fw_bl fw)))))).
  2:{ intros [] pd2 Hv2. exists mem. by rewrite E. }
  destruct host as [h|].
  2:{ apply wlp_ret. unfold malicious. cbn. by rewrite andb_false_r. }
  apply wlp_bind.
  eapply (wlp_at_set _ (Verdict true u (Some h) w false false false false)); [exact Hv| |by_fields].
  clear Hv. intros pd2 Hv.
  apply wlp_bind. eapply wlp_at_conn; [exact Hv|]. intros c _ _. apply wlp_bind.
  apply (wlp_mono _ (fun _ => at_ (Verdict true u (Some h) w false false false false))).
  - apply wlp_when; intros _; [|exact Hv]. wl. revert Hv.
    match goal with |- context [forM ?l _] => generalize l pd2 end.
    intros ss. induction ss as [|s ss IH]; intros pd3 Hv; cbn [forM]; [by apply wlp_ret|].
    eapply wlp_bind, wlp_mono; [by apply wlp_netd_resolve|]. intros [] pd4 Hv4. by apply IH.
  - intros [] pd3 Hv3. by apply wlp_check_domain.
Qed.

(** The addresses of the malware lists. *)
Lemma wlp_check_ip u host d b pd :
  let w := lists_app u (md_whitelist md) in
  at_ (Verdict true u host w false false d b) pd ->
  wlp (check_blacklisted_ip tuple p)
    (fun _ => at_ (Verdict true u host w false (malicious md u lists_ip) d (malicious md u lists_ip || b))) pd.
Proof.
  intros w Hv. unfold check_blacklisted_ip. eapply wlp_start; [done|].
  intros c Hc Hmd Hfw. injection Hc as _ Hu Hh Hw Hi Hip Hd Hb. cbv zeta. rewrite Hmd, Hw.
  unfold malicious. fold w. destruct (md_bl md) as [bl|] eqn:Ebl; [|by apply wlp_ret].
  apply wlp_bind, (wlp_mono _ (fun _ => at_ (Verdict true u host w false
    (lists_ip (Some bl) && negb w && negb (lists_ip (md_whitelist md))) d
    (lists_ip (Some bl) && negb w && negb (lists_ip (md_whitelist md)) || b)))).
  2:{ intros [] pd1 (? & ? & ?). wl. by split_and!. }
  apply wlp_when; intros Ew; [|by rewrite Ew, andb_false_r]. rewrite Ew, andb_true_r.
  apply wlp_bind, wlp_ip_in_list. apply wlp_when; intros Eb; rewrite Eb; [|done].
  eapply wlp_bind, wlp_stays; [apply stays_appname|exact Hv|]. intros _ pd1 Hv1.
  apply wlp_bind, wlp_ip_in_list. apply wlp_when; intros El; rewrite El; [|done].
  eapply wlp_at_set; [exact Hv1|done|by_fields].
Qed.

(** The firewall, by address and by application. *)
Lemma wlp_check_firewall u host w ip d b pd :
  at_ (Verdict true u host w false ip d b) pd ->
  wlp (check_firewall tuple p)
    (fun _ => at_ (Verdict true u host w false ip d
       (b || fw_enabled fw && (lists_ip (fw_bl fw) || lists_app u (fw_bl fw))))) pd.
Proof.
  intros Hv. unfold check_firewall. eapply wlp_start; [done|].
  intros c Hc Hmd Hfw. injection Hc as _ Hu Hh Hw Hi Hip Hd Hb. cbv zeta. rewrite Hfw, Hb.
  destruct (fw_bl fw) as [bl|] eqn:Ebl; [|apply wlp_ret; by rewrite andb_false_r, orb_false_r].
  apply wlp_when; intros E.
  2:{ destruct b; [done|]. rewrite andb_true_r in E. by rewrite E. }
  apply andb_prop in E as [Ef Eb]. apply negb_true_iff in Eb. clear Hb. subst b. rewrite Ef. cbn [orb andb].
  apply wlp_bind, wlp_ip_in_list, wlp_bind.
  eapply (wlp_at_set _ (Verdict true u host w false ip d (lists_ip (Some bl)))); [exact Hv| |by_fields].
  intros pd1 Hv1. apply wlp_bind.
  change (lists_app u (Some bl)) with (blacklist_match_uid bl u).
  eapply (wlp_mono _ (fun _ => at_ (Verdict true u host w false ip d (lists_ip (Some bl) || blacklist_match_uid bl u)))).
  2:{ intros [] pd2 (? & ? & ?). wl. by split_and!. }
  destruct (lists_ip (Some bl)).
  - eapply wlp_bind, wlp_stays; [apply stays_appname|exact Hv1|]. intros _ pd2 Hv2. by apply wlp_ret.
  - rewrite Hu. cbv zeta. apply wlp_bind.
    eapply (wlp_at_set _ (Verdict true u host w false ip d (blacklist_match_uid bl u))); [exact Hv1| |by_fields]. intros pd2 Hv2.
    apply wlp_when; intros _; [|done].
    eapply wlp_bind, wlp_stays; [apply stays_appname|exact Hv2|]. intros _ pd3 Hv3. by apply wlp_ret.
Qed.

(** The applications the whitelist mode lets through. *)
Lemma wlp_check_mode u host w i ip d b pd :
  at_ (Verdict true u host w i ip d b) pd ->
  wlp (check_whitelist_mode_block tuple p)
    (fun _ => at_ (Verdict true u host w i ip d (b || whitelist_denies fw tuple u))) pd.
Proof.
  intros Hv. unfold check_whitelist_mode_block. eapply wlp_start; [done|].
  intros c Hc Hmd Hfw. injection Hc as _ Hu Hh Hw Hi Hip Hd Hb. cbv zeta. rewrite Hfw, Hb, Hu.
  unfold whitelist_denies, system_dns. destruct (fw_wl fw) as [wl|] eqn:Ewl.
  2:{ apply wlp_ret. by rewrite bool_decide_eq_false_2, andb_false_r, !andb_false_l, orb_false_r by (by intros []). }
  rewrite bool_decide_eq_true_2 by (by eexists).
  change (lists_app u (Some wl)) with (blacklist_match_uid wl u).
  destruct (fw_enabled fw), (wl_enabled fw), b, (is_dns tuple), (u =? UID_NETD), (u =? UID_PHONE), (u =? UID_UNKNOWN);
    cbn [negb andb orb whenM]; try (by apply wlp_ret); (eapply wlp_at_set; [exact Hv|done|by_fields]).
Qed.

(** All of them. *)
Lemma wlp_init_connection u pd :
  at_ (Verdict true u None false false false false false) pd ->
  wlp (init_connection tuple p)
    (fun _ pd' => exists mem, at_ (judge md fw tuple
       (fst (ip_lru_find (ip_to_host pd) (dst_ip tuple) mem)) u) pd') pd.
Proof.
  intros Hv. unfold init_connection. eapply wlp_start; [done|].
  intros c Hc Hmd Hfw. injection Hc as _ Hu Hh Hw Hi Hip Hd Hb. cbv zeta. rewrite Hmd, Hu.
  apply wlp_bind, (wlp_mono _ (fun _ pd1 => ip_to_host pd1 = ip_to_host pd /\
    at_ (Verdict true u None (lists_app u (md_whitelist md)) false false false false) pd1)).
  - apply wlp_and.
    + apply (wlp_leaves ip_to_host). pose proof (lv_names u). unfold set_conn, conn. destruct (md_whitelist md); leaves.
    + destruct (md_whitelist md) as [wl|]; [|by apply wlp_ret].
      change (lists_app u (Some wl)) with (blacklist_match_uid wl u). cbv zeta.
      apply wlp_bind. eapply (wlp_at_set _ (Verdict true u None (blacklist_match_uid wl u) false false false false));
        [exact Hv| |by_fields].
      intros pd1 Hv1. apply wlp_when; intros _; [|done].
      eapply wlp_bind, wlp_stays; [apply stays_appname|exact Hv1|]. intros _ pd2 Hv2. by apply wlp_ret.
  - intros [] pd1 [Hl Hv1]. apply wlp_bind. eapply wlp_mono; [by apply wlp_resolve_host|].
    intros [] pd2 (mem & Hv2). apply wlp_bind. eapply wlp_mono; [by apply wlp_check_ip|].
    intros [] pd3 Hv3. apply wlp_bind. eapply wlp_mono; [by apply wlp_check_firewall|].
    intros [] pd4 Hv4. eapply wlp_mono; [by apply wlp_check_mode|]. intros [] pd5 Hv5.
    exists mem. rewrite Hl in Hv5. unfold judge, blocked, user_denies, firewall_denies. revert Hv5.
    match goal with |- at_ (Verdict _ _ _ _ _ _ _ ?a) _ -> at_ (Verdict _ _ _ _ _ _ _ ?b) _ =>
      replace a with b; [done|] end.
    generalize (malicious md u (lists_host (fst (ip_lru_find (ip_to_host pd) (dst_ip tuple) mem)))),
      (malicious md u lists_ip), (lists_ip (fw_bl fw)), (lists_app u (fw_bl fw)), (whitelist_denies fw tuple u),
      (lists_host (fst (ip_lru_find (ip_to_host pd) (dst_ip tuple) mem)) (fw_bl fw)).
    by intros [] [] [] [] [] []; destruct (fw_enabled fw).
Qed.

(** The notification of a connection that is open. *)
Lemma wlp_notif_open a v pd :
  at_ v pd -> v_open v = true ->
  wlp (notif_connection a tuple p) (fun _ pd' => at_ v pd' /\ ip_to_host pd' = ip_to_host pd) pd.
Proof.
  intros Hv Ho. unfold notif_connection. apply wlp_bind. eapply wlp_at_conn; [exact Hv|].
  intros c Hc _. assert (is_closed (pd_status c) = false) as ->.
  { rewrite <-Hc in Ho. by apply negb_true_iff in Ho. }
  cbn [whenM]. apply wlp_bind, wlp_ret. apply wlp_and.
  - eapply wlp_stays; [|exact Hv|done]. stays.
  - apply (wlp_leaves ip_to_host). unfold set_conn, conn, ask. leaves.
Qed.

(** It only fails when an array cannot grow. *)
Lemma wlp_notif_rv a c pd :
  (forall n, a_realloc (sys n) = true) -> conns pd !! p = Some c -> is_closed (pd_status c) = false ->
  wlp (notif_connection a tuple p) (fun rv _ => rv = 0) pd.
Proof.
  intros Hr Hc Ho. unfold notif_connection. apply wlp_bind. unfold conn at 1. apply wlp_bind, wlp_get, wlp_lift.
  intros c' Hc'. rewrite Hc in Hc'. injection Hc' as <-. rewrite Ho. cbn [whenM]. apply wlp_bind, wlp_ret.
  unfold conn, ask, set_conn. wl. destruct (pending_notification _); wl; [done|].
  destruct (_ <=? _); wl; rewrite ?Hr; cbn [negb]; unfold conn; by wl.
Qed.

(** ** New firewall lists *)

Definition recheck (v : verdict) : bool :=
  v_internal v || v_ip v || v_domain v || user_denies fw tuple (v_info v) (v_uid v).

Lemma wlp_recheck v pd :
  at_ v pd -> v_open v = true ->
  wlp (check_blocked_conn_cb tuple p) (fun _ => at_ (v <| v_block := recheck v |>)) pd.
Proof.
  intros Hv Ho. unfold check_blocked_conn_cb. eapply wlp_start; [done|].
  intros c Hc Hmd Hfw. destruct v as [o u host w i ip d b]. injection Hc as Hop Hu Hh Hw Hi Hip Hd Hb.
  cbv zeta. rewrite Hfw, Hi, Hip, Hd, Hb, Hu, Hh. cbn in Ho. subst o.
  set (k := i || ip || d).
  apply wlp_bind, (wlp_mono _ (fun b' pd1 => at_ (Verdict true u host w i ip d b) pd1 /\
    b' = k || firewall_denies fw tuple host u)).
  - unfold firewall_denies. destruct (fw_bl fw) as [bl|] eqn:Ebl.
    2:{ apply wlp_ret. split; [done|]. unfold lists_host. cbn. destruct host as [[]|]; cbn; by rewrite andb_false_r, orb_false_r. }
    destruct k, (fw_enabled fw); cbn [negb andb orb]; try by apply wlp_ret.
    change (lists_app u (Some bl)) with (blacklist_match_uid bl u).
    destruct (blacklist_match_uid bl u); [apply wlp_ret; by rewrite orb_true_r|].
    apply wlp_bind, wlp_ip_in_list. apply wlp_ret. split; [done|]. by rewrite orb_false_r.
  - intros b' pd1 [Hv1 ->]. apply wlp_bind.
    eapply (wlp_at_set _ (Verdict true u host w i ip d (k || firewall_denies fw tuple host u))); [exact Hv1| |by_fields].
    intros pd2 Hv2. apply wlp_bind. eapply wlp_mono; [by apply wlp_check_mode|]. intros [] pd3 Hv3.
    rewrite <-orb_assoc in Hv3. change (firewall_denies fw tuple host u || whitelist_denies fw tuple u) with
      (user_denies fw tuple host u) in Hv3.
    apply wlp_bind. eapply wlp_at_conn; [exact Hv3|]. intros c3 Hc3 _.
    apply wlp_when; intros _; [|exact Hv3]. apply wlp_bind.
    eapply wlp_mono.
    { eapply stays_set; [|exact Hv3]. intros ?. done. }
    intros [] pd4 Hv4. apply wlp_bind. eapply wlp_mono; [by apply wlp_notif_open|]. intros rv pd5 [Hv5 _].
    by apply wlp_ret.
Qed.
End steps.
#[export] Hint Resolve stays_appname stays_resolved : stays.

Section decisions.
Context `{PdEnv} (tuple : zdtun_5tuple).

(** Building a connection: what is made, and that it is made. *)
Lemma wlp_new_connection u pd :
  wlp (pd_new_connection tuple u) (fun r pd' =>
    match r with
    | None => ~ ((forall n, a_mem (sys n) = true) /\ (forall n, a_realloc (sys n) = true))
    | Some p => exists mem, at_ p (malware_detection pd) (firewall pd)
        (judge (malware_detection pd) (firewall pd) tuple
          (fst (ip_lru_find (ip_to_host pd) (dst_ip tuple) mem)) u) pd'
    end) pd.
Proof.
  unfold pd_new_connection. apply wlp_bind, wlp_ask_at.
  destruct (a_mem _) eqn:E1; cbn [negb]; [|apply wlp_ret; intros [Hm _]; by rewrite Hm in E1].
  clear E1. wl. set (p := next_conn _). set (pd1 := set_field conns _ _).
  assert (Hc1 : conns pd1 !! p = Some pd_conn_zero) by apply lookup_insert_eq.
  apply wlp_ask_at.
  destruct (a_mem _) eqn:E2; cbn [negb]; [|apply wlp_bind, wlp_any; intros ? ?; apply wlp_ret; intros [Hm _]; by rewrite Hm in E2].
  set (c2 := pd_conn_zero <| ndpi_flow_of := Some flow_zero |>).
  set (pd2 := pd1 <| calls ::= S |> <| conns ::= <[p := c2]> |>).
  assert (Hc2 : conns pd2 !! p = Some c2) by apply lookup_insert_eq.
  apply wlp_bind. unfold set_conn at 1. apply wlp_bind. unfold conn at 1. apply wlp_bind, wlp_get, wlp_lift.
  cbn. intros c E. rewrite lookup_insert_eq in E. injection E as <-. apply wlp_modify. fold pd2.
  apply wlp_bind. eapply (wlp_mono _ (fun rv pd' =>
    (at_ p (malware_detection pd) (firewall pd) (verdict_of c2) pd' /\ ip_to_host pd' = ip_to_host pd2) /\
    ((forall n, a_realloc (sys n) = true) -> rv = 0))).
  - apply wlp_and.
    + apply wlp_notif_open; [|done]. split_and!; [done|done|]. exact (f_equal (fmap verdict_of) Hc2).
    + intros rv pd3 E Hr. by apply (wlp_notif_rv tuple p NEW_CONNS c2 pd2 Hr Hc2 eq_refl rv pd3).
  - intros rv pd3 [[Hv Hl] Hr]. destruct (Z.ltb_spec rv 0) as [Hlt|_].
    { apply wlp_bind, wlp_any. intros ? ?. apply wlp_ret. intros [_ Hm]. specialize (Hr Hm). lia. }
    apply wlp_bind, wlp_get, wlp_bind. eapply (wlp_mono _ (fun _ pd4 =>
      at_ p (malware_detection pd) (firewall pd) (Verdict true u None false false false false false) pd4 /\
      ip_to_host pd4 = ip_to_host pd3)); [apply wlp_and|].
    { eapply (wlp_at_set p _ _ _ (Verdict true u None false false false false false)); [exact Hv| |by_fields].
      intros pd4 Hv4. exact Hv4. }
    { apply (wlp_leaves ip_to_host). unfold set_conn, conn. leaves. }
    intros [] pd4 [Hv4 Hl4]. wl. eapply wlp_mono; [by apply wlp_init_connection|].
    intros [] pd5 (mem & Hv5). apply wlp_ret. exists mem. rewrite Hl4 in Hv5. cbn in Hv5. by rewrite Hl in Hv5.
Qed.
End decisions.

(** ** The properties *)

Section properties.
Context `{PdEnv} `{HI : InetPton} `{HIok : !InetPtonOk HI} (Henv : env_ok).

Lemma recheck_judge md fw tuple host u :
  recheck tuple fw (judge md fw tuple host u) = v_block (judge md fw tuple host u).
Proof.
  unfold recheck, judge, blocked. cbn.
  by destruct (malicious _ _ (lists_ip _)), (malicious _ _ (lists_host _)), (user_denies _ _ _ _).
Qed.

(** C13: In any state a run reaches, a new connection to an address with a cached
    host name gets the verdict of the specification: it is blocked exactly when
    its host or its address is in the malware lists, without an exception of the
    user for the application, the host or the address, or the firewall lists
    its application, its host or its address, or the whitelist mode is on and
    does not list the application, system DNS apart.  Only a failed allocation
    leaves it unmade. *)
Theorem new_connection_judged t s tuple u :
  run_inv t s -> ip_ok (dst_ip tuple) ->
  let pd := r_pd s in
  exists r pd', pd_new_connection tuple u pd = Some (r, pd') /\
    ((forall n, a_mem (sys n) = true) -> is_Some r) /\
    forall p, r = Some p -> exists c mem,
      let host := fst (ip_lru_find (ip_to_host pd) (dst_ip tuple) mem) in
      conns pd' !! p = Some c /\
      verdict_of c = judge (malware_detection pd) (firewall pd) tuple host u.
Proof.
  intros Hs Ht pd.
  destruct (wp_new_connection tuple Ht (en_proto Henv) (en_strdup Henv) (en_realloc Henv) t (live_set s) u
    (fun _ _ => True) pd) as (r & pd' & E & _); [apply Hs|by intros ?|done|done|].
  exists r, pd'. split; [done|]. pose proof (wlp_new_connection tuple u pd r pd' E) as Hw. split.
  - intros Hm. destruct r; [by eexists|]. destruct Hw. split; [done|apply (en_realloc Henv)].
  - intros p ->. destruct Hw as (mem & _ & _ & Hv). destruct (conns pd' !! p) as [c|] eqn:Ec; [|done].
    exists c, mem. split; [done|]. by apply (inj Some) in Hv.
Qed.

(** C14: When a firewall list, the whitelist or one of their switches changes, the
    callback on each open connection leaves it blocked exactly when it is blocked
    by a malware list or by the capture itself, or the new lists deny it; on a
    connection just made, under the lists it was made with, the decision is the
    same as at its creation: looking again does not change it. *)
Theorem recheck_decides t s tuple p c :
  run_inv t s -> (tuple, p) ∈ r_open s -> conns (r_pd s) !! p = Some c -> is_closed (pd_status c) = false ->
  exists pd' c', check_blocked_conn_cb tuple p (r_pd s) = Some (tt, pd') /\ conns pd' !! p = Some c' /\
    to_block c' = blacklisted_internal c || blacklisted_ip c || blacklisted_domain c
                  || user_denies (firewall (r_pd s)) tuple (info c) (uid c) /\
    forall md host u, verdict_of c = judge md (firewall (r_pd s)) tuple host u -> verdict_of c' = verdict_of c.
Proof.
  intros Hs Hin Hc Ho. pose proof (ri_open _ _ Hs) as Hop. rewrite Forall_forall in Hop.
  destruct (Hop (tuple, p)) as (_ & Ht & _); [apply elem_of_app; by left|]. cbn in Ht.
  destruct (safe_blocked_cb tuple Ht (en_proto Henv) (en_strdup Henv) (en_realloc Henv) t (live_set s) p)
    with (pd := r_pd s) as ([] & pd' & E & _).
  { apply elem_of_list_to_set. apply (list_elem_of_fmap_2 snd _ (tuple, p)), elem_of_app. by left. }
  { apply Hs. }
  destruct (wlp_recheck tuple p (malware_detection (r_pd s)) (firewall (r_pd s)) (verdict_of c) (r_pd s)) with (a := tt) (s' := pd')
    as (_ & _ & Hv); [split_and!; [done|done|]; exact (f_equal (fmap verdict_of) Hc)|by cbn; rewrite Ho|done|].
  destruct (conns pd' !! p) as [c'|] eqn:Ec; [|done]. exists pd', c'. split; [done|]. split; [done|].
  apply (inj Some) in Hv. split.
  - exact (f_equal v_block Hv).
  - intros md host u Hj. rewrite Hj in *. rewrite Hv.
    by rewrite recheck_judge.
Qed.
End properties.

(** ** Concrete runs *)

#[local] Existing Instance inet_pton_v4.
#[local] Existing Instance inet_pton_v4_ok.
Import PdCapture.

(** A connection, then the application 32 is put in the firewall list. *)
Definition block_ops : list run_op :=
  [OpOpen udp_ex; OpJava (JFirewallEnabled true); OpJava (JBlocklist (ListDescr [Some (str "32")] [] [])); hk].
Definition calm_run (ops : list run_op) : option run_state :=
  match @capture_start calm _ config_ex prefs_ex vpn_ex with
  | Some (true, s) => @run_ops calm _ ops s
  | _ => None
  end.
Lemma calm_run_inv ops s : Forall op_ok ops -> calm_run ops = Some s -> @run_inv false s.
Proof.
  intros Hops. unfold calm_run.
  destruct (PdCapture.capture_start_ok (env_ex_ok (fun _ => true)) config_ex prefs_ex vpn_ex
    (start_mem_ex (fun _ => true))) as (ok & s0 & E0 & Hs0).
  change (env_ex (fun n => ans_ex true true n)) with calm in E0. rewrite E0.
  destruct ok; [|discriminate]. intros E.
  destruct (PdRuns.run_ops_safe (env_ex_ok (fun _ => true)) false ops s0 (fun H => match diff_false_true H with end)
    (Hs0 false) Hops) as (s1 & E1 & Hs1).
  pose proof (eq_trans (eq_sym E1) E) as E3. injection E3 as ->. exact Hs1.
Defined.
Lemma block_ops_ok : Forall op_ok block_ops.
Proof. repeat constructor; try done; apply udp_ex_ok. Defined.

Lemma new_connection_judged_witness :
  exists s, calm_run block_ops = Some s /\
    exists r pd', @pd_new_connection calm udp_ex 32 (r_pd s) = Some (r, pd') /\
      ((forall n, a_mem (@sys calm n) = true) -> is_Some r) /\
      forall p, r = Some p -> exists c mem,
        let host := fst (ip_lru_find (ip_to_host (r_pd s)) (dst_ip udp_ex) mem) in
        conns pd' !! p = Some c /\
        verdict_of c = judge (malware_detection (r_pd s)) (firewall (r_pd s)) udp_ex host 32.
Proof.
  assert (F : match calm_run block_ops with Some s => true | None => false end = true) by (by vm_compute).
  destruct (calm_run block_ops) as [s|] eqn:E; [|discriminate F]. exists s. split; [reflexivity|].
  exact (@new_connection_judged calm (env_ex_ok (fun _ => true)) false s udp_ex 32
    (calm_run_inv block_ops s block_ops_ok E) (proj1 (proj2 udp_ex_ok))).
Defined.

Lemma recheck_decides_witness :
  exists s c pd' c', calm_run block_ops = Some s /\ conns (r_pd s) !! 1 = Some c /\
    @check_blocked_conn_cb calm udp_ex 1 (r_pd s) = Some (tt, pd') /\ conns pd' !! 1 = Some c' /\
    to_block c' = blacklisted_internal c || blacklisted_ip c || blacklisted_domain c
                  || user_denies (firewall (r_pd s)) udp_ex (info c) (uid c) /\
    forall md host u, verdict_of c = judge md (firewall (r_pd s)) udp_ex host u -> verdict_of c' = verdict_of c.
Proof.
  assert (F : match calm_run block_ops with
    | Some s => match conns (r_pd s) !! 1 with
                | Some c => bool_decide ((udp_ex, 1) ∈ r_open s) && negb (is_closed (pd_status c))
                | None => false end
    | None => false end = true) by (by vm_compute).
  destruct (calm_run block_ops) as [s|] eqn:E; [|discriminate F].
  destruct (conns (r_pd s) !! 1) as [c|] eqn:Ec; [|discriminate F].
  apply andb_prop in F as [Fin Fst]. apply bool_decide_eq_true_1 in Fin. apply negb_true_iff in Fst.
  destruct (@recheck_decides calm (env_ex_ok (fun _ => true)) false s udp_ex 1 c
    (calm_run_inv block_ops s block_ops_ok E) Fin Ec Fst) as (pd' & c' & H').
  exact (ex_intro _ s (ex_intro _ c (ex_intro _ pd' (ex_intro _ c' (conj eq_refl (conj Ec H')))))).
Defined.
End PdBlock.
