(* ===== verification/PdRetire.v ===== *)
(** * Connections the capture loop frees itself

    The loop of capture_libpcap.c marks a connection for deletion before it
    announces its end: between the two the connection is neither in use nor
    waiting.  [retiring] describes that state, and the announcement leads back to
    the ownership invariant.  The set [told] grows when a connection has an
    update. *)

From S2P Require Import Prelude CString UtHash ZdtunTypes PcapSpec PcapSafe PdTypes PdCheck PdNotify PdConn PdProcess PdHouse PdFrame PdOwn PdLife PdSend PdSafe.

Module PdRetire.
Export PdSafe.

(** ** The set of the connections that have an update *)

Lemma named_told (T T' : Told) p c :
  (T' p -> T p \/ update_type c <> 0) -> @named T p c -> @named T' p c.
Proof.
  intros HT [H1 H2 H3]. split; [done..|]. intros Hp. destruct (HT Hp) as [Ht|Hu]; [by apply H3|done].
Qed.

Lemma inv_told (T T' : Told) t active pd :
  (forall p, T' p -> T p \/ busy p pd) -> @inv T t active pd -> @inv T' t active pd.
Proof.
  intros HT [Hl Hn Hd Ho]. split; [done| |done|done]. intros p c Hc. apply (named_told T T'); [|by apply Hn].
  intros Hp. destruct (HT p Hp) as [|Hb]; [by left|right]. by apply Hb.
Qed.

(** ** A connection marked for deletion *)

Section retire.
Context {T : Told}.

Record retiring (t : bool) (active : gset Z) (p : Z) (pd0 pd : pcapdroid) : Prop := {
    re_inv : inv t active pd0;
    re_active : p ∈ active;
    re_conn : exists c, conns pd0 !! p = Some c /\
      shape pd = shape (pd0 <| conns ::= <[p := c <| to_purge := true |>]> |>);
    re_lists : lists_ok pd;
    re_named : forall q, named_at q pd;
    re_dumper : forall d, dumper pd = Some d -> PcapSpec.PcapSpec.dumper_ok d;
  }.

Lemma retiring_start t active p c c' pd :
  inv t active pd -> p ∈ active -> conns pd !! p = Some c ->
  own c' = (pending_notification c, true) -> (named p c -> named p c') ->
  retiring t active p pd (pd <| conns ::= <[p := c']> |>).
Proof.
  intros Hi Hp Hc Ho Hn. pose proof Hi as [Hl Hnm Hd _]. split; [done|done| |by apply (lists_ok_config pd)| |done].
  - exists c. split; [done|]. unfold shape. cbn. do 3 f_equal. by rewrite !fmap_insert, Ho.
  - intros q d. cbn. intros [[<- <-]|[_ Hq]]%lookup_insert_Some; [by apply Hn, Hnm|by eapply Hnm].
Qed.

Lemma retiring_same t active p pd0 pd pd' : same pd pd' -> retiring t active p pd0 pd -> retiring t active p pd0 pd'.
Proof.
  intros Hs [Hi Hp (c & Hc & Hsh) Hl Hn Hd]. split; [done|done| |by eapply lists_ok_same| |].
  - exists c. split; [done|]. by rewrite (same_shape _ _ Hs).
  - intros q. by apply (same_named _ _ Hs).
  - by rewrite (same_dumper _ _ Hs).
Qed.

Lemma retiring_own t active p pd0 pd :
  retiring t active p pd0 pd -> exists pn, own_of p pd0 = Some (pn, false) /\ own_of p pd = Some (pn, true).
Proof.
  intros [[_ _ _ (n & u & Ho)] Hp (c & Hc & Hsh) _ _ _]. destruct (ow_active _ _ _ _ _ Ho p Hp) as [pn Hpn].
  exists pn. split; [done|]. unfold own_of in *. rewrite Hc in Hpn. injection Hpn as Hpn _.
  injection Hsh as Hcs _ _ _. apply (f_equal (lookup p)) in Hcs. cbn in Hcs.
  rewrite !lookup_fmap, lookup_insert_eq in Hcs. rewrite Hcs. unfold own. cbn. by rewrite Hpn.
Qed.

Lemma retiring_live t active p pd0 pd : retiring t active p pd0 pd -> live [p] pd.
Proof.
  intros Hr. split; [by apply (re_lists _ _ _ _ _ Hr)|]. apply Forall_singleton.
  destruct (retiring_own _ _ _ _ _ Hr) as (pn & _ & Ho). by eapply own_of_is_Some.
Qed.
End retire.

(** ** Freeing a connection that does not wait *)

Lemma inv_free {T : Told} t active p c pd pd' :
  inv t active pd -> p ∈ active -> conns pd !! p = Some c -> pending_notification c = false ->
  shape pd' = shape (pd <| conns ::= delete p |>) -> conns pd' = delete p (conns pd) ->
  config pd' = config pd -> dumper pd' = dumper pd -> inv t (active ∖ {[p]}) pd'.
Proof.
  intros Hi Hp Hc Hpn Hs Hcs Hcfg Hd.
  apply (inv_config _ _ (pd <| conns ::= delete p |>)); [|done..|by apply (lists_ok_config pd); [|apply Hi]].
  apply (inv_purge t (active ∖ {[p]}) pd p (to_purge c)); [|set_solver|].
  - replace ({[p]} ∪ active ∖ {[p]}) with active; [done|]. apply leibniz_equiv. intros q.
    destruct (decide (q = p)); set_solver.
  - unfold own_of. rewrite Hc. unfold own. cbn. by rewrite Hpn.
Qed.
Section ops.
Context `{PdEnv} {T : Told}.
Context (tuple : zdtun_5tuple) (Htuple : ip_ok (dst_ip tuple)).
Context (Hproto : forall n, proto_ok (a_proto (sys n))).
Context (Hstrdup : forall n, a_strdup (sys n) = true).
Context (Hrealloc : forall n, a_realloc (sys n) = true).

Lemma wp_retire_notif t active a p pd0 (Q : Z -> pcapdroid -> Prop) pd :
  retiring t active p pd0 pd -> (told p -> busy p pd) ->
  (forall pd', inv t (active ∖ {[p]}) pd' -> is_Some (own_of p pd') -> (told p -> busy p pd') -> Q 0 pd') ->
  wp (notif_connection a tuple p) Q pd.
Proof.
  intros Hr Hb HQ. pose proof Hr as [Hi Hp (c0 & Hc0 & Hsh) Hl Hn Hd]. pose proof Hi as [_ _ _ (news & upds & Ho)].
  destruct (live_conn [p] p pd) as [c Hc]; [by eapply retiring_live|set_solver|].
  assert (Harr : arr_of a pd = arr_of a pd0) by (injection Hsh as _ E1 E2 _; by destruct a).
  apply (wp_notif_memory tuple Htuple Hproto Hstrdup Hrealloc a p (arr_list a news upds) _ _ c);
    [by eapply retiring_live|rewrite Harr; destruct a; apply Ho|done|].
  intros pd1 pd' Hs1 _ Hcase. pose proof (retiring_same _ _ _ _ _ _ Hs1 Hr) as [_ _ (c1 & Hc1 & Hsh1) Hl1 Hn1 Hd1].
  assert (c1 = c0) as -> by congruence.
  destruct (retiring_own _ _ _ _ _ Hr) as (pn & Ho0 & Hop). unfold own_of in Hop, Ho0.
  rewrite Hc in Hop. rewrite Hc0 in Ho0. injection Hop as Hpn _. injection Ho0 as Hpn0 _.
  assert (Hlast : forall news' upds' pdE cE, owned t active news' upds' pdE -> conns pdE !! p = Some cE ->
    pending_notification cE = true ->
    shape pd' = shape (pdE <| conns ::= <[p := cE <| to_purge := true |>]> |>) ->
    lists_ok pd' -> (forall q, named_at q pd') -> (forall d, dumper pd' = Some d -> PcapSpec.PcapSpec.dumper_ok d) ->
    inv t (active ∖ {[p]}) pd').
  { intros news' upds' pdE cE HoE HcE HpE HsE H1 H2 H3. split; [done..|]. exists news', upds'.
    eapply owned_shape; [exact HsE|]. apply (owned_retire t active _ _ pdE p cE); [done..|].
    unfold own. cbn. by rewrite HpE. }
  destruct Hcase as [[-> Hpend]|[Hpend He]].
  - apply HQ.
    + apply (Hlast news upds pd0 c0); try done. congruence.
    + rewrite (own_of_same p _ _ Hs1). unfold own_of. rewrite Hc. by eexists.
    + intros Ht. by apply (same_busy _ _ Hs1), Hb.
  - pose proof He as [(c2 & Hc2 & Hp2 & Hcs) Ha' Hother Hnext Hcfg Hdump].
    pose proof (owned_enqueue tuple t active news upds pd0 a (arr_of a pd') p c0 Ho Hc0 ltac:(congruence) Ha') as HoE.
    cbv zeta in HoE. apply HQ.
    + apply (Hlast _ _ _ (c0 <| pending_notification := true |>) HoE); [by destruct a; cbn; rewrite lookup_insert_eq|done| | | |].
      * injection Hsh1 as E1 E2 E3 E4. unfold shape.
        assert (Hown2 : own <$> conns pd' = <[p := (true, true)]> (own <$> conns pd0)).
        { rewrite Hcs, fmap_insert, E1. cbn. rewrite fmap_insert, insert_insert_eq. f_equal.
          apply (f_equal (lookup p)) in E1. cbn in E1. rewrite !lookup_fmap, lookup_insert_eq, Hc2 in E1.
          injection E1 as _ E1. unfold own. cbn. by rewrite E1. }
        rewrite Hown2. destruct a; cbn in *; rewrite insert_insert_eq, fmap_insert; unfold own at 3; cbn.
        -- by rewrite <-E3, Hnext, E4, <-(Hother CONNS_UPDATES ltac:(done) : conns_updates pd' = conns_updates pd1).
        -- by rewrite <-E2, Hnext, E4, <-(Hother NEW_CONNS ltac:(done) : new_conns pd' = new_conns pd1).
      * by apply (lists_ok_config pd1).
      * intros q. apply (enqueued_named tuple a p _ pd1 pd' q He); [|done]. intros _ Ht.
        by apply (same_busy _ _ Hs1), Hb.
      * by rewrite Hdump.
    + unfold own_of. rewrite Hcs, lookup_insert_eq. by eexists.
    + intros Ht d. rewrite Hcs, lookup_insert_eq. intros [= <-].
      exact (same_busy _ _ Hs1 p (Hb Ht) c2 Hc2).
Qed.

End ops.

(** ** The accounting of the last packet of the loop *)

Section account.
Context `{PdEnv}.
Context (Hproto : forall n, proto_ok (a_proto (sys n))).
Context (Hstrdup : forall n, a_strdup (sys n) = true).
Context (Hrealloc : forall n, a_realloc (sys n) = true).
Context (px : pkt_context) (Hpkt : pkt_fine (px_pkt px)) (Htuple : ip_ok (dst_ip (px_tuple px))).
Notation p := (px_data px).

Lemma keeps_account {T : Told} ps : p ∈ ps -> keeps ps (set_conn p (account_conn px)).
Proof. intros Hp. unfold account_conn. keep. Qed.

(** The update makes [p] one of the connections that have one. *)
Lemma wp_account_told (T T' : Told) t active pd :
  (forall q, T' q -> T q \/ q = p) -> @inv T t active pd -> p ∈ active ->
  wp (pd_account_stats px) (fun _ => @inv T' t active) pd.
Proof.
  intros HT Hi Hp. unfold pd_account_stats, pd_notify_connection_update.
  wp_step. eapply wp_mono; [by eapply (safe_keeps (T:=T)); [exact Hp|apply keeps_account; set_solver|exact Hi]|].
  intros [] pd0 [Hi0 _]. wp_step. wp_step. match goal with |- wp _ _ ?x => set (pd1 := x) end.
  assert (Hi1 : @inv T t active pd1) by (by apply (pd_inv_same _ _ pd0)). destruct (inv_active_own (T:=T) _ _ _ _ Hi1 Hp) as [o Ho].
  destruct (own_of_is_Some _ _ _ Ho) as [c Hc]. wp_step. eapply wp_set_at; [exact Hc|].
  match goal with |- wp _ _ ?x => set (pd2 := x) end.
  assert (Hu : busy p pd2).
  { intros d. unfold pd2. cbn. rewrite lookup_insert_eq. intros [= <-]. by apply (or_update_told (T:=T) p). }
  assert (Hs2 : @same T pd1 pd2) by (apply same_set with c; [done|done|by apply or_update_told]).
  assert (Hi2 : @inv T' t active pd2).
  { apply (inv_told T); [|by apply (pd_inv_same _ _ pd1)]. intros q Hq. destruct (HT q Hq) as [| ->]; auto. }
  wp_step. eapply (wp_notif (T:=T') (px_tuple px) Htuple Hproto Hstrdup Hrealloc t active _ p o);
    [done|by rewrite (own_of_same p _ _ Hs2)|done|].
  intros pd3 Hi3 Ho3 _ _ _. eapply wp_mono; [apply (wp_account_dump (T:=T') t active); [done|done|by eexists]|].
  by intros [] pd4 [Hi4 _].
Qed.

(** The connection was marked for deletion before its last packet is accounted. *)
Lemma wp_account_retired {T : Told} t active pd0 pd :
  retiring t active p pd0 pd -> wp (pd_account_stats px) (fun _ => inv t (active ∖ {[p]})) pd.
Proof.
  intros Hr. unfold pd_account_stats, pd_notify_connection_update.
  wp_step. eapply wp_keeps; [apply (keeps_account [p]); set_solver|by eapply retiring_live|].
  intros [] pd' Hs'. wp_step. wp_step. match goal with |- wp _ _ ?x => set (pd1 := x) end.
  assert (Hs1 : same pd pd1) by (by apply (same_trans _ pd')).
  pose proof (retiring_same _ _ _ _ _ _ Hs1 Hr) as Hr1.
  destruct (live_conn [p] p pd1) as [c Hc]; [by eapply retiring_live|set_solver|].
  wp_step. eapply wp_set_at; [exact Hc|].
  match goal with |- wp _ _ ?x => set (pd2 := x) end.
  assert (Hs2 : same pd1 pd2) by (apply same_set with c; [done|done|by apply or_update_told]).
  wp_step. eapply (wp_retire_notif (px_tuple px) Htuple Hproto Hstrdup Hrealloc t active _ p pd0).
  - by apply (retiring_same _ _ _ _ pd1).
  - intros _ d. unfold pd2. cbn. rewrite lookup_insert_eq. intros [= <-]. by apply (or_update_told p).
  - intros pd3 Hi3 Ho3 _. eapply wp_mono; [apply (wp_account_dump t (active ∖ {[p]})); done|].
    by intros [] pd4 [Hi4 _].
Qed.
End account.
End PdRetire.
