(* ===== verification/ZdtunState.v ===== *)
(** * The state of zdtun: sockets, connections, closing (zdtun.c)

    [zdtun_t] as explicit state.  Connection objects live in a heap indexed by
    the pointers [calloc] returned, never reused, so that the use of a freed
    connection is a failed lookup, i.e. undefined behaviour.  [conn_table] is
    the application list of the uthash table: the key each object was inserted
    with and the pointer.

    The outside world is the argument [sys]: the n-th system call or callback
    returns [sys n], an integer and, for calls that produce bytes, the bytes.
    Calls whose effect the property statements observe are also recorded in
    [trace].  All theorems hold for every [sys]. *)

From S2P Require Import Prelude UtHash ZdtunTypes ZdtunConn ZdtunPkt ZdtunWire.
Import ZdtunPkt ZdtunWire.

Module ZdtunState.

Definition MAX_NUM_SOCKETS : Z := 128.
Definition NUM_SOCKETS_AFTER_PURGE : Z := 96.
Definition ICMP_TIMEOUT_SEC : Z := 5.
Definition UDP_TIMEOUT_SEC : Z := 30.
Definition TCP_TIMEOUT_SEC : Z := 60.
Definition FD_SETSIZE : Z := 1024.
Definition REPLY_BUF_SIZE : Z := 65535.
Definition DEFAULT_TCP_WINDOW : Z := 65535.

(** The errno values the source names. *)
Definition EAGAIN : Z := 11.
Definition EPIPE : Z := 32.
Definition ENETUNREACH : Z := 101.
Definition ECONNABORTED : Z := 103.
Definition ECONNRESET : Z := 104.
Definition ECONNREFUSED : Z := 111.
Definition EHOSTUNREACH : Z := 113.
Definition EINPROGRESS : Z := 115.

Record udp_mapping := UdpMapping { um_port : Z; num_uses : Z }.

(** The callbacks, with what they are given and, where the code tests it, their
    answer.  Two are not: [EvNoSocket], when no socket could be created for the
    connection, whose status is set without any call, and [EvTuple], when the tuple of
    a connection is stored to. *)
Inductive event :=
  | EvSendClient (id : Z) (p : zdtun_pkt) (rv : Z)
  | EvAccount (id : Z) (p : zdtun_pkt) (to_zdtun : bool) (st : zdtun_conn_status)
  | EvConnOpen (id : Z) (tuple : zdtun_5tuple) (accepted : bool)
  | EvConnClose (id : Z) (st : zdtun_conn_status)
  | EvNoSocket (id : Z)
  | EvTuple (id : Z) (tuple : zdtun_5tuple)
  | EvSockOpen (fd : Z)
  | EvSockClose (fd : Z)
  | EvSockSend (fd : Z) (data : list Z).

Record zdtun_t := Tun {
    mtu : Z;
    stats : zdtun_statistics;
    now : Z;
    id2ports : frag_table;
    reply_buf : list Z;
    socks5 : proxy_t;
    socks5_user : option (list Z);
    socks5_pass : option (list Z);
    conn_table : list (zdtun_5tuple * Z);
    heap : gmap Z zdtun_conn;
    next_ptr : Z;
    udp_mappings : list (Z * udp_mapping);
    all_fds : gset Z;
    write_fds : gset Z;
    calls : nat;
    trace : list event;
  }.
#[export] Instance zdtun_t_eta : Eta zdtun_t := fun t =>
  Tun (mtu t) (stats t) (now t) (id2ports t) (reply_buf t) (socks5 t) (socks5_user t)
    (socks5_pass t) (conn_table t) (heap t) (next_ptr t) (udp_mappings t) (all_fds t)
    (write_fds t) (calls t) (trace t).
#[export] Instance zstats_eta : Eta zdtun_statistics := fun s =>
  ZStats (num_icmp_conn s) (num_tcp_conn s) (num_udp_conn s) (num_icmp_opened s)
    (num_tcp_opened s) (num_udp_opened s) (num_open_sockets s) (all_max_fd s).

(** The zeroed buffer, kept folded by the tactics. *)
Definition reply_buf_init : list Z := replicate (Z.to_nat REPLY_BUF_SIZE) 0.
Lemma reply_buf_init_ok :
  Z.of_nat (length reply_buf_init) = REPLY_BUF_SIZE /\ bytes_ok reply_buf_init.
Proof.
  split.
  - unfold reply_buf_init. rewrite length_replicate, Z2Nat.id; [done|]. unfold REPLY_BUF_SIZE. lia.
  - by apply Forall_replicate.
Qed.
#[global] Opaque reply_buf_init.

(** [zdtun_init], for callbacks that include [send_client]. *)
Definition zdtun_init : zdtun_t :=
  Tun 1500 zstats_zero 0 ∅ reply_buf_init
    (Proxy ip_zero 0 0) None None [] ∅ 1 [] ∅ ∅ 0 [].

Definition zdtun_set_socks5_proxy (ip : zdtun_ip) (port ver : Z) : M zdtun_t unit :=
  modifyS (fun t => t <| socks5 := Proxy ip port ver |>).
Definition zdtun_set_socks5_userpass (user pass : list Z) : M zdtun_t unit :=
  modifyS (fun t => t <| socks5_user := Some user |> <| socks5_pass := Some pass |>).
Definition zdtun_set_mtu (m : Z) : M zdtun_t unit :=
  modifyS (fun t => t <| mtu := u32 (cmin m REPLY_BUF_SIZE) |>).

Section engine.
Context (sys : nat -> Z * list Z).

(** ** Primitives *)

Definition syscall : M zdtun_t (Z * list Z) :=
  t ← getS; putS (t <| calls := S (calls t) |>) ;; mret (sys (calls t)).
Definition sysint : M zdtun_t Z := r ← syscall; mret (fst r).
Definition emit (e : event) : M zdtun_t unit :=
  modifyS (fun t => t <| trace ::= cons e |>).

(** Dereferences of a connection pointer. *)
Definition conn (id : Z) : M zdtun_t zdtun_conn := t ← getS; liftO (heap t !! id).
Definition set_conn (id : Z) (f : zdtun_conn -> zdtun_conn) : M zdtun_t unit :=
  c ← conn id; modifyS (fun t => t <| heap ::= <[id := f c]> |>).

Definition conn_ipver (c : zdtun_conn) : M zdtun_t Z :=
  t ← getS; liftO (sock_ipver (socks5 t) c).

Definition zdtun_now : M zdtun_t Z :=
  r ← sysint;
  (if r =? 0 then v ← sysint; modifyS (fun t => t <| now := v |>) else mret tt) ;;
  t ← getS; mret (now t).

Definition upd_stats (f : zdtun_statistics -> zdtun_statistics) : M zdtun_t unit :=
  modifyS (fun t => t <| stats ::= f |>).

(** [FD_SET] and friends on a negative descriptor write outside the set. *)
Definition fd_ok (fd : Z) : bool := (0 <=? fd) && (fd <? FD_SETSIZE).
Definition FD_SET_all (fd : Z) : M zdtun_t unit :=
  if fd_ok fd then modifyS (fun t => t <| all_fds ::= union {[fd]} |>) else ub.
Definition FD_CLR_all (fd : Z) : M zdtun_t unit :=
  if fd_ok fd then modifyS (fun t => t <| all_fds ::= fun s => s ∖ {[fd]} |>) else ub.
Definition FD_SET_write (fd : Z) : M zdtun_t unit :=
  if fd_ok fd then modifyS (fun t => t <| write_fds ::= union {[fd]} |>) else ub.
Definition FD_CLR_write (fd : Z) : M zdtun_t unit :=
  if fd_ok fd then modifyS (fun t => t <| write_fds ::= fun s => s ∖ {[fd]} |>) else ub.

(** ** Sockets *)

Definition open_socket (protocol : Z) : M zdtun_t Z :=
  t ← getS;
  if MAX_NUM_SOCKETS <=? num_open_sockets (stats t) then mret INVALID_SOCKET else
  sock ← sysint;
  if sock <? 0 then mret INVALID_SOCKET else
  if FD_SETSIZE <=? sock then sysint ;; mret INVALID_SOCKET else
  emit (EvSockOpen sock) ;;
  FD_SET_all sock ;;
  upd_stats (fun s => s <| num_open_sockets ::= fun n => u32 (n + 1) |>) ;;
  upd_stats (fun s => s <| all_max_fd := cmax (all_max_fd s) sock |>) ;;
  (if protocol =? IPPROTO_UDP then
     upd_stats (fun s => s <| num_udp_opened ::= fun n => u32 (n + 1) |>)
   else if protocol =? IPPROTO_TCP then
     upd_stats (fun s => s <| num_tcp_opened ::= fun n => u32 (n + 1) |>)
   else if (protocol =? IPPROTO_ICMP) || (protocol =? IPPROTO_ICMPV6) then
     upd_stats (fun s => s <| num_icmp_opened ::= fun n => u32 (n + 1) |>)
   else mret tt) ;;
  mret sock.

(** [max(num_open_sockets - 1, 0)] is computed on unsigned numbers. *)
Definition close_socket (sock : Z) : M zdtun_t unit :=
  if sock =? INVALID_SOCKET then mret tt else
  rv ← sysint;
  whenM (negb (rv =? -1)) (emit (EvSockClose sock)) ;;
  FD_CLR_all sock ;;
  FD_CLR_write sock ;;
  upd_stats (fun s => s <| num_open_sockets ::= fun n => cmax (u32 (n - 1)) 0 |>).

(** ** Talking to the client *)

Definition get_available_sndbuf (id : Z) : M zdtun_t Z :=
  c ← conn id;
  bufsize ← sysint;
  let bufsize := if bufsize =? 0 then DEFAULT_TCP_WINDOW else bufsize in
  queued ← sysint;
  mret (cmax (i32 (u32 (bufsize - queued - tx_queue_size c))) 0).

(** [build_reply_tcpip]; shifting a 32-bit number by 32 or more is undefined. *)
Definition build_reply (id flags l4_len optsoff : Z) : M zdtun_t unit :=
  c ← conn id;
  ver ← conn_ipver c;
  if negb (window_scale c <? 32) then ub else
  sndbuf ← get_available_sndbuf id;
  t ← getS;
  buf ← liftO (build_reply_tcpip ver c flags l4_len optsoff sndbuf (reply_buf t));
  putS (t <| reply_buf := buf |>).

Definition parse_reply (size : Z) : M zdtun_t (Z + zdtun_pkt) :=
  t ← getS;
  r ← liftO (zdtun_parse_pkt (reply_buf t) (u16 size) (id2ports t));
  putS (t <| id2ports := snd r |>) ;; mret (fst r).

(** [send_to_client], given the function that closes a connection. *)
Definition send_to_client_with (close : Z -> zdtun_conn_status -> M zdtun_t unit)
    (id l3_len : Z) : M zdtun_t Z :=
  c ← conn id;
  ver ← conn_ipver c;
  r ← parse_reply (l3_len + zdtun_iphdr_len ver);
  match r with
  | inl _ => mret (-1)
  | inr p =>
      rv ← sysint;
      emit (EvSendClient id p rv) ;;
      (if rv =? 0 then
         c ← conn id; emit (EvAccount id p false (status c))
       else
         c ← conn id;
         whenM (ipproto (c_tuple c) =? IPPROTO_TCP)
           (set_conn id (fun c => c <| fin_ack_sent := true |>)) ;;
         close id CONN_STATUS_CLIENT_ERROR) ;;
      mret rv
  end.

(** The reference count of the local UDP port of a connection. *)
Definition release_udp_mapping (c : zdtun_conn) : M zdtun_t unit :=
  t ← getS;
  let key := udp_mapping_key (c_tuple c) in
  match HASH_FIND key (udp_mappings t) with
  | None => mret tt
  | Some m =>
      let m' := UdpMapping (um_port m) (u16 (num_uses m - 1)) in
      if num_uses m' =? 0
      then putS (t <| udp_mappings ::= HASH_DELETE key |>)
      else putS (t <| udp_mappings ::= HASH_SET key m' |>)
  end.

(** [zdtun_conn_close] calls [send_to_client], which may call it again: the
  fuel bounds this recursion, and running out of it counts as undefined. *)
Fixpoint conn_close (fuel : nat) (id : Z) (st : zdtun_conn_status) : M zdtun_t unit :=
  match fuel with
  | O => ub
  | S fuel =>
      c ← conn id;
      if is_closed (status c) then mret tt else
      whenM (ipproto (c_tuple c) =? IPPROTO_UDP) (release_udp_mapping c) ;;
      close_socket (sock c) ;;
      set_conn id (fun c => c <| sock := INVALID_SOCKET |>) ;;
      (if (ipproto (c_tuple c) =? IPPROTO_TCP) && negb (fin_ack_sent c) then
         build_reply id (TH_RST .| TH_ACK) 0 0 ;;
         send_to_client_with (conn_close fuel) id TCP_HEADER_LEN ;; mret tt
       else mret tt) ;;
      whenM (ipproto (c_tuple c) =? IPPROTO_TCP) (set_conn id (fun c => c <| tx_queue := [] |>)) ;;
      let st' := if is_closed st then st else CONN_STATUS_CLOSED in
      set_conn id (fun c => c <| status := st' |>) ;;
      emit (EvConnClose id st')
  end.

Definition zdtun_conn_close : Z -> zdtun_conn_status -> M zdtun_t unit := conn_close 2.
Definition send_to_client : Z -> Z -> M zdtun_t Z := send_to_client_with zdtun_conn_close.

(** [close_with_socket_error], for the value of [errno]. *)
Definition close_with_socket_error (id errno : Z) : M zdtun_t Z :=
  let '(st, rv) :=
    if errno =? ECONNRESET then (CONN_STATUS_RESET, 0)
    else if (errno =? EPIPE) || (errno =? ECONNREFUSED) || (errno =? ECONNABORTED)
    then (CONN_STATUS_SOCKET_ERROR, 0)
    else if (errno =? ENETUNREACH) || (errno =? EHOSTUNREACH)
    then (CONN_STATUS_UNREACHABLE, -1)
    else (CONN_STATUS_SOCKET_ERROR, -1) in
  zdtun_conn_close id st ;; mret rv.

(** ** The table of connections *)

(** [HASH_DELETE] unlinks the element the pointer designates. *)
Definition table_remove (id : Z) (l : list (zdtun_5tuple * Z)) : list (zdtun_5tuple * Z) :=
  filter (fun e => e.2 <> id) l.

(** [stats.num_*_conn] of the protocol, plus [d]. *)
Definition count_conn (proto d : Z) (s : zdtun_statistics) : zdtun_statistics :=
  if proto =? IPPROTO_TCP then s <| num_tcp_conn ::= fun n => u16 (n + d) |>
  else if proto =? IPPROTO_UDP then s <| num_udp_conn ::= fun n => u16 (n + d) |>
  else if proto =? IPPROTO_ICMP then s <| num_icmp_conn ::= fun n => u16 (n + d) |>
  else s.

Definition destroy_conn (id : Z) : M zdtun_t unit :=
  zdtun_conn_close id CONN_STATUS_CLOSED ;;
  c ← conn id;
  upd_stats (count_conn (ipproto (c_tuple c)) (-1)) ;;
  modifyS (fun t => t <| conn_table ::= table_remove id |>) ;;
  modifyS (fun t => t <| heap ::= delete id |>).

(** [HASH_FIND]: the stored key must be the bytes looked for. *)
Fixpoint table_find (t : zdtun_5tuple) (h : gmap Z zdtun_conn)
    (l : list (zdtun_5tuple * Z)) : option Z :=
  match l with
  | [] => None
  | (k, id) :: l' =>
      match table_find t h l' with
      | Some i => Some i
      | None =>
          if decide (k = t /\ c_tuple <$> h !! id = Some t) then Some id else None
      end
  end.

Definition conn_timeout (proto : Z) : Z :=
  if proto =? IPPROTO_TCP then TCP_TIMEOUT_SEC
  else if proto =? IPPROTO_UDP then UDP_TIMEOUT_SEC
  else if proto =? IPPROTO_ICMP then ICMP_TIMEOUT_SEC else 0.

(** [HASH_SORT] with [zdtun_conn_cmp_timestamp_asc]: a stable sort. *)
Fixpoint insert_asc (h : gmap Z zdtun_conn) (e : zdtun_5tuple * Z)
    (l : list (zdtun_5tuple * Z)) : list (zdtun_5tuple * Z) :=
  match l with
  | [] => [e]
  | e' :: l' =>
      if default 0 (tstamp <$> h !! e.2) <=? default 0 (tstamp <$> h !! e'.2)
      then e :: e' :: l' else e' :: insert_asc h e l'
  end.
Definition sort_asc (h : gmap Z zdtun_conn) (l : list (zdtun_5tuple * Z)) :=
  foldr (insert_asc h) [] l.

(** The second loop: [to_purge] connections from the oldest. *)
Fixpoint force_purge (ids : list Z) (to_purge : Z) : M zdtun_t unit :=
  match ids with
  | [] => mret tt
  | id :: ids' =>
      if to_purge =? 0 then mret tt
      else destroy_conn id ;; force_purge ids' (i32 (to_purge - 1))
  end.

Definition is_idle (now : Z) (c : zdtun_conn) : bool :=
  is_closed (status c) || (conn_timeout (ipproto (c_tuple c)) + tstamp c <=? now).

(** What [zdtun_purge_expired] does at time [now]. *)
Definition purge_at (now : Z) : M zdtun_t unit :=
  t ← getS;
  forM (snd <$> conn_table t) (fun id =>
    c ← conn id; whenM (is_idle now c) (destroy_conn id)) ;;
  t ← getS;
  if MAX_NUM_SOCKETS <=? num_open_sockets (stats t) then
    let to_purge := i32 (u32 (num_open_sockets (stats t) - NUM_SOCKETS_AFTER_PURGE)) in
    putS (t <| conn_table ::= sort_asc (heap t) |>) ;;
    t ← getS;
    force_purge (snd <$> conn_table t) to_purge
  else mret tt.
Definition zdtun_purge_expired : M zdtun_t unit := now ← zdtun_now; purge_at now.

(** [zdtun_lookup]; [None] is a NULL result. *)
Definition zdtun_lookup (tuple : zdtun_5tuple) (create : bool) : M zdtun_t (option Z) :=
  t ← getS;
  found ← match table_find tuple (heap t) (conn_table t) with
          | None => mret None
          | Some id =>
              c ← conn id;
              if is_closed (status c) then destroy_conn id ;; mret None else mret (Some id)
          end;
  match found with
  | Some id => mret (Some id)
  | None =>
      if negb create then mret None else
      t ← getS;
      whenM (MAX_NUM_SOCKETS <=? num_open_sockets (stats t)) zdtun_purge_expired ;;
      now ← zdtun_now;
      t ← getS;
      let id := next_ptr t in
      putS (t <| next_ptr ::= Z.succ |> <| heap ::= <[id := zdtun_conn_new tuple now]> |>) ;;
      rv ← sysint;
      emit (EvConnOpen id tuple (rv =? 0)) ;;
      if negb (rv =? 0) then
        modifyS (fun t => t <| heap ::= delete id |>) ;; mret None
      else
        modifyS (fun t => t <| conn_table ::= fun l => l ++ [(tuple, id)] |>) ;;
        upd_stats (count_conn (ipproto tuple) 1) ;;
        mret (Some id)
  end.

Definition zdtun_finalize : M zdtun_t unit :=
  t ← getS; forM (snd <$> conn_table t) destroy_conn.

(** [zdtun_iter_connections]: closed connections are skipped. *)
Definition conn_open (t : zdtun_t) (id : Z) : bool :=
  from_option (fun c => negb (is_closed (status c))) false (heap t !! id).
Definition iter_ids (t : zdtun_t) : list Z :=
  filter (fun id => conn_open t id = true) (snd <$> conn_table t).

Definition zdtun_get_num_connections (t : zdtun_t) : Z :=
  num_tcp_conn (stats t) + num_udp_conn (stats t) + num_icmp_conn (stats t).
End engine.

End ZdtunState.
