(* ===== verification/ZdtunTcp.v ===== *)
(** * TCP in zdtun (zdtun.c, socks5.c)

    The handlers of client segments, server data, the transmit queue, the
    asynchronous connect and the SOCKS5 handshake.  Each is the whole C
    function: an early [return] of the source is the end of a branch. *)

From S2P Require Import Prelude UtHash ZdtunTypes ZdtunConn ZdtunPkt ZdtunWire ZdtunState.
Import ZdtunPkt ZdtunWire ZdtunState.

Module ZdtunTcp.

Definition TH_PUSH : Z := 0x08.
Definition TH_URG : Z := 0x20.
Definition SOCKS5_AUTH_USERNAME_PASSWORD : Z := 0x02.
Definition INITIAL_SEQ : Z := 0x77EB77EB.

(** [default_mss]: computed in 64 bits, used as a 16-bit number. *)
Definition default_mss (mtu ver : Z) : Z := u16 (mtu - 20 - (if ver =? 4 then 20 else 40)).

(** Fields of the TCP header of a received packet. *)
Definition th_seq (p : zdtun_pkt) : option Z :=
  bswap32 <$> rd32 (pkt_mem p) (pkt_ip_hdr_len p + 4).
Definition th_ack (p : zdtun_pkt) : option Z :=
  bswap32 <$> rd32 (pkt_mem p) (pkt_ip_hdr_len p + 8).
Definition th_off (p : zdtun_pkt) : option Z :=
  (fun b => b >>> 4) <$> rd8 (pkt_mem p) (pkt_ip_hdr_len p + 12).
Definition th_win (p : zdtun_pkt) : option Z :=
  bswap16 <$> rd16 (pkt_mem p) (pkt_ip_hdr_len p + 14).

(** The loop over the TCP options of a SYN.  [optslen] is 8 bits wide.  Every
    turn moves [opts] forward, so that the size of the memory bounds the turns. *)
Fixpoint parse_opts (fuel : nat) (mem : list Z) (opts optslen mss scale : Z) : option (Z * Z) :=
  match fuel with
  | O => None
  | S fuel =>
      if optslen <=? 1 then Some (mss, scale) else
      kind ← rd8 mem opts;
      let opts := opts + 1 in
      if kind =? 1 then parse_opts fuel mem opts (u8 (optslen + 1)) mss scale else
      len ← rd8 mem opts;
      let opts := opts + 1 in
      if (kind =? 0) || (len <? 2) || (optslen <? len) then Some (mss, scale) else
      mss ← (if (kind =? 2) && (len =? 4) then bswap16 <$> rd16 mem opts else Some mss);
      scale ← (if (kind =? 3) && (len =? 3) then rd8 mem opts else Some scale);
      parse_opts fuel mem (opts + (len - 2)) (u8 (optslen - len)) mss scale
  end.

(** The client's window once the bytes in flight are taken off, on 32 bits. *)
Definition in_flight (zseq ack : Z) : Z :=
  if ack <=? zseq then zseq - ack else u32 (0xFFFFFFFF - ack + zseq + 1).
Definition window_update (window zseq ack : Z) : Z := u32 (window - in_flight zseq ack).
(** [x << n] in the code: the 16-bit window is promoted to [int], and a result that
    does not fit in one is undefined, as is a shift by the width or more. *)
Definition int_shl (x n : Z) : option Z :=
  if (n <? 32) && ((x <<< n) <=? 0x7FFFFFFF) then Some (x <<< n) else None.
Lemma int_shl_some x n : u_ok 16 x -> 0 <= n <= 15 -> int_shl x n = Some (x <<< n).
Proof.
  intros Hx Hn. unfold int_shl, u_ok in *. rewrite Z.shiftl_mul_pow2 by lia.
  assert (0 < 2 ^ n <= 2 ^ 15) by (split; [apply Z.pow_pos_nonneg|apply Z.pow_le_mono_r]; lia).
  rewrite (proj2 (Z.ltb_lt _ _)), (proj2 (Z.leb_le _ _)) by nia. done.
Qed.

Section tcp.
Context (sys : nat -> Z * list Z).

Local Abbreviation sysint := (sysint sys).
Local Abbreviation send_to_client := (send_to_client sys).
Local Abbreviation zdtun_conn_close := (zdtun_conn_close sys).
Local Abbreviation build_reply := (build_reply sys).
Local Abbreviation close_with_socket_error := (close_with_socket_error sys).

(** [send]: the kernel takes at most what it is given. *)
Definition sock_send (fd : Z) (data : list Z) : M zdtun_t Z :=
  rv ← sysint;
  if rv <? 0 then mret rv else
  let n := cmin rv (Z.of_nat (length data)) in
  emit (EvSockSend fd (take (Z.to_nat n) data)) ;; mret n.

(** [recv] into [reply_buf]: -1, or the number of bytes stored. *)
Definition sock_recv (off maxlen : Z) : M zdtun_t Z :=
  r ← syscall sys;
  if fst r <? 0 then mret (-1) else
  let data := u8 <$> take (Z.to_nat maxlen) (snd r) in
  t ← getS;
  buf ← liftO (wrn off data (reply_buf t));
  putS (t <| reply_buf := buf |>) ;;
  mret (Z.of_nat (length data)).

Definition account_in (id : Z) (p : zdtun_pkt) : M zdtun_t unit := 
  c ← conn id; emit (EvAccount id p true (status c)).

(** ** SOCKS5 *)

Definition socks5_connect (id : Z) : M zdtun_t Z :=
  t ← getS;
  c ← conn id;
  let hello := [5; 1; if socks5_user t then SOCKS5_AUTH_USERNAME_PASSWORD else 0] in
  rv ← sock_send (sock c) hello;
  if rv <? 0 then errno ← sysint; close_with_socket_error id errno
  else set_conn id (fun c => c <| socks5_status := SOCKS5_HELLO |>) ;; mret 0.

(** The user and the password are C strings, NULL dereferences are undefined. *)
Definition socks5_auth (id : Z) : M zdtun_t Z :=
  t ← getS;
  c ← conn id;
  user ← liftO (socks5_user t);
  pass ← liftO (socks5_pass t);
  let req := [1; u8 (Z.of_nat (length user))] ++ user ++ [u8 (Z.of_nat (length pass))] ++ pass in
  rv ← sock_send (sock c) req;
  if rv <? 0 then errno ← sysint; close_with_socket_error id errno
  else set_conn id (fun c => c <| socks5_status := SOCKS5_AUTH |>) ;; mret 0.

Definition socks5_req_bytes (t : zdtun_5tuple) : list Z :=
  [5; 1; 0] ++
  (if ipver t =? 4 then 1 :: take 4 (ip_bytes (dst_ip t)) else 4 :: ip_bytes (dst_ip t)) ++
  le_bytes 2 (dst_port t).
Definition socks5_req (id : Z) : M zdtun_t Z :=
  c ← conn id;
  rv ← sock_send (sock c) (socks5_req_bytes (c_tuple c));
  if rv <? 0 then errno ← sysint; close_with_socket_error id errno
  else set_conn id (fun c => c <| socks5_status := SOCKS5_CONNECTING |>) ;; mret 0.

(** [handle_socks5_reply]; the recursive call is for the bytes after the
  fixed part of a connect reply. *)
Fixpoint handle_socks5_reply (fuel : nat) (id : Z) (data : list Z) : M zdtun_t Z :=
  let len := Z.of_nat (length data) in
  let fail := (zdtun_conn_close id CONN_STATUS_SOCKS5_ERROR ;; mret (-1)) in
  match fuel with
  | O => ub
  | S fuel =>
      c ← conn id;
      match socks5_status c with
      | SOCKS5_HELLO =>
          if negb (len =? 2) then fail else
          ver ← liftO (rd8 data 0);
          if negb (ver =? 5) then fail else
          cauth ← liftO (rd8 data 1);
          if negb (cauth =? 0) then
            t ← getS;
            if (cauth =? SOCKS5_AUTH_USERNAME_PASSWORD) && (if socks5_user t then true else false)
            then socks5_auth id else fail
          else socks5_req id
      | SOCKS5_AUTH =>
          if len <? 2 then fail else
          ver ← liftO (rd8 data 0);
          st ← liftO (rd8 data 1);
          if negb (ver =? 1) || negb (st =? 0) then fail else socks5_req id
      | SOCKS5_CONNECTING =>
          if len <? 4 then fail else
          ver ← liftO (rd8 data 0);
          if negb (ver =? 5) then fail else
          st ← liftO (rd8 data 1);
          if negb (st =? 0) then
            let '(cst, rv) :=
              if (st =? 4) || (st =? 3) then (CONN_STATUS_UNREACHABLE, 0)
              else if st =? 5 then (CONN_STATUS_SOCKET_ERROR, 0)
              else (CONN_STATUS_SOCKS5_ERROR, -1) in
            zdtun_conn_close id cst ;; mret rv
          else
            addrtype ← liftO (rd8 data 3);
            if negb ((addrtype =? 1) || (addrtype =? 4)) then fail else
            let to_skip := (if addrtype =? 1 then 4 else 16) + 2 in
            set_conn id (fun c => c <| socks5_skip := to_skip |>
                                    <| socks5_status := SOCKS5_SKIP_BND |>) ;;
            if 4 <? len then handle_socks5_reply fuel id (drop 4 data) else mret 0
      | SOCKS5_SKIP_BND =>
          if negb (len <=? socks5_skip c) then fail else
          let skip := u8 (socks5_skip c - len) in
          set_conn id (fun c => c <| socks5_skip := skip |>) ;;
          whenM (skip =? 0)
            (set_conn id (fun c => c <| socks5_status := SOCKS5_ESTABLISHED |>)) ;;
          mret 0
      | SOCKS5_ESTABLISHED => fail
      end
  end.

(** ** Opening *)

Definition send_syn_ack (id : Z) : M zdtun_t Z :=
  c ← conn id;
  ver ← conn_ipver c;
  t ← getS;
  let opts := [2; 4] ++ le_bytes 2 (htons (default_mss (mtu t) ver))
              ++ [3; 3; window_scale c; 0] in
  buf ← liftO (wrn (zdtun_iphdr_len ver + TCP_HEADER_LEN) opts (reply_buf t));
  putS (t <| reply_buf := buf |>) ;;
  build_reply id (TH_SYN .| TH_ACK) 0 2 ;;
  rv ← send_to_client id (TCP_HEADER_LEN + 8);
  whenM (rv =? 0) (set_conn id (fun c => c <| zdtun_seq ::= fun n => u32 (n + 1) |>)) ;;
  mret rv.

Definition tcp_socket_syn (id : Z) : M zdtun_t Z :=
  sysint ;; sysint ;;
  c ← conn id;
  FD_CLR_write (sock c) ;;
  set_conn id (fun c => c <| status := CONN_STATUS_CONNECTED |>) ;;
  if bool_decide (proxy_mode c = PROXY_SOCKS5) then socks5_connect id else send_syn_ack id.

Definition tcp_socket_fin_ack (id : Z) : M zdtun_t unit :=
  build_reply id (TH_FIN .| TH_ACK) 0 0 ;;
  rv ← send_to_client id TCP_HEADER_LEN;
  whenM (rv =? 0) (set_conn id (fun c => c <| zdtun_seq ::= fun n => u32 (n + 1) |>)).

(** The branch of [handle_tcp_fwd] for a new connection: open the socket,
  read the options of the SYN, connect. *)
Definition tcp_fwd_new (id : Z) (p : zdtun_pkt) : M zdtun_t Z :=
  c ← conn id;
  ver ← conn_ipver c;
  tcp_sock ← open_socket sys IPPROTO_TCP;
  if tcp_sock =? INVALID_SOCKET then
    set_conn id (fun c => c <| status := CONN_STATUS_SOCKET_ERROR |>) ;; emit (EvNoSocket id) ;; mret (-1)
  else
  set_conn id (fun c => c <| sock := tcp_sock |>) ;;
  sysint ;; sysint ;; sysint ;;
  account_in id p ;;
  off ← liftO (th_off p);
  t ← getS;
  opts ← liftO (parse_opts (S (length (pkt_mem p))) (pkt_mem p)
                  (pkt_ip_hdr_len p + TCP_HEADER_LEN) (u8 (off * 4 - TCP_HEADER_LEN))
                  (default_mss (mtu t) ver) 0);
  let (m, scale) := opts : Z * Z in
  win ← liftO (th_win p);
  window ← liftO (int_shl win scale);
  set_conn id (fun c => c <| window_size := u32 window |>
                          <| window_scale := scale |> <| mss := m |>) ;;
  rv ← sysint;
  errno ← (if rv =? -1 then sysint else mret 0);
  if (rv =? -1) && negb (errno =? EINPROGRESS) then
    close_with_socket_error id errno ;; mret 0
  else
    seq ← liftO (th_seq p);
    set_conn id (fun c => c <| client_seq := u32 (seq + 1) |> <| zdtun_seq := INITIAL_SEQ |>) ;;
    if negb (rv =? -1) then tcp_socket_syn id else
    set_conn id (fun c => c <| status := CONN_STATUS_CONNECTING |>) ;;
    FD_SET_write tcp_sock ;;
    mret 0.

(** ** Data from the client *)

Definition enqueue_tcp_data (id : Z) (buf : list Z) (flags : Z) : M zdtun_t Z :=
  ok ← sysint;
  if ok =? 0 then zdtun_conn_close id CONN_STATUS_ERROR ;; mret (-1) else
  let n := Z.of_nat (length buf) in
  set_conn id (fun c => c <| tx_queue ::= fun q => q ++ [TcpData (u16 n) 0 flags buf] |>
                          <| tx_queue_size ::= fun s => u32 (s + n) |>) ;;
  c ← conn id;
  FD_SET_write (sock c) ;;
  mret 0.

(** A segment of an open connection: ACKs, keep-alives, window updates. *)
Definition tcp_fwd_ack (id : Z) (p : zdtun_pkt) (is_keep_alive : bool) : M zdtun_t Z :=
  c ← conn id;
  if is_keep_alive then
    sysint ;;
    build_reply id TH_ACK 0 0 ;;
    rv ← send_to_client id TCP_HEADER_LEN;
    mret (if negb (rv =? 0) then -1 else 0)
  else
    ack_num ← liftO (th_ack p);
    win ← liftO (th_win p);
    window ← liftO (int_shl win (window_scale c));
    set_conn id (fun c => c <| window_size := window_update window (zdtun_seq c) ack_num |>) ;;
    c ← conn id;
    t ← getS;
    whenM (bool_decide (sock c ∉ all_fds t) && (0 <? window_size c)) (FD_SET_all (sock c)) ;;
    mret 0.

Definition tcp_fwd_fin (id : Z) (p : zdtun_pkt) : M zdtun_t Z :=
  c ← conn id;
  whenM (negb (sock c =? INVALID_SOCKET)) (sysint ;; mret tt) ;;
  set_conn id (fun c => c <| client_seq ::= fun n => u32 (n + (pkt_l7_len p + 1)) |>
                          <| client_closed := true |>) ;;
  build_reply id TH_ACK 0 0 ;;
  rv ← send_to_client id TCP_HEADER_LEN;
  c ← conn id;
  whenM (sock c =? INVALID_SOCKET) (zdtun_conn_close id CONN_STATUS_CLOSED) ;;
  mret rv.

Definition tcp_fwd_payload (id : Z) (p : zdtun_pkt) (flags : Z) : M zdtun_t Z :=
  if negb (0 <? pkt_l7_len p) then mret 0 else
  c ← conn id;
  if sock c =? INVALID_SOCKET then
    set_conn id (fun c => c <| client_seq ::= fun n => u32 (n + pkt_l7_len p) |>) ;;
    build_reply id TH_ACK 0 0 ;;
    send_to_client id TCP_HEADER_LEN
  else
    data ← liftO (rdn (Z.to_nat (pkt_l7_len p)) (pkt_mem p) (pkt_l7 p));
    enqueue_tcp_data id data flags.

Definition tcp_fwd_active (id : Z) (p : zdtun_pkt) (flags : Z) : M zdtun_t Z :=
  account_in id p ;;
  c ← conn id;
  seq ← liftO (th_seq p);
  let is_keep_alive := has_flag flags TH_ACK && (u32 (seq + 1) =? client_seq c) in
  if negb is_keep_alive && negb (seq =? u32 (client_seq c + tx_queue_size c)) then mret 0 else
  if socks5_in_progress c then zdtun_conn_close id CONN_STATUS_SOCKS5_ERROR ;; mret (-1) else
  if has_flag flags TH_RST then zdtun_conn_close id CONN_STATUS_CLOSED ;; mret 0 else
  if (flags .& (TH_FIN .| TH_ACK)) =? (TH_FIN .| TH_ACK) then tcp_fwd_fin id p else
  rv ← (if has_flag flags TH_ACK && negb (sock c =? INVALID_SOCKET)
        then tcp_fwd_ack id p is_keep_alive else mret 0);
  if negb (rv =? 0) then mret rv else tcp_fwd_payload id p flags.

Definition handle_tcp_fwd (id : Z) (p : zdtun_pkt) : M zdtun_t Z :=
  flags ← liftO (tcp_th_flags p);
  if has_flag flags TH_URG then zdtun_conn_close id CONN_STATUS_ERROR ;; mret (-1) else
  c ← conn id;
  if bool_decide (status c = CONN_STATUS_CONNECTING) then mret 0
  else if bool_decide (status c = CONN_STATUS_NEW) then tcp_fwd_new id p
  else tcp_fwd_active id p flags.

(** ** Data from the server *)

(** The server closed its end: [recv] returned 0. *)
Definition tcp_reply_closed (id : Z) : M zdtun_t Z :=
  c ← conn id;
  whenM (negb (fin_ack_sent c))
    (tcp_socket_fin_ack id ;; set_conn id (fun c => c <| fin_ack_sent := true |>)) ;;
  c ← conn id;
  close_socket sys (sock c) ;;
  set_conn id (fun c => c <| sock := INVALID_SOCKET |>) ;;
  c ← conn id;
  whenM (client_closed c) (zdtun_conn_close id CONN_STATUS_CLOSED) ;;
  mret 0.

Definition tcp_reply_data (id ver l4_len : Z) : M zdtun_t Z :=
  c ← conn id;
  if window_size c <? l4_len then zdtun_conn_close id CONN_STATUS_ERROR ;; mret (-1) else
  count ← sysint;
  let flags := if count =? 0 then TH_ACK .| TH_PUSH else TH_ACK in
  build_reply id flags l4_len 0 ;;
  rv ← send_to_client id (l4_len + TCP_HEADER_LEN);
  if negb (rv =? 0) then mret (-1) else
  set_conn id (fun c => c <| zdtun_seq ::= fun n => u32 (n + l4_len) |>
                          <| window_size ::= fun n => u32 (n - l4_len) |>) ;;
  c ← conn id;
  whenM (window_size c =? 0) (FD_CLR_all (sock c)) ;;
  mret 0.

Definition handle_tcp_reply (id : Z) : M zdtun_t Z :=
  c ← conn id;
  ver ← conn_ipver c;
  let off := zdtun_iphdr_len ver + TCP_HEADER_LEN in
  l4_len ← sock_recv off (cmin (window_size c) (mss c));
  now ← zdtun_now sys;
  set_conn id (fun c => c <| tstamp := now |>) ;;
  if l4_len =? -1 then errno ← sysint; close_with_socket_error id errno else
  if l4_len =? 0 then tcp_reply_closed id else
  if socks5_in_progress c then
    t ← getS;
    data ← liftO (rdn (Z.to_nat l4_len) (reply_buf t) off);
    rv ← handle_socks5_reply 2 id data;
    if negb (rv =? 0) then mret rv else
    c ← conn id;
    if bool_decide (socks5_status c = SOCKS5_ESTABLISHED) then send_syn_ack id else mret rv
  else tcp_reply_data id ver l4_len.

Definition handle_tcp_connect_async (id : Z) : M zdtun_t Z :=
  rv ← sysint;
  if rv =? -1 then zdtun_conn_close id CONN_STATUS_SOCKET_ERROR ;; mret (-1) else
  optval ← sysint;
  if optval =? 0 then
    rv ← tcp_socket_syn id;
    now ← zdtun_now sys;
    set_conn id (fun c => c <| tstamp := now |>) ;;
    mret rv
  else close_with_socket_error id optval ;; mret (-1).

(** ** The transmit queue *)

(** The loop over [tx_queue]: [inl] is the early return, [inr] the bytes sent. *)
Fixpoint send_queue (id : Z) (q : list tcp_data) (sent : Z) : M zdtun_t (Z + Z) :=
  match q with
  | [] => mret (inr sent)
  | item :: q' =>
      c ← conn id;
      data ← liftO (rdn (Z.to_nat (td_len item - td_sofar item)) (td_data item) (td_sofar item));
      let to_send := td_len item - td_sofar item in
      rv ← sock_send (sock c) data;
      if rv <? 0 then
        errno ← sysint;
        if negb (errno =? EAGAIN) then r ← close_with_socket_error id errno; mret (inl r)
        else mret (inr sent)
      else if negb (rv =? to_send) then
        set_conn id (fun c => c <| tx_queue :=
          item <| td_sofar ::= fun n => u16 (n + rv) |> :: q' |>) ;;
        mret (inr (sent + rv))
      else
        set_conn id (fun c => c <| tx_queue := q' |>) ;;
        send_queue id q' (sent + to_send)
  end.

Definition handle_queued_tcp_data (id : Z) : M zdtun_t Z :=
  c ← conn id;
  r ← send_queue id (tx_queue c) 0;
  match r with
  | inl rv => mret rv
  | inr sent =>
      c ← conn id;
      whenM (match tx_queue c with [] => true | _ => false end) (FD_CLR_write (sock c)) ;;
      if 0 <? sent then
        set_conn id (fun c => c <| client_seq ::= fun n => u32 (n + sent) |>
                                <| tx_queue_size ::= fun n => u32 (n - sent) |>) ;;
        build_reply id TH_ACK 0 0 ;;
        rv ← send_to_client id TCP_HEADER_LEN;
        mret (if rv <? 0 then -1 else 0)
      else mret 0
  end.
End tcp.

End ZdtunTcp.
