(* ===== verification/ZdtunFwd.v ===== *)
(** * UDP, ICMP and the entry points of zdtun (zdtun.c)

    [zdtun_forward] and [zdtun_easy_forward] for packets of the client,
    [zdtun_handle_fd] for sockets that became ready. *)

From S2P Require Import Prelude UtHash ZdtunTypes ZdtunConn ZdtunPkt ZdtunWire ZdtunState ZdtunTcp.
Import ZdtunPkt ZdtunWire ZdtunState ZdtunTcp.

Module ZdtunFwd.

Definition DNS_PACKET_SIZE : Z := 13.   (* sizeof(struct dns_packet), packed *)
Definition DNS_FLAGS_MASK : Z := 0x8000.
Definition DNS_TYPE_REQUEST : Z := 0x0000.
Definition DNS_TYPE_RESPONSE : Z := 0x8000.
Definition INADDR_BROADCAST : Z := 0xFFFFFFFF.

(** [conn->tuple.dst_port != ntohs(53)] and the length test. *)
Definition is_dns_packet (t : zdtun_5tuple) (len : Z) : bool :=
  (DNS_PACKET_SIZE <=? len) && (dst_port t =? ntohs 53).

Section fwd.
Context (sys : nat -> Z * list Z).
Local Abbreviation sysint := (sysint sys).
Local Abbreviation send_to_client := (send_to_client sys).
Local Abbreviation zdtun_conn_close := (zdtun_conn_close sys).
Local Abbreviation close_with_socket_error := (close_with_socket_error sys).

(** [check_dns_request]: the flags are tested as loaded, without [ntohs]. *)
Definition check_dns_request (id : Z) (mem : list Z) (off len : Z) : M zdtun_t unit :=
  c ← conn id;
  if negb (is_dns_packet (c_tuple c) len) then mret tt else
  flags ← liftO (rd16 mem (off + 2));
  whenM ((flags .& DNS_FLAGS_MASK) =? DNS_TYPE_REQUEST)
    (set_conn id (fun c => c <| pending_queries ::= fun n => u8 (n + 1) |>)).

Definition check_dns_purge (id : Z) (off len : Z) : M zdtun_t Z :=
  c ← conn id;
  if negb (is_dns_packet (c_tuple c) len) then mret 1 else
  t ← getS;
  flags ← liftO (rd16 (reply_buf t) (off + 2));
  if ((flags .& DNS_FLAGS_MASK) =? DNS_TYPE_RESPONSE) && (0 <? pending_queries c) then
    set_conn id (fun c => c <| pending_queries ::= fun n => u8 (n - 1) |>) ;;
    c ← conn id;
    if pending_queries c =? 0 then zdtun_conn_close id CONN_STATUS_CLOSED ;; mret 0
    else mret 1
  else mret 1.

(** ** UDP *)

(** [getaddrinfo] and the validity of what it returned. *)
Definition fill_ipv6_bind_addr : M zdtun_t Z :=
  r ← sysint;
  if r <? 0 then mret (-1) else
  ok ← sysint; mret (if ok =? 0 then -1 else 0).

Definition bind_and_connect_udp (id : Z) : M zdtun_t Z :=
  c ← conn id;
  ver ← conn_ipver c;
  r ← (if ver =? 6 then fill_ipv6_bind_addr else mret 0);
  if r <? 0 then zdtun_conn_close id CONN_STATUS_ERROR ;; mret (-1) else
  let key := udp_mapping_key (c_tuple c) in
  t ← getS;
  let mapping := HASH_FIND key (udp_mappings t) in
  r ← sysint;                                     (* setsockopt SO_REUSEADDR *)
  if r <? 0 then errno ← sysint; close_with_socket_error id errno ;; mret (-1) else
  r ← sysint;                                     (* bind, to [mapping->port] if any *)
  if r =? -1 then errno ← sysint; close_with_socket_error id errno ;; mret (-1) else
  r ← sysint;                                     (* connect *)
  if r =? -1 then errno ← sysint; close_with_socket_error id errno ;; mret (-1) else
  match mapping with
  | None =>
      r ← sysint;                                 (* getsockname *)
      if r <? 0 then errno ← sysint; close_with_socket_error id errno ;; mret (-1) else
      port ← sysint;
      modifyS (fun t => t <| udp_mappings ::= HASH_ADD key (UdpMapping (u16 port) 1) |>) ;;
      mret 0
  | Some m =>
      whenM (num_uses m <? 0xFFFF)
        (modifyS (fun t => t <| udp_mappings ::=
          HASH_SET key (UdpMapping (um_port m) (num_uses m + 1)) |>)) ;;
      mret 0
  end.

(** The socket options of broadcast and multicast destinations: calls whose
  outcome is only logged. *)
Definition udp_multicast (ver : Z) (c : zdtun_conn) : M zdtun_t unit :=
  if ver =? 4 then
    whenM (ip4 (dst_ip (c_tuple c)) =? INADDR_BROADCAST) (sysint ;; mret tt)
  else
    b ← liftO (rd8 (ip_bytes (dst_ip (c_tuple c))) 0);
    whenM (b =? 0xFF) (sysint ;; sysint ;; sysint ;; mret tt).

Definition udp_fwd_new (id : Z) : M zdtun_t Z :=
  c ← conn id;
  ver ← conn_ipver c;
  udp_sock ← open_socket sys IPPROTO_UDP;
  if udp_sock =? INVALID_SOCKET then mret (-1) else
  set_conn id (fun c => c <| sock := udp_sock |>) ;;
  udp_multicast ver c ;;
  r ← bind_and_connect_udp id;
  if r <? 0 then mret (-1) else
  set_conn id (fun c => c <| status := CONN_STATUS_CONNECTED |>) ;; mret 0.

Definition handle_udp_fwd (id : Z) (p : zdtun_pkt) : M zdtun_t Z :=
  c ← conn id;
  conn_ipver c ;;
  r ← (if bool_decide (status c = CONN_STATUS_NEW) then udp_fwd_new id else mret 0);
  if r <? 0 then mret (-1) else
  account_in id p ;;
  c ← conn id;
  data ← liftO (rdn (Z.to_nat (pkt_l7_len p)) (pkt_mem p) (pkt_l7 p));
  rv ← sock_send sys (sock c) data;
  if rv <? 0 then errno ← sysint; close_with_socket_error id errno ;; mret 0 else
  check_dns_request id (pkt_mem p) (pkt_l7 p) (pkt_l7_len p) ;;
  mret 0.

Definition udphdr_bytes (t : zdtun_5tuple) (l3_len sum : Z) : list Z :=
  le_bytes 2 (dst_port t) ++ le_bytes 2 (src_port t) ++
  le_bytes 2 (htons (u16 l3_len)) ++ le_bytes 2 sum.

Definition handle_udp_reply (id : Z) : M zdtun_t Z :=
  c ← conn id;
  ver ← conn_ipver c;
  let iphdr_len := zdtun_iphdr_len ver in
  l4_len ← sock_recv sys (iphdr_len + UDP_HEADER_LEN) (REPLY_BUF_SIZE - iphdr_len - UDP_HEADER_LEN);
  if l4_len =? -1 then errno ← sysint; close_with_socket_error id errno ;; mret (-1) else
  let l3_len := l4_len + UDP_HEADER_LEN in
  t ← getS;
  buf ← liftO (wrn iphdr_len (udphdr_bytes (c_tuple c) l3_len 0) (reply_buf t));
  buf ← liftO (zdtun_make_iphdr ver (c_tuple c) (u16 l3_len) buf);
  sum ← liftO (if ver =? 4 then Some 0
               else zdtun_l3_checksum ver (ipproto (c_tuple c)) buf iphdr_len (u16 l3_len));
  buf ← liftO (wrn (iphdr_len + 6) (le_bytes 2 sum) buf);
  putS (t <| reply_buf := buf |>) ;;
  rv ← send_to_client id l3_len;
  whenM (rv =? 0)
    (now ← zdtun_now sys;
     set_conn id (fun c => c <| tstamp := now |>) ;;
     check_dns_purge id (iphdr_len + UDP_HEADER_LEN) (u16 l4_len) ;; mret tt) ;;
  mret rv.

(** ** ICMP *)

Definition handle_icmp_fwd (id : Z) (p : zdtun_pkt) : M zdtun_t Z :=
  let icmp_len := u16 (pkt_l4_hdr_len p + pkt_l7_len p) in
  c ← conn id;
  r ← (if bool_decide (status c = CONN_STATUS_NEW) then
         ver ← conn_ipver c;
         icmp_sock ← open_socket sys (if ver =? 4 then IPPROTO_ICMP else IPPROTO_ICMPV6);
         echo_id ← liftO (rd16 (pkt_mem p) (pkt_ip_hdr_len p + 4));
         if icmp_sock =? INVALID_SOCKET then
           set_conn id (fun c => c <| status := CONN_STATUS_SOCKET_ERROR |>) ;; emit (EvNoSocket id) ;; mret (-1)
         else
           set_conn id (fun c => c <| sock := icmp_sock |> <| status := CONN_STATUS_CONNECTED |>
             <| c_tuple ::= fun t => Tuple (src_ip t) (dst_ip t) echo_id (dst_port t)
                                       (ipver t) (ipproto t) |>) ;;
           c ← conn id; emit (EvTuple id (c_tuple c)) ;; mret 0
       else mret 0);
  if r <? 0 then mret (-1) else
  account_in id p ;;
  c ← conn id;
  conn_ipver c ;;
  data ← liftO (rdn (Z.to_nat icmp_len) (pkt_mem p) (pkt_ip_hdr_len p));
  rv ← sock_send sys (sock c) data;
  if rv <? 0 then errno ← sysint; close_with_socket_error id errno ;; mret (-1) else mret 0.

Definition icmp_echo_type (ty : Z) : bool :=
  (ty =? ICMP_ECHO) || (ty =? ICMP_ECHOREPLY) || (ty =? ICMPv6_ECHO) || (ty =? ICMPv6_ECHOREPLY).

Definition handle_icmp_reply (id : Z) : M zdtun_t Z :=
  c ← conn id;
  ver ← conn_ipver c;
  let off := zdtun_iphdr_len ver in
  icmp_len ← sock_recv sys off (REPLY_BUF_SIZE - off);
  if icmp_len =? -1 then errno ← sysint; close_with_socket_error id errno ;; mret (-1) else
  if icmp_len <? 8 then zdtun_conn_close id CONN_STATUS_ERROR ;; mret (-1) else
  t ← getS;
  ty ← liftO (rd8 (reply_buf t) off);
  if negb (icmp_echo_type ty) then zdtun_conn_close id CONN_STATUS_ERROR ;; mret 0 else
  buf ← liftO (wrn (off + 4) (le_bytes 2 (src_port (c_tuple c))) (reply_buf t));
  now ← zdtun_now sys;
  set_conn id (fun c => c <| tstamp := now |>) ;;
  buf ← liftO (wrn (off + 2) (le_bytes 2 0) buf);
  data ← liftO (rdn (Z.to_nat icmp_len) buf off);
  buf ← liftO (if ver =? 4
               then wrn (off + 2) (le_bytes 2 (ulnot 16 (calc_checksum 0 data))) buf
               else Some buf);
  buf ← liftO (zdtun_make_iphdr ver (c_tuple c) (u16 icmp_len) buf);
  buf ← (if ver =? 6 then
           sum ← liftO (zdtun_l3_checksum ver (ipproto (c_tuple c)) buf off (u16 icmp_len));
           liftO (wrn (off + 2) (le_bytes 2 sum) buf)
         else mret buf);
  modifyS (fun t => t <| reply_buf := buf |>) ;;
  send_to_client id icmp_len.

(** ** Entry points *)

Definition zdtun_forward (p : zdtun_pkt) (id : Z) : M zdtun_t Z :=
  c ← conn id;
  if is_closed (status c) then mret 0 else
  let proto := ipproto (pkt_tuple p) in
  if negb ((proto =? IPPROTO_TCP) || (proto =? IPPROTO_UDP) || (proto =? IPPROTO_ICMP))
  then mret (-2) else
  rv ← (if proto =? IPPROTO_TCP then handle_tcp_fwd sys id p
        else if proto =? IPPROTO_UDP then handle_udp_fwd id p
        else handle_icmp_fwd id p);
  whenM (rv =? 0)
    (now ← zdtun_now sys; set_conn id (fun c => c <| tstamp := now |>)) ;;
  mret rv.

(** [zdtun_easy_forward]; [None] is a NULL result. *)
Definition zdtun_easy_forward (buf : list Z) (len : Z) : M zdtun_t (option Z) :=
  t ← getS;
  r ← liftO (zdtun_parse_pkt buf (u16 len) (id2ports t));
  putS (t <| id2ports := snd r |>) ;;
  match fst r with
  | inl _ => mret None
  | inr p =>
      if pkt_is_fragment p then mret None else
      established ← (if ipproto (pkt_tuple p) =? IPPROTO_TCP then
                       flags ← liftO (tcp_th_flags p);
                       mret (negb (has_flag flags TH_SYN) || has_flag flags TH_ACK)
                     else mret false);
      found ← zdtun_lookup sys (pkt_tuple p) (negb established);
      match found with
      | None => mret None
      | Some id =>
          rv ← zdtun_forward p id;
          if negb (rv =? 0) then zdtun_conn_close id CONN_STATUS_ERROR ;; mret None
          else mret (Some id)
      end
  end.

(** One connection of the loop of [zdtun_handle_fd]. *)
Definition handle_conn_fd (rd_fds wr_fds : gset Z) (id : Z) (rv : Z) : M zdtun_t Z :=
  c ← conn id;
  let proto := ipproto (c_tuple c) in
  if sock c =? INVALID_SOCKET then mret rv
  else if bool_decide (sock c ∈ rd_fds) then
    if proto =? IPPROTO_TCP then handle_tcp_reply sys id
    else if proto =? IPPROTO_UDP then handle_udp_reply id
    else if proto =? IPPROTO_ICMP then handle_icmp_reply id
    else mret rv
  else if bool_decide (sock c ∈ wr_fds) then
    if proto =? IPPROTO_TCP then
      match tx_queue c with
      | [] => handle_tcp_connect_async sys id
      | _ => handle_queued_tcp_data sys id
      end
    else mret rv
  else mret rv.

(** [HASH_ITER] with an early exit; the skipped connections [continue]. *)
Fixpoint handle_fd_loop (rd_fds wr_fds : gset Z) (ids : list Z) (rv : Z) : M zdtun_t Z :=
  match ids with
  | [] => mret rv
  | id :: ids' =>
      rv ← handle_conn_fd rd_fds wr_fds id rv;
      if negb (rv =? 0) then mret rv else handle_fd_loop rd_fds wr_fds ids' rv
  end.

Definition zdtun_handle_fd (rd_fds wr_fds : gset Z) : M zdtun_t Z :=
  t ← getS; handle_fd_loop rd_fds wr_fds (snd <$> conn_table t) 0.
End fwd.

End ZdtunFwd.
