(* ===== verification/ZdtunInv.v ===== *)
(** * The invariant of zdtun and its preservation by the state primitives

    [inv]: buffers and tables are well formed, every entry of the connection
    table points to a live object, no object is leaked, each connection is
    consistent and the statistics agree with the connections.  [touches]: an
    operation on one connection leaves the others, and the table, alone. *)

From S2P Require Import Prelude UtHash ZdtunTypes ZdtunConn ZdtunPkt ZdtunWire ZdtunState.
Import ZdtunPkt ZdtunWire ZdtunState.

Module ZdtunInv.

(** ** Counting the connections with a property *)

Definition mcount (P : zdtun_conn -> bool) (h : gmap Z zdtun_conn) : Z :=
  Z.of_nat (size (filter (fun e => P e.2 = true) h)).
Definition b2z (b : bool) : Z := if b then 1 else 0.

Lemma mcount_nonneg P h : 0 <= mcount P h.
Proof. unfold mcount. lia. Qed.

Lemma mcount_empty P : mcount P ∅ = 0.
Proof. done. Qed.

Lemma mcount_insert_new P h id c :
  h !! id = None -> mcount P (<[id := c]> h) = mcount P h + b2z (P c).
Proof.
  intros Hn. unfold mcount, b2z. destruct (P c) eqn:E.
  - rewrite map_filter_insert_True by done. rewrite map_size_insert_None; [lia|].
    apply map_lookup_filter_None. by left.
  - rewrite map_filter_insert_False by (simpl; congruence).
    rewrite delete_id by done. lia.
Qed.

Lemma mcount_delete P h id c :
  h !! id = Some c -> mcount P (delete id h) = mcount P h - b2z (P c).
Proof.
  intros Hc. rewrite <-(insert_delete_id h id c) at 2 by done.
  rewrite mcount_insert_new by apply lookup_delete_eq. lia.
Qed.

Lemma mcount_update P h id c c' :
  h !! id = Some c -> mcount P (<[id := c']> h) = mcount P h - b2z (P c) + b2z (P c').
Proof.
  intros Hc. rewrite <-insert_delete_eq, mcount_insert_new by apply lookup_delete_eq.
  by rewrite (mcount_delete _ _ _ c).
Qed.

Definition has_sock (c : zdtun_conn) : bool := negb (sock c =? INVALID_SOCKET).
Definition has_proto (proto : Z) (c : zdtun_conn) : bool := ipproto (c_tuple c) =? proto.

(** ** Consistency of one connection *)

Definition tcp_data_ok (d : tcp_data) : Prop :=
  td_len d = Z.of_nat (length (td_data d)) /\ 0 <= td_sofar d <= td_len d /\
  td_len d <= 65535 /\ bytes_ok (td_data d).

Record conn_ok (c : zdtun_conn) : Prop := {
    ok_tuple : tuple_ok (c_tuple c);
    ok_proxy : conn_proxy_ok c;
    ok_sock : sock c = INVALID_SOCKET \/ fd_ok (sock c) = true;
    ok_scale : 0 <= window_scale c <= 15;
    ok_mss : mss c <= REPLY_BUF_SIZE - 60;
    ok_queue : Forall tcp_data_ok (tx_queue c);
    ok_closed : is_closed (status c) = true -> sock c = INVALID_SOCKET;
  }.

(** What is sent to the client was parsed in the reply buffer. *)
Definition reply_parsed (p : zdtun_pkt) : Prop :=
  exists n, pkt_wf p n /\ bytes_ok (pkt_mem p) /\ Z.of_nat (length (pkt_mem p)) = REPLY_BUF_SIZE.
Definition event_fine (e : event) : Prop :=
  match e with
  | EvSendClient _ p _ => reply_parsed p
  | EvConnOpen _ tuple _ | EvTuple _ tuple => tuple_ok tuple
  | _ => True
  end.

(** [bal] is the number of sockets opened and not yet stored in a connection. *)
Record inv (bal : Z) (t : zdtun_t) : Prop := {
    inv_buf : Z.of_nat (length (reply_buf t)) = REPLY_BUF_SIZE /\ bytes_ok (reply_buf t);
    inv_frag : frag_table_ok (id2ports t);
    inv_mtu : 60 <= mtu t <= REPLY_BUF_SIZE - 20;
    inv_pass : is_Some (socks5_user t) -> is_Some (socks5_pass t);
    inv_conns : map_Forall (fun _ c => conn_ok c) (heap t);
    inv_nodup : NoDup (snd <$> conn_table t);
    inv_live : forall id, id ∈ (snd <$> conn_table t) <-> is_Some (heap t !! id);
    inv_next : map_Forall (fun id _ => id < next_ptr t) (heap t);
    inv_open : num_open_sockets (stats t) = mcount has_sock (heap t) + bal;
    inv_max : num_open_sockets (stats t) <= MAX_NUM_SOCKETS;
    inv_tcp : num_tcp_conn (stats t) = u16 (mcount (has_proto IPPROTO_TCP) (heap t));
    inv_udp : num_udp_conn (stats t) = u16 (mcount (has_proto IPPROTO_UDP) (heap t));
    inv_icmp : num_icmp_conn (stats t) = u16 (mcount (has_proto IPPROTO_ICMP) (heap t));
    inv_events : Forall event_fine (trace t);
  }.

(** What an operation on connection [id] may change. *)
Definition touches (id : Z) (t t' : zdtun_t) : Prop :=
  exists c c', heap t !! id = Some c /\ heap t' = <[id := c']> (heap t) /\
    conn_table t' = conn_table t /\ next_ptr t' = next_ptr t /\ socks5 t' = socks5 t /\
    ipproto (c_tuple c') = ipproto (c_tuple c) /\
    (is_closed (status c) = true -> status c' = status c) /\
    (status c <> CONN_STATUS_NEW -> status c' <> CONN_STATUS_NEW).

Lemma touches_refl id t : is_Some (heap t !! id) -> touches id t t.
Proof.
  intros [c Hc]. exists c, c. split_and!; try done. by rewrite insert_id.
Qed.

Lemma touches_trans id t1 t2 t3 : touches id t1 t2 -> touches id t2 t3 -> touches id t1 t3.
Proof.
  intros (c1 & c1' & H1 & Hh1 & Ht1 & Hn1 & Hx1 & Hp1 & Hc1 & Hw1)
    (c2 & c2' & H2 & Hh2 & Ht2 & Hn2 & Hx2 & Hp2 & Hc2 & Hw2).
  rewrite Hh1, lookup_insert_eq in H2. injection H2 as E. subst c2.
  exists c1, c2'. split; [done|]. rewrite Hh2, Hh1, insert_insert_eq.
  split_and!; try congruence; [|auto].
  intros Hcl. specialize (Hc1 Hcl). rewrite Hc2; congruence.
Qed.

Lemma touches_live id t t' : touches id t t' -> is_Some (heap t' !! id).
Proof. intros (c & c' & _ & -> & _). by rewrite lookup_insert_eq. Qed.
Lemma touches_lookup_ne id id' t t' :
  touches id t t' -> id' <> id -> heap t' !! id' = heap t !! id'.
Proof. intros (c & c' & _ & -> & _) Hne. by rewrite lookup_insert_ne. Qed.

(** How often [on_connection_close] was called for a connection. *)
Definition is_close (id : Z) (e : event) : bool :=
  match e with EvConnClose i _ => i =? id | _ => false end.
Definition closes (id : Z) (t : zdtun_t) : Z :=
  Z.of_nat (length (filter (fun e => is_close id e = true) (trace t))).

Lemma closes_emit id e t :
  closes id (t <| trace ::= cons e |>) = b2z (is_close id e) + closes id t.
Proof.
  unfold closes, b2z. cbn [trace set_field eta zdtun_t_eta].
  destruct (is_close id e) eqn:E.
  - rewrite filter_cons_True by done. simpl. lia.
  - rewrite filter_cons_False by congruence. lia.
Qed.

(** Operations that touch no connection and close none. *)
Record quiet (t t' : zdtun_t) : Prop := {
    q_heap : heap t' = heap t;
    q_table : conn_table t' = conn_table t;
    q_next : next_ptr t' = next_ptr t;
    q_socks5 : socks5 t' = socks5 t;
    q_closes : forall id, closes id t' = closes id t;
  }.

Lemma quiet_refl t : quiet t t.
Proof. by split. Qed.
Lemma quiet_trans t1 t2 t3 : quiet t1 t2 -> quiet t2 t3 -> quiet t1 t3.
Proof. intros [] []. split; intros; etrans; eauto. Qed.

Lemma quiet_touches id t t' : quiet t t' -> is_Some (heap t !! id) -> touches id t t'.
Proof.
  intros [Hh Ht Hn Hx _] Hid. destruct (touches_refl id t Hid) as (c & c' & H).
  exists c, c'. by rewrite Hh, Ht, Hn, Hx.
Qed.

(** ** Preservation by field updates *)

(** Everything but the connections and what [inv] says about them is free. *)
Lemma inv_same bal t t' :
  inv bal t -> heap t' = heap t -> conn_table t' = conn_table t -> next_ptr t' = next_ptr t ->
  reply_buf t' = reply_buf t -> id2ports t' = id2ports t -> mtu t' = mtu t ->
  socks5_user t' = socks5_user t -> socks5_pass t' = socks5_pass t ->
  num_open_sockets (stats t') = num_open_sockets (stats t) ->
  num_tcp_conn (stats t') = num_tcp_conn (stats t) ->
  num_udp_conn (stats t') = num_udp_conn (stats t) ->
  num_icmp_conn (stats t') = num_icmp_conn (stats t) ->
  (Forall event_fine (trace t) -> Forall event_fine (trace t')) ->
  inv bal t'.
Proof. intros [] Hh Ht Hn Hb Hi Hm Hu Hp Ho H1 H2 H3 He.
  split; try (by apply He); rewrite ?Hh, ?Ht, ?Hn, ?Hb, ?Hi, ?Hm, ?Hu, ?Hp, ?Ho, ?H1, ?H2, ?H3; done. Qed.

Lemma inv_set_buf bal t buf :
  inv bal t -> Z.of_nat (length buf) = REPLY_BUF_SIZE -> bytes_ok buf ->
  inv bal (t <| reply_buf := buf |>).
Proof. intros [] Hl Hb. split; try done. Qed.

Lemma inv_set_frag bal t f :
  inv bal t -> frag_table_ok f -> inv bal (t <| id2ports := f |>).
Proof. intros [] Hf. by split. Qed.

(** Replacing a connection by one with the same protocol; the balance follows
    the presence of a socket. *)
Lemma inv_update bal t id c c' :
  inv bal t -> heap t !! id = Some c -> conn_ok c' ->
  ipproto (c_tuple c') = ipproto (c_tuple c) ->
  inv (bal + b2z (has_sock c) - b2z (has_sock c')) (t <| heap := <[id := c']> (heap t) |>).
Proof.
  intros [] Hc Hok Hp.
  assert (Hcnt : forall proto, mcount (has_proto proto) (<[id := c']> (heap t)) =
                               mcount (has_proto proto) (heap t)).
  { intros proto. rewrite (mcount_update _ _ _ c) by done. unfold has_proto. rewrite Hp. lia. }
  split; try done; simpl.
  - by apply map_Forall_insert_2.
  - intros i. rewrite inv_live0, lookup_insert_is_Some'. split; [by right|].
    intros [<-|?]; [by eexists|done].
  - apply map_Forall_insert_2; [by apply (inv_next0 id c)|done].
  - rewrite (mcount_update _ _ _ c) by done. lia.
  - by rewrite Hcnt.
  - by rewrite Hcnt.
  - by rewrite Hcnt.
Qed.

Lemma inv_update_same bal t id c c' :
  inv bal t -> heap t !! id = Some c -> conn_ok c' ->
  ipproto (c_tuple c') = ipproto (c_tuple c) -> sock c' = sock c ->
  inv bal (t <| heap := <[id := c']> (heap t) |>).
Proof.
  intros Hi Hc Hok Hp Hs. pose proof (inv_update _ _ _ _ _ Hi Hc Hok Hp) as H.
  unfold has_sock in H. rewrite Hs in H.
  by replace (bal + _ - _) with bal in H by lia.
Qed.

Lemma inv_conn bal t id c : inv bal t -> heap t !! id = Some c -> conn_ok c.
Proof. intros Hi Hc. by apply (inv_conns _ _ Hi id c). Qed.

(** Live objects without a socket to their name leave room in the count. *)
Lemma inv_open_pos bal t id c :
  inv bal t -> 0 <= bal -> heap t !! id = Some c -> sock c <> INVALID_SOCKET ->
  1 <= num_open_sockets (stats t) <= 128.
Proof.
  intros Hi Hb Hc Hs. pose proof (inv_open _ _ Hi). pose proof (inv_max _ _ Hi).
  unfold MAX_NUM_SOCKETS in *.
  pose proof (mcount_delete has_sock (heap t) id c Hc) as Hd.
  pose proof (mcount_nonneg has_sock (delete id (heap t))).
  unfold has_sock in Hd at 3. rewrite (proj2 (Z.eqb_neq _ _)) in Hd by done. simpl in Hd. lia.
Qed.

Lemma table_remove_spec id (l : list (zdtun_5tuple * Z)) i :
  i ∈ (snd <$> table_remove id l) <-> i ∈ (snd <$> l) /\ i <> id.
Proof.
  unfold table_remove. rewrite !list_elem_of_fmap. split.
  - intros (e & -> & [Hne He]%list_elem_of_filter). eauto.
  - intros [(e & -> & He) Hne]. exists e. by rewrite list_elem_of_filter.
Qed.

Lemma table_remove_nodup id (l : list (zdtun_5tuple * Z)) :
  NoDup (snd <$> l) -> NoDup (snd <$> table_remove id l).
Proof.
  unfold table_remove. induction l as [|e l IH]; [done|]. intros [Hn Hd]%NoDup_cons.
  rewrite filter_cons. case_decide; [|by apply IH]. apply NoDup_cons. split; [|by apply IH].
  contradict Hn. by apply (table_remove_spec id l) in Hn as [? _].
Qed.

Lemma inv_delete t id c :
  inv 0 t -> heap t !! id = Some c -> sock c = INVALID_SOCKET ->
  inv 0 (t <| stats ::= count_conn (ipproto (c_tuple c)) (-1) |>
           <| conn_table ::= table_remove id |> <| heap ::= delete id |>).
Proof.
  intros [] Hc Hs.
  assert (Hcnt : forall proto, mcount (has_proto proto) (delete id (heap t)) =
    mcount (has_proto proto) (heap t) - b2z (has_proto proto c)) by (intros; by apply mcount_delete).
  assert (Hsk : mcount has_sock (delete id (heap t)) = mcount has_sock (heap t)).
  { rewrite (mcount_delete _ _ _ c) by done. unfold has_sock. rewrite Hs. simpl. lia. }
  split; try done; simpl.
  - by apply map_Forall_delete.
  - by apply table_remove_nodup.
  - intros i. rewrite table_remove_spec, inv_live0, lookup_delete_is_Some.
    split; intros [? ?]; split; done || congruence.
  - by apply map_Forall_delete.
  - unfold count_conn. repeat case_match; simpl; lia.
  - unfold count_conn. repeat case_match; simpl; lia.
  - rewrite Hcnt. unfold count_conn, has_proto, b2z, IPPROTO_TCP, IPPROTO_UDP, IPPROTO_ICMP in *.
    repeat case_match; simpl; rewrite ?inv_tcp0, ?uwrap_add_l; f_equal; lia.
  - rewrite Hcnt. unfold count_conn, has_proto, b2z, IPPROTO_TCP, IPPROTO_UDP, IPPROTO_ICMP in *.
    repeat case_match; simpl; rewrite ?inv_udp0, ?uwrap_add_l; f_equal; lia.
  - rewrite Hcnt. unfold count_conn, has_proto, b2z, IPPROTO_TCP, IPPROTO_UDP, IPPROTO_ICMP in *.
    repeat case_match; simpl; rewrite ?inv_icmp0, ?uwrap_add_l; f_equal; lia.
Qed.

(** Adding the connection [zdtun_lookup] makes for a tuple. *)
Lemma inv_add t tuple now :
  inv 0 t -> tuple_ok tuple ->
  let id := next_ptr t in
  inv 0 (t <| next_ptr ::= Z.succ |> <| heap ::= <[id := zdtun_conn_new tuple now]> |>
           <| conn_table ::= fun l => l ++ [(tuple, id)] |>
           <| stats ::= count_conn (ipproto tuple) 1 |>) /\ heap t !! id = None.
Proof.
  intros [] Ht id.
  assert (Hn : heap t !! id = None).
  { destruct (heap t !! id) eqn:E; [|done]. apply (inv_next0 id) in E. unfold id in E. lia. }
  split; [|done].
  assert (Hcnt : forall proto, mcount (has_proto proto) (<[id := zdtun_conn_new tuple now]> (heap t)) =
    mcount (has_proto proto) (heap t) + b2z (ipproto tuple =? proto))
    by (intros; by rewrite mcount_insert_new).
  assert (Hsk : mcount has_sock (<[id := zdtun_conn_new tuple now]> (heap t)) = mcount has_sock (heap t))
    by (rewrite mcount_insert_new by done; simpl; lia).
  split; try done; simpl.
  - apply map_Forall_insert_2; [|done].
    split; [done|intros [=]|by left|simpl; lia|by vm_compute|constructor|done].
  - rewrite fmap_app. apply NoDup_app. split; [done|]. split; [|by apply NoDup_singleton].
    intros i Hi Heq. simpl in Heq. apply list_elem_of_singleton in Heq. subst i.
    apply inv_live0 in Hi. fold id in Hi. rewrite Hn in Hi. by destruct Hi.
  - intros i. rewrite fmap_app, elem_of_app, inv_live0, lookup_insert_is_Some'. simpl.
    rewrite list_elem_of_singleton. split; intros [?|?]; auto.
  - apply map_Forall_insert_2; [unfold id; lia|].
    eapply map_Forall_impl; [done|]. simpl. intros; lia.
  - unfold count_conn. repeat case_match; simpl; lia.
  - unfold count_conn. repeat case_match; simpl; lia.
  - rewrite Hcnt. unfold count_conn, b2z, IPPROTO_TCP, IPPROTO_UDP, IPPROTO_ICMP in *.
    repeat case_match; simpl; rewrite ?inv_tcp0, ?uwrap_add_l; f_equal; lia.
  - rewrite Hcnt. unfold count_conn, b2z, IPPROTO_TCP, IPPROTO_UDP, IPPROTO_ICMP in *.
    repeat case_match; simpl; rewrite ?inv_udp0, ?uwrap_add_l; f_equal; lia.
  - rewrite Hcnt. unfold count_conn, b2z, IPPROTO_TCP, IPPROTO_UDP, IPPROTO_ICMP in *.
    repeat case_match; simpl; rewrite ?inv_icmp0, ?uwrap_add_l; f_equal; lia.
Qed.

Lemma inv_init : inv 0 zdtun_init.
Proof.
  split; try apply reply_buf_init_ok; try done.
  - constructor.
  - intros id. cbn. rewrite lookup_empty. split; [by intros ?%elem_of_nil|by intros [? ?]].
Qed.

Section prims.
Context (sys : nat -> Z * list Z).

Lemma wp_syscall (Q : Z * list Z -> zdtun_t -> Prop) t :
  (forall r, Q r (t <| calls := S (calls t) |>)) -> wp (syscall sys) Q t.
Proof. intros H. unfold syscall. wp_run. apply H. Qed.

Lemma wp_sysint (Q : Z -> zdtun_t -> Prop) t :
  (forall r, Q r (t <| calls := S (calls t) |>)) -> wp (sysint sys) Q t.
Proof. intros H. unfold sysint. wp_step. apply wp_syscall. intros r. wp_run. apply H. Qed.

Lemma wp_emit e (Q : unit -> zdtun_t -> Prop) t :
  Q tt (t <| trace ::= cons e |>) -> wp (emit e) Q t.
Proof. apply wp_modify. Qed.

Lemma wp_conn id c (Q : zdtun_conn -> zdtun_t -> Prop) t :
  heap t !! id = Some c -> Q c t -> wp (conn id) Q t.
Proof. intros Hc HQ. unfold conn. wp_run. by eapply wp_lift. Qed.

Lemma wp_set_conn id f c (Q : unit -> zdtun_t -> Prop) t :
  heap t !! id = Some c -> Q tt (t <| heap := <[id := f c]> (heap t) |>) ->
  wp (set_conn id f) Q t.
Proof. intros Hc HQ. unfold set_conn. wp_step. eapply wp_conn; [done|]. by apply wp_modify. Qed.

Lemma inv_calls bal t n : inv bal t -> inv bal (t <| calls := n |>).
Proof. intros H. by apply (inv_same bal t). Qed.
Lemma inv_trace bal t e : event_fine e -> inv bal t -> inv bal (t <| trace ::= cons e |>).
Proof. intros He H. apply (inv_same bal t); try done. cbn. by constructor. Qed.

Lemma wp_conn_ipver c (Q : Z -> zdtun_t -> Prop) t :
  conn_proxy_ok c -> (forall ver, sock_ipver (socks5 t) c = Some ver -> Q ver t) ->
  wp (conn_ipver c) Q t.
Proof.
  intros Hp HQ. unfold conn_ipver. wp_run.
  destruct (sock_ipver_is_Some (socks5 t) c Hp) as [ver Hv].
  eapply wp_lift; [done|]. by apply HQ.
Qed.

Lemma wp_now bal (Q : Z -> zdtun_t -> Prop) t :
  inv bal t -> (forall v t', inv bal t' -> quiet t t' -> Q v t') -> wp (zdtun_now sys) Q t.
Proof.
  intros Hi HQ. unfold zdtun_now. wp_step. apply wp_sysint. intros r. wp_step.
  destruct (r =? 0).
  - wp_step. apply wp_sysint. intros v. wp_run. apply HQ; [by apply (inv_same bal t)|done].
  - wp_run. apply HQ; [by apply inv_calls|done].
Qed.

(** ** Sockets *)

Lemma wp_open_socket proto (Q : Z -> zdtun_t -> Prop) t :
  inv 0 t ->
  (forall t', inv 0 t' -> quiet t t' -> Q INVALID_SOCKET t') ->
  (forall s t', inv 1 t' -> quiet t t' -> fd_ok s = true -> Q s t') ->
  wp (open_socket sys proto) Q t.
Proof.
  intros Hi Hbad Hok. unfold open_socket. wp_run. case_match eqn:Emax; [wp_run; by apply Hbad|].
  wp_step. apply wp_sysint. intros s. case_match eqn:Eneg.
  { wp_run. apply Hbad; [by apply inv_calls|done]. }
  case_match eqn:Ebig.
  { wp_step. apply wp_sysint. intros r. wp_run.
    apply Hbad; [by apply inv_calls, inv_calls|done]. }
  assert (Hfd : fd_ok s = true) by (unfold fd_ok, FD_SETSIZE in *; lia).
  unfold upd_stats, FD_SET_all, emit. rewrite Hfd. wp_run.
  pose proof (inv_open _ _ Hi) as Ho. pose proof (mcount_nonneg has_sock (heap t)).
  assert (Hadd : u32 (num_open_sockets (stats t) + 1) = num_open_sockets (stats t) + 1)
    by (apply uwrap_id; unfold u_ok, MAX_NUM_SOCKETS in *; lia).
  assert (Hdone : forall t', heap t' = heap t -> conn_table t' = conn_table t ->
    next_ptr t' = next_ptr t -> socks5 t' = socks5 t -> (forall i, closes i t' = closes i t) ->
    reply_buf t' = reply_buf t -> id2ports t' = id2ports t -> mtu t' = mtu t ->
    socks5_user t' = socks5_user t -> socks5_pass t' = socks5_pass t ->
    num_open_sockets (stats t') = u32 (num_open_sockets (stats t) + 1) ->
    num_tcp_conn (stats t') = num_tcp_conn (stats t) ->
    num_udp_conn (stats t') = num_udp_conn (stats t) ->
    num_icmp_conn (stats t') = num_icmp_conn (stats t) ->
    (Forall event_fine (trace t) -> Forall event_fine (trace t')) -> Q s t').
  { intros t' Hh Ht Hn Hx Hcl Hb Hf Hmt Hu Hp Hos H1 H2 H3 He. apply Hok; [|by split|done].
    destruct Hi. split; try (by apply He); rewrite ?Hh, ?Ht, ?Hn, ?Hb, ?Hf, ?Hmt, ?Hu, ?Hp, ?Hos, ?H1, ?H2, ?H3; try done;
      rewrite Hadd; unfold MAX_NUM_SOCKETS in *; lia. }
  repeat case_match; wp_run; apply Hdone; try done; first [by constructor|intros i; apply (closes_emit i)].
Qed.

(** Closing the socket of a connection and forgetting it. *)
Lemma wp_close_conn_socket id c (Q : unit -> zdtun_t -> Prop) t :
  inv 0 t -> heap t !! id = Some c ->
  (forall t', inv 0 t' -> heap t' = <[id := c <| sock := INVALID_SOCKET |>]> (heap t) ->
    conn_table t' = conn_table t -> next_ptr t' = next_ptr t -> socks5 t' = socks5 t ->
    (forall i, closes i t' = closes i t) -> Q tt t') ->
  wp (close_socket sys (sock c) ;; set_conn id (fun c => c <| sock := INVALID_SOCKET |>)) Q t.
Proof.
  intros Hi Hc HQ. pose proof (inv_conn _ _ _ _ Hi Hc) as Hok.
  assert (Hok' : conn_ok (c <| sock := INVALID_SOCKET |>)) by (destruct Hok; split; auto).
  unfold close_socket. destruct (Z.eqb_spec (sock c) INVALID_SOCKET) as [E|E].
  - wp_step. wp_run. eapply wp_set_conn; [done|]. apply HQ; try done.
    by apply (inv_update_same _ _ _ c).
  - destruct (ok_sock _ Hok) as [|Hfd]; [done|].
    pose proof (inv_open_pos _ _ _ _ Hi (Z.le_refl 0) Hc E) as Hpos.
    unfold FD_CLR_all, FD_CLR_write, upd_stats. rewrite Hfd.
    do 2 wp_step. apply wp_sysint. intros r. wp_step.
    assert (Hfin : forall t', inv 0 t' -> quiet t t' -> stats t' = stats t ->
      Q tt (t' <| all_fds ::= fun s => s ∖ {[sock c]} |> <| write_fds ::= fun s => s ∖ {[sock c]} |>
        <| stats ::= fun s => s <| num_open_sockets ::= fun n => cmax (u32 (n - 1)) 0 |> |>
        <| heap ::= <[id := c <| sock := INVALID_SOCKET |>]> |>)).
    { intros t' Hi' [Hh Ht Hn Hx Hcl] Hst. apply HQ; try done; [|by simpl; rewrite Hh].
      rewrite <-Hh in Hc. pose proof (inv_update _ _ _ _ _ Hi' Hc Hok' eq_refl) as Hu.
      unfold has_sock in Hu. simpl in Hu. rewrite (proj2 (Z.eqb_neq _ _)) in Hu by done.
      simpl in Hu. destruct Hu as [? ? ? ? ? ? ? ? Ho Hm ? ? ?]. split; try done; simpl in *.
      - rewrite Hst in *. rewrite uwrap_id by (unfold u_ok; lia). lia.
      - rewrite Hst in *. rewrite uwrap_id by (unfold u_ok; lia). lia. }
    apply wp_when; intros _; [apply wp_emit|]; wp_run.
    + eapply wp_set_conn; [done|]. apply (Hfin (t <| calls := S (calls t) |> <| trace ::= cons (EvSockClose (sock c)) |>)).
      * by apply inv_trace, inv_calls.
      * by split.
      * done.
    + eapply wp_set_conn; [done|]. apply (Hfin (t <| calls := S (calls t) |>)); [by apply inv_calls|by split|done].
Qed.
End prims.

End ZdtunInv.
