(* ===== verification/ZdtunClose.v ===== *)
(** * Closing connections in zdtun

    The recursion between [zdtun_conn_close] and [send_to_client], what a close
    leaves behind, and the operations on the table of connections. *)

From S2P Require Import Prelude UtHash ZdtunTypes ZdtunConn ZdtunPkt ZdtunWire ZdtunState ZdtunInv.
Import ZdtunPkt ZdtunWire ZdtunState ZdtunInv.

Module ZdtunClose.

Section close.
Context (sys : nat -> Z * list Z).

Lemma wp_build_reply id c flags l4_len optsoff (Q : unit -> zdtun_t -> Prop) t :
  inv 0 t -> heap t !! id = Some c -> u_ok 8 flags -> 0 <= optsoff <= 10 -> 0 <= l4_len ->
  (forall ver, sock_ipver (socks5 t) c = Some ver ->
    zdtun_iphdr_len ver + (l4_len + TCP_HEADER_LEN + optsoff * 4) <= REPLY_BUF_SIZE) ->
  (forall t', inv 0 t' -> quiet t t' -> Q tt t') ->
  wp (build_reply sys id flags l4_len optsoff) Q t.
Proof.
  intros Hi Hc Hf Ho Hl Hfit HQ. pose proof (inv_conn _ _ _ _ Hi Hc) as Hok.
  unfold build_reply. wp_step. eapply wp_conn; [done|]. wp_step.
  apply wp_conn_ipver; [apply Hok|]. intros ver Hver.
  pose proof (ok_scale _ Hok). replace (window_scale c <? 32) with true by lia. cbn [negb].
  wp_step. unfold get_available_sndbuf. wp_step. eapply wp_conn; [done|].
  wp_step. apply wp_sysint. intros r1. wp_step. apply wp_sysint. intros r2. wp_run.
  destruct (inv_buf _ _ Hi) as [Hbl Hb]. unfold REPLY_BUF_SIZE in *. specialize (Hfit _ Hver).
  set (snd := cmax _ _).
  destruct (build_reply_safe ver c flags l4_len optsoff snd (reply_buf t))
    as (buf & E & Hl' & Hb'); [apply Hok|done..|lia|lia|].
  eapply wp_lift; [exact E|]. wp_run. apply HQ; [|by split].
  apply inv_set_buf; [by apply inv_calls, inv_calls|unfold REPLY_BUF_SIZE; lia|done].
Qed.

Lemma wp_parse_reply size (Q : Z + zdtun_pkt -> zdtun_t -> Prop) t :
  inv 0 t -> (forall r t', inv 0 t' -> quiet t t' -> (forall p, r = inr p -> reply_parsed p) -> Q r t') ->
  wp (parse_reply size) Q t.
Proof.
  intros Hi HQ. unfold parse_reply. wp_run. destruct (inv_buf _ _ Hi) as [Hbl Hb].
  assert (Hs : u_ok 16 (u16 size)) by (apply uwrap_ok; lia).
  assert (Hl : 0 <= u16 size <= Z.of_nat (length (reply_buf t)))
    by (unfold u_ok, REPLY_BUF_SIZE in *; lia).
  destruct (zdtun_parse_pkt_run _ _ Hb Hl (id2ports t) Hs (inv_frag _ _ Hi)) as (r & f & E & Hf & Hp).
  eapply wp_lift; [exact E|]. wp_run. apply HQ; [by apply inv_set_frag|by split|].
  cbn [fst]. intros p ->. destruct Hp as [Hwf Hmem]. eexists. split; [exact Hwf|]. by rewrite Hmem.
Qed.

(** [send_to_client]: a result of 0 means that nothing but the packet went
  out; otherwise the connection has been closed by [close]. *)
Lemma wp_send_to_client_with close id c l3_len (Q : Z -> zdtun_t -> Prop) t :
  inv 0 t -> heap t !! id = Some c ->
  (forall t' c', inv 0 t' -> quiet t t' \/
     (ipproto (c_tuple c) = IPPROTO_TCP /\ c' = c <| fin_ack_sent := true |> /\
      exists t0, quiet t t0 /\ t' = t0 <| heap ::= <[id := c']> |>) ->
     heap t' !! id = Some c' -> (ipproto (c_tuple c) = IPPROTO_TCP -> fin_ack_sent c' = true) ->
     wp (close id CONN_STATUS_CLIENT_ERROR) (fun _ t'' => forall rv, rv <> 0 -> Q rv t'') t') ->
  (forall rv t', inv 0 t' -> quiet t t' -> Q rv t') ->
  wp (send_to_client_with sys close id l3_len) Q t.
Proof.
  intros Hi Hc Hclose HQ. pose proof (inv_conn _ _ _ _ Hi Hc) as Hok.
  unfold send_to_client_with. wp_step. eapply wp_conn; [done|]. wp_step.
  apply wp_conn_ipver; [apply Hok|]. intros ver Hver. wp_step.
  apply wp_parse_reply; [done|]. intros [e|p] t1 Hi1 Hq1 Hp1; [wp_run; by apply HQ|].
  wp_step. apply wp_sysint. intros rv. wp_step. apply wp_emit.
  set (t2 := t1 <| calls := S (calls t1) |> <| trace ::= cons (EvSendClient id p rv) |>).
  assert (Hi2 : inv 0 t2) by (apply inv_trace; [by apply Hp1|by apply inv_calls]).
  assert (Hq2 : quiet t t2) by (destruct Hq1; by split).
  assert (Hc2 : heap t2 !! id = Some c) by (by rewrite (q_heap _ _ Hq2)).
  destruct (Z.eqb_spec rv 0) as [->|Hrv].
  - wp_step. wp_step. eapply wp_conn; [exact Hc2|]. apply wp_emit. wp_run.
    apply HQ; [by apply inv_trace|]. destruct Hq2. split; try done.
  - wp_step. wp_step. eapply wp_conn; [done|]. wp_step.
    apply wp_when; intros Hp.
    + eapply wp_set_conn; [done|].
      eapply wp_mono; [eapply Hclose|].
      * eapply (inv_update_same 0 t2 id c); try done. by destruct Hok; split.
      * right. split; [by apply Z.eqb_eq|]. split; [done|]. by exists t2.
      * simpl. by rewrite lookup_insert_eq.
      * done.
      * intros [] t' H'. apply wp_ret. by apply H'.
    + wp_run. eapply wp_mono; [eapply (Hclose t2 c)|]; try done; [by left| |].
      * intros E. by rewrite E in Hp.
      * intros [] t' H'. apply wp_ret. by apply H'.
Qed.

(** ** [zdtun_conn_close] *)

(** What remains of a connection that was open. *)
Definition closed_conn (c : zdtun_conn) (fin : bool) (st : zdtun_conn_status) : zdtun_conn :=
  c <| sock := INVALID_SOCKET |>
    <| tx_queue := if ipproto (c_tuple c) =? IPPROTO_TCP then [] else tx_queue c |>
    <| fin_ack_sent := fin |> <| status := st |>.

Definition final_status (st : zdtun_conn_status) : zdtun_conn_status :=
  if is_closed st then st else CONN_STATUS_CLOSED.

Lemma closed_conn_ok c fin st : conn_ok c -> conn_ok (closed_conn c fin st).
Proof. intros []. unfold closed_conn. split; simpl; try done; [by left|]. by case_match. Qed.

Record close_post (id : Z) (c : zdtun_conn) (st : zdtun_conn_status) (k : Z)
    (t t' : zdtun_t) : Prop := {
  cl_inv : inv 0 t';
  cl_heap : exists fin, heap t' = <[id := closed_conn c fin (final_status st)]> (heap t);
  cl_table : conn_table t' = conn_table t;
  cl_next : next_ptr t' = next_ptr t;
  cl_socks5 : socks5 t' = socks5 t;
  cl_closes : closes id t' = closes id t + k;
  }.

Lemma wp_release_udp c (Q : unit -> zdtun_t -> Prop) t :
  inv 0 t -> (forall t', inv 0 t' -> quiet t t' -> Q tt t') -> wp (release_udp_mapping c) Q t.
Proof.
  intros Hi HQ. unfold release_udp_mapping. wp_run.
  case_match; [|wp_run; by apply HQ]. case_match; wp_run; apply HQ; try (by split);
    by apply (inv_same 0 t).
Qed.

(** The common part of the two levels of the recursion: everything up to the
  RST, then everything after it. *)
Lemma wp_close_begin id c (Q : unit -> zdtun_t -> Prop) t :
  inv 0 t -> heap t !! id = Some c ->
  (forall t', inv 0 t' -> heap t' = <[id := c <| sock := INVALID_SOCKET |>]> (heap t) ->
    conn_table t' = conn_table t -> next_ptr t' = next_ptr t -> socks5 t' = socks5 t ->
    (forall i, closes i t' = closes i t) -> Q tt t') ->
  wp (whenM (ipproto (c_tuple c) =? IPPROTO_UDP) (release_udp_mapping c) ;;
      close_socket sys (sock c) ;;
      set_conn id (fun c => c <| sock := INVALID_SOCKET |>)) Q t.
Proof.
  intros Hi Hc HQ. wp_step.
  assert (H : forall t', inv 0 t' -> quiet t t' ->
    wp (close_socket sys (sock c) ;; set_conn id (fun c => c <| sock := INVALID_SOCKET |>)) Q t').
  { intros t' Hi' [Hh Ht Hn Hx Hcl]. rewrite <-Hh in Hc.
    apply (wp_close_conn_socket sys id c); [done..|]. intros t'' Hi'' E ? ? ? ?.
    rewrite Hh in E. apply HQ; try congruence; try done. }
  apply wp_when; intros _; [apply wp_release_udp; auto|]. apply H; [done|apply quiet_refl].
Qed.

Lemma wp_close_end id c st (Q : unit -> zdtun_t -> Prop) t :
  inv 0 t -> heap t !! id = Some c -> sock c = INVALID_SOCKET ->
  (forall t' fin, inv 0 t' ->
    heap t' = <[id := closed_conn c fin (final_status st)]> (heap t) ->
    conn_table t' = conn_table t -> next_ptr t' = next_ptr t -> socks5 t' = socks5 t ->
    closes id t' = closes id t + 1 -> Q tt t') ->
  wp (whenM (ipproto (c_tuple c) =? IPPROTO_TCP) (set_conn id (fun c => c <| tx_queue := [] |>)) ;;
      set_conn id (fun c => c <| status := final_status st |>) ;;
      emit (EvConnClose id (final_status st))) Q t.
Proof.
  intros Hi Hc Hs HQ. pose proof (inv_conn _ _ _ _ Hi Hc) as Hok. wp_step.
  set (c1 := c <| tx_queue := if ipproto (c_tuple c) =? IPPROTO_TCP then [] else tx_queue c |>).
  assert (Hok1 : conn_ok c1).
  { unfold c1. destruct Hok. split; try done. simpl. by case_match. }
  assert (Hok2 : conn_ok (c1 <| status := final_status st |>)) by (destruct Hok1; by split).
  assert (Hfin : forall t1, t1 = t <| heap := <[id := c1]> (heap t) |> ->
    wp (set_conn id (fun c => c <| status := final_status st |>) ;;
        emit (EvConnClose id (final_status st))) Q t1).
  { intros t1 ->. assert (Hi1 : inv 0 (t <| heap := <[id := c1]> (heap t) |>))
      by (by apply (inv_update_same 0 t id c)).
    assert (Hc1 : heap (t <| heap := <[id := c1]> (heap t) |>) !! id = Some c1)
      by (simpl; by rewrite lookup_insert_eq).
    wp_step. eapply wp_set_conn; [exact Hc1|]. apply wp_emit.
    apply (HQ _ (fin_ack_sent c)); try done.
    - apply inv_trace; [done|]. by apply (inv_update_same _ _ _ c1).
    - simpl. rewrite insert_insert_eq. f_equal. unfold closed_conn, c1. simpl.
      rewrite <-Hs. reflexivity.
    - rewrite closes_emit. simpl. rewrite Z.eqb_refl. unfold b2z, closes. simpl. lia. }
  apply wp_when; intros Hp.
  - eapply wp_set_conn; [done|]. apply Hfin. unfold c1. by rewrite Hp.
  - apply Hfin. unfold c1. rewrite Hp.
    assert (c <| tx_queue := tx_queue c |> = c) as -> by (by destruct c).
    rewrite insert_id by done. by destruct t.
Qed.

(** Without an RST to send, one level is enough and the callback runs once. *)
Lemma wp_conn_close_quiet n id c st t :
  inv 0 t -> heap t !! id = Some c -> is_closed (status c) = false ->
  (ipproto (c_tuple c) = IPPROTO_TCP -> fin_ack_sent c = true) ->
  wp (conn_close sys (S n) id st) (fun _ => close_post id c st 1 t) t.
Proof.
  intros Hi Hc Hopen Hfin. cbn [conn_close]. wp_step. eapply wp_conn; [done|]. rewrite Hopen.
  apply wp_seq3. apply wp_close_begin; [done..|]. intros t1 Hi1 Hh1 Ht1 Hn1 Hx1 Hcl1.
  assert ((ipproto (c_tuple c) =? IPPROTO_TCP) && negb (fin_ack_sent c) = false) as ->.
  { destruct (Z.eqb_spec (ipproto (c_tuple c)) IPPROTO_TCP); [by rewrite Hfin|done]. }
  wp_step. wp_step. refine (wp_close_end id (c <| sock := INVALID_SOCKET |>) st (fun _ => close_post id c st 1 t) t1 _ _ _ _);
    [done| |reflexivity|].
  { by rewrite Hh1, lookup_insert_eq. }
  intros t2 fin Hi2 Hh2 Ht2 Hn2 Hx2 Hcl2.
  split; [done| |congruence|congruence|congruence|by rewrite Hcl2, Hcl1].
  exists fin. by rewrite Hh2, Hh1, insert_insert_eq.
Qed.

(** The whole function: one call of the callback, or two when the client did
  not take the RST. *)
Lemma wp_conn_close_open id c st t :
  inv 0 t -> heap t !! id = Some c -> is_closed (status c) = false ->
  wp (zdtun_conn_close sys id st) (fun _ t' => exists k, (k = 1 \/ k = 2) /\
    (k = 2 -> ipproto (c_tuple c) = IPPROTO_TCP /\ fin_ack_sent c = false) /\
    close_post id c st k t t') t.
Proof.
  intros Hi Hc Hopen. unfold zdtun_conn_close.
  destruct (decide (ipproto (c_tuple c) = IPPROTO_TCP /\ fin_ack_sent c = false)) as [[Hp Hfin]|Hn].
  2:{ eapply wp_mono; [apply (wp_conn_close_quiet 1 id c); try done|].
      - intros Hp. destruct (fin_ack_sent c); [done|]. by destruct Hn.
      - intros [] t' H. exists 1. split_and!; [by left|done|done]. }
  cbn [conn_close]. fold (conn_close sys 1). wp_step. eapply wp_conn; [done|]. rewrite Hopen.
  apply wp_seq3. apply wp_close_begin; [done..|]. intros t1 Hi1 Hh1 Ht1 Hn1 Hx1 Hcl1.
  set (c1 := c <| sock := INVALID_SOCKET |>) in *.
  assert (Hc1 : heap t1 !! id = Some c1) by (by rewrite Hh1, lookup_insert_eq).
  rewrite Hp, Hfin. cbn [Z.eqb Pos.eqb IPPROTO_TCP negb andb]. wp_step. wp_step.
  apply (wp_build_reply id c1); try done; try lia.
  { intros ver _. unfold REPLY_BUF_SIZE, TCP_HEADER_LEN. destruct (iphdr_len_cases ver); lia. }
  intros t2 Hi2 [Hh2 Ht2 Hn2 Hx2 Hcl2]. wp_step.
  assert (Hc2 : heap t2 !! id = Some c1) by (by rewrite Hh2).
  assert (Hend : forall t3 c3 k, inv 0 t3 -> heap t3 !! id = Some c3 -> sock c3 = INVALID_SOCKET ->
    (forall fin, closed_conn c3 fin (final_status st) = closed_conn c fin (final_status st)) ->
    (k = 0 \/ k = 1) -> (exists c', heap t3 = <[id := c']> (heap t)) ->
    conn_table t3 = conn_table t -> next_ptr t3 = next_ptr t -> socks5 t3 = socks5 t ->
    closes id t3 = closes id t + k -> ipproto (c_tuple c3) = IPPROTO_TCP ->
    wp (whenM (IPPROTO_TCP =? IPPROTO_TCP) (set_conn id (fun c => c <| tx_queue := [] |>)) ;;
      set_conn id (fun c => c <| status := final_status st |>) ;;
      emit (EvConnClose id (final_status st)))
    (fun _ t' => exists k, (k = 1 \/ k = 2) /\ (k = 2 -> IPPROTO_TCP = IPPROTO_TCP /\ false = false) /\
      close_post id c st k t t') t3).
  { intros t3 c3 k Hi3 Hc3 Hs3 Hcc Hk [c' Hh3] Ht3 Hn3 Hx3 Hcl3 Hp3.
    rewrite <-Hp3 at 1. apply (wp_close_end id c3); [done..|].
    intros t4 fin Hi4 Hh4 Ht4 Hn4 Hx4 Hcl4. exists (k + 1).
    split; [lia|]. split; [done|].
    split; [done| |congruence|congruence|congruence|lia].
    exists fin. by rewrite Hh4, Hh3, insert_insert_eq, Hcc. }
  apply (wp_send_to_client_with (conn_close sys 1) id c1); [done..| |].
  - intros t3 c3 Hi3 Hcase Hc3 Hfin3.
    assert (Hf : c3 = c1 <| fin_ack_sent := true |> /\ heap t3 = <[id := c3]> (heap t) /\
      conn_table t3 = conn_table t /\ next_ptr t3 = next_ptr t /\ socks5 t3 = socks5 t /\
      closes id t3 = closes id t).
    { destruct Hcase as [[Hh3 _ _ _ _]|(_ & -> & t0 & [Hh0 Ht0 Hn0 Hx0 Hcl0] & ->)].
      - rewrite Hh3, Hc2 in Hc3. injection Hc3 as <-. specialize (Hfin3 Hp).
        unfold c1 in Hfin3. simpl in Hfin3. congruence.
      - simpl. rewrite Hh0, Hh2, Hh1, insert_insert_eq. split_and!; try done; try congruence.
        change (closes id t0 = closes id t). by rewrite Hcl0, Hcl2, Hcl1. }
    destruct Hf as (-> & Hh3 & Ht3 & Hn3 & Hx3 & Hcl3).
    eapply wp_mono; [apply (wp_conn_close_quiet 0 id (c1 <| fin_ack_sent := true |>)); try done|].
    intros [] t4 [Hi4 [fin Hh4] Ht4 Hn4 Hx4 Hcl4] rv _. wp_step.
    apply (Hend _ (closed_conn (c1 <| fin_ack_sent := true |>) fin
                     (final_status CONN_STATUS_CLIENT_ERROR)) 1);
      [done|by rewrite Hh4, lookup_insert_eq|done| |by right| |congruence..|exact Hp].
    + intros fin'. unfold closed_conn, c1. simpl. rewrite Hp. reflexivity.
    + eexists. by rewrite Hh4, Hh3, insert_insert_eq.
  - intros rv t3 Hi3 [Hh3 Ht3 Hn3 Hx3 Hcl3]. wp_step.
    apply (Hend _ c1 0);
      [done|congruence|done| |by left| |congruence..| |exact Hp].
    + intros fin'. unfold closed_conn, c1. simpl. rewrite Hp. reflexivity.
    + eexists. by rewrite Hh3, Hh2, Hh1.
    + rewrite Hcl3, Hcl2, Hcl1. lia.
Qed.

Lemma wp_conn_close_closed id c st (Q : unit -> zdtun_t -> Prop) t :
  heap t !! id = Some c -> is_closed (status c) = true -> Q tt t ->
  wp (zdtun_conn_close sys id st) Q t.
Proof.
  intros Hc Hcl HQ. unfold zdtun_conn_close. cbn [conn_close]. wp_step.
  eapply wp_conn; [done|]. rewrite Hcl. by wp_run.
Qed.

(** The form the callers use. *)
Lemma wp_close id c st (Q : unit -> zdtun_t -> Prop) t :
  inv 0 t -> heap t !! id = Some c ->
  (forall t' c', inv 0 t' -> touches id t t' -> heap t' = <[id := c']> (heap t) ->
    is_closed (status c') = true -> ipproto (c_tuple c') = ipproto (c_tuple c) -> Q tt t') ->
  wp (zdtun_conn_close sys id st) Q t.
Proof.
  intros Hi Hc HQ. destruct (is_closed (status c)) eqn:Hcl.
  - eapply wp_conn_close_closed; [done..|]. apply (HQ t c); try done.
    + apply touches_refl. by eexists.
    + by rewrite insert_id.
  - eapply wp_mono; [by apply wp_conn_close_open|].
    intros [] t' (k & _ & _ & [Hi' [fin Hh] Ht Hn Hx _]).
    apply (HQ t' (closed_conn c fin (final_status st))); try done.
    + eexists _, _. split; [done|]. split; [done|]. split_and!; try done; [by rewrite Hcl|].
      intros _. unfold final_status. simpl. by destruct st.
    + unfold final_status. simpl. by destruct st.
Qed.

(** ** Destroying, purging *)

(** After [destroy_conn] the object is gone and nothing else has changed. *)
Record removed (id : Z) (t t' : zdtun_t) : Prop := {
  rm_inv : inv 0 t';
  rm_heap : heap t' = delete id (heap t);
  rm_table : conn_table t' = table_remove id (conn_table t);
  rm_next : next_ptr t' = next_ptr t;
  rm_socks5 : socks5 t' = socks5 t;
  }.

Lemma wp_destroy id c (Q : unit -> zdtun_t -> Prop) t :
  inv 0 t -> heap t !! id = Some c -> (forall t', removed id t t' -> Q tt t') ->
  wp (destroy_conn sys id) Q t.
Proof.
  intros Hi Hc HQ. unfold destroy_conn. wp_step.
  assert (Hfin : forall t1 c1, inv 0 t1 -> heap t1 = <[id := c1]> (heap t) ->
    sock c1 = INVALID_SOCKET -> conn_table t1 = conn_table t -> next_ptr t1 = next_ptr t ->
    socks5 t1 = socks5 t ->
    wp (c ← conn id; upd_stats (count_conn (ipproto (c_tuple c)) (-1)) ;;
        modifyS (fun t => t <| conn_table ::= table_remove id |>) ;;
        modifyS (fun t => t <| heap ::= delete id |>)) Q t1).
  { intros t1 c1 Hi1 Hh1 Hs Ht Hn Hx.
    assert (Hc1 : heap t1 !! id = Some c1) by (by rewrite Hh1, lookup_insert_eq).
    wp_step. eapply wp_conn; [done|]. unfold upd_stats. wp_run. apply HQ. split; simpl; try congruence.
    - by apply inv_delete.
    - by rewrite Hh1, delete_insert_eq. }
  destruct (is_closed (status c)) eqn:Hcl.
  - eapply wp_conn_close_closed; [done..|].
    apply (Hfin t c); try done; [by rewrite insert_id|].
    by apply (ok_closed c (inv_conn _ _ _ _ Hi Hc)).
  - eapply wp_mono; [by apply wp_conn_close_open|].
    intros [] t1 (k & _ & _ & [Hi1 [fin Hh1] Ht1 Hn1 Hx1 _]). by eapply Hfin.
Qed.

Lemma insert_asc_perm h e l : insert_asc h e l ≡ₚ e :: l.
Proof.
  induction l as [|e' l IH]; simpl; [done|]. case_match; [done|].
  rewrite IH. apply Permutation_swap.
Qed.
Lemma sort_asc_perm h l : sort_asc h l ≡ₚ l.
Proof. induction l as [|e l IH]; simpl; [done|]. by rewrite insert_asc_perm, IH. Qed.

Lemma inv_sort t : inv 0 t -> inv 0 (t <| conn_table ::= sort_asc (heap t) |>).
Proof.
  intros []. split; try done; simpl.
  - by rewrite sort_asc_perm.
  - intros id. rewrite sort_asc_perm. apply inv_live0.
Qed.

(** The states the first loop goes through: [l] is what is left to visit. *)
Record purging (n : Z) (t : zdtun_t) (l : list Z) (t' : zdtun_t) : Prop := {
  pg_inv : inv 0 t';
  pg_nodup : NoDup l;
  pg_live : forall id, id ∈ l -> is_Some (heap t' !! id);
  pg_heap : forall id c, heap t' !! id = Some c <->
    heap t !! id = Some c /\ (id ∈ l \/ is_idle n c = false);
  pg_next : next_ptr t' = next_ptr t;
  }.

Lemma purging_step n t id l t' :
  purging n t (id :: l) t' ->
  wp (c ← conn id; whenM (is_idle n c) (destroy_conn sys id)) (fun _ => purging n t l) t'.
Proof.
  intros [Hi Hd Hl Hh Hn]. apply NoDup_cons in Hd as [Hnl Hd].
  destruct (Hl id) as [c Hc]; [by left|]. wp_step. eapply wp_conn; [done|].
  apply wp_when; intros Hidle.
  - eapply wp_destroy; [done..|]. intros t2 [Hi2 Hh2 Ht2 Hn2 _]. split; try done; [| |congruence].
    + intros i Hin. rewrite Hh2, lookup_delete_ne by (by intros ->). apply Hl. by right.
    + intros i c'. rewrite Hh2, lookup_delete_Some, Hh, elem_of_cons.
      split; [naive_solver|]. intros (Hc' & Hor). split; [|naive_solver].
      intros <-. apply Hh in Hc as [Hc _]. destruct Hor as [?|?]; [done|].
      rewrite Hc in Hc'. injection Hc' as <-. congruence.
  - split; try done; [intros i Hin; apply Hl; by right|].
    intros i c'. rewrite Hh, elem_of_cons. split; [|naive_solver].
    intros (Hc' & [[->|?]|?]); split; auto. right.
    apply Hh in Hc as [Hc _]. rewrite Hc in Hc'. by injection Hc' as <-.
Qed.

Lemma wp_force_purge ids k t :
  inv 0 t -> NoDup ids -> (forall id, id ∈ ids -> is_Some (heap t !! id)) ->
  wp (force_purge sys ids k) (fun _ t' => inv 0 t' /\ heap t' ⊆ heap t /\
    next_ptr t' = next_ptr t) t.
Proof.
  revert k t. induction ids as [|id ids IH]; intros k t Hi Hd Hl; cbn [force_purge].
  - by wp_run.
  - case_match; [by wp_run|]. apply NoDup_cons in Hd as [Hn Hd].
    destruct (Hl id) as [c Hc]; [by left|]. wp_step. eapply wp_destroy; [done..|].
    intros t1 [Hi1 Hh1 Ht1 Hn1 _]. eapply wp_mono; [apply IH; try done|].
    + intros i Hin. rewrite Hh1, lookup_delete_ne by (by intros ->). apply Hl. by right.
    + intros [] t2 (Hi2 & Hs2 & Hn2). split; [done|]. split; [|congruence].
      etrans; [exact Hs2|]. rewrite Hh1. apply delete_subseteq.
Qed.

Lemma wp_purge_at n t :
  inv 0 t ->
  wp (purge_at sys n) (fun _ t' => inv 0 t' /\ next_ptr t' = next_ptr t /\
    heap t' ⊆ filter (fun e => is_idle n e.2 = false) (heap t) /\
    (mcount has_sock (filter (fun e => is_idle n e.2 = false) (heap t)) < MAX_NUM_SOCKETS ->
     heap t' = filter (fun e => is_idle n e.2 = false) (heap t))) t.
Proof.
  intros Hi. unfold purge_at. wp_run. eapply wp_mono.
  { apply (wp_for (purging n t)); [|intros; by apply purging_step].
    split; [done|apply Hi| |intros id c; split; [intros Hc|naive_solver]|done].
    - intros id. by apply (inv_live _ _ Hi).
    - split; [done|]. left. apply (inv_live _ _ Hi). by eexists. }
  intros [] t1 [Hi1 _ _ Hh1 Hn1]. wp_run.
  assert (Hf : heap t1 = filter (fun e => is_idle n e.2 = false) (heap t)).
  { apply map_eq. intros id. apply option_eq. intros c. rewrite Hh1, map_lookup_filter_Some. simpl.
    split; intros [? Ho]; split; auto. by destruct Ho as [Ho%not_elem_of_nil|]. }
  case_match eqn:Emax.
  - wp_run. eapply wp_mono; [apply wp_force_purge|].
    + by apply inv_sort.
    + apply (inv_nodup _ _ (inv_sort _ Hi1)).
    + intros id. apply (inv_live _ _ (inv_sort _ Hi1)).
    + intros [] t2 (Hi2 & Hs2 & Hn2). simpl in *. split; [done|]. split; [congruence|].
      rewrite <-Hf. split; [done|]. intros Hlt.
      pose proof (inv_open _ _ Hi1). lia.
  - wp_run. rewrite <-Hf. by split_and!.
Qed.

Lemma wp_purge t (Q : unit -> zdtun_t -> Prop) :
  inv 0 t -> (forall t', inv 0 t' -> heap t' ⊆ heap t -> next_ptr t' = next_ptr t -> Q tt t') ->
  wp (zdtun_purge_expired sys) Q t.
Proof.
  intros Hi HQ. unfold zdtun_purge_expired. wp_step. eapply wp_now; [done|].
  intros n t1 Hi1 [Hh1 _ Hn1 _ _]. eapply wp_mono; [by apply wp_purge_at|].
  intros [] t2 (Hi2 & Hn2 & Hs2 & _). apply HQ; [done| |congruence].
  rewrite <-Hh1. etrans; [exact Hs2|]. apply map_filter_subseteq.
Qed.

(** ** Looking up *)

Lemma table_find_Some tuple h l id :
  table_find tuple h l = Some id ->
  id ∈ (snd <$> l) /\ exists c, h !! id = Some c /\ c_tuple c = tuple.
Proof.
  induction l as [|[k i] l IH]; simpl; [done|]. destruct (table_find tuple h l).
  - intros [= ->]. destruct IH as [? ?]; [done|]. split; [by right|done].
  - case_decide as Hd; [|done]. intros [= ->]. split; [by left|].
    destruct Hd as [_ Hd]. destruct (h !! id) as [c|]; [|done]. exists c. naive_solver.
Qed.

(** The connections after [zdtun_lookup]: some of the old ones and a fresh one. *)
Definition from_old (create : bool) (t t' : zdtun_t) : Prop := forall i c, heap t' !! i = Some c ->
  heap t !! i = Some c \/ create = true /\ exists tuple now, c = zdtun_conn_new tuple now.

Lemma wp_lookup tuple create (Q : option Z -> zdtun_t -> Prop) t :
  inv 0 t -> tuple_ok tuple ->
  (forall r t', inv 0 t' -> from_old create t t' ->
    (forall id, r = Some id -> exists c, heap t' !! id = Some c /\ c_tuple c = tuple /\
       is_closed (status c) = false) -> Q r t') ->
  wp (zdtun_lookup sys tuple create) Q t.
Proof.
  intros Hi Htup HQ. unfold zdtun_lookup. wp_step. wp_step. wp_step.
  assert (Hold : forall t1, heap t1 ⊆ heap t -> from_old create t t1).
  { intros t1 Hsub i c Hc. left. by eapply lookup_weaken. }
  assert (Hnew : forall t1, inv 0 t1 -> heap t1 ⊆ heap t ->
    wp (if negb create then mret None else
      t ← getS;
      whenM (MAX_NUM_SOCKETS <=? num_open_sockets (stats t)) (zdtun_purge_expired sys) ;;
      now ← zdtun_now sys;
      t ← getS;
      let id := next_ptr t in
      putS (t <| next_ptr ::= Z.succ |> <| heap ::= <[id := zdtun_conn_new tuple now]> |>) ;;
      rv ← sysint sys;
      emit (EvConnOpen id tuple (rv =? 0)) ;;
      if negb (rv =? 0) then
        modifyS (fun t => t <| heap ::= delete id |>) ;; mret None
      else
        modifyS (fun t => t <| conn_table ::= fun l => l ++ [(tuple, id)] |>) ;;
        upd_stats (count_conn (ipproto tuple) 1) ;;
        mret (Some id)) Q t1).
  { intros t1 Hi1 Hs1. destruct create; cbn [negb]; [|wp_run; apply HQ; auto; done].
    assert (Hrest : forall t2, inv 0 t2 -> heap t2 ⊆ heap t ->
      wp (now ← zdtun_now sys;
      t ← getS;
      let id := next_ptr t in
      putS (t <| next_ptr ::= Z.succ |> <| heap ::= <[id := zdtun_conn_new tuple now]> |>) ;;
      rv ← sysint sys;
      emit (EvConnOpen id tuple (rv =? 0)) ;;
      if negb (rv =? 0) then
        modifyS (fun t => t <| heap ::= delete id |>) ;; mret None
      else
        modifyS (fun t => t <| conn_table ::= fun l => l ++ [(tuple, id)] |>) ;;
        upd_stats (count_conn (ipproto tuple) 1) ;;
        mret (Some id)) Q t2).
    { intros t2 Hi2 Hs2. wp_step. eapply wp_now; [done|]. intros n t3 Hi3 Hq3. wp_run.
      rewrite <-(q_heap _ _ Hq3) in Hs2.
      apply wp_sysint. intros rv. wp_step. apply wp_emit.
      destruct (inv_add t3 tuple n Hi3 Htup) as [Ha Hnone].
      destruct (rv =? 0); cbn [negb]; unfold upd_stats; wp_run; apply HQ.
      - apply (inv_same 0 _ _ Ha); try done. by constructor.
      - intros i c. simpl. rewrite lookup_insert_Some. intros [[_ <-]|[_ Hc]]; [right; eauto|].
        left. by eapply lookup_weaken.
      - intros id [= <-]. simpl. rewrite lookup_insert_eq. by eexists.
      - apply (inv_same 0 (t3 <| next_ptr ::= Z.succ |>)); try done.
        + destruct Hi3. split; try done. simpl. eapply map_Forall_impl; [done|]. simpl. intros; lia.
        + simpl. by rewrite delete_insert_id.
        + by constructor.
      - apply Hold. simpl. by rewrite delete_insert_id.
      - done. }
    wp_run. apply wp_when; intros _; [|by apply Hrest].
    apply wp_purge; [done|]. intros t2 Hi2 Hs2 _. apply Hrest; [done|by etrans]. }
  destruct (table_find tuple (heap t) (conn_table t)) as [id|] eqn:Ef; [|wp_step; by apply Hnew].
  apply table_find_Some in Ef as [Hin (c & Hc & Hct)].
  wp_step. eapply wp_conn; [done|]. destruct (is_closed (status c)) eqn:Hcl.
  - wp_step. eapply wp_destroy; [done..|]. intros t1 [Hi1 Hh1 _ _ _]. wp_step.
    apply Hnew; [done|]. rewrite Hh1. apply delete_subseteq.
  - wp_step. wp_step. apply HQ; [done|by apply Hold|]. intros i [= <-]. eauto.
Qed.
End close.

(** C18: Closing an open connection is defined whatever the system calls return: the
    recursion through [send_to_client] ends, nothing outside the buffer is
    written and no freed object is used.  Afterwards the connection has the
    requested final status and no socket, its queue is released, the other
    connections and the table are untouched, and the statistics still agree.
    The callback ran once, or twice, the latter only for a TCP connection whose
    RST had still to be sent. *)
Theorem zdtun_conn_close_spec sys id c st t :
  inv 0 t -> heap t !! id = Some c -> is_closed (status c) = false ->
  exists t' fin k, zdtun_conn_close sys id st t = Some (tt, t') /\ inv 0 t' /\
    heap t' = <[id := closed_conn c fin (final_status st)]> (heap t) /\
    conn_table t' = conn_table t /\
    closes id t' = closes id t + k /\ (k = 1 \/ k = 2) /\
    (k = 2 -> ipproto (c_tuple c) = IPPROTO_TCP /\ fin_ack_sent c = false).
Proof.
  intros Hi Hc Ho. destruct (wp_conn_close_open sys id c st t Hi Hc Ho)
    as ([] & t' & E & k & Hk & Hk2 & [Hi' [fin Hh] Ht Hn Hx Hcl]).
  exists t', fin, k. by split_and!.
Qed.

(** The connections a purge at time [n] is to keep. *)
Definition survivors (n : Z) (t : zdtun_t) : gmap Z zdtun_conn :=
  filter (fun e => is_idle n e.2 = false) (heap t).

(** [id] is a live, open connection of [tuple]. *)
Definition open_conn_of (tuple : zdtun_5tuple) (t : zdtun_t) (id : Z) : Prop :=
  exists c, heap t !! id = Some c /\ c_tuple c = tuple /\ is_closed (status c) = false.

(** C28: A purge removes exactly the closed and the idle connections: what remains is
    the rest, unchanged, unless 128 sockets are still open, in which case some
    of the rest is removed too.  No freed object is used on the way. *)
Theorem zdtun_purge_spec sys n t :
  inv 0 t ->
  exists t', purge_at sys n t = Some (tt, t') /\ inv 0 t' /\ heap t' ⊆ survivors n t /\
    (mcount has_sock (survivors n t) < MAX_NUM_SOCKETS -> heap t' = survivors n t).
Proof.
  intros Hi. destruct (wp_purge_at sys n t Hi) as ([] & t' & E & Hi' & _ & Hs & He).
  by exists t'.
Qed.

(** What [zdtun_lookup] returns is a live connection of the tuple that is not
    closed, also when it has to purge or to create one. *)
Theorem zdtun_lookup_spec sys tuple create t :
  inv 0 t -> tuple_ok tuple ->
  exists r t', zdtun_lookup sys tuple create t = Some (r, t') /\ inv 0 t' /\
    forall id, r = Some id -> open_conn_of tuple t' id.
Proof.
  intros Hi Ht. apply (wp_lookup sys tuple create (fun r t' => inv 0 t' /\
    forall id, r = Some id -> open_conn_of tuple t' id)); auto.
Qed.

(** ** A concrete state: one new TCP connection *)

Definition sys_fail : nat -> Z * list Z := fun _ => (-1, []).
Definition sys_ok : nat -> Z * list Z := fun _ => (0, []).

Definition tun_ex : zdtun_t :=
  zdtun_init <| next_ptr ::= Z.succ |> <| heap ::= <[1 := zdtun_conn_new tuple_ex 7]> |>
    <| conn_table ::= fun l => l ++ [(tuple_ex, 1)] |>
    <| stats ::= count_conn (ipproto tuple_ex) 1 |>.

Lemma tun_ex_inv : inv 0 tun_ex.
Proof. apply (inv_add zdtun_init tuple_ex 7 inv_init tuple_ex_ok). Qed.

Lemma tun_ex_conn : heap tun_ex !! 1 = Some (zdtun_conn_new tuple_ex 7).
Proof. reflexivity. Qed.

Lemma zdtun_conn_close_spec_witness :
  exists t' fin k, zdtun_conn_close sys_ok 1 CONN_STATUS_CLOSED tun_ex = Some (tt, t') /\ inv 0 t' /\
    heap t' = <[1 := closed_conn (zdtun_conn_new tuple_ex 7) fin CONN_STATUS_CLOSED]> (heap tun_ex) /\
    conn_table t' = conn_table tun_ex /\
    closes 1 t' = closes 1 tun_ex + k /\ (k = 1 \/ k = 2) /\
    (k = 2 -> IPPROTO_TCP = IPPROTO_TCP /\ false = false).
Proof.
  apply (zdtun_conn_close_spec sys_ok 1 (zdtun_conn_new tuple_ex 7) CONN_STATUS_CLOSED tun_ex);
    [apply tun_ex_inv|apply tun_ex_conn|reflexivity].
Defined.

Lemma zdtun_purge_spec_witness :
  exists t', purge_at sys_ok 67 tun_ex = Some (tt, t') /\ inv 0 t' /\
    heap t' ⊆ survivors 67 tun_ex /\
    (mcount has_sock (survivors 67 tun_ex) < MAX_NUM_SOCKETS -> heap t' = survivors 67 tun_ex).
Proof. apply (zdtun_purge_spec sys_ok 67 tun_ex). apply tun_ex_inv. Defined.

Lemma zdtun_lookup_spec_witness :
  exists r t', zdtun_lookup sys_ok tuple_ex true tun_ex = Some (r, t') /\ inv 0 t' /\
    forall id, r = Some id -> open_conn_of tuple_ex t' id.
Proof. apply (zdtun_lookup_spec sys_ok tuple_ex true tun_ex); [apply tun_ex_inv|apply tuple_ex_ok]. Defined.

(** The number of times the callback ran in a run. *)
Definition closes_after (r : option (unit * zdtun_t)) : option Z :=
  (fun x => closes 1 (snd x)) <$> r.

(** When the client cannot take the RST, the nested call closes the connection
    and the outer one goes on: [on_connection_close] runs twice for one
    connection.  When it can, it runs once. *)
Theorem close_callback_twice :
  closes_after (zdtun_conn_close sys_fail 1 CONN_STATUS_CLOSED tun_ex) = Some 2 /\
  closes_after (zdtun_conn_close sys_ok 1 CONN_STATUS_CLOSED tun_ex) = Some 1.
Proof. split; vm_compute; reflexivity. Qed.

End ZdtunClose.
