(* ===== verification/ZdtunSafe.v ===== *)
(** * Memory safety of the packet engine of zdtun

    Every handler of [ZdtunTcp] and [ZdtunFwd], run from a state that satisfies
    the invariant, is defined for every behaviour of the system calls and of
    the peers, and gives a state that satisfies it again.  The one exception is
    the SYN of a new connection, whose options are parsed and stored without
    validation: [syn_ok] states what they must satisfy, and the end of the
    file shows that each part of it is needed. *)

From S2P Require Import Prelude UtHash ZdtunTypes ZdtunConn ZdtunPkt ZdtunWire ZdtunState ZdtunInv ZdtunClose ZdtunTcp ZdtunFwd.
Import ZdtunPkt ZdtunWire ZdtunState ZdtunInv ZdtunClose ZdtunTcp ZdtunFwd.

Module ZdtunSafe.

(** [t] was reached from [t0] by operations on connection [id]. *)
Record good (id : Z) (t0 t : zdtun_t) : Prop := {
    g_inv : inv 0 t;
    g_touches : touches id t0 t;
  }.

Lemma good_refl id t : inv 0 t -> is_Some (heap t !! id) -> good id t t.
Proof. split; [done|by apply touches_refl]. Qed.
Lemma good_trans id t0 t1 t2 : good id t0 t1 -> good id t1 t2 -> good id t0 t2.
Proof. intros [_ H1] [Hi H2]. split; [done|by eapply touches_trans]. Qed.
Lemma good_live id t0 t : good id t0 t -> exists c, heap t !! id = Some c /\ conn_ok c.
Proof.
  intros [Hi Ht]. destruct (touches_live _ _ _ Ht) as [c Hc]. exists c.
  split; [done|by eapply inv_conn].
Qed.
Lemma good_quiet id t0 t t' : good id t0 t -> inv 0 t' -> quiet t t' -> good id t0 t'.
Proof.
  intros Hg Hi Hq. eapply good_trans; [done|]. split; [done|].
  destruct (good_live _ _ _ Hg) as (c & Hc & _). apply quiet_touches; [done|by eexists].
Qed.

(** States that differ in what [inv] and [touches] do not mention. *)
Lemma good_same id t0 t t' :
  good id t0 t -> heap t' = heap t -> conn_table t' = conn_table t -> next_ptr t' = next_ptr t ->
  socks5 t' = socks5 t -> reply_buf t' = reply_buf t -> id2ports t' = id2ports t ->
  mtu t' = mtu t -> socks5_user t' = socks5_user t -> socks5_pass t' = socks5_pass t ->
  stats t' = stats t -> (Forall event_fine (trace t) -> Forall event_fine (trace t')) ->
  good id t0 t'.
Proof.
  intros Hg Hh Ht Hn Hx Hb Hi Hm Hu Hp Hs He. destruct (good_live _ _ _ Hg) as (c & Hc & _).
  eapply good_trans; [done|]. split.
  - apply (inv_same 0 t); try congruence; [apply Hg|done].
  - destruct (touches_refl id t) as (c0 & c' & H); [by eexists|].
    exists c0, c'. by rewrite Hh, Ht, Hn, Hx.
Qed.

Section safe.
Context (sys : nat -> Z * list Z).
Context (id : Z) (t0 : zdtun_t).

Lemma g_conn c (Q : zdtun_conn -> zdtun_t -> Prop) t :
  heap t !! id = Some c -> Q c t -> wp (conn id) Q t.
Proof. apply wp_conn. Qed.

Lemma g_sysint (Q : Z -> zdtun_t -> Prop) t :
  good id t0 t -> (forall r t', good id t0 t' -> heap t' = heap t -> Q r t') ->
  wp (sysint sys) Q t.
Proof. intros Hg HQ. apply wp_sysint. intros r. apply HQ; [by apply (good_same _ _ t)|done]. Qed.

Lemma g_emit e (Q : unit -> zdtun_t -> Prop) t :
  event_fine e -> good id t0 t -> (forall t', good id t0 t' -> heap t' = heap t -> Q tt t') -> wp (emit e) Q t.
Proof. intros He Hg HQ. apply wp_emit. apply HQ; [|done]. apply (good_same _ _ t); try done. by constructor. Qed.
Lemma g_account p (Q : unit -> zdtun_t -> Prop) t :
  good id t0 t -> (forall t', good id t0 t' -> heap t' = heap t -> Q tt t') -> wp (account_in id p) Q t.
Proof.
  intros Hg HQ. unfold account_in. destruct (touches_live _ _ _ (g_touches _ _ _ Hg)) as [c Hc].
  wp_step. eapply wp_conn; [exact Hc|]. by apply g_emit.
Qed.

Lemma g_now (Q : Z -> zdtun_t -> Prop) t :
  good id t0 t -> (forall r t', good id t0 t' -> heap t' = heap t -> Q r t') ->
  wp (zdtun_now sys) Q t.
Proof.
  intros Hg HQ. eapply wp_now; [apply Hg|]. intros v t' Hi Hq.
  apply HQ; [by eapply good_quiet|apply Hq].
Qed.

Lemma g_ipver c (Q : Z -> zdtun_t -> Prop) t :
  good id t0 t -> heap t !! id = Some c ->
  (forall ver, sock_ipver (socks5 t) c = Some ver -> Q ver t) -> wp (conn_ipver c) Q t.
Proof. intros Hg Hc HQ. apply wp_conn_ipver; [|done]. apply (inv_conn _ _ _ _ (g_inv _ _ _ Hg) Hc). Qed.

Lemma g_set f c (Q : unit -> zdtun_t -> Prop) t :
  good id t0 t -> heap t !! id = Some c -> conn_ok (f c) -> sock (f c) = sock c ->
  ipproto (c_tuple (f c)) = ipproto (c_tuple c) ->
  (is_closed (status c) = true -> status (f c) = status c) ->
  (status (f c) = CONN_STATUS_NEW -> status c = CONN_STATUS_NEW) ->
  (forall t', good id t0 t' -> heap t' !! id = Some (f c) -> Q tt t') ->
  wp (set_conn id f) Q t.
Proof.
  intros Hg Hc Hok Hs Hp Hst Hnew HQ. eapply wp_set_conn; [done|]. apply HQ.
  - eapply good_trans; [done|]. split; [by apply (inv_update_same 0 t id c); try apply Hg|].
    exists c, (f c). split_and!; try done. auto.
  - simpl. by rewrite lookup_insert_eq.
Qed.

Lemma g_fd_ops fd (Q : unit -> zdtun_t -> Prop) t m :
  (m = FD_SET_all fd \/ m = FD_CLR_all fd \/ m = FD_SET_write fd \/ m = FD_CLR_write fd) ->
  good id t0 t -> fd_ok fd = true ->
  (forall t', good id t0 t' -> heap t' = heap t -> Q tt t') -> wp m Q t.
Proof.
  intros Hm Hg Hfd HQ.
  destruct Hm as [->|[->|[->| ->]]]; unfold FD_SET_all, FD_CLR_all, FD_SET_write, FD_CLR_write;
    rewrite Hfd; apply wp_modify; (apply HQ; [by apply (good_same _ _ t)|done]).
Qed.

Lemma g_build c flags l4_len optsoff (Q : unit -> zdtun_t -> Prop) t :
  good id t0 t -> heap t !! id = Some c -> u_ok 8 flags -> 0 <= optsoff <= 10 -> 0 <= l4_len ->
  (forall ver, sock_ipver (socks5 t) c = Some ver ->
    zdtun_iphdr_len ver + (l4_len + TCP_HEADER_LEN + optsoff * 4) <= REPLY_BUF_SIZE) ->
  (forall t', good id t0 t' -> heap t' = heap t -> Q tt t') ->
  wp (build_reply sys id flags l4_len optsoff) Q t.
Proof.
  intros Hg Hc Hf Ho Hl Hfit HQ. eapply wp_build_reply; try done; [apply Hg|].
  intros t' Hi Hq. apply HQ; [by eapply good_quiet|apply Hq].
Qed.

(** A segment without data always fits. *)
Lemma g_build_ctl c flags (Q : unit -> zdtun_t -> Prop) t :
  good id t0 t -> heap t !! id = Some c -> u_ok 8 flags ->
  (forall t', good id t0 t' -> heap t' = heap t -> Q tt t') ->
  wp (build_reply sys id flags 0 0) Q t.
Proof.
  intros Hg Hc Hf HQ. eapply g_build; try done; try lia.
  intros ver _. unfold REPLY_BUF_SIZE, TCP_HEADER_LEN. destruct (iphdr_len_cases ver); lia.
Qed.

Lemma g_close st (Q : unit -> zdtun_t -> Prop) t :
  good id t0 t ->
  (forall t' c', good id t0 t' -> heap t' !! id = Some c' -> is_closed (status c') = true -> Q tt t') ->
  wp (zdtun_conn_close sys id st) Q t.
Proof.
  intros Hg HQ. destruct (good_live _ _ _ Hg) as (c & Hc & _).
  eapply wp_close; [apply Hg|done|]. intros t' c' Hi Ht Hh Hcl _. apply (HQ t' c'); [|by rewrite Hh, lookup_insert_eq|done].
  eapply good_trans; [done|by split].
Qed.

Lemma g_close_err errno (Q : Z -> zdtun_t -> Prop) t :
  good id t0 t ->
  (forall rv t' c', good id t0 t' -> heap t' !! id = Some c' -> is_closed (status c') = true -> Q rv t') ->
  wp (close_with_socket_error sys id errno) Q t.
Proof.
  intros Hg HQ. unfold close_with_socket_error.
  repeat case_match; simplify_eq; wp_step; (apply g_close; [done|]); intros; wp_run; eauto.
Qed.

(** 0 means that the connection was not changed. *)
Lemma g_send l3_len (Q : Z -> zdtun_t -> Prop) t :
  good id t0 t ->
  (forall rv t', good id t0 t' -> (rv = 0 -> heap t' = heap t) -> Q rv t') ->
  wp (send_to_client sys id l3_len) Q t.
Proof.
  intros Hg HQ. destruct (good_live _ _ _ Hg) as (c & Hc & Hok).
  unfold send_to_client. eapply wp_send_to_client_with; [apply Hg|done| |].
  - intros t' c' Hi Hcase Hc' Hfin. apply g_close.
    + destruct Hcase as [Hq|(Hp & -> & t1 & [Hh Ht Hn Hx _] & ->)]; [by eapply good_quiet|].
      eapply good_trans; [done|]. split; [done|].
      exists c, (c <| fin_ack_sent := true |>). simpl. rewrite Hh. by split_and!.
    + intros t'' c'' Hg'' _ _ rv Hrv. apply HQ; [done|]. by intros ->.
  - intros rv t' Hi Hq. apply HQ; [by eapply good_quiet|]. intros _. apply Hq.
Qed.

Lemma g_sock_send fd data (Q : Z -> zdtun_t -> Prop) t :
  good id t0 t ->
  (forall rv t', good id t0 t' -> heap t' = heap t -> rv <= Z.of_nat (length data) -> Q rv t') ->
  wp (sock_send sys fd data) Q t.
Proof.
  intros Hg HQ. unfold sock_send. wp_step. apply g_sysint; [done|]. intros r t1 Hg1 Hh1.
  case_match eqn:E; [wp_run; apply HQ; [done|done|lia]|].
  wp_step. apply g_emit; [done|done|]. intros t2 Hg2 Hh2. wp_run.
  apply HQ; [done|congruence|lia].
Qed.

(** What was received fits, when the largest answer would. *)
Lemma g_sock_recv off maxlen (Q : Z -> zdtun_t -> Prop) t :
  good id t0 t -> 0 <= off -> off + Z.max maxlen 0 <= REPLY_BUF_SIZE ->
  (forall rv t', good id t0 t' -> heap t' = heap t -> socks5 t' = socks5 t ->
     -1 <= rv <= Z.max maxlen 0 -> Q rv t') ->
  wp (sock_recv sys off maxlen) Q t.
Proof.
  intros Hg Ho Hfit HQ. unfold sock_recv. wp_step. apply wp_syscall. intros [r data].
  set (t1 := t <| calls := S (calls t) |>).
  assert (Hg1 : good id t0 t1) by (by apply (good_same _ _ t)).
  cbn [fst snd]. case_match; [wp_run; apply HQ; [done|done|done|lia]|]. wp_run.
  destruct (inv_buf _ _ (g_inv _ _ _ Hg1)) as [Hl Hb].
  set (bs := u8 <$> take (Z.to_nat maxlen) data).
  assert (Hbs : Z.of_nat (length bs) <= Z.max maxlen 0)
    by (unfold bs; rewrite length_fmap, length_take; lia).
  destruct (wrn_safe off bs (reply_buf t1)) as (buf & E & Hl' & Hb'); [lia|lia| |done|].
  { unfold bs, bytes_ok. apply Forall_fmap, Forall_true. intros x. apply uwrap_ok. lia. }
  eapply wp_lift; [exact E|]. wp_run. apply HQ; [|done|done|lia].
  eapply good_quiet; [exact Hg1| |by split].
  apply inv_set_buf; [apply Hg1|lia|done].
Qed.
End safe.

(** ** Automation: step through a handler, keeping the facts about the current
    state and the current value of the connection *)

Ltac upd :=
  repeat match goal with
  | H : heap ?t' = heap ?t |- _ =>
      try match goal with Hc : heap t !! _ = Some _ |- _ => rewrite <-H in Hc end; clear H
  end.
Ltac conn_ok_tac :=
  match goal with H : conn_ok ?c |- conn_ok _ => destruct H; split; simpl; try done; auto end.
Ltac g_step :=
  lazymatch goal with
  | |- wp (let _ := _ in _) _ _ => cbv zeta
  | |- wp (sysint _) _ _ => eapply g_sysint; [eassumption|]; intros ? ? ? ?; upd
  | |- wp (zdtun_now _) _ _ => eapply g_now; [eassumption|]; intros ? ? ? ?; upd
  | |- wp (emit _) _ _ => eapply g_emit; [done|eassumption|]; intros ? ? ?; upd
  | |- wp (account_in _ _) _ _ => eapply g_account; [eassumption|]; intros ? ? ?; upd
  | |- wp (conn _) _ _ => eapply g_conn; [eassumption|]
  | |- wp (conn_ipver _) _ _ => eapply g_ipver; [eassumption..|]; intros ? ?
  | |- wp (zdtun_conn_close _ _ _) _ _ => eapply g_close; [eassumption|]; intros ? ? ? ? ?
  | |- wp (close_with_socket_error _ _ _) _ _ =>
      eapply g_close_err; [eassumption|]; intros ? ? ? ? ? ?
  | |- wp (build_reply _ _ _ 0 0) _ _ =>
      eapply g_build_ctl; [eassumption..|by vm_compute|]; intros ? ? ?; upd
  | |- wp (send_to_client _ _ _) _ _ => eapply g_send; [eassumption|]; intros ? ? ? ?
  | |- wp (sock_send _ _ _) _ _ => eapply g_sock_send; [eassumption|]; intros ? ? ? ? ?; upd
  | |- wp (set_conn _ _) _ _ =>
      eapply g_set; [eassumption|eassumption|try solve [conn_ok_tac]|try done|try done|try done|try done
                    |intros ? ? ?]
  | |- wp (if ?b then _ else _) _ _ => let E := fresh "E" in destruct b eqn:E
  | _ => wp_step
  end.
Ltac g_run := repeat g_step.

(** Replace what was known of the connection after an operation on it. *)
Ltac refresh t :=
  match goal with
  | Hg : good _ _ t |- _ =>
      let c := fresh "c" in let Hc := fresh "Hc" in let Hok := fresh "Hok" in
      destruct (good_live _ _ _ Hg) as (c & Hc & Hok)
  end.

Section handlers.
Context (id : Z).

(** The outcome every handler of connection [id] has. *)
Definition keeps {A} (m : M zdtun_t A) (t : zdtun_t) : Prop := wp m (fun _ t' => good id t t') t.

Lemma keeps_use {A} (m : M zdtun_t A) (Q : A -> zdtun_t -> Prop) t0 t :
  keeps m t -> good id t0 t -> (forall a t', good id t0 t' -> Q a t') -> wp m Q t.
Proof.
  intros Hm Hg HQ. eapply wp_mono; [exact Hm|]. intros a t' Hg'. apply HQ. by eapply good_trans.
Qed.

End handlers.

Ltac sub lem :=
  eapply keeps_use; [eapply lem; try eassumption; try (eapply g_inv; eassumption)|eassumption|].

Section handlers.
Context (sys : nat -> Z * list Z) (id : Z).
Context (t : zdtun_t) (c : zdtun_conn).
Hypothesis Hinv : inv 0 t.
Hypothesis Hcur : heap t !! id = Some c.

Lemma start : good id t t /\ conn_ok c.
Proof. split; [apply good_refl; [done|by eexists]|by eapply inv_conn]. Qed.

Lemma socks5_connect_safe : keeps id (socks5_connect sys id) t.
Proof. destruct start as [Hg Hok]. unfold keeps, socks5_connect. g_run; done. Qed.

Lemma socks5_req_safe : keeps id (socks5_req sys id) t.
Proof. destruct start as [Hg Hok]. unfold keeps, socks5_req. g_run; done. Qed.

Lemma socks5_auth_safe : is_Some (socks5_user t) -> keeps id (socks5_auth sys id) t.
Proof.
  intros [u Hu]. destruct start as [Hg Hok]. unfold keeps, socks5_auth. g_run.
  destruct (inv_pass _ _ Hinv) as [p Hp]; [by eexists|].
  eapply wp_lift; [exact Hu|]. g_run. eapply wp_lift; [exact Hp|].
  g_run; done.
Qed.

Lemma send_syn_ack_safe : keeps id (send_syn_ack sys id) t.
Proof.
  destruct start as [Hg Hok]. unfold keeps, send_syn_ack. g_run.
  set (opts := _ ++ _). destruct (inv_buf _ _ Hinv) as [Hl Hb].
  pose proof (ok_scale _ Hok) as Hs.
  assert (Hlo : length opts = 8%nat) by (unfold opts; by rewrite !length_app, length_le_bytes).
  destruct (wrn_safe (zdtun_iphdr_len ver + TCP_HEADER_LEN) opts (reply_buf t)) as (buf & E & Hl' & Hb').
  { unfold TCP_HEADER_LEN. destruct (iphdr_len_cases ver); lia. }
  { unfold TCP_HEADER_LEN, REPLY_BUF_SIZE in *. destruct (iphdr_len_cases ver); lia. }
  { unfold opts. solve_bytes. }
  { done. }
  eapply wp_lift; [exact E|]. wp_step. wp_step.
  assert (Hg1 : good id t (t <| reply_buf := buf |>)).
  { eapply good_quiet; [done| |by split]. apply inv_set_buf; [done|congruence|done]. }
  assert (Hc1 : heap (t <| reply_buf := buf |>) !! id = Some c) by done.
  wp_step. eapply g_build; [exact Hg1|exact Hc1|by vm_compute|lia|lia| |].
  { intros v _. unfold REPLY_BUF_SIZE, TCP_HEADER_LEN. destruct (iphdr_len_cases v); lia. }
  intros t2 Hg2 Hh2. upd. g_step. g_step. g_step. refresh t'.
  apply wp_when; intros _; g_run; done.
Qed.

Lemma tcp_socket_fin_ack_safe : keeps id (tcp_socket_fin_ack sys id) t.
Proof.
  destruct start as [Hg Hok]. unfold keeps, tcp_socket_fin_ack. g_run. refresh t'0.
  apply wp_when; intros _; g_run; done.
Qed.

End handlers.

Ltac g_rd8 :=
  match goal with
  | |- wp (liftO (rd8 ?b ?o)) _ _ =>
      let E := fresh "E" in
      destruct (rd8_is_Some b o) as (? & E & ?); [lia|assumption|eapply wp_lift; [exact E|]]
  end.

(** A connection without a status has no socket either. *)
Definition settled (id : Z) (t : zdtun_t) : Prop :=
  forall c, heap t !! id = Some c -> status c = CONN_STATUS_NEW -> sock c = INVALID_SOCKET.

Lemma good_settled id t c t' :
  heap t !! id = Some c -> status c <> CONN_STATUS_NEW -> good id t t' -> settled id t'.
Proof.
  intros Hc Hn [_ (c0 & c' & H0 & Hh & _ & _ & _ & _ & _ & Hw)] c1 Hc1 Hs.
  simplify_eq. rewrite Hh, lookup_insert_eq in Hc1. simplify_eq. by apply Hw in Hn.
Qed.
Lemma closed_settled id t c : heap t !! id = Some c -> is_closed (status c) = true -> settled id t.
Proof. intros Hc Hcl c' Hc' Hn. simplify_eq. by rewrite Hn in Hcl. Qed.

Definition keeps_settled {A} (id : Z) (m : M zdtun_t A) (t : zdtun_t) : Prop :=
  wp m (fun _ t' => good id t t' /\ settled id t') t.

Lemma keeps_settled_from {A} id (m : M zdtun_t A) t t1 c1 :
  good id t t1 -> heap t1 !! id = Some c1 -> status c1 <> CONN_STATUS_NEW -> keeps id m t1 ->
  wp m (fun _ t' => good id t t' /\ settled id t') t1.
Proof.
  intros Hg Hc Hn Hk. eapply wp_mono; [exact Hk|]. intros a t' Hg'.
  split; [by eapply good_trans|by eapply good_settled].
Qed.

Lemma tcp_socket_syn_safe sys id t c :
  inv 0 t -> heap t !! id = Some c -> sock c <> INVALID_SOCKET ->
  keeps_settled id (tcp_socket_syn sys id) t.
Proof.
  intros Hi Hc Hs. destruct (start id t c Hi Hc) as [Hg Hok].
  unfold keeps_settled, tcp_socket_syn. g_run.
  assert (Hnc : is_closed (status c) = true -> False)
    by (intros Hcl; by apply Hs, (ok_closed _ Hok)).
  eapply g_fd_ops; [by do 3 right|eassumption|by destruct (ok_sock _ Hok)|].
  intros t1 Hg1 Hh1. upd. g_run.
  - eapply keeps_settled_from; [eassumption|eassumption|done|].
    eapply socks5_connect_safe; [eapply g_inv; eassumption|eassumption].
  - eapply keeps_settled_from; [eassumption|eassumption|done|].
    eapply send_syn_ack_safe; [eapply g_inv; eassumption|eassumption].
Qed.

Section socks5.
Context (sys : nat -> Z * list Z) (id : Z).

Lemma socks5_reply_last n t c data :
  inv 0 t -> heap t !! id = Some c -> socks5_status c <> SOCKS5_CONNECTING -> bytes_ok data ->
  keeps id (handle_socks5_reply sys (S n) id data) t.
Proof.
  intros Hi Hc Hst Hb. destruct (start id t c Hi Hc) as [Hg Hok]. unfold keeps.
  cbn [handle_socks5_reply]. g_step. g_step. destruct (socks5_status c) eqn:Es; [| |done| |].
  - g_run; try done. g_rd8. g_run; try done. g_rd8. g_run; try done.
    + destruct (socks5_user t) eqn:Eu; [|by rewrite andb_false_r in *].
      sub socks5_auth_safe; [by rewrite Eu|]. done.
    + sub socks5_req_safe. done.
  - g_run; try done. g_rd8. g_run. g_rd8. g_run; try done. sub socks5_req_safe. done.
  - g_run; try done. apply wp_when; intros _; g_run; done.
  - g_run; done.
Qed.

Lemma socks5_reply_safe t c data :
  inv 0 t -> heap t !! id = Some c -> bytes_ok data ->
  keeps id (handle_socks5_reply sys 2 id data) t.
Proof.
  intros Hi Hc Hb. destruct (decide (socks5_status c = SOCKS5_CONNECTING)) as [Hs|Hs];
    [|by eapply socks5_reply_last].
  destruct (start id t c Hi Hc) as [Hg Hok]. unfold keeps.
  remember 1%nat as k eqn:Ek.
  cbn [handle_socks5_reply]. subst k. g_step. g_step. rewrite Hs.
  g_run; try done. g_rd8. g_run; try done. g_rd8. g_run; try done.
  { repeat case_match; simplify_eq; g_run; done. }
  g_rd8. g_run; try done.
  all: sub socks5_reply_last; [done|by apply Forall_drop|done].
Qed.
End socks5.

(** ** Packets *)

(** A parsed packet that is not a fragment, its headers in memory. *)
Definition pkt_ok (p : zdtun_pkt) : Prop :=
  exists len, pkt_wf p len /\ len <= Z.of_nat (length (pkt_mem p)) /\ len <= 65535 /\
    bytes_ok (pkt_mem p) /\ pkt_is_fragment p = false.

(** What the options of a SYN must satisfy, whatever the default MSS. *)
Definition syn_ok (p : zdtun_pkt) : Prop :=
  forall off d, th_off p = Some off -> d <= REPLY_BUF_SIZE - 60 ->
  exists m scale,
    parse_opts (S (length (pkt_mem p))) (pkt_mem p) (pkt_ip_hdr_len p + TCP_HEADER_LEN)
      (u8 (off * 4 - TCP_HEADER_LEN)) d 0 = Some (m, scale) /\
    0 <= scale <= 15 /\ m <= REPLY_BUF_SIZE - 60.

Lemma default_mss_bound m ver :
  60 <= m <= REPLY_BUF_SIZE - 20 -> default_mss m ver <= REPLY_BUF_SIZE - 60.
Proof.
  intros Hm. unfold default_mss, REPLY_BUF_SIZE in *.
  case_match; rewrite uwrap_id by (unfold u_ok; lia); lia.
Qed.

(** Storing the socket just opened restores the balance of the count. *)
Lemma good_store id t t1 c c' :
  inv 0 t -> quiet t t1 -> inv 1 t1 -> heap t !! id = Some c ->
  sock c = INVALID_SOCKET -> conn_ok c' -> sock c' <> INVALID_SOCKET ->
  ipproto (c_tuple c') = ipproto (c_tuple c) -> is_closed (status c) = false ->
  (status c <> CONN_STATUS_NEW -> status c' <> CONN_STATUS_NEW) ->
  good id t (t1 <| heap := <[id := c']> (heap t1) |>).
Proof.
  intros Hi [Hh Ht Hn Hx _] Hi1 Hc Hs Hok Hs' Hp Hcl Hw. split.
  - rewrite <-Hh in Hc. pose proof (inv_update _ _ _ _ _ Hi1 Hc Hok Hp) as H.
    unfold has_sock in H. rewrite Hs in H. cbn [Z.eqb Pos.eqb INVALID_SOCKET negb b2z] in H.
    by rewrite (proj2 (Z.eqb_neq _ _) Hs') in H.
  - exists c, c'. simpl. rewrite Hh. split_and!; try done. by rewrite Hcl.
Qed.

Section tcp_fwd.
Context (sys : nat -> Z * list Z) (id : Z) (p : zdtun_pkt).
Hypothesis Hp : pkt_ok p.
Hypothesis Htcp : ipproto (pkt_tuple p) = IPPROTO_TCP.

Lemma tcp_fields :
  (exists v, th_seq p = Some v) /\ (exists v, th_ack p = Some v) /\ (exists v, th_win p = Some v /\ u_ok 16 v) /\
  (exists v, th_off p = Some v) /\ (exists v, tcp_th_flags p = Some v /\ u_ok 8 v).
Proof.
  destruct Hp as (len & Hwf & Hl & _ & Hb & Hf). pose proof (wf_tcp _ _ Hwf Htcp Hf) as Ht.
  pose proof (wf_ip_hdr _ _ Hwf). pose proof (wf_len _ _ Hwf). unfold TCP_HEADER_LEN in Ht.
  unfold th_seq, th_ack, th_win, th_off, tcp_th_flags.
  destruct (rd32_is_Some (pkt_mem p) (pkt_ip_hdr_len p + 4)) as (? & -> & _); [lia..|done|].
  destruct (rd32_is_Some (pkt_mem p) (pkt_ip_hdr_len p + 8)) as (? & -> & _); [lia..|done|].
  destruct (rd16_is_Some (pkt_mem p) (pkt_ip_hdr_len p + 14)) as (? & -> & ?); [lia..|done|].
  destruct (rd8_is_Some (pkt_mem p) (pkt_ip_hdr_len p + 12)) as (? & -> & _); [lia|done|].
  destruct (rd8_is_Some (pkt_mem p) (pkt_ip_hdr_len p + 13)) as (? & -> & ?); [lia|done|].
  cbn [fmap option_fmap option_map]. split_and!; eexists; first [done|split; [done|by auto with cint]].
Qed.

Lemma l7_data : exists data, rdn (Z.to_nat (pkt_l7_len p)) (pkt_mem p) (pkt_l7 p) = Some data /\
  length data = Z.to_nat (pkt_l7_len p) /\ bytes_ok data /\ 0 <= pkt_l7_len p <= 65535.
Proof.
  destruct Hp as (len & [] & Hl & H16 & Hb & _).
  destruct (rdn_is_Some (Z.to_nat (pkt_l7_len p)) (pkt_mem p) (pkt_l7 p)) as (l & E & ? & ?);
    [lia|lia|done|]. exists l. split_and!; [done|lia|done|lia|lia].
Qed.

Lemma enqueue_safe t c data flags :
  inv 0 t -> heap t !! id = Some c -> sock c <> INVALID_SOCKET -> bytes_ok data ->
  Z.of_nat (length data) <= 65535 -> keeps id (enqueue_tcp_data sys id data flags) t.
Proof.
  intros Hi Hc Hs Hb Hl. destruct (start id t c Hi Hc) as [Hg Hok].
  unfold keeps, enqueue_tcp_data. g_run; try done.
  - destruct Hok; split; simpl; try done. apply Forall_app. split; [done|].
    constructor; [|constructor]. rewrite uwrap_id by (unfold u_ok; lia).
    split; simpl; [done|]. split_and!; lia || done.
  - eapply g_fd_ops; [by right; right; left|eassumption|by destruct (ok_sock _ Hok)|].
    intros t2 Hg2 Hh2. g_run. done.
Qed.

(** After an ACK that was handled the socket is still the same. *)
Lemma tcp_fwd_ack_safe t c ka :
  inv 0 t -> heap t !! id = Some c -> sock c <> INVALID_SOCKET ->
  wp (tcp_fwd_ack sys id p ka) (fun rv t' => good id t t' /\
    (rv = 0 -> exists c', heap t' !! id = Some c' /\ sock c' = sock c)) t.
Proof.
  intros Hi Hc Hs. destruct (start id t c Hi Hc) as [Hg Hok].
  destruct tcp_fields as (_ & [ack Ha] & (win & Hw & Hwin) & _).
  unfold tcp_fwd_ack. g_run.
  - split; [done|]. case_match; [done|]. intros _.
    match goal with H : rv = 0 -> _ |- _ => rewrite H by (by destruct (Z.eqb_spec rv 0)) end. eauto.
  - eapply wp_lift; [exact Ha|]. g_step. eapply wp_lift; [exact Hw|]. g_step.
    eapply wp_lift; [apply int_shl_some, (ok_scale _ Hok); exact Hwin|]. g_step.
    + g_run. apply wp_when; intros _; [|g_run; eauto].
      eapply g_fd_ops; [by left|eassumption|by destruct (ok_sock _ Hok)|].
      intros t2 Hg2 Hh2. upd. g_run. eauto.
Qed.

Lemma tcp_fwd_fin_safe t c :
  inv 0 t -> heap t !! id = Some c -> keeps id (tcp_fwd_fin sys id p) t.
Proof.
  intros Hi Hc. destruct (start id t c Hi Hc) as [Hg Hok].
  unfold keeps, tcp_fwd_fin. g_run.
  assert (Hrest : forall t1, good id t t1 -> heap t1 !! id = Some c ->
    wp (set_conn id (fun c => c <| client_seq ::= fun n => u32 (n + (pkt_l7_len p + 1)) |>
                          <| client_closed := true |>) ;;
        build_reply sys id TH_ACK 0 0 ;;
        rv ← send_to_client sys id TCP_HEADER_LEN;
        c ← conn id;
        whenM (sock c =? INVALID_SOCKET) (zdtun_conn_close sys id CONN_STATUS_CLOSED) ;;
        mret rv) (fun _ t' => good id t t') t1).
  { intros t1 Hg1 Hc1. g_run. refresh t'1. g_run. apply wp_when; intros _; g_run; done. }
  apply wp_when; intros _; [do 3 g_step|]; by apply Hrest.
Qed.

Lemma tcp_fwd_payload_safe t c flags :
  inv 0 t -> heap t !! id = Some c -> keeps id (tcp_fwd_payload sys id p flags) t.
Proof.
  intros Hi Hc. destruct (start id t c Hi Hc) as [Hg Hok].
  destruct l7_data as (data & Hd & Hl & Hb & Hr).
  unfold keeps, tcp_fwd_payload. g_run; try done.
  eapply wp_lift; [exact Hd|]. sub enqueue_safe; [by apply Z.eqb_neq|lia|done].
Qed.

Lemma tcp_fwd_active_safe t c flags :
  inv 0 t -> heap t !! id = Some c -> keeps id (tcp_fwd_active sys id p flags) t.
Proof.
  intros Hi Hc. destruct (start id t c Hi Hc) as [Hg Hok].
  destruct tcp_fields as ([seq Hseq] & _).
  unfold keeps, tcp_fwd_active. g_step. g_step. g_step. g_step. g_step.
  eapply wp_lift; [exact Hseq|]. cbv zeta. g_step; [by g_run|]. g_step; [by g_run|].
  g_step; [by g_run|]. g_step; [by sub tcp_fwd_fin_safe|]. g_step. g_step.
  - eapply wp_mono; [eapply tcp_fwd_ack_safe; [by eapply g_inv|eassumption|]|].
    { match goal with H : _ && negb (sock c =? _) = true |- _ => apply andb_prop in H as [_ Hs] end.
      intros Hs'. by rewrite Hs' in Hs. }
    intros rv t2 [Hg2 Hrv]. assert (good id t t2) by (by eapply good_trans).
    g_run; [done|]. destruct Hrv as (c' & Hc' & _); [by destruct (Z.eqb_spec rv 0)|].
    by sub tcp_fwd_payload_safe.
  - g_step. by sub tcp_fwd_payload_safe.
Qed.

Lemma tcp_fwd_new_safe t c :
  inv 0 t -> heap t !! id = Some c -> status c = CONN_STATUS_NEW -> sock c = INVALID_SOCKET ->
  syn_ok p -> keeps_settled id (tcp_fwd_new sys id p) t.
Proof.
  intros Hi Hc Hnew Hs Hsyn. destruct (start id t c Hi Hc) as [Hg Hok].
  destruct tcp_fields as ([seq Hseq] & _ & (win & Hwin & Hw16) & [off Hoff] & _).
  unfold keeps_settled, tcp_fwd_new. g_step. g_step. g_step. g_step. g_step.
  apply wp_open_socket; [done| |].
  { intros t1 Hi1 Hq1. assert (Hg1 : good id t t1) by (by eapply good_quiet).
    rewrite <-(q_heap _ _ Hq1) in Hc. rewrite Z.eqb_refl. g_run.
    - by rewrite Hnew.
    - split; [done|]. by eapply closed_settled. }
  intros sk t1 Hi1 Hq1 Hfd.
  assert (Hsk : sk <> INVALID_SOCKET) by (intros ->; done).
  rewrite (proj2 (Z.eqb_neq _ _) Hsk).
  set (c1 := c <| sock := sk |>).
  assert (Hok1 : conn_ok c1).
  { unfold c1. destruct Hok. split; simpl; try done; [by right|]. by rewrite Hnew. }
  assert (Hg1 : good id t (t1 <| heap := <[id := c1]> (heap t1) |>))
    by (apply (good_store id t t1 c c1); done || by rewrite Hnew).
  g_step. eapply wp_set_conn; [by rewrite (q_heap _ _ Hq1)|].
  assert (Hc1 : heap (t1 <| heap := <[id := c1]> (heap t1) |>) !! id = Some c1)
    by (simpl; by rewrite lookup_insert_eq).
  change (c <| sock := sk |>) with c1.
  remember (t1 <| heap := <[id := c1]> (heap t1) |>) as t2 eqn:Et2. clear Et2.
  do 8 g_step. g_step. eapply wp_lift; [exact Hoff|]. g_step. g_step. g_step.
  destruct (Hsyn off (default_mss (mtu t'2) ver)) as (m & scale & Ho & Hsc & Hm); [done| |].
  { apply default_mss_bound. eapply inv_mtu, g_inv. eassumption. }
  eapply wp_lift; [exact Ho|]. cbv beta iota. g_step. eapply wp_lift; [exact Hwin|].
  g_step. eapply wp_lift; [by apply int_shl_some|].
  g_step. eapply g_set; [eassumption..| |done|done|done|done|].
  { destruct Hok1; split; simpl; done || lia. }
  intros t3 Hg3 Hc3. g_step. g_step. g_step.
  assert (Hcl : is_closed (status c) = false) by (by rewrite Hnew).
  assert (Hrest : forall errno t4 c4, good id t t4 -> heap t4 !! id = Some c4 ->
    sock c4 = sk -> status c4 = status c -> conn_ok c4 ->
    wp (if (r2 =? -1) && negb (errno =? EINPROGRESS) then
      close_with_socket_error sys id errno ;; mret 0
    else
      seq ← liftO (th_seq p);
      set_conn id (fun c => c <| client_seq := u32 (seq + 1) |> <| zdtun_seq := INITIAL_SEQ |>) ;;
      if negb (r2 =? -1) then tcp_socket_syn sys id else
      set_conn id (fun c => c <| status := CONN_STATUS_CONNECTING |>) ;;
      FD_SET_write sk ;;
      mret 0) (fun _ t' => good id t t' /\ settled id t') t4).
  { intros errno t4 c4 Hg4 Hc4 Hs4 Hst4 Hok4. g_step.
    { g_run. split; [done|]. by eapply closed_settled. }
    g_step. eapply wp_lift; [exact Hseq|]. g_step. g_step. g_step.
    - eapply wp_mono; [eapply tcp_socket_syn_safe; [by eapply g_inv|eassumption|by simpl; rewrite Hs4]|].
      intros rv t6 [Hg6 Hset]. split; [by eapply good_trans|done].
    - g_step. g_step; [by simpl; rewrite Hst4, Hcl|]. g_step.
      eapply g_fd_ops; [by right; right; left|eassumption|done|].
      intros t6 Hg6 Hh6. upd. g_run. split; [done|]. intros c' Hc'. by simplify_eq. }
  assert (Hok3 : conn_ok (c1 <| window_size := u32 (win <<< scale) |>
    <| window_scale := scale |> <| mss := m |>)) by (destruct Hok1; by split).
  destruct (r2 =? -1); g_step; (eapply Hrest; [eassumption|eassumption|done|done|done]).
Qed.

Lemma handle_tcp_fwd_safe t c :
  inv 0 t -> heap t !! id = Some c -> settled id t ->
  (status c = CONN_STATUS_NEW -> syn_ok p) -> keeps_settled id (handle_tcp_fwd sys id p) t.
Proof.
  intros Hi Hc Hset Hsyn. destruct (start id t c Hi Hc) as [Hg Hok].
  destruct tcp_fields as (_ & _ & _ & _ & flags & Hf & _).
  unfold keeps_settled, handle_tcp_fwd. g_step. eapply wp_lift; [exact Hf|]. g_step.
  { g_run. split; [done|]. by eapply closed_settled. }
  g_step. g_step. g_step; [by g_run|]. g_step.
  - apply bool_decide_eq_true in E1. apply tcp_fwd_new_safe with c; auto.
  - apply bool_decide_eq_false in E1. eapply wp_mono; [by eapply tcp_fwd_active_safe|].
    intros rv t' Hg'. split; [done|]. by eapply good_settled.
Qed.
End tcp_fwd.

Section replies.
Context (sys : nat -> Z * list Z) (id : Z).

Lemma tcp_reply_closed_safe t c :
  inv 0 t -> heap t !! id = Some c -> keeps id (tcp_reply_closed sys id) t.
Proof.
  intros Hi Hc. destruct (start id t c Hi Hc) as [Hg Hok].
  unfold keeps, tcp_reply_closed. g_step. g_step. g_step.
  assert (Hrest : forall t1, good id t t1 ->
    wp (c ← conn id;
        close_socket sys (sock c) ;;
        set_conn id (fun c => c <| sock := INVALID_SOCKET |>) ;;
        c ← conn id;
        whenM (client_closed c) (zdtun_conn_close sys id CONN_STATUS_CLOSED) ;;
        mret 0) (fun _ t' => good id t t') t1).
  { intros t1 Hg1. destruct (good_live _ _ _ Hg1) as (c1 & Hc1 & Hok1).
    g_step. g_step. apply wp_seq2.
    apply (wp_close_conn_socket sys id c1); [by eapply g_inv|done|].
    intros t2 Hi2 Hh2 Ht2 Hn2 Hx2 _.
    assert (Hg2 : good id t t2).
    { eapply good_trans; [exact Hg1|]. split; [done|].
      exists c1, (c1 <| sock := INVALID_SOCKET |>). by split_and!. }
    refresh t2. g_step. g_step. g_step. apply wp_when; intros _; g_run; done. }
  apply wp_when; intros _; [|by apply Hrest].
  g_step. eapply keeps_use; [by eapply tcp_socket_fin_ack_safe|done|]. intros [] t1 Hg1.
  refresh t1. g_step. by apply Hrest.
Qed.

Lemma tcp_reply_data_safe t c ver l4_len :
  inv 0 t -> heap t !! id = Some c -> sock c <> INVALID_SOCKET ->
  sock_ipver (socks5 t) c = Some ver -> 0 <= l4_len ->
  zdtun_iphdr_len ver + (l4_len + TCP_HEADER_LEN) <= REPLY_BUF_SIZE ->
  keeps id (tcp_reply_data sys id ver l4_len) t.
Proof.
  intros Hi Hc Hs Hv Hl Hfit. destruct (start id t c Hi Hc) as [Hg Hok].
  unfold keeps, tcp_reply_data. g_step. g_step. g_step; [by g_run|].
  g_step. apply wp_sysint. intros count. cbv zeta. g_step.
  set (t1 := t <| calls := S (calls t) |>).
  assert (Hg1 : good id t t1) by (by apply (good_same _ _ t)).
  eapply (g_build sys id t c _ l4_len 0 _ t1); [done|done|by destruct (count =? 0); vm_compute|lia|done| |].
  { intros v Hv'. simpl in Hv'. simplify_eq. lia. }
  intros t2 Hg2 Hh2. simpl in Hh2. upd. g_step. g_step. g_step; [by g_run|].
  assert (Hc2 : heap t' !! id = Some c).
  { match goal with H : rv = 0 -> _ |- _ => rewrite H by (by destruct (Z.eqb_spec rv 0)) end. done. }
  g_step. g_step. g_step. g_step. g_step. apply wp_when; intros _; [|by g_run].
  eapply g_fd_ops; [by right; left|eassumption|by destruct (ok_sock _ Hok)|].
  intros t3 Hg3 Hh3. by g_run.
Qed.

Lemma handle_tcp_reply_safe t c :
  inv 0 t -> heap t !! id = Some c -> sock c <> INVALID_SOCKET ->
  keeps id (handle_tcp_reply sys id) t.
Proof.
  intros Hi Hc Hs. destruct (start id t c Hi Hc) as [Hg Hok].
  unfold keeps, handle_tcp_reply. g_step. g_step. g_step. g_step. g_step.
  pose proof (ok_mss _ Hok) as Hmss.
  assert (Hfit : zdtun_iphdr_len ver + TCP_HEADER_LEN + Z.max (cmin (window_size c) (mss c)) 0
    <= REPLY_BUF_SIZE)
    by (unfold REPLY_BUF_SIZE, TCP_HEADER_LEN in *; destruct (iphdr_len_cases ver); lia).
  eapply g_sock_recv; [eassumption| |exact Hfit|].
  { unfold TCP_HEADER_LEN. destruct (iphdr_len_cases ver); lia. }
  intros n t1 Hg1 Hh1 Hx1 Hn. upd. rewrite <-Hx1 in H. g_step.
  eapply wp_now; [by eapply g_inv|]. intros v t2 Hi2 Hq2.
  assert (Hg2 : good id t t2) by (by eapply good_quiet).
  rewrite <-(q_heap _ _ Hq2) in Hc. rewrite <-(q_socks5 _ _ Hq2) in H.
  g_step. eapply wp_set_conn; [exact Hc|].
  set (c3 := c <| tstamp := v |>). set (t3 := t2 <| heap := <[id := c3]> (heap t2) |>).
  assert (Hok3 : conn_ok c3) by (unfold c3; by destruct Hok).
  assert (Hc3 : heap t3 !! id = Some c3) by (simpl; by rewrite lookup_insert_eq).
  assert (Hg3 : good id t t3).
  { eapply good_trans; [exact Hg2|]. split; [by apply (inv_update_same 0 t2 id c)|].
    exists c, c3. by split_and!. }
  assert (Hv3 : sock_ipver (socks5 t3) c3 = Some ver) by done.
  g_step; [by g_run|]. g_step; [by sub tcp_reply_closed_safe|]. g_step.
  - g_step. g_step. g_step.
    destruct (inv_buf _ _ (g_inv _ _ _ Hg3)) as [Hbl Hb].
    destruct (rdn_is_Some (Z.to_nat n) (reply_buf t3) (zdtun_iphdr_len ver + TCP_HEADER_LEN))
      as (data & E' & _ & Hbd); [|unfold TCP_HEADER_LEN, REPLY_BUF_SIZE in *;
        destruct (iphdr_len_cases ver); lia|done|].
    { unfold TCP_HEADER_LEN. destruct (iphdr_len_cases ver); lia. }
    eapply wp_lift; [exact E'|]. g_step. sub socks5_reply_safe. intros rv t4 Hg4.
    refresh t4. g_step; [by g_run|]. g_step. g_step. g_step; [|by g_run].
    by sub send_syn_ack_safe.
  - sub tcp_reply_data_safe; [lia|unfold TCP_HEADER_LEN in *; lia|done].
Qed.

Lemma handle_tcp_connect_async_safe t c :
  inv 0 t -> heap t !! id = Some c -> sock c <> INVALID_SOCKET ->
  keeps id (handle_tcp_connect_async sys id) t.
Proof.
  intros Hi Hc Hs. destruct (start id t c Hi Hc) as [Hg Hok].
  unfold keeps, handle_tcp_connect_async. g_step. g_step. g_step; [by g_run|]. g_step. g_step.
  g_step; [|by g_run]. g_step.
  eapply wp_mono; [eapply tcp_socket_syn_safe; [by eapply g_inv|eassumption|done]|].
  intros rv t1 [Hg1 _]. assert (Hg1' : good id t t1) by (by eapply good_trans).
  destruct (good_live _ _ _ Hg1') as (c1 & Hc1 & Hok1). by g_run.
Qed.

(** The queue: what is left of it after a turn is still well formed. *)
Lemma send_queue_safe t0 q sent t c :
  good id t0 t -> heap t !! id = Some c -> sock c <> INVALID_SOCKET -> tx_queue c = q ->
  wp (send_queue sys id q sent) (fun r t' => good id t0 t' /\
    forall n, r = inr n -> exists c', heap t' !! id = Some c' /\ sock c' = sock c) t.
Proof.
  revert sent t c. induction q as [|item q IH]; intros sent t c Hg Hc Hs Hq; cbn [send_queue].
  { g_run. eauto. }
  pose proof (inv_conn _ _ _ _ (g_inv _ _ _ Hg) Hc) as Hok.
  pose proof (ok_queue _ Hok) as Hqok. rewrite Hq in Hqok.
  inversion Hqok as [|? ? [Hlen [Hsf [Hmax Hb]]] Hrest]; subst.
  g_step. g_step. g_step.
  destruct (rdn_is_Some (Z.to_nat (td_len item - td_sofar item)) (td_data item) (td_sofar item))
    as (data & E & Hld & _); [lia|lia|done|].
  eapply wp_lift; [exact E|]. g_step. g_step. g_step.
  - g_step. g_step. g_step; [g_run; split; [done|]; by intros ? [=]|]. g_run. eauto.
  - g_step.
    + g_step. eapply g_set; [eassumption..| |done|done|done|done|].
      { destruct Hok. split; simpl; try done. constructor; [|done].
        split; simpl; [done|]. rewrite uwrap_id by (unfold u_ok; lia). split_and!; lia || done. }
      intros t2 Hg2 Hc2. g_run. split; [done|]. intros n _. eauto.
    + g_step. eapply g_set; [eassumption..| |done|done|done|done|].
      { destruct Hok. split; simpl; try done. }
      intros t2 Hg2 Hc2. eapply wp_mono; [by eapply IH|]. intros r t3 [Hg3 Hr]. by split.
Qed.

Lemma handle_queued_tcp_data_safe t c :
  inv 0 t -> heap t !! id = Some c -> sock c <> INVALID_SOCKET ->
  keeps id (handle_queued_tcp_data sys id) t.
Proof.
  intros Hi Hc Hs. destruct (start id t c Hi Hc) as [Hg Hok].
  unfold keeps, handle_queued_tcp_data. g_step. g_step. g_step.
  eapply wp_mono; [by eapply send_queue_safe|]. intros [rv|sent] t1 [Hg1 Hr]; [by g_run|].
  destruct (Hr sent eq_refl) as (c1 & Hc1 & Hs1).
  pose proof (inv_conn _ _ _ _ (g_inv _ _ _ Hg1) Hc1) as Hok1. g_step. g_step. g_step.
  assert (Hrest : forall t2, good id t t2 -> heap t2 !! id = Some c1 ->
    wp (if 0 <? sent then
        set_conn id (fun c => c <| client_seq ::= fun n => u32 (n + sent) |>
                                <| tx_queue_size ::= fun n => u32 (n - sent) |>) ;;
        build_reply sys id TH_ACK 0 0 ;;
        rv ← send_to_client sys id TCP_HEADER_LEN;
        mret (if rv <? 0 then -1 else 0)
      else mret 0) (fun _ t' => good id t t') t2) by (intros t2 Hg2 Hc2; g_run; done).
  apply wp_when; intros _; [|by apply Hrest].
  eapply g_fd_ops; [by do 3 right|eassumption|destruct (ok_sock _ Hok1); congruence|].
  intros t2 Hg2 Hh2. upd. by apply Hrest.
Qed.
End replies.

Section udp_icmp.
Context (sys : nat -> Z * list Z) (id : Z).

(** On success nothing but the table of port mappings has changed. *)
Lemma bind_and_connect_safe t c :
  inv 0 t -> heap t !! id = Some c ->
  wp (bind_and_connect_udp sys id) (fun rv t' => good id t t' /\
    (rv < 0 -> settled id t') /\ (0 <= rv -> heap t' = heap t)) t.
Proof.
  intros Hi Hc. destruct (start id t c Hi Hc) as [Hg Hok].
  unfold bind_and_connect_udp, fill_ipv6_bind_addr.
  assert (Hbad : forall t1, good id t t1 -> wp (zdtun_conn_close sys id CONN_STATUS_ERROR ;; mret (-1))
    (fun rv t' => good id t t' /\ (rv < 0 -> settled id t') /\ (0 <= rv -> heap t' = heap t)) t1).
  { intros t1 Hg1. g_run. split; [done|]. split; [|lia]. intros _. by eapply closed_settled. }
  assert (Hbad' : forall t1, good id t t1 ->
    wp (errno ← sysint sys; close_with_socket_error sys id errno ;; mret (-1))
    (fun rv t' => good id t t' /\ (rv < 0 -> settled id t') /\ (0 <= rv -> heap t' = heap t)) t1).
  { intros t1 Hg1. g_run. split; [done|]. split; [|lia]. intros _. by eapply closed_settled. }
  g_step. g_step. g_step. g_step. g_step.
  assert (Hrest : forall t1, good id t t1 -> heap t1 = heap t ->
    wp (t ← getS;
  let mapping := HASH_FIND (udp_mapping_key (c_tuple c)) (udp_mappings t) in
  r ← sysint sys;
  if r <? 0 then errno ← sysint sys; close_with_socket_error sys id errno ;; mret (-1) else
  r ← sysint sys;
  if r =? -1 then errno ← sysint sys; close_with_socket_error sys id errno ;; mret (-1) else
  r ← sysint sys;
  if r =? -1 then errno ← sysint sys; close_with_socket_error sys id errno ;; mret (-1) else
  match mapping with
  | None =>
      r ← sysint sys;
      if r <? 0 then errno ← sysint sys; close_with_socket_error sys id errno ;; mret (-1) else
      port ← sysint sys;
      modifyS (fun t => t <| udp_mappings ::=
        HASH_ADD (udp_mapping_key (c_tuple c)) (UdpMapping (u16 port) 1) |>) ;;
      mret 0
  | Some m =>
      whenM (num_uses m <? 0xFFFF)
        (modifyS (fun t => t <| udp_mappings ::=
          HASH_SET (udp_mapping_key (c_tuple c)) (UdpMapping (um_port m) (num_uses m + 1)) |>)) ;;
      mret 0
  end) (fun rv t' => good id t t' /\ (rv < 0 -> settled id t') /\ (0 <= rv -> heap t' = heap t)) t1).
  { intros t1 Hg1 Hh1. g_step. g_step. g_step.
    assert (Hdone : forall t2 f, good id t t2 -> heap t2 = heap t ->
      good id t (t2 <| udp_mappings ::= f |>) /\ (0 < 0 -> settled id (t2 <| udp_mappings ::= f |>)) /\
      (0 <= 0 -> heap (t2 <| udp_mappings ::= f |>) = heap t)).
    { intros t2 f Hg2 Hh2. split; [by apply (good_same _ _ t2)|]. split; [lia|done]. }
    g_step. eapply g_sysint; [eassumption|]; intros r2 t2 Hg2 Hh2.
    g_step; [by apply Hbad'|]. g_step. eapply g_sysint; [eassumption|]; intros r3 t3 Hg3 Hh3.
    g_step; [by apply Hbad'|]. g_step. eapply g_sysint; [eassumption|]; intros r4 t4 Hg4 Hh4.
    g_step; [by apply Hbad'|]. destruct (HASH_FIND _ _) as [m|].
    - g_step. apply wp_when; intros _.
      + g_step. g_step. apply Hdone; [done|congruence].
      + g_step. split; [done|]. split; [lia|]. intros _. congruence.
    - g_step. eapply g_sysint; [eassumption|]; intros r5 t5 Hg5 Hh5.
      g_step; [by apply Hbad'|]. g_step. eapply g_sysint; [eassumption|]; intros r6 t6 Hg6 Hh6.
      g_step. g_step. g_step. apply Hdone; [done|congruence]. }
  g_step.
  - g_step. eapply g_sysint; [eassumption|]; intros r1 t1 Hg1 Hh1.
    g_step; [g_step; by apply Hbad|].
    g_step. eapply g_sysint; [eassumption|]; intros r2 t2 Hg2 Hh2. g_step.
    destruct (r2 =? 0); [by apply Hbad|]. apply Hrest; [done|congruence].
  - g_step. by apply Hrest.
Qed.

Lemma udp_multicast_safe ver c t0 (Q : unit -> zdtun_t -> Prop) t :
  good id t0 t -> conn_ok c -> (forall t', good id t0 t' -> heap t' = heap t -> Q tt t') ->
  wp (udp_multicast sys ver c) Q t.
Proof.
  intros Hg Hok HQ. unfold udp_multicast.
  destruct (ok_tuple _ Hok) as (_ & [Hl Hb] & _).
  destruct (ver =? 4).
  - apply wp_when; intros _; [|by apply HQ].
    g_step. eapply g_sysint; [eassumption|]; intros r1 t1 Hg1 Hh1. g_step. by apply HQ.
  - g_step. g_rd8. apply wp_when; intros _; [|by apply HQ].
    g_step. eapply g_sysint; [eassumption|]; intros r1 t1 Hg1 Hh1.
    g_step. eapply g_sysint; [eassumption|]; intros r2 t2 Hg2 Hh2.
    g_step. eapply g_sysint; [eassumption|]; intros r3 t3 Hg3 Hh3. g_step.
    apply HQ; [done|congruence].
Qed.

Lemma udp_fwd_new_safe t c :
  inv 0 t -> heap t !! id = Some c -> status c = CONN_STATUS_NEW -> sock c = INVALID_SOCKET ->
  wp (udp_fwd_new sys id) (fun rv t' => good id t t' /\ (rv < 0 -> settled id t') /\
    (0 <= rv -> exists c', heap t' !! id = Some c' /\ status c' = CONN_STATUS_CONNECTED)) t.
Proof.
  intros Hi Hc Hnew Hs. destruct (start id t c Hi Hc) as [Hg Hok].
  unfold udp_fwd_new. g_step. g_step. g_step. g_step. g_step.
  apply wp_open_socket; [done| |].
  { intros t1 Hi1 Hq1. assert (Hg1 : good id t t1) by (by eapply good_quiet).
    rewrite Z.eqb_refl. g_run. split; [done|]. split; [|lia]. intros _ c' Hc' _.
    rewrite (q_heap _ _ Hq1) in Hc'. by simplify_eq. }
  intros sk t1 Hi1 Hq1 Hfd.
  assert (Hsk : sk <> INVALID_SOCKET) by (intros ->; done).
  rewrite (proj2 (Z.eqb_neq _ _) Hsk).
  set (c1 := c <| sock := sk |>).
  assert (Hok1 : conn_ok c1).
  { unfold c1. destruct Hok. split; simpl; try done; [by right|]. by rewrite Hnew. }
  assert (Hg1 : good id t (t1 <| heap := <[id := c1]> (heap t1) |>))
    by (apply (good_store id t t1 c c1); done || by rewrite Hnew).
  g_step. eapply wp_set_conn; [by rewrite (q_heap _ _ Hq1)|].
  assert (Hc1 : heap (t1 <| heap := <[id := c1]> (heap t1) |>) !! id = Some c1)
    by (simpl; by rewrite lookup_insert_eq).
  change (c <| sock := sk |>) with c1.
  remember (t1 <| heap := <[id := c1]> (heap t1) |>) as t2 eqn:Et2. clear Et2.
  g_step. eapply udp_multicast_safe; [eassumption|done|]. intros t3 Hg3 Hh3. upd.
  g_step. eapply wp_mono; [eapply bind_and_connect_safe; [by eapply g_inv|eassumption]|].
  intros rv t4 (Hg4 & Hset4 & Hh4). assert (good id t t4) by (by eapply good_trans).
  g_step; [g_run; split; [done|]; split; [|lia]; intros _; apply Hset4; lia|].
  rewrite <-Hh4 in Hc1 by lia. g_step. g_step; [by simpl; rewrite Hnew|].
  g_run. split; [done|]. split; [lia|]. intros _. eauto.
Qed.

Lemma check_dns_request_safe mem off len t c :
  inv 0 t -> heap t !! id = Some c -> bytes_ok mem -> 0 <= off ->
  off + len <= Z.of_nat (length mem) -> keeps id (check_dns_request id mem off len) t.
Proof.
  intros Hi Hc Hb Ho Hl. destruct (start id t c Hi Hc) as [Hg Hok].
  unfold keeps, check_dns_request. g_step. g_step. g_step; [by g_run|].
  unfold is_dns_packet, DNS_PACKET_SIZE in *.
  destruct (rd16_is_Some mem (off + 2)) as (v & Hv & _); [lia|lia|done|].
  g_step. eapply wp_lift; [exact Hv|]. apply wp_when; intros _; by g_run.
Qed.

Lemma check_dns_purge_safe off len t c :
  inv 0 t -> heap t !! id = Some c -> 0 <= off -> off + len <= REPLY_BUF_SIZE ->
  keeps id (check_dns_purge sys id off len) t.
Proof.
  intros Hi Hc Ho Hl. destruct (start id t c Hi Hc) as [Hg Hok].
  unfold keeps, check_dns_purge. g_step. g_step. g_step; [by g_run|].
  unfold is_dns_packet, DNS_PACKET_SIZE in *. destruct (inv_buf _ _ Hi) as [Hbl Hb].
  g_step. g_step. destruct (rd16_is_Some (reply_buf t) (off + 2)) as (v & Hv & _); [lia|lia|done|].
  g_step. eapply wp_lift; [exact Hv|]. by g_run.
Qed.

(** The part of [handle_udp_fwd] once the socket exists. *)
Lemma handle_udp_fwd_safe p t c :
  pkt_ok p -> inv 0 t -> heap t !! id = Some c -> settled id t ->
  keeps_settled id (handle_udp_fwd sys id p) t.
Proof.
  intros Hp Hi Hc Hset. destruct (start id t c Hi Hc) as [Hg Hok].
  unfold keeps_settled, handle_udp_fwd. g_step. g_step. g_step. g_step. g_step.
  assert (Hrest : forall t1 c1, good id t t1 -> heap t1 !! id = Some c1 ->
    status c1 <> CONN_STATUS_NEW ->
    wp (account_in id p ;;
      c ← conn id;
      data ← liftO (rdn (Z.to_nat (pkt_l7_len p)) (pkt_mem p) (pkt_l7 p));
      rv ← sock_send sys (sock c) data;
      if rv <? 0 then errno ← sysint sys; close_with_socket_error sys id errno ;; mret 0 else
      check_dns_request id (pkt_mem p) (pkt_l7 p) (pkt_l7_len p) ;;
      mret 0) (fun _ t' => good id t t' /\ settled id t') t1).
  { intros t1 c1 Hg1 Hc1 Hn1. eapply keeps_settled_from; [exact Hg1|exact Hc1|exact Hn1|].
    destruct (start id t1 c1 (g_inv _ _ _ Hg1) Hc1) as [Hg1' Hok1]. clear Hg1.
    destruct (l7_data p Hp) as (data & Hd & Hld & Hb & Hr).
    destruct Hp as (len & Hwf & Hlen & _ & Hbm & _).
    unfold keeps. g_step. g_step. g_step. g_step. g_step. eapply wp_lift; [exact Hd|].
    g_step. g_step. g_step; [by g_run|]. g_step. sub check_dns_request_safe.
    - rewrite (wf_l7 _ _ Hwf). pose proof (wf_ip_hdr _ _ Hwf). pose proof (wf_l4_hdr _ _ Hwf). lia.
    - rewrite (wf_l7 _ _ Hwf). pose proof (wf_layers _ _ Hwf). pose proof (wf_len _ _ Hwf). lia.
    - intros [] t2 Hg2. by g_run. }
  g_step.
  - apply bool_decide_eq_true in E. eapply wp_mono; [eapply udp_fwd_new_safe; eauto|].
    intros rv t1 (Hg1 & Hset1 & Hok1). g_step.
    + g_run. split; [done|]. apply Hset1. lia.
    + destruct Hok1 as (c1 & Hc1 & Hst1); [lia|]. by eapply Hrest; [..|rewrite Hst1].
  - apply bool_decide_eq_false in E. g_step. change (0 <? 0) with false. by eapply Hrest.
Qed.

(** Writing a piece of the reply buffer. *)
Lemma good_buf t0 t buf :
  good id t0 t -> length buf = length (reply_buf t) -> bytes_ok buf ->
  good id t0 (t <| reply_buf := buf |>).
Proof.
  intros Hg Hl Hb. eapply good_quiet; [exact Hg| |by split].
  apply inv_set_buf; [apply Hg| |done]. rewrite Hl. apply (inv_buf _ _ (g_inv _ _ _ Hg)).
Qed.

Lemma handle_udp_reply_safe t c :
  inv 0 t -> heap t !! id = Some c -> keeps id (handle_udp_reply sys id) t.
Proof.
  intros Hi Hc. destruct (start id t c Hi Hc) as [Hg Hok].
  unfold keeps, handle_udp_reply. g_step. g_step. g_step. g_step. g_step.
  destruct (iphdr_len_cases ver) as [Hhl|Hhl].
  all: assert (0 <= zdtun_iphdr_len ver <= 40) by lia.
  all: eapply g_sock_recv; [eassumption| | |]; rewrite ?Hhl;
    [unfold UDP_HEADER_LEN; lia|unfold UDP_HEADER_LEN, REPLY_BUF_SIZE; lia|].
  all: intros n t1 Hg1 Hh1 Hx1 Hn; rewrite <-?Hhl in *; upd; g_step; [by g_run|].
  all: unfold UDP_HEADER_LEN in *.
  all: destruct (inv_buf _ _ (g_inv _ _ _ Hg1)) as [Hbl Hb]; pose proof (ok_tuple _ Hok) as Htu.
  all: g_step; g_step; g_step; unfold REPLY_BUF_SIZE in *.
  all: destruct (wrn_safe (zdtun_iphdr_len ver) (udphdr_bytes (c_tuple c) (n + 8) 0) (reply_buf t1))
    as (b1 & E1 & Hl1 & Hb1);
    [lia|unfold udphdr_bytes; rewrite !length_app, !length_le_bytes; lia|
     unfold udphdr_bytes; solve_bytes|done|].
  all: eapply wp_lift; [exact E1|]; g_step; unfold zdtun_make_iphdr.
  all: pose proof (length_iphdr ver (c_tuple c) (u16 (n + 8)) Htu) as Hlh.
  all: destruct (wrn_safe 0 (make_iphdr_bytes ver (c_tuple c) (u16 (n + 8))) b1)
    as (b2 & E2 & Hl2 & Hb2); [lia|lia|by apply iphdr_bytes_ok|done|].
  all: eapply wp_lift; [exact E2|]; g_step.
  all: assert (Hu : u16 (n + 8) = n + 8) by (apply uwrap_id; unfold u_ok; lia); rewrite Hu.
  all: destruct (l3_checksum_safe ver (ipproto (c_tuple c)) b2 (zdtun_iphdr_len ver) (n + 8))
    as [sum Hsum]; [done|lia..|].
  all: eapply (wp_lift (if ver =? 4 then Some 0 else _) _ _ (if ver =? 4 then 0 else sum));
    [by destruct (ver =? 4)|].
  all: set (sum' := if ver =? 4 then 0 else sum); g_step.
  all: destruct (wrn_safe (zdtun_iphdr_len ver + 6) (le_bytes 2 sum') b2)
    as (b3 & E3 & Hl3 & Hb3); [lia|rewrite length_le_bytes; lia|apply le_bytes_ok|done|].
  all: eapply wp_lift; [exact E3|]; g_step; g_step.
  all: assert (Hg2 : good id t (t1 <| reply_buf := b3 |>)) by (apply good_buf; [done|congruence|done]).
  all: g_step; g_step; refresh t'; g_step; apply wp_when; intros _; [|by g_run].
  all: g_step; g_step; g_step; g_step; g_step; sub check_dns_purge_safe;
    [lia|pose proof (uwrap_ok 16 n); unfold u_ok, REPLY_BUF_SIZE in *; rewrite uwrap_id by (unfold u_ok; lia); lia|].
  all: intros rv' t4 Hg4; by g_run.
Qed.
End udp_icmp.

End ZdtunSafe.
