(* ===== verification/ZdtunApi.v ===== *)
(** * The whole packet engine of zdtun, over its entry points

    The ICMP handlers, then [zdtun_easy_forward], [zdtun_handle_fd] and
    [zdtun_purge_expired]: from [zdtun_init], every sequence of calls is
    defined, whatever the client, the servers and the system calls do, as long
    as the SYNs satisfy [syn_ok].  The end of the file shows that each part of
    [syn_ok] is needed. *)

From S2P Require Import Prelude UtHash ZdtunTypes ZdtunConn ZdtunPkt ZdtunWire ZdtunState ZdtunInv ZdtunClose ZdtunTcp ZdtunFwd ZdtunSafe.
Import ZdtunPkt ZdtunWire ZdtunState ZdtunInv ZdtunClose ZdtunTcp ZdtunFwd ZdtunSafe.

Module ZdtunApi.

(** A store into a local copy of the buffer. *)
Lemma wp_wrn off bs buf (Q : list Z -> zdtun_t -> Prop) t :
  0 <= off -> off + Z.of_nat (length bs) <= Z.of_nat (length buf) -> bytes_ok bs -> bytes_ok buf ->
  (forall b, length b = length buf -> bytes_ok b -> Q b t) -> wp (liftO (wrn off bs buf)) Q t.
Proof.
  intros Ho Hfit Hbs Hbuf HQ. destruct (wrn_safe off bs buf) as (b & E & Hl & Hb); [done..|].
  eapply wp_lift; [exact E|]. by apply HQ.
Qed.

Section icmp.
Context (sys : nat -> Z * list Z) (id : Z).

(** The identifier and the whole message are inside the packet. *)
Lemma icmp_fields p :
  pkt_ok p -> ipproto (pkt_tuple p) = IPPROTO_ICMP ->
  (exists v, rd16 (pkt_mem p) (pkt_ip_hdr_len p + 4) = Some v /\ u_ok 16 v) /\
  exists data, rdn (Z.to_nat (u16 (pkt_l4_hdr_len p + pkt_l7_len p))) (pkt_mem p)
    (pkt_ip_hdr_len p) = Some data.
Proof.
  intros (len & Hwf & Hl & H16 & Hb & Hf) Hp.
  pose proof (wf_icmp _ _ Hwf Hp Hf). pose proof (wf_ip_hdr _ _ Hwf). pose proof (wf_len _ _ Hwf).
  pose proof (wf_l7_len _ _ Hwf). pose proof (wf_layers _ _ Hwf). unfold ICMP_HEADER_LEN in *.
  destruct (rd16_is_Some (pkt_mem p) (pkt_ip_hdr_len p + 4)) as (v & Hv & Hok); [lia..|done|].
  split; [by eexists|]. rewrite uwrap_id by (unfold u_ok; lia).
  destruct (rdn_is_Some (Z.to_nat (pkt_l4_hdr_len p + pkt_l7_len p)) (pkt_mem p) (pkt_ip_hdr_len p))
    as (l & E & _); [lia|lia|done|]. by eexists.
Qed.

Lemma handle_icmp_fwd_safe p t c :
  pkt_ok p -> ipproto (pkt_tuple p) = IPPROTO_ICMP -> inv 0 t -> heap t !! id = Some c ->
  settled id t -> keeps_settled id (handle_icmp_fwd sys id p) t.
Proof.
  intros Hp Hpr Hi Hc Hset. destruct (start id t c Hi Hc) as [Hg Hok].
  destruct (icmp_fields p Hp Hpr) as [(echo & Hecho & Hu) [data Hdata]].
  unfold keeps_settled, handle_icmp_fwd. g_step. g_step. g_step.
  assert (Hrest : forall t1 c1, good id t t1 -> heap t1 !! id = Some c1 ->
    status c1 <> CONN_STATUS_NEW ->
    wp (account_in id p ;;
      c ← conn id;
      conn_ipver c ;;
      data ← liftO (rdn (Z.to_nat (u16 (pkt_l4_hdr_len p + pkt_l7_len p))) (pkt_mem p)
        (pkt_ip_hdr_len p));
      rv ← sock_send sys (sock c) data;
      if rv <? 0 then errno ← sysint sys; close_with_socket_error sys id errno ;; mret (-1)
      else mret 0) (fun _ t' => good id t t' /\ settled id t') t1).
  { intros t1 c1 Hg1 Hc1 Hn1. eapply keeps_settled_from; [exact Hg1|exact Hc1|exact Hn1|].
    destruct (start id t1 c1 (g_inv _ _ _ Hg1) Hc1) as [Hg1' Hok1]. clear Hg1.
    unfold keeps. g_step. g_step. g_step. g_step. g_step. g_step. g_step.
    eapply wp_lift; [exact Hdata|]. g_run; done. }
  g_step.
  - apply bool_decide_eq_true in E. pose proof (Hset c Hc E) as Hs. g_step. g_step. g_step.
    apply wp_open_socket; [done| |].
    { intros t1 Hi1 Hq1. assert (Hg1 : good id t t1) by (by eapply good_quiet).
      rewrite <-(q_heap _ _ Hq1) in Hc. g_step. eapply wp_lift; [exact Hecho|].
      rewrite Z.eqb_refl. g_step. g_step.
      - by rewrite E in *.
      - g_run; try done. split; [done|]. by eapply closed_settled. }
    intros sk t1 Hi1 Hq1 Hfd. g_step. eapply wp_lift; [exact Hecho|].
    assert (Hsk : sk <> INVALID_SOCKET) by (intros ->; done).
    rewrite (proj2 (Z.eqb_neq _ _) Hsk). g_step.
    eapply wp_set_conn; [by rewrite (q_heap _ _ Hq1)|].
    match goal with |- context [<[id := ?x]> (heap t1)] => set (c1 := x) end.
    assert (Hok1 : conn_ok c1).
    { unfold c1. destruct (ok_tuple _ Hok) as (? & ? & ? & ? & ?).
      destruct Hok. split; simpl; try done; by right. }
    assert (Hg1 : good id t (t1 <| heap := <[id := c1]> (heap t1) |>)).
    { apply (good_store id t t1 c c1); try done; by rewrite E. }
    g_step. eapply wp_conn; [by simpl; rewrite lookup_insert_eq|]. g_step.
    eapply g_emit; [exact (ok_tuple _ Hok1)|exact Hg1|]. intros t2 Hg2 Hh2. g_step. change (0 <? 0) with false.
    apply (Hrest _ c1); [done|rewrite Hh2; by simpl; rewrite lookup_insert_eq|done].
  - apply bool_decide_eq_false in E. g_step. change (0 <? 0) with false. by eapply Hrest.
Qed.

Lemma handle_icmp_reply_safe t c :
  inv 0 t -> heap t !! id = Some c -> keeps id (handle_icmp_reply sys id) t.
Proof.
  intros Hi Hc. destruct (start id t c Hi Hc) as [Hg Hok].
  unfold keeps, handle_icmp_reply. g_step. g_step. g_step. g_step. g_step.
  set (off := zdtun_iphdr_len ver).
  assert (Ho : 0 <= off <= 40) by (unfold off; destruct (iphdr_len_cases ver); lia).
  eapply g_sock_recv; [eassumption|lia|unfold REPLY_BUF_SIZE; lia|].
  intros n t1 Hg1 Hh1 Hx1 Hn. upd. unfold REPLY_BUF_SIZE in Hn. g_step; [by g_run|].
  g_step; [by g_run|]. apply Z.ltb_ge in E0. pose proof (ok_tuple _ Hok) as Htu.
  destruct (inv_buf _ _ (g_inv _ _ _ Hg1)) as [Hbl Hb]. unfold REPLY_BUF_SIZE in Hbl.
  g_step. g_step. g_step. g_rd8. g_step; [by g_run|].
  g_step. apply wp_wrn; [lia|rewrite length_le_bytes; lia|apply le_bytes_ok|done|].
  intros b1 Hl1 Hb1. g_step. g_step. g_step. g_step. g_step.
  apply wp_wrn; [lia|rewrite length_le_bytes; lia|apply le_bytes_ok|done|]. intros b2 Hl2 Hb2.
  g_step. destruct (rdn_is_Some (Z.to_nat n) b2 off) as (data & Hd & _); [lia|lia|done|].
  eapply wp_lift; [exact Hd|]. g_step.
  assert (Hrest : forall b, length b = length b2 -> bytes_ok b ->
    wp (buf ← liftO (zdtun_make_iphdr ver (c_tuple c) (u16 n) b);
        buf ← (if ver =? 6 then
                 sum ← liftO (zdtun_l3_checksum ver (ipproto (c_tuple c)) buf off (u16 n));
                 liftO (wrn (off + 2) (le_bytes 2 sum) buf)
               else mret buf);
        modifyS (fun t => t <| reply_buf := buf |>) ;;
        send_to_client sys id n) (fun _ t' => good id t t') t'0).
  { intros b Hl Hbo. unfold zdtun_make_iphdr. g_step.
    pose proof (length_iphdr ver (c_tuple c) (u16 n) Htu) as Hlh. fold off in Hlh.
    apply wp_wrn; [lia|lia|by apply iphdr_bytes_ok|done|]. intros b3 Hl3 Hb3.
    assert (Hfin : forall b', length b' = length b2 -> bytes_ok b' ->
      wp (modifyS (fun t => t <| reply_buf := b' |>) ;; send_to_client sys id n)
        (fun _ t' => good id t t') t'0).
    { intros b' Hl' Hb'. g_step. g_step. destruct (inv_buf _ _ (g_inv _ _ _ H2)) as [Hbl2 _].
      eapply g_send; [apply good_buf; [exact H2| |done]|].
      - unfold REPLY_BUF_SIZE in Hbl2. lia.
      - by intros rv t3 Hg3 _. }
    g_step. g_step.
    - g_step. destruct (l3_checksum_safe ver (ipproto (c_tuple c)) b3 off (u16 n)) as [sum Hsum];
        [done|lia|lia|apply uwrap_ok; lia|rewrite uwrap_id by (unfold u_ok; lia); lia|].
      eapply wp_lift; [exact Hsum|].
      apply wp_wrn; [lia|rewrite length_le_bytes; lia|apply le_bytes_ok|done|].
      intros b4 Hl4 Hb4. apply Hfin; [congruence|done].
    - g_step. apply Hfin; [congruence|done]. }
  destruct (ver =? 4).
  - apply wp_wrn; [lia|rewrite length_le_bytes; lia|apply le_bytes_ok|done|]. apply Hrest.
  - by eapply wp_lift; [done|apply Hrest].
Qed.
End icmp.


(** ** The state between two calls *)

Definition ready (t : zdtun_t) : Prop := inv 0 t /\ forall id, settled id t.

Lemma ready_init : ready zdtun_init.
Proof. split; [apply inv_init|]. intros id c Hc. discriminate Hc. Qed.

Lemma ready_touches id t t' : ready t -> good id t t' -> settled id t' -> ready t'.
Proof.
  intros [Hi Hs] [Hi' Ht] Hset. split; [done|]. intros i. destruct (decide (i = id)) as [->|Hne]; [done|].
  intros c Hc. rewrite (touches_lookup_ne _ _ _ _ Ht Hne) in Hc. by apply (Hs i).
Qed.

Lemma ready_subset t t' : ready t -> inv 0 t' -> heap t' ⊆ heap t -> ready t'.
Proof. intros [Hi Hs] Hi' Hsub. split; [done|]. intros id c Hc. apply (Hs id). by eapply lookup_weaken. Qed.

Lemma ready_from_old create t t' : ready t -> inv 0 t' -> from_old create t t' -> ready t'.
Proof.
  intros [Hi Hs] Hi' Hf. split; [done|]. intros id c Hc Hn.
  destruct (Hf _ _ Hc) as [Hc'|(_ & tu & n & ->)]; [by apply (Hs id)|done].
Qed.

(** A handler of a connection that is not new leaves it not new. *)
Lemma ready_keeps {A} id (m : M zdtun_t A) t c (Q : A -> zdtun_t -> Prop) :
  ready t -> heap t !! id = Some c -> status c <> CONN_STATUS_NEW -> keeps id m t ->
  (forall a t', ready t' -> good id t t' -> Q a t') -> wp m Q t.
Proof.
  intros Hr Hc Hn Hk HQ. eapply wp_mono; [exact Hk|]. intros a t' Hg. apply HQ; [|done].
  eapply ready_touches; [exact Hr|exact Hg|]. by eapply good_settled.
Qed.

Section api.
Context (sys : nat -> Z * list Z).

Lemma zdtun_forward_safe p id t c :
  pkt_ok p -> ready t -> heap t !! id = Some c ->
  (status c = CONN_STATUS_NEW -> ipproto (pkt_tuple p) = IPPROTO_TCP -> syn_ok p) ->
  wp (zdtun_forward sys p id) (fun _ t' => ready t' /\ good id t t') t.
Proof.
  intros Hp Hr Hc Hsyn. pose proof Hr as [Hi Hset].
  assert (Hg : good id t t) by (apply good_refl; [done|by eexists]).
  assert (Hrest : forall rv t1, good id t t1 /\ settled id t1 ->
    wp (whenM (rv =? 0) (now ← zdtun_now sys; set_conn id (fun c => c <| tstamp := now |>)) ;;
        mret rv) (fun _ t' => ready t' /\ good id t t') t1).
  { intros rv t1 [Hg1 Hs1]. refresh t1. pose proof (Hs1 _ Hc0) as Hs0. g_step. apply wp_when; intros _.
    - g_step. g_step. g_step. g_step. split; [|done]. eapply ready_touches; [done|done|].
      intros c' Hc'. by simplify_eq.
    - g_step. split; [|done]. by eapply ready_touches. }
  unfold zdtun_forward. g_step. g_step. g_step; [g_step; by split|]. cbv zeta.
  destruct (ipproto (pkt_tuple p) =? IPPROTO_TCP) eqn:E6; cbn [orb negb].
  - apply Z.eqb_eq in E6. g_step. eapply wp_mono; [|apply Hrest].
    eapply handle_tcp_fwd_safe; eauto.
  - destruct (ipproto (pkt_tuple p) =? IPPROTO_UDP) eqn:E17; cbn [orb negb].
    + g_step. eapply wp_mono; [|apply Hrest]. by eapply handle_udp_fwd_safe.
    + g_step; [g_step; by split|]. apply negb_false_iff, Z.eqb_eq in E0.
      g_step. eapply wp_mono; [|apply Hrest]. by eapply handle_icmp_fwd_safe.
Qed.

Lemma handle_conn_fd_safe rd wr id rv t :
  ready t -> is_Some (heap t !! id) ->
  wp (handle_conn_fd sys rd wr id rv) (fun _ t' => ready t' /\ good id t t') t.
Proof.
  intros Hr [c Hc]. pose proof Hr as [Hi Hset].
  assert (Hg : good id t t) by (apply good_refl; [done|by eexists]).
  unfold handle_conn_fd. g_step. g_step. cbv zeta.
  destruct (sock c =? INVALID_SOCKET) eqn:Es; [g_step; by split|]. apply Z.eqb_neq in Es.
  assert (Hn : status c <> CONN_STATUS_NEW) by (intros Hn; by apply Es, (Hset id)).
  repeat match goal with
  | |- wp (mret _) _ _ => wp_step; by split
  | |- wp (if ?b then _ else _) _ _ => destruct b
  | |- wp (match tx_queue c with _ => _ end) _ _ => destruct (tx_queue c)
  end; (eapply ready_keeps; [done|done|done| |by intros]).
  - by eapply handle_tcp_reply_safe.
  - by eapply handle_udp_reply_safe.
  - by eapply handle_icmp_reply_safe.
  - by eapply handle_tcp_connect_async_safe.
  - by eapply handle_queued_tcp_data_safe.
Qed.

Lemma handle_fd_loop_safe rd wr ids rv t :
  ready t -> (forall id, id ∈ ids -> is_Some (heap t !! id)) ->
  wp (handle_fd_loop sys rd wr ids rv) (fun _ => ready) t.
Proof.
  revert rv t. induction ids as [|id ids IH]; intros rv t Hr Hl; cbn [handle_fd_loop]; [by g_step|].
  g_step. eapply wp_mono; [apply handle_conn_fd_safe; [done|apply Hl; by left]|].
  intros rv' t1 [Hr1 Hg1]. g_step; [by g_step|]. apply IH; [done|].
  intros i Hi. destruct (decide (i = id)) as [->|Hne].
  - destruct (good_live _ _ _ Hg1) as (? & ? & _). by eexists.
  - rewrite (touches_lookup_ne _ _ _ _ (g_touches _ _ _ Hg1) Hne). apply Hl. by right.
Qed.

Lemma zdtun_handle_fd_safe rd wr t :
  ready t -> wp (zdtun_handle_fd sys rd wr) (fun _ => ready) t.
Proof.
  intros Hr. unfold zdtun_handle_fd. g_step. g_step. apply handle_fd_loop_safe; [done|].
  intros id. by apply (inv_live _ _ (proj1 Hr)).
Qed.

(** [p] may start a TCP connection: it is a SYN, or a connection of its tuple
  is still waiting for one. *)
Definition may_start (t : zdtun_t) (p : zdtun_pkt) : Prop :=
  (exists flags, tcp_th_flags p = Some flags /\
    negb (has_flag flags TH_SYN) || has_flag flags TH_ACK = false) \/
  (exists id c, heap t !! id = Some c /\ c_tuple c = pkt_tuple p /\ status c = CONN_STATUS_NEW).

(** What the caller of [zdtun_easy_forward] has to guarantee. *)
Definition forward_ok (t : zdtun_t) (buf : list Z) (len : Z) : Prop :=
  bytes_ok buf /\ u16 len <= Z.of_nat (length buf) /\
  forall p f, zdtun_parse_pkt buf (u16 len) (id2ports t) = Some (inr p, f) ->
    pkt_is_fragment p = false -> ipproto (pkt_tuple p) = IPPROTO_TCP -> may_start t p -> syn_ok p.

Lemma parsed_pkt_ok p buf len :
  pkt_wf p len -> pkt_mem p = buf -> bytes_ok buf -> u_ok 16 len -> len <= Z.of_nat (length buf) ->
  pkt_is_fragment p = false -> pkt_ok p.
Proof. intros Hwf <- Hb Hu Hl Hf. exists len. unfold u_ok in Hu. split_and!; try done; lia. Qed.

Lemma zdtun_easy_forward_safe buf len t :
  ready t -> forward_ok t buf len -> wp (zdtun_easy_forward sys buf len) (fun _ => ready) t.
Proof.
  intros Hr (Hb & Hl & Hsyn). pose proof Hr as [Hi Hset].
  assert (Hu : u_ok 16 (u16 len)) by (apply uwrap_ok; lia).
  unfold zdtun_easy_forward. g_step. g_step. g_step.
  destruct (zdtun_parse_pkt_run buf (u16 len) Hb (conj (proj1 Hu) Hl) (id2ports t) Hu (inv_frag _ _ Hi))
    as (r & f & E & Hf & Hp).
  eapply wp_lift; [exact E|]. g_step. g_step. set (t1 := t <| id2ports := snd (r, f) |>).
  assert (Hr1 : ready t1) by (split; [by apply inv_set_frag|done]).
  cbn [fst]. destruct r as [e|p]; [by g_step|]. destruct Hp as [Hwf Hmem].
  destruct (pkt_is_fragment p) eqn:Efr; [by g_step|].
  pose proof (parsed_pkt_ok p buf (u16 len) Hwf Hmem Hb Hu Hl Efr) as Hok.
  assert (Htu : tuple_ok (pkt_tuple p)).
  { destruct (wf_ports _ _ Hwf) as [? ?]. destruct Hwf. by split_and!. }
  assert (Hrest : forall e, (ipproto (pkt_tuple p) = IPPROTO_TCP -> exists flags,
      tcp_th_flags p = Some flags /\ negb (has_flag flags TH_SYN) || has_flag flags TH_ACK = e) ->
    wp (found ← zdtun_lookup sys (pkt_tuple p) (negb e);
      match found with
      | None => mret None
      | Some id =>
          rv ← zdtun_forward sys p id;
          if negb (rv =? 0) then zdtun_conn_close sys id CONN_STATUS_ERROR ;; mret None
          else mret (Some id)
      end) (fun _ => ready) t1).
  { intros e He. g_step. apply wp_lookup; [apply Hr1|done|]. intros r t2 Hi2 Hfo Hfound.
    assert (Hr2 : ready t2) by (by eapply ready_from_old).
    destruct r as [id|]; [|by g_step]. destruct (Hfound id eq_refl) as (c & Hc & Hct & _).
    g_step. eapply wp_mono; [eapply zdtun_forward_safe; [done|done|exact Hc|]|].
    - intros Hn Htcp. destruct (He Htcp) as (flags & Hflags & Hee).
      apply (Hsyn p f E Efr Htcp). destruct (Hfo _ _ Hc) as [Hold|[Hcr _]].
      + right. by exists id, c.
      + left. exists flags. split; [done|]. rewrite Hee. by destruct e.
    - intros rv t3 [Hr3 Hg3]. g_step; [|by g_step]. refresh t3. g_step.
      eapply g_close; [apply good_refl; [apply Hr3|by eexists]|]. intros t4 c4 Hg4 Hc4 Hcl.
      g_step. eapply ready_touches; [done|done|]. by eapply closed_settled. }
  g_step. g_step.
  - apply Z.eqb_eq in E0. destruct (tcp_fields p Hok E0) as (_ & _ & _ & _ & flags & Hflags & _).
    g_step. eapply wp_lift; [exact Hflags|]. g_step. apply Hrest. by exists flags.
  - g_step. apply Hrest. intros Htcp. by rewrite Htcp in E0.
Qed.

(** ** Sequences of calls *)

(** What the program asks of a [zdtun_t] once it has been initialised. *)
Inductive api_call :=
  | CallEasyForward (buf : list Z) (len : Z)
  | CallLookup (tuple : zdtun_5tuple) (create : bool)
  | CallForward (p : zdtun_pkt) (id : Z)
  | CallProxy (id : Z)
  | CallDnat (id : Z) (ip : zdtun_ip) (port ver : Z)
  | CallClose (id : Z) (st : zdtun_conn_status)
  | CallHandleFd (rd_fds wr_fds : gset Z)
  | CallPurge
  | CallSocks5 (ip : zdtun_ip) (port ver : Z)
  | CallUserpass (user pass : list Z)
  | CallMtu (mtu : Z).

Definition run_call (c : api_call) : M zdtun_t unit :=
  match c with
  | CallEasyForward buf len => zdtun_easy_forward sys buf len ;; mret tt
  | CallLookup tuple create => zdtun_lookup sys tuple create ;; mret tt
  | CallForward p id => zdtun_forward sys p id ;; mret tt
  | CallProxy id => set_conn id zdtun_conn_proxy
  | CallDnat id ip port ver => set_conn id (fun c => zdtun_conn_dnat c ip port ver)
  | CallClose id st => zdtun_conn_close sys id st
  | CallHandleFd rd wr => zdtun_handle_fd sys rd wr ;; mret tt
  | CallPurge => zdtun_purge_expired sys
  | CallSocks5 ip port ver => zdtun_set_socks5_proxy ip port ver
  | CallUserpass user pass => zdtun_set_socks5_userpass user pass
  | CallMtu m => zdtun_set_mtu m
  end.

(** Pointers are those of live connections, packets are parsed packets, and
  the SYNs satisfy [syn_ok]. *)
Definition call_ok (t : zdtun_t) (c : api_call) : Prop :=
  match c with
  | CallEasyForward buf len => forward_ok t buf len
  | CallLookup tuple _ => tuple_ok tuple
  | CallForward p id => pkt_ok p /\ exists c, heap t !! id = Some c /\
      (status c = CONN_STATUS_NEW -> ipproto (pkt_tuple p) = IPPROTO_TCP -> syn_ok p)
  | CallProxy id | CallDnat id _ _ _ | CallClose id _ => is_Some (heap t !! id)
  | CallMtu m => 60 <= m <= REPLY_BUF_SIZE - 20
  | _ => True
  end.

Inductive reachable : zdtun_t -> Prop :=
  | reach_init : reachable zdtun_init
  | reach_call t c t' : reachable t -> call_ok t c -> run_call c t = Some (tt, t') -> reachable t'.

Lemma set_conn_safe f id t c :
  ready t -> heap t !! id = Some c -> conn_ok (f c) -> sock (f c) = sock c ->
  c_tuple (f c) = c_tuple c -> status (f c) = status c ->
  wp (set_conn id f) (fun _ => ready) t.
Proof.
  intros Hr Hc Hok Hs Htu Hst. assert (Hg : good id t t) by (apply good_refl; [apply Hr|by eexists]).
  eapply (g_set id t f c); try done; [by rewrite Htu|by rewrite Hst|].
  intros t' Hg' Hc'. eapply ready_touches; [done|done|].
  intros c' Hc'' Hn. simplify_eq. rewrite Hs. apply (proj2 Hr id c Hc). congruence.
Qed.

Lemma run_call_safe c t : ready t -> call_ok t c -> wp (run_call c) (fun _ => ready) t.
Proof.
  intros Hr Hok. pose proof Hr as [Hi Hset].
  destruct c as [buf len|tuple create|p id|id|id ip port ver|id st|rd wr| |ip port ver|u pw|m];
    cbn [run_call call_ok] in *.
  - wp_step. eapply wp_mono; [by apply zdtun_easy_forward_safe|]. intros. by wp_step.
  - wp_step. apply wp_lookup; [done..|]. intros r t' Hi' Hfo _. wp_step. by eapply ready_from_old.
  - destruct Hok as (Hp & c & Hc & Hsyn). wp_step.
    eapply wp_mono; [by eapply zdtun_forward_safe|]. intros rv t' [Hr' _]. by wp_step.
  - destruct Hok as [c Hc]. pose proof (inv_conn _ _ _ _ Hi Hc) as Hok.
    eapply set_conn_safe; [done|exact Hc|..]; unfold zdtun_conn_proxy; case_match; try done.
    destruct Hok; by split.
  - destruct Hok as [c Hc]. pose proof (inv_conn _ _ _ _ Hi Hc) as Hok.
    eapply set_conn_safe; [done|exact Hc|..]; try done.
    destruct Hok; split; try done. by eexists.
  - destruct Hok as [c Hc]. eapply wp_close; [done..|]. intros t' c' Hi' Ht Hh Hcl _.
    eapply (ready_touches id); [done|by split|]. eapply closed_settled; [|done].
    by rewrite Hh, lookup_insert_eq.
  - wp_step. eapply wp_mono; [by apply zdtun_handle_fd_safe|]. intros. by wp_step.
  - apply wp_purge; [done|]. intros t' Hi' Hsub _. by eapply ready_subset.
  - unfold zdtun_set_socks5_proxy. wp_step. split; [by apply (inv_same 0 t)|done].
  - unfold zdtun_set_socks5_userpass. wp_step. split; [|done]. destruct Hi. by split.
  - unfold zdtun_set_mtu. wp_step. split; [|done]. destruct Hi. split; try done. simpl.
    unfold REPLY_BUF_SIZE in *. rewrite uwrap_id by (unfold u_ok; lia). lia.
Qed.
End api.

(** C17: A call of the API made in a reachable state, as [call_ok] asks, returns, without
    an access out of bounds, a use of a freed connection, a NULL dereference or an
    undefined shift, and gives a state that satisfies the invariant again; whatever
    the system calls return, the servers send and the client's packets contain, but for
    the options of a SYN.  [call_ok]: pointers are live, packets lie in their buffer, the
    MTU is between 60 and 65515, and the options of a SYN that opens a connection satisfy
    [syn_ok]: with the bytes behind the packet they are ones the parser survives, the
    window scale is at most 15 (a larger one can overflow the [int] it is applied to) and
    the MSS is at most 65475.  The code checks none of the three, and [syn_ok_needed] has
    an undefined run for each. *)
Theorem zdtun_safe sys t c :
  reachable sys t -> call_ok t c ->
  exists t', run_call sys c t = Some (tt, t') /\ inv 0 t' /\ reachable sys t'.
Proof.
  intros Hr Hok. assert (Hready : ready t).
  { clear Hok. induction Hr as [|t c' t' _ IH Hok' E]; [apply ready_init|].
    destruct (run_call_safe sys c' t IH Hok') as ([] & t2 & E' & Hr2). by simplify_eq. }
  destruct (run_call_safe sys c t Hready Hok) as ([] & t' & E & [Hi _]).
  exists t'. split_and!; [done|done|]. by eapply reach_call.
Qed.

(** ** Concrete runs *)

(** A SYN from 10.0.0.1:40000 to 8.8.8.8:443 with [opts] as its options. *)
Definition syn_with (opts : list Z) : list Z :=
  [0x45; 0; 0; u8 (40 + Z.of_nat (length opts)); 0; 1; 0; 0; 64; 6; 0; 0; 10; 0; 0; 1; 8; 8; 8; 8;
   0x9c; 0x40; 1; 0xbb; 0; 0; 0; 1; 0; 0; 0; 0;
   u8 ((5 + Z.of_nat (length opts) / 4) * 16); 2; 255; 255; 0; 0; 0; 0] ++ opts.
Definition syn_call (opts : list Z) : api_call :=
  CallEasyForward (syn_with opts) (40 + Z.of_nat (length opts)).

Definition opts_mss1460 : list Z := [2; 4; 5; 180].

Lemma syn_call_ok : call_ok zdtun_init (syn_call opts_mss1460).
Proof.
  split; [apply (bool_decide_eq_true_1 _); reflexivity|]. split; [by vm_compute|].
  intros p f E _ _ _ off d Hoff _. vm_compute in E. injection E as <- <-.
  vm_compute in Hoff. injection Hoff as <-. exists 1460, 0. split; [reflexivity|]. by vm_compute.
Qed.

Lemma zdtun_safe_witness :
  exists t', run_call sys_ok (syn_call opts_mss1460) zdtun_init = Some (tt, t') /\ inv 0 t' /\
    reachable sys_ok t'.
Proof. apply zdtun_safe; [apply reach_init|apply syn_call_ok]. Defined.

(** A run of several calls. *)
Fixpoint run_calls (sys : nat -> Z * list Z) (cs : list api_call) : M zdtun_t unit :=
  match cs with [] => mret tt | c :: cs => run_call sys c ;; run_calls sys cs end.
Definition defined (sys : nat -> Z * list Z) (cs : list api_call) : bool :=
  match run_calls sys cs zdtun_init with Some _ => true | None => false end.

(** The options of an ordinary Linux SYN: MSS, SACK permitted, timestamps, NOP,
    window scale. *)
Definition opts_linux : list Z :=
  [2; 4; 5; 180; 4; 2; 8; 10; 0; 0; 0; 1; 0; 0; 0; 0; 1; 3; 3; 7].
(** An MSS of 65535 and a window scale of 16. *)
Definition opts_big_mss : list Z := [2; 4; 255; 255].
Definition opts_big_scale : list Z := [3; 3; 16; 0].
(** Every call succeeds, and a server sends as much as it is asked for. *)
Definition sys_flood : nat -> Z * list Z := fun _ => (0, replicate (Z.to_nat 65535) 7).

(** Every part of [syn_ok] is needed.  A NOP option lengthens what is left of
    the options instead of shortening it, so that the options of an ordinary
    SYN are read past the end of the packet; a window of 65535
    scaled by 16 does not fit in the [int] it is computed in; after an MSS of 65535 the first full read of the server
    writes past the end of [reply_buf].  With a plain MSS the same runs are
    defined. *)
Theorem syn_ok_needed :
  defined sys_flood [syn_call opts_linux] = false /\
  defined sys_flood [syn_call opts_big_scale] = false /\
  defined sys_flood [syn_call opts_big_mss; CallHandleFd {[0]} ∅] = false /\
  defined sys_flood [syn_call opts_big_mss] = true /\
  defined sys_flood [syn_call opts_mss1460; CallHandleFd {[0]} ∅] = true.
Proof. split_and!; vm_compute; reflexivity. Qed.

(** An echo reply the client sends: its identifier is stored in the tuple of the
    connection after the tuple was hashed, so that the next one does not find it and
    opens another socket. *)
Definition echo_reply : list Z :=
  [0x45; 0; 0; 28; 0; 1; 0; 0; 64; 1; 0; 0; 10; 0; 0; 1; 8; 8; 8; 8; 0; 0; 0; 0; 0; 7; 0; 1].
Definition echo_tuple : zdtun_5tuple :=
  Tuple (ip_of_ip4 0x0100000a) (ip_of_ip4 0x08080808) 0 (htons 7) 4 IPPROTO_ICMP.
Definition echo_call : api_call := CallEasyForward echo_reply 28.
Example echo_reply_not_found :
  match run_calls sys_ok [echo_call; echo_call] zdtun_init with
  | Some (_, t) => bool_decide (conn_table t = [(echo_tuple, 1); (echo_tuple, 2)]) && (num_icmp_opened (stats t) =? 2)
  | None => false
  end = true.
Proof. vm_compute. reflexivity. Qed.

End ZdtunApi.
