(* ===== verification/ZdtunEvents.v ===== *)
(** * What zdtun tells the program that uses it

    The order of the callbacks: a connection is named after it was opened and before
    it was closed, its end is told at once or once more right away, and what is sent
    to the client is a packet with a header, with room behind it. *)

From S2P Require Import Prelude UtHash ZdtunTypes ZdtunConn ZdtunPkt ParseMore ZdtunWire ZdtunState ZdtunInv ZdtunClose ZdtunTcp ZdtunFwd ZdtunSafe ZdtunApi.
Import ZdtunPkt ParseMore ZdtunWire ZdtunState ZdtunInv ZdtunClose ZdtunTcp ZdtunFwd ZdtunSafe ZdtunApi.

Module ZdtunEvents.

(** ** The program that listens *)

(** Which connections it was told of, those that will not be told closed, and the one
    it was last told closed, with whether that may be told again. *)
Record client := Client {
    cl_open : gset Z;
    cl_stuck : gset Z;
    cl_last : option (Z * bool);
    cl_next : Z;
  }.
#[export] Instance eta_client : Eta client := fun c => Client (cl_open c) (cl_stuck c) (cl_last c) (cl_next c).
Definition client_init : client := Client ∅ ∅ None 1.

(** [None] is a callback out of order. *)
Definition client_step (e : event) (cl : client) : option client :=
  match e with
  | EvConnOpen id _ ok =>
      if cl_next cl <=? id then
        Some (Client (if ok then {[id]} ∪ cl_open cl else cl_open cl) (cl_stuck cl) None (id + 1))
      else None
  | EvSendClient id _ _ => if bool_decide (id ∈ cl_open cl) then Some (cl <| cl_last := None |>) else None
  | EvAccount id _ _ st =>
      if bool_decide (id ∈ cl_open cl) && negb (is_closed st) then Some (cl <| cl_last := None |>) else None
  | EvConnClose id st =>
      if negb (is_closed st) then None
      else if bool_decide (id ∈ cl_open cl) then
        Some (cl <| cl_open := cl_open cl ∖ {[id]} |> <| cl_last := Some (id, true) |>)
      else if bool_decide (cl_last cl = Some (id, true)) then Some (cl <| cl_last := Some (id, false) |>)
      else None
  | EvTuple id _ => if bool_decide (id ∈ cl_open cl) then Some (cl <| cl_last := None |>) else None
  | EvNoSocket id =>
      if bool_decide (id ∈ cl_open cl) then
        Some (cl <| cl_open := cl_open cl ∖ {[id]} |> <| cl_stuck := {[id]} ∪ cl_stuck cl |> <| cl_last := None |>)
      else None
  | _ => Some cl
  end.
(** The newest event first. *)
Fixpoint client_run (cl : client) (tr : list event) : option client :=
  match tr with [] => Some cl | e :: tr => cl ← client_run cl tr; client_step e cl end.

(** A packet for the client: an IP header, inside the buffer; and, where the reads leave
    [room], 16 bytes of the buffer behind it. *)
Definition sent_ok (room : Prop) (e : event) : Prop :=
  match e with
  | EvSendClient _ p _ =>
      20 <= pkt_ip_hdr_len p /\ pkt_len p <= REPLY_BUF_SIZE /\ (room -> pkt_len p + 16 <= REPLY_BUF_SIZE)
  | _ => True
  end.

(** ** The invariant *)

Record agrees (cl : client) (t : zdtun_t) : Prop := {
    ag_open : forall id, id ∈ cl_open cl <-> conn_open t id = true;
    ag_next : cl_next cl <= next_ptr t;
    ag_heap : map_Forall (fun id _ => id < next_ptr t) (heap t);
  }.
Definition told_of (id : Z) (cl : client) : Prop :=
  id ∈ cl_open cl \/ id ∈ cl_stuck cl \/ exists again, cl_last cl = Some (id, again).

Section events.
Context (room : Prop) (cl0 : client).
Local Abbreviation sent_ok := (sent_ok room).

(** [P] is what is known of the client. *)
Definition calls_ok (P : client -> Prop) (t : zdtun_t) : Prop :=
  exists cl, client_run cl0 (trace t) = Some cl /\ agrees cl t /\ Forall sent_ok (trace t) /\ P cl.
Definition in_order : zdtun_t -> Prop := calls_ok (fun _ => True).
(** After an operation on the connection; and as long as it is open. *)
Definition told (id : Z) : zdtun_t -> Prop := calls_ok (told_of id).
Definition opened (id : Z) (t : zdtun_t) : Prop := in_order t /\ conn_open t id = true.

Lemma calls_mono (P Q : client -> Prop) t : (forall cl, P cl -> Q cl) -> calls_ok P t -> calls_ok Q t.
Proof. intros HPQ (cl & H1 & H2 & H3 & H4). exists cl. auto. Qed.
Lemma opened_told id t : opened id t -> told id t.
Proof. intros [(cl & H1 & H2 & H3 & _) Ho]. exists cl. split_and!; try done. left. by apply (ag_open _ _ H2). Qed.

(** ** Operations nobody hears of *)

Definition is_sock (e : event) : Prop := match e with EvSockOpen _ | EvSockClose _ | EvSockSend _ _ => True | _ => False end.
Record frame (t t' : zdtun_t) : Prop := {
    fr_heap : heap t' = heap t;
    fr_next : next_ptr t' = next_ptr t;
    fr_trace : exists evs, trace t' = evs ++ trace t /\ Forall is_sock evs;
  }.
Lemma frame_refl t : frame t t.
Proof. split; [done|done|]. by exists []. Qed.
Lemma frame_trans t1 t2 t3 : frame t1 t2 -> frame t2 t3 -> frame t1 t3.
Proof.
  intros [H1 N1 (e1 & E1 & F1)] [H2 N2 (e2 & E2 & F2)]. split; [congruence|congruence|].
  exists (e2 ++ e1). rewrite E2, E1, app_assoc. split; [done|]. by apply Forall_app.
Qed.
Lemma calls_frame P t t' : frame t t' -> calls_ok P t -> calls_ok P t'.
Proof.
  intros [Hh Hn (evs & Et & Hs)] (cl & Hc & [Ho Hx Hm] & Hf & HP). exists cl. rewrite Et. split.
  { clear Et Hf. induction Hs as [|e evs He _ IH]; [done|]. cbn [app client_run]. rewrite IH. by destruct e. }
  split; [split; [intros id; rewrite Ho; unfold conn_open; by rewrite Hh|by rewrite Hn|by rewrite Hh, Hn]|].
  split; [|done]. apply Forall_app. split; [|done]. eapply Forall_impl; [exact Hs|]. by intros [].
Qed.
Lemma opened_frame id t t' : frame t t' -> opened id t -> opened id t'.
Proof.
  intros Hf [Hi Ho]. split; [by eapply calls_frame|]. unfold conn_open in *. by rewrite (fr_heap _ _ Hf).
Qed.

Definition calm {A} (m : M zdtun_t A) : Prop := forall t, wlp m (fun _ => frame t) t.
Lemma wlp_calm {A} (m : M zdtun_t A) (Q : A -> zdtun_t -> Prop) t :
  calm m -> (forall a t', frame t t' -> Q a t') -> wlp m Q t.
Proof. intros Hm HQ. eapply wlp_mono; [apply Hm|]. auto. Qed.
Lemma frame_set t0 t t' :
  frame t0 t -> heap t' = heap t -> next_ptr t' = next_ptr t -> trace t' = trace t -> frame t0 t'.
Proof. intros F Hh Hn Ht. eapply frame_trans; [exact F|]. split; [done|done|]. exists []. by rewrite Ht. Qed.
Lemma frame_sock t0 t t' e :
  frame t0 t -> heap t' = heap t -> next_ptr t' = next_ptr t -> trace t' = e :: trace t -> is_sock e -> frame t0 t'.
Proof.
  intros F Hh Hn Ht He. eapply frame_trans; [exact F|]. split; [done|done|]. exists [e]. rewrite Ht.
  split; [done|]. by constructor.
Qed.
End events.

#[export] Hint Resolve frame_refl : core.
Create HintDb calm discriminated.
(** [F] is the frame so far. *)
Ltac calm_step :=
  lazymatch goal with
  | |- wlp (let _ := _ in _) _ _ => cbv zeta
  | |- wlp (mbind _ _) _ _ => apply wlp_bind
  | |- wlp (mret _) _ _ => apply wlp_ret
  | |- wlp getS _ _ => apply wlp_get
  | |- wlp (modifyS _) _ _ => apply wlp_modify
  | |- wlp (putS _) _ _ => apply wlp_put
  | |- wlp (liftO _) _ _ => apply wlp_lift; intros ? ?
  | |- wlp (whenM _ _) _ _ => apply wlp_when; intros ?
  | |- wlp ub _ _ => intros ? ? [=]
  | |- wlp (if ?b then _ else _) _ _ => destruct b
  | |- wlp (match ?x with _ => _ end) _ _ => destruct x
  | |- wlp _ _ _ =>
      eapply wlp_calm; [solve [eauto with calm]|];
      let t' := fresh "t" in let F' := fresh "F" in intros ? t' F';
      match goal with F : frame _ ?t, F' : frame ?t t' |- _ => pose proof (frame_trans _ _ _ F F'); clear F F' end
  end.
Ltac calm_end :=
  first [ eassumption
        | eapply frame_set; [eassumption|reflexivity..]
        | eapply frame_sock; [eassumption|reflexivity..|exact I] ].
Ltac calm_run := let t := fresh "t" in intros t; pose proof (frame_refl t); repeat calm_step; try calm_end.

Section calm.
Context (sys : nat -> Z * list Z).

Lemma calm_syscall : calm (syscall sys).
Proof. unfold syscall. calm_run. Qed.
#[local] Hint Resolve calm_syscall : calm.
Lemma calm_sysint : calm (sysint sys).
Proof. unfold sysint. calm_run. Qed.
#[local] Hint Resolve calm_sysint : calm.
Lemma calm_now : calm (zdtun_now sys).
Proof. unfold zdtun_now. calm_run. Qed.
Lemma calm_conn id : calm (conn id).
Proof. unfold conn. calm_run. Qed.
Lemma calm_ipver c : calm (conn_ipver c).
Proof. unfold conn_ipver. calm_run. Qed.
#[local] Hint Resolve calm_now calm_conn calm_ipver : calm.
Lemma calm_stats f : calm (upd_stats f).
Proof. unfold upd_stats. calm_run. Qed.
Lemma calm_fd fd : calm (FD_SET_all fd) /\ calm (FD_CLR_all fd) /\ calm (FD_SET_write fd) /\ calm (FD_CLR_write fd).
Proof. unfold FD_SET_all, FD_CLR_all, FD_SET_write, FD_CLR_write. split_and!; calm_run. Qed.
#[local] Hint Resolve calm_stats : calm.
#[local] Hint Extern 1 (calm (FD_SET_all ?fd)) => apply (calm_fd fd) : calm.
#[local] Hint Extern 1 (calm (FD_CLR_all ?fd)) => apply (calm_fd fd) : calm.
#[local] Hint Extern 1 (calm (FD_SET_write ?fd)) => apply (calm_fd fd) : calm.
#[local] Hint Extern 1 (calm (FD_CLR_write ?fd)) => apply (calm_fd fd) : calm.
Lemma calm_emit e : is_sock e -> calm (emit e).
Proof. intros He t. unfold emit. apply wlp_modify. by eapply frame_sock. Qed.
#[local] Hint Extern 1 (calm (emit _)) => apply calm_emit; exact I : calm.
Lemma calm_open proto : calm (open_socket sys proto).
Proof. unfold open_socket. calm_run. Qed.
Lemma calm_close fd : calm (close_socket sys fd).
Proof. unfold close_socket. calm_run. Qed.
Lemma calm_sndbuf id : calm (get_available_sndbuf sys id).
Proof. unfold get_available_sndbuf. calm_run. Qed.
#[local] Hint Resolve calm_open calm_close calm_sndbuf : calm.
Lemma calm_release c : calm (release_udp_mapping c).
Proof. unfold release_udp_mapping. calm_run. Qed.
Lemma calm_send fd data : calm (sock_send sys fd data).
Proof. unfold sock_send. calm_run. Qed.
Lemma calm_bind_addr : calm (fill_ipv6_bind_addr sys).
Proof. unfold fill_ipv6_bind_addr. calm_run. Qed.
Lemma calm_multicast ver c : calm (udp_multicast sys ver c).
Proof. unfold udp_multicast. calm_run. Qed.
End calm.

(** ** Operations on one connection *)

(** What [handle_tcp_reply] asks after the handshake with the proxy. *)
Definition socks_of (id : Z) (t : zdtun_t) : option socks5_status_t := socks5_status <$> heap t !! id.
Definition closing (room : Prop) (cl0 : client) (id : Z) (again : bool) (t : zdtun_t) : Prop :=
  calls_ok room cl0 (fun cl => cl_last cl = Some (id, again)) t /\ conn_open t id = false.

Section conns.
Context (room : Prop) (cl0 : client).
Local Abbreviation sent_ok := (sent_ok room).
Local Abbreviation calls_ok := (calls_ok room cl0).
Local Abbreviation in_order := (in_order room cl0).
Local Abbreviation told := (told room cl0).
Local Abbreviation opened := (opened room cl0).
Local Abbreviation closing := (closing room cl0).

Lemma told_in_order id t : told id t -> in_order t.
Proof. by apply calls_mono. Qed.
Lemma closing_told id b t : closing id b t -> told id t.
Proof. intros [H _]. eapply calls_mono; [|exact H]. intros cl E. right. right. by exists b. Qed.
Lemma conn_open_set (id i : Z) c (h : gmap Z zdtun_conn) t :
  heap t = <[id := c]> h -> conn_open t i = if decide (i = id) then negb (is_closed (status c))
    else from_option (fun c => negb (is_closed (status c))) false (h !! i).
Proof.
  intros E. unfold conn_open. rewrite E. case_decide as Ei; [subst; by rewrite lookup_insert_eq|by rewrite lookup_insert_ne].
Qed.

(** A connection is replaced by one that is as open. *)
Lemma calls_update P id c c' t t' :
  heap t !! id = Some c -> is_closed (status c') = is_closed (status c) ->
  heap t' = <[id := c']> (heap t) -> next_ptr t' = next_ptr t -> trace t' = trace t -> calls_ok P t -> calls_ok P t'.
Proof.
  intros Hc Hs Hh Hn Ht (cl & Hr & [Ho Hx Hm] & Hf & HP). exists cl. rewrite Ht. split; [done|]. split; [|done]. split.
  - intros i. rewrite Ho, (conn_open_set _ _ _ _ _ Hh). case_decide as Ei; [|done]. subst i. rewrite Hs. unfold conn_open. by rewrite Hc.
  - by rewrite Hn.
  - rewrite Hh, Hn. apply map_Forall_insert_2; [by apply (Hm id c)|done].
Qed.
Lemma opened_conn id t : opened id t -> exists c, heap t !! id = Some c /\ is_closed (status c) = false.
Proof.
  intros [_ Ho]. unfold conn_open in Ho. destruct (heap t !! id) as [c|]; [|done]. exists c. split; [done|].
  by apply negb_true_iff.
Qed.
Lemma l_conn id (Q : zdtun_conn -> zdtun_t -> Prop) t :
  (forall c, heap t !! id = Some c -> Q c t) -> wlp (conn id) Q t.
Proof. intros HQ. unfold conn. wl. by apply HQ. Qed.
Lemma l_ipver c (Q : Z -> zdtun_t -> Prop) t : (forall v, Q v t) -> wlp (conn_ipver c) Q t.
Proof. intros HQ. unfold conn_ipver. wl. by apply HQ. Qed.

Lemma l_set_told {Q : unit -> zdtun_t -> Prop} id f t :
  told id t -> (forall c, is_closed (status (f c)) = is_closed (status c)) ->
  (forall t', told id t' -> (forall c, heap t !! id = Some c -> heap t' !! id = Some (f c)) -> Q tt t') ->
  wlp (set_conn id f) Q t.
Proof.
  intros Ht Hf HQ. unfold set_conn. apply wlp_bind, l_conn. intros c Hc. apply wlp_modify, HQ.
  - by eapply (calls_update _ id c (f c)).
  - intros c' Hc'. assert (c' = c) as -> by congruence. cbn. by rewrite lookup_insert_eq.
Qed.
Lemma l_set {Q : unit -> zdtun_t -> Prop} id f t :
  opened id t -> (forall c, is_closed (status c) = false -> is_closed (status (f c)) = false) ->
  (forall t', opened id t' -> (forall c, heap t !! id = Some c -> heap t' !! id = Some (f c)) -> reply_buf t' = reply_buf t -> Q tt t') ->
  wlp (set_conn id f) Q t.
Proof.
  intros Ho Hf HQ. destruct (opened_conn _ _ Ho) as (c & Hc & Hcl). unfold set_conn. apply wlp_bind, l_conn. intros c' Hc'.
  assert (c' = c) as -> by congruence. apply wlp_modify, HQ; [|intros c0 Hc0; assert (c0 = c) as -> by congruence; cbn; by rewrite lookup_insert_eq|done]. split.
  - eapply (calls_update _ id c (f c)); try done; [rewrite Hcl; by apply Hf|apply Ho].
  - unfold conn_open. cbn. rewrite lookup_insert_eq. cbn. by rewrite Hf.
Qed.

(** A callback about an open connection. *)
Lemma opened_call id e t t' :
  opened id t -> heap t' = heap t -> next_ptr t' = next_ptr t -> trace t' = e :: trace t -> sent_ok e ->
  (forall cl, id ∈ cl_open cl -> client_step e cl = Some (cl <| cl_last := None |>)) -> opened id t'.
Proof.
  intros [(cl & Hr & [Ho Hx Hm] & Hf & _) Hop] Hh Hn Ht He Hs.
  assert (Hin : id ∈ cl_open cl) by (by apply Ho). split; [|unfold conn_open in *; by rewrite Hh].
  exists (cl <| cl_last := None |>). rewrite Ht. cbn [client_run]. rewrite Hr. split; [by apply Hs|].
  split; [split; [intros i; cbn; rewrite Ho; unfold conn_open; by rewrite Hh|by rewrite Hn|by rewrite Hh, Hn]|].
  split; [by constructor|done].
Qed.
Lemma account_step id p to st cl :
  is_closed st = false -> id ∈ cl_open cl -> client_step (EvAccount id p to st) cl = Some (cl <| cl_last := None |>).
Proof. intros Hst Hin. cbn [client_step]. by rewrite bool_decide_eq_true_2, Hst. Qed.
Lemma send_step id p rv cl : id ∈ cl_open cl -> client_step (EvSendClient id p rv) cl = Some (cl <| cl_last := None |>).
Proof. intros Hin. cbn [client_step]. by rewrite bool_decide_eq_true_2. Qed.
Lemma l_account id p to (Q : unit -> zdtun_t -> Prop) t :
  opened id t -> (forall t', opened id t' -> (heap t' = heap t) -> Q tt t') ->
  wlp (c ← conn id; emit (EvAccount id p to (status c))) Q t.
Proof.
  intros Ho HQ. destruct (opened_conn _ _ Ho) as (c & Hc & Hcl). apply wlp_bind, l_conn. intros c' Hc'.
  assert (c' = c) as -> by congruence. apply wlp_modify, HQ; [|done]. eapply opened_call; [exact Ho|done..|]. intros cl Hin. by apply account_step.
Qed.

(** ** What is sent *)

Definition hdr_built (buf : list Z) : Prop := rd8 buf 0 = Some 0x45 \/ rd8 buf 0 = Some 0x60.
Lemma hdr_built_wrn off bs buf buf' : 0 < off -> wrn off bs buf = Some buf' -> hdr_built buf -> hdr_built buf'.
Proof.
  intros Ho E. unfold hdr_built. change (rd8 buf' 0) with (buf' !! 0%nat). change (rd8 buf 0) with (buf !! 0%nat).
  rewrite (wrn_lookup _ _ _ _ 0%nat E). rewrite decide_False by lia. done.
Qed.
Lemma hdr_built_make ver tu l3 buf buf' : zdtun_make_iphdr ver tu l3 buf = Some buf' -> hdr_built buf'.
Proof.
  unfold zdtun_make_iphdr. intros E. unfold hdr_built. change (rd8 buf' 0) with (buf' !! 0%nat). rewrite (wrn_lookup _ _ _ _ 0%nat E).
  unfold make_iphdr_bytes. destruct (ver =? 4); rewrite decide_True by (cbn; lia); [by left|by right].
Qed.
Lemma iphdr_pos ver : 20 <= zdtun_iphdr_len ver <= 40.
Proof. destruct (iphdr_len_cases ver); lia. Qed.
Lemma hdr_built_reply ver c flags l4_len optsoff sndbuf buf buf' :
  build_reply_tcpip ver c flags l4_len optsoff sndbuf buf = Some buf' -> hdr_built buf'.
Proof.
  unfold build_reply_tcpip. pose proof (iphdr_pos ver). destruct (wrn _ _ buf) as [b1|]; [|done]. cbn [mbind option_bind].
  destruct (zdtun_make_iphdr _ _ _ b1) as [b2|] eqn:E2; [|done]. cbn [mbind option_bind].
  destruct (zdtun_l3_checksum _ _ _ _ _) as [sum|]; [|done]. cbn [mbind option_bind]. intros E.
  eapply hdr_built_wrn; [|exact E|by eapply hdr_built_make]. lia.
Qed.

Lemma parsed_sent_ok buf size f p f' :
  hdr_built buf -> size <= REPLY_BUF_SIZE -> (room -> size + 16 <= REPLY_BUF_SIZE) ->
  zdtun_parse_pkt buf size f = Some (inr p, f') ->
  20 <= pkt_ip_hdr_len p /\ pkt_len p <= REPLY_BUF_SIZE /\ (room -> pkt_len p + 16 <= REPLY_BUF_SIZE).
Proof.
  intros Hb Hs Hr E. destruct (parsed_hdr _ _ _ _ _ E) as (b & Eb & Eh & Hl).
  split; [|split; [lia|intros R; specialize (Hr R); lia]].
  destruct Hb as [Hb|Hb]; rewrite Hb in Eb; injection Eb as <-; rewrite Eh; by vm_compute.
Qed.
End conns.

(** ** Closing *)

Section close.
Context (room : Prop) (cl0 : client) (sys : nat -> Z * list Z).
Local Abbreviation in_order := (in_order room cl0).
Local Abbreviation told := (told room cl0).
Local Abbreviation opened := (opened room cl0).
Local Abbreviation closing := (closing room cl0).

Lemma l_build id flags l4_len optsoff (Q : unit -> zdtun_t -> Prop) t :
  opened id t -> (forall t', opened id t' -> heap t' = heap t -> hdr_built (reply_buf t') -> Q tt t') ->
  wlp (build_reply sys id flags l4_len optsoff) Q t.
Proof.
  intros Ho HQ. unfold build_reply. apply wlp_bind, l_conn. intros c Hc. apply wlp_bind, l_ipver. intros ver.
  destruct (negb _); [intros ? ? [=]|]. apply wlp_bind. eapply wlp_calm; [apply calm_sndbuf|]. intros snd t1 F. wl.
  match goal with E : build_reply_tcpip _ _ _ _ _ _ _ = Some _ |- _ => apply hdr_built_reply in E end.
  apply HQ; [|by rewrite <-(fr_heap _ _ F)|done]. eapply opened_frame; [|exact Ho]. eapply frame_set; [exact F|done..].
Qed.

Lemma l_set_raw id f (Q : unit -> zdtun_t -> Prop) t :
  (forall c, heap t !! id = Some c -> Q tt (t <| heap := <[id := f c]> (heap t) |>)) -> wlp (set_conn id f) Q t.
Proof. intros HQ. unfold set_conn. apply wlp_bind, l_conn. intros c Hc. by apply wlp_modify, HQ. Qed.

(** The tail of [zdtun_conn_close]. *)
Lemma close_state id c' st t t' :
  is_closed st = true -> is_closed (status c') = true -> heap t' = <[id := c']> (heap t) -> next_ptr t' = next_ptr t ->
  trace t' = EvConnClose id st :: trace t -> is_Some (heap t !! id) ->
  opened id t \/ closing id true t -> exists again, closing id again t' /\ (opened id t -> again = true).
Proof.
  intros Hst Hc Hh Hn Ht [c0 Hc0] Hcase.
  assert (Hcl : conn_open t' id = false) by (rewrite (conn_open_set _ _ _ _ _ Hh), decide_True by done; by rewrite Hc).
  assert (Hmap : forall cl, agrees cl t -> map_Forall (fun i _ => i < next_ptr t') (heap t')).
  { intros cl Ha. rewrite Hh, Hn. apply map_Forall_insert_2; [by apply (ag_heap _ _ Ha id c0)|apply Ha]. }
  assert (Hother : forall i, i <> id -> conn_open t' i = conn_open t i).
  { intros i Hi. rewrite (conn_open_set _ _ _ _ _ Hh), decide_False by done. done. }
  destruct Hcase as [[(cl & Hr & Ha & Hf & _) Ho]|[(cl & Hr & Ha & Hf & Hl) Ho]].
  - assert (Hin : id ∈ cl_open cl) by (by apply (ag_open _ _ Ha)). exists true. split; [|done]. split; [|done].
    exists (cl <| cl_open := cl_open cl ∖ {[id]} |> <| cl_last := Some (id, true) |>). rewrite Ht. cbn [client_run]. rewrite Hr.
    cbn [mbind option_bind client_step]. rewrite Hst, bool_decide_eq_true_2 by done. split; [done|]. split; [|split; [by constructor|done]]. split.
    + intros i. cbn. rewrite elem_of_difference, elem_of_singleton, (ag_open _ _ Ha). destruct (decide (i = id)) as [->|Hi]; [rewrite Hcl; naive_solver|].
      rewrite (Hother i Hi). naive_solver.
    + rewrite Hn. apply (ag_next _ _ Ha).
    + by apply (Hmap cl).
  - assert (Hin : id ∉ cl_open cl) by (rewrite (ag_open _ _ Ha), Ho; done). exists false. split; [|intros [_ Ho']; congruence]. split; [|done].
    exists (cl <| cl_last := Some (id, false) |>). rewrite Ht. cbn [client_run]. rewrite Hr.
    cbn [mbind option_bind client_step]. rewrite Hst, bool_decide_eq_false_2, bool_decide_eq_true_2 by done. split; [done|]. split; [|split; [by constructor|done]]. split.
    + intros i. cbn. rewrite (ag_open _ _ Ha). destruct (decide (i = id)) as [->|Hi]; [by rewrite Hcl, Ho|by rewrite Hother].
    + rewrite Hn. apply (ag_next _ _ Ha).
    + by apply (Hmap cl).
Qed.
Definition keeps_socks (id : Z) (t t' : zdtun_t) : Prop := socks_of id t' = socks_of id t.
Lemma final_closed st : is_closed (if is_closed st then st else CONN_STATUS_CLOSED) = true.
Proof. by destruct (is_closed st) eqn:E. Qed.
Lemma l_close_end id st c (Q : unit -> zdtun_t -> Prop) t :
  (opened id t \/ closing id true t) -> is_Some (heap t !! id) ->
  (forall again t', closing id again t' -> (opened id t -> again = true) -> keeps_socks id t t' -> Q tt t') ->
  wlp (whenM (ipproto (c_tuple c) =? IPPROTO_TCP) (set_conn id (fun c => c <| tx_queue := [] |>)) ;;
       (let st' := if is_closed st then st else CONN_STATUS_CLOSED in
        set_conn id (fun c => c <| status := st' |>) ;; emit (EvConnClose id st'))) Q t.
Proof.
  intros Hcase [c0 Hc0] HQ. cbv zeta. set (st' := if is_closed st then _ else _).
  assert (Hst : is_closed st' = true) by apply final_closed. clearbody st'.
  assert (Hend : forall c1 t1, heap t1 = <[id := c1]> (heap t) -> next_ptr t1 = next_ptr t -> trace t1 = trace t ->
    socks5_status c1 = socks5_status c0 -> wlp (set_conn id (fun c => c <| status := st' |>) ;; emit (EvConnClose id st')) Q t1).
  { intros c1 t1 Hh Hn Ht Hs. unfold set_conn, emit. apply wlp_bind, wlp_bind, l_conn. intros c2 Hc2.
    rewrite Hh, lookup_insert_eq in Hc2. injection Hc2 as <-. wl.
    match goal with |- Q tt ?x => set (t2 := x) end. assert (Hh2 : heap t2 = <[id := c1 <| status := st' |>]> (heap t)).
    { unfold t2. cbn. by rewrite Hh, insert_insert_eq. }
    assert (Hst2 : is_closed (status (c1 <| status := st' |>)) = true) by (cbn; exact Hst).
    destruct (close_state id (c1 <| status := st' |>) st' t t2 Hst Hst2 Hh2) as (again & Hcl & Hag); [done|unfold t2; cbn; by rewrite Ht|by eexists|done|].
    apply (HQ again t2 Hcl Hag). unfold keeps_socks, socks_of. rewrite Hh2, lookup_insert_eq, Hc0. cbn. by rewrite Hs. }
  apply wlp_bind. apply wlp_when; intros _.
  - apply l_set_raw. intros c1 Hc1. assert (c1 = c0) as -> by congruence. by apply (Hend (c0 <| tx_queue := [] |>)).
  - apply (Hend c0); try done. by rewrite insert_id.
Qed.
(** No RST is sent for the connection. *)
Definition no_rst (id : Z) (t : zdtun_t) : Prop :=
  forall c, heap t !! id = Some c -> ipproto (c_tuple c) = IPPROTO_TCP -> fin_ack_sent c = true.
Lemma l_send_with id close l3 (Qc : zdtun_t -> Prop) t :
  opened id t -> hdr_built (reply_buf t) -> 0 <= l3 -> (room -> l3 + 40 + 16 <= REPLY_BUF_SIZE) ->
  (forall t', opened id t' -> no_rst id t' -> keeps_socks id t t' -> wlp (close id CONN_STATUS_CLIENT_ERROR) (fun _ => Qc) t') ->
  wlp (send_to_client_with sys close id l3) (fun rv t' =>
    opened id t' /\ keeps_socks id t t' \/ rv <> 0 /\ Qc t') t.
Proof.
  intros Ho Hb Hl0 Hl Hclose. unfold send_to_client_with. apply wlp_bind, l_conn. intros c Hc. apply wlp_bind, l_ipver. intros ver.
  unfold parse_reply. wl. match goal with E : zdtun_parse_pkt _ _ _ = Some ?r |- _ => destruct r as [[e|p] f]; rename E into Ep end; cbn [fst snd].
  { wl. left. split; [eapply opened_frame; [|exact Ho]; by eapply frame_set|done]. }
  set (size := u16 (l3 + zdtun_iphdr_len ver)) in Ep.
  pose proof (iphdr_pos ver).
  assert (Hsize : size <= l3 + 40) by (pose proof (Z.mod_le (l3 + zdtun_iphdr_len ver) (2 ^ 16)); unfold size, uwrap; lia).
  assert (Hbuf : size <= REPLY_BUF_SIZE) by (pose proof (uwrap_ok 16 (l3 + zdtun_iphdr_len ver)); unfold u_ok, size, REPLY_BUF_SIZE in *; lia).
  assert (Hfit : room -> size + 16 <= REPLY_BUF_SIZE) by (intros R; specialize (Hl R); lia).
  pose proof (parsed_sent_ok _ _ _ _ _ _ Hb Hbuf Hfit Ep) as Hs1.
  apply wlp_bind. eapply wlp_calm; [apply calm_sysint|]. intros rv t1 F. apply wlp_bind. unfold emit at 1. apply wlp_modify.
  match goal with |- wlp _ _ ?x => set (t2 := x) end.
  assert (O1 : opened id t1).
  { eapply opened_frame; [exact F|]. eapply opened_frame; [|exact Ho]. by eapply frame_set. }
  assert (O2 : opened id t2) by (eapply (opened_call room cl0 id (EvSendClient id p rv)); [exact O1|done..|]; intros cl; apply send_step).
  assert (K2 : keeps_socks id t t2) by (unfold keeps_socks, socks_of; cbn; by rewrite (fr_heap _ _ F)).
  apply wlp_bind. destruct (Z.eqb_spec rv 0) as [->|Hrv].
  - apply (l_account room cl0); [exact O2|]. intros t3 O3 Hh3. wl. left. split; [done|]. unfold keeps_socks, socks_of. rewrite Hh3. exact K2.
  - apply wlp_bind, l_conn. intros c2 Hc2. apply wlp_bind. apply wlp_when; intros Hp.
    + eapply (l_set room cl0); [exact O2|done|]. intros t3 O3 Hset _. eapply wlp_mono; [apply (Hclose t3); [done| |]|].
      * intros c3 Hc3 _. rewrite (Hset _ Hc2) in Hc3. by injection Hc3 as <-.
      * unfold keeps_socks, socks_of in *. by rewrite (Hset _ Hc2), <-K2, Hc2.
      * intros [] t4 H4. wl. by right.
    + eapply wlp_mono; [apply (Hclose t2); [done| |done]|].
      * intros c3 Hc3 Htcp. assert (c3 = c2) as -> by congruence. by rewrite Htcp in Hp.
      * intros [] t4 H4. wl. by right.
Qed.

(** What [zdtun_conn_close] does before the RST. *)
Lemma l_close_begin id c (Q : unit -> zdtun_t -> Prop) t :
  opened id t -> heap t !! id = Some c ->
  (forall t', opened id t' -> heap t' !! id = Some (c <| sock := INVALID_SOCKET |>) -> Q tt t') ->
  wlp (whenM (ipproto (c_tuple c) =? IPPROTO_UDP) (release_udp_mapping c) ;;
       close_socket sys (sock c) ;; set_conn id (fun c => c <| sock := INVALID_SOCKET |>)) Q t.
Proof.
  intros Ho Hc HQ. apply wlp_bind.
  assert (Hr : forall t1, frame t t1 -> wlp (close_socket sys (sock c) ;; set_conn id (fun c => c <| sock := INVALID_SOCKET |>)) Q t1).
  { intros t1 F1. apply wlp_bind. eapply wlp_calm; [apply calm_close|]. intros _ t2 F2. pose proof (frame_trans _ _ _ F1 F2) as F.
    eapply (l_set room cl0); [by eapply opened_frame|done|]. intros t3 O3 Hset _. apply HQ; [done|]. apply Hset. by rewrite (fr_heap _ _ F). }
  apply wlp_when; intros _; [|by apply Hr]. eapply wlp_calm; [apply calm_release|]. auto.
Qed.
Lemma wlp_seq3 {A S} (m1 m2 m3 : M S unit) (k : M S A) (Q : A -> S -> Prop) s :
  wlp (m1 ;; m2 ;; m3) (fun _ => wlp k Q) s -> wlp (m1 ;; m2 ;; m3 ;; k) Q s.
Proof.
  intros H a s' E. unfold mbind, M_bind in E. destruct (m1 s) as [[[] s1]|] eqn:E1; [|done].
  destruct (m2 s1) as [[[] s2]|] eqn:E2; [|done]. destruct (m3 s2) as [[[] s3]|] eqn:E3; [|done].
  apply (H tt s3); [|done]. unfold mbind, M_bind. by rewrite E1, E2.
Qed.
Lemma l_conn_close id fuel : forall st t,
  opened id t -> wlp (conn_close sys fuel id st) (fun _ t' =>
    exists again, closing id again t' /\ (no_rst id t -> again = true) /\ keeps_socks id t t') t.
Proof.
  induction fuel as [|fuel IH]; intros st t Ho; [intros ? ? [=]|]. cbn [conn_close].
  destruct (opened_conn room cl0 id t Ho) as (c & Hc & Hcl). apply wlp_bind, l_conn. intros c' Hc'. assert (c' = c) as -> by congruence.
  rewrite Hcl. apply wlp_seq3. eapply l_close_begin; [done|done|]. intros t1 O1 Hc1. apply wlp_bind.
  assert (K1 : keeps_socks id t t1) by (unfold keeps_socks, socks_of; by rewrite Hc1, Hc).
  assert (Htail : forall t2, (opened id t2 \/ ~ no_rst id t /\ closing id true t2) -> keeps_socks id t t2 -> is_Some (heap t2 !! id) ->
    wlp (whenM (ipproto (c_tuple c) =? IPPROTO_TCP) (set_conn id (fun c => c <| tx_queue := [] |>)) ;;
       (let st' := if is_closed st then st else CONN_STATUS_CLOSED in
        set_conn id (fun c => c <| status := st' |>) ;; emit (EvConnClose id st')))
     (fun _ t' => exists again, closing id again t' /\ (no_rst id t -> again = true) /\ keeps_socks id t t') t2).
  { intros t2 Hcase K2 Hs2. apply l_close_end; [tauto|done|]. intros again t3 Hcl3 Hag K3. exists again.
    split; [done|]. split; [|unfold keeps_socks in *; congruence]. intros Hn. apply Hag. tauto. }
  assert (Hlive : forall t2, keeps_socks id t t2 -> is_Some (heap t2 !! id)).
  { intros t2 K2. unfold keeps_socks, socks_of in K2. rewrite Hc in K2. destruct (heap t2 !! id); [by eexists|done]. }
  destruct (_ && _) eqn:Erst; [|apply wlp_ret; apply Htail; [by left|done|by apply Hlive]].
  apply wlp_bind. eapply l_build; [exact O1|]. intros t2 O2 Hh2 Hb2. apply wlp_bind. eapply wlp_mono.
  { apply (l_send_with id (conn_close sys fuel) _ (fun t' => closing id true t' /\ keeps_socks id t t')); [exact O2|done|by vm_compute|by vm_compute|].
    intros t3 O3 Hn3 K3. eapply wlp_mono; [apply IH; exact O3|]. intros [] t4 (again & H4 & Hag & K4). rewrite (Hag Hn3) in H4.
    split; [done|]. unfold keeps_socks, socks_of in *. congruence. }
  intros rv t3 H3. apply wlp_ret. assert (K2 : keeps_socks id t t2) by (unfold keeps_socks, socks_of in *; congruence).
  apply andb_prop in Erst as [Etcp%Z.eqb_eq Efin%negb_true_iff].
  assert (Hno : ~ no_rst id t) by (intros Hn; specialize (Hn c Hc Etcp); congruence).
  assert (K3 : keeps_socks id t t3) by (destruct H3 as [[_ K3]|[_ [_ K3]]]; [unfold keeps_socks in *; congruence|done]).
  apply Htail; [|done|by apply Hlive]. destruct H3 as [[O3 _]|[_ [C3 _]]]; [by left|by right].
Qed.

Lemma l_close_any id st (Q : unit -> zdtun_t -> Prop) t :
  in_order t ->
  (forall t', t' = t \/ (opened id t /\ exists again, closing id again t') -> conn_open t' id = false -> keeps_socks id t t' -> Q tt t') ->
  wlp (zdtun_conn_close sys id st) Q t.
Proof.
  intros Hi HQ. destruct (conn_open t id) eqn:Eo.
  - eapply wlp_mono; [apply l_conn_close; by split|]. intros [] t' (again & Hc & _ & K). apply HQ; [|apply Hc|done].
    right. split; [by split|by exists again].
  - unfold zdtun_conn_close. cbn [conn_close]. apply wlp_bind, l_conn. intros c Hc. unfold conn_open in Eo. rewrite Hc in Eo. cbn in Eo.
    apply negb_false_iff in Eo as Ecl. rewrite Ecl. wl. apply HQ; [by left| |done]. unfold conn_open. rewrite Hc. done.
Qed.
Lemma l_close id st (Q : unit -> zdtun_t -> Prop) t :
  told id t -> (forall t', told id t' -> keeps_socks id t t' -> Q tt t') -> wlp (zdtun_conn_close sys id st) Q t.
Proof.
  intros Ht HQ. apply l_close_any; [by eapply told_in_order|]. intros t' [->|[_ [b Hc]]] _ K; [by apply HQ|].
  apply HQ; [by eapply closing_told|done].
Qed.
Lemma l_close_err id errno (Q : Z -> zdtun_t -> Prop) t :
  told id t -> (forall rv t', told id t' -> keeps_socks id t t' -> Q rv t') -> wlp (close_with_socket_error sys id errno) Q t.
Proof.
  intros Ht HQ. unfold close_with_socket_error. destruct (if errno =? ECONNRESET then _ else _) as [st rv].
  apply wlp_bind, l_close; [done|]. intros t' Ht' K. wl. by apply HQ.
Qed.
Lemma l_send id l3 (Q : Z -> zdtun_t -> Prop) t :
  opened id t -> hdr_built (reply_buf t) -> 0 <= l3 /\ (room -> l3 <= REPLY_BUF_SIZE - 56) ->
  (forall rv t', told id t' -> (rv = 0 -> opened id t') -> keeps_socks id t t' -> Q rv t') -> wlp (send_to_client sys id l3) Q t.
Proof.
  intros Ho Hb Hl HQ. unfold send_to_client. eapply wlp_mono.
  { apply (l_send_with id _ l3 (fun t' => told id t' /\ keeps_socks id t t') t Ho Hb); [lia|intros R; destruct Hl as [_ Hl]; specialize (Hl R); lia|].
    intros t1 O1 _ K1. apply l_close; [by eapply opened_told|]. intros t2 T2 K2. split; [done|]. unfold keeps_socks in *. congruence. }
  intros rv t1 [[O1 K1]|[Hrv [T1 K1]]]; apply HQ; try done; by apply opened_told.
Qed.
Lemma l_account_in id p (Q : unit -> zdtun_t -> Prop) t :
  opened id t -> (forall t', opened id t' -> heap t' = heap t -> Q tt t') -> wlp (account_in id p) Q t.
Proof. intros Ho HQ. unfold account_in. by apply (l_account room cl0). Qed.
(** The socket of a new connection could not be created. *)
Lemma l_no_socket id (Q : Z -> zdtun_t -> Prop) t :
  opened id t -> (forall t', told id t' -> Q (-1) t') ->
  wlp (set_conn id (fun c => c <| status := CONN_STATUS_SOCKET_ERROR |>) ;; emit (EvNoSocket id) ;; mret (-1)) Q t.
Proof.
  intros [(cl & Hr & Ha & Hf & _) Ho] HQ. apply wlp_bind, l_set_raw. intros c Hc. unfold emit. wl. apply HQ.
  match goal with |- told id ?x => set (t' := x) end.
  assert (Hin : id ∈ cl_open cl) by (by apply (ag_open _ _ Ha)).
  assert (Hh : heap t' = <[id := c <| status := CONN_STATUS_SOCKET_ERROR |>]> (heap t)) by done.
  exists (cl <| cl_open := cl_open cl ∖ {[id]} |> <| cl_stuck := {[id]} ∪ cl_stuck cl |> <| cl_last := None |>).
  change (trace t') with (EvNoSocket id :: trace t). cbn [client_run]. rewrite Hr. cbn [mbind option_bind client_step].
  rewrite bool_decide_eq_true_2 by done. split; [done|]. split; [|split; [by constructor|right; left; cbn; set_solver]]. split.
  - intros i. cbn. rewrite elem_of_difference, elem_of_singleton, (ag_open _ _ Ha), (conn_open_set _ _ _ _ _ Hh).
    case_decide as Ei; [subst; cbn; naive_solver|]. unfold conn_open. naive_solver.
  - apply (ag_next _ _ Ha).
  - rewrite Hh. apply map_Forall_insert_2; [by apply (ag_heap _ _ Ha id c)|apply Ha].
Qed.
End close.

End ZdtunEvents.
