(* ===== verification/ZdtunOrder.v ===== *)
(** * The callbacks of zdtun come in order

    Every handler of zdtun tells the program what it has to hear, and nothing else:
    from the handlers of one connection to the calls of the API. *)

From S2P Require Import Prelude UtHash ZdtunTypes ZdtunConn ZdtunPkt ParseMore ZdtunWire ZdtunState ZdtunInv ZdtunClose ZdtunTcp ZdtunFwd ZdtunSafe ZdtunApi ZdtunEvents.
Import ZdtunPkt ParseMore ZdtunWire ZdtunState ZdtunInv ZdtunClose ZdtunTcp ZdtunFwd ZdtunSafe ZdtunApi ZdtunEvents.

Module ZdtunOrder.

Section handlers.
Context (room : Prop) (cl0 : client) (sys : nat -> Z * list Z).
Local Abbreviation in_order := (in_order room cl0).
Local Abbreviation told := (told room cl0).
Local Abbreviation opened := (opened room cl0).
Local Abbreviation closing := (closing room cl0).

(** ** The handlers *)

(** From an open connection: its end has been told if there was one; and, where the
    callers go on after a result of 0, it is still open then. *)
Definition ends {A} (id : Z) (m : M zdtun_t A) : Prop := forall t, opened id t -> wlp m (fun _ => told id) t.
Definition ends0 (id : Z) (m : M zdtun_t Z) : Prop :=
  forall t, opened id t -> wlp m (fun rv t' => told id t' /\ (rv = 0 -> opened id t')) t.
Lemma ends_use {A} id (m : M zdtun_t A) (Q : A -> zdtun_t -> Prop) t :
  ends id m -> opened id t -> (forall a t', told id t' -> Q a t') -> wlp m Q t.
Proof. intros Hm Ho HQ. eapply wlp_mono; [by apply Hm|]. auto. Qed.
Lemma ends0_use id m (Q : Z -> zdtun_t -> Prop) t :
  ends0 id m -> opened id t -> (forall rv t', told id t' -> (rv = 0 -> opened id t') -> Q rv t') -> wlp m Q t.
Proof. intros Hm Ho HQ. eapply wlp_mono; [by apply Hm|]. intros rv t' []. auto. Qed.

Create HintDb ends discriminated.
#[local] Hint Resolve calm_syscall calm_sysint calm_now calm_stats calm_open calm_close calm_sndbuf calm_release calm_send
  calm_bind_addr calm_multicast : calm.
#[local] Hint Extern 1 (calm (FD_SET_all ?fd)) => apply (calm_fd fd) : calm.
#[local] Hint Extern 1 (calm (FD_CLR_all ?fd)) => apply (calm_fd fd) : calm.
#[local] Hint Extern 1 (calm (FD_SET_write ?fd)) => apply (calm_fd fd) : calm.
#[local] Hint Extern 1 (calm (FD_CLR_write ?fd)) => apply (calm_fd fd) : calm.

Ltac fits :=
  unfold REPLY_BUF_SIZE, TCP_HEADER_LEN, UDP_HEADER_LEN in *; split; [lia|let R := fresh "R" in intros R;
    repeat match goal with H : _ /\ (room -> _) |- _ => destruct H as [? H]; specialize (H R) end; lia].
Ltac is_told := first [eassumption | eapply opened_told; eassumption].
(** A test of a result: the connection is open if it was 0. *)
Ltac learn :=
  match goal with
  | E : (?rv =? 0) = true, H : ?rv = 0 -> opened _ _ |- _ => pose proof (H (proj1 (Z.eqb_eq _ _) E)); clear H
  | E : negb (?rv =? 0) = false, H : ?rv = 0 -> opened _ _ |- _ =>
      pose proof (H (proj1 (Z.eqb_eq _ _) (proj1 (negb_false_iff _) E))); clear H
  end.
Ltac ev_step :=
  lazymatch goal with
  | |- wlp (let _ := _ in _) _ _ => cbv zeta
  | |- wlp (set_conn _ (fun c => c <| status := CONN_STATUS_SOCKET_ERROR |>) ;; _) _ _ =>
      eapply l_no_socket; [eassumption|]; intros ? ?
  | |- wlp (mbind _ _) _ _ => apply wlp_bind
  | |- wlp (mret _) _ _ => apply wlp_ret
  | |- wlp getS _ _ => apply wlp_get
  | |- wlp (liftO _) _ _ => apply wlp_lift; intros ? ?
  | |- wlp ub _ _ => intros ? ? [=]
  | |- wlp (conn _) _ _ => apply l_conn; intros ? ?
  | |- wlp (conn_ipver _) _ _ => apply l_ipver; intros ?
  | |- wlp (set_conn _ _) _ _ =>
      first [ eapply (l_set room cl0); [eassumption|by intros|]; intros ? ? ? ?
            | eapply (l_set_told room cl0); [eassumption|done|]; intros ? ? ? ]
  | |- wlp (account_in _ _) _ _ => eapply l_account_in; [eassumption|]; intros ? ? ?
  | |- wlp (build_reply _ _ _ _ _) _ _ => eapply l_build; [eassumption|]; intros ? ? ? ?
  | |- wlp (send_to_client _ _ _) _ _ =>
      eapply l_send; [eassumption|eassumption|fits|]; intros ? ? ? ? ?
  | |- wlp (zdtun_conn_close _ _ _) _ _ => eapply l_close; [is_told|]; intros ? ? ?
  | |- wlp (close_with_socket_error _ _ _) _ _ => eapply l_close_err; [is_told|]; intros ? ? ? ?
  | |- wlp (whenM _ _) _ _ => apply wlp_when; intros ?; try learn
  | |- wlp (if ?b then _ else _) _ _ => let E := fresh "E" in destruct b eqn:E; try learn
  | |- wlp (match ?x with _ => _ end) _ _ => destruct x
  | |- wlp ?m _ _ =>
      first [ eapply wlp_calm; [solve [eauto with calm]|]; let t' := fresh "t" in let F := fresh "F" in intros ? t' F;
              match goal with
              | F : frame ?t t', O : opened _ ?t |- _ => pose proof (opened_frame _ _ _ _ _ F O)
              | F : frame ?t t', T : told _ ?t |- _ => pose proof (calls_frame _ _ _ _ _ F T)
              end
            | eapply ends_use; [solve [eauto with ends]|eassumption|]; intros ? ? ?
            | eapply ends0_use; [solve [eauto with ends]|eassumption|]; intros ? ? ? ? ]
  end.
Ltac ev_done :=
  first [ is_told
        | split; [is_told|first [done|intros; eassumption|eassumption|
            let E := fresh "E" in destruct (negb _) eqn:E; [done|by learn]]] ].
Ltac ev := repeat ev_step; try ev_done.

(** The handshake with the proxy. *)
Definition ends_socks (id : Z) (m : M zdtun_t Z) : Prop :=
  forall t, opened id t -> wlp m (fun rv t' => told id t' /\ (opened id t' \/ keeps_socks id t t')) t.
Ltac ev_socks :=
  split; [is_told|]; first [by left|right];
  repeat match goal with F : frame _ _ |- _ => apply fr_heap in F end; unfold keeps_socks, socks_of in *; congruence.
Lemma socks_connect id : ends_socks id (socks5_connect sys id).
Proof. intros t O. unfold socks5_connect. repeat ev_step; ev_socks. Qed.
Lemma socks_auth id : ends_socks id (socks5_auth sys id).
Proof. intros t O. unfold socks5_auth. repeat ev_step; ev_socks. Qed.
Lemma socks_req id : ends_socks id (socks5_req sys id).
Proof. intros t O. unfold socks5_req. repeat ev_step; ev_socks. Qed.

Definition not_established (id : Z) (t : zdtun_t) : Prop :=
  forall c, heap t !! id = Some c -> socks5_status c <> SOCKS5_ESTABLISHED.
Lemma socks_sub id m c t :
  ends_socks id m -> opened id t -> heap t !! id = Some c -> socks5_status c <> SOCKS5_ESTABLISHED ->
  wlp m (fun rv t' => told id t' /\ (rv = 0 -> opened id t' \/ not_established id t')) t.
Proof.
  intros Hm O Hc Hs. eapply wlp_mono; [by apply Hm|]. intros rv t' [T [O'|K]]; (split; [done|]); intros _; [by left|right].
  intros c' Hc'. unfold keeps_socks, socks_of in K. rewrite Hc, Hc' in K. by injection K as ->.
Qed.
Lemma socks_reply id fuel : forall data t,
  opened id t -> wlp (handle_socks5_reply sys fuel id data) (fun rv t' =>
    told id t' /\ (rv = 0 -> opened id t' \/ not_established id t')) t.
Proof.
  induction fuel as [|fuel IH]; intros data t O; [intros ? ? [=]|]. cbn [handle_socks5_reply].
  assert (Hfail : forall st t1, told id t1 -> wlp (zdtun_conn_close sys id st ;; mret (-1)) (fun rv t' =>
    told id t' /\ (rv = 0 -> opened id t' \/ not_established id t')) t1).
  { intros st t1 T1. repeat ev_step. split; [done|lia]. }
  assert (Hsub : forall m c, ends_socks id m -> heap t !! id = Some c -> socks5_status c <> SOCKS5_ESTABLISHED ->
    wlp m (fun rv t' => told id t' /\ (rv = 0 -> opened id t' \/ not_established id t')) t) by (intros; by eapply socks_sub).
  ev_step. ev_step.
  assert (Hend : forall t', told id t' -> keeps_socks id t t' -> socks5_status c <> SOCKS5_ESTABLISHED ->
    not_established id t').
  { intros t' T K Hs. intros c' Hc'. unfold keeps_socks, socks_of in K.
    match goal with Hc : heap t !! id = Some c |- _ => rewrite Hc, Hc' in K end. by injection K as ->. }
  destruct (socks5_status c) eqn:Es; [| | | |by apply Hfail, opened_told].
  - repeat first [by (apply Hfail; is_told)|eapply Hsub; [apply socks_auth|eassumption|by rewrite Es]
                 |eapply Hsub; [apply socks_req|eassumption|by rewrite Es]|ev_step].
  - repeat first [by (apply Hfail; is_told)|eapply Hsub; [apply socks_req|eassumption|by rewrite Es]|ev_step].
  - repeat first [by (apply Hfail; is_told)|by apply IH|ev_step].
    all: split; [is_told|]; intros _; first [by left|right; by eapply Hend].
  - repeat first [by (apply Hfail; is_told)|ev_step]; (split; [is_told|]; intros _; by left).
Qed.

(** Opening *)
Lemma ends_of_socks id m : ends_socks id m -> ends id m.
Proof. intros Hm t O. eapply wlp_mono; [by apply Hm|]. by intros rv t' []. Qed.
Lemma ends_syn_ack id : ends id (send_syn_ack sys id).
Proof.
  intros t O. unfold send_syn_ack. do 6 ev_step. ev_step. ev_step. ev_step. apply wlp_put.
  match goal with |- wlp _ _ ?x => set (t1 := x) end.
  assert (O1 : opened id t1) by (eapply opened_frame; [|exact O]; by eapply frame_set). ev.
Qed.
#[local] Hint Resolve ends_syn_ack ends_of_socks socks_connect socks_auth socks_req : ends.
Lemma ends_socket_syn id : ends id (tcp_socket_syn sys id).
Proof. intros t O. unfold tcp_socket_syn. ev. Qed.
Lemma ends_fin_ack id : ends id (tcp_socket_fin_ack sys id).
Proof. intros t O. unfold tcp_socket_fin_ack. ev. Qed.
#[local] Hint Resolve ends_socket_syn ends_fin_ack : ends.
Lemma ends_fwd_new id p : ends id (tcp_fwd_new sys id p).
Proof. intros t O. unfold tcp_fwd_new. ev. Qed.

(** Data from the client *)
Lemma ends_enqueue id data flags : ends id (enqueue_tcp_data sys id data flags).
Proof. intros t O. unfold enqueue_tcp_data. ev. Qed.
Lemma ends0_ack id p ka : ends0 id (tcp_fwd_ack sys id p ka).
Proof. intros t O. unfold tcp_fwd_ack. ev. Qed.
Lemma ends_fin id p : ends id (tcp_fwd_fin sys id p).
Proof. intros t O. unfold tcp_fwd_fin. ev. Qed.
#[local] Hint Resolve ends_enqueue ends0_ack ends_fin : ends.
Lemma ends_payload id p flags : ends id (tcp_fwd_payload sys id p flags).
Proof. intros t O. unfold tcp_fwd_payload. ev. Qed.
#[local] Hint Resolve ends_payload ends_fwd_new : ends.
Lemma ends_active id p flags : ends id (tcp_fwd_active sys id p flags).
Proof. intros t O. unfold tcp_fwd_active. ev. Qed.
#[local] Hint Resolve ends_active : ends.
Lemma ends_tcp_fwd id p : ends id (handle_tcp_fwd sys id p).
Proof. intros t O. unfold handle_tcp_fwd. ev. Qed.

(** ** Data from the server *)

(** A read of at most [READ_MAX] bytes leaves room for the headers and 16 bytes. *)
Definition READ_MAX : Z := 65459.
Context (Hread : room -> forall n, Z.of_nat (length (snd (sys n))) <= READ_MAX).
Lemma recv_bound off maxlen (Q : Z -> zdtun_t -> Prop) t :
  (forall n t', frame t t' -> -1 <= n /\ (room -> n <= READ_MAX) -> Q n t') -> wlp (sock_recv sys off maxlen) Q t.
Proof.
  intros HQ. unfold sock_recv, syscall. wl. cbn [fst snd]. destruct (_ <? 0); wl.
  - apply HQ; [by eapply frame_set|done].
  - apply HQ; [by eapply frame_set|]. split; [lia|]. intros R. rewrite length_fmap, length_take. specialize (Hread R (calls t)). lia.
Qed.

Lemma ends_reply_closed id : ends id (tcp_reply_closed sys id).
Proof. intros t O. unfold tcp_reply_closed. ev. Qed.
Lemma ends_reply_data id ver l4_len :
  0 <= l4_len /\ (room -> l4_len <= READ_MAX) -> ends id (tcp_reply_data sys id ver l4_len).
Proof. intros Hl t O. unfold READ_MAX, tcp_reply_data in *. ev. Qed.
#[local] Hint Resolve ends_reply_closed : ends.
Lemma ends_tcp_reply id : ends id (handle_tcp_reply sys id).
Proof.
  intros t O. unfold handle_tcp_reply. do 5 ev_step. apply recv_bound. intros l4_len t1 F1 Hl.
  pose proof (opened_frame _ _ _ _ _ F1 O) as O1. ev_step. ev_step. ev_step. ev_step. ev_step; [ev|]. ev_step; [ev|]. ev_step.
  - do 5 ev_step. eapply wlp_mono; [apply socks_reply; eassumption|]. intros rv t3 [T3 HS]. ev_step; [ev|].
    apply negb_false_iff, Z.eqb_eq in E2 as ->. destruct (HS eq_refl) as [O3|N3].
    + ev.
    + do 3 ev_step; [|ev]. apply bool_decide_eq_true in E2. by destruct (N3 c0).
  - apply ends_reply_data; [|eassumption]. split; [lia|apply Hl].
Qed.
Lemma ends_connect_async id : ends id (handle_tcp_connect_async sys id).
Proof. intros t O. unfold handle_tcp_connect_async. ev. Qed.
#[local] Hint Resolve ends_tcp_reply ends_connect_async : ends.
Lemma send_queue_ends id q : forall sent t,
  opened id t -> wlp (send_queue sys id q sent) (fun r t' => told id t' /\ (forall n, r = inr n -> opened id t')) t.
Proof.
  induction q as [|item q IH]; intros sent t O; cbn [send_queue]; repeat first [by apply IH|ev_step];
    (split; [is_told|]; first [done|intros; eassumption]).
Qed.
Lemma ends_queued id : ends id (handle_queued_tcp_data sys id).
Proof.
  intros t O. unfold handle_queued_tcp_data. do 3 ev_step. eapply wlp_mono; [by apply send_queue_ends|].
  intros [rv|sent] t1 [T1 HO]; [ev|]. specialize (HO sent eq_refl). ev.
Qed.
#[local] Hint Resolve ends_queued : ends.

(** ** UDP and ICMP *)

Definition ends_nonneg (id : Z) (m : M zdtun_t Z) : Prop :=
  forall t, opened id t -> wlp m (fun rv t' => told id t' /\ (rv < 0 \/ opened id t')) t.
Lemma ends_nonneg_use id m (Q : Z -> zdtun_t -> Prop) t :
  ends_nonneg id m -> opened id t -> (forall rv t', told id t' -> (rv < 0 \/ opened id t') -> Q rv t') -> wlp m Q t.
Proof. intros Hm Ho HQ. eapply wlp_mono; [by apply Hm|]. intros rv t' []. auto. Qed.
Lemma calm_mappings f : calm (modifyS (fun t : zdtun_t => t <| udp_mappings ::= f |>)).
Proof. intros t. apply wlp_modify. by eapply frame_set. Qed.
#[local] Hint Resolve calm_mappings : calm.
Ltac ev_nonneg_use H := eapply ends_nonneg_use; [apply H|eassumption|]; intros ? ? ? [?|?].
Ltac ev_nonneg := first [exfalso; lia|split; [is_told|first [by right|left; lia]]].
Lemma ends_bind_connect id : ends_nonneg id (bind_and_connect_udp sys id).
Proof. intros t O. unfold bind_and_connect_udp. repeat ev_step; ev_nonneg. Qed.
Lemma ends_udp_new id : ends_nonneg id (udp_fwd_new sys id).
Proof. intros t O. unfold udp_fwd_new. repeat first [exfalso; lia|ev_nonneg_use ends_bind_connect|ev_step]; ev_nonneg. Qed.
Lemma ends_dns_request id mem off len : ends_nonneg id (check_dns_request id mem off len ;; mret 0).
Proof. intros t O. unfold check_dns_request. repeat ev_step; ev_nonneg. Qed.
Lemma ends_udp_fwd id p : ends id (handle_udp_fwd sys id p).
Proof.
  intros t O. unfold handle_udp_fwd.
  repeat first [exfalso; lia|ev_nonneg_use ends_udp_new|ev_nonneg_use ends_dns_request|ev_step]; try ev_done.
Qed.
#[local] Hint Resolve ends_udp_fwd : ends.
Lemma ends_dns_purge id off len : ends id (check_dns_purge sys id off len).
Proof. intros t O. unfold check_dns_purge. ev. Qed.
Lemma l_put_buf id buf (Q : unit -> zdtun_t -> Prop) t t0 :
  opened id t -> trace t0 = trace t -> heap t0 = heap t -> next_ptr t0 = next_ptr t -> reply_buf t0 = buf -> hdr_built buf ->
  (forall t', opened id t' -> hdr_built (reply_buf t') -> Q tt t') -> wlp (putS t0) Q t.
Proof. intros O Ht Hh Hn <- Hb HQ. apply wlp_put, HQ; [|exact Hb]. eapply opened_frame; [|exact O]. by eapply frame_set. Qed.
#[local] Hint Resolve ends_dns_purge : ends.
Lemma ends_udp_reply id : ends id (handle_udp_reply sys id).
Proof.
  intros t O. unfold handle_udp_reply. do 5 ev_step. apply recv_bound. intros l4_len t1 F1 Hl. unfold READ_MAX in Hl.
  pose proof (opened_frame _ _ _ _ _ F1 O) as O1. ev_step; [ev|]. do 10 ev_step.
  assert (Hb : hdr_built a2).
  { pose proof (iphdr_pos v). eapply hdr_built_wrn; [|eassumption|by eapply hdr_built_make]. lia. }
  apply Z.eqb_neq in E. apply wlp_bind. eapply l_put_buf; [exact O1|done..|exact Hb|]. intros t2 O2 Hb2. ev.
Qed.

Lemma l_tuple id tuple (Q : unit -> zdtun_t -> Prop) t :
  opened id t -> (forall t', opened id t' -> Q tt t') -> wlp (emit (EvTuple id tuple)) Q t.
Proof.
  intros Ho HQ. apply wlp_modify, HQ. eapply opened_call; [exact Ho|done..|]. intros cl Hin. cbn [client_step].
  by rewrite bool_decide_eq_true_2.
Qed.
Lemma ends_icmp_fwd id p : ends id (handle_icmp_fwd sys id p).
Proof.
  intros t O. unfold handle_icmp_fwd.
  repeat first [discriminate|eapply l_tuple; [eassumption|]; intros ? ?|ev_step]; ev_done.
Qed.
Lemma wlp_buf id buf (Q : unit -> zdtun_t -> Prop) t :
  opened id t -> hdr_built buf -> (forall t', opened id t' -> hdr_built (reply_buf t') -> Q tt t') ->
  wlp (modifyS (fun t => t <| reply_buf := buf |>)) Q t.
Proof. intros O Hb HQ. apply wlp_modify, HQ; [|exact Hb]. eapply opened_frame; [|exact O]. by eapply frame_set. Qed.
Lemma ends_icmp_reply id : ends id (handle_icmp_reply sys id).
Proof.
  intros t O. unfold handle_icmp_reply. do 5 ev_step. apply recv_bound. intros icmp_len t1 F1 Hl. unfold READ_MAX in Hl.
  pose proof (opened_frame _ _ _ _ _ F1 O) as O1. pose proof (iphdr_pos v). ev_step; [ev|]. ev_step; [ev|].
  do 4 ev_step. ev_step; [ev|]. do 15 ev_step.
  all: match goal with E : zdtun_make_iphdr _ _ _ _ = Some ?b |- _ => apply hdr_built_make in E end.
  all: repeat lazymatch goal with |- wlp (modifyS _ ;; _) _ _ => fail | _ => ev_step end; apply wlp_bind.
  all: eapply wlp_buf; [eassumption|first [eassumption|eapply hdr_built_wrn; [|eassumption..]; lia]|].
  all: intros t2 O2 Hb2; apply Z.ltb_ge in E0; ev.
Qed.

#[local] Hint Resolve ends_udp_reply ends_icmp_fwd ends_icmp_reply ends_tcp_fwd : ends.
Lemma ends_forward p id : ends id (zdtun_forward sys p id).
Proof. intros t O. unfold zdtun_forward. ev. Qed.
Lemma ends_conn_fd rd wr id rv : ends id (handle_conn_fd sys rd wr id rv).
Proof. intros t O. unfold handle_conn_fd. ev. Qed.

(** ** The table of connections *)

Lemma in_order_frame t t' : frame t t' -> in_order t -> in_order t'.
Proof. by apply calls_frame. Qed.
Lemma l_destroy id (Q : unit -> zdtun_t -> Prop) t :
  in_order t -> (forall t', in_order t' -> (forall i, conn_open t' i = true -> i <> id) -> Q tt t') -> wlp (destroy_conn sys id) Q t.
Proof.
  intros Hi HQ. unfold destroy_conn. apply wlp_bind, (l_close_any room cl0); [done|]. intros t1 Ht1 Ho1 _. apply wlp_bind, l_conn. intros c Hc.
  assert (Hi1 : in_order t1) by (destruct Ht1 as [->|[_ [b Hb]]]; [done|by apply (told_in_order room cl0 id), (closing_told room cl0 id b)]).
  unfold upd_stats. wl. destruct Hi1 as (cl & Hr & [Ho Hx Hm] & Hf & _).
  match goal with |- Q tt ?x => set (t2 := x) end.
  assert (Hopen : forall i, conn_open t2 i = true <-> conn_open t1 i = true).
  { intros i. unfold conn_open. cbn. destruct (decide (i = id)) as [->|Hi1]; [|by rewrite lookup_delete_ne].
    rewrite lookup_delete_eq. unfold conn_open in Ho1. by rewrite Ho1. }
  apply HQ.
  - exists cl. split; [done|]. split; [|done]. split; [intros i; by rewrite Ho, Hopen|done|]. cbn. by apply map_Forall_delete.
  - intros i Hi1 ->. apply Hopen in Hi1. congruence.
Qed.
Lemma l_destroy_all ids (Q : unit -> zdtun_t -> Prop) : forall t,
  in_order t -> (forall t', in_order t' -> Q tt t') -> wlp (forM ids (destroy_conn sys)) Q t.
Proof.
  induction ids as [|id ids IH]; intros t Hi HQ; cbn [forM]; [apply wlp_ret; by apply HQ|].
  apply wlp_bind, l_destroy; [done|]. intros t1 Hi1 _. by apply IH.
Qed.
Lemma l_force_purge ids : forall n (Q : unit -> zdtun_t -> Prop) t,
  in_order t -> (forall t', in_order t' -> Q tt t') -> wlp (force_purge sys ids n) Q t.
Proof.
  induction ids as [|id ids IH]; intros n Q t Hi HQ; cbn [force_purge]; [apply wlp_ret; by apply HQ|].
  destruct (n =? 0); [apply wlp_ret; by apply HQ|]. apply wlp_bind, l_destroy; [done|]. intros t1 Hi1 _. by apply IH.
Qed.
Lemma l_purge (Q : unit -> zdtun_t -> Prop) t :
  in_order t -> (forall t', in_order t' -> Q tt t') -> wlp (zdtun_purge_expired sys) Q t.
Proof.
  intros Hi HQ. unfold zdtun_purge_expired. apply wlp_bind. eapply wlp_calm; [eauto with calm|]. intros now0 t1 F1.
  pose proof (in_order_frame _ _ F1 Hi) as Hi1. clear F1 Hi t. unfold purge_at. apply wlp_bind, wlp_get, wlp_bind.
  assert (Hloop : forall ids t, in_order t ->
    wlp (forM ids (fun id => c ← conn id; whenM (is_idle now0 c) (destroy_conn sys id))) (fun _ => in_order) t).
  { induction ids as [|id ids IH]; intros t Hi; cbn [forM]; [by apply wlp_ret|]. apply wlp_bind, wlp_bind, l_conn. intros c Hc.
    apply wlp_when; intros _; [|by apply IH]. apply l_destroy; [done|]. intros t2 Hi2 _. by apply IH. }
  eapply wlp_mono; [by apply Hloop|]. intros [] t2 Hi2. apply wlp_bind, wlp_get. destruct (_ <=? _); [|apply wlp_ret; by apply HQ].
  cbv zeta. apply wlp_bind, wlp_put, wlp_bind, wlp_get. apply l_force_purge; [|done]. eapply in_order_frame; [|exact Hi2]. by eapply frame_set.
Qed.
(** A connection is created, and [on_connection_open] is asked. *)
Lemma l_create tuple now0 (Q : option Z -> zdtun_t -> Prop) t :
  in_order t -> (forall t', in_order t' -> Q None t') -> (forall id t', opened id t' -> Q (Some id) t') ->
  wlp (t ← getS;
      let id := next_ptr t in
      putS (t <| next_ptr ::= Z.succ |> <| heap ::= <[id := zdtun_conn_new tuple now0]> |>) ;;
      rv ← sysint sys;
      emit (EvConnOpen id tuple (rv =? 0)) ;;
      if negb (rv =? 0) then
        modifyS (fun t => t <| heap ::= delete id |>) ;; mret None
      else
        modifyS (fun t => t <| conn_table ::= fun l => l ++ [(tuple, id)] |>) ;;
        upd_stats (count_conn (ipproto tuple) 1) ;;
        mret (Some id)) Q t.
Proof.
  intros (cl & Hr & [Ho Hx Hm] & Hf & _) HN HS. apply wlp_bind, wlp_get. cbv zeta. set (id := next_ptr t) in *.
  assert (Hnew : heap t !! id = None).
  { destruct (heap t !! id) as [c|] eqn:E; [|done]. specialize (Hm _ _ E). cbn in Hm. lia. }
  assert (Hmap : map_Forall (fun i _ => i < id + 1) (heap t)) by (eapply map_Forall_impl; [exact Hm|]; cbn; lia).
  apply wlp_bind, wlp_put. unfold sysint, syscall. wl. cbn [fst snd]. unfold emit. wl.
  match goal with |- context [EvConnOpen id tuple ?b] => set (ok := b) end.
  set (cl' := Client (if ok then {[id]} ∪ cl_open cl else cl_open cl) (cl_stuck cl) None (id + 1)).
  assert (Hstep : client_run cl0 (EvConnOpen id tuple ok :: trace t) = Some cl').
  { cbn [client_run]. rewrite Hr. cbn [mbind option_bind client_step]. by rewrite (proj2 (Z.leb_le _ _) Hx). }
  assert (Hsent : Forall (sent_ok room) (EvConnOpen id tuple ok :: trace t)) by (by constructor).
  assert (Hfresh : conn_open t id = false) by (unfold conn_open; by rewrite Hnew).
  destruct ok eqn:Eok; cbn [negb]; unfold upd_stats; wl; [apply HS|apply HN].
  - match goal with |- opened id ?x => set (t2 := x) end.
    assert (Hh : heap t2 = <[id := zdtun_conn_new tuple now0]> (heap t)) by done. split.
    + exists cl'. split; [exact Hstep|]. split; [|done]. split; [|cbn; lia|].
      * intros i. rewrite (conn_open_set _ _ _ _ _ Hh). cbn. rewrite elem_of_union, elem_of_singleton, Ho. unfold conn_open.
        case_decide; naive_solver.
      * rewrite Hh. apply map_Forall_insert_2; [cbn; lia|]. eapply map_Forall_impl; [exact Hm|]. cbn. lia.
    + by rewrite (conn_open_set _ _ _ _ _ Hh), decide_True.
  - exists cl'. split; [exact Hstep|]. split; [|done].
    assert (Hh : delete id (<[id := zdtun_conn_new tuple now0]> (heap t)) = heap t) by (by rewrite delete_insert_id). split; cbn.
    + intros i. unfold conn_open. cbn. rewrite Hh. apply Ho.
    + lia.
    + rewrite Hh. eapply map_Forall_impl; [exact Hm|]. cbn. lia.
Qed.
Lemma l_lookup tuple create (Q : option Z -> zdtun_t -> Prop) t :
  in_order t -> (forall t', in_order t' -> Q None t') -> (forall id t', opened id t' -> Q (Some id) t') ->
  wlp (zdtun_lookup sys tuple create) Q t.
Proof.
  intros Hi HN HS. unfold zdtun_lookup. apply wlp_bind, wlp_get, wlp_bind.
  apply (wlp_mono _ (fun f t' => in_order t' /\ forall id, f = Some id -> opened id t')).
  { destruct (table_find _ _ _) as [id|]; [|by apply wlp_ret]. apply wlp_bind, l_conn. intros c Hc.
    destruct (is_closed (status c)) eqn:Ecl.
    - apply wlp_bind, l_destroy; [done|]. intros t1 Hi1 _. by apply wlp_ret.
    - apply wlp_ret. split; [done|]. intros id' [= <-]. split; [done|]. unfold conn_open. rewrite Hc. cbn. by rewrite Ecl. }
  intros [id|] t1 [Hi1 Ho1]; [by apply wlp_ret, HS, Ho1|]. destruct (negb create); [apply wlp_ret; by apply HN|].
  apply wlp_bind, wlp_get, wlp_bind. apply (wlp_mono _ (fun _ => in_order)).
  { apply wlp_when; intros _; [by apply l_purge|done]. }
  intros [] t2 Hi2. apply wlp_bind. eapply wlp_calm; [eauto with calm|]. intros n t3 F3. apply l_create; [|done..].
  by eapply in_order_frame.
Qed.

(** ** The calls *)

Lemma l_forward p id t :
  in_order t -> wlp (zdtun_forward sys p id) (fun _ t' => in_order t' /\ (conn_open t id = true -> told id t')) t.
Proof.
  intros Hi. destruct (conn_open t id) eqn:Eo.
  - eapply ends_use; [apply ends_forward|by split|]. intros rv t' T. split; [by eapply told_in_order|done].
  - unfold zdtun_forward. apply wlp_bind, l_conn. intros c Hc. unfold conn_open in Eo. rewrite Hc in Eo. cbn in Eo.
    apply negb_false_iff in Eo as ->. by apply wlp_ret.
Qed.
Lemma l_easy_forward buf len t : in_order t -> wlp (zdtun_easy_forward sys buf len) (fun _ => in_order) t.
Proof.
  intros Hi. unfold zdtun_easy_forward. apply wlp_bind, wlp_get, wlp_bind, wlp_lift. intros r Er.
  apply wlp_bind, wlp_put. match goal with |- wlp _ _ ?x => set (t1 := x) end.
  assert (Hi1 : in_order t1) by (eapply in_order_frame; [|exact Hi]; by eapply frame_set).
  destruct (fst r) as [e|p]; [by apply wlp_ret|]. destruct (pkt_is_fragment p); [by apply wlp_ret|].
  apply wlp_bind. apply (wlp_mono _ (fun _ t' => t' = t1)).
  { destruct (_ =? _); [|by apply wlp_ret]. apply wlp_bind, wlp_lift. intros ? _. by apply wlp_ret. }
  intros est t2 ->. apply wlp_bind, l_lookup; [done|intros; by apply wlp_ret|]. intros id t2 O2.
  apply wlp_bind. eapply ends_use; [apply ends_forward|done|]. intros rv t3 T3.
  destruct (negb _); [|apply wlp_ret; by eapply told_in_order]. apply wlp_bind, (l_close room cl0); [done|].
  intros t4 T4 _. apply wlp_ret. by eapply told_in_order.
Qed.
Lemma l_handle_fd rd wr t : ready t -> in_order t -> wlp (zdtun_handle_fd sys rd wr) (fun _ => in_order) t.
Proof.
  intros Hr Hi. unfold zdtun_handle_fd. apply wlp_bind, wlp_get.
  assert (Hids : forall id, id ∈ snd <$> conn_table t -> is_Some (heap t !! id)) by (intros id; apply (inv_live _ _ (proj1 Hr))).
  revert Hids. generalize (snd <$> conn_table t) 0. intros ids rv Hids. revert rv t Hr Hi Hids.
  induction ids as [|id ids IH]; intros rv t Hr Hi Hids; cbn [handle_fd_loop]; [by apply wlp_ret|].
  assert (Hid : is_Some (heap t !! id)) by (apply Hids; by left). apply wlp_bind. intros rv1 t1 E1.
  destruct (handle_conn_fd_safe sys rd wr id rv t Hr Hid) as (rv1' & t1' & E1' & Hr1 & Hg1). assert (t1' = t1) as -> by congruence.
  assert (Hi1 : in_order t1).
  { destruct (conn_open t id) eqn:Eo; [by apply (told_in_order room cl0 id), (ends_conn_fd rd wr id rv t (conj Hi Eo) rv1)|].
    destruct Hid as [c Hc]. unfold conn_open in Eo. rewrite Hc in Eo. cbn in Eo. apply negb_false_iff in Eo.
    pose proof (ok_closed _ (inv_conn _ _ _ _ (proj1 Hr) Hc) Eo) as Hs. revert E1. unfold handle_conn_fd, conn.
    unfold mbind, M_bind, getS, liftO. rewrite Hc. cbn. rewrite Hs. cbn. by intros [= _ <-]. }
  destruct (negb _); [by apply wlp_ret|]. apply IH; [done|done|]. intros i Hin. destruct (decide (i = id)) as [->|Hne].
  - by apply (touches_live _ _ _ (g_touches _ _ _ Hg1)).
  - rewrite (touches_lookup_ne _ _ _ _ (g_touches _ _ _ Hg1) Hne). apply Hids. by right.
Qed.
Lemma l_update id f t : (forall c, status (f c) = status c) -> in_order t -> wlp (set_conn id f) (fun _ => in_order) t.
Proof.
  intros Hf Hi. apply l_set_raw. intros c Hc. by eapply (calls_update _ _ _ id c (f c)); [done|rewrite Hf|..].
Qed.
Lemma l_run_call c t : ready t -> in_order t -> wlp (run_call sys c) (fun _ => in_order) t.
Proof.
  intros Hr Hi. assert (Hmod : forall f, (forall t, trace (f t) = trace t /\ heap (f t) = heap t /\ next_ptr (f t) = next_ptr t) ->
    wlp (modifyS f) (fun _ => in_order) t).
  { intros f Hf. apply wlp_modify. destruct (Hf t) as (? & ? & ?). eapply in_order_frame; [by eapply frame_set|done]. }
  destruct c; cbn [run_call]; try (apply wlp_bind; apply (wlp_mono _ (fun _ => in_order)); [|intros ? ? ?; by apply wlp_ret]).
  - by apply l_easy_forward.
  - apply l_lookup; [done|done|]. by intros id t' [].
  - eapply wlp_mono; [by apply l_forward|]. by intros rv t' [].
  - apply l_update; [|done]. intros c. unfold zdtun_conn_proxy. by case_match.
  - by apply l_update.
  - apply (l_close_any room cl0); [done|]. intros t' [->|[_ [b Hb]]] _ _; [done|]. by eapply told_in_order, closing_told.
  - by apply l_handle_fd.
  - by apply l_purge.
  - by apply Hmod.
  - by apply Hmod.
  - by apply Hmod.
Qed.
End handlers.

(** In every state the calls lead to. *)
Lemma reachable_in_order room sys t :
  (room -> forall n, Z.of_nat (length (snd (sys n))) <= READ_MAX) -> reachable sys t ->
  in_order room client_init t.
Proof.
  intros Hread Hr. assert (H : ready t /\ in_order room client_init t); [|apply H].
  induction Hr as [|t c t' _ [Hrd Hi] Hok E].
  - split; [apply ready_init|]. exists client_init. split; [done|]. split; [|by split]. split; [|done..].
    intros id. unfold conn_open. cbn. set_solver.
  - destruct (run_call_safe sys c t Hrd Hok) as ([] & t2 & E2 & Hrd2). assert (t2 = t') as -> by congruence.
    split; [done|]. by apply (l_run_call room client_init sys Hread c t Hrd Hi tt).
Qed.

(** C16: The program that uses zdtun hears of its connections in order.  In every state
    a sequence of calls leads to (calls made as the API asks, [call_ok]), whatever the
    servers send and the system calls answer: each callback is about a connection that
    was accepted and is not yet closed, or tells once more, and at once, the end of the
    connection closed last; nothing is counted for a closed connection, and every
    packet that is sent has an IP header and lies in the reply buffer, with 16 bytes of
    the buffer behind it if no read returns more than [READ_MAX] bytes.  The
    connections it was told of and not told closed are those the engine has open, and
    those it gave up without a socket. *)
Theorem callbacks_in_order sys t :
  reachable sys t ->
  exists cl, client_run client_init (trace t) = Some cl /\
    (forall id, id ∈ cl_open cl <-> conn_open t id = true) /\
    Forall (sent_ok (forall n, Z.of_nat (length (snd (sys n))) <= READ_MAX)) (trace t).
Proof.
  intros Hr. destruct (reachable_in_order (forall n, Z.of_nat (length (snd (sys n))) <= READ_MAX) sys t)
    as (cl & Hrun & [Ho _ _] & Hf & _); [done|done|]. by exists cl.
Qed.
Lemma callbacks_in_order_witness :
  exists t cl, run_call sys_ok (syn_call opts_mss1460) zdtun_init = Some (tt, t) /\
    client_run client_init (trace t) = Some cl /\ (forall id, id ∈ cl_open cl <-> conn_open t id = true) /\
    Forall (sent_ok (forall n, Z.of_nat (length (snd (sys_ok n))) <= READ_MAX)) (trace t).
Proof.
  destruct (run_call_safe sys_ok (syn_call opts_mss1460) zdtun_init ready_init syn_call_ok) as ([] & t & E & _).
  destruct (callbacks_in_order sys_ok t) as (cl & H); [by eapply reach_call; [apply reach_init|apply syn_call_ok|]|].
  exists t, cl. split; [exact E|exact H].
Defined.

End ZdtunOrder.
