(* ===== verification/VpnLoop.v ===== *)
(** * The loop of the VPN capture, over zdtun (core/capture_vpn.c)

    [run_vpn] as a whole: each turn parses a packet of the client or lets zdtun handle
    its sockets, then does the housekeeping and the purge.  While zdtun runs it calls
    back the capture: what the callbacks answered is an answer of the environment of
    zdtun, and a run where the capture would have answered otherwise is not one of the
    program. *)

From S2P Require Import Prelude CString UtHash ZdtunTypes ZdtunConn ZdtunPkt PortMap ZdtunWire ZdtunState ZdtunFwd PdTypes PdNotify PdConn PdProcess PdHouse PdVpn PdJni PdRuns.

Module VpnLoop.
Export PdRuns.
Import ZdtunPkt ZdtunFwd ZdtunState.
Abbreviation tun := ZdtunState.zdtun_t.

(** ** Runs *)

(** [Fault] is undefined behaviour, [Unreal] an answer the capture did not give. *)
Inductive outcome (A : Type) := Fault | Unreal | Done (a : A).
Arguments Fault {A}.
Arguments Unreal {A}.
Arguments Done {A} a.

(** [vl_data] is what the callbacks get of a connection of zdtun: its tuple, and the
    pointer of [zdtun_conn_get_userdata]. *)
Record vpn_loop := Loop {
    vl_zdt : tun;
    vl_pd : pcapdroid;
    vl_ports : PortMap.mappings_t;
    vl_data : gmap Z conn_data;
    vl_lost : list Z;
    next_purge_ms : Z;
  }.
#[export] Instance eta_vpn_loop : Eta vpn_loop := fun s =>
  Loop (vl_zdt s) (vl_pd s) (vl_ports s) (vl_data s) (vl_lost s) (next_purge_ms s).

Definition L (A : Type) : Type := vpn_loop -> outcome (A * vpn_loop).
#[export] Instance L_ret : MRet L := fun A a s => Done (a, s).
#[export] Instance L_bind : MBind L := fun A B f m s =>
  match m s with Fault => Fault | Unreal => Unreal | Done r => f (fst r) (snd r) end.
Definition the_loop : L vpn_loop := fun s => Done (s, s).
Definition put_loop (s : vpn_loop) : L unit := fun _ => Done (tt, s).
Definition fault {A} : L A := fun _ => Fault.
Definition unreal {A} : L A := fun _ => Unreal.
Definition found {A} (o : option A) : L A := match o with Some a => mret a | None => fault end.

Section loop.
Context `{PdEnv} `{InetPton} (zsys : nat -> Z * list Z).

Definition pd_do {A} (m : M pcapdroid A) : L A := fun s =>
  match m (vl_pd s) with Some (a, pd) => Done (a, s <| vl_pd := pd |>) | None => Fault end.
Definition user_data (id : Z) : L conn_data := s ← the_loop; found (vl_data s !! id).
Definition set_data (id : Z) (a : conn_data) : L unit :=
  s ← the_loop; put_loop (s <| vl_data ::= <[id := a]> |>).

(** ** The callbacks *)

Definition callback (e : event) : L unit :=
  match e with
  | EvConnOpen id tuple accepted =>
      r ← pd_do (handle_new_connection tuple);
      match r with
      | Some p => if accepted : bool then set_data id (tuple, p) else unreal
      | None => if accepted then unreal else mret tt
      end
  | EvSendClient id pkt rv =>
      a ← user_data id;
      r ← pd_do (remote2vpn (fst a) (snd a) pkt);
      if r =? rv then mret tt else unreal
  | EvAccount id _ _ st => a ← user_data id; pd_do (update_conn_status (snd a) st)
  | EvConnClose id st => a ← user_data id; pd_do (connection_closed (fst a) (snd a) st)
  | EvTuple id tuple => a ← user_data id; set_data id (tuple, snd a)
  | EvNoSocket id => a ← user_data id; s ← the_loop; put_loop (s <| vl_lost ::= cons (snd a) |>)
  | _ => mret tt
  end.
(** The newest comes first. *)
Fixpoint callbacks (tr : list event) : L unit :=
  match tr with [] => mret tt | e :: tr => callbacks tr ;; callback e end.
Definition zdt_do {A} (m : M tun A) : L A := fun s =>
  match m ((vl_zdt s) <| ZdtunState.trace := [] |>) with
  | Some (a, t) => (callbacks (ZdtunState.trace t) ;; mret a) (s <| vl_zdt := t |>)
  | None => Fault
  end.
Definition zdt_conn (id : Z) : L zdtun_conn := s ← the_loop; found (heap (vl_zdt s) !! id).

(** ** One packet of the client *)

Definition parse_client (buffer : list Z) (size : Z) : M tun (Z + zdtun_pkt) :=
  t ← getS;
  r ← liftO (zdtun_parse_pkt buffer (u16 size) (id2ports t));
  putS (t <| id2ports := snd r |>) ;; mret (fst r).

(** What [zdtun_conn_dnat] and [zdtun_conn_proxy] stored. *)
Definition keep_redirect (id : Z) (zc : zdtun_conn) : M tun unit :=
  ZdtunState.set_conn id (fun c => c <| proxy_mode := proxy_mode zc |> <| dnat := dnat zc |>).

(** The context of the packet holds a pointer to the tuple of the connection. *)
Definition px_at (px : pkt_context) (tuple : zdtun_5tuple) : pkt_context :=
  PCtx (px_pkt px) (px_tv px) (px_ms px) (px_is_tx px) tuple (px_data px).

Definition vpn_process (pkt : zdtun_pkt) (id : Z) : L unit :=
  a ← user_data id;
  zc ← zdt_conn id;
  s ← the_loop;
  let (tuple, p) := a : conn_data in
  r ← pd_do (vpn_judge (vl_ports s) (socks5 (vl_zdt s)) (zc <| c_tuple := tuple |>) p pkt);
  let '(px, (spoofed, zc)) := r : pkt_context * (bool * zdtun_conn) in
  zdt_do (keep_redirect id zc) ;;
  (if spoofed : bool then zdt_do (zdtun_conn_close zsys id CONN_STATUS_CLOSED) else mret tt) ;;
  a ← user_data id;
  forward ← pd_do (vpn_allow (fst a) p (px_at px (fst a)));
  if negb forward then mret tt else
  rv ← zdt_do (zdtun_forward zsys pkt id);
  a ← user_data id;
  zc ← zdt_conn id;
  st ← pd_do (vpn_forwarded rv (zc <| c_tuple := fst a |>) p);
  match st with Some st => zdt_do (zdtun_conn_close zsys id st) | None => mret tt end.

Definition vpn_packet (buffer : list Z) (size : Z) : L unit :=
  r ← zdt_do (parse_client buffer size);
  match r with
  | inl _ => mret tt
  | inr pkt =>
      create ← pd_do (vpn_accept pkt);
      match create with
      | None => mret tt
      | Some create =>
          conn ← zdt_do (zdtun_lookup zsys (pkt_tuple pkt) create);
          match conn with
          | None => pd_do (vpn_no_conn create)
          | Some id => vpn_process pkt id
          end
      end
  end.

(** ** The loop *)

(** What [select] and [read] give, and what the other threads do meanwhile. *)
Inductive vpn_input :=
  | InPacket (buffer : list Z) (size : Z)
  | InNoPacket
  | InSockets (rd_fds wr_fds : gset Z)
  | InJava (j : java_op)
  | InPortMapping (garbage : zdtun_ip) (proto orig redirect : Z) (ip : cstr) (realloc_ok : bool)
  | InWorker.

(** The open connections, in the order of the table of zdtun. *)
Definition active_conns (s : vpn_loop) : list conn_data := omap (fun id => vl_data s !! id) (iter_ids (vl_zdt s)).
Definition vpn_housekeeping : L unit :=
  s ← the_loop;
  pd_do (pd_housekeeping (stats (vl_zdt s)) (active_conns s)) ;;
  s ← the_loop;
  if next_purge_ms s <=? now_ms (vl_pd s) then
    zdt_do (zdtun_purge_expired zsys) ;;
    s ← the_loop;
    put_loop (s <| next_purge_ms := u64 (now_ms (vl_pd s) + PERIODIC_PURGE_TIMEOUT_MS) |>)
  else mret tt.

(** A turn: something to read from the client, or the sockets. *)
Definition vpn_turn (m : L unit) : L unit := pd_do pd_refresh_time ;; m ;; vpn_housekeeping.

(** Whether the loop goes on. *)
Definition vpn_step (i : vpn_input) : L bool :=
  s ← the_loop;
  let turn m := (if running (vl_pd s) then vpn_turn m ;; mret true else mret false) in
  match i with
  | InPacket buffer size => turn (vpn_packet buffer size)
  | InNoPacket => turn (mret tt)
  | InSockets rd wr => turn (zdt_do (zdtun_handle_fd zsys rd wr) ;; mret tt)
  | InJava j => pd_do (run_java j) ;; mret true
  | InPortMapping g proto orig redirect ip ok =>
      r ← found (addPortMapping g proto orig redirect ip ok (vl_ports s));
      put_loop (s <| vl_ports := snd r |>) ;; mret true
  | InWorker => pd_do worker ;; mret true
  end.
(** [select] fails at the end of the list. *)
Fixpoint vpn_run (ins : list vpn_input) : L unit :=
  match ins with
  | [] => mret tt
  | i :: ins => go ← vpn_step i; if go : bool then vpn_run ins else mret tt
  end.

(** ** The start and the end *)

Record zdt_prefs := ZdtPrefs {
    zp_mtu : Z; zp_ip : zdtun_ip; zp_port : Z; zp_ipver : Z;
    zp_user : list Z; zp_pass : list Z }.
Definition zdt_start (zp : zdt_prefs) (proxy : bool) : M tun unit :=
  zdtun_set_mtu (zp_mtu zp) ;;
  whenM proxy
    (zdtun_set_socks5_proxy (zp_ip zp) (zp_port zp) (zp_ipver zp) ;;
     whenM (negb (bool_decide (zp_user zp = [])) && negb (bool_decide (zp_pass zp = [])))
       (zdtun_set_socks5_userpass (zp_user zp) (zp_pass zp))).
Definition vpn_end : L unit :=
  s ← the_loop;
  put_loop (s <| vl_ports ::= PortMap.pd_reset_port_map |>) ;;
  zdt_do (zdtun_finalize zsys) ;;
  pd_do pd_stop.

Definition vpn_begin (s : run_state) : vpn_loop :=
  let pd := r_pd s in
  Loop zdtun_init pd (r_ports s) ∅ [] (u64 (now_ms pd + PERIODIC_PURGE_TIMEOUT_MS)).
Definition run_vpn (cf : pd_config) (prefs : pd_prefs) (vp : vpn_prefs) (zp : zdt_prefs) (ins : list vpn_input) :
    outcome vpn_loop :=
  match capture_start cf prefs vp with
  | None => Fault
  | Some (ok, s) =>
      let v := vpn_begin s in
      if negb ok then Done v else
      match (zdt_do (zdt_start zp (socks5_enabled (vl_pd v))) ;; vpn_run ins ;; vpn_end) v with
      | Fault => Fault
      | Unreal => Unreal
      | Done r => Done (snd r)
      end
  end.
End loop.
End VpnLoop.
