(* ===== verification/VpnRefine.v ===== *)
(** * The loop of the VPN capture makes only the steps of [PdRuns]

    What zdtun calls back, in the order its contract allows, and what the loop does
    between its calls, is a sequence of the steps a capture is made of. *)

From S2P Require Import Prelude CString UtHash ZdtunTypes ZdtunConn ZdtunPkt ParseMore PortMap ZdtunWire ZdtunState ZdtunInv ZdtunClose ZdtunTcp ZdtunFwd ZdtunSafe ZdtunApi ZdtunEvents ZdtunOrder PdTypes PdNotify PdConn PdProcess PdHouse PdVpn PdJni PdFrame PdOwn PdSafe PdVpnSafe PdRuns VpnLoop.

Module VpnRefine.
Export VpnLoop.
Import ZdtunPkt ZdtunWire ZdtunState ZdtunFwd ZdtunInv ZdtunClose ZdtunSafe ZdtunApi ZdtunEvents ZdtunOrder.

(** ** What a state of the loop is among those of [PdRuns] *)

Definition names (v : vpn_loop) : list Z -> list conn_data -> Prop := Forall2 (fun id a => vl_data v !! id = Some a).
Record sim (cl : client) (v : vpn_loop) (s : run_state) : Prop := {
    sm_pd : r_pd s = vl_pd v;
    sm_ports : r_ports s = vl_ports v;
    sm_open : exists ids, NoDup ids /\ (forall id, id ∈ ids <-> id ∈ cl_open cl) /\ names v ids (r_open s);
    sm_lost : exists ids, (forall id, id ∈ cl_stuck cl -> id ∈ ids) /\ (forall id, id ∈ ids -> id ∉ cl_open cl) /\
      names v ids (r_lost s);
    sm_stuck : vl_lost v = snd <$> r_lost s;
    sm_last : forall id b, cl_last cl = Some (id, b) -> exists a, vl_data v !! id = Some a /\ r_last s = Some a;
    sm_fresh : forall id, is_Some (vl_data v !! id) -> id < cl_next cl;
  }.
(** Between two calls of zdtun. *)
Definition forget (cl : client) : client := cl <| cl_last := None |>.

Lemma names_pd v pd ids l : names v ids l -> names (v <| vl_pd := pd |>) ids l.
Proof. done. Qed.
Lemma names_ext v v' ids l : (forall id, id ∈ ids -> vl_data v' !! id = vl_data v !! id) -> names v ids l -> names v' ids l.
Proof.
  intros Hv Hn. unfold names in *. induction Hn as [|id a ids l Ha Hn IH]; [constructor|].
  constructor; [rewrite Hv; [done|by left]|]. apply IH. intros i Hi. apply Hv. by right.
Qed.
Lemma names_lookup v ids l id : names v ids l -> id ∈ ids -> exists i a, l !! i = Some a /\ ids !! i = Some id /\ vl_data v !! id = Some a.
Proof.
  intros Hn [i Hi]%list_elem_of_lookup. destruct (Forall2_lookup_l _ _ _ _ _ Hn Hi) as (a & Ha & Hd). by exists i, a.
Qed.
Lemma delete_elem_of (ids : list Z) i id j :
  NoDup ids -> ids !! i = Some id -> j ∈ delete i ids <-> j ∈ ids /\ j <> id.
Proof.
  intros Hn Hi. apply delete_Permutation in Hi as Hp. rewrite Hp in Hn. apply NoDup_cons in Hn as [Hni _].
  assert (j ∈ ids <-> j ∈ id :: delete i ids) as -> by (by rewrite <-Hp). rewrite elem_of_cons. naive_solver.
Qed.
Lemma names_delete v ids l i : names v ids l -> names v (delete i ids) (delete i l).
Proof. apply Forall2_delete. Qed.

(** An open connection, and one that was not forgotten, among the steps. *)
Lemma open_ref cl v s id :
  sim cl v s -> id ∈ cl_open cl -> exists i a, r_open s !! i = Some a /\ vl_data v !! id = Some a.
Proof.
  intros Hs Hi. destruct (sm_open _ _ _ Hs) as (ids & Hn & Hids & Hf). apply Hids in Hi.
  destruct (names_lookup _ _ _ _ Hf Hi) as (i & a & Ha & _ & Hd). by exists i, a.
Qed.
Definition ref_client (r : conn_ref) (cl : client) : client := match r with RLast => cl | _ => forget cl end.
Lemma told_ref cl v s id :
  sim cl v s -> told_of id cl -> exists r a, conn_of r s = Some a /\ vl_data v !! id = Some a /\ told_of id (ref_client r cl).
Proof.
  intros Hs [Hi|[Hi|[b Hi]]].
  - destruct (open_ref _ _ _ _ Hs Hi) as (i & a & ? & ?). exists (ROpen i), a. split_and!; [done|done|by left].
  - destruct (sm_lost _ _ _ Hs) as (ids & Hids & _ & Hf). apply Hids in Hi as Hi'.
    destruct (names_lookup _ _ _ _ Hf Hi') as (i & a & Ha & _ & Hd). exists (RLost i), a.
    split_and!; [done|done|by right; left].
  - destruct (sm_last _ _ _ Hs _ _ Hi) as (a & Hd & Hl). exists RLast, a. split_and!; [done|done|right; right; by exists b].
Qed.
Lemma same_data (o : option conn_data) (a b : conn_data) : o = Some a -> o = Some b -> a = b.
Proof. congruence. Qed.

Lemma sim_forget cl v s : sim cl v s -> sim (forget cl) v s.
Proof. intros []. by split. Qed.
(** The capture changed; what was closed last may be forgotten. *)
Lemma sim_pd cl cl' v s pd :
  sim cl v s -> cl_open cl' = cl_open cl -> cl_stuck cl' = cl_stuck cl -> cl_next cl <= cl_next cl' -> cl_last cl' = None ->
  sim cl' (v <| vl_pd := pd |>) (Run pd (r_open s) (r_lost s) None (r_ports s)).
Proof.
  intros [] Eo Es En El. split; try done; rewrite ?Eo, ?Es; try done; [by intros id b; rewrite El|].
  intros id Hid. specialize (sm_fresh0 id Hid). lia.
Qed.
Lemma sim_ref cl v s pd r :
  sim cl v s -> sim (ref_client r cl) (v <| vl_pd := pd |>)
    (Run pd (r_open s) (r_lost s) (match r with RLast => r_last s | _ => None end) (r_ports s)).
Proof. intros []. destruct r; by split. Qed.
Lemma sim_zdt cl v s z : sim cl v s -> sim cl (v <| vl_zdt := z |>) s.
Proof. intros []. by split. Qed.

(** ** Sequences of steps *)

Lemma run_ops_app `{PdEnv} `{InetPton} ops1 ops2 s s1 s2 :
  run_ops ops1 s = Some s1 -> run_ops ops2 s1 = Some s2 -> run_ops (ops1 ++ ops2) s = Some s2.
Proof.
  revert s. induction ops1 as [|o ops1 IH]; intros s E1 E2; [by injection E1 as <-|].
  cbn [app run_ops] in *. destruct (step o s) as [s'|]; [|done]. cbn [mbind option_bind] in *. by apply IH.
Qed.

Section refine.
Context `{PdEnv} `{HI : InetPton} `{HIok : !InetPtonOk HI} (Henv : env_ok).
Context (zsys : nat -> Z * list Z) (tight : bool) (Hj : tight = true -> jni_ok).

(** Every real run of [m] makes steps of [PdRuns] and leads to [Q]. *)
Definition refines {A} (m : L A) (Q : A -> vpn_loop -> run_state -> Prop) (v : vpn_loop) (s : run_state) : Prop :=
  match m v with
  | Fault => False
  | Unreal => True
  | Done (a, v') => exists ops s', Forall op_ok ops /\ run_ops ops s = Some s' /\ Q a v' s'
  end.

Lemma r_ret {A} (a : A) (Q : A -> vpn_loop -> run_state -> Prop) v s : Q a v s -> refines (mret a) Q v s.
Proof. intros HQ. by exists [], s. Qed.
Lemma r_mono {A} (m : L A) (P Q : A -> vpn_loop -> run_state -> Prop) v s :
  refines m P v s -> (forall a v' s', P a v' s' -> Q a v' s') -> refines m Q v s.
Proof.
  unfold refines. destruct (m v) as [| |[a v']]; [done|done|]. intros (ops & s' & ? & ? & HP) HPQ.
  exists ops, s'. auto.
Qed.
Lemma r_bind {A B} (m : L A) (f : A -> L B) (Q : B -> vpn_loop -> run_state -> Prop) v s :
  refines m (fun a => refines (f a) Q) v s -> refines (m ≫= f) Q v s.
Proof.
  unfold refines, mbind, L_bind. destruct (m v) as [| |[a v1]]; [done|done|]. intros (ops1 & s1 & Ho1 & E1 & Hf).
  cbn [fst snd]. destruct (f a v1) as [| |[b v2]]; [done|done|]. destruct Hf as (ops2 & s2 & Ho2 & E2 & HQ).
  exists (ops1 ++ ops2), s2. split; [by apply Forall_app|]. split; [|done]. by eapply run_ops_app.
Qed.
Lemma r_loop (Q : vpn_loop -> vpn_loop -> run_state -> Prop) v s : Q v v s -> refines the_loop Q v s.
Proof. intros HQ. by exists [], s. Qed.
Lemma r_put v' (Q : unit -> vpn_loop -> run_state -> Prop) v s : Q tt v' s -> refines (put_loop v') Q v s.
Proof. intros HQ. by exists [], s. Qed.
Lemma r_data id a (Q : conn_data -> vpn_loop -> run_state -> Prop) v s :
  vl_data v !! id = Some a -> Q a v s -> refines (user_data id) Q v s.
Proof. intros Hd HQ. apply r_bind, r_loop. rewrite Hd. by apply r_ret. Qed.

(** A call of the capture that is one step. *)
Lemma r_one {A} (o : run_op) (m : M pcapdroid A) k (Q : A -> vpn_loop -> run_state -> Prop) v s :
  r_pd s = vl_pd v -> run_inv tight s -> op_ok o -> step o s = on_pd m s k ->
  (forall a pd, m (vl_pd v) = Some (a, pd) -> run_inv tight (k a pd) -> Q a (v <| vl_pd := pd |>) (k a pd)) ->
  refines (pd_do m) Q v s.
Proof.
  intros Hpd Hs Ho E HQ. destruct (step_safe Henv tight o s Hj Hs Ho) as (s' & E' & Hs').
  pose proof E' as E2. rewrite E in E2. unfold on_pd in E2. rewrite Hpd in E2.
  unfold refines, pd_do. destruct (m (vl_pd v)) as [[a pd]|] eqn:Em; [|done]. cbn [mbind option_bind fst snd] in E2.
  injection E2 as <-. exists [o], (k a pd). split; [by constructor|]. split; [cbn [run_ops]; by rewrite E'|]. by apply HQ.
Qed.
(** A step of the engine alone. *)
Lemma r_step {A} (o : run_op) (m : L A) (Q : A -> vpn_loop -> run_state -> Prop) v s s' :
  run_inv tight s -> op_ok o -> step o s = Some s' -> (run_inv tight s' -> refines m Q v s') -> refines m Q v s.
Proof.
  intros Hs Ho E HQ. destruct (step_safe Henv tight o s Hj Hs Ho) as (s1 & E' & Hs1).
  assert (s1 = s') as -> by congruence. specialize (HQ Hs1). unfold refines in *. destruct (m v) as [| |[a v']]; [done|done|].
  destruct HQ as (ops & s2 & Hops & E2 & HQ). exists (o :: ops), s2. split; [by constructor|]. split; [|done].
  cbn [run_ops]. by rewrite E.
Qed.

(** ** The callbacks *)

(** What zdtun sends is a packet as the capture expects one. *)
Lemma reply_fine id p rv : event_fine (EvSendClient id p rv) -> sent_ok True (EvSendClient id p rv) -> pkt_fine p.
Proof.
  intros (n & Hwf & Hb & Hl) [Hh Hs]. destruct Hwf. unfold REPLY_BUF_SIZE in *. split; [done|lia|lia|lia|lia|done].
Qed.

Lemma names_insert v id a ids l : id ∉ ids -> names v ids l -> names (v <| vl_data ::= <[id := a]> |>) ids l.
Proof. intros Hn. apply names_ext. intros i Hi. cbn. rewrite lookup_insert_ne; [done|]. by intros ->. Qed.
Lemma names_set v id a f ids l i :
  NoDup ids -> ids !! i = Some id -> l !! i = Some a -> names v ids l ->
  names (v <| vl_data ::= <[id := f a]> |>) ids (alter f i l).
Proof.
  intros Hn Hi Hl Hf. revert i Hi Hl. induction Hf as [|id0 a0 ids l Ha Hf IH]; intros [|i] Hi Hl; try done; cbn in *;
    apply NoDup_cons in Hn as [Hn0 Hn].
  - injection Hi as ->. injection Hl as ->. constructor; [apply lookup_insert_eq|]. by apply names_insert.
  - constructor; [|by apply IH]. cbn. rewrite lookup_insert_ne; [done|]. intros ->. by apply Hn0, (list_elem_of_lookup_2 _ i).
Qed.

(** A connection keeps what the capture has for it. *)
Definition keeps_data (v v' : vpn_loop) : Prop :=
  forall id a, vl_data v !! id = Some a -> exists tuple, vl_data v' !! id = Some (tuple, snd a).
Lemma keeps_same v v' : vl_data v' = vl_data v -> keeps_data v v'.
Proof. intros E id [tuple p] Ha. exists tuple. by rewrite E. Qed.
Lemma keeps_trans v1 v2 v3 : keeps_data v1 v2 -> keeps_data v2 v3 -> keeps_data v1 v3.
Proof. intros H1 H2 id a Ha. destruct (H1 id a Ha) as [t1 Ha1]. by destruct (H2 _ _ Ha1) as [t2 Ha2]; exists t2. Qed.

Record called (cl : client) (v : vpn_loop) (v' : vpn_loop) (s' : run_state) : Prop := {
    ca_inv : run_inv tight s';
    ca_sim : sim cl v' s';
    ca_zdt : vl_zdt v' = vl_zdt v;
    ca_data : keeps_data v v';
  }.

Lemma r_open_conn id tuple ok cl cl' v s :
  sim cl v s -> run_inv tight s -> client_step (EvConnOpen id tuple ok) cl = Some cl' -> tuple_ok tuple ->
  refines (callback (EvConnOpen id tuple ok)) (fun _ v' => called cl' v v') v s.
Proof.
  intros Hs Hi Hc Ht. cbn [client_step] in Hc. destruct (Z.leb_spec (cl_next cl) id) as [Hid|]; [|done]. injection Hc as <-.
  cbn [callback]. apply r_bind. eapply (r_one (OpOpen tuple)); [apply Hs|done|done|reflexivity|]. intros r pd Em Hi1.
  destruct r as [p|], ok; try exact I; [|apply r_ret; split; [exact Hi1| |done|by apply keeps_same]; by eapply sim_pd; [exact Hs|..]; cbn; try done; lia].
  unfold set_data. apply r_bind, r_loop, r_put.
  assert (Hnew : forall i, is_Some (vl_data v !! i) -> i <> id) by (intros i Hd ->; pose proof (sm_fresh _ _ _ Hs id Hd); lia).
  assert (Hnames : forall ids l, names v ids l -> id ∉ ids).
  { intros ids l Hn Hin. destruct (names_lookup _ _ _ _ Hn Hin) as (i & a & _ & _ & Hd). by apply (Hnew id); [eexists|]. }
  split; [exact Hi1| |done|].
  2:{ intros i [t0 p0] Ha. exists t0. cbn. rewrite lookup_insert_ne; [done|]. intros <-. by apply (Hnew id); [eexists|]. }
  destruct Hs as [Epd Epo (ids & Hn & Hids & Ho) (ids' & Hst & Hdis & Hl) Elost _ Hfr]. split; cbn; try done.
  - exists (id :: ids). split; [constructor; [by eapply Hnames|done]|]. split; [intros i; rewrite elem_of_cons, Hids; set_solver|].
    constructor; [apply lookup_insert_eq|]. apply (names_insert v id (tuple, p)); [by eapply Hnames|done].
  - exists ids'. split; [done|]. split; [|apply (names_insert v id (tuple, p)); [by eapply Hnames|done]].
    intros i Hin. pose proof (Hdis i Hin). assert (i <> id) by (intros ->; by apply (Hnames _ _ Hl)). set_solver.
  - intros i Hd. apply lookup_insert_is_Some' in Hd as [->|Hd]; [lia|]. specialize (Hfr i Hd). lia.
Qed.

(** A callback about an open connection, which the capture keeps. *)
Lemma r_about_open {A B} id (o : nat -> run_op) (m : conn_data -> M pcapdroid A) (f : A -> L B)
    (Q : B -> vpn_loop -> run_state -> Prop) cl v s :
  sim cl v s -> run_inv tight s -> id ∈ cl_open cl -> (forall i, op_ok (o i)) ->
  (forall i a, r_open s !! i = Some a -> step (o i) s = only_pd (m a) s) ->
  (forall a pd, run_inv tight (Run pd (r_open s) (r_lost s) None (r_ports s)) ->
     refines (f a) Q (v <| vl_pd := pd |>) (Run pd (r_open s) (r_lost s) None (r_ports s))) ->
  refines (a ← user_data id; r ← pd_do (m a); f r) Q v s.
Proof.
  intros Hs Hi Hin Ho E HQ. destruct (open_ref _ _ _ _ Hs Hin) as (i & a & Ha & Hd).
  apply r_bind. eapply r_data; [exact Hd|]. apply r_bind.
  eapply (r_one (o i)); [apply Hs|done|done|by apply E|]. intros x pd _. apply HQ.
Qed.
Lemma r_send id pkt rv cl cl' v s :
  sim cl v s -> run_inv tight s -> client_step (EvSendClient id pkt rv) cl = Some cl' -> pkt_fine pkt ->
  refines (callback (EvSendClient id pkt rv)) (fun _ v' => called cl' v v') v s.
Proof.
  intros Hs Hi Hc Hp. cbn [client_step] in Hc. case_bool_decide; [|done]. injection Hc as <-. cbn [callback].
  eapply (r_about_open id (fun i => OpReply i pkt) (fun a => remote2vpn (fst a) (snd a) pkt)); [done..| |].
  - intros i [tuple p] Ha. cbn [step]. unfold on_conn. cbn [conn_of]. by rewrite Ha.
  - intros r pd Hi'. destruct (r =? rv); [|exact I]. apply r_ret. split; [done|by eapply sim_pd|done|by apply keeps_same].
Qed.
Lemma r_status id p to st cl cl' v s :
  sim cl v s -> run_inv tight s -> client_step (EvAccount id p to st) cl = Some cl' ->
  refines (callback (EvAccount id p to st)) (fun _ v' => called cl' v v') v s.
Proof.
  intros Hs Hi Hc. cbn [client_step] in Hc. destruct (is_closed st) eqn:Est; [by rewrite andb_false_r in Hc|].
  case_bool_decide; [|done]. injection Hc as <-. cbn [callback].
  destruct (open_ref _ _ _ id Hs) as (i & [tuple q] & Ha & Hd); [done|].
  apply r_bind. eapply r_data; [exact Hd|]. cbn [snd].
  eapply (r_one (OpStatus i st)); [apply Hs|done|done| |].
  - cbn [step]. unfold on_conn. cbn [conn_of]. rewrite Ha. reflexivity.
  - intros [] pd _ Hi'. split; [done|by eapply sim_pd|done|by apply keeps_same].
Qed.

Lemma r_close id st cl cl' v s :
  sim cl v s -> run_inv tight s -> client_step (EvConnClose id st) cl = Some cl' ->
  refines (callback (EvConnClose id st)) (fun _ v' => called cl' v v') v s.
Proof.
  intros Hs Hi Hc. cbn [client_step] in Hc. destruct (is_closed st) eqn:Est; [|done]. cbn [negb] in Hc. cbn [callback].
  case_bool_decide as Hin.
  - injection Hc as <-. pose proof Hs as [Epd Epo (ids & Hn & Hids & Ho) (ids' & Hst & Hdis & Hl) Elost _ Hfr].
    apply Hids in Hin as Hin'. destruct (names_lookup _ _ _ _ Ho Hin') as (i & [tuple p] & Ha & Hidi & Hd).
    apply r_bind. eapply r_data; [exact Hd|]. cbn [fst snd].
    eapply (r_one (OpClose i st)); [done|done|done| |].
    { cbn [step]. unfold on_conn. cbn [conn_of]. rewrite Ha. reflexivity. }
    intros [] pd _ Hi'. split; [done| |done|by apply keeps_same]. split; cbn; try done.
    + exists (delete i ids). split; [|split].
      * apply delete_Permutation in Hidi as Hp. rewrite Hp in Hn. by apply NoDup_cons in Hn as [_ Hn].
      * intros j. rewrite (delete_elem_of _ _ id) by done. rewrite Hids. set_solver.
      * by apply (names_delete v).
    + exists ids'. split; [done|]. split; [|done]. intros j Hk. specialize (Hdis j Hk). set_solver.
    + intros j b [= <- <-]. by exists (tuple, p).
  - case_bool_decide as Hlast; [|done]. injection Hc as <-.
    destruct (sm_last _ _ _ Hs _ _ Hlast) as ([tuple p] & Hd & Hr). apply r_bind. eapply r_data; [exact Hd|]. cbn [fst snd].
    eapply (r_one (OpCloseAgain st)); [apply Hs|done|done| |].
    { cbn [step]. unfold on_conn. cbn [conn_of]. rewrite Hr. reflexivity. }
    intros [] pd _ Hi'. split; [done| |done|by apply keeps_same]. destruct Hs. split; cbn; try done.
    intros j b [= <- <-]. by exists (tuple, p).
Qed.
Lemma r_no_socket id cl cl' v s :
  sim cl v s -> run_inv tight s -> client_step (EvNoSocket id) cl = Some cl' ->
  refines (callback (EvNoSocket id)) (fun _ v' => called cl' v v') v s.
Proof.
  intros Hs Hi Hc. cbn [client_step] in Hc. case_bool_decide as Hin; [|done]. injection Hc as <-. cbn [callback].
  pose proof Hs as [Epd Epo (ids & Hn & Hids & Ho) (ids' & Hst & Hdis & Hl) Elost _ Hfr].
  apply Hids in Hin as Hin'. destruct (names_lookup _ _ _ _ Ho Hin') as (i & a & Ha & Hidi & Hd).
  eapply (r_step (OpLost i)); [done|done|cbn [step]; by rewrite Ha|]. intros Hi'.
  apply r_bind. eapply r_data; [exact Hd|]. apply r_bind, r_loop, r_put. split; [done| |done|by apply keeps_same]. split; cbn; try done.
  - exists (delete i ids). split; [|split].
    + apply delete_Permutation in Hidi as Hp. rewrite Hp in Hn. by apply NoDup_cons in Hn as [_ Hn].
    + intros j. rewrite (delete_elem_of _ _ id) by done. rewrite Hids. set_solver.
    + by apply (names_delete v).
  - exists (id :: ids'). split; [set_solver|]. split; [|by constructor]. intros j [->|Hk]%elem_of_cons; [set_solver|].
    specialize (Hdis j Hk). set_solver.
  - by rewrite Elost.
Qed.
Lemma r_retuple id tuple cl cl' v s :
  sim cl v s -> run_inv tight s -> client_step (EvTuple id tuple) cl = Some cl' -> tuple_ok tuple ->
  refines (callback (EvTuple id tuple)) (fun _ v' => called cl' v v') v s.
Proof.
  intros Hs Hi Hc Ht. cbn [client_step] in Hc. case_bool_decide as Hin; [|done]. injection Hc as <-. cbn [callback].
  pose proof Hs as [Epd Epo (ids & Hn & Hids & Ho) (ids' & Hst & Hdis & Hl) Elost _ Hfr].
  apply Hids in Hin as Hin'. destruct (names_lookup _ _ _ _ Ho Hin') as (i & a & Ha & Hidi & Hd).
  eapply (r_step (OpTuple i tuple)); [done|done|reflexivity|]. intros Hi'.
  apply r_bind. eapply r_data; [exact Hd|]. apply r_bind, r_loop, r_put. split; [done| |done|].
  2:{ intros j [t0 p0] Hk. destruct (decide (j = id)) as [->|Hne]; cbn; [|exists t0; by rewrite lookup_insert_ne].
      exists tuple.
      pose proof (eq_trans (eq_sym Hd) Hk) as [= ->]. apply lookup_insert_eq. }
  split; cbn; try done.
  - exists ids. split; [done|]. split; [done|]. by apply (names_set v id a (fun a => (tuple, snd a))).
  - exists ids'. split; [done|]. split; [done|]. apply (names_insert v id (tuple, snd a)); [|done]. intros Hk. by apply (Hdis id).
  - intros j Hj'. apply lookup_insert_is_Some' in Hj' as [<-|Hj']; apply Hfr; [by eexists|done].
Qed.
Lemma r_callback e cl cl' v s :
  sim cl v s -> run_inv tight s -> client_step e cl = Some cl' -> sent_ok True e -> event_fine e ->
  refines (callback e) (fun _ v' => called cl' v v') v s.
Proof.
  intros Hs Hi Hc Hk Hf. destruct e as [id p rv|id p to st|id tuple ok|id st|id|id tuple|fd|fd|fd data].
  - eapply r_send; [done..|]. by eapply reply_fine.
  - by eapply r_status.
  - by eapply r_open_conn.
  - by eapply r_close.
  - by eapply r_no_socket.
  - by eapply r_retuple.
  - injection Hc as <-. apply r_ret. split; [done..|by apply keeps_same].
  - injection Hc as <-. apply r_ret. split; [done..|by apply keeps_same].
  - injection Hc as <-. apply r_ret. split; [done..|by apply keeps_same].
Qed.
Lemma r_callbacks tr : forall cl cl' v s,
  sim cl v s -> run_inv tight s -> client_run cl tr = Some cl' -> Forall (sent_ok True) tr -> Forall event_fine tr ->
  refines (callbacks tr) (fun _ v' => called cl' v v') v s.
Proof.
  induction tr as [|e tr IH]; intros cl cl' v s Hs Hi Hc Hk Hf; cbn [callbacks client_run] in *.
  { injection Hc as <-. apply r_ret. split; [done..|by apply keeps_same]. }
  apply Forall_cons in Hk as [Hk Hks]. apply Forall_cons in Hf as [Hf Hfs].
  destruct (client_run cl tr) as [cl1|] eqn:E; [|done]. cbn [mbind option_bind] in Hc.
  apply r_bind. eapply r_mono; [by eapply IH|]. intros [] v1 s1 [Hi1 Hs1 Hz1 Hk1].
  eapply r_mono; [by eapply r_callback|]. intros [] v2 s2 [Hi2 Hs2 Hz2 Hk2].
  split; [done|done|congruence|by eapply keeps_trans].
Qed.

(** ** Calls of zdtun *)

(** What holds between the statements of the loop. *)
Record loop_ok (cl : client) (v : vpn_loop) (s : run_state) : Prop := {
    go_inv : run_inv tight s;
    go_sim : sim cl v s;
    go_ready : ready (vl_zdt v);
    go_agrees : agrees cl (vl_zdt v);
  }.
Definition rewound (t : tun) : tun := t <| ZdtunState.trace := [] |>.
Lemma rewound_ready t : ready t -> ready (rewound t).
Proof. intros [Hi Hs]. split; [|exact Hs]. by apply (ZdtunInv.inv_same 0 t). Qed.
Lemma rewound_calls cl t (P : client -> Prop) : agrees cl t -> P cl -> calls_ok True cl P (rewound t).
Proof. intros [Ho Hn Hm] HP. exists cl. split; [done|]. split; [by split|]. by split. Qed.

(** [R] is what is known of zdtun after the call, [P] of what it told. *)
Lemma r_zdt {A} (m : M tun A) (R : A -> tun -> Prop) (P : A -> client -> Prop) Q cl v s :
  loop_ok cl v s ->
  wp m (fun a t => ready t /\ R a t) (rewound (vl_zdt v)) ->
  wlp m (fun a => calls_ok True cl (P a)) (rewound (vl_zdt v)) ->
  (forall a cl' v' s', loop_ok cl' v' s' -> keeps_data v v' -> R a (vl_zdt v') -> P a cl' -> Q a v' s') ->
  refines (zdt_do m) Q v s.
Proof.
  intros [Hi Hs Hr Ha] Hwp Hwlp HQ. destruct Hwp as (a & t & E & Hrt & HR).
  destruct (Hwlp a t E) as (cl' & Hrun & Hag & Hsent & HP). unfold refines, zdt_do. fold (rewound (vl_zdt v)). rewrite E.
  assert (Hc : refines (callbacks (trace t) ;; mret a) Q (v <| vl_zdt := t |>) s); [|exact Hc].
  apply r_bind. eapply r_mono.
  { apply (r_callbacks (trace t) cl cl'); [by apply sim_zdt|done|done|done|]. apply (inv_events _ _ (proj1 Hrt)). }
  intros [] v' s' [Hi' Hs' Hz Hk]. apply r_ret. cbn in Hz. eapply (HQ a cl'); try done.
  - split; [done|done|by rewrite Hz|by rewrite Hz].
  - by rewrite Hz.
Qed.

(** A step of the capture between the calls. *)
Lemma r_only {A} (o : run_op) (m : M pcapdroid A) (Q : A -> vpn_loop -> run_state -> Prop) cl v s :
  loop_ok cl v s -> op_ok o -> step o s = only_pd m s ->
  (forall a pd s', m (vl_pd v) = Some (a, pd) -> loop_ok (forget cl) (v <| vl_pd := pd |>) s' -> r_lost s' = r_lost s -> Q a (v <| vl_pd := pd |>) s') ->
  refines (pd_do m) Q v s.
Proof.
  intros [Hi Hs Hr Ha] Ho E HQ. eapply (r_one o); [apply Hs|done|done|exact E|]. intros a pd Em Hi'.
  apply HQ; [done| |done]. split; [done|by eapply sim_pd|done|]. destruct Ha. by split.
Qed.
Lemma r_ref {A} r (o : run_op) (m : M pcapdroid A) (Q : A -> vpn_loop -> run_state -> Prop) cl v s :
  loop_ok cl v s -> op_ok o -> step o s = ref_pd r m s ->
  (forall a pd s', loop_ok (ref_client r cl) (v <| vl_pd := pd |>) s' -> Q a (v <| vl_pd := pd |>) s') ->
  refines (pd_do m) Q v s.
Proof.
  intros [Hi Hs Hr Ha] Ho E HQ. eapply (r_one o); [apply Hs|done|done|exact E|]. intros a pd Em Hi'.
  apply HQ. split; [done|by eapply sim_ref|done|]. destruct Ha, r; by split.
Qed.

(** ** A packet of the client *)

Lemma r_judge id tuple p pkt zc cl v s :
  loop_ok cl v s -> id ∈ cl_open cl -> vl_data v !! id = Some (tuple, p) -> pkt_fine pkt -> conn_proxy_ok zc ->
  refines (pd_do (vpn_judge (vl_ports v) (socks5 (vl_zdt v)) (zc <| c_tuple := tuple |>) p pkt)) (fun r v' s' =>
    (exists tv, fst r = pkt_context_of pkt true tuple p tv) /\ conn_proxy_ok (snd (snd r)) /\ loop_ok (forget cl) v' s' /\
    vl_zdt v' = vl_zdt v /\ vl_data v' = vl_data v) v s.
Proof.
  intros Hv Hin Hd Hp Hz. destruct (open_ref _ _ _ _ (go_sim _ _ _ Hv) Hin) as (i & a & Ha & Hd').
  pose proof (same_data _ _ _ Hd Hd') as <-.
  eapply (r_only (OpJudge i zc (socks5 (vl_zdt v)) pkt)); [exact Hv|done| |].
  { cbn [step]. unfold on_conn. cbn [conn_of]. rewrite Ha. by rewrite <-(sm_ports _ _ _ (go_sim _ _ _ Hv)). }
  intros r pd s' E Hv' _. destruct Hv as [Hi Hs _ _]. pose proof (sm_pd _ _ _ Hs) as Epd.
  destruct (live_lookup tight s (tuple, p) Hi) as [Ht Hl]; [apply elem_of_app; left; by eapply list_elem_of_lookup_2|].
  edestruct (wp_vpn_judge (en_proto Henv) (en_strdup Henv) (en_realloc Henv) tight (live_set s) (vl_ports v)
    (socks5 (vl_zdt v)) (zc <| c_tuple := tuple |>) p pkt (vl_pd v)) as (r' & pd' & E' & Htv & (_ & _ & Hok) & _);
    [rewrite <-(sm_ports _ _ _ Hs); apply Hi|done|exact Ht|done|exact Hl|rewrite <-Epd; apply Hi|].
  rewrite E in E'. injection E' as <- <-. by split_and!.
Qed.
Lemma r_allow id pkt p tuple tv cl v s a :
  loop_ok cl v s -> told_of id cl -> vl_data v !! id = Some a -> snd a = p -> pkt_fine pkt ->
  refines (pd_do (vpn_allow (fst a) p (px_at (pkt_context_of pkt true tuple p tv) (fst a)))) (fun _ v' s' =>
    exists cl', loop_ok cl' v' s' /\ told_of id cl' /\ vl_zdt v' = vl_zdt v /\ vl_data v' = vl_data v) v s.
Proof.
  intros Hv Ht Hd <- Hp. destruct (told_ref _ _ _ _ (go_sim _ _ _ Hv) Ht) as (r & [t q] & Hr & Hd' & Hcl).
  pose proof (same_data _ _ _ Hd' Hd) as <-.
  eapply (r_ref r (OpAllow r pkt tv)); [exact Hv|done| |].
  { cbn [step]. unfold on_conn. by rewrite Hr. }
  intros b pd s' Hv'. by eexists.
Qed.
Lemma r_forwarded id rv zc p cl v s a :
  loop_ok cl v s -> told_of id cl -> vl_data v !! id = Some a -> snd a = p ->
  refines (pd_do (vpn_forwarded rv (zc <| c_tuple := fst a |>) p)) (fun _ v' s' =>
    exists cl', loop_ok cl' v' s' /\ told_of id cl' /\ vl_zdt v' = vl_zdt v) v s.
Proof.
  intros Hv Ht Hd <-. destruct (told_ref _ _ _ _ (go_sim _ _ _ Hv) Ht) as (r & [t q] & Hr & Hd' & Hcl).
  pose proof (same_data _ _ _ Hd' Hd) as <-.
  eapply (r_ref r (OpForwarded r rv zc)); [exact Hv|done| |].
  { cbn [step]. unfold on_conn. by rewrite Hr. }
  intros b pd s' Hv'. by eexists.
Qed.


Lemma r_conn id c (Q : zdtun_conn -> vpn_loop -> run_state -> Prop) v s :
  heap (vl_zdt v) !! id = Some c -> Q c v s -> refines (zdt_conn id) Q v s.
Proof. intros Hc HQ. apply r_bind, r_loop. rewrite Hc. by apply r_ret. Qed.
(** What a new connection may be started with, and that it is still there. *)
Definition startable (id : Z) (pkt : zdtun_pkt) (t : tun) : Prop :=
  exists c, heap t !! id = Some c /\ (status c = CONN_STATUS_NEW -> ipproto (pkt_tuple pkt) = IPPROTO_TCP -> syn_ok pkt).
Lemma agrees_open cl t id : agrees cl t -> id ∈ cl_open cl -> conn_open t id = true.
Proof. intros [Ho _ _]. apply Ho. Qed.
Lemma calls_rewound cl t : agrees cl t -> in_order True cl (rewound t).
Proof. intros Ha. by apply rewound_calls. Qed.

Lemma r_redirect id pkt zc cl v s :
  loop_ok cl v s -> startable id pkt (vl_zdt v) -> id ∈ cl_open cl -> conn_proxy_ok zc ->
  refines (zdt_do (keep_redirect id zc)) (fun _ v' s' => exists cl', loop_ok cl' v' s' /\ keeps_data v v' /\
    told_of id cl' /\ startable id pkt (vl_zdt v')) v s.
Proof.
  intros Hv (c & Hc & Hst) Hin Hz. pose proof (rewound_ready _ (go_ready _ _ _ Hv)) as Hr.
  set (f := fun c => c <| proxy_mode := proxy_mode zc |> <| dnat := dnat zc |>).
  assert (Hok : conn_ok (f c)).
  { destruct (inv_conn _ _ _ _ (proj1 Hr) Hc). by split. }
  eapply (r_zdt _ (fun _ => startable id pkt) (fun _ => told_of id)); [exact Hv| | |].
  - destruct (set_conn_safe f id _ c Hr Hc Hok) as ([] & t' & E & Hr'); [done..|].
    exists tt, t'. split; [exact E|]. split; [done|]. unfold set_conn, ZdtunState.conn in E.
    unfold mbind, M_bind, getS, liftO in E. change (heap (rewound (vl_zdt v))) with (heap (vl_zdt v)) in E.
    rewrite Hc in E. injection E as <-.
    exists (f c). split; [apply lookup_insert_eq|done].
  - apply (l_set True cl id f); [|done|by intros t' Ho _ _; apply opened_told].
    split; [by apply calls_rewound, Hv|]. exact (agrees_open _ _ _ (go_agrees _ _ _ Hv) Hin).
  - intros [] cl' v' s' Hv' Hk HR HP. by exists cl'.
Qed.
Lemma r_shut id st cl v s :
  loop_ok cl v s -> is_Some (heap (vl_zdt v) !! id) -> told_of id cl ->
  refines (zdt_do (zdtun_conn_close zsys id st)) (fun _ v' s' => exists cl', loop_ok cl' v' s' /\ keeps_data v v' /\
    told_of id cl' /\ exists c, heap (vl_zdt v') !! id = Some c /\ is_closed (status c) = true) v s.
Proof.
  intros Hv [c Hc] Ht. pose proof (rewound_ready _ (go_ready _ _ _ Hv)) as Hr.
  eapply (r_zdt _ (fun _ t => exists c, heap t !! id = Some c /\ is_closed (status c) = true) (fun _ => told_of id)); [exact Hv| | |].
  - eapply wp_close; [apply Hr|exact Hc|]. intros t' c' Hi' Hto Hh Hcl _.
    assert (Hc' : heap t' !! id = Some c') by (by rewrite Hh, lookup_insert_eq). split; [|by exists c'].
    eapply (ready_touches id); [done|by split|]. by eapply closed_settled.
  - apply (l_close True cl); [by apply rewound_calls; [apply Hv|]|]. by intros t' T _.
  - intros [] cl' v' s' Hv' Hk HR HP. by exists cl'.
Qed.
Lemma closed_startable id pkt t : (exists c, heap t !! id = Some c /\ is_closed (status c) = true) -> startable id pkt t.
Proof. intros (c & Hc & Hcl). exists c. split; [done|]. intros Hn. by rewrite Hn in Hcl. Qed.
Lemma r_forward id pkt cl v s :
  loop_ok cl v s -> startable id pkt (vl_zdt v) -> told_of id cl -> pkt_ok pkt ->
  refines (zdt_do (zdtun_forward zsys pkt id)) (fun _ v' s' => exists cl', loop_ok cl' v' s' /\ keeps_data v v' /\
    told_of id cl' /\ is_Some (heap (vl_zdt v') !! id)) v s.
Proof.
  intros Hv (c & Hc & Hst) Ht Hp. pose proof (rewound_ready _ (go_ready _ _ _ Hv)) as Hr.
  eapply (r_zdt _ (fun _ t => is_Some (heap t !! id)) (fun _ => told_of id)); [exact Hv| | |].
  - eapply wp_mono; [by apply (zdtun_forward_safe zsys pkt id _ c)|]. intros rv t' [Hr' Hg]. split; [done|].
    exact (touches_live _ _ _ (g_touches _ _ _ Hg)).
  - destruct (conn_open (rewound (vl_zdt v)) id) eqn:Eo.
    + eapply (ends_use True cl); [by apply ends_forward| |by intros]. split; [by apply calls_rewound, Hv|done].
    + unfold zdtun_forward. apply wlp_bind, l_conn. intros c' Hc'. unfold conn_open in Eo. rewrite Hc' in Eo. cbn in Eo.
      apply negb_false_iff in Eo as ->. apply wlp_ret. apply rewound_calls; [apply Hv|done].
  - intros rv cl' v' s' Hv' Hk HR HP. by exists cl'.
Qed.

Lemma r_process id pkt cl v s :
  loop_ok cl v s -> startable id pkt (vl_zdt v) -> id ∈ cl_open cl -> pkt_ok pkt -> pkt_fine pkt ->
  refines (vpn_process zsys pkt id) (fun _ v' s' => exists cl', loop_ok cl' v' s') v s.
Proof.
  intros Hv Hst Hin Hp Hf. destruct (open_ref _ _ _ _ (go_sim _ _ _ Hv) Hin) as (i & [tuple p] & _ & Hd).
  pose proof Hst as (c & Hc & _). unfold vpn_process.
  apply r_bind. eapply r_data; [exact Hd|]. apply r_bind. eapply r_conn; [exact Hc|]. apply r_bind, r_loop.
  assert (Hz : conn_proxy_ok c) by apply (inv_conn _ _ _ _ (proj1 (go_ready _ _ _ Hv)) Hc).
  apply r_bind. eapply r_mono; [by eapply r_judge|]. intros [px [spoofed zc]] v1 s1 ((tv & Epx) & Hzc & Hv1 & Ez & Ed).
  cbn in Epx, Hzc. subst px. rewrite <-Ez in Hst. rewrite <-Ed in Hd.
  apply r_bind. eapply r_mono; [by eapply r_redirect|]. intros [] v2 s2 (cl2 & Hv2 & Hk2 & Ht2 & Hst2).
  destruct (Hk2 _ _ Hd) as [t2 Hd2].
  apply r_bind. eapply (r_mono _ (fun _ v' s' => exists cl', loop_ok cl' v' s' /\ keeps_data v2 v' /\ told_of id cl' /\ startable id pkt (vl_zdt v'))).
  { destruct spoofed.
    { destruct Hst2 as (c2 & Hc2 & _). eapply r_mono; [by eapply r_shut|]. intros [] v' s' (cl' & ? & ? & ? & Hcl). exists cl'.
      split_and!; [done..|]. by apply closed_startable. } apply r_ret. exists cl2. split_and!; [done|by apply keeps_same|done|done]. }
  intros [] v3 s3 (cl3 & Hv3 & Hk3 & Ht3 & Hst3). destruct (Hk3 _ _ Hd2) as [t3 Hd3].
  apply r_bind. eapply r_data; [exact Hd3|]. apply r_bind. eapply r_mono; [by eapply r_allow|].
  intros fwd v4 s4 (cl4 & Hv4 & Ht4 & Ez4 & Ed4). destruct fwd; cbn [negb]; [|apply r_ret; by exists cl4].
  rewrite <-Ez4 in Hst3. rewrite <-Ed4 in Hd3.
  apply r_bind. eapply r_mono; [by eapply r_forward|]. intros rv v5 s5 (cl5 & Hv5 & Hk5 & Ht5 & c5 & Hc5).
  destruct (Hk5 _ _ Hd3) as [t5 Hd5]. apply r_bind. eapply r_data; [exact Hd5|]. apply r_bind. eapply r_conn; [exact Hc5|].
  apply r_bind. eapply r_mono; [by eapply r_forwarded|]. intros st v6 s6 (cl6 & Hv6 & Ht6 & Ez6).
  destruct st as [st|]; [|apply r_ret; by exists cl6]. eapply r_mono.
  { eapply r_shut; [done| |done]. rewrite Ez6. by eexists. }
  intros [] v7 s7 (cl7 & Hv7 & _). by exists cl7.
Qed.
End refine.
End VpnRefine.
