(* ===== verification/VpnRun.v ===== *)
(** * The VPN capture as a whole: the loop over zdtun is a run of [PdRuns]

    A packet of the client, the turns of the loop, its start and its end: whatever the
    client, the servers, the system calls and the Java side do, the program that
    consists of the capture and of zdtun is defined, and what happens to the capture
    is a sequence of its steps. *)

From S2P Require Import Prelude CString UtHash ZdtunTypes ZdtunConn ZdtunPkt ParseMore PortMap ZdtunWire ZdtunState ZdtunInv ZdtunClose ZdtunTcp ZdtunFwd ZdtunSafe ZdtunApi ZdtunEvents ZdtunOrder PdTypes PdNotify PdConn PdProcess PdHouse PdVpn PdJni PdFrame PdOwn PdSafe PdVpnSafe PdRuns PdCapture VpnLoop VpnRefine.

Module VpnRun.
Export VpnRefine.
Import ZdtunPkt ParseMore ZdtunWire ZdtunState ZdtunFwd ZdtunInv ZdtunClose ZdtunSafe ZdtunApi ZdtunEvents ZdtunOrder.

(** ** What the client sends *)

(** The packet was read into a buffer that is longer than any packet of the device. *)
Record client_pkt (buffer : list Z) (size : Z) : Prop := {
    cp_bytes : bytes_ok buffer;
    cp_size : 0 < size /\ size + 16 <= Z.of_nat (length buffer) <= 65535;
  }.
(** The SYNs are parsed as [syn_ok] asks. *)
Definition client_syn (t : tun) (buffer : list Z) (size : Z) : Prop :=
  forall pkt f, zdtun_parse_pkt buffer (u16 size) (id2ports t) = Some (inr pkt, f) -> pkt_is_fragment pkt = false ->
    ipproto (pkt_tuple pkt) = IPPROTO_TCP -> may_start t pkt -> syn_ok pkt.

Definition read_fine (buffer : list Z) (size : Z) (pkt : zdtun_pkt) : Prop :=
  pkt_wf pkt size /\ pkt_mem pkt = buffer /\ (pkt_is_fragment pkt = false -> pkt_ip_hdr_len pkt + 8 <= pkt_len pkt).
Lemma read_parsed buffer size pkt : client_pkt buffer size -> read_fine buffer size pkt -> parsed_fine pkt.
Proof.
  intros [Hb Hs] (Hwf & <- & _). split; [done|]. intros Hf Ht. pose proof (wf_tcp _ _ Hwf Ht Hf). destruct Hwf. unfold TCP_HEADER_LEN in *. lia.
Qed.
Lemma read_pkt_fine buffer size pkt :
  client_pkt buffer size -> read_fine buffer size pkt -> pkt_is_fragment pkt = false -> pkt_ok pkt /\ pkt_fine pkt.
Proof.
  intros [Hb Hs] (Hwf & <- & Hl) Hf. specialize (Hl Hf). split.
  - exists size. split_and!; try done; lia.
  - destruct Hwf. split; [done|lia|lia|lia|lia|done].
Qed.
Lemma read_tuple buffer size pkt : read_fine buffer size pkt -> tuple_ok (pkt_tuple pkt).
Proof. intros (Hwf & _). destruct (wf_ports _ _ Hwf). destruct Hwf. by split_and!. Qed.

(** What [vpn_accept] lets through. *)
Lemma accept_some pkt create pd pd' `{PdEnv} :
  vpn_accept pkt pd = Some (Some create, pd') -> pkt_is_fragment pkt = false /\
  (create = true -> ipproto (pkt_tuple pkt) = IPPROTO_TCP -> exists flags, tcp_th_flags pkt = Some flags /\
    negb (has_flag flags TH_SYN) || has_flag flags TH_ACK = false).
Proof.
  intros E. cut (wlp (vpn_accept pkt) (fun r _ => r = Some create -> pkt_is_fragment pkt = false /\
    (create = true -> ipproto (pkt_tuple pkt) = IPPROTO_TCP -> exists flags, tcp_th_flags pkt = Some flags /\
      negb (has_flag flags TH_SYN) || has_flag flags TH_ACK = false)) pd).
  { intros Hw. by apply (Hw _ _ E). }
  clear E. unfold vpn_accept. destruct (pkt_is_fragment pkt); [wl; done|]. apply wlp_bind, wlp_get. cbv zeta.
  destruct (_ && _); [by wl|]. destruct (_ || _); [by wl|]. destruct (Z.eqb_spec (ipproto (pkt_tuple pkt)) IPPROTO_TCP) as [Ht|Ht].
  - apply wlp_bind, wlp_lift. intros flags Ef. wl. intros [= <-]. split; [done|]. intros Hc _. exists flags. split; [done|].
    unfold has_flag. apply andb_true_iff in Hc as [-> Ha]. by rewrite Ha.
  - wl. intros _. split; [done|]. by intros.
Qed.

Section run.
Context `{PdEnv} `{HI : InetPton} `{HIok : !InetPtonOk HI} (Henv : env_ok).
Context (zsys : nat -> Z * list Z) (tight : bool) (Hj : tight = true -> jni_ok).
Context (Hread : forall n, Z.of_nat (length (snd (zsys n))) <= READ_MAX).
Local Abbreviation loop_ok := (loop_ok tight).
Local Abbreviation r_zdt := (r_zdt Henv zsys tight Hj).

Definition leads {A} (m : L A) : Prop := forall cl v s, loop_ok cl v s ->
  refines m (fun _ v' s' => exists cl', loop_ok cl' v' s') v s.

Lemma r_parse buffer size cl v s :
  loop_ok cl v s -> client_pkt buffer size ->
  refines (zdt_do (parse_client buffer size)) (fun r v' s' => exists cl', loop_ok cl' v' s' /\
    heap (vl_zdt v') = heap (vl_zdt v) /\ forall pkt, r = inr pkt -> read_fine buffer size pkt /\
      exists f, zdtun_parse_pkt buffer (u16 size) (id2ports (vl_zdt v)) = Some (inr pkt, f)) v s.
Proof.
  intros Hv [Hb Hs]. pose proof (rewound_ready _ (go_ready _ _ _ _ Hv)) as Hr.
  assert (Hu : u16 size = size) by (apply uwrap_id; unfold u_ok; lia).
  destruct (zdtun_parse_pkt_run buffer (u16 size) Hb) with (t := id2ports (vl_zdt v)) as (r & f & E & Hf & Hp);
    [rewrite Hu; lia|rewrite Hu; unfold u_ok; lia|apply (inv_frag _ _ (proj1 Hr))|].
  eapply (r_zdt _ (fun a t => heap t = heap (vl_zdt v) /\ a = r) (fun _ _ => True)); [exact Hv| | |].
  - unfold parse_client. wp_step. wp_step. wp_step. eapply wp_lift; [exact E|]. wp_run. split; [|done].
    split; [apply inv_set_frag; [apply Hr|done]|]. apply Hr.
  - unfold parse_client. apply wlp_bind, wlp_get, wlp_bind, wlp_lift. intros r' _. apply wlp_bind, wlp_put, wlp_ret.
    apply (calls_frame True cl _ (rewound (vl_zdt v))); [by eapply frame_set|]. by apply rewound_calls; [apply Hv|].
  - intros a cl' v' s' Hv' _ [Hh ->] _. exists cl'. split; [done|]. split; [done|]. intros pkt ->. rewrite Hu in *.
    split; [|by exists f]. destruct Hp as [Hwf Hm]. split_and!; [done|done|]. by eapply parsed_long.
Qed.
Lemma r_lookup tuple create cl v s :
  loop_ok cl v s -> tuple_ok tuple ->
  refines (zdt_do (zdtun_lookup zsys tuple create)) (fun r v' s' => exists cl', loop_ok cl' v' s' /\
    from_old create (vl_zdt v) (vl_zdt v') /\ forall id, r = Some id -> id ∈ cl_open cl' /\
      exists c, heap (vl_zdt v') !! id = Some c /\ c_tuple c = tuple) v s.
Proof.
  intros Hv Ht. pose proof (rewound_ready _ (go_ready _ _ _ _ Hv)) as Hr.
  eapply (r_zdt _ (fun r t => from_old create (vl_zdt v) t /\ forall id, r = Some id -> exists c, heap t !! id = Some c /\ c_tuple c = tuple)
    (fun r cl => forall id, r = Some id -> id ∈ cl_open cl)); [exact Hv| | |].
  - apply wp_lookup; [apply Hr|done|]. intros r t' Hi Hfo Hid. split; [by eapply ready_from_old|]. split; [exact Hfo|].
    intros id Er. destruct (Hid id Er) as (c & Hc & Htu & _). by exists c.
  - apply (l_lookup True cl); [by apply calls_rewound, Hv| |].
    + intros t' Hi. eapply calls_mono; [|exact Hi]. by intros cl' _ id.
    + intros id t' [(cl' & Hrun & Hag & Hs & _) Ho]. exists cl'. split_and!; try done. intros i [= <-]. by apply (ag_open _ _ Hag).
  - intros r cl' v' s' Hv' _ [Hfo Hid] Ho. exists cl'. split; [done|]. split; [done|]. intros id Er. split; [by apply Ho|by apply Hid].
Qed.

Lemma r_vpn_packet buffer size cl v s :
  loop_ok cl v s -> client_pkt buffer size -> client_syn (vl_zdt v) buffer size ->
  refines (vpn_packet zsys buffer size) (fun _ v' s' => exists cl', loop_ok cl' v' s') v s.
Proof.
  intros Hv Hc Hsyn. unfold vpn_packet. apply r_bind. eapply r_mono; [by eapply r_parse|].
  intros r v1 s1 (cl1 & Hv1 & Hh1 & Hr). destruct r as [e|pkt]; [apply r_ret; by exists cl1|].
  destruct (Hr pkt eq_refl) as (Hpkt & f & E).
  apply r_bind. eapply (r_only Henv tight Hj (OpAccept pkt)); [exact Hv1|by eapply read_parsed|done|].
  intros create pd s2 Ea Hv2 _. destruct create as [create|]; [|apply r_ret; by eexists].
  destruct (accept_some _ _ _ _ Ea) as [Hfr Hcr]. destruct (read_pkt_fine _ _ _ Hc Hpkt Hfr) as [Hok Hfine].
  apply r_bind. eapply r_mono; [eapply r_lookup; [exact Hv2|by eapply read_tuple]|].
  intros conn v3 s3 (cl3 & Hv3 & Hfo & Hid). destruct conn as [id|].
  - destruct (Hid id eq_refl) as [Hin (c & Hcid & Htu)]. eapply (r_process Henv zsys tight Hj); [exact Hv3| |exact Hin|done|done].
    exists c. split; [done|]. intros Hnew Htcp. apply (Hsyn pkt f E Hfr Htcp). destruct (Hfo id c Hcid) as [Hold|[Hct _]].
    + right. exists id, c. split_and!; try done. rewrite <-Hh1. exact Hold.
    + left. by apply Hcr.
  - eapply (r_only Henv tight Hj (OpNoConn create)); [exact Hv3|done|done|]. intros [] pd' s4 _ Hv4 _. by eexists.
Qed.

(** ** A turn *)

(** The open connections of zdtun are those of the capture, in its order. *)
Lemma active_order_of cl v s :
  loop_ok cl v s -> exists order, active_conns v = iter_order order s.
Proof.
  intros [_ Hs _ Ha]. unfold active_conns, iter_order, iter_ids.
  assert (Hin : forall id, id ∈ filter (fun id => conn_open (vl_zdt v) id = true) (snd <$> conn_table (vl_zdt v)) -> id ∈ cl_open cl).
  { intros id [Ho _]%list_elem_of_filter. by apply (ag_open _ _ Ha). }
  induction (filter _ _) as [|id ids IH]; [by exists []|]. destruct IH as [order E]; [intros i Hi; apply Hin; by right|].
  destruct (open_ref _ _ _ id Hs) as (i & a & Hi & Hd); [apply Hin; by left|]. exists (i :: order). cbn. by rewrite Hi, Hd, E.
Qed.
Lemma leads_purge : leads (zdt_do (zdtun_purge_expired zsys)).
Proof.
  intros cl v s Hv. pose proof (rewound_ready _ (go_ready _ _ _ _ Hv)) as Hr.
  eapply (r_zdt _ (fun _ _ => True) (fun _ _ => True)); [exact Hv| | |].
  - apply wp_purge; [apply Hr|]. intros t' Hi Hsub _. split; [by eapply ready_subset|done].
  - apply (l_purge True cl); [by apply calls_rewound, Hv|done].
  - intros [] cl' v' s' Hv' _ _ _. by exists cl'.
Qed.
Lemma leads_sockets rd wr : leads (zdt_do (zdtun_handle_fd zsys rd wr)).
Proof.
  intros cl v s Hv. pose proof (rewound_ready _ (go_ready _ _ _ _ Hv)) as Hr.
  eapply (r_zdt _ (fun _ _ => True) (fun _ _ => True)); [exact Hv| | |].
  - eapply wp_mono; [by apply zdtun_handle_fd_safe|]. by intros rv t' Hr'.
  - apply (l_handle_fd True cl); [done|done|by apply calls_rewound, Hv].
  - intros rv cl' v' s' Hv' _ _ _. by exists cl'.
Qed.
Lemma loop_ok_purge_ms cl v s z : loop_ok cl v s -> loop_ok cl (v <| next_purge_ms := z |>) s.
Proof. intros [Hi [] Hr Ha]. by split. Qed.
Lemma leads_housekeeping : leads (vpn_housekeeping zsys).
Proof.
  intros cl v s Hv. unfold vpn_housekeeping. apply r_bind, r_loop. destruct (active_order_of _ _ _ Hv) as [order Ho].
  apply r_bind. eapply (r_only Henv tight Hj (OpHousekeeping (stats (vl_zdt v)) order)); [exact Hv|done|by rewrite Ho|].
  intros [] pd s1 _ Hv1 _. apply r_bind, r_loop. destruct (_ <=? _); [|apply r_ret; by eexists].
  apply r_bind. eapply r_mono; [exact (leads_purge _ _ _ Hv1)|]. intros [] v2 s2 (cl2 & Hv2). apply r_bind, r_loop, r_put.
  exists cl2. by apply loop_ok_purge_ms.
Qed.
Lemma r_turn m cl v s :
  loop_ok cl v s ->
  (forall cl' v' s', loop_ok cl' v' s' -> vl_zdt v' = vl_zdt v -> refines m (fun _ v' s' => exists cl', loop_ok cl' v' s') v' s') ->
  refines (vpn_turn zsys m) (fun _ v' s' => exists cl', loop_ok cl' v' s') v s.
Proof.
  intros Hv Hm. unfold vpn_turn. apply r_bind.
  eapply (r_only Henv tight Hj OpRefresh); [exact Hv|done|done|]. intros [] pd s1 _ Hv1 _.
  apply r_bind. eapply r_mono; [by eapply Hm|]. intros [] v2 s2 (cl2 & Hv2). exact (leads_housekeeping _ _ _ Hv2).
Qed.

(** ** The loop *)

Definition input_ok (i : vpn_input) (v : vpn_loop) : Prop :=
  match i with
  | InPacket buffer size => client_pkt buffer size /\ client_syn (vl_zdt v) buffer size
  | InJava j => java_ok j
  | _ => True
  end.
(** Each input when it comes. *)
Fixpoint inputs_ok (ins : list vpn_input) (v : vpn_loop) : Prop :=
  match ins with
  | [] => True
  | i :: ins => input_ok i v /\ match vpn_step zsys i v with Done (true, v') => inputs_ok ins v' | _ => True end
  end.

Lemma r_step_input i cl v s :
  loop_ok cl v s -> input_ok i v ->
  refines (vpn_step zsys i) (fun _ v' s' => exists cl', loop_ok cl' v' s') v s.
Proof.
  intros Hv Hi. unfold vpn_step. apply r_bind, r_loop. cbv zeta.
  assert (Hturn : forall m, (forall cl' v' s', loop_ok cl' v' s' -> vl_zdt v' = vl_zdt v ->
      refines m (fun _ v' s' => exists cl', loop_ok cl' v' s') v' s') ->
    refines (if running (vl_pd v) then vpn_turn zsys m ;; mret true else mret false) (fun _ v' s' => exists cl', loop_ok cl' v' s') v s).
  { intros m Hm. destruct (running (vl_pd v)); [|apply r_ret; by exists cl]. apply r_bind.
    eapply r_mono; [by eapply r_turn|]. intros [] v' s' Hv'. by apply r_ret. }
  destruct i as [buffer size| |rd wr|j|g proto orig redirect ip ok|].
  - apply Hturn. intros cl' v' s' Hv' Ez. destruct Hi as [Hc Hs]. eapply r_vpn_packet; [exact Hv'|done|by rewrite Ez].
  - apply Hturn. intros cl' v' s' Hv' _. apply r_ret. by exists cl'.
  - apply Hturn. intros cl' v' s' Hv' _. apply r_bind. eapply r_mono; [exact (leads_sockets _ _ _ _ _ Hv')|]. intros rv v2 s2 Hv2. by apply r_ret.
  - apply r_bind. eapply (r_only Henv tight Hj (OpJava j)); [exact Hv|done|done|]. intros [] pd s1 _ Hv1 _. apply r_ret. by eexists.
  - pose proof Hv as [Hinv Hs Hr Ha].
    destruct (step_safe Henv tight (OpPortMapping g proto orig redirect ip ok) s Hj Hinv I) as (s1 & E1 & Hi1). pose proof E1 as E2.
    cbn [step] in E1. rewrite (sm_ports _ _ _ Hs) in E1.
    destruct (addPortMapping g proto orig redirect ip ok (vl_ports v)) as [r|]; [|done]. injection E1 as <-.
    eapply (r_step Henv tight Hj (OpPortMapping g proto orig redirect ip ok)); [exact Hinv|exact I|exact E2|]. intros _. apply r_bind, r_ret, r_bind, r_put, r_ret. exists (forget cl).
    split; [done| |done|destruct Ha; by split]. destruct Hs. by split.
  - apply r_bind. eapply (r_only Henv tight Hj OpWorker); [exact Hv|done|done|]. intros [] pd s1 _ Hv1 _. apply r_ret. by eexists.
Qed.
Lemma r_run ins : forall cl v s,
  loop_ok cl v s -> inputs_ok ins v -> refines (vpn_run zsys ins) (fun _ v' s' => exists cl', loop_ok cl' v' s') v s.
Proof.
  induction ins as [|i ins IH]; intros cl v s Hv Hins; cbn [vpn_run]; [apply r_ret; by exists cl|].
  destruct Hins as [Hi Hins]. apply r_bind. pose proof (r_step_input i cl v s Hv Hi) as Hstep. unfold refines in Hstep |- *.
  destruct (vpn_step zsys i v) as [| |[go v1]]; [done|done|]. destruct Hstep as (ops & s1 & Ho & E & cl1 & Hv1).
  exists ops, s1. split; [done|]. split; [done|]. destruct go; [by eapply IH|]. apply r_ret. by exists cl1.
Qed.

(** ** The start and the end *)

Definition prefs_ok (zp : zdt_prefs) : Prop := 60 <= zp_mtu zp <= REPLY_BUF_SIZE - 20.
Lemma start_empty cf prefs vp s : capture_start cf prefs vp = Some (true, s) -> s = Run (r_pd s) [] [] None PortMap.init_mappings.
Proof.
  unfold capture_start. destruct (pd_start _ _) as [[ok pd]|]; [|done]. cbn [mbind option_bind]. destruct ok; [|done].
  cbn [negb]. destruct (vpn_start vp pd) as [r|]; [|done]. by intros [= <-].
Qed.
Lemma begin_ok s : run_inv tight s -> s = Run (r_pd s) [] [] None PortMap.init_mappings -> loop_ok client_init (vpn_begin s) s.
Proof.
  intros Hs E. split; [done| |apply ready_init|].
  - rewrite E. split; cbn; try done.
    + exists []. split; [constructor|]. split; [set_solver|constructor].
    + exists []. split; [set_solver|]. split; [set_solver|constructor].
    + intros id Hd. by apply lookup_empty_is_Some in Hd.
  - split; [|done|done]. intros id. unfold conn_open. cbn. set_solver.
Qed.
Lemma leads_start zp b : prefs_ok zp -> leads (zdt_do (zdt_start zp b)).
Proof.
  intros Hp cl v s Hv. pose proof (rewound_ready _ (go_ready _ _ _ _ Hv)) as Hr.
  eapply (r_zdt _ (fun _ _ => True) (fun _ _ => True)); [exact Hv| | |].
  - unfold zdt_start. wp_step. destruct (run_call_safe zsys (CallMtu (zp_mtu zp)) _ Hr Hp) as ([] & t1 & E1 & Hr1).
    exists tt, t1. split; [exact E1|]. apply wp_when; intros _; [|done]. wp_step.
    destruct (run_call_safe zsys (CallSocks5 (zp_ip zp) (zp_port zp) (zp_ipver zp)) _ Hr1 I) as ([] & t2 & E2 & Hr2).
    exists tt, t2. split; [exact E2|]. apply wp_when; intros _; [|done].
    destruct (run_call_safe zsys (CallUserpass (zp_user zp) (zp_pass zp)) _ Hr2 I) as ([] & t3 & E3 & Hr3).
    exists tt, t3. by split; [exact E3|].
  - assert (Hc : calm (zdt_start zp b)).
    { intros t. unfold zdt_start, zdtun_set_mtu, zdtun_set_socks5_proxy, zdtun_set_socks5_userpass.
      apply wlp_bind, wlp_modify, wlp_when; intros _; [|by eapply frame_set]. apply wlp_bind, wlp_modify, wlp_when; intros _;
        [apply wlp_modify|]; by eapply frame_set. }
    eapply wlp_calm; [exact Hc|]. intros [] t' F. eapply calls_frame; [exact F|]. by apply calls_rewound, Hv.
  - intros [] cl' v' s' Hv' _ _ _. by exists cl'.
Qed.

(** Finalizing closes what is open and frees everything. *)
Lemma wp_destroy_all ids : forall t, inv 0 t -> NoDup ids -> (forall id, id ∈ ids <-> is_Some (heap t !! id)) ->
  wp (forM ids (destroy_conn zsys)) (fun _ t' => inv 0 t' /\ heap t' = ∅) t.
Proof.
  induction ids as [|id ids IH]; intros t Hi Hd Hl; cbn [forM].
  { wp_step. split; [done|]. apply map_empty. intros i. apply eq_None_not_Some. intros Hs%Hl. by apply not_elem_of_nil in Hs. }
  apply NoDup_cons in Hd as [Hn Hd]. destruct (proj1 (Hl id)) as [c Hc]; [by left|]. wp_step. eapply wp_destroy; [done..|].
  intros t1 [Hi1 Hh1 _ _ _]. apply IH; [done|done|]. intros i. rewrite Hh1, lookup_delete_is_Some, <-Hl, elem_of_cons.
  split; [intros Hin; split; [by intros ->|by right]|by intros [Hne [->|Hin]]].
Qed.
Lemma r_finalize cl v s :
  loop_ok cl v s -> refines (zdt_do (zdtun_finalize zsys)) (fun _ v' s' => exists cl', loop_ok cl' v' s' /\ cl_open cl' = ∅) v s.
Proof.
  intros Hv. pose proof (rewound_ready _ (go_ready _ _ _ _ Hv)) as Hr.
  eapply (r_zdt _ (fun _ t => heap t = ∅) (fun _ _ => True)); [exact Hv| | |].
  - unfold zdtun_finalize. wp_step. wp_step. pose proof (proj1 Hr) as Hi.
    eapply wp_mono; [apply wp_destroy_all; [exact Hi|apply (inv_nodup _ _ Hi)|intros id; apply (inv_live _ _ Hi)]|].
    intros [] t' [Hi' Hh]. split; [|done]. split; [done|]. intros id c. by rewrite Hh, lookup_empty.
  - unfold zdtun_finalize. apply wlp_bind, wlp_get. apply (l_destroy_all True cl); [by apply calls_rewound, Hv|done].
  - intros [] cl' v' s' Hv' _ Hh _. exists cl'. split; [done|]. apply set_eq. intros id. split; [|set_solver].
    intros Ho%(ag_open _ _ (go_agrees _ _ _ _ Hv')). unfold conn_open in Ho. by rewrite Hh, lookup_empty in Ho.
Qed.

(** The end of the capture, after the last step. *)
Definition ended (v : vpn_loop) (s : run_state) : Prop :=
  capture_end s = Some (vl_pd v) /\ vl_lost v = snd <$> r_lost s /\ (tight = true -> PdCapture.only_lost s (vl_pd v)).
Lemma r_vpn_end cl v s : loop_ok cl v s -> refines (vpn_end zsys) (fun _ v' s' => ended v' s') v s.
Proof.
  intros Hv. unfold vpn_end. apply r_bind, r_loop, r_bind.
  eapply (r_step Henv tight Hj OpResetPorts); [apply Hv|done|reflexivity|]. intros Hi1. apply r_put, r_bind.
  set (v1 := v <| vl_ports ::= PortMap.pd_reset_port_map |>).
  set (s1 := Run (r_pd s) (r_open s) (r_lost s) None (PortMap.pd_reset_port_map (r_ports s))).
  assert (Hv1 : loop_ok (forget cl) v1 s1).
  { destruct Hv as [Hi [] Hr Ha]. split; [done| |done|destruct Ha; by split]. split; try done; by cbn; rewrite sm_ports0. }
  eapply r_mono; [exact (r_finalize _ _ _ Hv1)|]. intros [] v2 s2 (cl2 & Hv2 & Hopen).
  destruct Hv2 as [Hi2 Hs2 _ _]. destruct (PdCapture.capture_end_ok Henv tight s2 Hi2) as (pd & E & Hl).
  assert (Hnil : r_open s2 = []).
  { destruct (sm_open _ _ _ Hs2) as (ids & _ & Hids & Hn). destruct Hn as [|id a ids l]; [done|].
    assert (id ∈ cl_open cl2) by (apply Hids; by left). set_solver. }
  pose proof E as E'. unfold capture_end in E'. rewrite Hnil, (sm_pd _ _ _ Hs2) in E'. cbn in E'.
  unfold refines, pd_do. unfold mbind, M_bind in E'. cbn in E'.
  destruct (pd_stop (vl_pd v2)) as [[[] pd']|] eqn:Es; [|done]. injection E' as ->. exists [], s2.
  split; [constructor|]. split; [done|]. split_and!; [done|apply (sm_stuck _ _ _ Hs2)|done].
Qed.

(** The packets and the calls are as [input_ok] asks, from the first turn on. *)
Definition session_ok (cf : pd_config) (prefs : pd_prefs) (vp : vpn_prefs) (zp : zdt_prefs) (ins : list vpn_input) : Prop :=
  forall s v, capture_start cf prefs vp = Some (true, s) ->
    zdt_do (zdt_start zp (socks5_enabled (PdRuns.r_pd s))) (vpn_begin s) = Done (tt, v) -> inputs_ok ins v.
Definition of_capture (cf : pd_config) (prefs : pd_prefs) (vp : vpn_prefs) (v : vpn_loop) : Prop :=
  (exists ops, Forall op_ok ops /\ run_capture cf prefs vp ops = Some (vl_pd v)) /\
  (tight = true -> forall p, is_Some (conns (vl_pd v) !! p) -> p ∈ vl_lost v).

Lemma run_vpn_ok cf prefs vp zp ins :
  PdCapture.start_mem cf prefs -> prefs_ok zp -> session_ok cf prefs vp zp ins ->
  match run_vpn zsys cf prefs vp zp ins with
  | Fault => False
  | Unreal => True
  | Done v => of_capture cf prefs vp v
  end.
Proof.
  intros Hm Hp Hses. unfold run_vpn, of_capture, run_capture. destruct (PdCapture.capture_start_ok Henv cf prefs vp Hm) as (ok & s & E & Hs).
  rewrite E. cbn [mbind option_bind]. destruct ok; cbn [negb].
  2:{ split; [exists []; split; [constructor|done]|]. intros _ p [c Hc]. cbn in Hc. by rewrite Hs, lookup_empty in Hc. }
  pose proof (begin_ok s (Hs tight) (start_empty _ _ _ _ E)) as Hv.
  assert (Hall : refines (zdt_do (zdt_start zp (socks5_enabled (vl_pd (vpn_begin s)))) ;; vpn_run zsys ins ;; vpn_end zsys)
    (fun _ => ended) (vpn_begin s) s).
  { pose proof (leads_start zp (socks5_enabled (PdRuns.r_pd s)) Hp _ _ _ Hv) as Hst. specialize (Hses s).
    cbn [vpn_begin vl_pd]. unfold refines in Hst. apply r_bind. unfold refines.
    destruct (zdt_do (zdt_start _ _) (vpn_begin s)) as [| |[[] v1]]; [done|done|].
    destruct Hst as (ops & s1 & Ho & E1 & cl1 & Hv1). exists ops, s1. split; [done|]. split; [done|]. apply r_bind.
    eapply r_mono; [by eapply r_run, Hses|]. intros [] v2 s2 (cl2 & Hv2). by eapply r_vpn_end. }
  unfold refines in Hall. destruct ((zdt_do _ ;; _) (vpn_begin s)) as [| |[[] v']]; [done|done|].
  destruct Hall as (ops & s' & Ho & E' & Hend & Hlost & Hleak). cbn [snd]. split.
  - exists ops. split; [done|]. by rewrite E'.
  - intros Ht p Hpp. rewrite Hlost. by apply Hleak.
Qed.
End run.

(** C1: the VPN capture as a whole, the loop of [run_vpn] over zdtun with what each calls
    of the other: in the sessions described below no run reaches undefined behaviour, and
    what happens to the capture in a run is one of the sequences of its steps, so that
    what is proved of all of them holds of the program.  When no JNI call fails, all that
    is left in the end belongs to connections zdtun gave up without telling their end.
    The sessions are those where the allocations the code does not check succeed and
    nDPI and the list files hold numbers in range ([env_ok], [start_mem]), the MTU is
    between 60 and 65515 ([prefs_ok]), no read of a socket returns more than [READ_MAX]
    bytes, and what comes in ([session_ok]) is as follows when it comes: a packet leaves
    16 bytes of the read buffer; the options of a SYN, with the bytes behind them in the
    buffer, are ones the parser survives ([syn_ok]: a scale up to 15, an MSS the reply
    buffer has room for); and the strings of the Java side are bounded.  The code does not
    enforce these: [ZdtunApi.syn_ok_needed] and [PdCapture.capture_assumptions_needed]
    are runs outside of them that are undefined.  Packets, answers of servers and system
    calls are arbitrary otherwise; the session of the witness has the SYN of an ordinary
    Linux client. *)
Theorem vpn_loop_refines `{PdEnv} `{HI : InetPton} `{!InetPtonOk HI} zsys cf prefs vp zp ins :
  env_ok -> PdCapture.start_mem cf prefs -> prefs_ok zp ->
  (forall n, Z.of_nat (length (snd (zsys n))) <= READ_MAX) -> session_ok zsys cf prefs vp zp ins ->
  match run_vpn zsys cf prefs vp zp ins with
  | Fault => False
  | Unreal => True
  | Done v =>
      (exists ops, Forall op_ok ops /\ run_capture cf prefs vp ops = Some (vl_pd v)) /\
      (jni_ok -> forall p, is_Some (conns (vl_pd v) !! p) -> p ∈ vl_lost v)
  end.
Proof.
  intros He Hm Hp Hr Hs. assert (Hf : false = true -> jni_ok) by done.
  pose proof (run_vpn_ok He zsys false Hf Hr cf prefs vp zp ins Hm Hp Hs) as H1.
  pose proof (fun Hj => run_vpn_ok He zsys true (fun _ => Hj) Hr cf prefs vp zp ins Hm Hp Hs) as H2.
  destruct (run_vpn zsys cf prefs vp zp ins) as [| |v]; [done|done|]. split; [apply H1|].
  intros Hj. by apply (H2 Hj).
Qed.

(** ** A session *)

#[local] Existing Instance inet_pton_v4.
#[local] Existing Instance inet_pton_v4_ok.
Definition zp_ex : zdt_prefs := ZdtPrefs 10000 ip_zero 0 4 [] [].
Lemma zp_ex_ok : prefs_ok zp_ex.
Proof. split; by vm_compute. Defined.
Lemma sys_ok_short n : Z.of_nat (length (snd (sys_ok n))) <= READ_MAX.
Proof. by vm_compute. Defined.
Definition udp_packet : list Z := ZdtunPkt.pkt_ex ++ replicate 34 0.
(** The SYN of an ordinary Linux client, read into a buffer of zeros: the parser runs
    past the end of the packet ([ZdtunApi.syn_ok_needed]), into the zeros, and stops. *)
Definition linux_syn : list Z := syn_with opts_linux ++ replicate 100 0.
Definition ins_ex : list vpn_input :=
  [InPacket linux_syn 60; InPacket udp_packet 30; InSockets ∅ ∅; InWorker; InNoPacket; InJava JStop; InNoPacket].
Lemma always_inputs `{PdEnv} zsys ins : Forall (fun i => forall v, input_ok i v) ins -> forall v, inputs_ok zsys ins v.
Proof.
  induction 1 as [|i ins Hi Hins IH]; intros v; [done|]. split; [apply Hi|].
  destruct (vpn_step zsys i v) as [| |[[] v']]; by try apply IH.
Defined.
Lemma udp_input_ok v : input_ok (InPacket udp_packet 30) v.
Proof.
  split; [split; [apply (bool_decide_eq_true_1 _); reflexivity|by vm_compute]|].
  intros pkt f E _ Ht. exfalso. vm_compute in E. injection E as <- <-. discriminate Ht.
Defined.
Lemma linux_syn_input_ok v : input_ok (InPacket linux_syn 60) v.
Proof.
  split; [split; [apply (bool_decide_eq_true_1 _); reflexivity|by vm_compute]|].
  intros pkt f E _ _ _ off d Hoff _. vm_compute in E. injection E as <- <-.
  vm_compute in Hoff. injection Hoff as <-. exists 1460, 7. split; [reflexivity|]. by vm_compute.
Defined.
Lemma session_ex : @session_ok PdCapture.calm _ sys_ok PdCapture.config_ex PdCapture.prefs_ex PdCapture.vpn_ex zp_ex ins_ex.
Proof.
  intros s v _ _. apply always_inputs.
  constructor; [apply linux_syn_input_ok|]. constructor; [apply udp_input_ok|].
  repeat (constructor; [done|]). constructor.
Defined.
Abbreviation run_vpn_ex :=
  (@run_vpn PdCapture.calm _ sys_ok PdCapture.config_ex PdCapture.prefs_ex PdCapture.vpn_ex zp_ex ins_ex).
(** The packets opened a socket each, and their connections were told and closed again. *)
Example session_forwards :
  match run_vpn_ex with
  | Done v => (num_tcp_opened (stats (vl_zdt v)) =? 1) && (num_udp_opened (stats (vl_zdt v)) =? 1) && bool_decide (conns (vl_pd v) = ∅) && bool_decide (vl_lost v = [])
  | _ => false
  end = true.
Proof. vm_compute. reflexivity. Qed.
Lemma run_vpn_ex_done : exists v, run_vpn_ex = Done v.
Proof.
  pose proof session_forwards as H. destruct run_vpn_ex as [| |v]; [discriminate H|discriminate H|by exists v].
Qed.
Lemma vpn_loop_refines_witness :
  exists v, run_vpn_ex = Done v /\
    (exists ops, Forall op_ok ops /\
      @run_capture PdCapture.calm _ PdCapture.config_ex PdCapture.prefs_ex PdCapture.vpn_ex ops = Some (vl_pd v)) /\
    (@jni_ok PdCapture.calm -> forall p, is_Some (conns (vl_pd v) !! p) -> p ∈ vl_lost v).
Proof.
  pose proof (@vpn_loop_refines PdCapture.calm _ _ sys_ok PdCapture.config_ex PdCapture.prefs_ex PdCapture.vpn_ex zp_ex ins_ex
    (PdCapture.env_ex_ok (fun _ => true)) (PdCapture.start_mem_ex (fun _ => true)) zp_ex_ok sys_ok_short session_ex) as Ht.
  destruct run_vpn_ex_done as [v E]. exists v. split; [exact E|]. rewrite E in Ht. exact Ht.
Defined.
End VpnRun.
