(* ===== verification/Libpcap.v ===== *)
(** * The capture with root (core/capture_libpcap.c)

    The second capture loop: packets come from the daemon pcapd, or from a PCAP
    file, through a socket.  The loop keeps its own table of connections, decides
    itself when a connection ends, and frees what the Java side will not hear of
    again.  The state adds to that of the capture the table, the ports of the
    fragments and the variables of [run_libpcap]. *)

From S2P Require Import Prelude CString UtHash ZdtunTypes ZdtunPkt ZdtunState PcapDump PdTypes PdCheck PdNotify PdConn PdProcess PdHouse PdVpn PdJni.

Module Libpcap.
Export PdVpn PdJni.
Import ZdtunPkt.

Definition ICMP_TIMEOUT_SEC : Z := 5.
Definition UDP_TIMEOUT_SEC : Z := 30.
Definition TCP_CLOSED_TIMEOUT_SEC : Z := 60.
Definition TCP_TIMEOUT_SEC : Z := 300.
Definition DNS_TYPE_RESPONSE : Z := 0x8000.
Definition PCAPD_FLAG_TX : Z := 1.
Definition PCAPD_DLT_ETHERNET : Z := 1.
Definition PCAPD_DLT_RAW : Z := 12.
Definition PCAPD_DLT_LINUX_SLL : Z := 113.
Definition PCAPD_DLT_LINUX_SLL2 : Z := 276.

(** [pcapd_hdr_t], without the interface id and the padding, which are not read. *)
Record pcapd_hdr := Hdr {
    h_ts : Z * Z;
    h_pkt_drops : Z;
    h_uid : Z;               (* uid_t: 32 bits, unsigned *)
    h_len : Z;
    h_linktype : Z;
    h_flags : Z;
  }.

(** The members [pcap] and [zdt] of [pcapdroid_t], and the variables of the loop;
    [buffer] has the bytes of the last packet followed by older ones. *)
Record libpcap := Lp {
    lp_pd : pcapdroid;
    connections : list (zdtun_5tuple * Z);
    id2ports : frag_table;
    buffer : list Z;
    next_purge_ms : Z;
    pcap_file_capture : bool;
    has_seen_pcapdroid_trailer : bool;
  }.
#[local] Existing Instance ZdtunState.zstats_eta.
#[export] Instance eta_libpcap : Eta libpcap := fun s =>
  Lp (lp_pd s) (connections s) (id2ports s) (buffer s) (next_purge_ms s) (pcap_file_capture s)
    (has_seen_pcapdroid_trailer s).

(** [tupleSwapPeers] (common/utils.c). *)
Definition tupleSwapPeers (t : zdtun_5tuple) : zdtun_5tuple :=
  Tuple (dst_ip t) (src_ip t) (dst_port t) (src_port t) (ipver t) (ipproto t).
Definition set_tuple (t : zdtun_5tuple) (p : zdtun_pkt) : zdtun_pkt :=
  Pkt t (pkt_flags p) (pkt_len p) (pkt_ip_hdr_len p) (pkt_l4_hdr_len p) (pkt_l7_len p)
    (pkt_mem p) (pkt_l7 p).

Definition get_ip_offset (linktype : Z) : Z :=
  if linktype =? PCAPD_DLT_RAW then 0
  else if linktype =? PCAPD_DLT_ETHERNET then 14
  else if linktype =? PCAPD_DLT_LINUX_SLL then 16
  else if linktype =? PCAPD_DLT_LINUX_SLL2 then 20
  else -1.

(** ** The status of a TCP connection *)

(** The part of [pd_conn_t] the status is computed from; [last_ack] shares its byte
    with [pending_dns_queries]. *)
Definition set_tcp_flags (tx : bool) (flags : Z) (c : pd_conn) : pd_conn :=
  if tx then c <| tcp_flags_c2s ::= fun f => f .| flags |>
  else c <| tcp_flags_s2c ::= fun f => f .| flags |>.
Definition test (flags mask : Z) : bool := negb ((flags .& mask) =? 0).

Definition tcp_update (tx : bool) (flags l7_len : Z) (c : pd_conn) : pd_conn :=
  let c := set_tcp_flags tx flags c in
  let seen := tcp_flags_c2s c .& tcp_flags_s2c c in
  if test flags TH_RST then c <| pd_status := CONN_STATUS_RESET |>
  else if test seen TH_FIN then
    if pending_dns_queries c =? 0 then c <| pending_dns_queries := 1 |>
    else if test flags TH_ACK then c <| pd_status := CONN_STATUS_CLOSED |>
    else c
  else if status_val (pd_status c) <? status_val CONN_STATUS_CONNECTED then
    let syn_ack := TH_SYN .| TH_ACK in
    if (0 <? l7_len) || ((seen .& syn_ack) =? syn_ack)
    then c <| pd_status := CONN_STATUS_CONNECTED |>
    else c <| pd_status := CONN_STATUS_CONNECTING |>
  else c.

(** How long an idle connection is kept, in milliseconds. *)
Definition purge_timeout (tuple : zdtun_5tuple) (c : pd_conn) : Z :=
  if ipproto tuple =? IPPROTO_TCP then
    (if is_closed (pd_status c) then TCP_CLOSED_TIMEOUT_SEC else TCP_TIMEOUT_SEC) * 1000
  else if ipproto tuple =? IPPROTO_UDP then UDP_TIMEOUT_SEC * 1000
  else if ipproto tuple =? IPPROTO_ICMP then ICMP_TIMEOUT_SEC + 1000
  else 0.

(** [stats.num_*_opened] of the protocol. *)
Definition count_opened (proto : Z) (s : zdtun_statistics) : zdtun_statistics :=
  if proto =? IPPROTO_TCP then s <| num_tcp_opened ::= fun n => u32 (n + 1) |>
  else if proto =? IPPROTO_UDP then s <| num_udp_opened ::= fun n => u32 (n + 1) |>
  else if proto =? IPPROTO_ICMP then s <| num_icmp_opened ::= fun n => u32 (n + 1) |>
  else s.

Section ops.
Context `{PdEnv}.

(** An operation of the capture. *)
Definition in_pd {A} (m : M pcapdroid A) : M libpcap A :=
  s ← getS;
  r ← liftO (m (lp_pd s));
  modifyS (fun s => s <| lp_pd := snd r |>) ;;
  mret (fst r).

(** ** The connections *)

(** [HASH_FIND] of a packet's tuple. *)
Definition find_conn (tuple : zdtun_5tuple) : M libpcap (option Z) :=
  s ← getS; mret (HASH_FIND tuple (connections s)).

Definition remove_connection (tuple : zdtun_5tuple) : M libpcap unit :=
  in_pd (modifyS (fun pd => pd <| tun_stats ::= ZdtunState.count_conn (ipproto tuple) (-1) |>)) ;;
  modifyS (fun s => s <| connections ::= HASH_DELETE tuple |>).

Definition update_connection_status (tuple : zdtun_5tuple) (p : Z) (pkt : zdtun_pkt) (tx : bool) :
    M libpcap unit :=
  c ← in_pd (conn p);
  if is_closed (pd_status c) || pkt_is_fragment pkt then mret tt else
  if ipproto tuple =? IPPROTO_TCP then
    flags ← liftO (tcp_th_flags pkt);
    in_pd (set_conn p (tcp_update tx flags (pkt_l7_len pkt)))
  else
    in_pd (set_conn p (fun c =>
      if status_val (pd_status c) <? status_val CONN_STATUS_CONNECTED
      then c <| pd_status := CONN_STATUS_CONNECTED |> else c)) ;;
    if (ipproto tuple =? IPPROTO_UDP) && (DNS_PACKET_LEN <=? pkt_l7_len pkt)
       && (dst_port tuple =? ntohs 53) then
      flags ← liftO (rd16 (pkt_mem pkt) (pkt_l7 pkt + 2));
      if (flags .& DNS_FLAGS_MASK) =? DNS_TYPE_REQUEST then
        in_pd (set_conn p (fun c => c <| pending_dns_queries ::= fun n => u8 (n + 1) |>))
      else if (flags .& DNS_FLAGS_MASK) =? DNS_TYPE_RESPONSE then
        in_pd (set_conn p (fun c => c <| pending_dns_queries ::= fun n => u8 (n - 1) |>)) ;;
        c ← in_pd (conn p);
        if pending_dns_queries c =? 0 then
          in_pd (set_conn p (fun c => c <| pd_status := CONN_STATUS_CLOSED |> <| to_purge := true |>)) ;;
          remove_connection tuple
        else mret tt
      else mret tt
    else mret tt.

(** One connection of [purge_expired_connections]. *)
Definition purge_one (purge_all : bool) (tuple : zdtun_5tuple) (p : Z) : M libpcap unit :=
  c ← in_pd (conn p);
  s ← getS;
  whenM (purge_all || (u64 (pcap_last_update_ms c + purge_timeout tuple c) <=? now_ms (lp_pd s)))
    (in_pd (
       set_conn p (fun c => c <| to_purge := true |>) ;;
       whenM (negb (is_closed (pd_status c)))
         (set_conn p (fun c => or_update CONN_UPDATE_STATS (c <| pd_status := CONN_STATUS_CLOSED |>))) ;;
       c ← conn p;
       free ← (if update_type c =? 0 then mret true else
                 rv ← pd_notify_connection_update tuple p; mret (rv <? 0));
       whenM free (pd_purge_connection p)) ;;
     remove_connection tuple).
Definition purge_expired_connections (purge_all : bool) : M libpcap unit :=
  s ← getS;
  forM (connections s) (fun e => purge_one purge_all (fst e) (snd e)).

(** ** Packets *)

(** In a file the application wrote, the UID is in the trailer of the frame. *)
Definition trailer_uid (hdr : pcapd_hdr) (pkt : zdtun_pkt) : M libpcap Z :=
  s ← getS;
  if pcap_file_capture s && (h_uid hdr =? u32 UID_UNKNOWN)
     && (PcapDump.TRAILER_SIZE <=? u64 (h_len hdr - pkt_len pkt)) then
    let off := h_len hdr - PcapDump.TRAILER_SIZE in
    magic ← liftO (rd32 (buffer s) off);
    if ntohl magic =? PcapDump.PCAPDROID_TRAILER_MAGIC then
      u ← liftO (rd32 (buffer s) (off + 4));
      modifyS (fun s => s <| has_seen_pcapdroid_trailer := true |>) ;;
      mret (ntohl u)
    else mret (h_uid hdr)
  else mret (h_uid hdr).

Definition discard_fragment : M libpcap unit :=
  in_pd (modifyS (fun pd => pd <| num_discarded_fragments ::= fun n => i64 (n + 1) |>)).

(** The connection of a packet nothing was found for. *)
Definition new_conn (hdr : pcapd_hdr) (u : Z) (tuple : zdtun_5tuple) : M libpcap (option Z) :=
  mem ← in_pd (ask a_mem);
  if negb mem then mret None else
  r ← in_pd (pd_new_connection tuple (i32 u));
  match r with
  | None => mret None
  | Some p =>
      s ← getS;
      (if h_linktype hdr =? PCAPD_DLT_LINUX_SLL2
       then i ← liftO (rd32 (buffer s) 4);
            in_pd (set_conn p (fun c => c <| ifidx := ntohl i |>))
       else mret tt) ;;
      modifyS (fun s => s <| connections ::= HASH_ADD tuple p |>) ;;
      in_pd (modifyS (fun pd => pd <| tun_stats ::=
        fun t => count_opened (ipproto tuple) (ZdtunState.count_conn (ipproto tuple) 1 t) |>)) ;;
      pd ← in_pd getS;
      in_pd (set_conn p (fun c =>
        c <| proxied := tls_enabled (tls_decryption pd) && (ipproto tuple =? IPPROTO_TCP) |>)) ;;
      mret (Some p)
  end.

(** The connection of the packet, its tuple and the direction of the packet: the
    direction the daemon found is a guess, the other one is tried too. *)
Definition conn_of_packet (hdr : pcapd_hdr) (u : Z) (pkt : zdtun_pkt) :
    M libpcap (option (Z * zdtun_5tuple * bool)) :=
  let is_tx := test (h_flags hdr) PCAPD_FLAG_TX in
  let tuple := if is_tx then pkt_tuple pkt else tupleSwapPeers (pkt_tuple pkt) in
  r ← find_conn tuple;
  match r with
  | Some p => mret (Some (p, tuple, is_tx))
  | None =>
      r ← find_conn (tupleSwapPeers tuple);
      match r with
      | Some p => mret (Some (p, tupleSwapPeers tuple, negb is_tx))
      | None =>
          if pkt_is_fragment pkt && negb (pkt_is_first_fragment pkt) then discard_fragment ;; mret None else
          r ← new_conn hdr u tuple;
          mret ((fun p => (p, tuple, is_tx)) <$> r)
      end
  end.

(** The rest of [handle_packet], for a packet that has a connection. *)
Definition process_packet (hdr : pcapd_hdr) (pkt : zdtun_pkt) (p : Z) (tuple : zdtun_5tuple)
    (is_tx : bool) : M libpcap unit :=
  let pkt := set_tuple tuple pkt in
  pd ← in_pd getS;
  in_pd (set_conn p (fun c => c <| pcap_last_update_ms := now_ms pd |>)) ;;
  px ← in_pd (pd_process_packet pkt is_tx tuple p (h_ts hdr));
  update_connection_status tuple p pkt is_tx ;;
  in_pd (pd_account_stats px).

(** Whether the packet was accepted, and its UID, which the caller reads. *)
Definition handle_packet (hdr : pcapd_hdr) (ipoffset : Z) : M libpcap (bool * Z) :=
  s ← getS;
  r ← liftO (zdtun_parse_pkt (drop (Z.to_nat ipoffset) (buffer s)) (h_len hdr - ipoffset) (id2ports s));
  modifyS (fun s => s <| id2ports := snd r |>) ;;
  match fst r with
  | inl _ => mret (false, h_uid hdr)
  | inr pkt =>
      u ← trailer_uid hdr pkt;
      let t := pkt_tuple pkt in
      if pkt_is_fragment pkt && (src_port t =? 0) && (dst_port t =? 0)
      then discard_fragment ;; mret (false, u) else
      r ← conn_of_packet hdr u pkt;
      match r with
      | None => mret (false, u)
      | Some (p, tuple, is_tx) => process_packet hdr pkt p tuple is_tx ;; mret (true, u)
      end
  end.

(** ** The loop *)

Definition lp_housekeeping : M libpcap unit :=
  s ← getS;
  in_pd (pd_housekeeping zstats_zero (connections s)) ;;
  s ← getS;
  whenM (next_purge_ms s <=? now_ms (lp_pd s))
    (purge_expired_connections false ;;
     modifyS (fun s => s <| next_purge_ms := u64 (now_ms (lp_pd s) + PERIODIC_PURGE_TIMEOUT_MS) |>)).

(** A packet that arrived; [false] when the loop is left or starts over. *)
Definition receive (hdr : pcapd_hdr) (bytes : list Z) : M libpcap bool :=
  s ← getS;
  if negb (running (lp_pd s)) then mret false else
  modifyS (fun s => s <| buffer ::= fun b => bytes ++ drop (length bytes) b |>) ;;
  in_pd (modifyS (fun pd => pd <| num_dropped_pkts := h_pkt_drops hdr |>)) ;;
  let ipoffset := get_ip_offset (h_linktype hdr) in
  if ipoffset <? 0 then mret false else
  if h_len hdr <? ipoffset then mret false else
  r ← handle_packet hdr ipoffset;
  whenM (negb (fst r))
    (s ← getS;
     in_pd (pd_dump_packet (drop (Z.to_nat ipoffset) (buffer s)) (h_len hdr - ipoffset) (h_ts hdr) (i32 (snd r)))) ;;
  mret true.

(** One turn of the loop, with the packet read from the socket if there is one. *)
Definition turn (input : option (pcapd_hdr * list Z)) : M libpcap unit :=
  in_pd pd_refresh_time ;;
  more ← match input with
         | None => mret true
         | Some (hdr, bytes) => receive hdr bytes
         end;
  whenM more lp_housekeeping.

End ops.
End Libpcap.
