(* ===== verification/LibpcapConn.v ===== *)
(** * When the capture with root takes a TCP connection for ended

    [update_connection_status] sees the segments one by one and keeps three fields
    of the connection.  The specification looks at the whole sequence: the first
    RST, the FINs of the two sides, an ACK after them. *)

From S2P Require Import Prelude CString UtHash ZdtunTypes ZdtunPkt PcapDump PdTypes PdCheck PdNotify PdConn PdProcess PdHouse PdVpn PdJni PdFrame PdCapture Libpcap.

Module LibpcapConn.
Export Libpcap.
Import ZdtunPkt.

(** ** The specification *)

(** A segment: from the client or not, its flags and the length of its data. *)
Record segment := Seg { sg_tx : bool; sg_flags : Z; sg_len : Z }.
Definition rst (x : segment) : bool := test (sg_flags x) TH_RST.
Definition ack (x : segment) : bool := test (sg_flags x) TH_ACK.
Definition fin_from (tx : bool) (l : list segment) : bool :=
  existsb (fun x => Bool.eqb (sg_tx x) tx && test (sg_flags x) TH_FIN) l.
Definition fins (l : list segment) : bool := fin_from true l && fin_from false l.

(** An ACK came after the FINs of both sides. *)
Definition finished (l : list segment) : Prop :=
  exists a x b, l = a ++ x :: b /\ fins a = true /\ ack x = true.
Definition no_rst (l : list segment) : Prop := Forall (fun x => rst x = false) l.

Definition ends_reset (l : list segment) : Prop :=
  exists a x b, l = a ++ x :: b /\ no_rst a /\ ~ finished a /\ rst x = true.
Definition ends_closed (l : list segment) : Prop :=
  exists a b, l = a ++ b /\ no_rst a /\ finished a.
Definition still_open (l : list segment) : Prop := no_rst l /\ ~ finished l.

Lemma finished_app l l' : finished l -> finished (l ++ l').
Proof. intros (a & x & b & -> & Hf & Ha). exists a, x, (b ++ l'). by rewrite <-app_assoc. Qed.
Lemma finished_snoc l x : finished (l ++ [x]) -> finished l \/ fins l = true /\ ack x = true.
Proof.
  intros (a & y & b & E & Hf & Ha). destruct b as [|z b] using rev_ind.
  - apply app_inj_tail in E as [-> ->]. by right.
  - left. rewrite app_comm_cons, app_assoc in E. apply app_inj_tail in E as [-> _]. by exists a, y, b.
Qed.

Lemma existsb_snoc {A} (f : A -> bool) l x : existsb f (l ++ [x]) = existsb f l || f x.
Proof. rewrite existsb_app. simpl. by rewrite orb_false_r. Qed.

(** The three outcomes exclude each other. *)
Lemma open_not_reset l : still_open l -> ends_reset l -> False.
Proof.
  intros [Hn _] (a & x & b & -> & _ & _ & Hx). apply Forall_app in Hn as [_ [Hx' _]%Forall_cons]. congruence.
Qed.
Lemma open_not_closed l : still_open l -> ends_closed l -> False.
Proof. intros [_ Hf] (a & b & -> & _ & Ha). by apply Hf, finished_app. Qed.
Lemma reset_not_closed l : ends_reset l -> ends_closed l -> False.
Proof.
  intros (a & x & b & E & Hna & Hnf & Hx) (a' & b' & E' & Hn' & Hf').
  assert (H : a ++ x :: b = a' ++ b') by congruence. clear E E'. revert a' Hn' Hf' H.
  assert (Hgen : forall a a', a ++ x :: b = a' ++ b' -> (exists k, a = a' ++ k) \/ x ∈ a').
  { clear. induction a as [|y a IH]; intros [|y' a'] E; cbn in *; [left; by exists []|right|left; by eexists|].
    - injection E as -> _. by left.
    - injection E as -> E. destruct (IH a' E) as [[k ->]|Hx]; [left; by exists k|right; by right]. }
  intros a' Hn' Hf' H. destruct (Hgen a a' H) as [[k ->]|Hin].
  - by apply Hnf, finished_app.
  - unfold no_rst in Hn'. rewrite Forall_forall in Hn'. specialize (Hn' x Hin). congruence.
Qed.

(** ** Flags as bits *)

Lemma test_lor a b m : test (a .| b) m = test a m || test b m.
Proof.
  unfold test. rewrite Z.land_lor_distr_l.
  destruct (Z.eqb_spec ((a .& m) .| (b .& m)) 0) as [E|E].
  - apply Z.lor_eq_0_iff in E as [-> ->]. done.
  - destruct (Z.eqb_spec (a .& m) 0) as [E1|]; [|done]. destruct (Z.eqb_spec (b .& m) 0) as [E2|]; [|done].
    exfalso. apply E. by rewrite E1, E2.
Qed.
Lemma test_fin a : test a TH_FIN = Z.odd a.
Proof.
  unfold test, TH_FIN. change 1 with (Z.ones 1). rewrite Z.land_ones, Z.pow_1_r, Zmod_odd by lia. by destruct (Z.odd a).
Qed.
Lemma test_fin_land a b : test (a .& b) TH_FIN = test a TH_FIN && test b TH_FIN.
Proof. by rewrite !test_fin, <-!Z.bit0_odd, Z.land_spec. Qed.

(** ** The segments of a connection *)

Definition tcp_step (c : pd_conn) (x : segment) : pd_conn :=
  if is_closed (pd_status c) then c else tcp_update (sg_tx x) (sg_flags x) (sg_len x) c.
Definition tcp_steps (c : pd_conn) (l : list segment) : pd_conn := fold_left tcp_step l c.

Definition untouched (c : pd_conn) : Prop :=
  pd_status c = CONN_STATUS_NEW /\ tcp_flags_c2s c = 0 /\ tcp_flags_s2c c = 0 /\ pending_dns_queries c = 0.

(** What the fields say of the segments so far. *)
Record open_fields (l : list segment) (c : pd_conn) : Prop := {
    of_open : still_open l;
    of_status : is_closed (pd_status c) = false;
    of_c2s : test (tcp_flags_c2s c) TH_FIN = fin_from true l;
    of_s2c : test (tcp_flags_s2c c) TH_FIN = fin_from false l;
    of_last : pending_dns_queries c = Z.b2z (fins l);
  }.
Definition fields (l : list segment) (c : pd_conn) : Prop :=
  open_fields l c \/ pd_status c = CONN_STATUS_RESET /\ ends_reset l \/
  pd_status c = CONN_STATUS_CLOSED /\ ends_closed l.

Lemma ends_reset_app l l' : ends_reset l -> ends_reset (l ++ l').
Proof. intros (a & x & b & -> & H). exists a, x, (b ++ l'). by rewrite <-app_assoc. Qed.
Lemma ends_closed_app l l' : ends_closed l -> ends_closed (l ++ l').
Proof. intros (a & b & -> & H). exists a, (b ++ l'). by rewrite <-app_assoc. Qed.

Lemma still_open_snoc l x :
  still_open l -> rst x = false -> (fins l = true -> ack x = false) -> still_open (l ++ [x]).
Proof.
  intros [Hn Hf] Hr Ha. split; [by apply Forall_app; split; [|apply Forall_singleton]|].
  intros [?|[Hfin Hack]]%finished_snoc; [done|]. specialize (Ha Hfin). congruence.
Qed.

Lemma tcp_step_fields l c x : fields l c -> fields (l ++ [x]) (tcp_step c x).
Proof.
  intros [[Ho Hs Hc2s Hs2c Hlast]|[[E Hr]|[E Hc]]].
  2:{ right. left. unfold tcp_step. rewrite E. split; [done|by apply ends_reset_app]. }
  2:{ right. right. unfold tcp_step. rewrite E. split; [done|by apply ends_closed_app]. }
  unfold tcp_step. rewrite Hs. unfold tcp_update. cbv zeta.
  set (c1 := set_tcp_flags (sg_tx x) (sg_flags x) c).
  assert (F1 : test (tcp_flags_c2s c1) TH_FIN = fin_from true (l ++ [x])).
  { unfold fin_from, c1, set_tcp_flags. rewrite existsb_snoc. fold (fin_from true l).
    destruct (sg_tx x); cbn; [by rewrite test_lor, Hc2s|by rewrite orb_false_r]. }
  assert (F2 : test (tcp_flags_s2c c1) TH_FIN = fin_from false (l ++ [x])).
  { unfold fin_from, c1, set_tcp_flags. rewrite existsb_snoc. fold (fin_from false l).
    destruct (sg_tx x); cbn; [by rewrite orb_false_r|by rewrite test_lor, Hs2c]. }
  assert (F3 : test (tcp_flags_c2s c1 .& tcp_flags_s2c c1) TH_FIN = fins (l ++ [x])).
  { by rewrite test_fin_land, F1, F2. }
  assert (F4 : pending_dns_queries c1 = Z.b2z (fins l)) by (unfold c1, set_tcp_flags; by destruct (sg_tx x)).
  assert (F5 : pd_status c1 = pd_status c) by (unfold c1, set_tcp_flags; by destruct (sg_tx x)).
  change (test (sg_flags x) TH_RST) with (rst x). change (test (sg_flags x) TH_ACK) with (ack x).
  rewrite F3, F4. destruct (rst x) eqn:Hr.
  { right. left. split; [done|]. destruct Ho as [Hn Hf]. by exists l, x, []. }
  assert (Hmono : fins l = true -> fins (l ++ [x]) = true).
  { unfold fins, fin_from. rewrite !existsb_snoc. intros [-> ->]%andb_true_iff. done. }
  destruct (fins (l ++ [x])) eqn:Hfx.
  - destruct (fins l) eqn:Hfl; cbn [Z.b2z Z.eqb].
    + destruct (ack x) eqn:Hax.
      * right. right. split; [done|]. exists (l ++ [x]), []. rewrite app_nil_r. destruct Ho as [Hn Hf].
        split_and!; [done|by apply Forall_app; split; [|apply Forall_singleton]|by exists l, x, []].
      * left. split; [by apply still_open_snoc|by rewrite F5|done|done|by rewrite F4, Hfx].
    + left. split; [apply still_open_snoc; [done|done|by rewrite Hfl]|cbn; by rewrite F5|done|done|cbn; by rewrite Hfx].
  - assert (Hfl : fins l = false) by (destruct (fins l); [by specialize (Hmono eq_refl)|done]).
    assert (Hop : still_open (l ++ [x])) by (apply still_open_snoc; [done|done|by rewrite Hfl]).
    rewrite Hfl in F4. left. destruct (_ <? _); [destruct (_ || _)|]; split;
      first [exact Hop|exact F1|exact F2|cbn; by rewrite Hfx|cbn; by rewrite F5|done].
Qed.

Lemma tcp_steps_fields l c : untouched c -> fields l (tcp_steps c l).
Proof.
  intros (H1 & H2 & H3 & H4). unfold tcp_steps. induction l as [|x l IH] using rev_ind.
  - left. cbn. split; [|by rewrite H1|by rewrite H2|by rewrite H3|by rewrite H4]. split; [constructor|].
    intros (a & x & b & E & _). by destruct a.
  - rewrite fold_left_app. cbn. by apply tcp_step_fields.
Qed.

(** ** The operation *)

Section ops.
Context `{PdEnv}.

Definition packet_of (x : segment) (pkt : zdtun_pkt) : Prop :=
  pkt_is_fragment pkt = false /\ tcp_th_flags pkt = Some (sg_flags x) /\ pkt_l7_len pkt = sg_len x.

Lemma status_step tuple p x pkt s c :
  ipproto tuple = IPPROTO_TCP -> conns (lp_pd s) !! p = Some c -> packet_of x pkt ->
  exists s', update_connection_status tuple p pkt (sg_tx x) s = Some (tt, s') /\
    conns (lp_pd s') !! p = Some (tcp_step c x).
Proof.
  intros Ht Hc (Hf & Hfl & Hl). unfold tcp_step, update_connection_status.
  assert (Hconn : forall (f : pd_conn -> M libpcap unit), (in_pd (conn p) ≫= f) s = f c s).
  { intros f. unfold in_pd, conn, mbind, M_bind, getS, liftO, modifyS, mret, M_ret. rewrite Hc. cbn. by destruct s. }
  rewrite Hconn, Hf, orb_false_r, Ht. destruct (is_closed (pd_status c)) eqn:Eo; [by exists s|].
  cbn [Z.eqb]. change (IPPROTO_TCP =? IPPROTO_TCP) with true. cbv iota. rewrite Hfl, Hl.
  unfold in_pd, set_conn, conn, mbind, M_bind, getS, liftO, modifyS, mret, M_ret. rewrite Hc. cbn.
  eexists. split; [done|]. cbn. by rewrite lookup_insert_eq.
Qed.

(** C24: a TCP connection the capture with root follows is reset exactly when a RST
    comes before the end of a handshake of FINs, and closed exactly when an ACK
    follows the FINs of both sides before any RST; otherwise it stays open. *)
Theorem tcp_end_decided tuple p s c (l : list (segment * zdtun_pkt)) :
  ipproto tuple = IPPROTO_TCP -> conns (lp_pd s) !! p = Some c -> untouched c ->
  Forall (fun e => packet_of e.1 e.2) l ->
  exists s' c', forM l (fun e => update_connection_status tuple p e.2 (sg_tx e.1)) s = Some (tt, s') /\
    conns (lp_pd s') !! p = Some c' /\
    (pd_status c' = CONN_STATUS_RESET <-> ends_reset l.*1) /\
    (pd_status c' = CONN_STATUS_CLOSED <-> ends_closed l.*1) /\
    (is_closed (pd_status c') = false <-> still_open l.*1).
Proof.
  intros Ht Hc Hu Hl.
  assert (Hrun : exists s', forM l (fun e => update_connection_status tuple p e.2 (sg_tx e.1)) s = Some (tt, s') /\
    conns (lp_pd s') !! p = Some (tcp_steps c l.*1)).
  { clear Hu. revert s c Hc. induction Hl as [|[x pkt] l Hx Hl IH]; intros s c Hc; [by exists s|]. cbn [forM fst snd].
    destruct (status_step tuple p x pkt s c Ht Hc Hx) as (s1 & E1 & Hc1).
    destruct (IH s1 _ Hc1) as (s2 & E2 & Hc2). exists s2. split; [|exact Hc2].
    by rewrite (bind_run _ _ _ _ _ E1). }
  destruct Hrun as (s' & E & Hc'). exists s', (tcp_steps c l.*1). split; [done|]. split; [done|].
  pose proof (open_not_reset l.*1). pose proof (open_not_closed l.*1). pose proof (reset_not_closed l.*1).
  destruct (tcp_steps_fields l.*1 c Hu) as [[Ho Hs _ _ _]|[[Es Hr]|[Es Hr]]].
  - assert (pd_status (tcp_steps c l.*1) <> CONN_STATUS_RESET) by (intros E'; by rewrite E' in Hs).
    assert (pd_status (tcp_steps c l.*1) <> CONN_STATUS_CLOSED) by (intros E'; by rewrite E' in Hs). tauto.
  - rewrite Es. split; [done|]. split; split; try done; intros; exfalso; eauto.
  - rewrite Es. split; [|split]; split; try done; intros; exfalso; eauto.
Qed.
End ops.

(** ** A concrete connection *)

Definition tcp_tuple_ex : zdtun_5tuple :=
  Tuple (ip_of_ip4 0x0100000a) (ip_of_ip4 0x04040404) (htons 40000) (htons 80) 4 IPPROTO_TCP.
Definition tcp_pkt_ex (flags : Z) : zdtun_pkt :=
  Pkt tcp_tuple_ex 0 40 20 20 0 (replicate 33 0 ++ flags :: replicate 22 0) 40.
Definition lp_conn_ex : libpcap :=
  Lp ((PdJni.pcapdroid_init PdCapture.config_ex) <| conns := {[1 := pd_conn_zero]} |>) [] ∅ [] 0 false false.
(** The handshake, the two FINs and the last ACK. *)
Definition segments_ex : list (segment * zdtun_pkt) :=
  (fun '(tx, flags) => (Seg tx flags 0, tcp_pkt_ex flags)) <$>
    [(true, TH_SYN); (false, TH_SYN .| TH_ACK); (true, TH_ACK); (true, TH_FIN .| TH_ACK);
     (false, TH_FIN .| TH_ACK); (true, TH_ACK)].

Lemma tcp_end_decided_witness :
  exists s' c', forM segments_ex
      (fun e => update_connection_status tcp_tuple_ex 1 e.2 (sg_tx e.1)) lp_conn_ex = Some (tt, s') /\
    conns (lp_pd s') !! 1 = Some c' /\
    (pd_status c' = CONN_STATUS_RESET <-> ends_reset segments_ex.*1) /\
    (pd_status c' = CONN_STATUS_CLOSED <-> ends_closed segments_ex.*1) /\
    (is_closed (pd_status c') = false <-> still_open segments_ex.*1).
Proof.
  apply (tcp_end_decided tcp_tuple_ex 1 lp_conn_ex pd_conn_zero segments_ex);
    [done|done|done|by repeat constructor].
Defined.
End LibpcapConn.
