(* ===== verification/LibpcapSafe.v ===== *)
(** * The capture loop with root never uses a connection it freed

    The invariant of the loop: the connections of its table are those in use, each
    once, and one that waits in a notification array has an update, so that the
    purge may free those without. *)

From S2P Require Import Prelude CString UtHash ZdtunTypes ZdtunPkt ParseMore ZdtunState PcapDump PcapSpec PcapSafe PdTypes PdCheck PdNotify PdConn PdProcess PdHouse PdVpn PdJni PdFrame PdOwn PdLife PdSend PdSafe PdVpnSafe PdRetire Libpcap.

Module LibpcapSafe.
Export PdRetire PdVpnSafe Libpcap.
Import ZdtunPkt ParseMore.
#[local] Existing Instance ZdtunState.zstats_eta.

(** ** The invariant *)

Definition table_set (s : libpcap) : gset Z := list_to_set (snd <$> connections s).
Definition told_in (active : gset Z) : Told := fun q => q ∈ active.
Definition told_but (active : gset Z) (p : Z) : Told := fun q => q ∈ active /\ q <> p.

Definition ends_ok (t : zdtun_5tuple) : Prop := ip_ok (src_ip t) /\ ip_ok (dst_ip t).
Record table_ok (l : list (zdtun_5tuple * Z)) : Prop := {
    ta_ends : Forall (fun e => ends_ok e.1) l;
    ta_ptrs : NoDup (snd <$> l);
    ta_keys : hash_wf l;
  }.
Record rest_ok (s : libpcap) : Prop := {
    ro_table : table_ok (connections s);
    ro_frag : frag_table_ok (id2ports s);
    ro_buf : bytes_ok (buffer s) /\ Z.of_nat (length (buffer s)) = PCAPD_SNAPLEN;
  }.
Record lp_inv (t : bool) (s : libpcap) : Prop := {
    li_pd : @inv (told_in (table_set s)) t (table_set s) (lp_pd s);
    li_rest : rest_ok s;
  }.

(** The variables only [handle_packet] changes. *)
Definition lp_same (s s' : libpcap) : Prop := id2ports s' = id2ports s /\ buffer s' = buffer s.

Lemma rest_ok_same s s' : lp_same s s' -> table_ok (connections s') -> rest_ok s -> rest_ok s'.
Proof. intros [E1 E2] Ht [_ Hf Hb]. split; [done|by rewrite E1|by rewrite E2]. Qed.

Lemma lp_inv_pd t s pd :
  rest_ok s -> @inv (told_in (table_set s)) t (table_set s) pd -> lp_inv t (s <| lp_pd := pd |>).
Proof. intros Hr Hi. split; [done|]. by apply (rest_ok_same s); [|apply Hr|]. Qed.

(** ** The table *)

Lemma table_delete (l : list (zdtun_5tuple * Z)) tuple p :
  table_ok l -> (tuple, p) ∈ l ->
  table_ok (HASH_DELETE tuple l) /\
  list_to_set (snd <$> HASH_DELETE tuple l) =@{gset Z} list_to_set (snd <$> l) ∖ {[p]} /\
  forall e, e ∈ HASH_DELETE tuple l <-> e ∈ l /\ e.1 <> tuple.
Proof.
  intros [He Hp Hk] Hin. pose proof (hash_wf_DELETE tuple l Hk) as Hk'. rewrite HASH_DELETE_filter in * by done.
  assert (Hone : forall e, e ∈ l -> e.1 = tuple <-> e.2 = p).
  { intros [k q] Hq. cbn. split.
    - intros ->. apply (HASH_FIND_Some tuple q l Hk) in Hq. apply (HASH_FIND_Some tuple p l Hk) in Hin. congruence.
    - intros ->. apply list_elem_of_lookup in Hq as [i Hi], Hin as [j Hj].
      assert (i = j) as ->; [|congruence]. eapply (NoDup_lookup (snd <$> l)); [done|..];
        rewrite list_lookup_fmap; [rewrite Hi|rewrite Hj]; done. }
  split_and!.
  - split; [| |done].
    { apply Forall_forall. intros e [_ Hel]%list_elem_of_filter. rewrite Forall_forall in He. by apply He. } clear -Hp. induction l as [|e l IH]; [constructor|].
    apply NoDup_cons in Hp as [Hn Hp]. rewrite filter_cons. case_decide; [|by apply IH].
    cbn. apply NoDup_cons. split; [|by apply IH]. contradict Hn.
    apply list_elem_of_fmap in Hn as (e' & -> & [_ He']%list_elem_of_filter). by apply list_elem_of_fmap_2.
  - apply leibniz_equiv. intros q. rewrite elem_of_difference, !elem_of_list_to_set, !list_elem_of_fmap, elem_of_singleton.
    split.
    + intros (e & -> & [Hne Hel]%list_elem_of_filter). split; [by exists e|]. intros E. by apply Hne, Hone.
    + intros [(e & -> & Hel) Hne]. exists e. split; [done|]. apply list_elem_of_filter. split; [|done].
      intros E. by apply Hne, Hone.
  - intros e. rewrite list_elem_of_filter. tauto.
Qed.

Lemma table_add l tuple p :
  table_ok l -> ends_ok tuple -> HASH_FIND tuple l = None -> p ∉ (list_to_set (snd <$> l) : gset Z) ->
  table_ok (HASH_ADD tuple p l) /\
  list_to_set (snd <$> HASH_ADD tuple p l) =@{gset Z} {[p]} ∪ list_to_set (snd <$> l).
Proof.
  intros [He Hp Hk] Ht Hf Hn. split.
  - split; [|unfold HASH_ADD; rewrite fmap_app|by apply hash_wf_ADD].
    + apply Forall_app. split; [done|]. by apply Forall_singleton.
    + apply NoDup_app. split_and!; [done| |apply NoDup_singleton]. intros q Hq ->%list_elem_of_singleton.
      by apply Hn, elem_of_list_to_set.
  - unfold HASH_ADD. rewrite fmap_app. apply leibniz_equiv. cbn. set_solver.
Qed.

Lemma in_table s tuple p : (tuple, p) ∈ connections s -> p ∈ table_set s.
Proof. intros Hin. apply elem_of_list_to_set, list_elem_of_fmap. by exists (tuple, p). Qed.

Lemma table_ends s tuple p : rest_ok s -> (tuple, p) ∈ connections s -> ends_ok tuple.
Proof. intros [[He _ _] _ _] Hin. rewrite Forall_forall in He. by apply (He (tuple, p)). Qed.

(** ** What the daemon sends *)

(** A frame that leaves the room the DNS parser reads past the end. *)
Record input_ok (hdr : pcapd_hdr) (bytes : list Z) : Prop := {
    in_bytes : bytes_ok bytes;
    in_len : h_len hdr = Z.of_nat (length bytes) /\ h_len hdr + 16 <= PCAPD_SNAPLEN;
  }.

Lemma ip_offset_range lt : -1 <= get_ip_offset lt <= 20.
Proof. unfold get_ip_offset. repeat case_match; lia. Qed.

Section safe.
Context `{PdEnv}.
Context (Hproto : forall n, proto_ok (a_proto (sys n))).
Context (Hstrdup : forall n, a_strdup (sys n) = true).
Context (Hrealloc : forall n, a_realloc (sys n) = true).

Lemma wp_in_pd {A} (m : M pcapdroid A) (Q : A -> libpcap -> Prop) s :
  wp m (fun a pd => Q a (s <| lp_pd := pd |>)) (lp_pd s) -> wp (in_pd m) Q s.
Proof.
  intros (a & pd & E & HQ). unfold in_pd. wp_run. eapply wp_lift; [exact E|]. by wp_run.
Qed.

(** An operation on a connection of the table, or on the rest of the capture. *)
Lemma wp_in_pd_safe {A} (T : Told) t active (m : M pcapdroid A) (Q : A -> libpcap -> Prop) s :
  @safe T A t active m -> @inv T t active (lp_pd s) ->
  (forall a pd, @inv T t active pd -> Q a (s <| lp_pd := pd |>)) -> wp (in_pd m) Q s.
Proof.
  intros Hm Hi HQ. apply wp_in_pd. eapply wp_mono; [by apply Hm|]. intros a pd [Hi' _]. by apply HQ.
Qed.

(** ** The status of a connection *)

(** The outcome of [update_connection_status]: the connection is still in use, or left
    the table, marked for deletion. *)
Definition status_updated (T : Told) t tuple p s s' : Prop :=
  lp_same s s' /\
  (connections s' = connections s /\ @inv T t (table_set s) (lp_pd s') \/
   connections s' = HASH_DELETE tuple (connections s) /\
   exists pd0, @retiring T t (table_set s) p pd0 (lp_pd s')).

Lemma keeps_tcp_update {T : Told} ps p tx flags l7 : p ∈ ps -> keeps ps (set_conn p (tcp_update tx flags l7)).
Proof. intros Hp. unfold tcp_update, set_tcp_flags. destruct tx; cbv zeta; keep. Qed.

Lemma wp_update_status (T : Told) t tuple p pkt tx s :
  @inv T t (table_set s) (lp_pd s) -> p ∈ table_set s -> pkt_fine pkt ->
  (pkt_is_fragment pkt = false -> ipproto tuple = IPPROTO_TCP ->
     0 <= pkt_ip_hdr_len pkt /\ pkt_ip_hdr_len pkt + TCP_HEADER_LEN <= Z.of_nat (length (pkt_mem pkt))) ->
  wp (update_connection_status tuple p pkt tx) (fun _ s' => status_updated T t tuple p s s') s.
Proof.
  intros Hi Hp Hpkt Htcp. unfold update_connection_status.
  assert (Hend : forall pd, @inv T t (table_set s) pd -> status_updated T t tuple p s (s <| lp_pd := pd |>)).
  { intros pd Hpd. split; [done|]. by left. }
  wp_step. eapply (wp_in_pd_safe T t (table_set s)); [by eapply safe_keeps; [exact Hp|keep]|exact Hi|].
  intros c pd1 Hi1. destruct (is_closed _ || pkt_is_fragment pkt) eqn:E; [wp_step; by apply Hend|].
  apply orb_false_iff in E as [_ Hfrag]. destruct (Z.eqb_spec (ipproto tuple) IPPROTO_TCP) as [Htc|].
  - destruct (Htcp Hfrag Htc) as [? ?]. unfold TCP_HEADER_LEN in *. unfold tcp_th_flags.
    destruct (rd8_is_Some (pkt_mem pkt) (pkt_ip_hdr_len pkt + 13)) as (fl & Efl & _); [lia|apply Hpkt|].
    wp_step. eapply wp_lift; [exact Efl|].
    eapply (wp_in_pd_safe T t (table_set s)); [eapply safe_keeps; [exact Hp|apply keeps_tcp_update; set_solver]|exact Hi1|].
    intros [] pd2 Hi2. by apply Hend.
  - wp_step. eapply (wp_in_pd_safe T t (table_set s)); [by eapply safe_keeps; [exact Hp|keep]|exact Hi1|].
    intros [] pd2 Hi2. destruct (_ && _ && _) eqn:Ed; [|wp_step; by apply Hend].
    apply andb_true_iff in Ed as [[_ El]%andb_true_iff _]. unfold DNS_PACKET_LEN in El. apply Z.leb_le in El.
    destruct Hpkt. destruct (rd16_is_Some (pkt_mem pkt) (pkt_l7 pkt + 2)) as (fl & Efl & _); [lia|lia|done|].
    wp_step. eapply wp_lift; [exact Efl|]. destruct (_ =? DNS_TYPE_REQUEST).
    { eapply (wp_in_pd_safe T t (table_set s)); [by eapply safe_keeps; [exact Hp|keep]|exact Hi2|].
      intros [] pd3 Hi3. by apply Hend. }
    destruct (_ =? DNS_TYPE_RESPONSE); [|wp_step; by apply Hend].
    wp_step. eapply (wp_in_pd_safe T t (table_set s)); [by eapply safe_keeps; [exact Hp|keep]|exact Hi2|].
    intros [] pd3 Hi3. wp_step. apply wp_in_pd.
    destruct (inv_active_own _ _ _ _ Hi3 Hp) as [o Ho]. destruct (own_of_is_Some _ _ _ Ho) as [c' Hc'].
    eapply wp_conn_at; [exact Hc'|]. destruct (_ =? 0); [|wp_step; by apply Hend].
    wp_step. apply wp_in_pd. eapply wp_set_at; [exact Hc'|]. unfold remove_connection.
    wp_step. apply wp_in_pd. wp_step. wp_step. split; [done|]. right. split; [done|]. exists pd3.
    match goal with |- retiring _ _ _ _ (lp_pd ?x) => change (lp_pd x) with
      (pd3 <| conns ::= <[p := c' <| pd_status := CONN_STATUS_CLOSED |> <| to_purge := true |>]> |>
           <| tun_stats ::= ZdtunState.count_conn (ipproto tuple) (-1) |>) end.
    eapply retiring_same; [|apply (retiring_start t (table_set s) p c'
      (c' <| pd_status := CONN_STATUS_CLOSED |> <| to_purge := true |>)); [done..|intros []; by split]].
    by split.
Qed.
(** ** The purge *)

(** Leaving the table: what [remove_connection] does after the memory is settled. *)
Lemma lp_inv_removed t tuple p s s' :
  lp_inv t s -> (tuple, p) ∈ connections s -> lp_same s s' -> connections s' = HASH_DELETE tuple (connections s) ->
  @inv (told_in (table_set s)) t (table_set s ∖ {[p]}) (lp_pd s') -> lp_inv t s'.
Proof.
  intros [_ Hr] Hin Hs Hc Hi. destruct (table_delete _ _ _ (ro_table _ Hr) Hin) as (Ht & Hset & _).
  assert (Ets : table_set s' = table_set s ∖ {[p]}) by (unfold table_set; by rewrite Hc, Hset).
  split; [|by apply (rest_ok_same s); [|rewrite Hc|]].
  rewrite Ets. apply (inv_told (told_in (table_set s))); [|done]. unfold told_in. set_solver.
Qed.

Lemma wp_purge_one t all tuple p s :
  lp_inv t s -> (tuple, p) ∈ connections s ->
  wp (purge_one all tuple p) (fun _ s' => lp_inv t s' /\
    forall e, e.1 <> tuple \/ all = true -> e ∈ connections s' <-> e ∈ connections s /\ e.1 <> tuple) s.
Proof.
  intros Hs Hin. pose proof (in_table _ _ _ Hin) as Hp. pose proof Hs as [Hi Hr].
  destruct (table_ends _ _ _ Hr Hin) as [_ Hdst]. set (T := told_in (table_set s)) in *.
  destruct (inv_active_own _ _ _ _ Hi Hp) as [o Ho]. destruct (own_of_is_Some _ _ _ Ho) as [c Hc].
  unfold purge_one. wp_step. apply wp_in_pd. eapply wp_conn_at; [exact Hc|]. wp_step. wp_step.
  apply wp_when; intros Hall.
  2:{ apply orb_false_iff in Hall as [-> _]. split; [by destruct s|]. intros e [Hne|]; [tauto|done]. }
  assert (Hdel : forall pd, inv t (table_set s ∖ {[p]}) pd ->
    wp (remove_connection tuple) (fun _ s' => lp_inv t s' /\ forall e, e.1 <> tuple \/ all = true ->
      e ∈ connections s' <-> e ∈ connections s /\ e.1 <> tuple) (s <| lp_pd := pd |>)).
  { intros pd Hpd. unfold remove_connection. wp_step. apply wp_in_pd. wp_step. wp_step. split.
    - eapply (lp_inv_removed t tuple p s); [done..|]. by apply (pd_inv_same _ _ pd).
    - intros e _. apply (table_delete _ _ _ (ro_table _ Hr) Hin). }
  wp_step. apply wp_in_pd. wp_step. eapply wp_set_at; [exact Hc|].
  match goal with |- wp _ _ ?x => set (pd1 := x) end.
  assert (Hr1 : retiring t (table_set s) p (lp_pd s) pd1) by (apply (retiring_start _ _ _ c); [done..|intros []; by split]).
  (* the status, and whether an update was added *)
  wp_step. apply (wp_mono _ (fun _ pd2 => retiring t (table_set s) p (lp_pd s) pd2 /\
    exists c2, conns pd2 !! p = Some c2 /\ pending_notification c2 = pending_notification c /\
      conns pd2 = <[p := c2]> (conns (lp_pd s)) /\ config pd2 = config (lp_pd s) /\ dumper pd2 = dumper (lp_pd s) /\
      next_conn pd2 = next_conn (lp_pd s) /\ new_conns pd2 = new_conns (lp_pd s) /\
      conns_updates pd2 = conns_updates (lp_pd s) /\ (update_type c2 = 0 -> update_type c = 0))).
  { apply wp_when; intros _.
    - eapply wp_set_at; [apply lookup_insert_eq|]. split.
      + eapply retiring_same; [|exact Hr1]. eapply same_set; [apply lookup_insert_eq|done|unfold or_update; keep_named].
      + eexists. split; [apply lookup_insert_eq|]. split; [done|]. split; [by cbn; rewrite insert_insert_eq|].
        split_and!; try done. cbn. by intros [E _]%Z.lor_eq_0_iff.
    - split; [done|]. eexists. split; [apply lookup_insert_eq|]. by split_and!. }
  intros [] pd2 (Hr2 & c2 & Hc2 & Hpc2 & Hcs2 & Hcf2 & Hd2 & Hx2 & Hn2 & Hu2 & Hup).
  wp_step. eapply wp_conn_at; [exact Hc2|]. destruct (Z.eqb_spec (update_type c2) 0) as [Hz|Hz].
  - wp_step. wp_step. cbn [whenM]. unfold pd_purge_connection, conn_free_ndpi.
    wp_step. eapply wp_set_at; [exact Hc2|].
    wp_step. apply Hdel.
    assert (Hpn : pending_notification c = false).
    { destruct (pending_notification c) eqn:Epn; [|done]. exfalso.
      by apply (nm_told _ _ (iv_named _ _ _ Hi p c Hc) Hp Epn), Hup. }
    eapply (inv_free t (table_set s) p c (lp_pd s)); [done..| | | |]; cbn.
    + unfold shape. cbn. by rewrite Hcs2, !delete_insert_eq, Hx2, Hn2, Hu2.
    + by rewrite Hcs2, !delete_insert_eq.
    + done.
    + done.
  - wp_step. wp_step. unfold pd_notify_connection_update.
    eapply (wp_retire_notif tuple Hdst Hproto Hstrdup Hrealloc t (table_set s) _ p (lp_pd s)); [exact Hr2| |].
    { intros _ d Hd. by assert (d = c2) as -> by congruence. }
    intros pd3 Hi3 _ _. wp_step. change (0 <? 0) with false. cbn [whenM]. wp_step. by apply Hdel.
Qed.

Lemma wp_lp_purge t all s :
  lp_inv t s ->
  wp (purge_expired_connections all) (fun _ s' => lp_inv t s' /\ (all = true -> connections s' = [])) s.
Proof.
  intros Hs. unfold purge_expired_connections. wp_step. wp_step.
  assert (Hk : NoDup (connections s).*1) by apply (ta_keys _ (ro_table _ (li_rest _ _ Hs))).
  assert (Hin : Forall (fun e => e ∈ connections s) (connections s)) by by apply Forall_forall.
  assert (Hout : all = true -> forall e, e ∈ connections s -> e ∈ connections s) by done.
  revert Hk Hin Hout. generalize (connections s) at 1 3 5 6 as l. intros l. revert s Hs.
  induction l as [|[tuple p] l IH]; intros s Hs Hk Hin Hout; cbn [forM].
  { wp_step. split; [done|]. intros Ha. specialize (Hout Ha). destruct (connections s) as [|e l]; [done|].
    by specialize (Hout e ltac:(left)) as ?%not_elem_of_nil. }
  apply NoDup_cons in Hk as [Hn Hk]. apply Forall_cons in Hin as [Hin Hl].
  wp_step. eapply wp_mono; [by apply wp_purge_one|]. intros [] s1 [Hs1 Hkeep]. apply IH; [done|done| |].
  - apply Forall_forall. intros e He. rewrite Forall_forall in Hl.
    assert (Hne : e.1 <> (tuple, p).1) by (intros E; apply Hn; rewrite <-E; by apply list_elem_of_fmap_2).
    apply Hkeep; [by left|]. split; [by apply Hl|done].
  - intros Ha e He. apply Hkeep in He as [He Hne]; [|by right].
    by apply (Hout Ha), elem_of_cons in He as [->|].
Qed.

(** ** A packet that has a connection *)

(** What the parser says of a packet. *)
Record parsed_ok (pkt : zdtun_pkt) : Prop := {
    pa_fine : pkt_fine pkt;
    pa_ends : ends_ok (pkt_tuple pkt);
    pa_tcp : pkt_is_fragment pkt = false -> ipproto (pkt_tuple pkt) = IPPROTO_TCP ->
      0 <= pkt_ip_hdr_len pkt /\ pkt_ip_hdr_len pkt + TCP_HEADER_LEN <= Z.of_nat (length (pkt_mem pkt));
  }.

Lemma set_tuple_fine tuple pkt : ends_ok tuple -> pkt_fine pkt -> pkt_fine (set_tuple tuple pkt).
Proof. intros [_ Ht] []. by split. Qed.

Lemma wp_process_known t hdr pkt p tuple is_tx s :
  rest_ok s -> (tuple, p) ∈ connections s -> @inv (told_but (table_set s) p) t (table_set s) (lp_pd s) ->
  parsed_ok pkt -> ipproto tuple = ipproto (pkt_tuple pkt) ->
  wp (process_packet hdr pkt p tuple is_tx) (fun _ => lp_inv t) s.
Proof.
  intros Hr Hin Hi [Hpkt _ Htcp] Hproto_eq. pose proof (table_ends _ _ _ Hr Hin) as Hends.
  pose proof (in_table _ _ _ Hin) as Hp. pose proof (set_tuple_fine _ _ Hends Hpkt) as Hpkt'.
  set (T := told_but (table_set s) p) in *. unfold process_packet. cbv zeta.
  wp_step. apply wp_in_pd. wp_step. wp_step.
  eapply (wp_in_pd_safe T t (table_set s)); [by eapply safe_keeps; [exact Hp|keep]|exact Hi|].
  intros [] pd1 Hi1. wp_step. apply wp_in_pd. eapply wp_mono.
  { apply (wp_process_packet Hproto Hstrdup Hrealloc t (table_set s)); [exact Hpkt'|apply Hends|exact Hp|exact Hi1]. }
  intros px pd2 (Epx & Hi2 & _). wp_step.
  match goal with |- wp _ _ ?x => set (s1 := x) end.
  assert (Hset : table_set s1 = table_set s) by done.
  eapply wp_mono.
  { apply (wp_update_status T t tuple p (set_tuple tuple pkt) is_tx s1); rewrite ?Hset; [exact Hi2|exact Hp|exact Hpkt'|].
    intros Hf Hpr. apply Htcp; [done|congruence]. }
  intros [] s2 [Hs2 Hcase]. apply wp_in_pd.
  assert (Hpx : px_data px = p) by (by rewrite Epx).
  assert (Hpp : pkt_fine (px_pkt px)) by (by rewrite Epx).
  assert (Hpt : ip_ok (dst_ip (px_tuple px))) by (rewrite Epx; apply Hends).
  destruct Hcase as [[Hc2 Hi3]|(Hc2 & pd0 & Hre)].
  - eapply wp_mono.
    { apply (wp_account_told Hproto Hstrdup Hrealloc px Hpp Hpt T (told_in (table_set s)) t (table_set s));
        [|exact Hi3|by rewrite Hpx]. rewrite Hpx. intros q Hq. destruct (decide (q = p)); [by right|by left]. }
    intros [] pd3 Hi4. assert (Hset2 : table_set (s2 <| lp_pd := pd3 |>) = table_set s)
      by (unfold table_set; cbn; by rewrite Hc2).
    split; [by rewrite Hset2|]. apply (rest_ok_same s); [done|cbn; by rewrite Hc2; apply Hr|done].
  - change (connections s1) with (connections s) in Hc2. rewrite <-Hpx in Hre. eapply wp_mono.
    { rewrite Hset in Hre.
      exact (wp_account_retired Hproto Hstrdup Hrealloc px Hpp Hpt t (table_set s) pd0 (lp_pd s2) Hre). }
    intros [] pd3 Hi4. destruct (table_delete _ _ _ (ro_table _ Hr) Hin) as (Ht & Hts & _).
    assert (Hset2 : table_set (s2 <| lp_pd := pd3 |>) = table_set s ∖ {[p]})
      by (unfold table_set; cbn; by rewrite Hc2, Hts).
    split; [|apply (rest_ok_same s); [done|cbn; by rewrite Hc2|done]].
    rewrite Hset2. rewrite Hpx in Hi4. change (lp_pd (s2 <| lp_pd := pd3 |>)) with pd3.
    apply (inv_told T); [|exact Hi4].
    intros q [Hq1 Hq2]%elem_of_difference. left. split; [done|]. intros ->. by apply Hq2, elem_of_singleton.
Qed.

(** ** The connection of a packet *)

Lemma ends_swap tuple : ends_ok tuple -> ends_ok (tupleSwapPeers tuple).
Proof. by intros []. Qed.

(** The state between the lookup and the processing: [p] is in the table, and only
    for it the update may be missing. *)
Definition found (t : bool) (p : Z) (tuple : zdtun_5tuple) (s : libpcap) : Prop :=
  rest_ok s /\ (tuple, p) ∈ connections s /\
  @inv (told_but (table_set s) p) t (table_set s) (lp_pd s).

Lemma found_known t s p tuple : lp_inv t s -> HASH_FIND tuple (connections s) = Some p -> found t p tuple s.
Proof.
  intros [Hi Hr] Hf. split; [done|]. split; [by apply HASH_FIND_elem|].
  apply (inv_told (told_in (table_set s))); [|done]. intros q []. by left.
Qed.

Lemma wp_discard t s :
  lp_inv t s -> wp discard_fragment (fun _ s' => lp_inv t s' /\ lp_same s s') s.
Proof.
  intros [Hi Hr]. unfold discard_fragment. apply wp_in_pd. wp_step. split; [|done]. apply lp_inv_pd; [done|].
  by apply (pd_inv_same _ _ (lp_pd s)).
Qed.

Lemma wp_new_conn t hdr u tuple s :
  lp_inv t s -> ends_ok tuple -> HASH_FIND tuple (connections s) = None ->
  wp (new_conn hdr u tuple) (fun r s' => match r with
    | Some p => found t p tuple s'
    | None => lp_inv t s'
    end) s.
Proof.
  intros Hs Hends Hf. pose proof Hs as [Hi Hr]. set (T := told_in (table_set s)) in *.
  assert (Hend : forall pd, @inv T t (table_set s) pd -> lp_inv t (s <| lp_pd := pd |>)).
  { intros pd Hpd. by apply lp_inv_pd. }
  unfold new_conn. wp_step. apply wp_in_pd, wp_ask.
  destruct (a_mem _); cbn [negb]; [|wp_step; by apply Hend, (pd_inv_same _ _ (lp_pd s))].
  wp_step. apply wp_in_pd. eapply (wp_new_connection tuple (proj2 Hends) Hproto Hstrdup Hrealloc t (table_set s)).
  { by apply (pd_inv_same _ _ (lp_pd s)). }
  { destruct Hi as [_ _ _ (n & v & Hw)]. intros Hin. destruct (ow_active _ _ _ _ _ Hw (next_conn (lp_pd s)) Hin) as [o Ho].
    apply own_of_is_Some in Ho. apply (ow_fresh _ _ _ _ _ Hw) in Ho. lia. }
  { intros pd1 Hi1 _. wp_step. by apply Hend. }
  intros p pd1 Hp Hi1 _. wp_step. wp_step.
  match goal with |- wp _ _ ?x => set (s1 := x) end.
  wp_step. apply (wp_mono _ (fun _ s2 => exists pd2, s2 = s1 <| lp_pd := pd2 |> /\
    @inv T t ({[p]} ∪ table_set s) pd2)).
  { destruct (_ =? PCAPD_DLT_LINUX_SLL2); [|wp_step; by exists pd1].
    destruct (ro_buf _ Hr) as [Hb Hlen]. unfold PCAPD_SNAPLEN in Hlen.
    destruct (rd32_is_Some (buffer s) 4) as (i & Ei & _); [lia|lia|done|].
    wp_step. eapply wp_lift; [exact Ei|].
    eapply (wp_in_pd_safe T t ({[p]} ∪ table_set s)); [apply (safe_keeps _ _ p); [set_solver|keep]|exact Hi1|].
    intros [] pd2 Hi2. by exists pd2. }
  intros [] s2 (pd2 & -> & Hi2). wp_step. wp_step. wp_step. apply wp_in_pd. wp_step.
  wp_step. apply wp_in_pd. wp_step. wp_step.
  eapply (wp_in_pd_safe T t ({[p]} ∪ table_set s)); [apply (safe_keeps _ _ p); [set_solver|keep]| |].
  { by apply (pd_inv_same _ _ pd2). }
  intros [] pd3 Hi3. wp_step.
  destruct (table_add (connections s) tuple p (ro_table _ Hr) Hends Hf Hp) as [Hta Hset].
  match goal with |- found _ _ _ ?x => assert (Hset3 : table_set x = {[p]} ∪ table_set s) by exact Hset end.
  split_and!.
  - apply (rest_ok_same s); done.
  - cbn. unfold HASH_ADD. set_solver.
  - rewrite Hset3. apply (inv_told T); [|done]. intros q [Hq1 Hq2]. left. unfold T, told_in. set_solver.
Qed.

Lemma wp_conn_of_packet t hdr u pkt s :
  lp_inv t s -> parsed_ok pkt ->
  wp (conn_of_packet hdr u pkt) (fun r s' => match r with
    | Some (p, tuple, _) => found t p tuple s' /\ ipproto tuple = ipproto (pkt_tuple pkt)
    | None => lp_inv t s'
    end) s.
Proof.
  intros Hs [_ Hends _]. unfold conn_of_packet, find_conn. cbv zeta.
  set (is_tx := test _ _). set (tuple := if is_tx then _ else _).
  assert (Ht : ends_ok tuple) by (unfold tuple; destruct is_tx; [done|by apply ends_swap]).
  assert (Hpr : ipproto tuple = ipproto (pkt_tuple pkt)) by (unfold tuple; by destruct is_tx).
  wp_step. wp_step. wp_step. wp_step. destruct (HASH_FIND tuple _) as [p|] eqn:E1.
  { wp_step. split; [by apply found_known|done]. }
  wp_step. wp_step. wp_step. wp_step. destruct (HASH_FIND (tupleSwapPeers tuple) _) as [p|] eqn:E2.
  { wp_step. split; [by apply found_known|done]. }
  destruct (_ && _).
  { wp_step. eapply wp_mono; [by apply (wp_discard t)|]. intros [] s' [Hs' _]. by wp_step. }
  wp_step. eapply wp_mono; [by apply (wp_new_conn t)|]. intros [p|] s' Hs'; by wp_step.
Qed.

(** ** A packet of the daemon *)

Lemma parsed_in_buffer hdr bytes s pkt :
  let off := get_ip_offset (h_linktype hdr) in
  input_ok hdr bytes -> rest_ok s -> 0 <= off <= h_len hdr ->
  pkt_wf pkt (h_len hdr - off) -> pkt_mem pkt = drop (Z.to_nat off) (buffer s) -> parsed_ok pkt.
Proof.
  intros off [Hb [Hl Hl16]] [_ _ [Hbb Hbl]] Ho Hwf Hmem. unfold PCAPD_SNAPLEN in *.
  pose proof (ip_offset_range (h_linktype hdr)) as Hoff. fold off in Hoff.
  assert (Hlen : Z.of_nat (length (pkt_mem pkt)) = 65535 - off) by (rewrite Hmem, length_drop; lia).
  pose proof Hwf as []. split; [split| |].
  - rewrite Hmem. by apply Forall_drop.
  - lia.
  - lia.
  - lia.
  - lia.
  - done.
  - by split.
  - intros Hf Ht. pose proof (wf_tcp _ _ Hwf Ht Hf). lia.
Qed.

Lemma lp_inv_flag t s b : lp_inv t s -> lp_inv t (s <| has_seen_pcapdroid_trailer := b |>).
Proof. intros [Hi Hr]. split; [done|]. by apply (rest_ok_same s); [|apply Hr|]. Qed.

Lemma wp_trailer_uid t hdr pkt s :
  lp_inv t s -> 0 <= pkt_len pkt -> h_len hdr <= PCAPD_SNAPLEN -> pkt_len pkt <= h_len hdr ->
  wp (trailer_uid hdr pkt) (fun _ => lp_inv t) s.
Proof.
  intros Hs H1 H2 H3. unfold trailer_uid. wp_step. wp_step. unfold PCAPD_SNAPLEN in *.
  destruct (_ && _ && _) eqn:E; [|by wp_step]. apply andb_true_iff in E as [_ E]. apply Z.leb_le in E.
  unfold PcapDump.TRAILER_SIZE in *. rewrite uwrap_id in E by (unfold u_ok; lia). cbv zeta.
  destruct (ro_buf _ (li_rest _ _ Hs)) as [Hb Hl]. unfold PCAPD_SNAPLEN in Hl.
  destruct (rd32_is_Some (buffer s) (h_len hdr - 32)) as (m & Em & _); [lia|lia|done|].
  wp_step. eapply wp_lift; [exact Em|]. destruct (_ =? _); [|by wp_step].
  destruct (rd32_is_Some (buffer s) (h_len hdr - 32 + 4)) as (v & Ev & _); [lia|lia|done|].
  wp_step. eapply wp_lift; [exact Ev|]. wp_step. wp_step. wp_step. by apply lp_inv_flag.
Qed.

Lemma wp_handle_packet t hdr bytes s :
  let off := get_ip_offset (h_linktype hdr) in
  input_ok hdr bytes -> lp_inv t s -> 0 <= off <= h_len hdr ->
  wp (handle_packet hdr off) (fun _ => lp_inv t) s.
Proof.
  intros off Hin Hs Ho. pose proof Hs as [Hi Hr]. pose proof Hr as [_ Hf [Hb Hl]].
  pose proof Hin as [_ [_ Hl16]]. unfold PCAPD_SNAPLEN in *. unfold handle_packet. wp_step. wp_step.
  destruct (zdtun_parse_pkt_run (drop (Z.to_nat off) (buffer s)) (h_len hdr - off)) with (t := id2ports s)
    as (r & t' & E & Ht' & Hrr); [by apply Forall_drop|rewrite length_drop; lia|unfold u_ok; lia|done|].
  wp_step. eapply wp_lift; [exact E|]. wp_step. wp_step. cbn [fst snd].
  match goal with |- wp _ _ ?x => set (s1 := x) end.
  assert (Hs1 : lp_inv t s1).
  { split; [exact Hi|]. split; [apply Hr|exact Ht'|split; [exact Hb|exact Hl]]. }
  destruct r as [e|pkt]; [by wp_step|]. destruct Hrr as [Hwf Hmem].
  pose proof (parsed_in_buffer hdr bytes s pkt Hin Hr Ho Hwf Hmem) as Hpa.
  pose proof (wf_len _ _ Hwf) as Hlen.
  wp_step. eapply wp_mono; [apply (wp_trailer_uid t); [done|lia|unfold PCAPD_SNAPLEN; lia|lia]|]. intros u s2 Hs2.
  cbv zeta. destruct (_ && _ && _).
  { wp_step. eapply wp_mono; [by apply (wp_discard t)|]. intros [] s3 [Hs3 _]. by wp_step. }
  wp_step. eapply wp_mono; [by apply (wp_conn_of_packet t)|]. intros [[[p tuple] is_tx]|] s3 Hs3; [|by wp_step].
  destruct Hs3 as [(Hr3 & Hin3 & Hi3) Hpr]. wp_step. eapply wp_mono; [by apply (wp_process_known t)|].
  intros [] s4 Hs4. by wp_step.
Qed.

(** ** The loop *)

Lemma wp_receive t hdr bytes s :
  input_ok hdr bytes -> lp_inv t s -> wp (receive hdr bytes) (fun _ => lp_inv t) s.
Proof.
  intros Hin Hs. pose proof Hs as [Hi Hr]. pose proof Hr as [Hta Hf [Hb Hl]].
  pose proof Hin as [Hbb [Hlen Hl16]]. unfold PCAPD_SNAPLEN in *.
  unfold receive. wp_step. wp_step. destruct (running (lp_pd s)); cbn [negb]; [|by wp_step].
  wp_step. wp_step. wp_step. apply wp_in_pd. wp_step. cbv zeta.
  match goal with |- wp _ _ ?x => set (s1 := x) end.
  assert (Hr1 : rest_ok s1).
  { split; [exact Hta|exact Hf|]. cbn. split; [apply Forall_app; split; [done|by apply Forall_drop]|].
    rewrite length_app, length_drop. unfold PCAPD_SNAPLEN. lia. }
  assert (Hs1 : lp_inv t s1).
  { split; [|done]. by apply (pd_inv_same _ _ (lp_pd s)). }
  set (off := get_ip_offset (h_linktype hdr)) in *.
  destruct (Z.ltb_spec off 0); [by wp_step|]. destruct (Z.ltb_spec (h_len hdr) off); [by wp_step|].
  wp_step. eapply wp_mono; [apply (wp_handle_packet t hdr bytes); try done; fold off; lia|].
  intros [ok u] s2 Hs2. cbn [fst snd]. wp_step.
  apply (wp_mono _ (fun _ => lp_inv t)); [|intros [] s3 Hs3; by wp_step].
  apply wp_when; intros _; [|done]. wp_step. wp_step.
  destruct (ro_buf _ (li_rest _ _ Hs2)) as [Hb2 Hl2]. unfold PCAPD_SNAPLEN in Hl2.
  eapply (wp_in_pd_safe _ t (table_set s2)); [apply safe_dump_packet|apply Hs2|].
  - split; [by apply Forall_drop|]. rewrite length_drop. lia.
  - intros [] pd3 Hi3. apply lp_inv_pd; [apply Hs2|done].
Qed.

(** An operation of the capture that leaves the table alone. *)
Lemma wp_in_pd_runs {A} t (m : M pcapdroid A) s :
  lp_inv t s -> (forall T : Told, runs t (table_set s) m) -> wp (in_pd m) (fun _ => lp_inv t) s.
Proof.
  intros [Hi Hr] Hm. apply wp_in_pd. eapply wp_mono; [exact (Hm _ _ Hi)|]. intros a pd Hpd. by apply lp_inv_pd.
Qed.

Lemma table_active s : rest_ok s -> active_ok (table_set s) (connections s).
Proof.
  intros Hr. apply Forall_forall. intros [tuple p] Hin. split; [|by eapply in_table].
  by destruct (table_ends s tuple p Hr Hin).
Qed.

Lemma wp_lp_housekeeping t s :
  (t = true -> jni_ok) -> lp_inv t s -> wp lp_housekeeping (fun _ => lp_inv t) s.
Proof.
  intros Hj Hs. unfold lp_housekeeping. wp_step. wp_step. wp_step. eapply wp_mono.
  { apply (wp_in_pd_runs t); [done|]. intros T. apply runs_housekeeping; [done..|]. apply table_active, Hs. }
  intros [] s1 Hs1. wp_step. wp_step. apply wp_when; intros _; [|done].
  wp_step. eapply wp_mono; [by apply wp_lp_purge|]. intros [] s2 [[Hi2 Hr2] _]. wp_step.
  split; [done|]. by apply (rest_ok_same s2); [|apply Hr2|].
Qed.

Lemma wp_turn t input s :
  (t = true -> jni_ok) -> (forall hdr bytes, input = Some (hdr, bytes) -> input_ok hdr bytes) ->
  lp_inv t s -> wp (turn input) (fun _ => lp_inv t) s.
Proof.
  intros Hj Hin Hs. unfold turn. wp_step. eapply wp_mono.
  { apply (wp_in_pd_runs t); [done|]. intros T. apply runs_safe, safe_keeps0, keeps_refresh. }
  intros [] s1 Hs1. wp_step. apply (wp_mono _ (fun _ => lp_inv t)).
  { destruct input as [[hdr bytes]|]; [|by wp_step]. by apply wp_receive; [apply Hin|]. }
  intros more s2 Hs2. apply wp_when; intros _; [|done]. by apply wp_lp_housekeeping.
Qed.
End safe.
End LibpcapSafe.
