(* ===== verification/LibpcapRuns.v ===== *)
(** * Runs of the capture with root

    A run is the start, turns of the loop of [run_libpcap] with whatever the
    daemon sends, the worker of the malware lists and the calls of the Java side
    between them, then the end.  Every run is defined, and what was allocated
    for a connection is freed. *)

From S2P Require Import Prelude CString UtHash ZdtunTypes ZdtunPkt PcapDump PcapSpec PcapSafe PdTypes PdCheck PdNotify PdConn PdProcess PdHouse PdVpn PdJni PdFrame PdOwn PdLife PdSend PdSafe PdVpnSafe PdRetire PdRuns PdCapture Libpcap LibpcapSafe.

Module LibpcapRuns.
Export LibpcapSafe PdRuns.
Import PdCapture ZdtunPkt.

(** ** The steps *)

Inductive lp_op :=
  | LpTurn (input : option (pcapd_hdr * list Z))
  | LpWorker
  | LpJava (j : java_op).

(** The member [vpn] of the union is not read in this mode; the list in it stands
    for whatever its bytes are. *)
Definition vpn_unused : vpn_t := Vpn BLOCK_QUIC_MODE_NEVER (Some bl_empty) false 0 0 false [].

Section steps.
Context `{PdEnv} `{InetPton}.

Definition lp_step (o : lp_op) : M libpcap unit :=
  match o with
  | LpTurn input => s ← getS; whenM (running (lp_pd s)) (turn input)
  | LpWorker => in_pd worker
  | LpJava j => in_pd (run_java j)
  end.
Definition lp_steps (ops : list lp_op) : M libpcap unit := forM ops lp_step.

(** The end of [run_libpcap], then that of [pd_run]. *)
Definition lp_end : M libpcap unit := purge_expired_connections true ;; in_pd pd_stop.

(** [pd_run] up to the loop.  [ready] is the outcome of [zdtun_init], of the
    connection with the daemon and of the iptables commands; [stack] what the
    buffer of [run_libpcap] held before.  A capture that is not ready ends at once. *)
Definition lp_start (cf : pd_config) (prefs : pd_prefs) (file ready : bool) (stack : list Z) :
    option (bool * libpcap) :=
  r ← pd_start prefs (pcapdroid_init cf);
  let s := Lp ((snd r) <| vpn := vpn_unused |>) [] ∅ stack 0 file false in
  if negb (fst r) then Some (false, s) else
  if negb ready then (fun r => (false, snd r)) <$> lp_end s else
  r ← in_pd pd_refresh_time s;
  let s := snd r in
  Some (true, s <| next_purge_ms := u64 (now_ms (lp_pd s) + PERIODIC_PURGE_TIMEOUT_MS) |>).

Definition run_libpcap (cf : pd_config) (prefs : pd_prefs) (file ready : bool) (stack : list Z)
    (ops : list lp_op) : option libpcap :=
  r ← lp_start cf prefs file ready stack;
  if negb (fst r) then Some (snd r) else
  snd <$> (lp_steps ops ;; lp_end) (snd r).
End steps.

(** ** What the steps are given *)

Definition lp_op_ok (o : lp_op) : Prop :=
  match o with
  | LpTurn (Some (hdr, bytes)) => input_ok hdr bytes
  | LpJava j => java_ok j
  | _ => True
  end.
Definition stack_ok (stack : list Z) : Prop := bytes_ok stack /\ Z.of_nat (length stack) = PCAPD_SNAPLEN.

(** The address of a connection is in the table, or waits in an array. *)
Definition lp_kept (p : Z) (s : libpcap) : Prop :=
  p ∈ snd <$> connections s \/
  exists a ss, slots (arr_of a (lp_pd s)) = Some ss /\ p ∈ s_data <$> ss.

Section safe.
Context `{PdEnv} `{HI : InetPton} `{HIok : !InetPtonOk HI} (Henv : env_ok).
Let Hproto := en_proto Henv.
Let Hstrdup := en_strdup Henv.
Let Hrealloc := en_realloc Henv.

Lemma wp_lp_step t o s :
  (t = true -> jni_ok) -> lp_op_ok o -> lp_inv t s -> wp (lp_step o) (fun _ => lp_inv t) s.
Proof.
  intros Hj Ho Hs. destruct o as [input| |j]; cbn [lp_step].
  - wp_step. wp_step. apply wp_when; intros _; [|done]. apply (wp_turn Hproto Hstrdup Hrealloc t); [done| |done].
    by intros hdr bytes ->.
  - apply (wp_in_pd_runs t); [done|]. intros T. by apply runs_worker.
  - apply (wp_in_pd_runs t); [done|]. intros T. by apply runs_java.
Qed.

Lemma wp_lp_steps t ops s :
  (t = true -> jni_ok) -> Forall lp_op_ok ops -> lp_inv t s -> wp (lp_steps ops) (fun _ => lp_inv t) s.
Proof.
  intros Hj Hops. revert s. induction Hops as [|o ops Ho Hops IH]; intros s Hs; [by apply wp_ret|].
  unfold lp_steps. cbn [forM]. wp_step. eapply wp_mono; [by apply (wp_lp_step t)|]. intros [] s1 Hs1. by apply IH.
Qed.

Lemma wp_lp_end t s :
  lp_inv t s -> wp lp_end (fun _ s' => t = true -> conns (lp_pd s') = ∅) s.
Proof.
  intros Hs. unfold lp_end. wp_step. eapply wp_mono; [by apply (wp_lp_purge Hproto Hstrdup Hrealloc t)|].
  intros [] s1 [[Hi1 _] Hnil]. specialize (Hnil eq_refl). apply wp_in_pd.
  assert (He : table_set s1 = ∅) by (unfold table_set; by rewrite Hnil). rewrite He in Hi1.
  eapply wp_mono; [apply (wp_pd_stop Henv t ∅), (inv_told (told_in ∅)); [by intros p []|done]|].
  intros [] pd Hl Ht. apply map_eq. intros p. rewrite lookup_empty. destruct (conns pd !! p) eqn:E; [|done].
  specialize (Hl Ht p (ltac:(by eexists))). set_solver.
Qed.

Lemma lp_start_ok t cf prefs file ready stack :
  a_mem (sys 1) = true -> stack_ok stack ->
  exists ok s, lp_start cf prefs file ready stack = Some (ok, s) /\ (ok = true -> lp_inv t s).
Proof.
  intros Hm [Hb Hl]. unfold lp_start.
  destruct (wp_pd_start Henv cf prefs Hm) as (ok & pd & E & Hs). rewrite E. cbn [mbind option_bind fst snd].
  destruct ok; cbn [negb]; [|by eexists _, _]. specialize (Hs vpn_unused). cbn in Hs.
  set (pd1 := pd <| vpn := vpn_unused |>).
  assert (Hi : @inv told_none true ∅ pd1).
  { apply Hs. split; [by eexists|]. intros l [= <-]. exists []. apply bl_ok_empty. }
  set (s := Lp pd1 [] ∅ stack 0 file false).
  assert (Hs0 : lp_inv t s).
  { split.
    - apply (inv_told told_none); [|by apply inv_weaken].
      intros p Hp. exfalso. revert Hp. change (p ∈ (∅ : gset Z) -> False). set_solver.
    - split; [split; [constructor..]|apply map_Forall_empty|done]. }
  destruct ready; cbn [negb].
  2: { destruct (wp_lp_end t s Hs0) as ([] & s' & -> & _). by eexists _, _. }
  destruct (wp_in_pd_runs t pd_refresh_time s Hs0) as ([] & s1 & E1 & Hs1).
  { intros T. apply runs_safe, safe_keeps0, keeps_refresh. }
  rewrite E1. cbn [mbind option_bind snd]. eexists _, _. split; [done|]. intros _.
  destruct Hs1 as [Hi1 Hr1]. split; [exact Hi1|]. by apply (rest_ok_same s1); [|apply Hr1|].
Qed.

Lemma lp_run_ok t cf prefs file ready stack ops :
  (t = true -> jni_ok) -> a_mem (sys 1) = true -> stack_ok stack -> Forall lp_op_ok ops ->
  exists s, run_libpcap cf prefs file ready stack ops = Some s.
Proof.
  intros Hj Hm Hst Hops. unfold run_libpcap.
  destruct (lp_start_ok t cf prefs file ready stack Hm Hst) as (ok & s & -> & Hs). cbn [mbind option_bind fst snd].
  destruct ok; cbn [negb]; [|by eexists].
  assert (Hw : wp (lp_steps ops ;; lp_end) (fun _ _ => True) s).
  { wp_step. eapply wp_mono; [by apply (wp_lp_steps t); [..|apply Hs]|]. intros [] s1 Hs1.
    eapply wp_mono; [by apply (wp_lp_end t)|done]. }
  destruct Hw as ([] & s' & -> & _). by eexists.
Qed.

Lemma lp_tight_kept s p : lp_inv true s -> is_Some (conns (lp_pd s) !! p) -> lp_kept p s.
Proof.
  intros [Hi _] [c Hc]. destruct (iv_owned _ _ _ Hi) as (news & upds & Ho).
  assert (Hown : own_of p (lp_pd s) = Some (own c)) by (unfold own_of; by rewrite Hc).
  destruct (ow_tight _ _ _ _ _ Ho eq_refl p _ Hown) as [Hpend Hact].
  destruct (decide (p ∈ table_set s)) as [Hin|Hn].
  - left. by apply elem_of_list_to_set in Hin.
  - right. rewrite (Hact Hn) in Hpend. specialize (Hpend eq_refl). unfold ptrs in Hpend.
    rewrite fmap_app in Hpend. apply elem_of_app in Hpend as [Hin|Hin].
    + exists NEW_CONNS, news. split; [|done]. apply arr_rep_slots, Ho.
    + exists CONNS_UPDATES, upds. split; [|done]. apply arr_rep_slots, Ho.
Qed.
End safe.

(** ** The properties *)

(** C4: a run of the capture with root, from its start to its cleanup, ready or not, is
    defined: no connection is used after it was freed, though the loop frees those
    without an update at once, and no access leaves the buffer the packet was read into.
    The frames hold any bytes; they leave the 16 bytes of the buffer that the DNS parser
    reads behind them ([input_ok]), which the code does not check.  As in a capture with
    a VPN, the allocations that are not checked succeed ([env_ok], and the second
    answer, the one of the first allocation), and signed counters wrap around. *)
Theorem libpcap_safe `{PdEnv} `{HI : InetPton} `{!InetPtonOk HI} cf prefs file ready stack ops :
  env_ok -> a_mem (sys 1) = true -> stack_ok stack -> Forall lp_op_ok ops ->
  exists s, run_libpcap cf prefs file ready stack ops = Some s.
Proof. intros He Hm Hst Hops. by apply (lp_run_ok He false). Qed.


(** ** A concrete run *)

#[local] Existing Instance inet_pton_v4.
#[local] Existing Instance inet_pton_v4_ok.

Definition lp_config_ex : pd_config :=
  Config false PAYLOAD_MODE_FULL 0 false true [] true false false false false 0.
(** A DNS query, and its answer. *)
Definition dns_query_ex : list Z :=
  [0x45; 0; 0; 40; 0; 1; 0; 0; 64; 17; 0; 0; 10; 0; 0; 1; 8; 8; 8; 8;
   0x9c; 0x40; 0; 53; 0; 20; 0; 0; 0x12; 0x34; 1; 0; 0; 1; 0; 0; 0; 0; 0; 0].
Definition dns_answer_ex : list Z :=
  [0x45; 0; 0; 40; 0; 1; 0; 0; 64; 17; 0; 0; 8; 8; 8; 8; 10; 0; 0; 1;
   0; 53; 0x9c; 0x40; 0; 20; 0; 0; 0x12; 0x34; 0x81; 0x80; 0; 1; 0; 0; 0; 0; 0; 0].
Definition hdr_ex (flags : Z) : pcapd_hdr := Hdr (1000, 0) 0 10123 40 PCAPD_DLT_RAW flags.

(** The answer closes the connection: the next query opens another one. *)
Definition lp_ops_ex : list lp_op :=
  [LpTurn (Some (hdr_ex 1, dns_query_ex)); LpTurn None; LpTurn (Some (hdr_ex 0, dns_answer_ex));
   LpTurn (Some (hdr_ex 1, dns_query_ex)); LpTurn None;
   LpJava (JBlocklist (ListDescr [Some (str "10")] [] [])); LpWorker; LpTurn None; LpTurn None].
Definition stack_ex : list Z := replicate (Z.to_nat PCAPD_SNAPLEN) 0.

Lemma input_ex_ok flags bytes :
  length bytes = 40%nat -> forallb (fun b => (0 <=? b) && (b <? 256)) bytes = true ->
  input_ok (hdr_ex flags) bytes.
Proof.
  intros Hl Hb. split; [|by rewrite Hl]. unfold bytes_ok. apply Forall_forall. intros b Hin.
  rewrite forallb_forall in Hb. apply list_elem_of_In, Hb, andb_true_iff in Hin as [?%Z.leb_le ?%Z.ltb_lt]. by split.
Defined.
Lemma lp_ops_ex_ok : Forall lp_op_ok lp_ops_ex.
Proof. repeat constructor; try done; by apply input_ex_ok. Defined.
Lemma stack_ex_ok : stack_ok stack_ex.
Proof. split; [by apply Forall_replicate|]. unfold stack_ex. by rewrite length_replicate. Defined.

Lemma libpcap_safe_witness :
  exists s, @run_libpcap (env_ex (fun n => ans_ex (negb (Nat.eqb n 40)) true n)) _ lp_config_ex prefs_ex
    false true stack_ex lp_ops_ex = Some s.
Proof.
  set (ok := fun n => negb (Nat.eqb n 40)).
  exact (@libpcap_safe (env_ex (fun n => ans_ex (ok n) true n)) _ _ lp_config_ex prefs_ex false true stack_ex
    lp_ops_ex (env_ex_ok ok) eq_refl stack_ex_ok lp_ops_ex_ok).
Defined.

Lemma lp_start_ex : exists s, @lp_start calm _ lp_config_ex prefs_ex false true stack_ex = Some (true, s).
Proof.
  destruct (@lp_start_ok calm _ _ (env_ex_ok (fun _ => true)) true lp_config_ex prefs_ex false true stack_ex eq_refl stack_ex_ok)
    as (ok & s & E & _).
  assert (Hb : from_option fst false (@lp_start calm _ lp_config_ex prefs_ex false true []) = true) by (by vm_compute).
  exists s. rewrite E. do 2 f_equal. revert E Hb. unfold lp_start. clear.
  destruct (pd_start _ _) as [[b pd]|]; [|done]. cbn [mbind option_bind fst snd]. by destruct b; intros [= <- _].
Defined.
End LibpcapRuns.
