(* ===== verification/LibpcapUid.v ===== *)
(** * The UID of a packet goes through a file

    The dumper writes the UID of the application in the trailer of each frame; a
    later capture of that file finds it there and gives it to the connection the
    packet opens. *)

From S2P Require Import Prelude CString UtHash ZdtunTypes ZdtunPkt ParseMore PcapDump PcapSpec PcapRead PdTypes PdCheck PdNotify PdConn PdProcess PdHouse PdVpn PdJni PdFrame PdRuns PdBlock PdCapture Libpcap LibpcapSafe LibpcapRuns.

Module LibpcapUid.
Export LibpcapSafe.
Import ZdtunPkt ParseMore PcapSpec PcapRead.

(** ** The trailer of a frame *)

Ltac read_field E := match type of E with
  | mbind _ ?x = Some _ => let F := fresh "F" in destruct x eqn:F; cbn [mbind option_bind] in E; [|done] end.
Lemma read_frame_trailer fr t :
  read_frame fr = Some t ->
  exists m u, 46 <= Z.of_nat (length fr) /\
    rd32 fr (Z.of_nat (length fr) - 32) = Some m /\ bswap32 m = PcapDump.PCAPDROID_TRAILER_MAGIC /\
    rd32 fr (Z.of_nat (length fr) - 28) = Some u /\ bswap32 u = t_uid t.
Proof.
  unfold read_frame. cbv zeta. unfold guard_opt. intros E. set (n := Z.of_nat (length fr)) in *.
  assert (G : 46 <= n) by (destruct (Z.leb_spec 46 n); [done|discriminate E]).
  destruct ((46 <=? n) && _); [|done]. cbn [mbind option_bind] in E.
  read_field E. read_field E. read_field E. destruct (_ =? _) eqn:Em; [|done]. cbn [mbind option_bind] in E.
  apply Z.eqb_eq in Em. read_field E. read_field E. read_field E. read_field E.
  destruct (_ =? Crc32.Crc32.crc_ref _ _); [|done]. cbn [mbind option_bind] in E.
  injection E as <-. by eexists _, _.
Qed.

(** ** A packet of the file *)

Section uid.
Context (appname : Z -> option (list Z)) (snap : Z).
Hypothesis appname_ok : forall u name, appname u = Some name -> bytes_ok name.

(** What the daemon sends of a file: it does not know the UID. *)
Definition file_hdr (ts : Z * Z) (drops flags : Z) (p : packet) : pcapd_hdr :=
  Hdr ts drops (u32 UID_UNKNOWN) (Z.of_nat (length (frame appname p))) PCAPD_DLT_ETHERNET flags.

(** The bytes of the packet are at the start of the buffer. *)
Definition loaded (bytes : list Z) (s : libpcap) : Prop := exists rest, buffer s = bytes ++ rest.

(** The UID that is found: that of the packet, unless the IP header claims so many
    bytes that the packet would go over the trailer. *)
Definition imported_uid (p : packet) (pkt : zdtun_pkt) : Z :=
  if pkt_len pkt <=? 14 + Z.of_nat (length (p_data p)) + frame_pad p then u32 (p_uid p) else u32 UID_UNKNOWN.

Lemma length_frame p : Z.of_nat (length (frame appname p)) = 46 + Z.of_nat (length (p_data p)) + frame_pad p.
Proof. pose proof (length_frame_head appname p). unfold frame, PcapDump.ETHHDR_SIZE in *. rewrite length_app, length_le_bytes. lia. Qed.

Lemma trailer_uid_frame `{PdEnv} ts drops flags p pkt s (Q : Z -> libpcap -> Prop) :
  packet_ok PcapDump.PCAP_DUMP_WITH_TRAILER snap p -> loaded (frame appname p) s -> pcap_file_capture s = true ->
  0 <= pkt_len pkt <= Z.of_nat (length (frame appname p)) ->
  Q (imported_uid p pkt) s -> Q (imported_uid p pkt) (s <| has_seen_pcapdroid_trailer := true |>) ->
  wlp (trailer_uid (file_hdr ts drops flags p) pkt) Q s.
Proof.
  intros Hp (rest & Hb) Hf Hl Q1 Q2. pose proof (read_frame_spec appname snap appname_ok p Hp) as E.
  apply read_frame_trailer in E as (m & u & Hn & Em & Hm & Eu & Hu). cbn [t_uid view_frame] in Hu.
  unfold trailer_uid. wl. rewrite Hf. cbn [h_uid h_len file_hdr andb]. rewrite Z.eqb_refl. cbn [andb].
  unfold imported_uid in *. rewrite length_frame in *. pose proof (pad4_bound (PcapDump.ETHHDR_SIZE + Z.of_nat (length (p_data p)))) as Hpad.
  fold (frame_pad p) in Hpad. destruct Hp as (_ & Hlen & _). unfold PcapDump.TRAILER_SIZE.
  rewrite uwrap_id by (unfold u_ok; lia).
  destruct (Z.leb_spec 32 (46 + Z.of_nat (length (p_data p)) + frame_pad p - pkt_len pkt)) as [H1|H1].
  2:{ wl. destruct (Z.leb_spec (pkt_len pkt) (14 + Z.of_nat (length (p_data p)) + frame_pad p)); [lia|done]. }
  destruct (Z.leb_spec (pkt_len pkt) (14 + Z.of_nat (length (p_data p)) + frame_pad p)); [|lia].
  cbv zeta. rewrite Hb. apply wlp_bind, wlp_lift. rewrite (rd32_more _ rest _ _ Em). intros ? [= <-]. rewrite Hm, Z.eqb_refl.
  apply wlp_bind, wlp_lift.
  replace (46 + Z.of_nat (length (p_data p)) + frame_pad p - 32 + 4)
    with (46 + Z.of_nat (length (p_data p)) + frame_pad p - 28) by lia.
  rewrite (rd32_more _ rest _ _ Eu). intros ? [= <-]. wl. by rewrite Hu.
Qed.

Lemma handle_packet_uid `{PdEnv} ts drops flags p pkt f s :
  packet_ok PcapDump.PCAP_DUMP_WITH_TRAILER snap p -> loaded (frame appname p) s -> pcap_file_capture s = true ->
  0 <= pkt_len pkt <= Z.of_nat (length (frame appname p)) ->
  zdtun_parse_pkt (drop 14 (buffer s)) (Z.of_nat (length (frame appname p)) - 14) (id2ports s) = Some (inr pkt, f) ->
  wlp (handle_packet (file_hdr ts drops flags p) 14) (fun r _ => snd r = imported_uid p pkt) s.
Proof.
  intros Hp Hl Hf Hlen E. unfold handle_packet. apply wlp_bind, wlp_get, wlp_bind, wlp_lift.
  cbn [h_len file_hdr]. change (Z.to_nat 14) with 14%nat. rewrite E. intros ? [= <-]. wl. cbn [fst snd].
  apply wlp_bind, trailer_uid_frame; [done|done|done|done|..]; cbv zeta.
  all: destruct (_ && _ && _); [apply wlp_bind, wlp_any; intros ? ?; by apply wlp_ret|].
  all: apply wlp_bind, wlp_any; intros [[[q tuple] is_tx]|] ?; [|by apply wlp_ret].
  all: apply wlp_bind, wlp_any; intros ? ?; by apply wlp_ret.
Qed.
End uid.

(** ** The connection it opens *)

Lemma wlp_in_pd {A} (m : M pcapdroid A) (Q : A -> libpcap -> Prop) s :
  wlp m (fun a pd => Q a (s <| lp_pd := pd |>)) (lp_pd s) -> wlp (in_pd m) Q s.
Proof. intros Hm. unfold in_pd. wl. match goal with E : m _ = Some ?r |- _ => destruct r; by apply Hm in E end. Qed.

Definition has_uid (q u : Z) (pd : pcapdroid) : Prop := uid <$> conns pd !! q = Some u.
Lemma wlp_set_uid q u f pd (Q : unit -> pcapdroid -> Prop) :
  has_uid q u pd -> (forall c, uid (f c) = uid c) -> (forall pd', has_uid q u pd' -> Q tt pd') ->
  wlp (set_conn q f) Q pd.
Proof.
  intros Hu Hf HQ. unfold set_conn, conn. wl. apply HQ. unfold has_uid in *. cbn. rewrite lookup_insert_eq. cbn.
  rewrite Hf. match goal with E : conns pd !! q = Some _ |- _ => by rewrite E in Hu end.
Qed.

Lemma new_conn_uid `{PdEnv} hdr u tuple s :
  wlp (new_conn hdr u tuple) (fun r s' => forall q, r = Some q ->
    (tuple, q) ∈ connections s' /\ has_uid q (i32 u) (lp_pd s')) s.
Proof.
  unfold new_conn. apply wlp_bind, wlp_in_pd, wlp_any. intros mem pd0. destruct mem; cbn [negb]; [|by apply wlp_ret].
  apply wlp_bind, wlp_in_pd. eapply wlp_mono; [apply PdBlock.wlp_new_connection|].
  intros [q|] pd1 Hq; [|by apply wlp_ret]. destruct Hq as (m & _ & _ & Hv).
  assert (Hu : has_uid q (i32 u) pd1).
  { unfold has_uid. destruct (conns pd1 !! q) as [c|]; [|done]. cbn in Hv |- *. by injection Hv as _ -> _. }
  apply wlp_bind, wlp_get, wlp_bind. eapply (wlp_mono _ (fun _ s' => has_uid q (i32 u) (lp_pd s'))).
  { destruct (_ =? _); [|by apply wlp_ret]. apply wlp_bind, wlp_lift. intros i _.
    apply wlp_in_pd. by eapply wlp_set_uid; [exact Hu| |]. }
  intros [] s2 Hu2. apply wlp_bind, wlp_modify, wlp_bind, wlp_in_pd, wlp_modify, wlp_bind, wlp_in_pd, wlp_get.
  apply wlp_bind, wlp_in_pd. eapply wlp_set_uid; [exact Hu2|done|]. intros pd3 Hu3. apply wlp_ret.
  intros q' [= <-]. split; [|done]. cbn. unfold HASH_ADD. apply elem_of_app. right. by left.
Qed.

(** ** The property *)

(** C25: the UID the dumper wrote in the trailer of a packet is the one a capture of
    that file uses for it, whatever the application name, the padding and the CRC
    around it, unless the length in the IP header covers the trailer; and a
    connection opened with it belongs to that application. *)
Theorem uid_recovered `{PdEnv} `{HI : InetPton} `{!InetPtonOk HI} appname snap t ts drops flags p pkt f s :
  (forall u name, appname u = Some name -> bytes_ok name) ->
  PdRuns.env_ok -> packet_ok PcapDump.PCAP_DUMP_WITH_TRAILER snap p ->
  lp_inv t s -> pcap_file_capture s = true -> loaded (frame appname p) s ->
  let hdr := file_hdr appname ts drops flags p in
  input_ok hdr (frame appname p) ->
  zdtun_parse_pkt (drop 14 (buffer s)) (h_len hdr - 14) (id2ports s) = Some (inr pkt, f) ->
  (exists ok s', handle_packet hdr 14 s = Some ((ok, imported_uid p pkt), s') /\ lp_inv t s') /\
  forall tuple s1 q s2, new_conn hdr (imported_uid p pkt) tuple s1 = Some (Some q, s2) ->
    (tuple, q) ∈ connections s2 /\ has_uid q (i32 (imported_uid p pkt)) (lp_pd s2).
Proof.
  intros Happ He Hp Hs Hf Hl hdr Hin E. split.
  - destruct (wp_handle_packet (PdRuns.en_proto He) (PdRuns.en_strdup He) (PdRuns.en_realloc He) t hdr (frame appname p) s Hin Hs)
      as ([ok u] & s' & Eh & Hs').
    { change (get_ip_offset _) with 14. cbn. rewrite length_frame. pose proof (pad4_bound (PcapDump.ETHHDR_SIZE + Z.of_nat (length (p_data p)))) as Hpad.
      fold (frame_pad p) in Hpad. lia. }
    exists ok, s'. split; [|done]. change (get_ip_offset _) with 14 in Eh. rewrite Eh. do 3 f_equal.
    refine (handle_packet_uid appname snap Happ ts drops flags p pkt f s Hp Hl Hf _ E _ _ Eh).
    destruct (ro_buf _ (li_rest _ _ Hs)) as [Hb Hlb]. unfold PCAPD_SNAPLEN in Hlb.
    destruct Hin as [_ [Hle H16]]. unfold PCAPD_SNAPLEN in H16. cbn in Hle, H16.
    destruct (zdtun_parse_pkt_run (drop 14 (buffer s)) (h_len hdr - 14)) with (t := id2ports s)
      as (r & f' & E' & _ & Hr).
    { by apply Forall_drop. }
    1, 2: pose proof (pad4_bound (PcapDump.ETHHDR_SIZE + Z.of_nat (length (p_data p)))) as Hpad;
      fold (frame_pad p) in Hpad; pose proof (length_frame appname p); unfold hdr; cbn; rewrite ?length_drop; unfold u_ok; lia.
    { apply (ro_frag _ (li_rest _ _ Hs)). }
    rewrite E in E'. injection E' as <- <-. destruct Hr as [[Hw _ _ _ _ _ _ _ _ _ _ _ _] _]. unfold hdr in Hw. cbn in Hw. lia.
  - intros tuple s1 q s2 En. by apply (new_conn_uid _ _ _ _ _ _ En).
Qed.

(** ** A concrete file *)

Definition exported_ex : packet := Packet 1000 0 10123 LibpcapRuns.dns_query_ex.
Definition frame_ex : list Z := frame (fun _ => Some (str "a.b")) exported_ex.
Definition file_stack_ex : list Z := frame_ex ++ replicate (Z.to_nat (PCAPD_SNAPLEN - Z.of_nat (length frame_ex))) 0.

Lemma lp_start_rest `{PdEnv} `{InetPton} cf prefs file ready stack s :
  LibpcapRuns.lp_start cf prefs file ready stack = Some (true, s) ->
  buffer s = stack /\ pcap_file_capture s = file /\ id2ports s = ∅.
Proof.
  unfold LibpcapRuns.lp_start. destruct (pd_start _ _) as [[ok pd]|]; [|done]. cbn [mbind option_bind fst snd].
  destruct ok, ready; cbn [negb]; [|by destruct (LibpcapRuns.lp_end _)|by intros [= ]..].
  unfold in_pd, liftO, modifyS, getS, mret, M_ret.
  unfold mbind at 2, M_bind. destruct (pd_refresh_time _) as [[[] pd']|]; [|done]. by intros [= <-].
Qed.

#[local] Existing Instance inet_pton_v4.
#[local] Existing Instance inet_pton_v4_ok.

Lemma file_stack_ex_ok : LibpcapRuns.stack_ok file_stack_ex.
Proof.
  split; [|by vm_compute]. apply Forall_app. split; [|by apply Forall_replicate].
  apply (bool_decide_unpack _). by vm_compute.
Defined.
Lemma frame_input_ok ts drops flags :
  input_ok (file_hdr (fun _ => Some (str "a.b")) ts drops flags exported_ex) frame_ex.
Proof.
  split; [apply (bool_decide_unpack _); by vm_compute|]. split; [done|by vm_compute].
Defined.
Lemma exported_ex_ok : packet_ok PcapDump.PCAP_DUMP_WITH_TRAILER 65535 exported_ex.
Proof. split_and!; [apply (bool_decide_unpack _); by vm_compute|by vm_compute|]. intros _. by split; vm_compute. Defined.
Lemma lp_file_start_ex : exists s,
  @LibpcapRuns.lp_start PdCapture.calm _ LibpcapRuns.lp_config_ex PdCapture.prefs_ex true true file_stack_ex = Some (true, s) /\
  lp_inv true s.
Proof.
  destruct (@LibpcapRuns.lp_start_ok PdCapture.calm _ _ (PdCapture.env_ex_ok (fun _ => true)) true LibpcapRuns.lp_config_ex
    PdCapture.prefs_ex true true file_stack_ex eq_refl file_stack_ex_ok) as (ok & s & E & Hs).
  assert (Hb : from_option fst false (@LibpcapRuns.lp_start PdCapture.calm _ LibpcapRuns.lp_config_ex PdCapture.prefs_ex true true []) = true)
    by (by vm_compute).
  assert (Hok : ok = true).
  { revert E Hb. unfold LibpcapRuns.lp_start. clear. destruct (pd_start _ _) as [[b pd]|]; [|done].
    cbn [mbind option_bind fst snd]. by destruct b; intros [= <- _]. }
  exists s. rewrite Hok in E. split; [done|by apply Hs].
Defined.

Lemma uid_recovered_witness : exists pkt f s,
  zdtun_parse_pkt (drop 14 file_stack_ex) (Z.of_nat (length frame_ex) - 14) ∅ = Some (inr pkt, f) /\
  imported_uid exported_ex pkt = 10123 /\
  exists ok s', @handle_packet PdCapture.calm (file_hdr (fun _ => Some (str "a.b")) (1, 0) 0 1 exported_ex) 14 s =
      Some ((ok, imported_uid exported_ex pkt), s') /\ lp_inv true s'.
Proof.
  destruct lp_file_start_ex as (s & E & Hs). destruct (lp_start_rest _ _ _ _ _ _ E) as (Hb & Hf & Hi).
  assert (Hu : match zdtun_parse_pkt (drop 14 file_stack_ex) (Z.of_nat (length frame_ex) - 14) ∅ with
    | Some (inr p, _) => imported_uid exported_ex p =? 10123 | _ => false end = true) by (by vm_compute).
  destruct (zdtun_parse_pkt (drop 14 file_stack_ex) (Z.of_nat (length frame_ex) - 14) ∅) as [[[e|pkt] f]|] eqn:Ep;
    [done| |done].
  exists pkt, f, s. split; [done|]. split; [by apply Z.eqb_eq|].
  refine (proj1 (@uid_recovered PdCapture.calm _ _ (fun _ => Some (str "a.b")) 65535 true (1, 0) 0 1 exported_ex pkt f s
    _ (PdCapture.env_ex_ok (fun _ => true)) exported_ex_ok Hs Hf _ (frame_input_ok _ _ _) _)).
  - intros _ name [= <-]. apply (bool_decide_unpack _). by vm_compute.
  - eexists. exact Hb.
  - rewrite Hb, Hi. exact Ep.
Defined.
End LibpcapUid.
