(* ===== verification/NlUtils.v ===== *)
(** * Netlink (pcapd/nl_utils.c)

    The requests the daemon makes of the kernel, as bytes: the owner of a connection
    from sock_diag, and the route to a public address.  The kernel is an argument: what
    it puts on a socket for the bytes of a request. *)

From S2P Require Import Prelude CString ZdtunTypes UidProc.

Module NlUtils.
Import UidProc.

Definition AF_INET : Z := 2.
Definition AF_INET6 : Z := 10.
Definition ENOENT : Z := 2.
Definition NLM_F_REQUEST : Z := 1.
Definition NLM_F_DUMP : Z := 0x300.
Definition NLMSG_ERROR : Z := 2.
Definition NLMSG_DONE : Z := 3.
Definition SOCK_DIAG_BY_FAMILY : Z := 20.
Definition RTM_NEWLINK : Z := 16.
Definition RTM_DELLINK : Z := 17.
Definition RTM_NEWADDR : Z := 20.
Definition RTM_NEWROUTE : Z := 24.
Definition RTM_GETROUTE : Z := 26.
Definition RTM_NEWRULE : Z := 32.
Definition RTA_DST : Z := 1.
Definition RTA_OIF : Z := 4.
Definition RTA_GATEWAY : Z := 5.

(** [NLMSG_ALIGN] and [RTA_ALIGN] *)
Definition align4 (n : Z) : Z := (n + 3) / 4 * 4.

(** A header of 16 bytes: length, type, flags, sequence number, and no port. *)
Definition nlmsghdr (len type flags seq : Z) : list Z :=
  le_bytes 4 len ++ le_bytes 2 type ++ le_bytes 2 flags ++ le_bytes 4 seq ++ le_bytes 4 0.

(** [recvmsg] writes a datagram, cut at the size of the buffer, at its start. *)
Definition overlay (size : nat) (d buf : list Z) : list Z := take size d ++ drop (length (take size d)) buf.

(** ** The owner of a connection *)

(** The socket: the last sequence number, and what is waiting to be read. *)
Record nl_state := NlState { nl_seq : Z; nl_queue : list (list Z) }.
#[export] Instance eta_nl_state : Eta nl_state := fun s => NlState (nl_seq s) (nl_queue s).

Section diag.
(** What the kernel puts on the socket for a request, [None] when [sendmsg] fails;
    [stack] is what the 512 bytes of [buf] held behind the request. *)
Context (kernel : list Z -> option (list (list Z))) (stack : list Z).

Definition pd_sockaddr : Type := zdtun_ip * Z.
Definition diag_addr (family : Z) (ip : zdtun_ip) : list Z :=
  if family =? AF_INET then take 4 (ip_bytes ip) ++ replicate 12 0 else ip_bytes ip.
(** An [inet_diag_req_v2]: family, protocol, states, ports, addresses, interface and
    cookie. *)
Definition diag_req (family ipproto : Z) (local remote : pd_sockaddr) : list Z :=
  [u8 family; u8 ipproto; 0; 0] ++ le_bytes 4 0xffffffff ++
  le_bytes 2 (snd local) ++ le_bytes 2 (snd remote) ++
  diag_addr family (fst local) ++ diag_addr family (fst remote) ++
  le_bytes 4 0 ++ le_bytes 4 0xffffffff ++ le_bytes 4 0xffffffff.
Definition diag_request (req : list Z) (flags seq : Z) : list Z :=
  nlmsghdr 72 SOCK_DIAG_BY_FAMILY flags seq ++ req.

Definition sendmsg (req : list Z) : M nl_state bool :=
  match kernel req with
  | None => mret false
  | Some replies => modifyS (fun s => s <| nl_queue ::= fun q => q ++ replies |>) ;; mret true
  end.
(** It waits when nothing was sent: the model has no result then. *)
Definition recvmsg (buf : list Z) : M nl_state (Z * list Z) :=
  s ← getS;
  match nl_queue s with
  | [] => ub
  | d :: q =>
      putS (s <| nl_queue := q |>) ;;
      mret (Z.of_nat (length (take 512 d)), overlay 512 d buf)
  end.

(** The reply, once it has the sequence number of the request. *)
Definition diag_result (buf : list Z) : option Z :=
  len ← rd32 buf 0; type ← rd16 buf 4;
  if type =? NLMSG_ERROR then
    if 36 <=? len then
      err ← rd32 buf 16;
      Some (if - i32 err =? ENOENT then UID_UNKNOWN else -6)
    else Some (-6)
  else if type =? NLMSG_DONE then Some UID_UNKNOWN
  else if len <? 88 then Some (-7)
  else i32 <$> rd32 buf 80.
(** From the label [retry] on; [do_retry] is 1, then 0. *)
Fixpoint recv_diag (do_retry : nat) (buf : list Z) (seq : Z) : M nl_state Z :=
  r ← recvmsg buf;
  let '(rv, buf) := (r : Z * list Z) in
  if rv <=? 0 then mret (-3) else
  len ← liftO (rd32 buf 0);
  if (len <? 16) || (rv <? len) then mret (-4) else
  nseq ← liftO (rd32 buf 8);
  if nseq =? seq then liftO (diag_result buf)
  else match do_retry with
       | S n => if nseq =? u32 (seq - 1) then recv_diag n buf seq else mret (-5)
       | O => mret (-5)
       end.
(** The counter is an [int] that is only compared with a [u32]. *)
Definition diag_uid_lookup (family ipproto : Z) (local remote : pd_sockaddr) (flags : Z) : M nl_state Z :=
  modifyS (fun s => s <| nl_seq ::= fun n => u32 (n + 1) |>) ;;
  s ← getS;
  let req := diag_request (diag_req family ipproto local remote) flags (nl_seq s) in
  sent ← sendmsg req;
  if negb sent then mret (-2) else recv_diag 1 (req ++ stack) (nl_seq s).

(** A socket of its own, closed at the end. *)
Definition nl_is_diag_working : M nl_state bool :=
  s ← getS;
  putS (s <| nl_queue := [] |>) ;;
  let wildcard := (ip_zero, 0) in
  rv ← diag_uid_lookup AF_INET IPPROTO_UDP wildcard wildcard (NLM_F_REQUEST .| NLM_F_DUMP);
  modifyS (fun s' => s' <| nl_queue := nl_queue s |>) ;;
  mret (0 <=? rv).

Definition nl_get_uid (tuple : zdtun_5tuple) : M nl_state Z :=
  let family := if ipver tuple =? 4 then AF_INET else AF_INET6 in
  let udp := ipproto tuple =? IPPROTO_UDP in
  let src := (src_ip tuple, src_port tuple) in
  let dst := (dst_ip tuple, dst_port tuple) in
  let local := if udp then dst else src in
  let remote := if udp then src else dst in
  let wildcard := (ip_zero, 0) in
  uid ← diag_uid_lookup family (ipproto tuple) local remote NLM_F_REQUEST;
  if negb (uid =? UID_UNKNOWN) then mret uid else
  uid ← (if family =? AF_INET then diag_uid_lookup AF_INET6 (ipproto tuple) local remote NLM_F_REQUEST
         else mret UID_UNKNOWN);
  if negb (uid =? UID_UNKNOWN) then mret uid else
  if udp then
    uid ← diag_uid_lookup family (ipproto tuple) src wildcard (NLM_F_REQUEST .| NLM_F_DUMP);
    if negb (uid =? UID_UNKNOWN) then mret uid else
    if family =? AF_INET then
      diag_uid_lookup AF_INET6 (ipproto tuple) src wildcard (NLM_F_REQUEST .| NLM_F_DUMP)
    else mret UID_UNKNOWN
  else mret UID_UNKNOWN.
End diag.

(** ** The route *)

(** A request is a header, an [rtmsg] of 12 bytes and the attribute of the destination;
    its length counts a header in the place of the [rtmsg]. *)
Definition INADDR_ANY : Z := 0.
Definition route_request (af : Z) (addr : list Z) (seq : Z) : list Z :=
  let alen := if af =? AF_INET then 4 else 16 in
  let dst := if (af =? AF_INET) && (le_val (take 4 addr) =? INADDR_ANY) then [0x60; 0x06; 0x06; 0x06] else addr in
  let body := nlmsghdr (32 + 4 + alen) RTM_GETROUTE NLM_F_REQUEST seq ++
    [u8 af; u8 (alen * 8)] ++ replicate 10 0 ++
    le_bytes 2 (4 + alen) ++ le_bytes 2 RTA_DST ++ dst in
  body ++ replicate (512 - length body) 0.

(** The attributes from [p] on, [i] bytes of them: the value returned, the index and
    the gateway. *)
Fixpoint rta_loop (fuel : nat) (alen : nat) (buf : list Z) (p i : Z) (rv : Z) (ifidx : Z) (gw : list Z) :
    option (Z * Z * list Z) :=
  if i <? 4 then Some (rv, ifidx, gw) else
  rta_len ← rd16 buf p;
  if (rta_len <? 4) || (i <? rta_len) then Some (rv, ifidx, gw) else
  match fuel with
  | O => None
  | S fuel =>
      type ← rd16 buf (p + 2);
      let next := rta_loop fuel alen buf (p + align4 rta_len) (i - align4 rta_len) in
      if type =? RTA_GATEWAY then
        gw ← rdn alen buf (p + 4);
        next rv ifidx gw
      else if type =? RTA_OIF then
        oif ← rd32 buf (p + 4);
        next 0 (i32 oif) gw
      else next rv ifidx gw
  end.
(** [kernel] is what is received for a request, on a socket of its own, [None] when
    the socket, [sendmsg] or [recvmsg] fails.  The result is the value returned,
    [ifidx], which is -1 before, and the gateway. *)
Definition nl_get_route (kernel : list Z -> option (list Z)) (af : Z) (addr : list Z) (seq : Z) : option (Z * Z * list Z) :=
  let alen := if af =? AF_INET then 4%nat else 16%nat in
  let req := route_request af addr seq in
  match kernel (take (36 + alen) req) with
  | None | Some [] => Some (-1, -1, [])
  | Some d =>
      let i := Z.of_nat (length (take 512 d)) in
      let buf := overlay 512 d req in
      len ← rd32 buf 0; nseq ← rd32 buf 8; type ← rd16 buf 4;
      if (len <? 16) || (i <? len) || negb (nseq =? seq) || (type =? NLMSG_ERROR) then Some (-1, -1, [])
      else rta_loop 128 alen buf 28 (i - 32) (-1) (-1) []
  end.

End NlUtils.
