(* ===== verification/NlSpec.v ===== *)
(** * What netlink answers

    The replies the kernel documents for sock_diag (sock_diag(7)) and for a route
    (rtnetlink(7)), and what the daemon makes of them. *)

From S2P Require Import Prelude CString ZdtunTypes UidProc PcapRead NlUtils.

Module NlSpec.
Export NlUtils.
Import UidProc PcapRead.

(** ** Replies of sock_diag *)

(** A datagram begins with a message of the type and the sequence number, all of it
    within the 512 bytes that are read. *)
Record msg_at (len type seq : Z) (d : list Z) : Prop := {
    ma_len : rd32 d 0 = Some len;
    ma_type : rd16 d 4 = Some type;
    ma_seq : rd32 d 8 = Some seq;
    ma_fits : 16 <= len <= Z.min 512 (Z.of_nat (length d));
  }.

(** What the kernel says of a request: the owner of the socket it found, that there is
    none, another error, or that the request is not even taken. *)
Inductive kanswer := Found (uid : Z) | NotFound | Refused (errno : Z) | NotSent.
#[export] Instance kanswer_eq_dec : EqDecision kanswer.
Proof. solve_decision. Defined.
Definition result_of (a : kanswer) : Z :=
  match a with Found uid => uid | NotFound => UID_UNKNOWN | Refused _ => -6 | NotSent => -2 end.

Definition diag_msg (seq uid : Z) (d : list Z) : Prop :=
  exists len type, msg_at len type seq d /\ 88 <= len /\ type <> NLMSG_ERROR /\ type <> NLMSG_DONE /\
    rd32 d 80 = Some uid /\ 0 <= uid < 2 ^ 31.
Definition error_msg (seq errno : Z) (d : list Z) : Prop :=
  exists len, msg_at len NLMSG_ERROR seq d /\ 36 <= len /\ rd32 d 16 = Some (u32 (- errno)) /\ 0 < errno < 2 ^ 31.
Definition done_msg (seq : Z) (d : list Z) : Prop := exists len, msg_at len NLMSG_DONE seq d.

(** A dump ends with a message of its own, in another datagram when a socket was
    found: the first message of the first datagram is that of the first socket. *)
Inductive kernel_reply (seq : Z) : bool -> kanswer -> option (list (list Z)) -> Prop :=
  | kr_found uid d : diag_msg seq uid d -> kernel_reply seq false (Found uid) (Some [d])
  | kr_none d : error_msg seq ENOENT d -> kernel_reply seq false NotFound (Some [d])
  | kr_dump uid d e : diag_msg seq uid d -> done_msg seq e -> kernel_reply seq true (Found uid) (Some [d; e])
  | kr_dump_none e : done_msg seq e -> kernel_reply seq true NotFound (Some [e])
  | kr_refused dump errno d : error_msg seq errno d -> errno <> ENOENT -> kernel_reply seq dump (Refused errno) (Some [d])
  | kr_unsent dump : kernel_reply seq dump NotSent None.

Definition diag_flags (dump : bool) : Z := if dump then NLM_F_REQUEST .| NLM_F_DUMP else NLM_F_REQUEST.
(** The kernel answers as [owner] says of the body of the request. *)
Definition kernel_ok (kernel : list Z -> option (list (list Z))) (owner : bool -> list Z -> kanswer) : Prop :=
  forall req dump seq, u_ok 32 seq -> kernel_reply seq dump (owner dump req) (kernel (diag_request req (diag_flags dump) seq)).

(** ** Reading a reply *)

Lemma rdn_prefix n d rest off : off + Z.of_nat n <= Z.of_nat (length d) -> rdn n (d ++ rest) off = rdn n d off.
Proof.
  intros Hl. unfold rdn. destruct (Z.leb_spec 0 off); cbn [andb]; [|done].
  destruct (Z.leb_spec (off + Z.of_nat n) (Z.of_nat (length d))); [|lia].
  destruct (Z.leb_spec (off + Z.of_nat n) (Z.of_nat (length (d ++ rest)))); [|rewrite length_app in *; lia].
  f_equal. rewrite drop_app_le, take_app_le; [done|rewrite length_drop; lia|lia].
Qed.
Lemma rdn_of_take n d k off : off + Z.of_nat n <= Z.of_nat k -> rdn n (take k d) off = rdn n d off.
Proof.
  intros Hk. destruct (decide (k <= length d)%nat) as [Hle|Hgt]; [|by rewrite take_ge by lia].
  rewrite <-(take_drop k d) at 2. symmetry. apply rdn_prefix. rewrite length_take. lia.
Qed.
Lemma rdn_overlay n d buf off v :
  off + Z.of_nat n <= 512 -> rdn n d off = Some v -> rdn n (overlay 512 d buf) off = Some v.
Proof.
  intros Hoff E. unfold overlay. rewrite rdn_prefix.
  - rewrite rdn_of_take by (change (Z.of_nat 512) with 512; lia). done.
  - unfold rdn in E. destruct (_ && _) eqn:Eb; [|done]. apply andb_prop in Eb as [_ Hb%Z.leb_le]. rewrite length_take. lia.
Qed.
Lemma rd32_overlay d buf off v : off + 4 <= 512 -> rd32 d off = Some v -> rd32 (overlay 512 d buf) off = Some v.
Proof.
  intros Hoff. unfold rd32. destruct (rdn 4 d off) as [bs|] eqn:E; [|done]. by rewrite (rdn_overlay 4 d buf off bs Hoff E).
Qed.
Lemma rd16_overlay d buf off v : off + 2 <= 512 -> rd16 d off = Some v -> rd16 (overlay 512 d buf) off = Some v.
Proof.
  intros Hoff. unfold rd16. destruct (rdn 2 d off) as [bs|] eqn:E; [|done]. by rewrite (rdn_overlay 2 d buf off bs Hoff E).
Qed.

Section reply.
Context (kernel : list Z -> option (list (list Z))) (stack : list Z).

(** Only the sequence number of a message decides whether it is taken. *)
Lemma wp_recv_diag do_retry buf seq len type seq' d q r (Q : Z -> nl_state -> Prop) :
  nl_queue r = d :: q -> msg_at len type seq' d ->
  wp (if seq' =? seq then liftO (diag_result (overlay 512 d buf))
      else match do_retry with
           | S n => if seq' =? u32 (seq - 1) then recv_diag n (overlay 512 d buf) seq else mret (-5)
           | O => mret (-5)
           end) Q (r <| nl_queue := q |>) ->
  wp (recv_diag do_retry buf seq) Q r.
Proof.
  intros Hq [H1 H2 H3 H4] HQ.
  assert (E : recvmsg buf r = Some ((Z.of_nat (length (take 512 d)), overlay 512 d buf), r <| nl_queue := q |>))
    by (unfold recvmsg; rewrite bind_get, Hq; done).
  assert (Hrv : Z.of_nat (length (take 512 d)) = Z.min 512 (Z.of_nat (length d))) by (rewrite length_take; lia).
  destruct do_retry as [|n]; cbn [recv_diag]; apply wp_bind; (eapply wp_eq; [exact E|]); rewrite Hrv.
  all: destruct (Z.leb_spec (Z.min 512 (Z.of_nat (length d))) 0); [lia|]; apply wp_bind.
  all: (eapply wp_lift; [apply rd32_overlay; [lia|exact H1]|]).
  all: destruct (Z.ltb_spec len 16); [lia|]; destruct (Z.ltb_spec (Z.min 512 (Z.of_nat (length d))) len); [lia|].
  all: cbn [orb]; apply wp_bind; (eapply wp_lift; [apply rd32_overlay; [lia|exact H3]|]); exact HQ.
Qed.

(** The value of each kind of message. *)
Lemma diag_result_msg seq uid d buf : diag_msg seq uid d -> diag_result (overlay 512 d buf) = Some uid.
Proof.
  intros (len & type & [H1 H2 _ H4] & Hl & He & Hd & Hu & Hb). unfold diag_result.
  rewrite (rd32_overlay d buf 0 len) by (lia || done). cbn [mbind option_bind].
  rewrite (rd16_overlay d buf 4 type) by (lia || done). cbn [mbind option_bind].
  destruct (Z.eqb_spec type NLMSG_ERROR); [done|]. destruct (Z.eqb_spec type NLMSG_DONE); [done|].
  destruct (Z.ltb_spec len 88); [lia|]. rewrite (rd32_overlay d buf 80 uid) by (lia || done).
  cbn [fmap option_fmap option_map]. f_equal. apply iwrap_id; lia.
Qed.
Lemma diag_result_error seq errno d buf : error_msg seq errno d ->
  diag_result (overlay 512 d buf) = Some (if errno =? ENOENT then UID_UNKNOWN else -6).
Proof.
  intros (len & [H1 H2 _ H4] & Hl & He & Hb). unfold diag_result.
  rewrite (rd32_overlay d buf 0 len) by (lia || done). cbn [mbind option_bind].
  rewrite (rd16_overlay d buf 4 NLMSG_ERROR) by (lia || done). cbn [mbind option_bind]. rewrite Z.eqb_refl.
  destruct (Z.leb_spec 36 len); [|lia]. rewrite (rd32_overlay d buf 16 (u32 (- errno))) by (lia || done). cbn [mbind option_bind].
  assert (Hi : i32 (u32 (- errno)) = - errno).
  { unfold i32, u32, iwrap, uwrap. rewrite Zplus_mod_idemp_l, Z.mod_small by (cbn; lia). lia. }
  by rewrite Hi, Z.opp_involutive.
Qed.
Lemma diag_result_done seq d buf : done_msg seq d -> diag_result (overlay 512 d buf) = Some UID_UNKNOWN.
Proof.
  intros (len & [H1 H2 _ H4]). unfold diag_result.
  rewrite (rd32_overlay d buf 0 len) by (lia || done). cbn [mbind option_bind].
  by rewrite (rd16_overlay d buf 4 NLMSG_DONE) by (lia || done).
Qed.
End reply.

(** ** The owner of a connection *)

(** Between two requests: nothing waits, or the end of the last dump. *)
Definition calm (s : nl_state) : Prop :=
  u_ok 32 (nl_seq s) /\ (nl_queue s = [] \/ exists d, nl_queue s = [d] /\ done_msg (nl_seq s) d).

(** The requests made for a connection, in order. *)
Definition queries (t : zdtun_5tuple) : list (bool * list Z) :=
  let v4 := ipver t =? 4 in
  let udp := ipproto t =? IPPROTO_UDP in
  let src := (src_ip t, src_port t) in
  let dst := (dst_ip t, dst_port t) in
  let ask dump family local remote := (dump, diag_req family (ipproto t) local remote) in
  let both dump local remote :=
    if v4 then [ask dump AF_INET local remote; ask dump AF_INET6 local remote] else [ask dump AF_INET6 local remote] in
  both false (if udp then dst else src) (if udp then src else dst) ++
  (if udp then both true src (ip_zero, 0) else []).
Section owner.
Context (owner : bool -> list Z -> kanswer).
Fixpoint first_answer (qs : list (bool * list Z)) : kanswer :=
  match qs with
  | [] => NotFound
  | (dump, req) :: qs => match owner dump req with NotFound => first_answer qs | a => a end
  end.

Context (kernel : list Z -> option (list (list Z))) (stack : list Z).
Hypothesis kernel_spec : kernel_ok kernel owner.

Lemma wp_diag_uid_lookup family ipproto local remote dump s :
  calm s ->
  wp (diag_uid_lookup kernel stack family ipproto local remote (diag_flags dump)) (fun v s' =>
    let a := owner dump (diag_req family ipproto local remote) in
    u_ok 32 (nl_seq s') /\ (a = NotSent \/ calm s') /\ v = result_of a /\ (v = UID_UNKNOWN <-> a = NotFound)) s.
Proof.
  intros [Hs Hq]. unfold diag_uid_lookup. wp_step. wp_step. wp_step. wp_step.
  set (s1 := s <| nl_seq ::= fun n => u32 (n + 1) |>). set (seq := nl_seq s1).
  assert (Hseq : u_ok 32 seq) by (apply uwrap_ok; lia).
  assert (Hprev : u32 (seq - 1) = nl_seq s).
  { unfold seq, s1. cbn. rewrite <-Z.add_opp_r, uwrap_add_l, <-Z.add_assoc, Z.add_0_r. by apply uwrap_id. }
  assert (Hne : nl_seq s <> seq).
  { unfold seq, s1, uwrap. cbn. pose proof Hs as [H1 H2]. destruct (decide (nl_seq s + 1 = 2 ^ 32)) as [E|].
    - rewrite E, Z.mod_same by done. lia.
    - rewrite Z.mod_small; lia. }
  cbv zeta. set (req := diag_req family ipproto local remote). set (buf := _ ++ stack).
  unfold sendmsg. specialize (kernel_spec req dump seq Hseq). fold seq. set (a := owner dump req) in *. wp_step.
  (* what is left of the last dump is read and skipped *)
  assert (Hread : forall replies Q, (forall b s2, nl_queue s2 = replies -> nl_seq s2 = seq -> forall n, wp (recv_diag n b seq) Q s2) ->
    wp (recv_diag 1 buf seq) Q (s1 <| nl_queue ::= fun q => q ++ replies |>)).
  { intros replies Q HQ. destruct Hq as [Hq|(d & Hq & Hd)].
    - apply HQ; [cbn; by rewrite Hq|done].
    - destruct Hd as (len & Hd). eapply (wp_recv_diag 1 buf seq len NLMSG_DONE (nl_seq s) d replies); [cbn; by rewrite Hq|done|].
      destruct (Z.eqb_spec (nl_seq s) seq); [done|]. rewrite Hprev, Z.eqb_refl. by apply HQ. }
  assert (Hlast : forall len type d n b s2 q v, msg_at len type seq d -> nl_queue s2 = d :: q -> nl_seq s2 = seq ->
    (forall b, diag_result (overlay 512 d b) = Some v) -> (q = [] \/ exists e, q = [e] /\ done_msg seq e) ->
    wp (recv_diag n b seq) (fun v' s' => calm s' /\ v' = v) s2).
  { intros len type d n b s2 q v Hm Hq2 Hs2 Hv Hrest. eapply wp_recv_diag; [exact Hq2|exact Hm|]. rewrite Z.eqb_refl.
    eapply wp_lift; [by apply Hv|]. split; [|done]. split; cbn; rewrite Hs2; done. }
  assert (Hend : forall m v, (v = UID_UNKNOWN <-> a = NotFound) -> v = result_of a ->
    wp m (fun v' s' => calm s' /\ v' = v) (s1 <| nl_queue ::= fun q => q ++ default [] (kernel (diag_request req (diag_flags dump) seq)) |>) ->
    wp m (fun v s' => u_ok 32 (nl_seq s') /\ (a = NotSent \/ calm s') /\ v = result_of a /\ (v = UID_UNKNOWN <-> a = NotFound))
      (s1 <| nl_queue ::= fun q => q ++ default [] (kernel (diag_request req (diag_flags dump) seq)) |>)).
  { intros m v Hiff Hr Hm. eapply wp_mono; [exact Hm|]. intros v' s' [Hc ->]. split; [by destruct Hc|]. split; [by right|done]. }
  destruct kernel_spec as [uid d Hd|d Hd|uid d e Hd He|e He|dump errno d Hd Hne'|dump].
  1-5: wp_step; wp_step; wp_step; cbn [negb]; cbn [default] in Hend.
  - apply (Hend _ uid); [|done|].
    + split; [|done]. destruct Hd as (? & ? & _ & _ & _ & _ & _ & ?). unfold UID_UNKNOWN. lia.
    + apply Hread. intros b s2 H1 H2 n. pose proof Hd as (len & type & Hm & _). eapply Hlast; [done..| |by left].
      intros b'. by eapply diag_result_msg.
  - apply (Hend _ UID_UNKNOWN); [done|done|]. apply Hread. intros b s2 H1 H2 n. pose proof Hd as (len & Hm & _).
    eapply Hlast; [done..| |by left]. intros b'. by rewrite (diag_result_error _ _ _ b' Hd).
  - apply (Hend _ uid); [|done|].
    + split; [|done]. destruct Hd as (? & ? & _ & _ & _ & _ & _ & ?). unfold UID_UNKNOWN. lia.
    + apply Hread. intros b s2 H1 H2 n. pose proof Hd as (len & type & Hm & _). eapply Hlast; [done..| |right; by exists e].
      intros b'. by eapply diag_result_msg.
  - apply (Hend _ UID_UNKNOWN); [done|done|]. apply Hread. intros b s2 H1 H2 n. pose proof He as (len & Hm).
    eapply Hlast; [done..| |by left]. intros b'. by eapply diag_result_done.
  - apply (Hend _ (-6)); [done|done|]. apply Hread. intros b s2 H1 H2 n. pose proof Hd as (len & Hm & _).
    eapply Hlast; [done..| |by left]. intros b'. rewrite (diag_result_error _ _ _ b' Hd). by destruct (Z.eqb_spec errno ENOENT).
  - wp_step. cbn [negb]. wp_step. split; [done|]. split; [by left|done].
Qed.

Lemma wp_nl_get_uid t s :
  calm s -> wp (nl_get_uid kernel stack t) (fun v s' =>
    let a := first_answer (queries t) in (a = NotSent \/ calm s') /\ v = result_of a) s.
Proof.
  intros Hs. unfold nl_get_uid, queries. cbv zeta.
  set (src := (src_ip t, src_port t)). set (dst := (dst_ip t, dst_port t)). set (udp := ipproto t =? IPPROTO_UDP).
  set (local := if udp then dst else src). set (remote := if udp then src else dst).
  (* one request, and what follows it *)
  assert (Hask : forall dump family l r (k : Z -> M nl_state Z) qs s, calm s ->
    (forall s', calm s' -> wp (k UID_UNKNOWN) (fun v s' => (first_answer qs = NotSent \/ calm s') /\ v = result_of (first_answer qs)) s') ->
    (forall v s', v <> UID_UNKNOWN -> wp (k v) (fun v' s'' => v' = v /\ s'' = s') s') ->
    wp (uid ← diag_uid_lookup kernel stack family (ipproto t) l r (diag_flags dump); k uid)
      (fun v s' => let a := first_answer ((dump, diag_req family (ipproto t) l r) :: qs) in (a = NotSent \/ calm s') /\ v = result_of a) s).
  { intros dump family l r k qs s0 Hs0 Hnone Hsome. cbv zeta. cbn [first_answer]. apply wp_bind.
    eapply wp_mono; [by apply wp_diag_uid_lookup|]. cbv zeta. intros v s1 (_ & Hc & Hv & Hiff).
    destruct (decide (owner dump (diag_req family (ipproto t) l r) = NotFound)) as [E|E].
    - rewrite E in *. assert (v = UID_UNKNOWN) as -> by (by apply Hiff). apply Hnone. by destruct Hc.
    - eapply wp_mono; [apply Hsome; by rewrite Hiff|]. intros v' s2 [-> ->].
      destruct (owner dump _) as [u| |e|]; [split; [by destruct Hc as [|?]; [done|right]|done]|done|..].
      all: (split; [by destruct Hc; [left|right]|done]). }
  assert (Hstop : forall (v : Z) (m : M nl_state Z) s', v <> UID_UNKNOWN ->
    wp (if negb (v =? UID_UNKNOWN) then mret v else m) (fun v' s'' => v' = v /\ s'' = s') s').
  { intros v m s' Hv. destruct (Z.eqb_spec v UID_UNKNOWN); [done|]. by apply wp_ret. }
  assert (Hend : forall dump family l r s0, calm s0 ->
    wp (diag_uid_lookup kernel stack family (ipproto t) l r (diag_flags dump))
      (fun v s' => let a := first_answer [(dump, diag_req family (ipproto t) l r)] in (a = NotSent \/ calm s') /\ v = result_of a) s0).
  { intros dump family l r s0 Hs0. eapply wp_mono; [by apply wp_diag_uid_lookup|]. cbv zeta. intros v s1 (_ & Hc & Hv & _). cbn [first_answer].
    by destruct (owner dump _). }
  change (NLM_F_REQUEST .| NLM_F_DUMP) with (diag_flags true). change NLM_F_REQUEST with (diag_flags false).
  destruct (ipver t =? 4), udp; cbn [app];
    (apply Hask; [done|intros s1 H1; cbn [negb Z.eqb UID_UNKNOWN Pos.eqb]|intros v s' Hv; by apply Hstop]).
  - change (AF_INET =? AF_INET) with true. cbv iota. apply Hask; [done|intros s2 H2; cbn [negb Z.eqb UID_UNKNOWN Pos.eqb]|intros v s' Hv; by apply Hstop].
    apply Hask; [done|intros s3 H3; cbn [negb Z.eqb UID_UNKNOWN Pos.eqb]|intros v s' Hv; by apply Hstop]. by apply Hend.
  - change (AF_INET =? AF_INET) with true. cbv iota. apply Hask; [done|intros s2 H2|intros v s' Hv; by apply Hstop].
    apply wp_ret. split; [by right|done].
  - change (AF_INET6 =? AF_INET) with false. cbv iota. wp_step. wp_step. cbn [negb Z.eqb UID_UNKNOWN Pos.eqb].
    apply Hask; [done|intros s3 H3|intros v s' Hv; by apply Hstop]. apply wp_ret. split; [by right|done].
  - change (AF_INET6 =? AF_INET) with false. cbv iota. wp_step. wp_step. apply wp_ret. split; [by right|done].
Qed.

Lemma wp_nl_is_diag_working s :
  calm s -> nl_queue s = [] -> wp (nl_is_diag_working kernel stack) (fun _ s' => calm s') s.
Proof.
  intros Hs Hq. unfold nl_is_diag_working. wp_step. wp_step. wp_step. wp_step. cbv zeta. wp_step.
  eapply wp_mono; [apply (wp_diag_uid_lookup AF_INET IPPROTO_UDP (ip_zero, 0) (ip_zero, 0) true)|].
  - split; [apply Hs|by left].
  - intros v s1 (H1 & _). wp_step. wp_step. wp_step. split; [done|]. cbn. rewrite Hq. by left.
Qed.
End owner.

(** The owners of several connections, one after another on the same socket. *)
Fixpoint nl_get_uids (kernel : list Z -> option (list (list Z))) (stack : list Z) (ts : list zdtun_5tuple) : M nl_state (list Z) :=
  match ts with
  | [] => mret []
  | t :: ts => uid ← nl_get_uid kernel stack t; uids ← nl_get_uids kernel stack ts; mret (uid :: uids)
  end.

(** C8: the daemon gets the owner the kernel knows, whatever was asked before:
    for every sequence of connections, on a socket with nothing or with the end of one
    dump still unread, each answer is the first one among the requests for that
    connection, with the failures of the kernel reported as such; nothing is waited for
    that does not come.  The kernel answers as [kernel_ok] says: a single request with
    one message, a dump with one datagram of sockets and one that ends it.  A dump
    that leaves two datagrams unread makes the next request fail ([two_left_over]),
    so longer dumps are not covered, nor is a request that cannot be sent. *)
Theorem sock_diag_answers kernel stack owner ts s :
  kernel_ok kernel owner -> calm s -> Forall (fun t => first_answer owner (queries t) <> NotSent) ts ->
  exists s', nl_get_uids kernel stack ts s = Some ((fun t => result_of (first_answer owner (queries t))) <$> ts, s') /\ calm s'.
Proof.
  intros Hk Hs Hall. revert s Hs. induction Hall as [|t ts Ht Hall IH]; intros s Hs; [by exists s|].
  destruct (wp_nl_get_uid owner kernel stack Hk t s Hs) as (v & s1 & E & Hc & ->). destruct Hc as [|Hs1]; [done|].
  destruct (IH s1 Hs1) as (s2 & E2 & Hs2). exists s2. split; [|done]. cbn [nl_get_uids fmap list_fmap].
  rewrite (bind_run _ _ _ _ _ E), (bind_run _ _ _ _ _ E2). done.
Qed.

(** ** The route *)

(** An attribute: its length, its type, its data, and padding. *)
Abbreviation rtattr := (Z * list Z)%type.
Definition rta_bytes (a : rtattr) : list Z :=
  le_bytes 2 (4 + Z.of_nat (length (snd a))) ++ le_bytes 2 (fst a) ++ snd a ++
  replicate (Z.to_nat (align4 (Z.of_nat (length (snd a))) - Z.of_nat (length (snd a)))) 0.
(** A reply: the header, the [rtmsg] and the attributes. *)
Definition route_reply (seq : Z) (rtmsg : list Z) (attrs : list rtattr) : list Z :=
  let body := rtmsg ++ concat (rta_bytes <$> attrs) in
  nlmsghdr (16 + Z.of_nat (length body)) RTM_NEWROUTE 0 seq ++ body.
(** What is read of an attribute. *)
Definition attr_ok (a : rtattr) : Prop :=
  bytes_ok (snd a) /\ u_ok 16 (fst a) /\ (fst a = RTA_OIF \/ fst a = RTA_GATEWAY -> length (snd a) = 4%nat).
Definition take_attr (s : Z * Z * list Z) (a : rtattr) : Z * Z * list Z :=
  let '(rv, ifidx, gw) := s in
  if fst a =? RTA_GATEWAY then (rv, ifidx, snd a)
  else if fst a =? RTA_OIF then (0, i32 (le_val (snd a)), gw) else s.

Lemma align4_le n : n <= align4 n < n + 4.
Proof. unfold align4. pose proof (Z.div_mod (n + 3) 4 ltac:(done)). pose proof (Z.mod_pos_bound (n + 3) 4 eq_refl). lia. Qed.
Lemma align4_add n : align4 (4 + n) = 4 + align4 n.
Proof. unfold align4. replace (4 + n + 3) with (n + 3 + 1 * 4) by lia. rewrite Z.div_add by done. lia. Qed.
Lemma length_rta a : Z.of_nat (length (rta_bytes a)) = 4 + align4 (Z.of_nat (length (snd a))).
Proof.
  unfold rta_bytes. rewrite !length_app, !length_le_bytes, length_replicate. pose proof (align4_le (Z.of_nat (length (snd a)))). lia.
Qed.

(** [pre] is what was read; [i] is four bytes short of what there is. *)
Lemma rta_loop_attrs fuel buf pre attrs rest rv ifidx gw :
  buf = pre ++ concat (rta_bytes <$> attrs) ++ rest -> Forall attr_ok attrs -> (length attrs <= fuel)%nat ->
  Z.of_nat (length (concat (rta_bytes <$> attrs))) <= 480 ->
  rta_loop fuel 4 buf (Z.of_nat (length pre)) (Z.of_nat (length (concat (rta_bytes <$> attrs))) - 4) rv ifidx gw =
  Some (foldl take_attr (rv, ifidx, gw) (removelast attrs)).
Proof.
  intros Hbuf Hall. revert fuel pre rv ifidx gw Hbuf. induction Hall as [|[ty data] attrs [Hb [Hty H4]] Hall IH];
    intros fuel pre rv ifidx gw Hbuf Hfuel Hsize; [by destruct fuel|]. cbn [fst snd] in Hb, Hty, H4.
  set (n := Z.of_nat (length data)) in *. pose proof (align4_le n) as Hal. pose proof (length_rta (ty, data)) as Hlen. cbn [snd] in Hlen. fold n in Hlen.
  assert (Hc : concat (rta_bytes <$> (ty, data) :: attrs) = rta_bytes (ty, data) ++ concat (rta_bytes <$> attrs)) by done.
  rewrite Hc in Hbuf. rewrite Hc, length_app, Nat2Z.inj_add in Hsize. rewrite Hc, length_app, Nat2Z.inj_add. clear Hc. set (m := Z.of_nat (length (concat (rta_bytes <$> attrs)))) in *.
  rewrite <-app_assoc in Hbuf. rewrite Hlen.
  set (p := Z.of_nat (length pre)).
  assert (Hrd : forall k off v, 0 <= off -> rdn k (rta_bytes (ty, data) ++ concat (rta_bytes <$> attrs) ++ rest) off = Some v ->
    rdn k buf (p + off) = Some v) by (intros k off v Ho E; by rewrite Hbuf; unfold p; rewrite rdn_app_r).
  unfold rta_bytes at 1 in Hrd. cbn [fst snd] in Hrd. fold n in Hrd. rewrite <-!app_assoc in Hrd.
  assert (Flen : rd16 buf p = Some (4 + n)).
  { unfold rd16. rewrite <-(Z.add_0_r p). rewrite (Hrd 2%nat 0 (le_bytes 2 (4 + n))); [|done|by fld].
    cbn [fmap option_fmap option_map]. rewrite le_val_le_bytes. f_equal. apply Z.mod_small. cbn. lia. }
  assert (Ftype : rd16 buf (p + 2) = Some ty).
  { unfold rd16. rewrite (Hrd 2%nat 2 (le_bytes 2 ty)); [|done|by fld].
    cbn [fmap option_fmap option_map]. rewrite le_val_le_bytes. f_equal. by apply Z.mod_small. }
  destruct attrs as [|a attrs].
  - (* the last attribute does not fit any more *)
    replace (4 + align4 n + m - 4) with (align4 n) by (unfold m; cbn; lia). cbn [removelast foldl].
    assert (E : forall x, (if align4 n <? 4 then Some (rv, ifidx, gw) else
      rta_len ← rd16 buf p; if (rta_len <? 4) || (align4 n <? rta_len) then Some (rv, ifidx, gw) else x rta_len) = Some (rv, ifidx, gw)).
    { intros x. destruct (Z.ltb_spec (align4 n) 4); [done|]. rewrite Flen. cbn [mbind option_bind].
      destruct (Z.ltb_spec (align4 n) (4 + n)); [|lia]. by rewrite orb_true_r. }
    destruct fuel; apply E.
  - assert (Hm : 4 <= m) by (unfold m; cbn [fmap list_fmap concat]; rewrite length_app, Nat2Z.inj_add, length_rta; pose proof (align4_le (Z.of_nat (length (snd a)))); lia).
    destruct fuel as [|fuel]; [cbn in Hfuel; lia|]. cbn [rta_loop].
    destruct (Z.ltb_spec (4 + align4 n + m - 4) 4); [lia|]. rewrite Flen. cbn [mbind option_bind].
    destruct (Z.ltb_spec (4 + n) 4); [lia|]. destruct (Z.ltb_spec (4 + align4 n + m - 4) (4 + n)); [lia|]. cbn [orb].
    rewrite Ftype. cbn [mbind option_bind].
    assert (Hnext : forall rv ifidx gw,
      rta_loop fuel 4 buf (p + align4 (4 + n)) (4 + align4 n + m - 4 - align4 (4 + n)) rv ifidx gw =
      Some (foldl take_attr (rv, ifidx, gw) (removelast (a :: attrs)))).
    { intros rv' ifidx' gw'. rewrite align4_add. replace (4 + align4 n + m - 4 - (4 + align4 n)) with (m - 4) by lia.
      rewrite <-(IH fuel (pre ++ rta_bytes (ty, data))).
      - unfold p. by rewrite length_app, Nat2Z.inj_add, Hlen.
      - by rewrite Hbuf, <-!app_assoc.
      - cbn in Hfuel |- *. lia.
      - lia. }
    change (removelast ((ty, data) :: a :: attrs)) with ((ty, data) :: removelast (a :: attrs)). cbn [foldl take_attr fst snd].
    destruct (Z.eqb_spec ty RTA_GATEWAY) as [Eg|Hg].
    + assert (Hl : length data = 4%nat) by (apply H4; by right).
      rewrite (Hrd 4%nat 4 data); [|done|]. 2:{ do 2 (rewrite rdn_skip by side). rewrite <-Hl. apply rdn_here; [done|side]. }
      cbn [mbind option_bind]. apply Hnext.
    + destruct (Z.eqb_spec ty RTA_OIF) as [Eo|Ho]; [|apply Hnext]. assert (Hl : length data = 4%nat) by (apply H4; by left).
      unfold rd32. rewrite (Hrd 4%nat 4 data); [|done|]. 2:{ do 2 (rewrite rdn_skip by side). rewrite <-Hl. apply rdn_here; [done|side]. }
      cbn [fmap option_fmap option_map mbind option_bind]. apply Hnext.
Qed.

(** C22: of the attributes of a route the daemon reads all but the last one:
    the request for the index of the interface is answered exactly when [RTA_OIF] is
    among those, by the last of them. *)
Theorem route_all_but_last kernel addr seq rtmsg attrs :
  u_ok 32 seq -> length rtmsg = 12%nat -> Forall attr_ok attrs ->
  kernel (take 40 (route_request AF_INET addr seq)) = Some (route_reply seq rtmsg attrs) ->
  Z.of_nat (length (route_reply seq rtmsg attrs)) <= 508 ->
  nl_get_route kernel AF_INET addr seq = Some (foldl take_attr (-1, -1, []) (removelast attrs)).
Proof.
  intros Hseq Hr Hall Hk Hsize. unfold nl_get_route. change (AF_INET =? AF_INET) with true. cbv iota zeta. change (36 + 4)%nat with 40%nat.
  rewrite Hk. set (d := route_reply seq rtmsg attrs) in *. set (A := concat (rta_bytes <$> attrs)).
  assert (Hd : d = nlmsghdr (16 + Z.of_nat (length (rtmsg ++ A))) RTM_NEWROUTE 0 seq ++ rtmsg ++ A) by done.
  assert (Hld : Z.of_nat (length d) = 28 + Z.of_nat (length A)).
  { rewrite Hd. unfold nlmsghdr. rewrite !length_app, !length_le_bytes, Hr. lia. }
  assert (Ht : take 512 d = d) by (apply take_ge; lia). set (buf := overlay 512 d _). rewrite Ht.
  assert (Hb : buf = d ++ drop (length d) (route_request AF_INET addr seq)) by (unfold buf, overlay; by rewrite Ht).
  assert (Hpre : forall k off v, rdn k d off = Some v -> rdn k buf off = Some v).
  { intros k off v E. rewrite Hb, rdn_prefix; [done|]. unfold rdn in E. destruct (_ && _) eqn:Eb; [|done].
    by apply andb_prop in Eb as [_ ?%Z.leb_le]. }
  unfold nlmsghdr in Hd. rewrite <-!app_assoc in Hd.
  assert (F0 : rd32 buf 0 = Some (Z.of_nat (length d))).
  { unfold rd32. rewrite (Hpre 4%nat 0 (le_bytes 4 (Z.of_nat (length d)))); [cbn [fmap option_fmap option_map]; f_equal; apply le_val_4; unfold u_ok; lia|].
    rewrite Hd at 1. rewrite rdn_here; [|done|side]. do 2 f_equal. rewrite Hld, length_app, Hr. lia. }
  assert (F8 : rd32 buf 8 = Some seq).
  { unfold rd32. rewrite (Hpre 4%nat 8 (le_bytes 4 seq)); [cbn [fmap option_fmap option_map]; f_equal; by apply le_val_4|]. rewrite Hd. by fld. }
  assert (F4 : rd16 buf 4 = Some RTM_NEWROUTE).
  { unfold rd16. rewrite (Hpre 2%nat 4 (le_bytes 2 RTM_NEWROUTE)); [done|]. rewrite Hd. by fld. }
  destruct d as [|x d'] eqn:Ed; [cbn in Hld; lia|]. rewrite <-Ed in *. rewrite F0, F8, F4. cbn [mbind option_bind].
  destruct (Z.ltb_spec (Z.of_nat (length d)) 16); [lia|]. rewrite Z.ltb_irrefl, Z.eqb_refl. cbn [orb negb].
  change (RTM_NEWROUTE =? NLMSG_ERROR) with false. cbv iota.
  set (pre := take 28 d). assert (Hlp : length pre = 28%nat) by (unfold pre; rewrite length_take; lia).
  replace 28 with (Z.of_nat (length pre)) by (by rewrite Hlp). replace (Z.of_nat (length d) - 32) with (Z.of_nat (length A) - 4) by lia.
  assert (HA : d = pre ++ A).
  { unfold pre. rewrite Hd. rewrite !app_assoc. rewrite take_app_length'; [done|].
    rewrite !length_app, !length_le_bytes, Hr. done. }
  apply rta_loop_attrs with (rest := drop (length d) (route_request AF_INET addr seq)); [by rewrite Hb, HA, <-app_assoc|done| |unfold A in *; lia].
  assert (Hn : 4 * Z.of_nat (length attrs) <= Z.of_nat (length A)).
  { unfold A. clear. induction attrs as [|a attrs IH]; [done|]. cbn [fmap list_fmap concat length]. rewrite length_app, Nat2Z.inj_add, length_rta.
    pose proof (align4_le (Z.of_nat (length (snd a)))). lia. }
  lia.
Qed.

(** Whatever is received, the reading stays in the buffer and ends. *)
Lemma rta_loop_total fuel buf p i rv ifidx gw :
  bytes_ok buf -> 0 <= p -> p + i + 4 <= Z.of_nat (length buf) -> i < 4 * Z.of_nat fuel + 4 ->
  is_Some (rta_loop fuel 4 buf p i rv ifidx gw).
Proof.
  intros Hb. revert p i rv ifidx gw. induction fuel as [|fuel IH]; intros p i rv ifidx gw Hp Hl Hi; cbn [rta_loop].
  { destruct (Z.ltb_spec i 4); [done|lia]. }
  destruct (Z.ltb_spec i 4); [done|]. destruct (rd16_is_Some buf p) as (rl & -> & _); [done|lia|done|]. cbn [mbind option_bind].
  destruct (Z.ltb_spec rl 4); [done|]. destruct (Z.ltb_spec i rl); [done|]. cbn [orb].
  destruct (rd16_is_Some buf (p + 2)) as (ty & -> & _); [lia|lia|done|]. cbn [mbind option_bind].
  pose proof (align4_le rl).
  assert (Hnext : forall rv ifidx gw, is_Some (rta_loop fuel 4 buf (p + align4 rl) (i - align4 rl) rv ifidx gw))
    by (intros; apply IH; lia).
  destruct (ty =? RTA_GATEWAY).
  { destruct (rdn_is_Some 4 buf (p + 4)) as (g & -> & _); [lia|lia|done|]. apply Hnext. }
  destruct (ty =? RTA_OIF); [|apply Hnext].
  destruct (rd32_is_Some buf (p + 4)) as (o & -> & _); [lia|lia|done|]. apply Hnext.
Qed.
Lemma bytes_ok_overlay n d buf : bytes_ok d -> bytes_ok buf -> bytes_ok (overlay n d buf).
Proof. intros Hd Hb. unfold overlay, bytes_ok. rewrite Forall_app. split; [by apply Forall_take|by apply Forall_drop]. Qed.
Lemma length_overlay n d buf : (n <= length buf)%nat -> length (overlay n d buf) = length buf.
Proof. intros Hn. unfold overlay. rewrite length_app, length_drop, length_take. lia. Qed.

Lemma nl_get_route_total reply addr seq :
  length addr = 4%nat -> bytes_ok addr -> u_ok 32 seq -> (forall req d, reply req = Some d -> bytes_ok d) ->
  is_Some (nl_get_route reply AF_INET addr seq).
Proof.
  intros Ha Hab Hs Hr. unfold nl_get_route. change (AF_INET =? AF_INET) with true. cbv iota zeta.
  set (req := route_request AF_INET addr seq).
  assert (Hreq : length req = 512%nat /\ bytes_ok req).
  { unfold req, route_request, nlmsghdr. change (AF_INET =? AF_INET) with true. cbn [andb]. cbv iota zeta. set (dst := if le_val (take 4 addr) =? INADDR_ANY then _ else _).
    assert (Hd : length dst = 4%nat /\ bytes_ok dst) by (unfold dst; destruct (_ =? INADDR_ANY); [split; [done|by repeat constructor]|done]).
    destruct Hd as [Hd1 Hd2]. set (body := _ ++ _ ++ _). assert (Hbody : length body = 36%nat).
    { unfold body. rewrite !length_app, !length_le_bytes, length_replicate, Hd1. done. }
    split; [rewrite length_app, length_replicate, Hbody; done|].
    unfold bytes_ok, body. rewrite !Forall_app. repeat split; try by apply le_bytes_ok.
    - by repeat constructor.
    - by repeat constructor.
    - done.
    - by apply Forall_replicate. }
  destruct Hreq as [Hl Hb]. destruct (reply _) as [[|x d']|] eqn:E; [done| |done]. apply Hr in E as Hd. set (d := x :: d') in *.
  assert (Hbuf : bytes_ok (overlay 512 d req)) by by apply bytes_ok_overlay.
  assert (Hlb : length (overlay 512 d req) = 512%nat) by (rewrite length_overlay; lia).
  destruct (rd32_is_Some (overlay 512 d req) 0) as (len & -> & _); [done|rewrite Hlb; lia|done|].
  destruct (rd32_is_Some (overlay 512 d req) 8) as (n & -> & _); [done|rewrite Hlb; lia|done|].
  destruct (rd16_is_Some (overlay 512 d req) 4) as (ty & -> & _); [done|rewrite Hlb; lia|done|]. cbn [mbind option_bind].
  destruct (_ || _); [done|]. assert (Hi : Z.of_nat (length (take 512 d)) <= 512) by (rewrite length_take; lia).
  apply rta_loop_total; [done|lia|rewrite Hlb; lia|lia].
Qed.

(** ** A kernel *)

Definition diag_bytes (seq uid : Z) : list Z :=
  nlmsghdr 88 SOCK_DIAG_BY_FAMILY 0 seq ++ replicate 64 0 ++ le_bytes 4 uid ++ replicate 4 0.
Definition error_bytes (seq errno : Z) : list Z :=
  nlmsghdr 36 NLMSG_ERROR 0 seq ++ le_bytes 4 (u32 (- errno)) ++ replicate 16 0.
Definition done_bytes (seq : Z) : list Z := nlmsghdr 20 NLMSG_DONE 0 seq ++ replicate 4 0.
Definition answer_bytes (seq : Z) (dump : bool) (a : kanswer) : option (list (list Z)) :=
  match a with
  | Found uid => Some (diag_bytes seq uid :: if dump then [done_bytes seq] else [])
  | NotFound => Some [if dump then done_bytes seq else error_bytes seq ENOENT]
  | Refused errno => Some [error_bytes seq errno]
  | NotSent => None
  end.
Definition kernel_of (owner : bool -> list Z -> kanswer) (req : list Z) : option (list (list Z)) :=
  flags ← rd16 req 6; seq ← rd32 req 8;
  let dump := flags =? diag_flags true in
  answer_bytes seq dump (owner dump (drop 16 req)).

Definition answer_ok (a : kanswer) : Prop :=
  match a with
  | Found uid => 0 <= uid < 2 ^ 31
  | Refused errno => 0 < errno < 2 ^ 31 /\ errno <> ENOENT
  | _ => True
  end.

Lemma msg_at_hdr len type seq body :
  u_ok 32 seq -> u_ok 16 type -> 16 <= len <= 512 -> len <= 16 + Z.of_nat (length body) ->
  msg_at len type seq (nlmsghdr len type 0 seq ++ body).
Proof.
  intros Hs Ht Hl Hb. unfold nlmsghdr. rewrite <-!app_assoc. split.
  - rdf.
  - unfold rd16. fld. cbn [fmap option_fmap option_map]. rewrite le_val_le_bytes. f_equal. by apply Z.mod_small.
  - rdf.
  - rewrite !length_app, !length_le_bytes. lia.
Qed.
Lemma diag_bytes_ok seq uid : u_ok 32 seq -> 0 <= uid < 2 ^ 31 -> diag_msg seq uid (diag_bytes seq uid).
Proof.
  intros Hs Hu. exists 88, SOCK_DIAG_BY_FAMILY. split; [apply msg_at_hdr; [done|done|lia|]|].
  - rewrite !length_app, !length_replicate, length_le_bytes. lia.
  - do 3 (split; [done|]). split; [|done]. unfold diag_bytes, nlmsghdr. rewrite <-!app_assoc. unfold rd32.
    do 6 (rewrite rdn_skip by (rewrite ?length_replicate; side)). rewrite rdn_here by (rewrite ?length_replicate; side).
    cbn [fmap option_fmap option_map]. f_equal. apply le_val_4. unfold u_ok. lia.
Qed.
Lemma error_bytes_ok seq errno : u_ok 32 seq -> 0 < errno < 2 ^ 31 -> error_msg seq errno (error_bytes seq errno).
Proof.
  intros Hs He. exists 36. split; [apply msg_at_hdr; [done|done|lia|]|].
  - rewrite !length_app, !length_replicate, length_le_bytes. lia.
  - split; [done|]. split; [|done]. unfold error_bytes, nlmsghdr. rewrite <-!app_assoc. unfold rd32. fld.
    cbn [fmap option_fmap option_map]. f_equal. apply le_val_4. apply uwrap_ok. lia.
Qed.
Lemma done_bytes_ok seq : u_ok 32 seq -> done_msg seq (done_bytes seq).
Proof. intros Hs. exists 20. apply msg_at_hdr; [done|done|lia|]. rewrite length_replicate. lia. Qed.

Lemma kernel_of_ok owner : (forall dump req, answer_ok (owner dump req)) -> kernel_ok (kernel_of owner) owner.
Proof.
  intros Ha req dump seq Hs. unfold kernel_of, diag_request.
  assert (Hf : u_ok 16 (diag_flags dump)) by by destruct dump.
  assert (E6 : rd16 (nlmsghdr 72 SOCK_DIAG_BY_FAMILY (diag_flags dump) seq ++ req) 6 = Some (diag_flags dump)).
  { unfold nlmsghdr. rewrite <-!app_assoc. unfold rd16. fld. cbn [fmap option_fmap option_map]. rewrite le_val_le_bytes. f_equal. by apply Z.mod_small. }
  assert (E8 : rd32 (nlmsghdr 72 SOCK_DIAG_BY_FAMILY (diag_flags dump) seq ++ req) 8 = Some seq)
    by (unfold nlmsghdr; rewrite <-!app_assoc; rdf).
  assert (Ed : drop 16 (nlmsghdr 72 SOCK_DIAG_BY_FAMILY (diag_flags dump) seq ++ req) = req)
    by (rewrite drop_app_length'; [done|unfold nlmsghdr; by rewrite !length_app, !length_le_bytes]).
  rewrite E6, E8, Ed. cbn [mbind option_bind].
  assert (Edump : (diag_flags dump =? diag_flags true) = dump) by by destruct dump. rewrite Edump.
  specialize (Ha dump req). destruct (owner dump req) as [uid| |errno|], dump; cbn [answer_bytes answer_ok] in *; constructor.
  all: first [by apply diag_bytes_ok | by apply done_bytes_ok | by apply error_bytes_ok | by destruct Ha | by (destruct Ha; apply error_bytes_ok)].
Qed.

(** One TCP socket and one UDP socket. *)
Definition peer (a b c d port : Z) : pd_sockaddr := (ZIp ([a; b; c; d] ++ replicate 12 0), port).
Definition owner_ex (dump : bool) (req : list Z) : kanswer :=
  if bool_decide (req = diag_req AF_INET IPPROTO_TCP (peer 10 0 0 1 1) (peer 8 8 8 8 2)) then Found 10123
  else if dump && bool_decide (req = diag_req AF_INET IPPROTO_UDP (peer 10 0 0 1 3) (ip_zero, 0)) then Found 10124
  else NotFound.
Lemma owner_ex_ok dump req : answer_ok (owner_ex dump req).
Proof. unfold owner_ex. by repeat case_match. Qed.
Definition tuple_ex (proto sport dport : Z) : zdtun_5tuple :=
  Tuple (fst (peer 10 0 0 1 1)) (fst (peer 8 8 8 8 2)) sport dport 4 proto.
(** The owner of a UDP socket is found by a dump, whose end is read by the request
    after it. *)
Definition tuples_ex : list zdtun_5tuple :=
  [tuple_ex IPPROTO_UDP 3 2; tuple_ex IPPROTO_TCP 1 2; tuple_ex IPPROTO_TCP 7 2].

Lemma sock_diag_answers_witness : exists s',
  nl_get_uids (kernel_of owner_ex) [] tuples_ex (NlState 0 []) = Some ([10124; 10123; UID_UNKNOWN], s') /\ calm s'.
Proof.
  refine (sock_diag_answers (kernel_of owner_ex) [] owner_ex tuples_ex (NlState 0 []) (kernel_of_ok _ owner_ex_ok) _ _).
  - split; [done|by left].
  - by repeat apply Forall_cons_2; [..|apply Forall_nil_2].
Defined.

(** With two datagrams of a dump left the reply is out of sequence, and the socket is
    given up: one retry is one datagram. *)
Example two_left_over :
  fst <$> diag_uid_lookup (kernel_of owner_ex) [] AF_INET IPPROTO_TCP (peer 10 0 0 1 1) (peer 8 8 8 8 2) NLM_F_REQUEST
    (NlState 5 [diag_bytes 5 10124; done_bytes 5]) = Some (-5).
Proof. by vm_compute. Qed.

(** A route as the kernel gives it: table, destination, interface, source address. *)
Definition route_ex : list rtattr :=
  [(15, [254; 0; 0; 0]); (RTA_DST, [6; 6; 6; 0x60]); (RTA_OIF, [17; 0; 0; 0]); (7, [10; 0; 0; 1])].
Lemma route_all_but_last_witness :
  nl_get_route (fun _ => Some (route_reply 1 (replicate 12 0) route_ex)) AF_INET [6; 6; 6; 0x60] 1 = Some (0, 17, []).
Proof.
  refine (route_all_but_last (fun _ => Some (route_reply 1 (replicate 12 0) route_ex)) [6; 6; 6; 0x60] 1 (replicate 12 0) route_ex _ _ _ _ _).
  - done.
  - done.
  - repeat apply Forall_cons_2; [..|apply Forall_nil_2]; (split; [by repeat constructor|by split; [|intros _]]).
  - done.
  - by vm_compute.
Defined.
(** An interface at the end of the message is not seen. *)
Example last_attribute_lost :
  nl_get_route (fun _ => Some (route_reply 1 (replicate 12 0) [(RTA_OIF, [17; 0; 0; 0])])) AF_INET [6; 6; 6; 0x60] 1 = Some (-1, -1, []).
Proof. by vm_compute. Qed.

End NlSpec.
