(* ===== verification/Pcapd.v ===== *)
(** * The capture daemon (pcapd/pcapd.c)

    pcapd runs as root, reads packets with libpcap, finds the application each one
    belongs to and its direction, and sends both over a socket.  libpcap, the kernel
    behind netlink and the files of /proc answer as the environment; what was written to the
    socket is a list of bytes. *)

From S2P Require Import Prelude CString CFormat UtHash ZdtunTypes ZdtunPkt UidLru UidProc DaemonArgs PcapDump PdTypes PdProcess PdHouse PdVpn PdJni Libpcap NlUtils.

Module Pcapd.
Export Libpcap.
Import ZdtunPkt UidLru UidProc DaemonArgs NlUtils.

Definition LINUX_SLL_HOST : Z := 0.
Definition LINUX_SLL_OUTGOING : Z := 4.

Inductive pcapd_rv :=
  | PCAPD_OK
  | PCAPD_ERROR
  | PCAPD_INTERFACE_OPEN_FAILED
  | PCAPD_NETLINK_ERROR
  | PCAPD_PCAP_READ_ERROR
  | PCAPD_SOCKET_WRITE_ERROR
  | PCAPD_UNSUPPORTED_DATALINK
  | PCAPD_EOF.
#[export] Instance pcapd_rv_eq_dec : EqDecision pcapd_rv.
Proof. solve_decision. Defined.

(** [struct pcap_stat]: counters of [u_int]. *)
Record pcap_stat := PcapStat { ps_recv : Z; ps_drop : Z; ps_ifdrop : Z }.
#[export] Instance eta_pcap_stat : Eta pcap_stat := fun s => PcapStat (ps_recv s) (ps_drop s) (ps_ifdrop s).
Definition pcap_stat_zero : pcap_stat := PcapStat 0 0 0.

(** [pcapd_iface_t]; [if_pd] is the handle of libpcap, [None] for NULL. *)
Record pcapd_iface := Iface {
    if_name : cstr;
    if_ifidx : Z;
    if_ifid : Z;
    if_is_file : bool;
    if_pd : option Z;
    if_pf : Z;
    if_dlink : Z;
    if_ipoffset : Z;
    if_mac : Z;
    if_ip : Z;
    if_ip6 : list Z;
    if_next_stats_update : Z;
    if_stats : pcap_stat;
  }.
#[export] Instance eta_pcapd_iface : Eta pcapd_iface := fun i =>
  Iface (if_name i) (if_ifidx i) (if_ifid i) (if_is_file i) (if_pd i) (if_pf i) (if_dlink i) (if_ipoffset i)
    (if_mac i) (if_ip i) (if_ip6 i) (if_next_stats_update i) (if_stats i).

(** The configuration and the runtime.  [rt_handles] are the handles of libpcap
    that are open: another one must not be used. *)
Record pcapd_conf := Conf {
    cf_ifnames : list cstr;
    cf_bpf : option cstr;
    cf_log_file : option cstr;
    cf_uid_filter : option (list Z);
    cf_inet_ifid : Z;
    cf_dump_datalink : bool;
    cf_daemonize : bool;
    cf_no_client : bool;
    cf_quiet : bool;
    cf_log_uid : Z;
  }.
#[export] Instance eta_pcapd_conf : Eta pcapd_conf := fun c =>
  Conf (cf_ifnames c) (cf_bpf c) (cf_log_file c) (cf_uid_filter c) (cf_inet_ifid c) (cf_dump_datalink c)
    (cf_daemonize c) (cf_no_client c) (cf_quiet c) (cf_log_uid c).
Record pcapd_runtime := Rt {
    rt_nlroute_sock : Z;
    rt_nldiag : bool;        (* nldiag_sock > 0 *)
    rt_nl : nl_state;        (* what waits on it *)
    rt_route_seq : Z;        (* seq of nl_get_route *)
    rt_nlbuf : list Z;
    rt_client : Z;
    rt_tun : frag_table;
    rt_lru : uid_lru;
    rt_inet_iface : option nat;
    rt_ifaces : list pcapd_iface;
    rt_stats : pcap_stat;
    rt_sel_fds : gset Z;
    rt_maxfd : Z;
    rt_handles : gset Z;
    rt_next_handle : Z;
    rt_sent : list Z;        (* written to the client *)
  }.
#[export] Instance eta_pcapd_runtime : Eta pcapd_runtime := fun r =>
  Rt (rt_nlroute_sock r) (rt_nldiag r) (rt_nl r) (rt_route_seq r) (rt_nlbuf r) (rt_client r) (rt_tun r) (rt_lru r) (rt_inet_iface r) (rt_ifaces r) (rt_stats r)
    (rt_sel_fds r) (rt_maxfd r) (rt_handles r) (rt_next_handle r) (rt_sent r).

(** ** The command line *)

Definition PCAPD_MAX_INTERFACES : Z := 16.
Definition INET : cstr := str "@inet".

Definition init_conf : pcapd_conf := Conf [] None None None (-1) false false false false 0.

(** What [getopt] gives, one option at a time. *)
Inductive opt :=
  | OptI (arg : cstr)
  | OptD
  | OptT
  | OptN
  | OptU (arg : cstr)
  | OptB (arg : cstr)
  | OptLog (arg : cstr)
  | OptLogUid (arg : cstr)
  | OptQ
  | OptOther.
(** [atol]; a value outside [long] is undefined behaviour. *)
Definition atol (s : cstr) : option Z :=
  let v := match skip_spaces s with
           | 45 :: s => - digits s 0
           | 43 :: s => digits s 0
           | s => digits s 0
           end in
  if (- 2 ^ 63 <=? v) && (v <? 2 ^ 63) then Some v else None.
(** The inner [None] is [exit]. *)
Definition parse_opt (conf : pcapd_conf) (o : opt) : option (option pcapd_conf) :=
  match o return option (option pcapd_conf) with
  | OptI arg =>
      let num_interfaces := Z.of_nat (length (cf_ifnames conf)) in
      if PCAPD_MAX_INTERFACES <=? num_interfaces then Some None else
      if bool_decide (arg = INET) && negb (cf_inet_ifid conf =? -1) then Some None else
      let conf := if bool_decide (arg = INET) then conf <| cf_inet_ifid := num_interfaces |> else conf in
      Some (Some (conf <| cf_ifnames ::= fun l => l ++ [arg] |>))
  | OptD => Some (Some (conf <| cf_daemonize := true |>))
  | OptT => Some (Some (conf <| cf_dump_datalink := true |>))
  | OptN => Some (Some (conf <| cf_no_client := true |>))
  | OptU arg =>
      r ← parse_uid_filter arg;
      Some (match r with Some filter => Some (conf <| cf_uid_filter := Some filter |>) | None => None end)
  | OptB arg => Some (Some (conf <| cf_bpf := Some arg |>))
  | OptLog arg => Some (Some (conf <| cf_log_file := Some arg |>))
  | OptLogUid arg => uid ← atol arg; Some (Some (conf <| cf_log_uid := u32 uid |>))
  | OptQ => Some (Some (conf <| cf_quiet := true |>))
  | OptOther => Some None
  end.
Fixpoint parse_options (conf : pcapd_conf) (opts : list opt) : option (option pcapd_conf) :=
  match opts with
  | [] => Some (Some conf)
  | o :: opts =>
      r ← parse_opt conf o;
      match r with Some conf => parse_options conf opts | None => Some None end
  end.
Definition parse_args (opts : list opt) (positional : bool) : option (option pcapd_conf) :=
  r ← parse_options init_conf opts;
  match r with
  | None => Some None
  | Some conf =>
      if positional then Some None else
      Some (Some (if bool_decide (cf_ifnames conf = [])
                  then conf <| cf_inet_ifid := 0 |> <| cf_ifnames := [INET] |> else conf))
  end.

(** ** Reading and writing all of a buffer (common/utils.c) *)

(** What a call of [read] or [write] does: EINTR, another error, a number of bytes. *)
Inductive io := Eintr | Efail | Count (n : nat).

(** The value [xwrite] returns, what was written, the calls left; calls fail once the
    list is used up. *)
Fixpoint xwrite (ios : list io) (buf : list Z) (sofar : nat) : Z * list Z * list io :=
  match ios with
  | [] => (-1, take sofar buf, [])
  | Eintr :: ios =>
      if bool_decide (sofar = length buf) then (0, take sofar buf, ios) else xwrite ios buf sofar
  | Efail :: ios => (-1, take sofar buf, ios)
  | Count n :: ios =>
      let sofar := (sofar + n)%nat in
      if negb (bool_decide (sofar = length buf)) && negb (bool_decide (n = O)) then xwrite ios buf sofar
      else (if bool_decide (sofar = length buf) then 0 else -1, take sofar buf, ios)
  end.

(** [xread] from a stream: the value, what is in the buffer, the stream, the calls. *)
Fixpoint xread (ios : list io) (count : nat) (acc stream : list Z) : Z * list Z * list Z * list io :=
  match ios with
  | [] => (-1, acc, stream, [])
  | Eintr :: ios =>
      if bool_decide (length acc = count) then (Z.of_nat count, acc, stream, ios) else xread ios count acc stream
  | Efail :: ios => (-1, acc, stream, ios)
  | Count n :: ios =>
      let acc := acc ++ take n stream in
      let stream := drop n stream in
      if negb (bool_decide (length acc = count)) && negb (bool_decide (n = O)) then xread ios count acc stream
      else (if bool_decide (length acc = count) then Z.of_nat count
                 else if bool_decide (n = O) then 0 else -1, acc, stream, ios)
  end.

(** ** The direction of a packet *)

Definition bytes2mac (buf : list Z) (off : Z) : option Z := le_val <$> rdn 6 buf off.

(** The part on the IP header: [off] is where it starts, [len] what is left. *)
Definition is_tx_ip (iface : pcapd_iface) (pkt : list Z) (off len : Z) : option bool :=
  if len <? 20 then Some false else
  b ← rd8 pkt off;
  if (b >>> 4) =? 4 then
    daddr ← rd32 pkt (off + 16);
    Some (negb (daddr =? if_ip iface))
  else if ((b >>> 4) =? 6) && (IPV6_HEADER_LEN <=? len) then
    daddr ← rdn 16 pkt (off + 24);
    Some (negb (bool_decide (daddr = if_ip6 iface)))
  else Some true.

Definition is_tx_packet (iface : pcapd_iface) (pkt : list Z) (len : Z) : option bool :=
  if (if_dlink iface =? PCAPD_DLT_ETHERNET) && (14 <=? len) then
    smac ← bytes2mac pkt 6;
    dmac ← bytes2mac pkt 0;
    if negb (smac =? dmac) && (smac =? if_mac iface) then Some true
    else if negb (smac =? dmac) && (dmac =? if_mac iface) then Some false
    else is_tx_ip iface pkt 14 (len - 14)
  else if (if_dlink iface =? PCAPD_DLT_LINUX_SLL) && (16 <=? len) then
    ty ← rd16 pkt 0;
    let pkttype := ntohs ty in
    if pkttype =? LINUX_SLL_HOST then Some false
    else if pkttype =? LINUX_SLL_OUTGOING then Some true
    else is_tx_ip iface pkt 16 (len - 16)
  else if (if_dlink iface =? PCAPD_DLT_LINUX_SLL2) && (20 <=? len) then
    ty ← rd8 pkt 10;
    let pkttype := ntohs ty in
    if pkttype =? LINUX_SLL_HOST then Some false
    else if pkttype =? LINUX_SLL_OUTGOING then Some true
    else is_tx_ip iface pkt 20 (len - 20)
  else is_tx_ip iface pkt 0 len.

(** ** The owner of a packet *)

Section daemon.
(** The files of /proc, and what the kernel puts on a sock_diag socket for a request;
    [stack] is what the buffer of the request held before. *)
Context (fopen : string -> option (list Z)).
Context (kernel : list Z -> option (list (list Z))) (stack : list Z).

Definition in_nl {A} (m : M nl_state A) : M pcapd_runtime A := fun r =>
  match m (rt_nl r) with Some (a, s) => Some (a, r <| rt_nl := s |>) | None => None end.

(** [get_uid] of a resolver that has no Java side. *)
Definition get_uid (tuple : zdtun_5tuple) : M pcapd_runtime Z := liftO (get_uid_slow fopen tuple).

Definition resolve (tuple : zdtun_5tuple) : M pcapd_runtime Z :=
  r ← getS;
  if rt_nldiag r && negb (ipproto tuple =? IPPROTO_ICMP) then
    uid ← in_nl (nl_get_uid kernel stack tuple);
    if (uid <? 0) && negb (uid =? UID_UNKNOWN) then
      modifyS (fun r => r <| rt_nldiag := false |>) ;;
      get_uid tuple
    else mret uid
  else get_uid tuple.

Definition find_uid (tuple : zdtun_5tuple) (malloc_ok : bool) : M pcapd_runtime Z :=
  r ← getS;
  let '(uid, lru) := uid_lru_find (rt_lru r) tuple in
  putS (r <| rt_lru := lru |>) ;;
  if uid =? -2 then
    uid ← resolve tuple;
    modifyS (fun r => r <| rt_lru ::= fun lru => uid_lru_add lru tuple uid malloc_ok |>) ;;
    mret uid
  else mret uid.

(** ** What is sent *)

(** The bytes of a [pcapd_hdr_t]; [ifid] and the padding are not read. *)
Definition hdr_bytes (ifid : Z) (pad : list Z) (h : pcapd_hdr) : list Z :=
  le_bytes 8 (fst (h_ts h)) ++ le_bytes 8 (snd (h_ts h)) ++ le_bytes 4 (h_pkt_drops h) ++ le_bytes 4 (h_uid h) ++
  le_bytes 2 (h_len h) ++ le_bytes 2 (h_linktype h) ++ le_bytes 1 (h_flags h) ++ le_bytes 1 ifid ++ pad.

(** The header and the bytes of an exported packet. *)
Definition export (conf : pcapd_conf) (iface : pcapd_iface) (ts : Z * Z) (pkt : list Z) (uid : Z) (is_tx : bool) :
    pcapd_hdr * list Z :=
  let data := if cf_dump_datalink conf then pkt else drop (Z.to_nat (if_ipoffset iface)) pkt in
  let linktype := if cf_dump_datalink conf then if_dlink iface else PCAPD_DLT_RAW in
  (Hdr ts (ps_drop (if_stats iface)) (u32 uid) (u16 (Z.of_nat (length data))) (u16 linktype)
     (if is_tx then PCAPD_FLAG_TX else 0), data).

(** Both calls of [xwrite]. *)
Definition send (ifid : Z) (pad : list Z) (hdr : pcapd_hdr) (data : list Z) (ios : list io) :
    M pcapd_runtime bool :=
  let put w := modifyS (fun r => r <| rt_sent ::= fun s => s ++ w |>) in
  let '(rv, w, ios) := xwrite ios (hdr_bytes ifid pad hdr) 0 in
  put w ;;
  if rv <? 0 then mret false else
  let '(rv, w, _) := xwrite ios (take (Z.to_nat (h_len hdr)) data) 0 in
  put w ;;
  mret (negb (rv <? 0)).

(** What [pcap_next_ex] returns: a packet with its time, PCAP_ERROR,
    PCAP_ERROR_BREAK, or nothing before the timeout. *)
Inductive next_ex := NextPkt (ts : Z * Z) (pkt : list Z) | NextError | NextBreak | NextNone.

(** ** The interfaces *)

Definition iface_at (i : nat) : M pcapd_runtime pcapd_iface := r ← getS; liftO (rt_ifaces r !! i).
Definition set_iface (i : nat) (f : pcapd_iface -> pcapd_iface) : M pcapd_runtime unit :=
  iface ← iface_at i; modifyS (fun r => r <| rt_ifaces ::= <[i := f iface]> |>).

Definition sum_stats (out to_sum : pcap_stat) : pcap_stat :=
  PcapStat (u32 (ps_recv out + ps_recv to_sum)) (u32 (ps_drop out + ps_drop to_sum))
    (u32 (ps_ifdrop out + ps_ifdrop to_sum)).

(** Using a handle, and [pcap_close]: the handle must be open. *)
Definition use_handle (pd : option Z) : M pcapd_runtime Z :=
  h ← liftO pd; r ← getS;
  if bool_decide (h ∈ rt_handles r) then mret h else ub.
Definition pcap_close (pd : option Z) : M pcapd_runtime unit :=
  h ← use_handle pd; modifyS (fun r => r <| rt_handles ::= fun s => s ∖ {[h]} |>).

(** Descriptors outside of an [fd_set] overflow it. *)
Definition FD_SETSIZE : Z := 1024.
Definition FD_op (fd : Z) (f : gset Z -> gset Z) : M pcapd_runtime unit :=
  if (0 <=? fd) && (fd <? FD_SETSIZE) then modifyS (fun r => r <| rt_sel_fds ::= f |>) else ub.

(** [stats] is what [pcap_stats] fills in. *)
Definition account (i : nat) (pd : option Z) (stats : pcap_stat) : M pcapd_runtime unit :=
  use_handle pd ;;
  set_iface i (fun f => f <| if_stats := stats |>) ;;
  modifyS (fun r => r <| rt_stats ::= fun s => sum_stats s stats |>).
Definition close_interface (i : nat) (stats : pcap_stat) : M pcapd_runtime unit :=
  iface ← iface_at i;
  match if_pd iface with
  | None => mret tt
  | Some _ =>
      account i (if_pd iface) stats ;;
      FD_op (if_pf iface) (fun s => s ∖ {[if_pf iface]}) ;;
      pcap_close (if_pd iface) ;;
      set_iface i (fun f => f <| if_pd := None |> <| if_pf := -1 |> <| if_ifidx := -1 |> <| if_name := [] |>)
  end.

(** What the system answers when an interface is opened: whether it can be captured
    live or opened as a file, the link type and the one after the upgrade of SLL,
    whether the filter compiles and is set, the index, the addresses, the descriptor. *)
Record open_answer := OpenAnswer {
    oa_live : bool; oa_offline : bool; oa_dlink : Z; oa_upgraded : Z; oa_filter : bool; oa_ifidx : Z;
    oa_mac : option Z; oa_ip : option Z; oa_ip6 : option (list Z); oa_fd : Z }.
(** [strrchr], and [strncpy] in the PATH_MAX bytes of [name]. *)
Definition last_name (is_file : bool) (name : cstr) : cstr :=
  take (Z.to_nat 4095)
    (if is_file then match memrchr name SLASH (length name) with Some k => drop (S k) name | None => name end else name).
(** The addresses are not asked for when a file is read. *)
Definition live {A} (is_file : bool) (answer : option A) (d : A) : A := if is_file then d else default d answer.

Definition open_interface (i : nat) (ifname : cstr) (ifid : Z) (a : open_answer) : M pcapd_runtime pcapd_rv :=
  if negb (oa_live a) && negb (oa_offline a) then mret PCAPD_INTERFACE_OPEN_FAILED else
  let is_file := negb (oa_live a) in
  r ← getS;
  let h := rt_next_handle r in
  putS (r <| rt_next_handle ::= Z.succ |> <| rt_handles ::= union {[h]} |>) ;;
  let dlink := if oa_dlink a =? PCAPD_DLT_LINUX_SLL then oa_upgraded a else oa_dlink a in
  let ipoffset := get_ip_offset dlink in
  if ipoffset <? 0 then pcap_close (Some h) ;; mret PCAPD_UNSUPPORTED_DATALINK else
  if negb (oa_filter a) then pcap_close (Some h) ;; mret PCAPD_INTERFACE_OPEN_FAILED else
  set_iface i (fun f => f <| if_pd := Some h |> <| if_is_file := is_file |> <| if_ifid := ifid |>
    <| if_ifidx := oa_ifidx a |>
    <| if_mac := if dlink =? PCAPD_DLT_ETHERNET then live is_file (oa_mac a) 0 else 0 |>
    <| if_ip := live is_file (oa_ip a) 0 |>
    <| if_ip6 := if is_file then if_ip6 f else default (replicate 16 0) (oa_ip6 a) |>
    <| if_dlink := dlink |> <| if_ipoffset := ipoffset |> <| if_pf := oa_fd a |>
    <| if_name := last_name is_file ifname |>) ;;
  modifyS (fun r => r <| rt_maxfd ::= fun m => Z.max m (oa_fd a) |>) ;;
  mret PCAPD_OK.

(** What the kernel says of the route: whether there is a socket, the reply to a request,
    the name of the interface, what opening it gives, the statistics of the old one. *)
Record route_answer := RouteAnswer {
    ra_socket : bool; ra_reply : list Z -> option (list Z); ra_name : option cstr; ra_open : open_answer;
    ra_stats : pcap_stat }.
(** An arbitrary public address, 96.6.6.6 in the byte order of the host. *)
Definition pubaddr : list Z := le_bytes 4 0x60060606.
(** [nl_get_route] counts its requests. *)
Definition get_route (a : route_answer) : M pcapd_runtime (Z * Z) :=
  if negb (ra_socket a) then mret (-1, -1) else
  modifyS (fun r => r <| rt_route_seq ::= fun n => u32 (n + 1) |>) ;;
  r ← getS;
  res ← liftO (nl_get_route (ra_reply a) AF_INET pubaddr (rt_route_seq r));
  mret (fst res).
Definition check_inet_interface (inet_ifid : Z) (a : route_answer) : M pcapd_runtime unit :=
  r ← getS;
  match rt_inet_iface r with
  | None => mret tt
  | Some i =>
      route ← get_route a;
      iface ← iface_at i;
      if (fst route <? 0) || (snd route =? if_ifidx iface) then mret tt else
      match ra_name a with
      | None => mret tt
      | Some ifname =>
          let old_pd := if_pd iface in
          rv ← open_interface i ifname inet_ifid (ra_open a);
          if negb (bool_decide (rv = PCAPD_OK)) then mret tt else
          match old_pd with
          | Some _ => account i old_pd (ra_stats a) ;; pcap_close old_pd
          | None => mret tt
          end
      end
  end.

Fixpoint find_ifidx (l : list pcapd_iface) (i : nat) (ifidx : Z) : option nat :=
  match l with
  | [] => None
  | f :: l => if if_ifidx f =? ifidx then Some i else find_ifidx l (S i) ifidx
  end.
Definition iface_by_ifidx (ifidx : Z) : M pcapd_runtime (option nat) :=
  r ← getS; mret (find_ifidx (rt_ifaces r) 0 ifidx).

(** What the system answers about the interface of a message. *)
Record link_answer := LinkAnswer { la_ip : option Z; la_ip6 : option (list Z); la_stats : pcap_stat }.
Definition set_addresses (i : nat) (a : link_answer) : M pcapd_runtime unit :=
  set_iface i (fun f => f <| if_ip := default (if_ip f) (la_ip a) |> <| if_ip6 := default (replicate 16 0) (la_ip6 a) |>).
(** [true] when the internet interface is the one that is deleted. *)
Definition link_deleted (i : nat) (a : link_answer) : M pcapd_runtime bool :=
  iface ← iface_at i;
  r ← getS;
  again ← match rt_inet_iface r with
          | Some k => inet ← iface_at k; mret (if_ifidx iface =? if_ifidx inet)
          | None => mret false
          end;
  close_interface i (la_stats a) ;;
  mret again.
(** The messages from [p] on, [len] bytes of them; [true] when the internet interface
    has to be checked again.  The index is at the same place of an [ifaddrmsg] and of an
    [ifinfomsg]. *)
Fixpoint nl_loop (fuel : nat) (answers : nat -> link_answer) (k : nat) (p len : Z) (recheck_inet : bool) :
    M pcapd_runtime bool :=
  r ← getS;
  if len <? 16 then mret recheck_inet else
  nlen ← liftO (rd32 (rt_nlbuf r) p);
  if (nlen <? 16) || (len <? nlen) then mret recheck_inet else
  match fuel with
  | O => ub
  | S fuel =>
      type ← liftO (rd16 (rt_nlbuf r) (p + 4));
      let next := nl_loop fuel answers (S k) (p + align4 nlen) (len - align4 nlen) in
      if type =? NLMSG_DONE then mret recheck_inet
      else if (type =? RTM_NEWROUTE) || (type =? RTM_NEWRULE) then next true
      else if type =? RTM_NEWADDR then
        ifidx ← liftO (rd32 (rt_nlbuf r) (p + 20));
        i ← iface_by_ifidx (i32 ifidx);
        match i with Some i => set_addresses i (answers k) | None => mret tt end ;;
        next recheck_inet
      else if type =? RTM_DELLINK then
        ifidx ← liftO (rd32 (rt_nlbuf r) (p + 20));
        i ← iface_by_ifidx (i32 ifidx);
        again ← match i with Some i => link_deleted i (answers k) | None => mret false end;
        next (recheck_inet || again)
      else next recheck_inet
  end.
Definition NL_BUFFER_SIZE : Z := 8192.
(** [None] is a failed [recvmsg]. *)
Definition handle_nl_message (inet_ifid : Z) (d : option (list Z)) (answers : nat -> link_answer) (a : route_answer) :
    M pcapd_runtime Z :=
  match d with
  | None | Some [] => mret (-1)
  | Some d =>
      let n := Z.to_nat NL_BUFFER_SIZE in
      modifyS (fun r => r <| rt_nlbuf ::= overlay n d |>) ;;
      recheck_inet ← nl_loop (length (take n d)) answers 0 0 (Z.of_nat (length (take n d))) false;
      whenM recheck_inet (check_inet_interface inet_ifid a) ;;
      mret 0
  end.

Definition get_selectable_fds : M pcapd_runtime unit :=
  r ← getS;
  putS (r <| rt_sel_fds := ∅ |>) ;;
  whenM (0 <? rt_client r) (FD_op (rt_client r) (union {[rt_client r]})) ;;
  whenM (0 <? rt_nlroute_sock r) (FD_op (rt_nlroute_sock r) (union {[rt_nlroute_sock r]})) ;;
  forM (rt_ifaces r) (fun f => whenM (negb (if_pf f =? -1)) (FD_op (if_pf f) (union {[if_pf f]}))).

(** ** A packet *)

(** The packet, once it was captured; [fuel] bounds the loop over the UID filter. *)
Definition read_captured (fuel : nat) (conf : pcapd_conf) (i : nat) (malloc_ok : bool) (ios : list io) (pad : list Z)
    (ts : Z * Z) (pkt : list Z) : M pcapd_runtime pcapd_rv :=
  iface ← iface_at i;
  is_tx ← liftO (is_tx_packet iface pkt (u16 (Z.of_nat (length pkt))));
  r ← getS;
  let ip := drop (Z.to_nat (if_ipoffset iface)) pkt in
  p ← liftO (zdtun_parse_pkt ip (Z.of_nat (length ip)) (rt_tun r));
  putS (r <| rt_tun := snd p |>) ;;
  uid ← match fst p with
        | inl _ => mret UID_UNKNOWN
        | inr zpkt =>
            let tuple := if is_tx : bool then pkt_tuple zpkt else tupleSwapPeers (pkt_tuple zpkt) in
            if if_is_file iface then mret UID_UNKNOWN else find_uid tuple malloc_ok
        end;
  pass ← liftO (matches_uid_filter fuel (cf_uid_filter conf) uid);
  if negb pass then mret PCAPD_OK else
  let '(hdr, data) := export conf iface ts pkt uid is_tx in
  ok ← (if cf_no_client conf then mret true else send (if_ifid iface) pad hdr data ios);
  if negb ok then mret PCAPD_SOCKET_WRITE_ERROR else
  whenM (if_is_file iface) (set_iface i (fun f => f <| if_stats ::= fun s => s <| ps_recv ::= fun n => u32 (n + 1) |> |>)) ;;
  mret PCAPD_OK.

(** What one call of [read_pkt] is given: the packet, and what the system does. *)
Record read_input_t := ReadIn {
    in_next : next_ex; in_malloc : bool; in_ios : list io; in_pad : list Z; in_stats : pcap_stat }.
Definition read_pkt (fuel : nat) (conf : pcapd_conf) (i : nat) (inp : read_input_t) (now : Z) : M pcapd_runtime pcapd_rv :=
  iface ← iface_at i;
  use_handle (if_pd iface) ;;
  match in_next inp with
  | NextError =>
      close_interface i (in_stats inp) ;;
      r ← getS;
      mret (if bool_decide (rt_inet_iface r = Some i) then PCAPD_OK else PCAPD_PCAP_READ_ERROR)
  | NextBreak => mret PCAPD_EOF
  | NextNone => mret PCAPD_OK
  | NextPkt ts pkt =>
      rv ← (if if_ipoffset iface <=? Z.of_nat (length pkt)
            then read_captured fuel conf i (in_malloc inp) (in_ios inp) (in_pad inp) ts pkt else mret PCAPD_OK);
      if negb (bool_decide (rv = PCAPD_OK)) then mret rv else
      iface ← iface_at i;
      whenM (if_next_stats_update iface <=? now)
        (use_handle (if_pd iface) ;;
         set_iface i (fun f => f <| if_stats := in_stats inp |> <| if_next_stats_update := now + 3 |>)) ;;
      mret PCAPD_OK
  end.

(** ** The daemon *)

Definition init_interface : pcapd_iface :=
  Iface [] (-1) 0 false None (-1) 0 0 0 0 (replicate 16 0) 0 pcap_stat_zero.

(** The runtime before [init_pcapd_capture], all zeros but the interfaces. *)
Definition rt_zero (conf : pcapd_conf) : pcapd_runtime :=
  Rt (-1) false (NlState 0 []) 0 (replicate (Z.to_nat NL_BUFFER_SIZE) 0) (-1) ∅ (UidLruT 64 []) None
    (replicate (length (cf_ifnames conf)) init_interface) pcap_stat_zero ∅ 0 ∅ 0 [].
(** What the system answers: the descriptors of the two sockets, whether this is root
    and whether there is a socket for sock_diag. *)
Record init_socks := InitSocks { is_nlroute : Z; is_client : Z; is_root : bool; is_diag : bool }.
Definition init_pcapd_capture (conf : pcapd_conf) (a : init_socks) : M pcapd_runtime unit :=
  whenM (negb (cf_inet_ifid conf =? -1))
    (modifyS (fun r => r <| rt_inet_iface := Some (Z.to_nat (cf_inet_ifid conf)) |> <| rt_nlroute_sock := is_nlroute a |>
      <| rt_maxfd ::= fun m => Z.max m (is_nlroute a) |>)) ;;
  whenM (is_root a)
    (working ← in_nl (nl_is_diag_working kernel stack);
     modifyS (fun r => r <| rt_nldiag := working && is_diag a |>)) ;;
  whenM (negb (cf_no_client conf))
    (modifyS (fun r => r <| rt_client := is_client a |> <| rt_maxfd ::= fun m => Z.max m (is_client a) |>)).

(** The interfaces of the command line; the first failure ends the daemon. *)
Fixpoint open_all (i : nat) (names : list cstr) (answers : nat -> open_answer) : M pcapd_runtime pcapd_rv :=
  match names with
  | [] => mret PCAPD_OK
  | name :: names =>
      rv ← (if bool_decide (name = INET) then mret PCAPD_OK else open_interface i name (Z.of_nat i) (answers i));
      if negb (bool_decide (rv = PCAPD_OK)) then mret rv else open_all (S i) names answers
  end.

(** What a turn of the loop finds: [select] fails, with EINTR or not, or says which
    descriptors are ready; what is then read from each; the time; what the routes
    are when the internet interface is down. *)
Inductive select_answer := SelectFails (eintr : bool) | Selected (fds : gset Z).
Record turn_input := TurnIn {
    ti_select : select_answer;
    ti_msgs : option (list Z);
    ti_links : nat -> link_answer;
    ti_route : route_answer;
    ti_packets : nat -> read_input_t;
    ti_now : Z;
    ti_recheck : route_answer;
  }.

(** How a turn ends: the loop goes on, [running] is 0, or it is left at once. *)
Inductive flow := Running | Stopped (rv : pcapd_rv) | Left (rv : pcapd_rv).

(** The interfaces that are ready, in order. *)
Fixpoint read_ready (fuel : nat) (conf : pcapd_conf) (idx : list nat) (fds : gset Z) (inputs : nat -> read_input_t) (now : Z) :
    M pcapd_runtime flow :=
  match idx with
  | [] => mret Running
  | i :: idx =>
      iface ← iface_at i;
      rv ← (if negb (if_pf iface =? -1) && bool_decide (if_pf iface ∈ fds)
            then read_pkt fuel conf i (inputs i) now else mret PCAPD_OK);
      if negb (bool_decide (rv = PCAPD_OK)) then mret (Stopped (if bool_decide (rv = PCAPD_EOF) then PCAPD_OK else rv))
      else read_ready fuel conf idx fds inputs now
  end.
Definition dispatch (fuel : nat) (conf : pcapd_conf) (t : turn_input) : M pcapd_runtime flow :=
  match ti_select t with
  | SelectFails eintr => mret (Left (if eintr then PCAPD_OK else PCAPD_ERROR))
  | Selected ready =>
      r ← getS;
      let fds := filter (fun fd => fd < rt_maxfd r + 1) (ready ∩ rt_sel_fds r) in
      if (0 <? rt_client r) && bool_decide (rt_client r ∈ fds) then mret (Left PCAPD_OK)
      else if (0 <? rt_nlroute_sock r) && bool_decide (rt_nlroute_sock r ∈ fds) then
        rv ← handle_nl_message (cf_inet_ifid conf) (ti_msgs t) (ti_links t) (ti_route t);
        if rv <? 0 then mret (Left PCAPD_NETLINK_ERROR) else get_selectable_fds ;; mret Running
      else read_ready fuel conf (seq 0 (length (rt_ifaces r))) fds (ti_packets t) (ti_now t)
  end.
Definition daemon_turn (fuel : nat) (conf : pcapd_conf) (t : turn_input) (next_recheck : Z) : M pcapd_runtime (flow * Z) :=
  f ← dispatch fuel conf t;
  match f with
  | Left rv => mret (f, next_recheck)
  | _ =>
      r ← getS;
      match rt_inet_iface r with
      | Some k =>
          inet ← iface_at k;
          if bool_decide (if_pd inet = None) && (next_recheck <=? ti_now t) then
            check_inet_interface (cf_inet_ifid conf) (ti_recheck t) ;;
            mret (f, ti_now t + 2)
          else mret (f, next_recheck)
      | None => mret (f, next_recheck)
      end
  end.
(** The list of turns ends when a signal has cleared [running]. *)
Fixpoint daemon_loop (fuel : nat) (conf : pcapd_conf) (turns : list turn_input) (next_recheck : Z) : M pcapd_runtime pcapd_rv :=
  match turns with
  | [] => mret PCAPD_OK
  | t :: turns =>
      r ← daemon_turn fuel conf t next_recheck;
      match fst r with
      | Running => daemon_loop fuel conf turns (snd r)
      | Stopped rv | Left rv => mret rv
      end
  end.
(** [has_conf] says whether the runtime has its configuration, which the number of
    interfaces is read from. *)
Definition finish_pcapd_capture (has_conf : bool) (stats : nat -> pcap_stat) : M pcapd_runtime unit :=
  if has_conf then
    r ← getS;
    forM (seq 0 (length (rt_ifaces r))) (fun i => close_interface i (stats i))
  else ub.

(** How the initialisation goes: [zdtun_init] or the fork fails, before the runtime has
    its configuration; something after that fails; the sockets are open. *)
Inductive init_answer := InitTooEarly | InitFails | InitDone (socks : init_socks).
Definition run_pcap_dump (fuel : nat) (conf : pcapd_conf) (init : init_answer) (first : route_answer)
    (answers : nat -> open_answer) (turns : list turn_input) (stats : nat -> pcap_stat) : M pcapd_runtime pcapd_rv :=
  match init with
  | InitTooEarly => finish_pcapd_capture false stats ;; mret PCAPD_ERROR
  | InitFails => putS (rt_zero conf) ;; finish_pcapd_capture true stats ;; mret PCAPD_ERROR
  | InitDone socks =>
      putS (rt_zero conf) ;;
      init_pcapd_capture conf socks ;;
      check_inet_interface (cf_inet_ifid conf) first ;;
      rv ← open_all 0 (cf_ifnames conf) answers;
      rv ← (if bool_decide (rv = PCAPD_OK) then get_selectable_fds ;; daemon_loop fuel conf turns 0 else mret rv);
      finish_pcapd_capture true stats ;;
      mret rv
  end.

End daemon.

(** The other end: the header is read, then as many bytes as it says
    ([run_libpcap]).  The inner [None] is an error or the end of the stream, which
    ends the capture. *)
Definition parse_hdr (b : list Z) : option pcapd_hdr :=
  sec ← rdn 8 b 0; usec ← rdn 8 b 8; drops ← rd32 b 16; uid ← rd32 b 20; len ← rd16 b 24; link ← rd16 b 26;
  flags ← rd8 b 28;
  Some (Hdr (iwrap 64 (le_val sec), iwrap 64 (le_val usec)) drops uid len link flags).
Definition PCAPD_HDR_SIZE : nat := 32.
Definition read_input (ios : list io) (stream : list Z) :
    option (option (pcapd_hdr * list Z) * list Z * list io) :=
  let '(xrv, b, stream, ios) := xread ios PCAPD_HDR_SIZE [] stream in
  if negb (xrv =? Z.of_nat PCAPD_HDR_SIZE) then Some (None, stream, ios) else
  hdr ← parse_hdr b;
  if PCAPD_SNAPLEN <? h_len hdr then Some (None, stream, ios) else
  let '(xrv, data, stream, ios) := xread ios (Z.to_nat (h_len hdr)) [] stream in
  if negb (xrv =? h_len hdr) then Some (None, stream, ios) else
  Some (Some (hdr, data), stream, ios).

End Pcapd.
