(* ===== verification/PcapdSpec.v ===== *)
(** * From the daemon to the capture

    What the daemon writes on its socket is what the capture reads, however the
    kernel cuts the stream; and the capture looks a packet up under the tuple the
    daemon found the owner of. *)

From S2P Require Import Prelude CString CFormat UtHash ZdtunTypes ZdtunPkt ParseMore UidLru UidProc DaemonArgs PcapDump PcapSpec PcapRead PdTypes PdVpn PdJni Libpcap NlUtils NlSpec Pcapd.

Module PcapdSpec.
Export Pcapd.
Import ZdtunPkt ParseMore UidLru UidProc DaemonArgs PcapRead NlUtils NlSpec.

(** ** Calls that move a number of bytes *)

(** Interrupted calls, then calls that move some of the bytes each until none is left. *)
Inductive moves : nat -> list io -> list io -> Prop :=
  | moves_intr n ios ios' : n <> O -> moves n ios ios' -> moves n (Eintr :: ios) ios'
  | moves_last n ios : moves n (Count n :: ios) ios
  | moves_more k n ios ios' : k <> O -> n <> O -> moves n ios ios' -> moves (k + n) (Count k :: ios) ios'.

Lemma xwrite_moves buf n sofar ios ios' :
  moves n ios ios' -> (sofar + n = length buf)%nat -> xwrite ios buf sofar = (0, buf, ios').
Proof.
  intros Hm. revert sofar. induction Hm as [n ios ios' Hn Hm IH|n ios|k n ios ios' Hk Hn Hm IH]; intros sofar Hl; cbn [xwrite].
  - rewrite bool_decide_eq_false_2 by lia. by apply IH.
  - rewrite !bool_decide_eq_true_2 by done. cbn [negb andb]. by rewrite take_ge by lia.
  - rewrite !bool_decide_eq_false_2 by lia. cbn [negb andb]. apply IH. lia.
Qed.
Lemma xread_moves count n ios ios' acc a rest :
  moves n ios ios' -> length a = n -> (length acc + n = count)%nat ->
  xread ios count acc (a ++ rest) = (Z.of_nat count, acc ++ a, rest, ios').
Proof.
  intros Hm. revert acc a. induction Hm as [n ios ios' Hn Hm IH|n ios|k n ios ios' Hk Hn Hm IH]; intros acc a Hl Hc; cbn [xread].
  - rewrite bool_decide_eq_false_2 by lia. by apply IH.
  - rewrite take_app_length', drop_app_length' by done.
    rewrite !bool_decide_eq_true_2 by (rewrite length_app; lia). done.
  - assert (Hs : exists a1 a2, a = a1 ++ a2 /\ length a1 = k).
    { exists (take k a), (drop k a). rewrite take_drop, length_take. split; [done|lia]. }
    destruct Hs as (a1 & a2 & -> & Ht). rewrite length_app in Hl. rewrite <-app_assoc.
    rewrite take_app_length', drop_app_length' by done.
    rewrite !bool_decide_eq_false_2 by (rewrite ?length_app; lia). cbn [negb andb].
    rewrite IH; [by rewrite <-app_assoc|lia|rewrite length_app; lia].
Qed.

(** ** The header *)

Record hdr_ok (h : pcapd_hdr) : Prop := {
    ho_sec : - 2 ^ 63 <= fst (h_ts h) < 2 ^ 63;
    ho_usec : - 2 ^ 63 <= snd (h_ts h) < 2 ^ 63;
    ho_drops : u_ok 32 (h_pkt_drops h);
    ho_uid : u_ok 32 (h_uid h);
    ho_len : u_ok 16 (h_len h);
    ho_link : u_ok 16 (h_linktype h);
    ho_flags : u_ok 8 (h_flags h);
  }.

Lemma iwrap_of_bytes z : - 2 ^ 63 <= z < 2 ^ 63 -> iwrap 64 (le_val (le_bytes 8 z)) = z.
Proof.
  intros Hz. rewrite le_val_le_bytes. unfold iwrap. change (8 * Z.of_nat 8) with 64.
  rewrite Zplus_mod_idemp_l. change (2 ^ (64 - 1)) with (2 ^ 63). rewrite Z.mod_small by lia. lia.
Qed.
Lemma length_hdr_bytes ifid pad h : length pad = 2%nat -> length (hdr_bytes ifid pad h) = PCAPD_HDR_SIZE.
Proof. intros Hp. unfold hdr_bytes. by rewrite !length_app, !length_le_bytes, Hp. Qed.

Lemma parse_hdr_bytes ifid pad h : hdr_ok h -> parse_hdr (hdr_bytes ifid pad h) = Some h.
Proof.
  intros [H1 H2 H3 H4 H5 H6 H7]. unfold parse_hdr, hdr_bytes. set (b := _ ++ _).
  assert (F0 : rdn 8 b 0 = Some (le_bytes 8 (fst (h_ts h)))) by (unfold b; by fld).
  assert (F8 : rdn 8 b 8 = Some (le_bytes 8 (snd (h_ts h)))) by (unfold b; by fld).
  assert (F16 : rd32 b 16 = Some (h_pkt_drops h)) by (unfold b; rdf).
  assert (F20 : rd32 b 20 = Some (h_uid h)) by (unfold b; rdf).
  assert (Hw : forall v off, rdn 2 b off = Some (le_bytes 2 v) -> u_ok 16 v -> rd16 b off = Some v).
  { intros v off E Hv. unfold rd16. rewrite E. cbn [fmap option_fmap option_map]. rewrite le_val_le_bytes. f_equal. by apply Z.mod_small. }
  assert (F24 : rd16 b 24 = Some (h_len h)) by (apply Hw; [unfold b; by fld|done]).
  assert (F26 : rd16 b 26 = Some (h_linktype h)) by (apply Hw; [unfold b; by fld|done]).
  assert (F28 : rd8 b 28 = Some (h_flags h)).
  { assert (E : rdn 1 b 28 = Some (le_bytes 1 (h_flags h))) by (unfold b; by fld).
    revert E. unfold rdn, rd8. destruct (_ && _); [|done]. change (Z.to_nat 28) with 28%nat. intros E. apply (inj Some) in E.
    change (0 <=? 28) with true. cbv iota.
    assert (Hh : le_bytes 1 (h_flags h) = [h_flags h]) by (cbn; f_equal; apply Z.mod_small; exact H7).
    rewrite Hh in E. apply (f_equal (fun l => l !! 0%nat)) in E. rewrite lookup_take_lt, lookup_drop in E by lia. exact E. }
  rewrite F0. cbn [mbind option_bind]. rewrite F8. cbn [mbind option_bind]. rewrite F16. cbn [mbind option_bind].
  rewrite F20. cbn [mbind option_bind]. rewrite F24. cbn [mbind option_bind]. rewrite F26. cbn [mbind option_bind].
  rewrite F28. cbn [mbind option_bind]. rewrite !iwrap_of_bytes by done. by destruct h as [[? ?] ? ? ? ? ?].
Qed.

(** ** One packet through the socket *)

Lemma send_ok ifid pad h data ios ios1 ios2 r :
  length pad = 2%nat -> h_len h = Z.of_nat (length data) ->
  moves PCAPD_HDR_SIZE ios ios1 -> moves (length data) ios1 ios2 ->
  send ifid pad h data ios r =
  Some (true, r <| rt_sent := rt_sent r ++ hdr_bytes ifid pad h ++ data |>).
Proof.
  intros Hp Hl H1 H2. unfold send.
  rewrite (xwrite_moves _ PCAPD_HDR_SIZE 0 ios ios1) by (done || by rewrite length_hdr_bytes).
  rewrite bind_modify. change (0 <? 0) with false. cbv iota.
  assert (Ht : take (Z.to_nat (h_len h)) data = data) by (rewrite Hl, Nat2Z.id; by apply take_ge).
  rewrite Ht, (xwrite_moves _ (length data) 0 ios1 ios2) by done.
  rewrite bind_modify. cbn. unfold mret, M_ret. do 3 f_equal. by rewrite <-app_assoc.
Qed.

Lemma read_ok ifid pad h data ios ios1 ios2 rest :
  hdr_ok h -> length pad = 2%nat -> h_len h = Z.of_nat (length data) ->
  moves PCAPD_HDR_SIZE ios ios1 -> moves (length data) ios1 ios2 ->
  read_input ios (hdr_bytes ifid pad h ++ data ++ rest) = Some (Some (h, data), rest, ios2).
Proof.
  intros Hh Hp Hl H1 H2. unfold read_input.
  rewrite (xread_moves PCAPD_HDR_SIZE PCAPD_HDR_SIZE ios ios1) by (done || by rewrite length_hdr_bytes).
  cbn [app]. rewrite Z.eqb_refl. cbn [negb]. rewrite parse_hdr_bytes by done. cbn [mbind option_bind].
  destruct (Z.ltb_spec PCAPD_SNAPLEN (h_len h)) as [H|_].
  { pose proof (ho_len h Hh). unfold u_ok, PCAPD_SNAPLEN in *. lia. }
  rewrite Hl, Nat2Z.id. rewrite (xread_moves (length data) (length data) ios1 ios2) by done.
  cbn [app]. by rewrite Z.eqb_refl.
Qed.

(** ** A sequence of packets *)

Record message := Msg { m_ifid : Z; m_pad : list Z; m_hdr : pcapd_hdr; m_data : list Z; m_ios : list io }.
Record msg_ok (m : message) : Prop := {
    mo_hdr : hdr_ok (m_hdr m);
    mo_pad : length (m_pad m) = 2%nat;
    mo_len : h_len (m_hdr m) = Z.of_nat (length (m_data m));
    mo_ios : exists ios1 ios2, moves PCAPD_HDR_SIZE (m_ios m) ios1 /\ moves (length (m_data m)) ios1 ios2;
  }.
Definition sends (l : list message) : M pcapd_runtime unit :=
  forM l (fun m => send (m_ifid m) (m_pad m) (m_hdr m) (m_data m) (m_ios m) ;; mret tt).

(** As many packets as the capture gets. *)
Fixpoint read_inputs (n : nat) (ios : list io) (stream : list Z) :
    option (list (pcapd_hdr * list Z) * list Z * list io) :=
  match n with
  | O => Some ([], stream, ios)
  | S n =>
      r ← read_input ios stream;
      match r with
      | (Some i, stream, ios) => r ← read_inputs n ios stream; let '(l, stream, ios) := r in Some (i :: l, stream, ios)
      | (None, stream, ios) => Some ([], stream, ios)
      end
  end.
Inductive reads : list message -> list io -> list io -> Prop :=
  | reads_nil ios : reads [] ios ios
  | reads_cons m l ios ios1 ios2 ios3 :
      moves PCAPD_HDR_SIZE ios ios1 -> moves (length (m_data m)) ios1 ios2 -> reads l ios2 ios3 -> reads (m :: l) ios ios3.

Definition msg_bytes (m : message) : list Z := hdr_bytes (m_ifid m) (m_pad m) (m_hdr m) ++ m_data m.
Lemma sends_ok l r : Forall msg_ok l ->
  sends l r = Some (tt, r <| rt_sent := rt_sent r ++ concat (msg_bytes <$> l) |>).
Proof.
  intros Hl. revert r. induction Hl as [|m l [Hh Hp Hn (ios1 & ios2 & H1 & H2)] Hl IH]; intros r.
  - cbn. rewrite app_nil_r. by destruct r.
  - unfold sends in *. cbn [forM]. rewrite bind_assoc, (bind_run _ _ _ _ _ (send_ok _ _ _ _ _ _ _ r Hp Hn H1 H2)), bind_ret, IH.
    change (concat (msg_bytes <$> m :: l)) with ((hdr_bytes (m_ifid m) (m_pad m) (m_hdr m) ++ m_data m) ++ concat (msg_bytes <$> l)).
    set (x := rt_sent r ++ _). change (rt_sent (r <| rt_sent := x |>)) with x.
    change ((r <| rt_sent := x |>) <| rt_sent := x ++ concat (msg_bytes <$> l) |>) with (r <| rt_sent := x ++ concat (msg_bytes <$> l) |>).
    unfold x. by rewrite <-!app_assoc.
Qed.

(** C19: whatever the packets and however the kernel cuts the writes and the reads,
    interrupted calls included, the capture receives exactly the headers and the
    bytes the daemon sent, in order, and nothing is left. *)
Theorem stream_roundtrip l ios ios' r :
  Forall msg_ok l -> reads l ios ios' -> rt_sent r = [] ->
  exists r', sends l r = Some (tt, r') /\
    read_inputs (length l) ios (rt_sent r') = Some ((fun m => (m_hdr m, m_data m)) <$> l, [], ios').
Proof.
  intros Hl Hr Hs. eexists. split; [by apply sends_ok|]. cbn. rewrite Hs. cbn [app]. clear r Hs.
  induction Hr as [ios|m l ios ios1 ios2 ios3 H1 H2 Hr IH]; [done|]. apply Forall_cons in Hl as [[Hh Hp Hn _] Hl].
  cbn [length read_inputs fmap list_fmap concat]. unfold msg_bytes at 1. rewrite <-app_assoc.
  rewrite (read_ok _ _ _ _ ios ios1 ios2) by done. cbn [mbind option_bind]. by rewrite IH.
Qed.

(** ** The owner of a packet *)

(** An interface as [open_interface] leaves it. *)
Record iface_ok (i : pcapd_iface) : Prop := {
    io_offset : if_ipoffset i = get_ip_offset (if_dlink i) /\ 0 <= if_ipoffset i;
    io_link : u_ok 16 (if_dlink i);
    io_drop : u_ok 32 (ps_drop (if_stats i));
  }.

Lemma is_tx_ip_total iface pkt off len :
  bytes_ok pkt -> 0 <= off -> off + len <= Z.of_nat (length pkt) -> is_Some (is_tx_ip iface pkt off len).
Proof.
  intros Hb Ho Hl. unfold is_tx_ip, IPV6_HEADER_LEN. destruct (Z.ltb_spec len 20); [by eexists|].
  destruct (rd8_is_Some pkt off) as (b & -> & _); [lia|done|]. cbn [mbind option_bind].
  destruct (_ =? 4).
  { destruct (rd32_is_Some pkt (off + 16)) as (d & -> & _); [lia|lia|done|]. by eexists. }
  destruct (_ =? 6); cbn [andb]; [|by eexists]. destruct (Z.leb_spec 40 len); [|by eexists].
  destruct (rdn_is_Some 16 pkt (off + 24)) as (d & -> & _); [lia|lia|done|]. by eexists.
Qed.
Lemma is_tx_total iface pkt :
  bytes_ok pkt -> is_Some (is_tx_packet iface pkt (Z.of_nat (length pkt))).
Proof.
  intros Hb. unfold is_tx_packet, bytes2mac. set (n := Z.of_nat (length pkt)).
  assert (Hip : forall off, 0 <= off -> is_Some (is_tx_ip iface pkt off (n - off)))
    by (intros off Ho; apply is_tx_ip_total; [done|done|lia]).
  assert (Hif : forall (b b' : bool) o, is_Some o -> is_Some (if b then Some false else if b' then Some true else o))
    by (intros [] [] o Ho; done).
  destruct (_ =? PCAPD_DLT_ETHERNET); cbn [andb]; [destruct (Z.leb_spec 14 n)|].
  { destruct (rdn_is_Some 6 pkt 6) as (a & -> & _); [lia|lia|done|]. destruct (rdn_is_Some 6 pkt 0) as (b & -> & _); [lia|lia|done|].
    cbn. destruct (_ && _); [done|]. destruct (_ && _); [done|]. by apply Hip. }
  all: destruct (_ =? PCAPD_DLT_LINUX_SLL); cbn [andb]; [destruct (Z.leb_spec 16 n)|].
  all: try (destruct (rd16_is_Some pkt 0) as (a & -> & _); [lia|lia|done|]; apply Hif; by apply Hip).
  all: destruct (_ =? PCAPD_DLT_LINUX_SLL2); cbn [andb]; [destruct (Z.leb_spec 20 n)|].
  all: try (destruct (rd8_is_Some pkt 10) as (a & -> & _); [lia|done|]; apply Hif; by apply Hip).
  all: rewrite <-(Z.sub_0_r n); by apply Hip.
Qed.

Section owner.
Context (fopen : string -> option (list Z)) (kernel : list Z -> option (list (list Z))) (stack : list Z).
Context (owner : bool -> list Z -> kanswer).
Hypothesis kernel_spec : kernel_ok kernel owner.
Hypothesis proc_read : forall t, is_Some (get_uid_slow fopen t).

(** As long as sock_diag is used, its socket is between two requests. *)
Definition nl_calm (r : pcapd_runtime) : Prop := rt_nldiag r = true -> calm (rt_nl r).

Lemma wp_in_nl {A} (m : M nl_state A) (Q : A -> pcapd_runtime -> Prop) r :
  wp m (fun a s => Q a (r <| rt_nl := s |>)) (rt_nl r) -> wp (in_nl m) Q r.
Proof. intros (a & s & E & HQ). exists a, (r <| rt_nl := s |>). unfold in_nl. by rewrite E. Qed.

(** Only the cache and the socket change, and sock_diag may be given up. *)
Lemma find_uid_wp tuple m r :
  nl_calm r -> wp (find_uid fopen kernel stack tuple m) (fun _ r' =>
    (exists lru d nl, r' = r <| rt_lru := lru |> <| rt_nldiag := d |> <| rt_nl := nl |>) /\ nl_calm r') r.
Proof.
  intros Hcalm. unfold find_uid. wp_step. wp_step. destruct (uid_lru_find _ _) as [uid lru]. wp_step. wp_step.
  destruct (uid =? -2); [|wp_step; split; [by exists lru, (rt_nldiag r), (rt_nl r)|done]]. wp_step.
  apply (wp_mono _ (fun _ r' => (exists d nl, r' = r <| rt_lru := lru |> <| rt_nldiag := d |> <| rt_nl := nl |>) /\ nl_calm r')).
  - unfold resolve, get_uid. wp_step. wp_step. destruct (proc_read tuple) as [u Eu].
    destruct (rt_nldiag _ && _) eqn:Ed; [|eapply wp_lift; [done|]; split; [by exists (rt_nldiag r), (rt_nl r)|done]].
    apply andb_prop in Ed as [Ed _]. change (rt_nldiag r = true) in Ed. wp_step. apply wp_in_nl.
    eapply wp_mono; [by apply (wp_nl_get_uid owner); [|apply Hcalm]|]. cbv zeta. intros v s1 [Hc Hv].
    destruct (_ && _) eqn:Eb.
    + wp_step. wp_step. eapply wp_lift; [done|]. split; [by exists false, s1|done].
    + wp_step. split; [by exists true, s1; rewrite <-Ed|]. intros _. destruct Hc as [Hc|Hc]; [|done].
      rewrite Hc in Hv. rewrite Hv in Eb. done.
  - intros u r2 [(d & nl & ->) Hc2]. wp_step. wp_step. wp_step. split; [by eexists _, d, nl|done].
Qed.
Lemma find_uid_total tuple m r : nl_calm r -> exists uid r', find_uid fopen kernel stack tuple m r = Some (uid, r') /\
  rt_tun r' = rt_tun r /\ rt_ifaces r' = rt_ifaces r /\ rt_sent r' = rt_sent r.
Proof. intros Hc. destruct (find_uid_wp tuple m r Hc) as (uid & r' & E & (lru & d & nl & ->) & _). by eexists uid, _. Qed.

(** The tuple a packet belongs to, of the peer the direction says is the client. *)
Definition client_tuple (tx : bool) (p : zdtun_pkt) : zdtun_5tuple :=
  if tx then pkt_tuple p else tupleSwapPeers (pkt_tuple p).

(** C9: a packet of an interface, link header included, reaches the capture with the
    UID of the very connection the capture looks it up under: both parse it alike,
    in the longer buffer of the capture too, keep the same table of fragments, and
    take the same peer for the client. *)
Theorem daemon_attribution conf fuel i iface m ios ios1 ios2 pad ts pkt r :
  rt_ifaces r !! i = Some iface ->
  cf_dump_datalink conf = true -> cf_no_client conf = false -> cf_uid_filter conf = None ->
  iface_ok iface -> if_is_file iface = false -> frag_table_ok (rt_tun r) -> nl_calm r ->
  bytes_ok pkt -> if_ipoffset iface <= Z.of_nat (length pkt) <= 65535 ->
  length pad = 2%nat -> moves PCAPD_HDR_SIZE ios ios1 -> moves (length pkt) ios1 ios2 ->
  exists hdr r', read_captured fopen kernel stack fuel conf i m ios pad ts pkt r = Some (PCAPD_OK, r') /\
    rt_sent r' = rt_sent r ++ hdr_bytes (if_ifid iface) pad hdr ++ pkt /\
    h_linktype hdr = if_dlink iface /\ h_len hdr = Z.of_nat (length pkt) /\
    forall s rest, buffer s = pkt ++ rest -> id2ports s = rt_tun r ->
      let off := get_ip_offset (h_linktype hdr) in
      exists res, zdtun_parse_pkt (drop (Z.to_nat off) (buffer s)) (h_len hdr - off) (id2ports s) = Some (res, rt_tun r') /\
        match res with
        | inl _ => h_uid hdr = u32 UidProc.UID_UNKNOWN
        | inr p => exists uid r1, find_uid fopen kernel stack (client_tuple (test (h_flags hdr) PCAPD_FLAG_TX) p) m
                     (r <| rt_tun := rt_tun r' |>) = Some (uid, r1) /\ h_uid hdr = u32 uid
        end.
Proof.
  intros Hat Hdl Hnc Hf Hi Hfile Ht Hcalm Hb Hlen Hpad Hm1 Hm2. destruct Hi as [[Hoff Hoff0] Hlink Hdrop].
  set (off := if_ipoffset iface) in *.
  destruct (is_tx_total iface pkt Hb) as [tx Etx].
  assert (Hl16 : u16 (Z.of_nat (length pkt)) = Z.of_nat (length pkt)) by (apply uwrap_id; unfold u_ok; lia).
  set (ip := drop (Z.to_nat off) pkt).
  assert (Hip : Z.of_nat (length ip) = Z.of_nat (length pkt) - off) by (unfold ip; rewrite length_drop; lia).
  destruct (zdtun_parse_pkt_run ip (Z.of_nat (length ip))) with (t := rt_tun r) as (res & tun & Ep & Htun & _);
    [by apply Forall_drop|lia|unfold u_ok; lia|done|].
  set (r1 := r <| rt_tun := tun |>).
  (* the UID, and the state after it was looked up *)
  assert (Hu : exists uid r2,
    match res with inl _ => mret UidProc.UID_UNKNOWN | inr p => find_uid fopen kernel stack (client_tuple tx p) m end r1 = Some (uid, r2) /\
    rt_tun r2 = tun /\ rt_ifaces r2 = rt_ifaces r /\ rt_sent r2 = rt_sent r).
  { destruct res as [e|p]; [by eexists _, _|]. destruct (find_uid_total (client_tuple tx p) m r1 Hcalm) as (uid & r2 & E & H1 & H2 & H3).
    by exists uid, r2. }
  destruct Hu as (uid & r2 & Eu & Ht2 & Hi2 & Hs2).
  set (hdr := fst (export conf iface ts pkt uid tx)).
  assert (Hd : snd (export conf iface ts pkt uid tx) = pkt) by (unfold export; cbn; by rewrite Hdl).
  assert (Hhl : h_len hdr = Z.of_nat (length pkt)) by (unfold hdr, export; cbn; by rewrite Hdl, Hl16).
  assert (Hhk : h_linktype hdr = if_dlink iface) by (unfold hdr, export; cbn; rewrite Hdl; by apply uwrap_id).
  assert (Htx : test (h_flags hdr) PCAPD_FLAG_TX = tx) by (unfold hdr, export; cbn; by destruct tx).
  set (r' := r2 <| rt_sent := rt_sent r2 ++ hdr_bytes (if_ifid iface) pad hdr ++ pkt |>).
  assert (Htr : rt_tun r' = tun) by (rewrite <-Ht2; done).
  exists hdr, r'. split.
  { unfold read_captured. unfold iface_at. rewrite bind_assoc, bind_get, Hat, bind_lift, Hl16, Etx. rewrite bind_lift, bind_get. cbv zeta. fold off ip.
    rewrite Ep, bind_lift, bind_put. cbn [fst snd]. fold r1. rewrite Hfile.
    assert (Eu' : (match res with inl _ => mret UidProc.UID_UNKNOWN | inr zpkt =>
      find_uid fopen kernel stack (if tx then pkt_tuple zpkt else tupleSwapPeers (pkt_tuple zpkt)) m end) r1 = Some (uid, r2))
      by (rewrite <-Eu; by destruct res).
    rewrite (bind_run _ _ _ _ _ Eu'). rewrite Hf. cbn [matches_uid_filter]. rewrite bind_lift. cbn [negb].
    rewrite (surjective_pairing (export conf iface ts pkt uid tx)). fold hdr. rewrite Hd, Hnc.
    rewrite (bind_run _ _ _ _ _ (send_ok (if_ifid iface) pad hdr pkt ios ios1 ios2 r2 Hpad Hhl Hm1 Hm2)).
    cbn [negb whenM]. rewrite bind_ret. done. }
  split; [unfold r'; by rewrite <-Hs2|]. split; [done|]. split; [done|]. intros s rest Hbuf Hid. cbv zeta.
  rewrite Hhk, Hhl, <-Hoff, Hbuf, Hid. fold off. rewrite drop_app_le by lia. fold ip.
  exists (more_result ip rest res). split.
  - rewrite Htr, <-Hip. by apply parse_more.
  - rewrite Htr. fold r1. destruct res as [e|p]; cbn [more_result].
    + by injection Eu as <- _.
    + exists uid, r2. by rewrite Htx.
Qed.
End owner.

(** ** Concrete packets *)

(** A DNS query behind a header of 20 bytes, as the interface any has it. *)
Definition captured_ex : list Z :=
  [8; 0; 0; 0; 0; 0; 0; 7; 0; 1; 4; 6; 0; 0; 0; 0; 0; 0; 0; 0;
   0x45; 0; 0; 40; 0; 1; 0; 0; 64; 17; 0; 0; 10; 0; 0; 1; 8; 8; 8; 8;
   0x9c; 0x40; 0; 53; 0; 20; 0; 0; 0x12; 0x34; 1; 0; 0; 1; 0; 0; 0; 0; 0; 0].
Definition iface_ex : pcapd_iface :=
  Iface (str "any") 0 0 false (Some 0) 5 PCAPD_DLT_LINUX_SLL2 20 0 0 (replicate 16 0) 0 pcap_stat_zero.
Definition rt_ex : pcapd_runtime := Rt (-1) true (NlState 0 []) 0 [] 4 ∅ (UidLruT 64 []) None [iface_ex] pcap_stat_zero {[4; 5]} 5 {[0]} 1 [].
Definition conf_ex : pcapd_conf := Conf [str "any"] None None None (-1) true false false false 0.
(** The header in two writes with a signal between them, the data in one. *)
Definition ios_ex (n : nat) : list io := [Count 5; Eintr; Count 27; Count n].

Lemma moves_ex n rest : moves PCAPD_HDR_SIZE (ios_ex n ++ rest) (Count n :: rest).
Proof. change PCAPD_HDR_SIZE with (5 + 27)%nat. apply moves_more; [done|done|]. by apply moves_intr, moves_last. Defined.

Lemma stream_roundtrip_witness :
  let h := Hdr (1000, 7) 0 (u32 (-1)) 60 PCAPD_DLT_LINUX_SLL2 1 in
  exists r', sends [Msg 0 [0; 0] h captured_ex (ios_ex 60)] rt_ex = Some (tt, r') /\
    read_inputs 1 (ios_ex 60) (rt_sent r') = Some ([(h, captured_ex)], [], []).
Proof.
  intros h. refine (stream_roundtrip [Msg 0 [0; 0] h captured_ex (ios_ex 60)] (ios_ex 60) [] rt_ex _ _ _); [|..|done].
  - constructor; [|done]. split; [by split; vm_compute|done|done|]. exists [Count 60], [].
    split; [apply (moves_ex 60 [])|apply moves_last].
  - eapply reads_cons; [apply (moves_ex 60 [])|apply moves_last|apply reads_nil].
Defined.

(** A kernel without sock_diag. *)
Lemma refused_ok : kernel_ok (kernel_of (fun _ _ => Refused 1)) (fun _ _ => Refused 1).
Proof. apply kernel_of_ok. by intros _ _. Qed.
Lemma calm_ex : nl_calm rt_ex.
Proof. intros _. split; [done|by left]. Qed.
(** Without the files of /proc every owner is unknown. *)
Lemma no_files t : is_Some (get_uid_slow (fun _ => None) t).
Proof.
  assert (H : forall v a b c d, get_uid_proc (fun _ => None) v (ipproto t) a b c d = Some UidProc.UID_UNKNOWN)
    by (intros; unfold get_uid_proc; by destruct (proc_name _ _)).
  unfold get_uid_slow. rewrite !H. by destruct (_ =? _).
Qed.

Lemma daemon_attribution_witness :
  let no_file := fun _ : string => None in
  let refused := kernel_of (fun _ _ => Refused 1) in
  exists hdr r', read_captured no_file refused [] 0 conf_ex 0 true (ios_ex 60) [0; 0] (1000, 7) captured_ex rt_ex =
      Some (PCAPD_OK, r') /\
    rt_sent r' = hdr_bytes 0 [0; 0] hdr ++ captured_ex /\
    forall s rest, buffer s = captured_ex ++ rest -> id2ports s = ∅ ->
      exists res, zdtun_parse_pkt (drop 20 (buffer s)) 40 (id2ports s) = Some (res, rt_tun r') /\
        match res with
        | inl _ => h_uid hdr = u32 UidProc.UID_UNKNOWN
        | inr p => exists uid r1, find_uid no_file refused [] (client_tuple (test (h_flags hdr) PCAPD_FLAG_TX) p) true
                     (rt_ex <| rt_tun := rt_tun r' |>) = Some (uid, r1) /\ h_uid hdr = u32 uid
        end.
Proof.
  intros no_file refused.
  destruct (daemon_attribution no_file refused [] (fun _ _ => Refused 1) refused_ok no_files conf_ex 0 0 iface_ex true (ios_ex 60) [Count 60] [] [0; 0] (1000, 7) captured_ex rt_ex)
    as (hdr & r' & E & Es & Ek & El & Hall); first [exact calm_ex | done | idtac].
  - apply (bool_decide_unpack _). by vm_compute.
  - apply (moves_ex 60 []).
  - apply moves_last.
  - exists hdr, r'. split; [done|]. split; [done|]. intros s rest Hb Hi. specialize (Hall s rest Hb Hi).
    rewrite Ek, El in Hall. exact Hall.
Defined.

(** The direction in an SLL2 header is one byte, and is swapped as if it were two: a
    packet this host sent is not recognised by it. *)
Example sll2_outgoing_missed :
  let pkt := captured_ex in
  let to_us := iface_ex <| if_ip := 0x08080808 |> in
  rd8 pkt 10 = Some LINUX_SLL_OUTGOING /\ is_tx_packet to_us pkt 60 = Some false.
Proof. by split; vm_compute. Qed.

(** The second request of [nl_get_uid] is for the IPv6 sockets an IPv4 connection may
    use, but it holds the four bytes of the address at the front, not the mapped one. *)
Example nl_mapped_wrong :
  let c := Tuple (ip_of_ip4 0x0100000a) (ip_of_ip4 0x04040404) 1 2 4 IPPROTO_TCP in
  diag_addr AF_INET6 (src_ip c) = [10; 0; 0; 1] ++ replicate 12 0.
Proof. by vm_compute. Qed.

End PcapdSpec.
