(* ===== verification/PcapdRun.v ===== *)
(** * A run of the daemon

    Interfaces appear, change and disappear while the daemon runs.  Each handle of
    libpcap belongs to exactly one interface: it is used only while it is open, closed
    once, and none is left at the end; the descriptors given to [select] are those of
    the sockets and of the open interfaces. *)

From S2P Require Import Prelude CString CFormat UtHash ZdtunTypes ZdtunPkt UidLru UidProc DaemonArgs PcapDump PdTypes PdVpn PdJni Libpcap NlUtils NlSpec Pcapd PcapdSpec.

Module PcapdRun.
Export Pcapd.
Import ZdtunPkt UidLru UidProc DaemonArgs NlUtils NlSpec PcapdSpec.

(** ** The command line *)

Record conf_wf (conf : pcapd_conf) : Prop := {
    cw_num : (0 <= length (cf_ifnames conf) <= 16)%nat;
    cw_inet : cf_inet_ifid conf <> -1 ->
      0 <= cf_inet_ifid conf /\ cf_ifnames conf !! Z.to_nat (cf_inet_ifid conf) = Some INET;
    cw_none : cf_inet_ifid conf = -1 -> INET ∉ cf_ifnames conf;
  }.
Lemma parse_opt_wf conf o conf' : conf_wf conf -> parse_opt conf o = Some (Some conf') -> conf_wf conf'.
Proof.
  intros [Hn Hi H0] E. destruct o as [arg| | | |arg|arg|arg|arg| |]; cbn [parse_opt] in E; try discriminate; try (injection E as <-; by split).
  - unfold PCAPD_MAX_INTERFACES in E. destruct (Z.leb_spec 16 (Z.of_nat (length (cf_ifnames conf)))); [done|].
    destruct (bool_decide (arg = INET)) eqn:Ea; cbn [andb] in E.
    + apply bool_decide_eq_true in Ea as ->. destruct (Z.eqb_spec (cf_inet_ifid conf) (-1)) as [E1|]; [|done].
      cbn [negb] in E. injection E as <-. split; cbn.
      * rewrite length_app. cbn. lia.
      * intros _. split; [lia|]. rewrite Nat2Z.id, lookup_app_r, Nat.sub_diag by lia. done.
      * lia.
    + apply bool_decide_eq_false in Ea. injection E as <-. split; cbn.
      * rewrite length_app. cbn. lia.
      * intros Hne. destruct (Hi Hne) as [? Hl]. split; [done|]. by apply lookup_app_l_Some.
      * intros He. rewrite elem_of_app. intros [?|Hin]; [by apply H0|]. apply Ea. symmetry. by apply list_elem_of_singleton.
  - destruct (parse_uid_filter arg) as [[f|]|]; cbn in E; [|done..]. injection E as <-. by split.
  - destruct (atol arg) as [u|]; cbn in E; [|done]. injection E as <-. by split.
Qed.
Lemma parse_args_wf opts pos conf : parse_args opts pos = Some (Some conf) -> conf_wf conf.
Proof.
  assert (Hl : forall c, conf_wf c -> forall c', parse_options c opts = Some (Some c') -> conf_wf c').
  { induction opts as [|o opts IH]; intros c Hc c' E; cbn [parse_options] in E; [by injection E as <-|].
    destruct (parse_opt c o) as [[c1|]|] eqn:E1; cbn in E; [|done..]. by eapply IH, E; eapply parse_opt_wf. }
  unfold parse_args. destruct (parse_options init_conf opts) as [[c|]|] eqn:Eo; [|done..]. cbn.
  apply Hl in Eo; [|split; cbn; [lia|lia|intros _; by apply not_elem_of_nil]].
  destruct pos; [done|]. intros [= <-]. destruct (bool_decide _); [|done]. split; cbn; [lia|done|lia].
Qed.

(** ** The invariant *)

(** What of an interface the ownership of the handles depends on. *)
Definition view (f : pcapd_iface) : option Z * Z := (if_pd f, if_pf f).
Definition views (r : pcapd_runtime) : list (option Z * Z) := view <$> rt_ifaces r.
Definition fd_ok (fd : Z) : Prop := 0 <= fd < FD_SETSIZE.
Definition sock_ok (r : pcapd_runtime) (fd : Z) : Prop := fd < FD_SETSIZE /\ fd <= rt_maxfd r.

(** The table of fragments, the socket of sock_diag and the buffer of netlink. *)
Record data_of (tun : frag_table) (diag : bool) (nl : nl_state) (nlbuf : list Z) (seq : Z) : Prop := {
    dk_tun : frag_table_ok tun;
    dk_calm : diag = true -> calm nl;
    dk_size : Z.of_nat (length nlbuf) = NL_BUFFER_SIZE;
    dk_bytes : bytes_ok nlbuf;
    dk_seq : u_ok 32 seq;
  }.
Definition data_ok (r : pcapd_runtime) : Prop :=
  data_of (rt_tun r) (rt_nldiag r) (rt_nl r) (rt_nlbuf r) (rt_route_seq r).

(** [spare] are the open handles no interface has. *)
Record daemon_inv (spare : gset Z) (r : pcapd_runtime) : Prop := {
    di_handles : forall h, h ∈ rt_handles r <-> h ∈ spare \/ exists i pf, views r !! i = Some (Some h, pf);
    di_inj : forall i j h pf pf', views r !! i = Some (Some h, pf) -> views r !! j = Some (Some h, pf') -> i = j;
    di_spare : forall i h pf, views r !! i = Some (Some h, pf) -> h ∉ spare;
    di_next : forall h, h ∈ rt_handles r -> h < rt_next_handle r;
    di_open : forall i h pf, views r !! i = Some (Some h, pf) -> fd_ok pf /\ pf <= rt_maxfd r;
    di_closed : forall i pf, views r !! i = Some (None, pf) -> pf = -1;
    di_inet : forall k, rt_inet_iface r = Some k -> (k < length (rt_ifaces r))%nat;
    di_socks : sock_ok r (rt_client r) /\ sock_ok r (rt_nlroute_sock r);
    di_data : data_ok r;
  }.
(** The descriptors [select] is given. *)
Definition selected (r : pcapd_runtime) : Prop := forall fd, fd ∈ rt_sel_fds r ->
  fd = rt_client r \/ fd = rt_nlroute_sock r \/ exists i h, views r !! i = Some (Some h, fd).
(** What no operation changes. *)
Definition frame (r r' : pcapd_runtime) : Prop :=
  rt_client r' = rt_client r /\ rt_nlroute_sock r' = rt_nlroute_sock r /\ rt_inet_iface r' = rt_inet_iface r /\
  length (rt_ifaces r') = length (rt_ifaces r).
#[export] Instance frame_preorder : PreOrder frame.
Proof.
  split; [by intros r|]. intros r1 r2 r3 (A1 & A2 & A3 & A4) (B1 & B2 & B3 & B4). unfold frame.
  by rewrite B1, B2, B3, B4.
Qed.

(** Changes the invariant does not see. *)
Definition quiet (r r' : pcapd_runtime) : Prop :=
  views r' = views r /\ rt_handles r' = rt_handles r /\ rt_next_handle r' = rt_next_handle r /\
  rt_sel_fds r' = rt_sel_fds r /\ rt_client r' = rt_client r /\ rt_nlroute_sock r' = rt_nlroute_sock r /\
  rt_inet_iface r' = rt_inet_iface r /\ rt_maxfd r' = rt_maxfd r.
#[export] Instance quiet_preorder : PreOrder quiet.
Proof.
  split; [by intros r|]. intros r1 r2 r3 (A1 & A2 & A3 & A4 & A5 & A6 & A7 & A8) (B1 & B2 & B3 & B4 & B5 & B6 & B7 & B8).
  unfold quiet. by rewrite B1, B2, B3, B4, B5, B6, B7, B8.
Qed.
Lemma views_length r : length (views r) = length (rt_ifaces r).
Proof. apply length_fmap. Qed.
Lemma quiet_frame r r' : quiet r r' -> frame r r'.
Proof.
  intros (Hv & _ & _ & _ & ? & ? & ? & _). unfold frame. by rewrite <-!views_length, Hv.
Qed.
Lemma quiet_inv sp r r' : quiet r r' -> data_ok r' -> daemon_inv sp r -> daemon_inv sp r'.
Proof.
  intros Hq Ht [H1 H2 H3 H4 H5 H6 H7 H8 _]. destruct (quiet_frame _ _ Hq) as (_ & _ & _ & Hl).
  destruct Hq as (Q1 & Q2 & Q3 & Q4 & Q5 & Q6 & Q7 & Q8). unfold sock_ok in *.
  split; rewrite ?Q1, ?Q2, ?Q3, ?Q5, ?Q6, ?Q7, ?Q8, ?Hl; try done. unfold sock_ok. by rewrite Q8.
Qed.
Lemma quiet_selected r r' : quiet r r' -> selected r -> selected r'.
Proof. intros (Q1 & _ & _ & Q4 & Q5 & Q6 & _). unfold selected. by rewrite Q1, Q4, Q5, Q6. Qed.

(** An interface whose handle and descriptor stay. *)
Lemma quiet_iface r i f f' : rt_ifaces r !! i = Some f -> view f' = view f -> quiet r (r <| rt_ifaces ::= <[i := f']> |>).
Proof.
  intros Hi Hv. split; [|done]. unfold views. cbn. rewrite list_fmap_insert. apply list_insert_id.
  by rewrite list_lookup_fmap, Hi, Hv.
Qed.

(** ** The primitives *)

Lemma wp_iface_at i f (Q : pcapd_iface -> pcapd_runtime -> Prop) r :
  rt_ifaces r !! i = Some f -> Q f r -> wp (iface_at i) Q r.
Proof. intros Hi HQ. unfold iface_at. wp_run. by eapply wp_lift. Qed.
Lemma wp_set_iface i f g (Q : unit -> pcapd_runtime -> Prop) r :
  rt_ifaces r !! i = Some f -> Q tt (r <| rt_ifaces ::= <[i := g f]> |>) -> wp (set_iface i g) Q r.
Proof. intros Hi HQ. unfold set_iface. wp_run. by eapply wp_iface_at; [done|wp_run]. Qed.
Lemma wp_use_handle h (Q : Z -> pcapd_runtime -> Prop) r : h ∈ rt_handles r -> Q h r -> wp (use_handle (Some h)) Q r.
Proof. intros Hh HQ. unfold use_handle. apply wp_bind, (wp_lift _ _ _ h); [done|]. wp_run. rewrite bool_decide_eq_true_2 by done. by apply wp_ret. Qed.
Lemma wp_pcap_close h (Q : unit -> pcapd_runtime -> Prop) r :
  h ∈ rt_handles r -> Q tt (r <| rt_handles ::= fun s => s ∖ {[h]} |>) -> wp (pcap_close (Some h)) Q r.
Proof. intros Hh HQ. unfold pcap_close. wp_step. apply wp_use_handle; [done|]. by wp_run. Qed.
Lemma wp_FD_op fd g (Q : unit -> pcapd_runtime -> Prop) r :
  fd_ok fd -> Q tt (r <| rt_sel_fds ::= g |>) -> wp (FD_op fd g) Q r.
Proof. intros [H1 H2] HQ. unfold FD_op. destruct (Z.leb_spec 0 fd); [|lia]. destruct (Z.ltb_spec fd FD_SETSIZE); [|lia]. by apply wp_modify. Qed.
Lemma wp_account i f h stats (Q : unit -> pcapd_runtime -> Prop) r :
  h ∈ rt_handles r -> rt_ifaces r !! i = Some f ->
  Q tt (r <| rt_ifaces ::= <[i := f <| if_stats := stats |>]> |> <| rt_stats ::= fun s => sum_stats s stats |>) ->
  wp (account i (Some h) stats) Q r.
Proof. intros Hh Hi HQ. unfold account. wp_step. apply wp_use_handle; [done|]. wp_step. eapply wp_set_iface; [done|]. by wp_run. Qed.

(** ** Closing and opening *)

Lemma views_insert r i f : views (r <| rt_ifaces ::= <[i := f]> |>) = <[i := view f]> (views r).
Proof. apply list_fmap_insert. Qed.
Lemma views_at r i f : rt_ifaces r !! i = Some f -> views r !! i = Some (if_pd f, if_pf f).
Proof. intros Hi. unfold views. by rewrite list_lookup_fmap, Hi. Qed.
Lemma views_inv r i v : views r !! i = Some v -> exists f, rt_ifaces r !! i = Some f /\ (if_pd f, if_pf f) = v.
Proof.
  unfold views. rewrite list_lookup_fmap. destruct (rt_ifaces r !! i) as [f|]; [|done]. intros [= <-]. by exists f.
Qed.

Section changes.
Context (sp : gset Z) (r r' : pcapd_runtime) (i : nat).
Hypothesis inv : daemon_inv sp r.
Hypothesis fr : frame r r'.
Hypothesis dat : data_ok r'.

Lemma inv_close h pf :
  views r !! i = Some (Some h, pf) -> views r' = <[i := (None, -1)]> (views r) ->
  rt_handles r' = rt_handles r ∖ {[h]} -> rt_next_handle r' = rt_next_handle r -> rt_maxfd r' = rt_maxfd r ->
  daemon_inv sp r'.
Proof.
  intros Hi Hv Hh Hn Hm. destruct inv as [H1 H2 H3 H4 H5 H6 H7 H8 H9]. destruct fr as (F1 & F2 & F3 & F4).
  assert (Hold : forall j k pf', views r' !! j = Some (Some k, pf') -> i <> j /\ views r !! j = Some (Some k, pf')).
  { intros j k pf' E. rewrite Hv in E. by apply list_lookup_insert_Some in E as [(_ & [=] & _)|[? E]]. }
  split; unfold sock_ok; rewrite ?F1, ?F2, ?F3, ?F4, ?Hn, ?Hm; try done.
  - intros k. rewrite Hh, elem_of_difference, not_elem_of_singleton, H1. split.
    + intros [[?|(j & pf' & E)] Hne]; [by left|]. right. exists j, pf'. rewrite Hv, list_lookup_insert_ne; [done|].
      intros ->. rewrite Hi in E. by injection E as -> _.
    + intros [Hs|(j & pf' & E)].
      * split; [by left|]. intros ->. by apply (H3 i h pf).
      * apply Hold in E as [Hne E]. split; [right; by exists j, pf'|]. intros ->. by apply Hne, (H2 i j h pf pf').
  - intros j k h' p p' [_ E1]%Hold [_ E2]%Hold. by eapply H2.
  - intros j k p [_ E]%Hold. by eapply H3.
  - intros k. rewrite Hh. intros [? _]%elem_of_difference. by apply H4.
  - intros j k p [_ E]%Hold. by eapply H5.
  - intros j p E. rewrite Hv in E. apply list_lookup_insert_Some in E as [(_ & [= <-] & _)|[_ E]]; [done|by eapply H6].
Qed.

Definition opt_set (o : option Z) : gset Z := match o with Some h => {[h]} | None => ∅ end.
Lemma inv_open old pf fd :
  let h := rt_next_handle r in
  views r !! i = Some (old, pf) -> views r' = <[i := (Some h, fd)]> (views r) ->
  rt_handles r' = {[h]} ∪ rt_handles r -> rt_next_handle r' = Z.succ h -> rt_maxfd r' = Z.max (rt_maxfd r) fd -> fd_ok fd ->
  daemon_inv (sp ∪ opt_set old) r'.
Proof.
  intros h Hi Hv Hh Hn Hm Hfd. destruct inv as [H1 H2 H3 H4 H5 H6 H7 H8 H9]. destruct fr as (F1 & F2 & F3 & F4).
  assert (Hcase : forall j k p, views r' !! j = Some (Some k, p) ->
    (i = j /\ h = k /\ fd = p) \/ (i <> j /\ views r !! j = Some (Some k, p))).
  { intros j k p E. rewrite Hv in E. apply list_lookup_insert_Some in E as [(-> & [= <- <-] & _)|[? E]]; [by left|by right]. }
  assert (Hfresh : forall j k p, views r !! j = Some (Some k, p) -> k < h).
  { intros j k p E. apply H4, H1. right. by exists j, p. }
  assert (Hsp : forall k, k ∈ sp -> k < h) by (intros k ?; apply H4, H1; by left).
  assert (Hold : forall k, k ∈ opt_set old -> views r !! i = Some (Some k, pf)).
  { intros k. destruct old as [o|]; cbn; [intros ->%elem_of_singleton; done|by intros ?%elem_of_empty]. }
  assert (Hlen : (i < length (views r))%nat) by (apply lookup_lt_is_Some; by eexists).
  split; unfold sock_ok in *; rewrite ?F1, ?F2, ?F3, ?F4, ?Hn, ?Hm; try done.
  - intros k. rewrite Hh, elem_of_union, elem_of_singleton, elem_of_union, H1. split.
    + intros [->|[?|(j & p & E)]]; [|by left; left|].
      * right. exists i, fd. by rewrite Hv, list_lookup_insert_eq by done.
      * destruct (decide (i = j)) as [<-|Hne]; [left; right; rewrite Hi in E; injection E as -> _; cbn [opt_set]; by apply elem_of_singleton|].
        right. exists j, p. by rewrite Hv, list_lookup_insert_ne.
    + intros [[?|?%Hold]|(j & p & [(_ & <- & _)|[_ E]]%Hcase)]; [right; by left|right; right; by exists i, pf|by left|].
      right; right. by exists j, p.
  - intros j k x p p' [(<- & <- & _)|[? E1]]%Hcase [(<- & ? & _)|[? E2]]%Hcase; [done| | |by eapply H2].
    + apply Hfresh in E2. lia.
    + apply Hfresh in E1. lia.
  - intros j k p E. rewrite elem_of_union. apply Hcase in E as [(<- & <- & _)|[Hne E]].
    + intros [?%Hsp|?%Hold%Hfresh]; lia.
    + intros [?|?%Hold]; [by eapply H3|]. by apply Hne, (H2 i j k pf p).
  - intros k. rewrite Hh, elem_of_union, elem_of_singleton. intros [->|?%H4]; lia.
  - intros j k p [(_ & _ & <-)|[_ E]]%Hcase; [split; [done|lia]|]. destruct (H5 _ _ _ E). split; [done|lia].
  - intros j p E. rewrite Hv in E. apply list_lookup_insert_Some in E as [(_ & [=] & _)|[_ E]]; by eapply H6.
  - lia.
Qed.
End changes.

(** A handle that no interface has any more. *)
Lemma inv_spare_close h r : daemon_inv {[h]} r -> daemon_inv ∅ (r <| rt_handles ::= fun s => s ∖ {[h]} |>).
Proof.
  intros [H1 H2 H3 H4 H5 H6 H7 H8 H9].
  split; try done.
  - intros k. cbn. rewrite elem_of_difference, not_elem_of_singleton, H1, elem_of_singleton. split.
    + intros [[?|?] ?]; [done|by right].
    + intros [?%elem_of_empty|(j & p & E)]; [done|]. split; [right; by exists j, p|]. intros ->. apply (H3 _ _ _ E). by apply elem_of_singleton.
  - intros k. cbn. intros [? _]%elem_of_difference. by apply H4.
Qed.

(** ** The operations *)

(** At most the interface [i] has changed. *)
Definition changed_at (i : nat) (r r' : pcapd_runtime) : Prop :=
  exists v, views r' = <[i := v]> (views r).
Lemma changed_same i r r' : views r' = views r -> changed_at i r r'.
Proof.
  intros E. unfold changed_at. rewrite E. destruct (views r !! i) as [v|] eqn:Ev.
  - exists v. by rewrite list_insert_id.
  - exists (None, -1). by rewrite list_insert_ge by (by apply lookup_ge_None).
Qed.
Lemma changed_other i j r r' : changed_at i r r' -> i <> j -> views r' !! j = views r !! j.
Proof. intros [v E] Hne. by rewrite E, list_lookup_insert_ne. Qed.

Lemma wp_close_interface i stats r :
  daemon_inv ∅ r -> (i < length (rt_ifaces r))%nat ->
  wp (close_interface i stats) (fun _ r' => daemon_inv ∅ r' /\ frame r r' /\ (selected r -> selected r') /\
    views r' = <[i := (None, -1)]> (views r) /\ rt_nlbuf r' = rt_nlbuf r) r.
Proof.
  intros Hinv Hi. apply lookup_lt_is_Some in Hi as [f Hf]. pose proof (views_at r i f Hf) as Hv.
  unfold close_interface. wp_step. eapply wp_iface_at; [done|]. destruct (if_pd f) as [h|] eqn:Epd.
  2:{ wp_step. split; [done|]. split; [done|]. split; [done|].
      rewrite (di_closed _ _ Hinv _ _ Hv) in Hv. split; [by rewrite list_insert_id|done]. }
  destruct (di_open _ _ Hinv _ _ _ Hv) as [Hfd _].
  assert (Hh : h ∈ rt_handles r) by (apply (di_handles _ _ Hinv); right; by eexists i, _).
  wp_step. eapply wp_account; [done|done|]. wp_step. apply wp_FD_op; [done|]. wp_step. apply wp_pcap_close; [done|].
  assert (Hlen : (i < length (rt_ifaces r))%nat) by (apply lookup_lt_is_Some; by eexists).
  eapply wp_set_iface; [cbn; by rewrite list_lookup_insert_eq|].
  match goal with |- daemon_inv _ ?s /\ _ => set (r' := s) end.
  assert (Hv' : views r' = <[i := (None, -1)]> (views r)).
  { unfold r'. rewrite !views_insert. change (views (_ <| rt_handles ::= _ |>)) with (views (r <| rt_ifaces ::= <[i := f <| if_stats := stats |>]> |>)).
    by rewrite views_insert, list_insert_insert_eq. }
  assert (Hfr : frame r r') by (unfold frame, r'; cbn; by rewrite !length_insert).
  split; [by eapply (inv_close ∅ r r' i); [done|done|apply (di_data _ _ Hinv)|exact Hv|..]|]. split; [done|]. split; [|by split].
  intros Hsel fd. change (rt_sel_fds r') with (rt_sel_fds r ∖ {[if_pf f]}). rewrite elem_of_difference, not_elem_of_singleton.
  intros [Hin Hne]. destruct (Hsel fd Hin) as [E|[E|(j & k & E)]]; [by left|by right; left|].
  right; right. exists j, k. rewrite Hv', list_lookup_insert_ne; [done|]. intros <-. rewrite Hv in E. by injection E.
Qed.

Lemma wp_open_interface i name ifid a r :
  daemon_inv ∅ r -> (i < length (rt_ifaces r))%nat -> fd_ok (oa_fd a) ->
  wp (open_interface i name ifid a) (fun rv r' => frame r r' /\ rt_sel_fds r' = rt_sel_fds r /\
    if bool_decide (rv = PCAPD_OK)
    then exists old pf h, views r !! i = Some (old, pf) /\ views r' = <[i := (Some h, oa_fd a)]> (views r) /\
           daemon_inv (opt_set old) r'
    else daemon_inv ∅ r' /\ views r' = views r) r.
Proof.
  intros Hinv Hi Hfd. apply lookup_lt_is_Some in Hi as [f Hf]. pose proof (views_at r i f Hf) as Hv.
  assert (Hlen : (i < length (rt_ifaces r))%nat) by (apply lookup_lt_is_Some; by eexists).
  unfold open_interface. destruct (negb (oa_live a) && _).
  { wp_step. by rewrite bool_decide_eq_false_2 by done. }
  wp_step. wp_step. wp_step. set (h := rt_next_handle r). wp_step. cbv zeta. set (dlink := if _ =? _ then _ else _).
  set (r1 := r <| rt_next_handle ::= Z.succ |> <| rt_handles ::= union {[h]} |>).
  assert (Hnot : h ∉ rt_handles r) by (intros Hin%(di_next _ _ Hinv); unfold h in Hin; lia).
  assert (Hin1 : h ∈ rt_handles r1) by (change (h ∈ {[h]} ∪ rt_handles r); rewrite elem_of_union, elem_of_singleton; by left).
  assert (Hfail : forall rv, rv <> PCAPD_OK -> wp (pcap_close (Some h) ;; mret rv) (fun rv r' => frame r r' /\
    rt_sel_fds r' = rt_sel_fds r /\ if bool_decide (rv = PCAPD_OK)
    then exists old pf h, views r !! i = Some (old, pf) /\ views r' = <[i := (Some h, oa_fd a)]> (views r) /\
           daemon_inv (opt_set old) r'
    else daemon_inv ∅ r' /\ views r' = views r) r1).
  { intros rv Hrv. wp_step. apply wp_pcap_close; [done|]. wp_step. rewrite bool_decide_eq_false_2 by done.
    split; [done|]. split; [done|]. split; [|done].
    assert (Hs : rt_handles (r1 <| rt_handles ::= fun s => s ∖ {[h]} |>) = rt_handles r).
    { change (({[h]} ∪ rt_handles r) ∖ {[h]} = rt_handles r). set_solver. }
    destruct Hinv as [H1 H2 H3 H4 H5 H6 H7 H8 H9]. split; try done.
    - by rewrite Hs.
    - intros k. rewrite Hs. intros Hk%H4. change (k < Z.succ (rt_next_handle r)). lia. }
  destruct (get_ip_offset dlink <? 0); [by apply Hfail|]. destruct (negb (oa_filter a)); [by apply Hfail|].
  wp_step. eapply wp_set_iface; [done|]. wp_step. wp_step. wp_step.
  match goal with |- frame _ ?s /\ _ => set (r' := s) end.
  assert (Hfr : frame r r') by (unfold frame, r'; cbn; by rewrite length_insert).
  assert (Hv' : views r' = <[i := (Some h, oa_fd a)]> (views r)).
  { unfold r'. change (views (?s <| rt_maxfd ::= _ |>)) with (views s). by rewrite views_insert. }
  split; [done|]. split; [done|]. rewrite bool_decide_eq_true_2 by done.
  exists (if_pd f), (if_pf f), h. split; [done|]. split; [done|].
  rewrite <-(union_empty_l_L (opt_set (if_pd f))). by eapply (inv_open ∅ r r' i); [done|done|apply (di_data _ _ Hinv)|exact Hv|..].
Qed.

(** At most the internet interface has another handle. *)
Definition inet_changed (r r' : pcapd_runtime) : Prop :=
  views r' = views r \/
  exists k old v, rt_inet_iface r = Some k /\ views r !! k = Some old /\ views r' = <[k := v]> (views r).

(** The kernel answers with bytes, and the descriptor fits. *)
Definition route_ok (a : route_answer) : Prop :=
  fd_ok (oa_fd (ra_open a)) /\ forall req d, ra_reply a req = Some d -> bytes_ok d.
Lemma wp_get_route a r :
  data_ok r -> route_ok a -> wp (get_route a) (fun _ r' => exists n, u_ok 32 n /\ r' = r <| rt_route_seq := n |>) r.
Proof.
  intros Hd [_ Ha]. pose proof (dk_seq _ _ _ _ _ Hd) as Hn. unfold get_route. destruct (negb _); [wp_step; exists (rt_route_seq r); split; [done|by destruct r]|].
  wp_step. wp_step. wp_step. wp_step. set (n := u32 (rt_route_seq r + 1)). assert (Hn' : u_ok 32 n) by (apply uwrap_ok; lia).
  destruct (nl_get_route_total (ra_reply a) pubaddr n) as [res E]; [done|apply le_bytes_ok|done|done|].
  wp_step. eapply wp_lift; [exact E|]. wp_step. by exists n.
Qed.

Lemma wp_check_inet_interface inet_ifid a r :
  daemon_inv ∅ r -> route_ok a ->
  wp (check_inet_interface inet_ifid a) (fun _ r' =>
    daemon_inv ∅ r' /\ frame r r' /\ rt_sel_fds r' = rt_sel_fds r /\ inet_changed r r') r.
Proof.
  intros Hinv Ha. pose proof (proj1 Ha) as Hfd. unfold check_inet_interface. wp_step. wp_step.
  destruct (rt_inet_iface r) as [i|] eqn:Ei; [|wp_step; do 3 (split; [done|]); by left].
  wp_step. eapply wp_mono; [by apply wp_get_route; [apply (di_data _ _ Hinv)|]|]. intros [rt ifidx] r0 (n & Hn & E0).
  assert (Hq0 : quiet r r0) by (by rewrite E0).
  assert (Hinv0 : daemon_inv ∅ r0).
  { eapply quiet_inv; [done| |done]. rewrite E0. by destruct (di_data _ _ Hinv). }
  assert (Hback : forall r', daemon_inv ∅ r' /\ frame r0 r' /\ rt_sel_fds r' = rt_sel_fds r0 /\ inet_changed r0 r' ->
    daemon_inv ∅ r' /\ frame r r' /\ rt_sel_fds r' = rt_sel_fds r /\ inet_changed r r') by (rewrite E0; done).
  apply (wp_mono _ (fun _ r' => daemon_inv ∅ r' /\ frame r0 r' /\ rt_sel_fds r' = rt_sel_fds r0 /\ inet_changed r0 r'));
    [|intros ? ?; apply Hback].
  assert (Ei0 : rt_inet_iface r0 = Some i) by (by rewrite E0). clear Hback Hq0 E0 Ei Hinv r. rename r0 into r, Hinv0 into Hinv, Ei0 into Ei.
  assert (Hsame : daemon_inv ∅ r /\ frame r r /\ rt_sel_fds r = rt_sel_fds r /\ inet_changed r r) by (do 3 (split; [done|]); by left).
  pose proof (di_inet _ _ Hinv _ Ei) as Hi. pose proof Hi as [f Hf]%lookup_lt_is_Some.
  wp_step. eapply wp_iface_at; [done|]. cbn [fst snd]. destruct (_ || _); [by wp_step|]. destruct (ra_name a) as [name|]; [|by wp_step].
  cbv zeta. wp_step. eapply wp_mono; [by apply wp_open_interface|]. intros rv r1 (Hfr & Hsel & H1).
  destruct (bool_decide (rv = PCAPD_OK)); cbn [negb].
  2:{ destruct H1 as [? ?]. wp_step. split; [done|]. split; [done|]. split; [done|]. by left. }
  destruct H1 as (old & pf & h & Hv & Hv1 & Hinv1). rewrite (views_at r i f Hf) in Hv. injection Hv as <- <-.
  assert (Hch : inet_changed r r1) by (right; exists i, (view f), (Some h, oa_fd (ra_open a)); split; [done|]; split; [by apply views_at|done]).
  destruct (if_pd f) as [h0|]; [|by wp_step]. cbn [opt_set] in Hinv1.
  assert (Hh0 : h0 ∈ rt_handles r1) by (apply (di_handles _ _ Hinv1); left; by apply elem_of_singleton).
  assert (Hi1 : (i < length (rt_ifaces r1))%nat) by (destruct Hfr as (_ & _ & _ & ->); done). apply lookup_lt_is_Some in Hi1 as [f1 Hf1].
  wp_step. eapply wp_account; [done|done|]. apply wp_pcap_close; [done|].
  set (r2 := _ <| rt_stats ::= _ |>).
  assert (Hq : quiet r1 r2) by by apply (quiet_iface r1 i f1).
  split; [apply inv_spare_close; eapply quiet_inv; [done|by apply (di_data _ _ Hinv1)|done]|].
  split; [transitivity r1; [done|by apply quiet_frame in Hq]|]. split; [done|].
  destruct Hch as [E|(k & o & v & ? & ? & E)]; [left|right; exists k, o, v; split; [done|]; split; [done|]].
  all: rewrite <-E; apply Hq.
Qed.

(** Opening an interface that was closed takes no descriptor away from [select]. *)
Lemma selected_open i v pf r r' :
  views r !! i = Some (None, pf) -> views r' = <[i := v]> (views r) -> frame r r' -> rt_sel_fds r' = rt_sel_fds r ->
  selected r -> selected r'.
Proof.
  intros Hi Hv (F1 & F2 & _) Hs Hsel fd. rewrite Hs, F1, F2. intros Hin.
  destruct (Hsel fd Hin) as [E|[E|(j & h & E)]]; [by left|by right; left|]. right; right. exists j, h.
  rewrite Hv, list_lookup_insert_ne; [done|]. intros <-. by rewrite Hi in E.
Qed.

Lemma find_ifidx_lt l i ifidx k : find_ifidx l i ifidx = Some k -> (i <= k < i + length l)%nat.
Proof.
  revert i. induction l as [|f l IH]; intros i; cbn [find_ifidx length]; [done|].
  destruct (_ =? _); [intros [= <-]; lia|]. intros H%IH. lia.
Qed.
Lemma wp_iface_by_ifidx ifidx (Q : option nat -> pcapd_runtime -> Prop) r :
  (forall o, (forall k, o = Some k -> (k < length (rt_ifaces r))%nat) -> Q o r) -> wp (iface_by_ifidx ifidx) Q r.
Proof.
  intros HQ. unfold iface_by_ifidx. wp_run. apply HQ. intros k H%find_ifidx_lt. lia.
Qed.

Lemma wp_set_addresses i a r :
  daemon_inv ∅ r -> (i < length (rt_ifaces r))%nat ->
  wp (set_addresses i a) (fun _ r' => daemon_inv ∅ r' /\ frame r r' /\ rt_nlbuf r' = rt_nlbuf r) r.
Proof.
  intros Hinv Hi. destruct (lookup_lt_is_Some_2 _ _ Hi) as [f Hf]. unfold set_addresses. eapply wp_set_iface; [done|].
  set (f' := f <| if_ip := _ |> <| if_ip6 := _ |>).
  assert (Hq : quiet r (r <| rt_ifaces ::= <[i := f']> |>)) by by eapply quiet_iface.
  split; [eapply quiet_inv; [done|by apply (di_data _ _ Hinv)|done]|]. split; [by apply quiet_frame|done].
Qed.
Lemma wp_link_deleted i a r :
  daemon_inv ∅ r -> (i < length (rt_ifaces r))%nat ->
  wp (link_deleted i a) (fun _ r' => daemon_inv ∅ r' /\ frame r r' /\ rt_nlbuf r' = rt_nlbuf r) r.
Proof.
  intros Hinv Hi. destruct (lookup_lt_is_Some_2 _ _ Hi) as [f Hf]. unfold link_deleted.
  wp_step. eapply wp_iface_at; [done|]. wp_step. wp_step. wp_step. apply (wp_mono _ (fun _ r' => r' = r)).
  { destruct (rt_inet_iface r) as [k|] eqn:Ek; [|by wp_step].
    destruct (lookup_lt_is_Some_2 _ _ (di_inet _ _ Hinv _ Ek)) as [g Hg]. wp_step. eapply wp_iface_at; [done|]. by wp_step. }
  intros again ? ->. wp_step. eapply wp_mono; [by apply wp_close_interface|]. intros [] r1 (? & ? & _ & _ & ?). by wp_step.
Qed.

(** The walk stays in the buffer whatever the messages are: it reads eight bytes behind
    a header. *)
Lemma wp_nl_loop fuel answers k p len b r :
  daemon_inv ∅ r -> 0 <= p -> p + len + 8 <= NL_BUFFER_SIZE -> len <= 4 * Z.of_nat fuel ->
  wp (nl_loop fuel answers k p len b) (fun _ r' => daemon_inv ∅ r' /\ frame r r') r.
Proof.
  intros Hinv Hp. revert k p len b r Hinv Hp. induction fuel as [|fuel IH]; intros k p len b r Hinv Hp Hl Hf; cbn [nl_loop]; wp_step; wp_step.
  { destruct (Z.ltb_spec len 16); [by wp_step|lia]. }
  destruct (Z.ltb_spec len 16); [by wp_step|]. destruct (di_data _ _ Hinv) as [_ _ Hsz Hbs _].
  destruct (rd32_is_Some (rt_nlbuf r) p) as (nlen & En & _); [done|lia|done|]. wp_step. eapply wp_lift; [exact En|].
  destruct (Z.ltb_spec nlen 16); cbn [orb]; [by wp_step|]. destruct (Z.ltb_spec len nlen); [by wp_step|].
  destruct (rd16_is_Some (rt_nlbuf r) (p + 4)) as (ty & Ety & _); [lia|lia|done|]. wp_step. eapply wp_lift; [exact Ety|]. cbv zeta.
  destruct (rd32_is_Some (rt_nlbuf r) (p + 20)) as (idx & Eidx & _); [lia|lia|done|].
  pose proof (align4_le nlen).
  assert (Hnext : forall b r', daemon_inv ∅ r' /\ frame r r' /\ rt_nlbuf r' = rt_nlbuf r ->
    wp (nl_loop fuel answers (S k) (p + align4 nlen) (len - align4 nlen) b) (fun _ r' => daemon_inv ∅ r' /\ frame r r') r').
  { intros b' r' (? & ? & _). eapply wp_mono; [apply IH; [done|lia..]|]. intros ? r2 [? ?]. split; [done|by etransitivity]. }
  destruct (ty =? NLMSG_DONE); [by wp_step|]. destruct (_ || _); [by apply Hnext|].
  destruct (ty =? RTM_NEWADDR).
  { wp_step. eapply wp_lift; [exact Eidx|]. wp_step. apply wp_iface_by_ifidx. intros [i|] Hio.
    - wp_step. eapply wp_mono; [apply wp_set_addresses; [done|by apply Hio]|]. intros [] r1 Hr1. by apply Hnext.
    - wp_step. wp_step. by apply Hnext. }
  destruct (ty =? RTM_DELLINK); [|by apply Hnext].
  wp_step. eapply wp_lift; [exact Eidx|]. wp_step. apply wp_iface_by_ifidx. intros [i|] Hio; wp_step.
  - eapply wp_mono; [apply wp_link_deleted; [done|by apply Hio]|]. intros again r1 Hr1. by apply Hnext.
  - wp_step. by apply Hnext.
Qed.

(** The buffer has room for what is read behind the last header. *)
Definition datagram_ok (o : option (list Z)) : Prop :=
  match o with Some d => bytes_ok d /\ Z.of_nat (length d) + 8 <= NL_BUFFER_SIZE | None => True end.
Lemma wp_handle_nl_message inet_ifid d answers a r :
  daemon_inv ∅ r -> selected r -> route_ok a -> datagram_ok d ->
  wp (handle_nl_message inet_ifid d answers a) (fun rv r' => daemon_inv ∅ r' /\ frame r r' /\ (rv < 0 -> selected r')) r.
Proof.
  intros Hinv Hsel Ha Hd. unfold handle_nl_message. destruct d as [[|x d']|]; [by wp_step| |by wp_step].
  set (d := x :: d') in *. destruct Hd as [Hdb Hdl]. cbv zeta. set (n := Z.to_nat NL_BUFFER_SIZE).
  assert (Hn : Z.of_nat n = NL_BUFFER_SIZE) by (apply Z2Nat.id; unfold NL_BUFFER_SIZE; lia). clearbody n.
  assert (Ht : Z.of_nat (length (take n d)) <= Z.of_nat (length d)) by (rewrite length_take; lia).
  wp_step. wp_step. set (r0 := r <| rt_nlbuf ::= overlay n d |>).
  assert (Hinv0 : daemon_inv ∅ r0).
  { eapply (quiet_inv ∅ r r0); [done| |done]. destruct (di_data _ _ Hinv) as [? ? Hsz ? ?]. split; [done|done| | |done].
    - unfold r0. cbn [rt_nlbuf]. change (Z.of_nat (length (overlay n d (rt_nlbuf r))) = NL_BUFFER_SIZE). rewrite length_overlay; [done|lia].
    - by apply bytes_ok_overlay. }
  wp_step. eapply wp_mono; [apply wp_nl_loop; [done|done|lia|lia]|]. intros b r1 [Hinv1 Hfr1]. wp_step.
  apply (wp_mono _ (fun _ r' => daemon_inv ∅ r' /\ frame r1 r')).
  - apply wp_when; intros Hb; [|done]. eapply wp_mono; [by apply wp_check_inet_interface|]. by intros _ r2 (? & ? & _).
  - intros [] r2 [? ?]. wp_step. split; [done|]. split; [by transitivity r1|lia].
Qed.

Lemma wp_get_selectable_fds r :
  daemon_inv ∅ r -> wp get_selectable_fds (fun _ r' => daemon_inv ∅ r' /\ frame r r' /\ selected r' /\ views r' = views r) r.
Proof.
  intros Hinv. unfold get_selectable_fds.
  (* only the set of descriptors changes *)
  set (I := fun s => exists sel, s = r <| rt_sel_fds := sel |> /\ selected s).
  assert (Hadd : forall fd, fd_ok fd -> (fd = rt_client r \/ fd = rt_nlroute_sock r \/ exists i h, views r !! i = Some (Some h, fd)) ->
    forall s, I s -> wp (FD_op fd (union {[fd]})) (fun _ s' => I s') s).
  { intros fd Hfd Hw s (sel & -> & Hs). apply wp_FD_op; [done|]. exists ({[fd]} ∪ sel). split; [done|].
    intros x [->%elem_of_singleton|Hx]%elem_of_union; [done|by apply Hs]. }
  assert (HI : forall s, I s -> daemon_inv ∅ s /\ frame r s /\ selected s /\ views s = views r).
  { intros s (sel & -> & Hs). split; [|done]. by destruct Hinv. }
  destruct (di_socks _ _ Hinv) as [[Hc _] [Hn _]].
  wp_step. wp_step. wp_step. wp_step. wp_step.
  apply (wp_mono _ (fun _ s => I s)).
  { assert (H0 : I (r <| rt_sel_fds := ∅ |>)) by (exists ∅; split; [done|]; by intros fd Hfd%elem_of_empty).
    apply wp_when; intros Hb; [|done]. apply Hadd; [unfold fd_ok; lia|by left|done]. }
  intros [] s1 H1. wp_step. apply (wp_mono _ (fun _ s => I s)).
  { apply wp_when; intros Hb; [|done]. apply Hadd; [unfold fd_ok; lia|by right; left|done]. }
  intros [] s2 H2. apply (wp_mono _ (fun _ s => I s)); [|intros [] s3 H3; by apply HI].
  eapply wp_mono.
  - apply (wp_for (fun l s => I s /\ forall f, f ∈ l -> exists i, rt_ifaces r !! i = Some f)).
    + split; [done|]. intros f Hf. by apply list_elem_of_lookup.
    + intros f l s [HIs Hl]. destruct (Hl f) as [i Hi]; [by left|]. apply (wp_mono _ (fun _ s => I s)).
      * apply wp_when; intros Hb; [|done]. pose proof (views_at r i f Hi) as Hv.
        destruct (if_pd f) as [h|] eqn:Eh; [|rewrite (di_closed _ _ Hinv _ _ Hv) in Hb; done].
        apply Hadd; [by apply (di_open _ _ Hinv _ _ _ Hv)|right; right; by exists i, h|done].
      * intros [] s' Hs'. split; [done|]. intros g Hg. apply Hl. by right.
  - by intros [] s3 [? _].
Qed.

(** ** A packet *)

Lemma wp_send ifid pad h data ios r : wp (send ifid pad h data ios) (fun _ r' => exists s, r' = r <| rt_sent := s |>) r.
Proof.
  unfold send. cbv zeta. destruct (xwrite ios _ _) as [[rv w] ios']. wp_step. wp_step.
  destruct (rv <? 0); [wp_step; by eexists|]. destruct (xwrite ios' _ _) as [[rv' w'] ?]. wp_step. wp_step. wp_step. by eexists.
Qed.

Section run.
Context (fopen : string -> option (list Z)) (kernel : list Z -> option (list (list Z))) (stack : list Z).
Context (owner : bool -> list Z -> kanswer).
Hypothesis kernel_spec : kernel_ok kernel owner.
Hypothesis proc_read : forall t, is_Some (get_uid_slow fopen t).
Context (fuel : nat) (conf : pcapd_conf).
Hypothesis filter_ends : forall uid, is_Some (matches_uid_filter fuel (cf_uid_filter conf) uid).

Lemma wp_read_captured i m ios pad ts pkt r :
  daemon_inv ∅ r -> (i < length (rt_ifaces r))%nat -> bytes_ok pkt -> Z.of_nat (length pkt) <= 65535 ->
  wp (read_captured fopen kernel stack fuel conf i m ios pad ts pkt) (fun _ r' => quiet r r' /\ daemon_inv ∅ r') r.
Proof.
  intros Hinv Hi Hb Hl. apply lookup_lt_is_Some in Hi as [f Hf]. unfold read_captured. wp_step. eapply wp_iface_at; [done|].
  assert (Hl16 : u16 (Z.of_nat (length pkt)) = Z.of_nat (length pkt)) by (apply uwrap_id; unfold u_ok; lia).
  rewrite Hl16. destruct (is_tx_total f pkt Hb) as [tx Etx]. wp_step. eapply wp_lift; [done|]. wp_step. wp_step. cbv zeta.
  set (ip := drop _ pkt). assert (Hip : (length ip <= length pkt)%nat) by (unfold ip; rewrite length_drop; lia).
  destruct (zdtun_parse_pkt_run ip (Z.of_nat (length ip))) with (t := rt_tun r) as (res & tun & Ep & Htun & _);
    [by apply Forall_drop|lia|unfold u_ok; lia|by apply (dk_tun _ _ _ _ _ (di_data _ _ Hinv))|].
  wp_step. eapply wp_lift; [done|]. wp_step. wp_step. cbn [fst snd].
  set (r1 := r <| rt_tun := tun |>).
  (* from here on what the packet changes is not in the invariant *)
  set (P := fun s => quiet r s /\ rt_ifaces s !! i = Some f /\ data_ok s).
  assert (HP : forall s, P s -> quiet r s /\ daemon_inv ∅ s).
  { intros s (Hq & _ & Ht). split; [done|]. by eapply quiet_inv. }
  wp_step. apply (wp_mono _ (fun _ s => P s)).
  { assert (H1 : P r1) by (split; [done|]; split; [done|]; by destruct (di_data _ _ Hinv)). destruct res as [e|p]; [by wp_step|]. destruct (if_is_file f); [by wp_step|].
    eapply wp_mono; [apply (find_uid_wp _ _ _ owner); [done|done|exact (dk_calm _ _ _ _ _ (di_data _ _ Hinv))]|].
    intros uid s [(lru & d & nl & ->) Hc]. destruct H1 as (Hq1 & Hf1 & [? ? ? ? ?]). by do 2 (split; [done|]). }
  intros uid s2 H2. destruct (filter_ends uid) as [pass Epass]. wp_step. eapply wp_lift; [done|].
  destruct (negb pass); [wp_step; by apply HP|]. rewrite (surjective_pairing (export _ _ _ _ _ _)). wp_step.
  apply (wp_mono _ (fun _ s => P s)).
  { destruct (cf_no_client conf); [by wp_step|]. eapply wp_mono; [apply wp_send|]. by intros ok s (w & ->). }
  intros ok s3 H3. destruct (negb ok); [wp_step; by apply HP|]. wp_step.
  apply (wp_mono _ (fun _ s => quiet r s /\ daemon_inv ∅ s)); [|intros [] s4 H4; by wp_step].
  apply wp_when; intros _; [|by apply HP]. destruct H3 as (Hq & Hf3 & Ht3). eapply wp_set_iface; [done|].
  match goal with |- quiet _ ?s /\ _ => assert (Hq4 : quiet r s) by (transitivity s3; [done|by eapply quiet_iface]) end.
  split; [done|]. eapply quiet_inv; [done|exact Ht3|done].
Qed.

(** What a reading keeps. *)
Definition read_post (i : nat) (r r' : pcapd_runtime) : Prop :=
  daemon_inv ∅ r' /\ frame r r' /\ (selected r -> selected r').

Definition packet_ok (n : next_ex) : Prop :=
  match n with NextPkt _ pkt => bytes_ok pkt /\ Z.of_nat (length pkt) <= 65535 | _ => True end.
Lemma wp_read_pkt i inp now r :
  daemon_inv ∅ r -> (i < length (rt_ifaces r))%nat -> packet_ok (in_next inp) ->
  (forall pf, views r !! i <> Some (None, pf)) ->
  wp (read_pkt fopen kernel stack fuel conf i inp now) (fun _ r' => read_post i r r') r.
Proof.
  intros Hinv Hi Hpkt Hopen. pose proof Hi as [f Hf]%lookup_lt_is_Some. pose proof (views_at r i f Hf) as Hv.
  assert (Hquiet : forall r', quiet r r' /\ daemon_inv ∅ r' -> read_post i r r').
  { intros r' [Hq ?]. split; [done|]. split; [by apply quiet_frame|by apply quiet_selected]. }
  unfold read_pkt. wp_step. eapply wp_iface_at; [done|]. destruct (if_pd f) as [h|] eqn:Eh; [|by destruct (Hopen _ Hv)].
  assert (Hh : h ∈ rt_handles r) by (apply (di_handles _ _ Hinv); right; by eexists i, _).
  wp_step. apply wp_use_handle; [done|]. destruct (in_next inp) as [ts pkt| | |]; cbn [packet_ok] in Hpkt.
  - destruct Hpkt as [Hb Hl]. wp_step. apply (wp_mono _ (fun _ r' => quiet r r' /\ daemon_inv ∅ r')).
    { destruct (_ <=? _); [by apply wp_read_captured|by wp_step]. }
    intros rv r1 [Hq1 Hinv1]. destruct (negb _); [wp_step; by apply Hquiet|].
    assert (Hv1 : views r1 !! i = Some (Some h, if_pf f)) by (destruct Hq1 as [-> _]; done).
    apply views_inv in Hv1 as (f1 & Hf1 & [= Ep1 _]). wp_step. eapply wp_iface_at; [done|]. rewrite Ep1. wp_step.
    apply (wp_mono _ (fun _ r' => quiet r r' /\ daemon_inv ∅ r')); [|intros [] r2 H2; wp_step; by apply Hquiet].
    apply wp_when; intros _; [|done]. wp_step. apply wp_use_handle; [by destruct Hq1 as (_ & -> & _)|].
    eapply wp_set_iface; [done|].
    match goal with |- quiet _ ?s /\ _ => assert (Hq4 : quiet r1 s) by by eapply quiet_iface end.
    split; [by transitivity r1|]. eapply quiet_inv; [done|by apply (di_data _ _ Hinv1)|done].
  - wp_step. eapply wp_mono; [by apply wp_close_interface|]. intros [] r1 (? & ? & ? & _). wp_step. wp_step. by wp_step.
  - wp_step. by apply Hquiet.
  - wp_step. by apply Hquiet.
Qed.

Lemma wp_read_ready idx fds inputs now r :
  daemon_inv ∅ r -> selected r -> Forall (fun i => (i < length (rt_ifaces r))%nat) idx ->
  (forall i, packet_ok (in_next (inputs i))) ->
  wp (read_ready fopen kernel stack fuel conf idx fds inputs now) (fun f r' =>
    daemon_inv ∅ r' /\ frame r r' /\ selected r' /\ forall rv, f <> Left rv) r.
Proof.
  intros Hinv Hsel Hidx Hpkt. revert r Hinv Hsel Hidx. induction idx as [|i idx IH]; intros r Hinv Hsel Hidx; cbn [read_ready]; [by wp_step|].
  apply Forall_cons in Hidx as [Hi Hidx]. pose proof Hi as [f Hf]%lookup_lt_is_Some. wp_step. eapply wp_iface_at; [done|]. wp_step.
  apply (wp_mono _ (fun _ r' => read_post i r r')).
  { destruct (Z.eqb_spec (if_pf f) (-1)) as [|Hpf]; cbn [negb andb]; [by wp_step|]. case_bool_decide; [|by wp_step].
    apply wp_read_pkt; [done|done|done|]. intros pf Hv. rewrite (views_at r i f Hf) in Hv. injection Hv as Ev <-.
    apply Hpf. apply (di_closed _ _ Hinv i). by rewrite (views_at r i f Hf), Ev. }
  intros rv r1 (Hinv1 & Hfr & Hs1). specialize (Hs1 Hsel). destruct (negb _); [by wp_step|].
  eapply wp_mono; [apply IH; [done|done|]|].
  - destruct Hfr as (_ & _ & _ & ->). done.
  - intros fl r2 (? & ? & ? & ?). split; [done|]. split; [by transitivity r1|done].
Qed.

(** ** The loop *)

Record turn_ok (t : turn_input) : Prop := {
    to_packets : forall i, packet_ok (in_next (ti_packets t i));
    to_msgs : datagram_ok (ti_msgs t);
    to_route : route_ok (ti_route t);
    to_recheck : route_ok (ti_recheck t);
  }.

Lemma wp_dispatch t r : daemon_inv ∅ r -> selected r -> turn_ok t ->
  wp (dispatch fopen kernel stack fuel conf t) (fun _ r' => daemon_inv ∅ r' /\ frame r r' /\ selected r') r.
Proof.
  intros Hinv Hsel [Hp Hm Hr _]. unfold dispatch. destruct (ti_select t) as [eintr|ready]; [by wp_step|].
  wp_step. wp_step. cbv zeta. set (fds := filter _ _). destruct (_ && _); [by wp_step|]. destruct (_ && _).
  - wp_step. eapply wp_mono; [by apply wp_handle_nl_message|]. intros rv r1 (Hinv1 & Hfr & Hneg).
    destruct (Z.ltb_spec rv 0); [wp_step; split; [done|]; split; [done|by apply Hneg]|]. wp_step.
    eapply wp_mono; [by apply wp_get_selectable_fds|]. intros [] r2 (? & ? & ? & _). wp_step. split; [done|]. split; [by transitivity r1|done].
  - eapply wp_mono; [apply wp_read_ready; [done|done| |done]|].
    + apply Forall_forall. intros i Hi%elem_of_seq. lia.
    + intros f r1 (? & ? & ? & _). done.
Qed.

Lemma wp_daemon_turn t next r : daemon_inv ∅ r -> selected r -> turn_ok t ->
  wp (daemon_turn fopen kernel stack fuel conf t next) (fun _ r' => daemon_inv ∅ r' /\ frame r r' /\ selected r') r.
Proof.
  intros Hinv Hsel Ht. unfold daemon_turn. wp_step. eapply wp_mono; [by apply wp_dispatch|]. intros f r1 (Hinv1 & Hfr1 & Hsel1).
  assert (Hrest : wp (r ← getS;
      match rt_inet_iface r with
      | Some k => inet ← iface_at k;
          if bool_decide (if_pd inet = None) && (next <=? ti_now t) then
            check_inet_interface (cf_inet_ifid conf) (ti_recheck t) ;; mret (f, ti_now t + 2)
          else mret (f, next)
      | None => mret (f, next)
      end) (fun _ r' => daemon_inv ∅ r' /\ frame r r' /\ selected r') r1).
  { wp_step. wp_step. destruct (rt_inet_iface r1) as [k|] eqn:Ek; [|by wp_step].
    destruct (lookup_lt_is_Some_2 _ _ (di_inet _ _ Hinv1 _ Ek)) as [g Hg]. wp_step. eapply wp_iface_at; [done|].
    case_bool_decide as Epd; cbn [andb]; [|by wp_step]. destruct (next <=? ti_now t); [|by wp_step]. wp_step.
    eapply wp_mono; [apply wp_check_inet_interface; [done|by apply Ht]|]. intros [] r2 (Hinv2 & Hfr2 & Hs2 & Hch). wp_step.
    split; [done|]. split; [by transitivity r1|]. pose proof (views_at r1 k g Hg) as Hv. rewrite Epd in Hv.
    destruct Hch as [E|(k' & old & v & Ek' & Hold & E)].
    - eapply (selected_open k (None, if_pf g)); [done| |done|done|done]. by rewrite E, list_insert_id.
    - assert (k' = k) as -> by congruence. by eapply selected_open. }
  destruct f as [|rv|rv]; [apply Hrest|apply Hrest|by wp_step].
Qed.

Lemma wp_daemon_loop turns next r : daemon_inv ∅ r -> selected r -> Forall turn_ok turns ->
  wp (daemon_loop fopen kernel stack fuel conf turns next) (fun _ r' => daemon_inv ∅ r' /\ frame r r' /\ selected r') r.
Proof.
  intros Hinv Hsel Hall. revert r next Hinv Hsel. induction Hall as [|t turns Ht Hall IH]; intros r next Hinv Hsel; cbn [daemon_loop]; [by wp_step|].
  wp_step. eapply wp_mono; [by apply wp_daemon_turn|]. intros [f next'] r1 (Hinv1 & Hfr1 & Hsel1). cbn [fst snd].
  destruct f as [|rv|rv]; [|by wp_step..]. eapply wp_mono; [by apply IH|]. intros rv r2 (? & ? & ?). split; [done|]. split; [by transitivity r1|done].
Qed.
End run.

(** ** From the command line to the end *)

Lemma wp_open_all all answers i names r :
  names = drop i all -> length (rt_ifaces r) = length all -> (forall i, fd_ok (oa_fd (answers i))) -> daemon_inv ∅ r ->
  (forall j name, (i <= j)%nat -> all !! j = Some name -> name <> INET -> exists pf, views r !! j = Some (None, pf)) ->
  wp (open_all i names answers) (fun _ r' => daemon_inv ∅ r' /\ frame r r' /\ rt_sel_fds r' = rt_sel_fds r) r.
Proof.
  intros Hnames Hlen Hfd. revert i r Hnames Hlen. induction names as [|name names IH]; intros i r Hnames Hlen Hinv Hclosed;
    cbn [open_all]; [by wp_step|].
  assert (Hat : all !! i = Some name) by (rewrite <-(Nat.add_0_r i), <-lookup_drop, <-Hnames; done).
  assert (Hnames' : names = drop (S i) all) by (apply drop_S in Hat; rewrite <-Hnames in Hat; by injection Hat).
  assert (Hi : (i < length (rt_ifaces r))%nat) by (rewrite Hlen; apply lookup_lt_is_Some; by eexists).
  wp_step. apply (wp_mono _ (fun _ r' => daemon_inv ∅ r' /\ frame r r' /\ rt_sel_fds r' = rt_sel_fds r /\ changed_at i r r')).
  { case_bool_decide as En; [wp_step; do 3 (split; [done|]); by apply changed_same|].
    destruct (Hclosed i name (Nat.le_refl i) Hat En) as [pf0 Hv0].
    eapply wp_mono; [by apply wp_open_interface|]. intros rv r1 (Hfr & Hs & H1). destruct (bool_decide (rv = PCAPD_OK)).
    - destruct H1 as (old & pf & h & Hv & Hv1 & Hinv1). rewrite Hv0 in Hv. injection Hv as <- <-.
      do 3 (split; [done|]). by exists (Some h, oa_fd (answers i)).
    - destruct H1 as [? Hv]. do 3 (split; [done|]). by apply changed_same. }
  intros rv r1 (Hinv1 & Hfr & Hs & Hch). destruct (negb _); [by wp_step|].
  eapply wp_mono; [apply (IH (S i)); [done| |done|]|].
  - destruct Hfr as (_ & _ & _ & ->). done.
  - intros j n Hj Hn Hne. rewrite (changed_other i j r r1) by (done || lia). apply (Hclosed j n); [lia|done|done].
  - intros rv' r2 (? & ? & Hs2). split; [done|]. split; [by transitivity r1|]. by rewrite Hs2.
Qed.

Lemma wp_finish stats r :
  daemon_inv ∅ r -> selected r ->
  wp (finish_pcapd_capture true stats) (fun _ r' =>
    daemon_inv ∅ r' /\ frame r r' /\ selected r' /\ forall j v, views r' !! j = Some v -> v = (None, -1)) r.
Proof.
  intros Hinv Hsel. unfold finish_pcapd_capture. wp_step. wp_step. set (n := length (rt_ifaces r)).
  set (I := fun (l : list nat) s => daemon_inv ∅ s /\ frame r s /\ selected s /\
    exists k, (k <= n)%nat /\ l = seq k (n - k) /\ forall j v, (j < k)%nat -> views s !! j = Some v -> v = (None, -1)).
  eapply wp_mono; [apply (wp_for I)|].
  - do 3 (split; [done|]). exists O. split; [lia|]. split; [by rewrite Nat.sub_0_r|lia].
  - intros i l s (Hi & Hfr & Hs & k & Hk & El & Hall).
    assert (Hlt : (k < n)%nat) by (destruct (decide (k < n)%nat); [done|]; replace (n - k)%nat with 0%nat in El by lia; done).
    replace (n - k)%nat with (S (n - S k)) in El by lia. cbn [seq] in El. injection El as -> ->.
    assert (Hin : (k < length (rt_ifaces s))%nat) by (destruct Hfr as (_ & _ & _ & ->); done).
    eapply wp_mono; [by apply wp_close_interface|]. intros [] s1 (Hi1 & Hfr1 & Hs1 & Hv1 & _).
    split; [done|]. split; [by transitivity s|]. split; [by apply Hs1|]. exists (S k). split; [lia|]. split; [done|].
    intros j v Hj. rewrite Hv1. intros [(_ & <- & _)|[Hne Hv]]%list_lookup_insert_Some; [done|]. apply (Hall j); [lia|done].
  - intros [] s (? & Hfr & ? & k & Hk & El & Hall). do 3 (split; [done|]). intros j v Hv. apply (Hall j); [|done].
    assert (k = n) as -> by (destruct (decide (k < n)%nat); [replace (n - k)%nat with (S (n - S k)) in El by lia; done|lia]).
    apply lookup_lt_Some in Hv. rewrite views_length in Hv. by destruct Hfr as (_ & _ & _ & E); rewrite E in Hv.
Qed.

Lemma no_interface conf j v : views (rt_zero conf) !! j = Some v -> v = (None, -1).
Proof.
  intros (f & Hf & <-)%views_inv. apply list_elem_of_lookup_2 in Hf. cbn in Hf. apply elem_of_replicate_inv in Hf. by subst f.
Qed.
Definition init_ok (init : init_answer) : Prop :=
  match init with InitTooEarly => False | InitFails => True | InitDone a => fd_ok (is_nlroute a) /\ fd_ok (is_client a) end.
Lemma daemon_inv_init conf r :
  rt_handles r = ∅ -> data_ok r -> views r = views (rt_zero conf) -> sock_ok r (rt_client r) ->
  sock_ok r (rt_nlroute_sock r) -> (forall k, rt_inet_iface r = Some k -> (k < length (cf_ifnames conf))%nat) ->
  daemon_inv ∅ r.
Proof.
  intros Hh Ht Hv Hc Hn Hi.
  assert (Hl : length (rt_ifaces r) = length (cf_ifnames conf)) by (rewrite <-views_length, Hv, views_length; cbn; by rewrite length_replicate).
  assert (Hno : forall j h pf, views r !! j <> Some (Some h, pf)) by (intros j h pf; rewrite Hv; by intros [=]%no_interface).
  split; try (intros; exfalso; by eapply Hno).
  - intros h. rewrite Hh. split; [by intros ?%elem_of_empty|]. intros [?%elem_of_empty|(j & pf & E)]; [done|]. by destruct (Hno _ _ _ E).
  - intros h. by rewrite Hh, elem_of_empty.
  - intros j pf. rewrite Hv. by intros [= ->]%no_interface.
  - intros k Hk. rewrite Hl. by apply Hi.
  - done.
  - done.
Qed.
Lemma data_zero conf : data_ok (rt_zero conf).
Proof.
  unfold data_ok, rt_zero. cbn [rt_tun rt_nldiag rt_nl rt_nlbuf rt_route_seq].
  assert (Hn : Z.of_nat (Z.to_nat NL_BUFFER_SIZE) = NL_BUFFER_SIZE) by (apply Z2Nat.id; unfold NL_BUFFER_SIZE; lia).
  revert Hn. generalize (Z.to_nat NL_BUFFER_SIZE). intros n Hn. split; [apply map_Forall_empty|done|by rewrite length_replicate| |done].
  by apply Forall_replicate.
Qed.

(** What the initialisation leaves: the state of the interfaces is the initial one. *)
Definition initial (conf : pcapd_conf) (r : pcapd_runtime) : Prop :=
  views r = views (rt_zero conf) /\ rt_sel_fds r = ∅ /\ rt_handles r = ∅ /\ data_ok r /\
  sock_ok r (rt_client r) /\ sock_ok r (rt_nlroute_sock r) /\ sock_ok r (-1) /\
  rt_inet_iface r = (if cf_inet_ifid conf =? -1 then None else Some (Z.to_nat (cf_inet_ifid conf))).
Lemma wp_init_pcapd_capture kernel stack owner conf a :
  kernel_ok kernel owner -> fd_ok (is_nlroute a) -> fd_ok (is_client a) ->
  wp (init_pcapd_capture kernel stack conf a) (fun _ r => initial conf r) (rt_zero conf).
Proof.
  intros Hk [Hn1 Hn2] [Hc1 Hc2]. unfold init_pcapd_capture. wp_step.
  set (inet := if cf_inet_ifid conf =? -1 then None else Some (Z.to_nat (cf_inet_ifid conf))).
  apply (wp_mono _ (fun _ r => initial conf r /\ rt_client r = -1 /\ nl_queue (rt_nl r) = [] /\ calm (rt_nl r))).
  { assert (Hz : calm (rt_nl (rt_zero conf))) by (split; [done|by left]). pose proof (data_zero conf) as Hd.
    destruct (Z.eqb_spec (cf_inet_ifid conf) (-1)) as [E|E]; cbn [negb].
    - apply wp_ret. split; [|done]. unfold initial. rewrite E. do 3 (split; [done|]). split; [exact Hd|].
      split; [by split; cbn; unfold FD_SETSIZE|]. split; [by split; cbn; unfold FD_SETSIZE|]. by split; [split; cbn; unfold FD_SETSIZE|].
    - apply wp_modify. split; [|done]. unfold initial. destruct (Z.eqb_spec (cf_inet_ifid conf) (-1)); [done|].
      do 3 (split; [done|]). split; [exact Hd|]. unfold sock_ok. cbn. unfold FD_SETSIZE in *. repeat split; lia. }
  intros [] r (Hi & Hcl & Hq & Hcalm). wp_step. apply (wp_mono _ (fun _ r => initial conf r)).
  { apply wp_when; intros _; [|done]. wp_step. apply wp_in_nl.
    eapply wp_mono; [by apply (wp_nl_is_diag_working owner)|]. intros w s Hs. wp_step.
    destruct Hi as (H1 & H2 & H3 & [? ? ? ? ?] & H5). do 3 (split; [done|]). by split. }
  intros [] r1 Hi1. apply wp_when; intros _; [|done]. wp_step. destruct Hi1 as (H1 & H2 & H3 & H4 & H5 & H6 & H7 & H8).
  do 3 (split; [done|]). split; [exact H4|]. unfold sock_ok in *. cbn. unfold FD_SETSIZE in *. repeat split; try lia. done.
Qed.

(** C6: a run of the daemon, from a command line it accepts to its cleanup, whatever
    happens to the interfaces: it is defined, a handle of libpcap is used only while it
    is open and is closed once, none is left, and what stays selected are the sockets of
    the client and of netlink.  This is about runs in which the UID filter returns (one
    of several applications hangs the daemon, [DaemonArgs.uid_filter_stuck]); the
    initialisation does not fail before the configuration is set ([init_ok];
    [init_too_early] is a crash); every descriptor fits an [fd_set], the one libpcap
    gives for [select] included ([fd_ok]: [pcap_get_selectable_fd] can also answer -1,
    which the code does not test); packets are bytes, up to 65535; netlink answers as
    documented ([kernel_ok], [route_ok]); and the files of /proc/net can be parsed. *)
Theorem daemon_run_closes fopen kernel stack owner fuel opts positional conf init first answers turns stats r :
  (forall t, is_Some (get_uid_slow fopen t)) -> kernel_ok kernel owner ->
  parse_args opts positional = Some (Some conf) ->
  (forall uid, is_Some (matches_uid_filter fuel (cf_uid_filter conf) uid)) ->
  init_ok init -> route_ok first -> (forall i, fd_ok (oa_fd (answers i))) -> Forall turn_ok turns ->
  exists rv r', run_pcap_dump fopen kernel stack fuel conf init first answers turns stats r = Some (rv, r') /\
    rt_handles r' = ∅ /\ Forall (fun f => if_pd f = None) (rt_ifaces r') /\
    forall fd, fd ∈ rt_sel_fds r' -> fd = rt_client r' \/ fd = rt_nlroute_sock r'.
Proof.
  intros Hproc Hkernel Hargs Hfilter Hinit Hfirst Hans Hturns. apply parse_args_wf in Hargs as Hwf.
  (* what the end makes of a state *)
  assert (Hend : forall s (rv : pcapd_rv), daemon_inv ∅ s -> selected s -> wp (finish_pcapd_capture true stats ;; mret rv) (fun _ r' =>
    rt_handles r' = ∅ /\ Forall (fun f => if_pd f = None) (rt_ifaces r') /\
    forall fd, fd ∈ rt_sel_fds r' -> fd = rt_client r' \/ fd = rt_nlroute_sock r') s).
  { intros s rv Hinv Hsel. wp_step. eapply wp_mono; [by apply wp_finish|]. intros [] s1 (Hi1 & _ & Hs1 & Hall). wp_step.
    split; [|split].
    - apply set_eq. intros h. rewrite (di_handles _ _ Hi1). split; [|by intros ?%elem_of_empty].
      intros [?|(j & pf & E)]; [done|]. by apply Hall in E.
    - apply Forall_lookup. intros j f Hf%views_at. apply Hall in Hf. by injection Hf.
    - intros fd Hfd. destruct (Hs1 fd Hfd) as [?|[?|(j & h & E)]]; [by left|by right|]. by apply Hall in E. }
  assert (Hno : forall s, rt_sel_fds s = ∅ -> selected s) by (intros s Hs fd; rewrite Hs; by intros ?%elem_of_empty).
  unfold run_pcap_dump. destruct init as [| |socks]; [done|..]; cbn [init_ok] in Hinit.
  { apply wp_bind, wp_put. apply Hend; [|by apply Hno]. apply (daemon_inv_init conf); [done|apply data_zero|done| | |done].
    all: split; cbn; unfold FD_SETSIZE; lia. }
  destruct Hinit as [Hnl Hcl]. apply wp_bind, wp_put. wp_step. eapply wp_mono; [by apply (wp_init_pcapd_capture kernel stack owner)|].
  intros [] r0 (Hv0 & Hsel0 & Hh0 & Hd0 & Hs1 & Hs2 & _ & Hinet0).
  assert (Hinv0 : daemon_inv ∅ r0).
  { apply (daemon_inv_init conf); [done..|]. intros k. rewrite Hinet0. destruct (Z.eqb_spec (cf_inet_ifid conf) (-1)) as [|E]; [done|].
    intros [= <-]. destruct (cw_inet _ Hwf E) as [_ Hl]. by apply lookup_lt_Some in Hl. }
  wp_step. eapply wp_mono; [by apply wp_check_inet_interface|]. intros [] r1 (Hinv1 & Hfr1 & Hsel1 & Hch1).
  assert (Hl1 : length (rt_ifaces r1) = length (cf_ifnames conf)).
  { destruct Hfr1 as (_ & _ & _ & ->). rewrite <-views_length, Hv0, views_length. cbn. by rewrite length_replicate. }
  wp_step. eapply wp_mono; [apply (wp_open_all (cf_ifnames conf)); [done|done|done|done|]|].
  - intros j name _ Hj Hne. destruct (lookup_lt_is_Some_2 (views r0) j) as [v Hv].
    { rewrite Hv0, views_length. cbn. rewrite length_replicate. by apply lookup_lt_Some in Hj. }
    pose proof Hv as E. rewrite Hv0 in E. apply no_interface in E as ->.
    destruct Hch1 as [E|(k & old & w & Ek & _ & E)]; rewrite E; [by eexists|].
    rewrite Hinet0 in Ek. destruct (Z.eqb_spec (cf_inet_ifid conf) (-1)) as [|Hi]; [done|]. injection Ek as <-.
    destruct (cw_inet _ Hwf Hi) as [_ Hk]. rewrite list_lookup_insert_ne; [by eexists|]. intros <-. congruence.
  - intros rv r2 (Hinv2 & Hfr2 & Hsel2). assert (Hsel2' : selected r2) by (apply Hno; by rewrite Hsel2, Hsel1, Hsel0).
    wp_step. apply (wp_mono _ (fun _ s => daemon_inv ∅ s /\ selected s)); [|intros rv' r3 [? ?]; by apply Hend].
    case_bool_decide; [|by wp_step]. wp_step. eapply wp_mono; [by apply wp_get_selectable_fds|]. intros [] r3 (Hinv3 & _ & Hs3 & _).
    eapply wp_mono; [by apply (wp_daemon_loop _ _ _ owner)|]. by intros rv' r4 (? & _ & ?).
Qed.

(** ** A run *)

(** [pcapd -i @inet -i cap.pcap -n]: the internet interface is a live one with the
    handle 0, then the file has the handle 1. *)
Definition opts_ex : list opt := [OptI INET; OptI (str "/sdcard/cap.pcap"); OptN].
Definition conf_run : pcapd_conf := Conf [INET; str "/sdcard/cap.pcap"] None None None 0 false false true false 0.
Definition opened (is_file : bool) (fd : Z) : open_answer :=
  OpenAnswer (negb is_file) true PCAPD_DLT_RAW PCAPD_DLT_RAW true fd None (Some 0x0100000a) None fd.
Definition route_to (ifidx fd : Z) : route_answer :=
  RouteAnswer true
    (fun req => seq ← rd32 req 8; Some (route_reply seq (replicate 12 0) [(RTA_OIF, le_bytes 4 ifidx); (7, [10; 0; 0; 1])]))
    (Some (str "wlan0")) (opened false fd) (PcapStat 7 1 0).
Lemma route_to_ok ifidx fd : fd_ok fd -> route_ok (route_to ifidx fd).
Proof.
  intros Hfd. split; [done|]. intros req d. cbn [ra_reply route_to]. destruct (rd32 req 8) as [seq|]; [|done]. cbn [mbind option_bind].
  intros E. apply (inj Some) in E as <-. unfold route_reply, nlmsghdr, rta_bytes. cbn [fmap list_fmap concat fst snd].
  solve_bytes.
Qed.
Definition quiet_in : read_input_t := ReadIn NextNone true [] [0; 0] pcap_stat_zero.
Definition no_link : nat -> link_answer := fun _ => LinkAnswer None None pcap_stat_zero.
Definition ip_ex : list Z := drop 20 captured_ex.
(** The route moves to another interface, a packet comes from it and the file has
    reached its end. *)
Definition new_route : list Z := nlmsghdr 28 RTM_NEWROUTE 0 0 ++ replicate 12 0 ++ nlmsghdr 20 NLMSG_DONE 0 0 ++ replicate 4 0.
Definition turns_ex : list turn_input :=
  [TurnIn (Selected {[3]}) (Some new_route) no_link (route_to 7 12) (fun _ => quiet_in) 1 (route_to 7 12);
   TurnIn (Selected {[12]}) None no_link (route_to 7 12) (fun _ => ReadIn (NextPkt (5, 6) ip_ex) true [] [0; 0] (PcapStat 9 2 0)) 2 (route_to 7 12);
   TurnIn (Selected {[11]}) None no_link (route_to 7 12) (fun _ => ReadIn NextBreak true [] [0; 0] pcap_stat_zero) 3 (route_to 7 12)].
(** The UDP socket of [owner_ex] sends a packet from port 3. *)
Definition run_ex : M pcapd_runtime pcapd_rv :=
  run_pcap_dump (fun _ => None) (kernel_of owner_ex) [] 0 conf_run (InitDone (InitSocks 3 4 true true)) (route_to 5 10)
    (fun _ => opened true 11) turns_ex (fun _ => pcap_stat_zero).

Lemma daemon_run_closes_witness :
  parse_args opts_ex false = Some (Some conf_run) /\
  exists rv r', run_ex (rt_zero conf_run) = Some (rv, r') /\ rt_handles r' = ∅ /\
    Forall (fun f => if_pd f = None) (rt_ifaces r') /\
    forall fd, fd ∈ rt_sel_fds r' -> fd = rt_client r' \/ fd = rt_nlroute_sock r'.
Proof.
  split; [by vm_compute|].
  assert (Hroute : forall n fd, fd_ok fd -> route_ok (route_to n fd)) by exact route_to_ok.
  apply (daemon_run_closes (fun _ => None) (kernel_of owner_ex) [] owner_ex 0 opts_ex false conf_run (InitDone (InitSocks 3 4 true true))
    (route_to 5 10) (fun _ => opened true 11) turns_ex (fun _ => pcap_stat_zero) (rt_zero conf_run) no_files (kernel_of_ok _ owner_ex_ok)).
  - by vm_compute.
  - intros uid. by eexists.
  - by split.
  - by apply Hroute.
  - intros i. by split.
  - assert (Hp : packet_ok (NextPkt (5, 6) ip_ex)) by (split; [apply (bool_decide_unpack _)|]; by vm_compute).
    assert (Hd : datagram_ok (Some new_route)) by (split; [apply (bool_decide_unpack _)|]; by vm_compute).
    assert (H12 : route_ok (route_to 7 12)) by by apply Hroute.
    repeat apply Forall_cons_2; [..|apply Forall_nil_2]; (split; [intros i; exact Hp || exact I|exact Hd || exact I|exact H12|exact H12]).
Defined.
(** Both interfaces were open, one after another handle. *)
Example run_ex_ends : (fun '(rv, r) => (rv, rt_next_handle r, rt_stats r, rt_nldiag r)) <$> run_ex (rt_zero conf_run) =
  Some (PCAPD_OK, 3, PcapStat 7 1 0, false).
Proof. by vm_compute. Qed.

(** When there is no configuration yet, the cleanup reads its number of interfaces. *)
Example init_too_early : run_pcap_dump (fun _ => None) (kernel_of owner_ex) [] 0 conf_run InitTooEarly (route_to 5 10)
    (fun _ => opened true 11) [] (fun _ => pcap_stat_zero) (rt_zero conf_run) = None.
Proof. done. Qed.

(** An interface the periodic check opens is not selected: its packets wait for the
    next message of netlink. *)
Definition reopened : option (flow * Z * pcapd_runtime) :=
  daemon_turn (fun _ => None) (kernel_of owner_ex) [] 0 conf_run
    (TurnIn (Selected ∅) None no_link (route_to 5 10) (fun _ => quiet_in) 1 (route_to 5 10)) 0
    ((rt_zero conf_run) <| rt_inet_iface := Some 0%nat |> <| rt_nlroute_sock := 3 |> <| rt_sel_fds := {[3]} |>).
Example reopened_not_selected :
  (fun '(f, n, r) => (f, n, if_pf <$> rt_ifaces r !! 0%nat, bool_decide (10 ∈ rt_sel_fds r))) <$> reopened =
  Some (Running, 3, Some 10, false).
Proof. by vm_compute. Qed.

End PcapdRun.
