(* ===== verification/LibpcapStart.v ===== *)
(** * Starting and ending the capture with root (core/capture_libpcap.c,
    [start_subprocess] and [run_shell_cmd] of common/utils.c)

    What the capture asks of the system around its loop: processes, descriptors, the
    socket the daemon connects to and the rules of iptables. *)

From S2P Require Import Prelude CString CFormat DaemonArgs.

Module LibpcapStart.
Import DaemonArgs.

(** ** The system *)

(** What the calls answer, each by its number: values of system calls, whether a pipe
    is created, whether a process is, the status of a command that is not otherwise
    determined. *)
Class StartEnv := {
    ans : nat -> Z;
    pipe_ok : nat -> bool;
    fork_ok : nat -> bool;
    sh_status : nat -> cstr -> Z;
  }.

(** Descriptors and processes are numbered in the order they are created.  [sy_rules]
    is the chain of the rules of iptables; the last two fields are members of [pd->pcap]. *)
Record sys := Sys {
    sy_calls : nat;
    sy_next : Z;
    sy_fds : gset Z;
    sy_children : gset Z;
    sy_socket_file : bool;
    sy_commands : list cstr;
    sy_rules : list cstr;
    sy_daemonize : bool;
    sy_pcapd_pid : Z;
  }.
#[export] Instance eta_sys : Eta sys := fun s =>
  Sys (sy_calls s) (sy_next s) (sy_fds s) (sy_children s) (sy_socket_file s) (sy_commands s) (sy_rules s)
    (sy_daemonize s) (sy_pcapd_pid s).

(** iptables with the arguments used here: [-I] puts a rule in front, [-D] removes the
    first one that is the same, and fails when there is none. *)
Fixpoint remove_first (r : cstr) (l : list cstr) : option (list cstr) :=
  match l with
  | [] => None
  | x :: l => if bool_decide (x = r) then Some l else (fun l => x :: l) <$> remove_first r l
  end.
Definition iptables (args : cstr) (rules : list cstr) : option (list cstr) :=
  if has_prefix (str "-t nat -I ") args then Some (drop 10 args :: rules)
  else if has_prefix (str "-t nat -D ") args then remove_first (drop 10 args) rules
  else None.

Section start.
Context `{StartEnv}.

Definition next_call : M sys nat :=
  s ← getS; putS (s <| sy_calls ::= S |>) ;; mret (sy_calls s).
Definition ask : M sys Z := n ← next_call; mret (ans n).
Definition fresh : M sys Z := s ← getS; putS (s <| sy_next ::= Z.succ |>) ;; mret (sy_next s).
Definition open_fd : M sys Z :=
  fd ← fresh; modifyS (fun s => s <| sy_fds ::= union {[fd]} |>) ;; mret fd.
(** A system call that creates a descriptor, or fails. *)
Definition try_fd : M sys (option Z) :=
  a ← ask; if a <? 0 then mret None else fd ← open_fd; mret (Some fd).
(** Closing a descriptor that is not open is an error of the program. *)
Definition close (fd : Z) : M sys unit :=
  s ← getS;
  if bool_decide (fd ∈ sy_fds s) then putS (s <| sy_fds ::= fun l => l ∖ {[fd]} |>) else ub.
Definition pipe : M sys (option (Z * Z)) :=
  n ← next_call;
  if pipe_ok n then r ← open_fd; w ← open_fd; mret (Some (r, w)) else mret None.
Definition fork : M sys (option Z) :=
  n ← next_call;
  if fork_ok n then
    pid ← fresh; modifyS (fun s => s <| sy_children ::= union {[pid]} |>) ;; mret (Some pid)
  else mret None.
(** It waits for a child and then forgets it; for another process it fails. *)
Definition waitpid (pid status : Z) : M sys (option Z) :=
  s ← getS;
  if bool_decide (pid ∈ sy_children s) then putS (s <| sy_children ::= fun l => l ∖ {[pid]} |>) ;; mret (Some status)
  else mret None.

(** ** Processes (common/utils.c) *)

(** The process and the descriptor of its output, when that was asked for. *)
Definition start_subprocess (prog args : cstr) (as_root out : bool) : M sys (option (Z * option Z)) :=
  in_p ← pipe;
  match in_p with
  | None => mret None
  | Some (in0, in1) =>
      out_p ← (if out then r ← pipe; mret (Some <$> r) else mret (Some None));
      match (out_p : option (option (Z * Z))) with
      | None => mret None
      | Some out_p =>
          pid ← fork;
          match pid with
          | Some pid =>
              match out_p with Some (_, out1) => close out1 | None => mret tt end ;;
              close in0 ;;
              modifyS (fun s => s <| sy_commands ::= cons ((if as_root : bool then str "su: " else str "sh: ") ++ prog ++ str " " ++ args) |>) ;;
              close in1 ;;
              mret (Some (pid, fst <$> out_p))
          | None =>
              close in0 ;; close in1 ;;
              match out_p with Some (out0, out1) => close out0 ;; close out1 | None => mret tt end ;;
              mret None
          end
      end
  end.

(** The status of a command once it has run; [iptables] is the one that is followed. *)
Definition run_command (prog args : cstr) : M sys Z :=
  n ← next_call;
  let status := sh_status n args in
  if negb (status =? 0) then mret status else
  if negb (bool_decide (prog = str "iptables")) then mret 0 else
  s ← getS;
  match iptables args (sy_rules s) with
  | Some rules => putS (s <| sy_rules := rules |>) ;; mret 0
  | None => mret 256
  end.
Definition run_shell_cmd (prog args : cstr) (as_root : bool) : M sys Z :=
  p ← start_subprocess prog args as_root true;
  match p with
  | None => mret (-1)
  | Some (pid, out_fd) =>
      status ← run_command prog args;
      rv ← waitpid pid status;
      match rv with
      | None => mret (-1)
      | Some rv =>
          match out_fd with Some fd => close fd | None => mret tt end ;;
          mret rv
      end
  end.

(** ** The daemon *)

Definition SIGKILL : Z := 9.
Definition SIGTERM : Z := 15.
Definition kill_process (pid : Z) (as_root : bool) (signum : Z) : M sys unit :=
  let args := printf_bytes 16 (str "-" ++ printf_d signum ++ str " " ++ printf_d pid) in
  run_shell_cmd (str "kill") args as_root ;; mret tt.

(** [None] is a file that cannot be opened; from an empty one [pid_s] is not set. *)
Definition get_pcapd_pid (file : option (list Z)) : option Z :=
  match file with
  | None => Some (-1)
  | Some content => r ← fgets 8 content; atoi (fst r)
  end.

(** What the capture is started with. *)
Record start_conf := StartConf {
    sc_prog : cstr;              (* from [get_libprog_path] *)
    sc_pid_file : option (list Z);
    sc_bpf : cstr;
    sc_interface : cstr;
    sc_file_capture : bool;
    sc_log_uid : Z;
    sc_tls : bool;               (* [tls_decryption.enabled] *)
    sc_uids : list Z;
    sc_addon_uid : Z;
  }.
Definition sc_as_root (c : start_conf) : bool := negb (sc_file_capture c).

(** Waiting for the daemon to connect, half a second at a time: how it ends. *)
Inductive wait_end := Connected | Aborted | Died | TimedOut.
#[export] Instance wait_end_eq_dec : EqDecision wait_end.
Proof. solve_decision. Defined.
Fixpoint wait_pcapd (polls : nat) (pid : Z) : M sys wait_end :=
  match polls with
  | O => mret TimedOut
  | S polls =>
      ready ← ask;
      running ← ask;
      if running =? 0 then mret Aborted else
      if negb (ready =? 0) then mret Connected else
      s ← getS;
      died ← (if negb (sy_daemonize s) then
                a ← ask;
                if a =? 0 then mret false
                else r ← waitpid pid a; mret (bool_decide (r <> None))
              else mret false);
      if died : bool then mret Died else wait_pcapd polls pid
  end.

(** From [bind] to the label [cleanup]: the client, and the value of [pid] there. *)
Definition connect_body (c : start_conf) (polls : nat) (sock : Z) : M sys (option Z * Z) :=
  bound ← ask;
  if bound <? 0 then mret (None, -1) else
  modifyS (fun s => s <| sy_socket_file := true |>) ;;
  found ← ask;
  match connectPcapd_args (found =? 0) (sc_log_uid c) (sc_file_capture c) (sc_interface c) (sc_bpf c) (sc_tls c) (sc_uids c) with
  | None => mret (None, -1)
  | Some args =>
      whenM (negb (sc_file_capture c)) (modifyS (fun s => s <| sy_daemonize := true |>)) ;;
      p ← start_subprocess (sc_prog c) args (sc_as_root c) false;
      match p with
      | None => mret (None, -1)
      | Some (pid, _) =>
          s ← getS;
          failed ← (if sy_daemonize s then
                      a ← ask; r ← waitpid pid a;
                      mret (bool_decide (r <> None) && negb (a =? 0))
                    else mret false);
          if failed : bool then mret (None, pid) else
          w ← wait_pcapd polls pid;
          match w with
          | Died => mret (None, -1)
          | Aborted | TimedOut => mret (None, pid)
          | Connected =>
              client ← try_fd;
              match client with
              | None => mret (None, pid)
              | Some client =>
                  modifyS (fun s => s <| sy_pcapd_pid := pid |>) ;;
                  mret (Some client, pid)
              end
          end
      end
  end.
Definition connectPcapd (c : start_conf) (polls : nat) : M sys (option Z) :=
  if bool_decide (sc_prog c = []) then mret None else
  dir ← ask;
  if dir <? 0 then mret None else
  sock ← try_fd;
  match sock with
  | None => mret None
  | Some sock =>
      pid ← liftO (get_pcapd_pid (sc_pid_file c));
      whenM (0 <? pid) (kill_process pid (sc_as_root c) SIGTERM) ;;
      modifyS (fun s => s <| sy_socket_file := false |>) ;;
      r ← connect_body c polls sock;
      let '(client, pid) := (r : option Z * Z) in
      whenM (bool_decide (client = None) && (0 <? pid))
        (kill_process pid (sc_as_root c) SIGKILL ;;
         s ← getS;
         whenM (negb (sy_daemonize s)) (status ← ask; waitpid pid status ;; mret tt)) ;;
      modifyS (fun s => s <| sy_socket_file := false |>) ;;
      close sock ;;
      mret client
  end.

(** ** The rules *)

(** The UIDs rules are made for; -1 stands for every UID but that of the add-on. *)
Definition mitm_uids (uids : list Z) : list Z := if bool_decide (uids = []) then [-1] else filter (fun u => 0 <= u) uids.
(** The value is whether all were added, and [iptables_cleanup]. *)
Fixpoint add_rules (c : start_conf) (uids : list Z) (cleanup : bool) : M sys (bool * bool) :=
  match uids with
  | [] => mret (true, cleanup)
  | uid :: uids =>
      args ← liftO (get_mitm_redirection_args (sc_addon_uid c) uid true);
      rv ← run_shell_cmd (str "iptables") args true;
      if negb (rv =? 0) then mret (false, cleanup) else add_rules c uids true
  end.
Definition remove_rules (c : start_conf) : M sys unit :=
  forM (mitm_uids (sc_uids c)) (fun uid =>
    args ← liftO (get_mitm_redirection_args (sc_addon_uid c) uid false);
    run_shell_cmd (str "iptables") args true ;; mret tt).

(** ** Around the loop *)

(** The start, the loop, which asks nothing of this, and the cleanup.  The value is
    whether the loop was reached, and the status of the daemon when it was waited for. *)
Definition run_libpcap_system (c : start_conf) (polls : nat) : M sys (bool * option Z) :=
  sock ← connectPcapd c polls;
  r ← match sock with
      | None => mret (false, false)
      | Some _ => if sc_tls c then add_rules c (mitm_uids (sc_uids c)) false else mret (true, false)
      end;
  let '(started, iptables_cleanup) := (r : bool * bool) in
  match sock with Some sock => close sock | None => mret tt end ;;
  whenM iptables_cleanup (remove_rules c) ;;
  s ← getS;
  status ← (if (0 <? sy_pcapd_pid s) && negb (sy_daemonize s)
            then a ← ask; waitpid (sy_pcapd_pid s) a else mret None);
  mret (started, status).
End start.

End LibpcapStart.
