(* ===== verification/LibpcapSys.v ===== *)
(** * What the capture with root leaves behind

    Every process it started was waited for, every descriptor was closed once, and the
    rules of iptables are those there were before. *)

From S2P Require Import Prelude CString CFormat DaemonArgs LibpcapStart.

Module LibpcapSys.
Export LibpcapStart.
Import DaemonArgs.

(** ** The primitives *)

(** Numbers are new. *)
Record sys_wf (s : sys) : Prop := {
    sw_next : 0 < sy_next s;
    sw_fds : forall fd, fd ∈ sy_fds s -> fd < sy_next s;
    sw_children : forall p, p ∈ sy_children s -> 0 < p < sy_next s;
  }.
(** The members of [pd->pcap] and the name of the socket stay. *)
Definition members (s : sys) : bool * Z * bool := (sy_daemonize s, sy_pcapd_pid s, sy_socket_file s).

Section prims.
Context `{StartEnv}.
Hypothesis pipes : forall n, pipe_ok n = true.

Lemma wp_next_call (Q : nat -> sys -> Prop) s : (forall n, Q n (s <| sy_calls := S (sy_calls s) |>)) -> wp next_call Q s.
Proof. intros HQ. unfold next_call. wp_run. apply HQ. Qed.
Lemma wp_sys_ask (Q : Z -> sys -> Prop) s : (forall a, Q a (s <| sy_calls := S (sy_calls s) |>)) -> wp ask Q s.
Proof. intros HQ. unfold ask. wp_step. apply wp_next_call. intros n. by wp_step. Qed.
Lemma wp_open_fd (Q : Z -> sys -> Prop) s :
  Q (sy_next s) (s <| sy_next := Z.succ (sy_next s) |> <| sy_fds := {[sy_next s]} ∪ sy_fds s |>) -> wp open_fd Q s.
Proof. intros HQ. unfold open_fd, fresh. by wp_run. Qed.
Lemma wp_close_fd fd (Q : unit -> sys -> Prop) s :
  fd ∈ sy_fds s -> Q tt (s <| sy_fds := sy_fds s ∖ {[fd]} |>) -> wp (close fd) Q s.
Proof. intros Hfd HQ. unfold close. wp_run. rewrite bool_decide_eq_true_2 by done. by apply wp_put. Qed.
Lemma wp_waitpid pid status (Q : option Z -> sys -> Prop) s :
  (pid ∈ sy_children s -> Q (Some status) (s <| sy_children := sy_children s ∖ {[pid]} |>)) ->
  (pid ∉ sy_children s -> Q None s) -> wp (waitpid pid status) Q s.
Proof.
  intros H1 H2. unfold waitpid. wp_run. case_bool_decide; [wp_run; by apply H1|wp_run; by apply H2].
Qed.

(** ** Processes *)

(** Some number of descriptors and processes is added. *)
Definition added (fds children : gset Z) (s s' : sys) : Prop :=
  sys_wf s' /\ sy_next s <= sy_next s' /\ sy_fds s' = fds ∪ sy_fds s /\ sy_children s' = children ∪ sy_children s /\
  members s' = members s.
Lemma added_trans f1 c1 f2 c2 s1 s2 s3 : added f1 c1 s1 s2 -> added f2 c2 s2 s3 -> added (f2 ∪ f1) (c2 ∪ c1) s1 s3.
Proof.
  intros (A1 & A2 & A3 & A4 & A5) (B1 & B2 & B3 & B4 & B5). split; [done|]. split; [lia|].
  rewrite B3, B4, B5, A3, A4, A5. by rewrite !(assoc_L (∪)).
Qed.
Lemma added_refl s : sys_wf s -> added ∅ ∅ s s.
Proof. intros Hs. split; [done|]. by rewrite !(left_id_L ∅ (∪)). Qed.

Lemma added_intro fds children s s' :
  sys_wf s -> sy_fds s' = fds ∪ sy_fds s -> sy_children s' = children ∪ sy_children s -> sy_next s <= sy_next s' ->
  (forall x, x ∈ fds -> x < sy_next s') -> (forall x, x ∈ children -> 0 < x < sy_next s') -> members s' = members s ->
  added fds children s s'.
Proof.
  intros [Hn Hf Hc] Ef Ec Hle H1 H2 Hm. split; [|done]. split; [lia| |].
  - intros fd. rewrite Ef. intros [?|?%Hf]%elem_of_union; [by apply H1|lia].
  - intros x. rewrite Ec. intros [?|?%Hc]%elem_of_union; [by apply H2|lia].
Qed.
Lemma wp_start_subprocess prog args as_root out s :
  sys_wf s ->
  wp (start_subprocess prog args as_root out) (fun p s' =>
    match p with
    | None => added ∅ ∅ s s' /\ ~ (forall n, fork_ok n = true)
    | Some (pid, o) =>
        exists outs, added outs {[pid]} s s' /\ 0 < pid /\ pid ∉ sy_children s /\ (out = false -> o = None) /\
          match o with Some fd => outs = {[fd]} /\ fd ∉ sy_fds s | None => outs = ∅ end
    end /\ sy_rules s' = sy_rules s) s.
Proof.
  intros Hs. pose proof Hs as [Hn Hf Hc]. unfold start_subprocess, pipe, fork, fresh. set (n0 := sy_next s) in *.
  assert (Hnew : forall k, n0 <= k -> k ∉ sy_fds s) by (intros k Hk Hin%Hf; lia).
  assert (Hnewp : forall k, n0 <= k -> k ∉ sy_children s) by (intros k Hk Hin%Hc; lia).
  set (in1 := Z.succ n0). set (out0 := Z.succ in1). set (out1 := Z.succ out0).
  assert (Hd : n0 <> in1 /\ n0 <> out0 /\ n0 <> out1 /\ in1 <> out0 /\ in1 <> out1 /\ out0 <> out1) by lia.
  destruct Hd as (D1 & D2 & D3 & D4 & D5 & D6).
  pose proof (Hnew n0 ltac:(lia)) as F0. pose proof (Hnew in1 ltac:(lia)) as F1.
  pose proof (Hnew out0 ltac:(lia)) as F2. pose proof (Hnew out1 ltac:(lia)) as F3. clear Hnew.
  wp_step. wp_step. apply wp_next_call. intros c1. rewrite pipes. wp_step. apply wp_open_fd. wp_step. apply wp_open_fd. wp_step.
  destruct out; [wp_step; wp_step; wp_step; apply wp_next_call; intros c2; rewrite pipes; wp_step; apply wp_open_fd;
    wp_step; apply wp_open_fd; wp_step; wp_step; cbn [fmap option_fmap option_map]|wp_step; wp_step].
  all: wp_step; wp_step; apply wp_next_call; intros c3; destruct (fork_ok c3) eqn:Ef; cbn -[str];
    fold n0; fold in1; fold out0; fold out1.
  all: repeat first [wp_step; cbn -[str] | apply wp_close_fd; [cbn; set_solver|cbn -[str]]].
  - split; [|done]. exists {[out0]}. split; [|split; [lia|split; [apply Hnewp; lia|by split]]].
    apply added_intro; [done|cbn; set_solver|done|cbn; lia|by intros x ->%elem_of_singleton; cbn; lia|intros x ->%elem_of_singleton; cbn; lia|done].
  - split; [|done]. split; [|intros Hall; by rewrite Hall in Ef].
    apply added_intro; [done|cbn; set_solver|cbn; set_solver|cbn; lia|by intros x ?%elem_of_empty..|done].
  - split; [|done]. exists ∅. split; [|split; [lia|split; [apply Hnewp; lia|by split]]].
    apply added_intro; [done|cbn; set_solver|done|cbn; lia|by intros x ?%elem_of_empty|intros x ->%elem_of_singleton; cbn; lia|done].
  - split; [|done]. split; [|intros Hall; by rewrite Hall in Ef].
    apply added_intro; [done|cbn; set_solver|cbn; set_solver|cbn; lia|by intros x ?%elem_of_empty..|done].
Qed.

(** What a command does to the rules: nothing, which is a failure of iptables, or what
    iptables does. *)
Definition cmd_rules (prog args : cstr) (l l' : list cstr) (rv : Z) : Prop :=
  (l' = l /\ (prog = str "iptables" -> rv <> 0 /\
    ((forall n, fork_ok n = true) -> (forall n, sh_status n args = 0) -> iptables args l = None))) \/
  (prog = str "iptables" /\ rv = 0 /\ iptables args l = Some l').

Lemma wp_run_command prog args s :
  sys_wf s -> wp (run_command prog args) (fun rv s' =>
    added ∅ ∅ s s' /\ sy_next s' = sy_next s /\ cmd_rules prog args (sy_rules s) (sy_rules s') rv) s.
Proof.
  intros Hs. unfold run_command. wp_step. apply wp_next_call. intros n. cbv zeta.
  assert (Ha : forall r, added ∅ ∅ s (s <| sy_calls := S (sy_calls s) |> <| sy_rules := r |>)).
  { intros r. split; [by destruct Hs|]. cbn. by rewrite !(left_id_L ∅ (∪)). }
  destruct (Z.eqb_spec (sh_status n args) 0) as [E|E]; cbn [negb].
  2:{ wp_step. split; [apply (Ha (sy_rules s))|]. split; [done|]. left. split; [done|]. intros _. split; [done|]. intros _ H0. by rewrite H0 in E. }
  case_bool_decide as Ep; cbn [negb].
  2:{ wp_step. split; [apply (Ha (sy_rules s))|]. split; [done|]. left. by split. }
  wp_step. wp_step. cbn [sy_rules]. change (sy_rules (s <| sy_calls := S (sy_calls s) |>)) with (sy_rules s).
  destruct (iptables args (sy_rules s)) as [rules|] eqn:Ei.
  - wp_step. wp_step. wp_step. split; [apply Ha|]. split; [done|]. right. done.
  - wp_step. split; [apply (Ha (sy_rules s))|]. split; [done|]. left. split; [done|]. intros _. by split.
Qed.

Lemma added_waited outs pid s s1 s2 :
  sys_wf s -> added outs {[pid]} s s1 -> pid ∉ sy_children s -> added ∅ ∅ s1 s2 -> (forall fd, fd ∈ outs -> fd ∉ sy_fds s) ->
  added ∅ ∅ s (s2 <| sy_children := sy_children s2 ∖ {[pid]} |> <| sy_fds := sy_fds s2 ∖ outs |>).
Proof.
  intros Hs (A1 & A2 & A3 & A4 & A5) Hp (B1 & B2 & B3 & B4 & B5) Hout. destruct Hs as [Hn Hf Hc].
  apply added_intro; [done| | | |by intros x ?%elem_of_empty..|].
  - cbn. rewrite B3, A3. set_solver.
  - cbn. rewrite B4, A4. set_solver.
  - cbn. lia.
  - cbn in *. change (members s2 = members s). by rewrite B5, A5.
Qed.
Lemma wp_run_shell_cmd prog args as_root s :
  sys_wf s -> wp (run_shell_cmd prog args as_root) (fun rv s' =>
    added ∅ ∅ s s' /\ cmd_rules prog args (sy_rules s) (sy_rules s') rv) s.
Proof.
  intros Hs. unfold run_shell_cmd. wp_step. eapply wp_mono; [by apply wp_start_subprocess|].
  intros [[pid o]|] s1 [H1 Hr].
  2:{ destruct H1 as [Ha Hfork]. wp_step. split; [done|]. left. split; [done|]. intros _. split; [done|]. intros Hall. by destruct (Hfork Hall). }
  destruct H1 as (outs & Ha & Hpid & Hnew & _ & Hout). wp_step. eapply wp_mono; [apply wp_run_command; apply Ha|].
  intros status s2 (Hb & _ & Hcmd). rewrite Hr in Hcmd. wp_step. apply wp_waitpid.
  2:{ intros Hno. destruct Hno. destruct Ha as (_ & _ & _ & Ha & _), Hb as (_ & _ & _ & Hb & _). rewrite Hb, Ha. set_solver. }
  intros _. wp_step. destruct o as [fd|]; [destruct Hout as [-> Hfd]|subst outs].
  - apply wp_close_fd.
    + cbn. destruct Ha as (_ & _ & Ha & _), Hb as (_ & _ & Hb & _). rewrite Hb, Ha. set_solver.
    + wp_step. split; [|done]. apply (added_waited {[fd]} pid s s1 s2); [done..|]. by intros x ->%elem_of_singleton.
  - wp_step. wp_step. split; [|done].
    pose proof (added_waited ∅ pid s s1 s2 Hs Ha Hnew Hb ltac:(by intros x ?%elem_of_empty)) as H'.
    rewrite difference_empty_L in H'. destruct s2. exact H'.
Qed.
Lemma wp_kill_process pid as_root signum s :
  sys_wf s -> wp (kill_process pid as_root signum) (fun _ s' => added ∅ ∅ s s' /\ sy_rules s' = sy_rules s) s.
Proof.
  intros Hs. unfold kill_process. cbv zeta. wp_step. eapply wp_mono; [by apply wp_run_shell_cmd|].
  intros rv s1 [Ha [[Hr _]|[Hp _]]]; [by wp_step|done].
Qed.

(** ** Connecting *)

(** The descriptors, the children and the rules of a state. *)
Record sys_at (fds children : gset Z) (rules : list cstr) (s : sys) : Prop := {
    sa_wf : sys_wf s;
    sa_fds : sy_fds s = fds;
    sa_children : sy_children s = children;
    sa_rules : sy_rules s = rules;
  }.
(** A change that none of this is about. *)
Lemma sys_at_keep fds children rules s s' :
  sys_at fds children rules s -> sy_next s' = sy_next s -> sy_fds s' = sy_fds s -> sy_children s' = sy_children s ->
  sy_rules s' = sy_rules s -> sys_at fds children rules s'.
Proof. intros [[H1 H2 H3] <- <- <-] En Ef Ec Er. split; [split; rewrite ?En, ?Ef, ?Ec; done|done..]. Qed.
Lemma sys_at_added F C R s f c s' : sys_at F C R s -> added f c s s' -> sys_at (f ∪ F) (c ∪ C) (sy_rules s') s'.
Proof. intros [? <- <- <-] (? & ? & ? & ? & _). by split. Qed.
Ltac keep H := eapply sys_at_keep; [exact H|done..].

Lemma wp_try_fd F C R (Q : option Z -> sys -> Prop) s :
  sys_at F C R s ->
  (forall s', sys_at F C R s' -> members s' = members s -> Q None s') ->
  (forall fd s', 0 < fd -> fd ∉ F -> sys_at ({[fd]} ∪ F) C R s' -> members s' = members s -> Q (Some fd) s') ->
  wp try_fd Q s.
Proof.
  intros Hs HN HS. unfold try_fd. wp_step. apply wp_sys_ask. intros a. destruct (a <? 0).
  { wp_step. apply HN; [keep Hs|done]. }
  wp_step. apply wp_open_fd. wp_step. destruct Hs as [[Hn Hf Hc] <- <- <-]. apply HS; [exact Hn|intros Hin%Hf; cbn in Hin; lia| |done].
  split; [|done..]. split; cbn; [lia| |].
  - intros fd [->%elem_of_singleton|Hin%Hf]%elem_of_union; lia.
  - intros p Hp%Hc. lia.
Qed.

(** A child that was not waited for yet, unless the daemon left it behind. *)
Definition with_child (daemonize : bool) (pid : Z) (C : gset Z) : gset Z := if daemonize then C else {[pid]} ∪ C.
Lemma wp_wait_pcapd polls pid F C R s :
  pid ∉ C -> sys_at F (with_child (sy_daemonize s) pid C) R s ->
  wp (wait_pcapd polls pid) (fun w s' => members s' = members s /\
    sys_at F (if bool_decide (w = Died) then C else with_child (sy_daemonize s') pid C) R s') s.
Proof.
  intros Hp. revert s. induction polls as [|polls IH]; intros s Hs; cbn [wait_pcapd]; [by wp_step|].
  wp_step. apply wp_sys_ask. intros ready. wp_step. apply wp_sys_ask. intros run. destruct (run =? 0); [wp_step; split; [done|keep Hs]|].
  destruct (negb (ready =? 0)); [wp_step; split; [done|keep Hs]|]. wp_step. wp_step. wp_step.
  change (sy_daemonize (s <| sy_calls := S (sy_calls s) |> <| sy_calls := S (sy_calls (s <| sy_calls := S (sy_calls s) |>)) |>)) with (sy_daemonize s).
  set (s1 := _ <| sy_calls := _ |>). assert (Hs1 : sys_at F (with_child (sy_daemonize s) pid C) R s1) by keep Hs.
  assert (Hagain : forall s2, sys_at F (with_child (sy_daemonize s) pid C) R s2 -> members s2 = members s -> wp (wait_pcapd polls pid) (fun w s' =>
    members s' = members s /\ sys_at F (if bool_decide (w = Died) then C else with_child (sy_daemonize s') pid C) R s') s2).
  { intros s2 H2 Hm. assert (Hd : sy_daemonize s2 = sy_daemonize s) by by injection Hm. eapply wp_mono; [apply IH; by rewrite Hd|].
    intros w s3 [E ?]. split; [by rewrite E|done]. }
  destruct (sy_daemonize s) eqn:Ed; cbn [negb].
  { wp_step. by apply Hagain. }
  wp_step. apply wp_sys_ask. intros a. destruct (a =? 0); [wp_step; apply Hagain; [keep Hs1|done]|].
  wp_step. apply wp_waitpid.
  - intros _. wp_step. rewrite bool_decide_eq_true_2 by done. apply wp_ret. split; [done|]. rewrite bool_decide_eq_true_2 by done. cbn [with_child] in Hs1.
    destruct Hs1 as [[Hn Hf Hc] Ef Ec Er]. split; [split; cbn; [done|done|intros p; rewrite elem_of_difference; intros [Hin _]; by apply Hc]|done| |done].
    cbn. change (sy_children s1 ∖ {[pid]} = C). rewrite Ec. set_solver.
  - intros _. wp_step. rewrite bool_decide_eq_false_2 by (intros Hn; by apply Hn). apply Hagain; [keep Hs1|done].
Qed.

(** What [connect_body] leaves: the client or nothing, and the process. *)
Definition body_post (F C : gset Z) (R : list cstr) (s : sys) (r : option Z * Z) (s' : sys) : Prop :=
  match fst r with
  | Some client =>
      0 < client /\ client ∉ F /\ sys_at ({[client]} ∪ F) (with_child (sy_daemonize s') (snd r) C) R s' /\
      0 < snd r /\ snd r ∉ C /\ sy_pcapd_pid s' = snd r
  | None =>
      sy_pcapd_pid s' = sy_pcapd_pid s /\
      ((snd r = -1 /\ sys_at F C R s') \/
       (0 < snd r /\ snd r ∉ C /\ sys_at F (with_child (sy_daemonize s') (snd r) C) R s'))
  end.
Lemma wp_connect_body c polls sock F C R s :
  sys_at F C R s -> wp (connect_body c polls sock) (body_post F C R s) s.
Proof.
  intros Hs. unfold connect_body. wp_step. apply wp_sys_ask. intros bound. destruct (bound <? 0).
  { wp_step. split; [done|]. left. split; [done|keep Hs]. }
  wp_step. wp_step. wp_step. apply wp_sys_ask. intros found. destruct (connectPcapd_args _ _ _ _ _ _ _) as [args|].
  2:{ wp_step. split; [done|]. left. split; [done|keep Hs]. }
  wp_step. apply (wp_mono _ (fun _ s' => sys_at F C R s' /\ sy_pcapd_pid s' = sy_pcapd_pid s)).
  { apply wp_when; intros _; [wp_step|]; (split; [keep Hs|done]). }
  intros [] s1 [H1 Ep1]. wp_step. eapply wp_mono; [apply wp_start_subprocess; apply H1|]. intros [[pid o]|] s2 [H2 Hr].
  2:{ destruct H2 as [Ha _]. wp_step. pose proof (sys_at_added _ _ _ _ _ _ _ H1 Ha) as Hs2. rewrite !(left_id_L ∅ (∪)), Hr, (sa_rules _ _ _ _ H1) in Hs2.
      destruct Ha as (_ & _ & _ & _ & Hm). split; [injection Hm; congruence|]. by left. }
  destruct H2 as (outs & Ha & Hpid & Hnew & Hnone & Ho). rewrite (Hnone eq_refl) in Ho. subst outs.
  pose proof (sys_at_added _ _ _ _ _ _ _ H1 Ha) as Hs2. rewrite (left_id_L ∅ (∪)), Hr, (sa_rules _ _ _ _ H1) in Hs2.
  rewrite (sa_children _ _ _ _ H1) in Hnew. assert (Ep2 : sy_pcapd_pid s2 = sy_pcapd_pid s).
  { destruct Ha as (_ & _ & _ & _ & Hm). injection Hm. congruence. }
  clear Ha Hnone Hr. wp_step. wp_step. wp_step.
  (* the launcher of a daemon is waited for at once *)
  apply (wp_mono _ (fun _ s' => sy_pcapd_pid s' = sy_pcapd_pid s /\ sys_at F (with_child (sy_daemonize s') pid C) R s')).
  { destruct (sy_daemonize s2) eqn:Ed; [|wp_step; split; [done|by rewrite Ed]].
    wp_step. apply wp_sys_ask. intros a. wp_step. apply wp_waitpid.
    - intros _. wp_step. split; [done|]. cbn. change (sy_daemonize (_ <| sy_children := _ |>)) with (sy_daemonize s2). rewrite Ed. cbn [with_child].
      destruct Hs2 as [[Hn Hf Hc] Ef Ec Er]. split; [split; cbn; [done|done|intros p; rewrite elem_of_difference; intros [Hin _]; by apply Hc]|done| |done].
      cbn. rewrite Ec. set_solver.
    - intros Hno. destruct Hno. cbn. rewrite (sa_children _ _ _ _ Hs2). set_solver. }
  intros failed s3 [Ep3 H3].
  assert (Hleft : forall s', sy_pcapd_pid s' = sy_pcapd_pid s -> sys_at F (with_child (sy_daemonize s') pid C) R s' ->
    body_post F C R s (None, pid) s') by (intros s' E Hs'; split; [done|]; by right).
  destruct failed; [wp_step; by apply Hleft|]. wp_step. eapply wp_mono; [by apply wp_wait_pcapd|].
  intros w s4 [Hm H4]. assert (Ep4 : sy_pcapd_pid s4 = sy_pcapd_pid s) by (injection Hm; congruence).
  destruct w; cbn [bool_decide decide_rel] in H4; rewrite ?bool_decide_eq_false_2, ?bool_decide_eq_true_2 in H4 by done.
  - wp_step. eapply wp_try_fd; [exact H4| |].
    + intros s5 H5 Hm5. wp_step. apply Hleft; [injection Hm5; congruence|]. injection Hm5 as Ed _ _. by rewrite Ed.
    + intros fd s5 Hfd Hnf H5 Hm5. wp_step. wp_step. wp_step. injection Hm5 as Ed _ _. split; [done|]. split; [done|]. split; [|done].
      cbn. change (sy_daemonize (_ <| sy_pcapd_pid := _ |>)) with (sy_daemonize s5). rewrite Ed. keep H5.
  - wp_step. by apply Hleft.
  - wp_step. split; [done|]. left. split; [done|exact H4].
  - wp_step. by apply Hleft.
Qed.

Lemma wp_connectPcapd c polls F C R s :
  is_Some (get_pcapd_pid (sc_pid_file c)) -> sys_at F C R s ->
  wp (connectPcapd c polls) (fun client s' =>
    match client with
    | Some fd =>
        0 < fd /\ fd ∉ F /\ 0 < sy_pcapd_pid s' /\ sy_pcapd_pid s' ∉ C /\
        sys_at ({[fd]} ∪ F) (with_child (sy_daemonize s') (sy_pcapd_pid s') C) R s'
    | None => sys_at F C R s' /\ sy_pcapd_pid s' = sy_pcapd_pid s
    end) s.
Proof.
  intros [old Eold] Hs. unfold connectPcapd. case_bool_decide; [by wp_step|]. wp_step. apply wp_sys_ask. intros dir.
  destruct (dir <? 0); [wp_step; split; [keep Hs|done]|]. wp_step. eapply (wp_try_fd F C R); [keep Hs| |].
  { intros s1 H1 Hm. wp_step. split; [done|]. injection Hm. done. }
  intros sock s1 Hsock Hnew H1 Hm1. wp_step. eapply wp_lift; [exact Eold|]. wp_step.
  apply (wp_mono _ (fun _ s' => sys_at ({[sock]} ∪ F) C R s' /\ sy_pcapd_pid s' = sy_pcapd_pid s)).
  { assert (Ep : sy_pcapd_pid s1 = sy_pcapd_pid s) by (injection Hm1; done). apply wp_when; intros _; [|done].
    eapply wp_mono; [apply wp_kill_process; apply H1|]. intros [] s2 [Ha Hr].
    pose proof (sys_at_added _ _ _ _ _ _ _ H1 Ha) as H2. rewrite !(left_id_L ∅ (∪)), Hr, (sa_rules _ _ _ _ H1) in H2.
    split; [done|]. destruct Ha as (_ & _ & _ & _ & Hm). injection Hm. congruence. }
  intros [] s2 [H2 Ep2]. wp_step. wp_step. wp_step.
  eapply wp_mono; [apply (wp_connect_body c polls sock ({[sock]} ∪ F) C R); keep H2|]. intros [client pid] s3 H3. unfold body_post in H3. cbn [fst snd] in H3.
  (* the process, when there is no client *)
  wp_step. apply (wp_mono _ (fun _ s' => match client with
    | Some fd => 0 < fd /\ fd ∉ {[sock]} ∪ F /\ 0 < sy_pcapd_pid s' /\ sy_pcapd_pid s' ∉ C /\
        sys_at ({[fd]} ∪ ({[sock]} ∪ F)) (with_child (sy_daemonize s') (sy_pcapd_pid s') C) R s'
    | None => sys_at ({[sock]} ∪ F) C R s' /\ sy_pcapd_pid s' = sy_pcapd_pid s end)).
  { destruct client as [fd|]; cbn [fst snd] in *.
    { apply wp_when; intros Hb; [rewrite bool_decide_eq_false_2 in Hb by done; done|].
      destruct H3 as (? & ? & H3 & ? & ? & Ep). rewrite Ep. done. }
    destruct H3 as [Ep3 [[-> H3]|(Hpid & Hpn & H3)]].
    { apply wp_when; intros Hb; [done|]. split; [done|]. rewrite Ep3. exact Ep2. }
    apply wp_when; intros Hb; [|rewrite bool_decide_eq_true_2 in Hb by done; cbn in Hb; destruct (Z.ltb_spec 0 pid); [done|lia]].
    wp_step. eapply wp_mono; [apply wp_kill_process; apply H3|]. intros [] s4 [Ha Hr].
    pose proof (sys_at_added _ _ _ _ _ _ _ H3 Ha) as H4. rewrite !(left_id_L ∅ (∪)), Hr, (sa_rules _ _ _ _ H3) in H4.
    destruct Ha as (_ & _ & _ & _ & Hm). assert (Ed : sy_daemonize s4 = sy_daemonize s3) by (by injection Hm).
    assert (Ep4 : sy_pcapd_pid s4 = sy_pcapd_pid s) by (injection Hm; intros _ -> _; rewrite Ep3; exact Ep2). rewrite <-Ed in H4.
    wp_step. wp_step. destruct (sy_daemonize s4) eqn:Ed4; cbn [negb with_child] in *.
    { apply wp_when; [done|]. intros _. by split. }
    apply wp_when; [intros _|done]. wp_step. apply wp_sys_ask. intros st. wp_step. apply wp_waitpid.
    - intros _. wp_step. split; [|done]. destruct H4 as [[Hn Hf Hc] Ef Ec Er].
      split; [split; cbn; [done|done|intros p; rewrite elem_of_difference; intros [Hin _]; by apply Hc]|done| |done]. cbn. rewrite Ec. set_solver.
    - intros Hno. destruct Hno. cbn. rewrite (sa_children _ _ _ _ H4). set_solver. }
  intros [] s4 H4. wp_step. wp_step. wp_step.
  assert (Hdrop : forall G X s', sock ∉ G -> sys_at ({[sock]} ∪ G) X R s' ->
    sys_at G X R (s' <| sy_socket_file := false |> <| sy_fds := sy_fds s' ∖ {[sock]} |>)).
  { intros G X s' Hg [[Hn Hf Hc] Ef Ec Er]. split; [split; cbn; [done|intros x; rewrite elem_of_difference; intros [Hin _]; by apply Hf|done]| |done|done].
    cbn. rewrite Ef. set_solver. }
  apply wp_close_fd.
  { cbn. destruct client as [fd|]; [destruct H4 as (_ & _ & _ & _ & H4)|destruct H4 as [H4 _]]; rewrite (sa_fds _ _ _ _ H4); set_solver. }
  wp_step. destruct client as [fd|].
  - destruct H4 as (Hfd & Hfn & Hp & Hpn & H4). do 2 (split; [done || set_solver|]). split; [done|]. split; [done|].
    apply (Hdrop _ _ s4); [set_solver|]. rewrite (union_assoc_L {[sock]}), (union_comm_L {[sock]}), <-(union_assoc_L {[fd]}). exact H4.
  - destruct H4 as [H4 Ep]. split; [|done]. by apply (Hdrop _ _ s4).
Qed.

(** ** The rules *)

Definition rule (addon uid : Z) : cstr := drop 10 (default [] (get_mitm_redirection_args addon uid true)).
(** With the arguments of the program iptables adds the rule or removes it. *)
Lemma iptables_rule addon uid add args l :
  get_mitm_redirection_args addon uid add = Some args ->
  iptables args l = (if add then Some (rule addon uid :: l) else remove_first (rule addon uid) l) /\
  has_prefix (str (if add then "-t nat -I " else "-t nat -D ")) args = true.
Proof.
  intros E. unfold rule. destruct (mitm_args_fit addon uid true) as [args' E']. rewrite E'. cbn [default]. revert E E'.
  unfold get_mitm_redirection_args. cbv zeta. set (w := if 0 <=? uid then _ else _). clearbody w.
  destruct (_ <? 128) in |- *; [intros [= <-]|done]. destruct (_ <? 128) in |- *; [intros [= <-]|done].
  destruct add; split; done.
Qed.
Lemma remove_first_app r ins R :
  r ∉ R -> (r ∉ ins /\ remove_first r (ins ++ R) = None) \/
           exists ins', ins ≡ₚ r :: ins' /\ remove_first r (ins ++ R) = Some (ins' ++ R).
Proof.
  intros HR. induction ins as [|x ins IH]; cbn [app remove_first].
  - left. split; [by apply not_elem_of_nil|]. induction R as [|y R IHR]; [done|]. apply not_elem_of_cons in HR as [Hy HR].
    cbn [remove_first]. rewrite bool_decide_eq_false_2 by done. by rewrite IHR.
  - case_bool_decide as Ex; [subst x; right; by exists ins|]. destruct IH as [[Hn ->]|(ins' & Hp & ->)].
    + left. split; [by apply not_elem_of_cons|done].
    + right. exists (x :: ins'). split; [rewrite Hp; apply Permutation_swap|done].
Qed.

(** The deletions are run, and a command that is run does what it says. *)
Definition deletes_work : Prop :=
  (forall n, fork_ok n = true) /\ (forall n args, has_prefix (str "-t nat -D ") args = true -> sh_status n args = 0).
Definition rule_post (c : start_conf) (uid : Z) (add : bool) F C (L : list cstr) (s : sys) (rv : Z) (s' : sys) : Prop :=
  members s' = members s /\ exists L', sys_at F C L' s' /\
  let after := if add then Some (rule (sc_addon_uid c) uid :: L) else remove_first (rule (sc_addon_uid c) uid) L in
  (rv = 0 /\ after = Some L' \/ rv <> 0 /\ L' = L /\ (deletes_work -> add = false -> after = None)).
Lemma wp_rule {B} c uid add F C L (k : Z -> M sys B) (Q : B -> sys -> Prop) s :
  sys_at F C L s -> (forall rv s', rule_post c uid add F C L s rv s' -> wp (k rv) Q s') ->
  wp (args ← liftO (get_mitm_redirection_args (sc_addon_uid c) uid add); rv ← run_shell_cmd (str "iptables") args true; k rv) Q s.
Proof.
  intros Hs Hk. destruct (mitm_args_fit (sc_addon_uid c) uid add) as [args E].
  destruct (iptables_rule (sc_addon_uid c) uid add args L E) as [Ei Ep]. wp_step. eapply wp_lift; [exact E|].
  wp_step. eapply wp_mono; [apply wp_run_shell_cmd; apply Hs|]. intros rv s1 [Ha Hr]. apply Hk.
  rewrite (sa_rules _ _ _ _ Hs) in Hr. pose proof (sys_at_added _ _ _ _ _ _ _ Hs Ha) as H1. rewrite !(left_id_L ∅ (∪)) in H1.
  destruct Ha as (_ & _ & _ & _ & Hm). split; [done|]. exists (sy_rules s1). split; [done|]. cbv zeta. rewrite <-Ei.
  destruct Hr as [[-> Hr]|(_ & -> & Hr)]; [|by left]. right. destruct (Hr eq_refl) as [Hrv Hno]. split; [done|]. split; [done|].
  intros [Hf Hst] ->. apply Hno; [done|]. intros n. by apply Hst.
Qed.

Lemma wp_add_rules c uids F C R : forall ins cleanup s,
  sys_at F C (ins ++ R) s -> (cleanup = false -> ins = []) ->
  wp (add_rules c uids cleanup) (fun r s' => members s' = members s /\ exists ins',
    sys_at F C (ins' ++ R) s' /\ ins' ⊆+ ins ++ (rule (sc_addon_uid c) <$> uids) /\ (snd r = false -> ins' = [])) s.
Proof.
  induction uids as [|uid uids IH]; intros ins cleanup s Hs Hc; cbn [add_rules].
  { wp_step. split; [done|]. exists ins. split; [done|]. split; [|done]. by rewrite app_nil_r. }
  eapply wp_rule; [exact Hs|]. intros rv s1 (Hm & L' & H1 & HL). cbv zeta in HL.
  destruct HL as [[-> HL]|(Hrv & -> & _)].
  - injection HL as <-. cbn [Z.eqb negb]. eapply wp_mono; [apply (IH (rule (sc_addon_uid c) uid :: ins) true); [exact H1|done]|].
    intros r s2 (Hm2 & ins' & H2 & Hsub & Hr). split; [congruence|]. exists ins'. split; [done|]. split; [|done].
    rewrite Hsub. cbn. by rewrite Permutation_middle.
  - destruct (Z.eqb_spec rv 0) as [?|_]; [done|]. cbn [negb]. wp_step. split; [done|]. exists ins. split; [done|]. split; [|done].
    by apply submseteq_inserts_r.
Qed.

Lemma remove_one r us ins R :
  r ∉ R -> ins ⊆+ r :: us -> exists ins', default (ins ++ R) (remove_first r (ins ++ R)) = ins' ++ R /\ ins' ⊆+ us.
Proof.
  intros Hr Hsub. destruct (remove_first_app r ins R Hr) as [[Hn ->]|(ins' & Hp & ->)]; cbn [default].
  - exists ins. split; [done|]. apply submseteq_cons_r in Hsub as [?|(k & Hk & _)]; [done|]. destruct Hn. rewrite Hk. by left.
  - exists ins'. split; [done|]. rewrite Hp in Hsub. by apply (submseteq_app_inv_l _ _ [r]).
Qed.
Lemma wp_remove_rules c ins F C R s :
  sys_at F C (ins ++ R) s -> ins ⊆+ rule (sc_addon_uid c) <$> mitm_uids (sc_uids c) ->
  wp (remove_rules c) (fun _ s' => members s' = members s /\ exists L, sys_at F C L s' /\
    (deletes_work -> Forall (fun u => rule (sc_addon_uid c) u ∉ R) (mitm_uids (sc_uids c)) -> L = R)) s.
Proof.
  intros Hs Hsub. unfold remove_rules. set (all := mitm_uids (sc_uids c)) in *. set (free := Forall (fun u => rule (sc_addon_uid c) u ∉ R)).
  eapply wp_mono; [apply (wp_for (fun us s' => members s' = members s /\ exists L, sys_at F C L s' /\
    (deletes_work -> free all -> free us /\ exists ins, L = ins ++ R /\ ins ⊆+ rule (sc_addon_uid c) <$> us)))|].
  - split; [done|]. exists (ins ++ R). split; [done|]. intros _ HR. split; [done|]. by exists ins.
  - intros uid us' s1 (Hm & L & H1 & Hinv). eapply wp_rule; [exact H1|].
    intros rv s2 (Hm2 & L' & H2 & HL). wp_step. split; [congruence|]. exists L'. split; [done|]. intros Hw HR. cbv zeta in HL.
    destruct (Hinv Hw HR) as [[Hu Hus]%Forall_cons (ins' & -> & Hins)]. split; [done|].
    assert (Hd : L' = default (ins' ++ R) (remove_first (rule (sc_addon_uid c) uid) (ins' ++ R))).
    { destruct HL as [(_ & HL)|(_ & -> & Hno)]; [by rewrite HL|]. by rewrite Hno. }
    rewrite Hd. by apply remove_one.
  - intros [] s1 (Hm & L & H1 & Hinv). split; [done|]. exists L. split; [done|]. intros Hw HR.
    destruct (Hinv Hw HR) as [_ (ins' & -> & Hn)]. by apply submseteq_nil_r in Hn as ->.
Qed.
(** ** The whole *)

(** The rules are those there were, if deleting works and none of them is one of those
    that are added. *)
Definition rules_back (c : start_conf) (R L : list cstr) : Prop :=
  deletes_work -> Forall (fun u => rule (sc_addon_uid c) u ∉ R) (mitm_uids (sc_uids c)) -> L = R.
(** From the label [cleanup]. *)
Lemma wp_wait_daemon C s :
  (sy_pcapd_pid s <= 0 -> sy_children s = C) ->
  (0 < sy_pcapd_pid s -> sy_pcapd_pid s ∉ C /\ sy_children s = with_child (sy_daemonize s) (sy_pcapd_pid s) C) ->
  wp (if (0 <? sy_pcapd_pid s) && negb (sy_daemonize s) then a ← ask; waitpid (sy_pcapd_pid s) a else mret None)
    (fun _ s' => sy_fds s' = sy_fds s /\ sy_rules s' = sy_rules s /\ sy_children s' = C) s.
Proof.
  intros H0 H1. destruct (Z.ltb_spec 0 (sy_pcapd_pid s)) as [Hp|Hp]; cbn [andb].
  2:{ wp_step. split; [done|]. split; [done|]. by apply H0. }
  destruct (H1 Hp) as [Hn Ec]. destruct (sy_daemonize s); cbn [negb with_child] in *.
  { wp_step. done. }
  wp_step. apply wp_sys_ask. intros a. apply wp_waitpid.
  - intros _. split; [done|]. split; [done|]. cbn. rewrite Ec. set_solver.
  - intros Hno. destruct Hno. cbn. rewrite Ec. set_solver.
Qed.

(** C7: if pipes can be created and a process that was started can be waited for, then
    whether the capture with root starts or not and however it ends (the daemon does not
    start, dies, does not connect in time or leaves itself behind; some of the rules of
    iptables cannot be added), every descriptor opened for it is closed, and is not closed
    twice, and every process it started was waited for.  If moreover deleting rules works
    and none of the rules it adds was there before, the rules of iptables are those
    there were.  When a second pipe cannot be created the first stays open
    ([second_pipe_leaks]). *)
Theorem root_capture_restores c polls s :
  sys_wf s -> sy_pcapd_pid s <= 0 -> is_Some (get_pcapd_pid (sc_pid_file c)) ->
  wp (run_libpcap_system c polls) (fun _ s' =>
    sy_fds s' = sy_fds s /\ sy_children s' = sy_children s /\ rules_back c (sy_rules s) (sy_rules s')) s.
Proof.
  intros Hs Hp Hpid. unfold run_libpcap_system. wp_step.
  eapply wp_mono; [apply (wp_connectPcapd c polls (sy_fds s) (sy_children s) (sy_rules s)); [done|by split]|].
  intros [fd|] s1 H1.
  2:{ destruct H1 as [[_ <- <- <-] Ep]. wp_step. wp_step. wp_step. wp_step. wp_step. cbn [whenM]. wp_step. wp_step. wp_step. wp_step.
      eapply wp_mono; [apply (wp_wait_daemon (sy_children s1)); [done|rewrite Ep; lia]|]. intros st s2 (E1 & E2 & E3). wp_step. by rewrite E1, E2, E3. }
  destruct H1 as (Hfd & Hnf & Hpp & Hpc & H1). set (C1 := with_child _ _ _) in H1. wp_step.
  apply (wp_mono _ (fun r s' => members s' = members s1 /\ exists ins, sys_at ({[fd]} ∪ sy_fds s) C1 (ins ++ sy_rules s) s' /\
    ins ⊆+ rule (sc_addon_uid c) <$> mitm_uids (sc_uids c) /\ (snd r = false -> ins = []))).
  { destruct (sc_tls c); [|wp_step; split; [done|]; exists []; split; [done|]; split; [apply submseteq_nil_l|done]].
    by apply (wp_add_rules c _ _ _ _ [] false). }
  intros [started cleanup] s2 (Hm & ins & H2 & Hsub & Hins). cbn [snd] in Hins. wp_step. apply wp_close_fd; [rewrite (sa_fds _ _ _ _ H2); set_solver|].
  set (s3 := s2 <| sy_fds := _ |>). assert (H3 : sys_at (sy_fds s) C1 (ins ++ sy_rules s) s3).
  { destruct H2 as [[Hn Hf Hc] Ef Ec Er]. split; [split; cbn; [done|intros x; rewrite elem_of_difference; intros [Hin _]; by apply Hf|done]| |done|done].
    cbn. rewrite Ef. set_solver. }
  wp_step. apply (wp_mono _ (fun _ s' => members s' = members s1 /\ exists L, sys_at (sy_fds s) C1 L s' /\ rules_back c (sy_rules s) L)).
  { apply wp_when; intros Hc.
    - eapply wp_mono; [apply (wp_remove_rules c ins _ _ _ _ H3 Hsub)|]. intros [] s4 (Hm4 & H4). split; [by rewrite Hm4|done].
    - split; [done|]. exists (ins ++ sy_rules s). split; [done|]. by rewrite (Hins Hc). }
  intros [] s4 (Hm4 & L & [_ <- E4 <-] & HL). wp_step. wp_step. wp_step. injection Hm4 as Ed Ep _.
  eapply wp_mono; [apply (wp_wait_daemon (sy_children s))|].
  - rewrite Ep. lia.
  - intros _. rewrite Ed, Ep. done.
  - intros st s5 (E1 & E2 & E3). wp_step. by rewrite E1, E2, E3.
Qed.

End prims.

(** ** Concrete runs *)

(** Calls answer 0 except those listed, which answer 1; pipes and processes are created
    except those listed; the second insertion of a rule fails. *)
Definition env_ex (ones no_pipe : list nat) (bad : nat -> cstr -> Z) : StartEnv :=
  {| ans n := if bool_decide (n ∈ ones) then 1 else 0;
     pipe_ok n := negb (bool_decide (n ∈ no_pipe)); fork_ok _ := true; sh_status := bad |}.
Definition second_fails (n : nat) (args : cstr) : Z :=
  if bool_decide (args = str "-t nat -I OUTPUT -p tcp -m owner --uid-owner 10124 -j REDIRECT --to 7780") then 256 else 0.
Definition s_ex : sys := Sys 0 3 ∅ ∅ false [] [str "OUTPUT -j ACCEPT"] false 0.
Definition c_ex (file_capture : bool) (tls : bool) : start_conf :=
  StartConf (str "/lib/libpcapd.so") None [] (str "wlan0") file_capture 10100 tls [10123; 10124] 10200.
Definition run_ex_m ones no_pipe file tls : M sys (bool * option Z) :=
  run_libpcap_system (H := env_ex ones no_pipe second_fails) (c_ex file tls) 10.

Lemma s_ex_wf : sys_wf s_ex.
Proof. split; [done|intros x Hx; by apply elem_of_empty in Hx..]. Qed.
Lemma rules_ex c R L :
  sc_addon_uid c = 10200 -> sc_uids c = [10123; 10124] -> R = [str "OUTPUT -j ACCEPT"] ->
  rules_back (H := env_ex [7%nat; 8%nat] [] second_fails) c R L -> L = R.
Proof.
  intros Ea Eu -> Hb. apply Hb; [|rewrite Ea, Eu; apply (bool_decide_unpack _); by vm_compute].
  split; [done|]. intros n args Hp. cbn [sh_status env_ex]. unfold second_fails. case_bool_decide; [|done]. by subst args.
Qed.
(** The second rule is not added, and the first one is removed again. *)
Lemma root_capture_restores_witness :
  sys_wf s_ex /\
  wp (run_ex_m [7%nat; 8%nat] [] false true) (fun _ s' =>
    sy_fds s' = ∅ /\ sy_children s' = ∅ /\ sy_rules s' = [str "OUTPUT -j ACCEPT"]) s_ex.
Proof.
  split; [exact s_ex_wf|]. eapply wp_mono.
  - apply (@root_capture_restores (env_ex [7%nat; 8%nat] [] second_fails) (fun _ => eq_refl) (c_ex false true) 10 s_ex s_ex_wf);
      [done|by eexists].
  - intros r s' (Hf & Hc & Hr). split; [exact Hf|]. split; [exact Hc|]. exact (rules_ex (c_ex false true) _ _ eq_refl eq_refl eq_refl Hr).
Defined.
Example root_capture_commands :
  (fun r => rev (sy_commands (snd r))) <$> run_ex_m [7%nat; 8%nat] [] false true s_ex = Some
    [str "su: /lib/libpcapd.so -l pcapd.log -L 10100 -i 'wlan0' -u -1 -t -b '' -d";
     str "su: iptables -t nat -I OUTPUT -p tcp -m owner --uid-owner 10123 -j REDIRECT --to 7780";
     str "su: iptables -t nat -I OUTPUT -p tcp -m owner --uid-owner 10124 -j REDIRECT --to 7780";
     str "su: iptables -t nat -D OUTPUT -p tcp -m owner --uid-owner 10123 -j REDIRECT --to 7780";
     str "su: iptables -t nat -D OUTPUT -p tcp -m owner --uid-owner 10124 -j REDIRECT --to 7780"].
Proof. by vm_compute. Qed.

(** A daemon that does not connect in time is not the process that is killed: it left
    its launcher, number 6, which was waited for before. *)
Example kills_the_launcher :
  (fun r => (head (sy_commands (snd r)), elements (sy_children (snd r)))) <$>
  run_ex_m ((fun k => 8 + 2 * k)%nat <$> seq 0 10) [] false false s_ex = Some (Some (str "su: kill -9 6"), []).
Proof. by vm_compute. Qed.

(** When the second pipe cannot be created the first one stays open. *)
Example second_pipe_leaks :
  (fun r => elements (sy_fds (snd r))) <$> run_shell_cmd (H := env_ex [] [1%nat] second_fails) (str "kill") [] true s_ex = Some [3; 4].
Proof. by vm_compute. Qed.

End LibpcapSys.
